(* ===== verification/_CoqProject ===== *)
-Q . S2P
Prelude.v
Util.v
Sums.v
Bitmap.v
Recorder.v
Mem.v
Wqe.v
PostSend.v
PostSendSpec.v
NewSend.v
NewSendSpec.v
PostRecv.v
Srq.v
SrqSpec.v
Tables.v
Tm.v
Cq.v
CqSpec.v
CqClean.v
Crc32.v
Fusa.v
RpcServer.v
Agent.v
AgentDecide.v
Consensus.v
QpSize.v
Dbrec.v
CreateQp.v
IntervalSet.v
Buddy.v
SmartAlloc.v
HtBlock.v
HashTable.v
HtSetup.v
HashTableSpec.v
HtRefine.v
HtShards.v
