(* ===== verification/Prelude.v ===== *)
(** * Verification of Fusa

    Fusa is a fork of rdma-core whose mlx5 driver can execute an RDMA atomic in
    two ways: by the network card, or by a message (RPC) to a server process
    that executes it on a CPU.  Which way an address takes is decided by agents
    that collect the counters of all machines, and the driver's posting function
    follows the decision.  Its main application is a hash table on remote
    memory.  This library models the driver's data path, the Fusa hooks, the
    agents, the RPC server and the hash table, and proves their contracts.

    ** The program and its parts

    - providers/mlx5/verbs.c creates queue pairs: it computes the sizes of the
      rings, allocates buffers, a doorbell record (dbrec.c) and a number in the
      tables of the context (mlx5.c), and asks the kernel for the rest.  The
      Fusa hook in [mlx5_create_qp] registers the queue pair in a region of
      shared memory (recorder.h).
    - providers/mlx5/qp.c posts requests: [_mlx5_post_send] and the extended
      interface write work queue entries (WQEs) into the send ring and ring the
      doorbell; [mlx5_post_send] is the Fusa hook in front of it, which counts
      atomics, and turns those of slots with credit into RPC messages.  Receives
      are posted by qp.c and srq.c.
    - providers/mlx5/cq.c reads the completions the device writes and gives the
      slots of the rings back.
    - fusioncas/agent: an agent on every machine sends the counters to an agent
      server, which decides on a strategy and distributes it; the agent copies
      it into the shared region and waits until no queue pair uses the old one.
    - fusioncas/test/server.cpp scans the message slots, executes the messages
      and replies.
    - fusioncas/smart and smart_ht: the SMART runtime, whose initiator allocates
      the memory of the nodes (smart/initiator.cpp), and an extendible hash
      table in this memory that clients read and change by RDMA alone
      (smart_ht/hashtable.cpp).
    - util and dr_buddy.c, dr_crc32.c: bitmaps, interval sets, integer helpers,
      the buddy allocator and the checksum of software steering.

    ** Conventions

    A w-bit integer is a [Z]; where C wraps, the model wraps ([u32], [u64],
    [i32], [notu], [shlu]).  An array is a list with [l.[i]], [aset] and [amod];
    an access outside of it, a failed assertion, a division by zero or a signed
    overflow is [None], so that a result [Some _] says that there is none.  A
    wait that nothing can end is [None] as well: a server thread that polls for
    a completion of a request it has not posted (RpcServer.v), a thread that
    sleeps for ever on an error completion (Cq.v).
    Memory that devices or other processes read (rings, doorbell records,
    messages) is a function from addresses to bytes (Mem.v); objects private to
    a process are records.  Code outside the sources, and what the kernel or
    an allocator answers, is an argument of the definitions.

    ** Files

    - Prelude.v: machine integers, arrays, loops, the option monad, tactics.
      Util.v (util/util.h, ccan/ilog.c): rounding, logarithms.  Sums.v: sums.
      Bitmap.v (util/bitmap.c): bitmaps; every operation in terms of [bitmap_bit].
    - Mem.v: byte-addressed memory.  Wqe.v: segments of WQEs and their writers.
      PostSend.v: [_mlx5_post_send]; PostSendSpec.v: its contract, stated over
      what the device reads.  NewSend.v, NewSendSpec.v: the extended interface.
      PostRecv.v: receives, scatter to completions, memory windows.
    - Srq.v, SrqSpec.v: shared receive queues.  Tm.v: tag matching.
      Tables.v: the tables of objects.
    - Cq.v: completion queues, as a state monad over the context; CqSpec.v:
      polling and termination; CqClean.v: cleaning.
    - QpSize.v: the sizes of rings.  CreateQp.v: [create_qp], [mlx5_modify_qp],
      [mlx5_destroy_qp], as traces of what is acquired and released.  Dbrec.v:
      doorbell records.
    - Recorder.v: the shared region, registration and lookup of queue pairs,
      Bloom filter, lock table.  Fusa.v: the hook [mlx5_post_send].
      Consensus.v: the change of strategy, as a step relation that interleaves
      the agent with the hooks.  RpcServer.v: the server.  Agent.v,
      AgentDecide.v: the agents and the decision.
    - IntervalSet.v, Buddy.v, Crc32.v: interval sets, buddy allocator, checksum.
    - SmartAlloc.v: [Initiator::alloc_memory] and [free_memory] with the chunks
      of a node and the free lists of a client.  HtBlock.v: the hashes of keys
      and the blocks that hold a key and a value.  HashTable.v:
      [RemoteHashTable] over an allocator given by the class [Initiator], in a
      monad of state and of the reasons to stop.  HtSetup.v: [Setup] of a node,
      and SmartAlloc.v as an instance of the class.  HashTableSpec.v: the
      invariant of the table and what every operation does to the map it holds,
      for every allocator that meets [InitiatorSpec].  HtRefine.v: the instance
      of this interface, the invariant after [Setup], and sequences of
      operations.  HtShards.v: [RemoteHashTableMultiShard].

    ** What the theorems show

    - Fusa: an atomic is posted to the device unchanged or becomes exactly the
      message that carries it, in a slot of its own (hook_to_device,
      hook_to_rpc, rpc_slot_bounds, rpc_slots_disjoint); the server executes it
      as an atomic, and a pass of the server returns and leaves no message
      pending, its waits for completions of replies included (rpc_cas_served,
      rpc_pass_serves_all, rpc_slots_agree); registrations do not collide
      (fusa_registration).
    - Strategy: when the agent has finished, nobody acts on the old strategy,
      in every interleaving, and it is never stuck and has a bounded number of
      steps, but for the times it finds a queue pair in its call
      (consensus_safe, consensus_terminates); collection loses no count, totals
      are exact, and the decision always has a result within the capacity of
      the CPU (collect_counts, scan_totals, decide_total, decide_capacity).
    - Data path: a chain of requests is in the ring as the device reads it, at
      its end wrapped, and nothing else changes; errors leave the requests
      before posted, and at most bytes of the slot of the one refused; a batch
      that is given up is rolled back; the ring is never overcommitted; receives and shared receives
      likewise, as a queue; completions report the requests they are of
      (post_send_*, ex_batch_*, post_recv_chain, srq_*, poll_after_post,
      cq_clean_removes, parse_cqe_terminates, copy_to_send_wqe_scatters).
    - Life of a queue pair: rings have room for what was asked for; a failed
      creation releases everything it acquired; destruction undoes creation; a
      created queue pair, or one reset and led through its states as the manual
      asks, meets the assumptions of the posting theorems
      (calc_*_size_spec, create_qp_failure_clean, destroy_undoes_create,
      created_queue_posts, reset_queue_posts, dbrec_refines_set,
      tables_are_maps).
    - Remote memory: blocks that clients allocate never overlap and lie in the
      node (smart_alloc_safe); the hash table returns what a finite map returns,
      through the splits of subtables and the growth of the directory, stops
      only for lack of memory or depth and never leaves the memory of the node
      (hash_table_refines); several nodes are one map (shards_refine); a block
      is read back as it was written (block_roundtrip).
    - Allocators and helpers: buddy_refines, iset_alloc_first_fit,
      crc32_slice8_equiv, and the lemmas of Util.v, Bitmap.v and IntervalSet.v.

    Theorems outside these groups record deviations: cases in which the code
    does not do what its comments or its callers expect, as lemmas on concrete
    or general inputs next to the component they are about.

    ** Bounds and fuel

    Loops without a structural bound take fuel.  A loop that consumes an array
    or a range has one unit per element and one for the exit
    ([find_first_bit_loop], [find_order], [merge_block], [clean_loop]); the
    parser of completions, which jumps back after entries handled internally,
    has one unit per entry of the ring, and parse_cqe_terminates proves that
    it reaches a turn that does not jump within them.  The retry loops of the hash table share the fuel [spin];
    20 units are enough for one client, whose inserts grow the directory at
    most 12 times.  No theorem has running out of fuel as an alternative.
    Rings have at most 2^22 completions and 2^25 basic blocks, and buddy
    allocators at most 30 orders, the limits within which the C code's own
    integer types do not overflow.  The subtraction of [int]s in
    [__mlx5_cq_clean] is modelled as wrapping.

    ** Not modelled

    - Locks, memory barriers, tracing and debug output; concurrency is modelled
      where it matters, in Consensus.v, in the environment steps of Agent.v and
      RpcServer.v and in the lock table of Recorder.v.
    - In the hash table other clients and other tasks of the same thread, with
      the retries they cause: hash_table_refines is about one task.  Its
      constructors, which connect to the nodes, the barriers between machines,
      and the back-off and time measurement of the retries.  The hash function
      of the key cache ([std::hash]) is an arbitrary function.
    - The configurations of the hook that recorder.h disables
      (__STATIC_STRAG, __SEQUENCER, __LOCAL_LOCK_TABLE, __RETRY_AVOID, FUSA_RPC).
    - The device and the kernel: that a posted request completes
      (RpcServer.v: a wait for one that is posted ends), that a write is seen,
      and what a command does are assumptions or arguments.  A completion queue
      shared by server threads is not modelled.  The steps of Consensus.v are
      sequentially consistent.
    - What outlives a queue pair: the memory region that the copy engine's
      queue pairs share belongs to the protection domain and is in no trace of
      CreateQp.v.  Memory of the hash table's client cache is not limited.
    - In the extended interface the builders of memory keys; in the completion
      queues the creation calls; in queue pair creation the clearing of buffers
      and the choice of a register.
    - Software steering except the two parts above, VFIO, the other providers,
      the libraries for connection and subnet management, the daemons, and
      the benchmark programs: commands to the kernel, network traffic or other
      devices, with no part in Fusa. *)

From stdpp Require Export prelude gmap.
From Stdlib Require Export ZArith Lia.

#[global] Open Scope Z_scope.

(** ** Machine integers

    A w-bit unsigned integer is a [Z] in [0, 2^w); the wrap-around of C's
    unsigned arithmetic is [wrapu w], and [i32] is the conversion to [int]. *)

Definition wrapu (w : Z) (x : Z) : Z := x mod 2 ^ w.
Abbreviation u8 := (wrapu 8).
Abbreviation u16 := (wrapu 16).
Abbreviation u32 := (wrapu 32).
Abbreviation u64 := (wrapu 64).

Definition i32 (x : Z) : Z := (x + 2 ^ 31) mod 2 ^ 32 - 2 ^ 31.

(** Bitwise complement at width [w]. *)
Definition notu (w : Z) (x : Z) : Z := 2 ^ w - 1 - x.

(** A left shift at width [w]. *)
Definition shlu (w x n : Z) : Z := wrapu w (Z.shiftl x n).

Definition in_width (w x : Z) : Prop := 0 <= x < 2 ^ w.

(** [ffsl]: one plus the index of the least significant set bit, 0 on 0. *)
Fixpoint pos_ctz (p : positive) : Z :=
  match p with
  | xO q => 1 + pos_ctz q
  | _ => 0
  end.

Definition ffsl (x : Z) : Z :=
  match x with
  | Zpos p => 1 + pos_ctz p
  | _ => 0
  end.

(** The value of a C condition used as an integer. *)
Definition b2z (b : bool) : Z := if b then 1 else 0.

(** ** Arrays

    Reads and writes at a [Z] index; [None] is an access outside the array,
    which in C is undefined behaviour. *)

Definition alen {A} (l : list A) : Z := Z.of_nat (length l).

Definition aget {A} (l : list A) (i : Z) : option A :=
  if (0 <=? i) then l !! Z.to_nat i else None.

Definition aset {A} (l : list A) (i : Z) (x : A) : option (list A) :=
  if (0 <=? i) && (i <? alen l) then Some (<[Z.to_nat i := x]> l) else None.

Definition amod {A} (l : list A) (i : Z) (f : A -> A) : option (list A) :=
  x ← aget l i; aset l i (f x).

Declare Scope carr_scope.
Delimit Scope carr_scope with carr.
Notation "l .[ i ]" := (aget l i) (at level 1, format "l .[ i ]") : carr_scope.
#[global] Open Scope carr_scope.

(** ** Counted loops

    [for_from n i f s] runs the body [f] at [i], [i+1], ..., [i+n-1]; [None]
    is undefined behaviour of the body. *)
Fixpoint for_from {S} (n : nat) (i : Z) (f : Z -> S -> option S) (s : S) : option S :=
  match n with
  | O => Some s
  | Datatypes.S n' => s' ← f i s; for_from n' (i + 1) f s'
  end.

(** ** Tactics *)

(** Splits a hypothesis about the result of a monadic computation. *)
Ltac inv_bind :=
  repeat match goal with
  | H : _ ≫= _ = Some _ |- _ => apply bind_Some in H; destruct H as (?&?&H)
  | H : Some _ = Some _ |- _ => injection H as H; try subst
  | H : Some _ = None |- _ => discriminate H
  | H : None = Some _ |- _ => discriminate H
  end.

(** Case split on a boolean comparison of [Z]. *)
Ltac zcase :=
  match goal with
  | |- context [?a <? ?b] => destruct (Z.ltb_spec a b)
  | |- context [?a <=? ?b] => destruct (Z.leb_spec a b)
  | |- context [?a =? ?b] => destruct (Z.eqb_spec a b)
  end.

Ltac zcase_in H :=
  match type of H with
  | context [?a <? ?b] => destruct (Z.ltb_spec a b)
  | context [?a <=? ?b] => destruct (Z.leb_spec a b)
  | context [?a =? ?b] => destruct (Z.eqb_spec a b)
  end.

(** [lia] after replacing quotients and remainders by their equations. *)
Ltac dlia := Z.div_mod_to_equations; lia.
Ltac dnia := Z.div_mod_to_equations; nia.

(** Decides a goal by cases on its comparisons, dropping impossible cases as
    soon as they arise. *)
Ltac zcases :=
  Z.div_mod_to_equations;
  repeat (zcase; cbn [andb orb negb]; try (exfalso; lia));
  rewrite ?andb_false_r, ?andb_true_r, ?orb_false_r, ?orb_true_r; try done; try lia.

Create HintDb cint discriminated.
Create HintDb carr discriminated.
Create Rewrite HintDb carr.

(** ** Machine integer lemmas *)

Lemma wrapu_small w x : 0 <= x < 2 ^ w -> wrapu w x = x.
Proof. apply Z.mod_small. Qed.

Lemma wrapu_range w x : 0 <= w -> 0 <= wrapu w x < 2 ^ w.
Proof. intros. apply Z.mod_pos_bound. lia. Qed.

Lemma wrapu_wrapu w x : 0 <= w -> wrapu w (wrapu w x) = wrapu w x.
Proof. intros. apply wrapu_small, wrapu_range; lia. Qed.

Lemma wrapu_add_l w x y : wrapu w (wrapu w x + y) = wrapu w (x + y).
Proof. apply Zplus_mod_idemp_l. Qed.

Lemma wrapu_add_r w x y : wrapu w (x + wrapu w y) = wrapu w (x + y).
Proof. apply Zplus_mod_idemp_r. Qed.

Lemma i32_small x : - 2 ^ 31 <= x < 2 ^ 31 -> i32 x = x.
Proof. intros. unfold i32. rewrite Z.mod_small; lia. Qed.

Lemma testbit_wrapu w x i :
  0 <= w -> Z.testbit (wrapu w x) i = (i <? w) && Z.testbit x i.
Proof.
  intros. unfold wrapu. destruct (Z.ltb_spec i w); simpl.
  - destruct (Z.lt_ge_cases i 0).
    + rewrite !Z.testbit_neg_r by lia. done.
    + apply Z.mod_pow2_bits_low. lia.
  - apply Z.mod_pow2_bits_high. lia.
Qed.

Lemma testbit_high w x i : 0 <= x < 2 ^ w -> w <= i -> Z.testbit x i = false.
Proof.
  intros. destruct (Z.lt_ge_cases w 0) as [|].
  { rewrite Z.pow_neg_r in * by lia. lia. }
  rewrite <- (wrapu_small w x) by lia. rewrite testbit_wrapu by lia.
  destruct (Z.ltb_spec i w); [lia | done].
Qed.

Lemma lor_shift_add a b k : 0 <= k -> 0 <= b < 2 ^ k -> Z.lor (Z.shiftl a k) b = a * 2 ^ k + b.
Proof.
  intros Hk Hb. rewrite <- (Z.shiftl_mul_pow2 a k) by lia. symmetry. apply Z.add_nocarry_lor.
  apply Z.bits_inj'. intros i Hi. rewrite Z.land_spec, Z.bits_0.
  destruct (Z.lt_ge_cases i k); [by rewrite Z.shiftl_spec_low by lia|].
  rewrite (testbit_high k b i) by lia. apply andb_false_r.
Qed.

Lemma land_mod x k : 0 <= k -> Z.land x (2 ^ k - 1) = x mod 2 ^ k.
Proof. intros. rewrite <- Z.land_ones by done. f_equal. rewrite Z.ones_equiv. lia. Qed.

Lemma notu_lnot w x : 0 <= w -> 0 <= x < 2 ^ w -> notu w x = wrapu w (Z.lnot x).
Proof.
  intros. unfold notu, wrapu, Z.lnot.
  rewrite <- (Z.mod_add _ 1) by lia. rewrite Z.mod_small; lia.
Qed.

Lemma notu_range w x : 0 <= x < 2 ^ w -> 0 <= notu w x < 2 ^ w.
Proof. unfold notu. lia. Qed.

Lemma testbit_notu w x i :
  0 <= w -> 0 <= x < 2 ^ w -> 0 <= i ->
  Z.testbit (notu w x) i = (i <? w) && negb (Z.testbit x i).
Proof.
  intros. rewrite notu_lnot, testbit_wrapu by lia.
  rewrite Z.lnot_spec by lia. done.
Qed.

Lemma shlu_range w x n : 0 <= w -> 0 <= shlu w x n < 2 ^ w.
Proof. apply wrapu_range. Qed.

Lemma testbit_shlu w x n i :
  0 <= w -> 0 <= i ->
  Z.testbit (shlu w x n) i = (i <? w) && Z.testbit x (i - n).
Proof.
  intros. unfold shlu. rewrite testbit_wrapu by lia.
  rewrite Z.shiftl_spec by lia. done.
Qed.

Lemma bits_eq_bounded w x y :
  0 <= x < 2 ^ w -> 0 <= y < 2 ^ w ->
  (forall i, 0 <= i < w -> Z.testbit x i = Z.testbit y i) -> x = y.
Proof.
  intros Hx Hy H. apply Z.bits_inj'. intros i Hi.
  destruct (Z.lt_ge_cases i w).
  - apply H. lia.
  - rewrite (testbit_high w x), (testbit_high w y) by lia. done.
Qed.

Lemma bits_range w x :
  0 <= w -> 0 <= x -> (forall i, w <= i -> Z.testbit x i = false) -> 0 <= x < 2 ^ w.
Proof.
  intros Hw Hx H. split; [done|].
  destruct (Z.lt_ge_cases x (2 ^ w)) as [|Hge]; [done|exfalso].
  assert (0 < x) by lia.
  pose proof (Z.bit_log2 x ltac:(lia)) as Hb.
  rewrite H in Hb; [done|].
  apply Z.log2_le_pow2; lia.
Qed.

Lemma land_range w x y : 0 <= w -> 0 <= x < 2 ^ w -> 0 <= y -> 0 <= Z.land x y < 2 ^ w.
Proof.
  intros. apply bits_range; [lia| apply Z.land_nonneg; lia |].
  intros i Hi. rewrite Z.land_spec, (testbit_high w x) by lia. done.
Qed.

Lemma lor_range w x y : 0 <= w -> 0 <= x < 2 ^ w -> 0 <= y < 2 ^ w -> 0 <= Z.lor x y < 2 ^ w.
Proof.
  intros. apply bits_range; [lia| apply Z.lor_nonneg; lia |].
  intros i Hi. rewrite Z.lor_spec, (testbit_high w x), (testbit_high w y) by lia. done.
Qed.

Lemma lxor_range w x y : 0 <= w -> 0 <= x < 2 ^ w -> 0 <= y < 2 ^ w -> 0 <= Z.lxor x y < 2 ^ w.
Proof.
  intros. apply bits_range; [lia| apply Z.lxor_nonneg; lia |].
  intros i Hi. rewrite Z.lxor_spec, (testbit_high w x), (testbit_high w y) by lia. done.
Qed.

Lemma shiftr_range w x n : 0 <= w -> 0 <= n -> 0 <= x < 2 ^ w -> 0 <= Z.shiftr x n < 2 ^ w.
Proof.
  intros. rewrite Z.shiftr_div_pow2 by lia.
  split; [apply Z.div_pos; lia|].
  apply Z.le_lt_trans with x; [|lia]. apply Z.div_le_upper_bound; nia.
Qed.

Lemma eqb_0_testbit x :
  0 <= x -> (x =? 0) = true <-> forall i, 0 <= i -> Z.testbit x i = false.
Proof.
  intros Hx. rewrite Z.eqb_eq. split.
  - intros -> i _. apply Z.testbit_0_l.
  - intros H. apply Z.bits_inj'. intros i Hi. rewrite H, Z.testbit_0_l by lia. done.
Qed.

Lemma eqb_0_testbit_w w x :
  0 <= x < 2 ^ w -> (x =? 0) = true <-> forall i, 0 <= i < w -> Z.testbit x i = false.
Proof.
  intros Hx. rewrite eqb_0_testbit by lia. split; intros H i Hi.
  - apply H. lia.
  - destruct (Z.lt_ge_cases i w); [apply H; lia|]. apply testbit_high with w; lia.
Qed.

(** ** [ffsl] finds the least significant set bit *)

Lemma pos_ctz_spec p :
  0 <= pos_ctz p /\ Z.testbit (Zpos p) (pos_ctz p) = true /\
  forall i, 0 <= i < pos_ctz p -> Z.testbit (Zpos p) i = false.
Proof.
  induction p as [p IH|p IH|]; simpl pos_ctz.
  - split_and!; [lia|done|lia].
  - destruct IH as (Hp & Hb & Hl). rewrite (Pos2Z.inj_xO p). split_and!; [lia| |].
    + replace (1 + pos_ctz p) with (Z.succ (pos_ctz p)) by lia.
      rewrite Z.testbit_even_succ by lia. done.
    + intros i Hi. destruct (Z.eq_dec i 0) as [->|]; [done|].
      replace i with (Z.succ (i - 1)) by lia.
      rewrite Z.testbit_even_succ by lia. apply Hl. lia.
  - split_and!; [lia|done|lia].
Qed.

Lemma ffsl_zero x : 0 <= x -> ffsl x = 0 <-> x = 0.
Proof.
  destruct x as [|p|p]; simpl; intros; [tauto| |lia].
  destruct (pos_ctz_spec p). split; lia.
Qed.

Lemma ffsl_spec x :
  0 < x -> 1 <= ffsl x /\ Z.testbit x (ffsl x - 1) = true /\
  forall i, 0 <= i < ffsl x - 1 -> Z.testbit x i = false.
Proof.
  destruct x as [|p|p]; simpl; intros; try lia.
  destruct (pos_ctz_spec p) as (?&Hb&?). split_and!; [lia| |].
  - replace (1 + pos_ctz p - 1) with (pos_ctz p) by lia. done.
  - intros i Hi. eauto with lia.
Qed.

Lemma ffsl_le w x : 0 < w -> 0 <= x < 2 ^ w -> 0 <= ffsl x <= w.
Proof.
  intros Hw Hx. destruct (Z.eq_dec x 0) as [->|]; [simpl; lia|].
  destruct (ffsl_spec x ltac:(lia)) as (?&Hb&_). split; [lia|].
  destruct (Z.le_gt_cases (ffsl x) w); [done|].
  rewrite (testbit_high w x) in Hb by lia. done.
Qed.

(** ** Array lemmas *)

Lemma alen_nonneg {A} (l : list A) : 0 <= alen l.
Proof. unfold alen. lia. Qed.

Lemma aget_Some_lt {A} (l : list A) i x : aget l i = Some x -> 0 <= i < alen l.
Proof.
  unfold aget, alen. zcase; [|done]. intros Hx%lookup_lt_Some. lia.
Qed.

Lemma aget_lookup {A} (l : list A) i : 0 <= i -> aget l i = l !! Z.to_nat i.
Proof. intros. unfold aget. zcase; [done|lia]. Qed.

Lemma aget_is_Some {A} (l : list A) i : 0 <= i < alen l -> exists x, aget l i = Some x.
Proof.
  unfold alen. intros. rewrite aget_lookup by lia.
  apply lookup_lt_is_Some. lia.
Qed.

Lemma aget_None {A} (l : list A) i : i < 0 \/ alen l <= i -> aget l i = None.
Proof.
  unfold aget, alen. intros. zcase; [|done]. apply lookup_ge_None. lia.
Qed.

Lemma aset_Some {A} (l : list A) i x :
  0 <= i < alen l -> aset l i x = Some (<[Z.to_nat i := x]> l).
Proof.
  intros. unfold aset. zcase; [|lia]. zcase; [done|lia].
Qed.

Lemma aset_inv {A} (l l' : list A) i x :
  aset l i x = Some l' -> 0 <= i < alen l /\ l' = <[Z.to_nat i := x]> l.
Proof.
  unfold aset. repeat zcase; simpl; intros; simplify_eq. done.
Qed.

Lemma aset_alen {A} (l l' : list A) i x : aset l i x = Some l' -> alen l' = alen l.
Proof. intros [_ ->]%aset_inv. unfold alen. by rewrite length_insert. Qed.

Lemma aget_aset {A} (l l' : list A) i j x :
  aset l i x = Some l' -> aget l' j = if i =? j then Some x else aget l j.
Proof.
  intros [Hi ->]%aset_inv. unfold aget, alen in *. destruct (Z.eqb_spec i j).
  - subst. zcase; [|lia]. apply list_lookup_insert_eq. lia.
  - zcase; [|done]. apply list_lookup_insert_ne. lia.
Qed.

Lemma aget_aset_eq {A} (l l' : list A) i x : aset l i x = Some l' -> aget l' i = Some x.
Proof. intros H. rewrite (aget_aset _ _ _ _ _ H), Z.eqb_refl. done. Qed.

Lemma aget_aset_ne {A} (l l' : list A) i j x :
  aset l i x = Some l' -> i <> j -> aget l' j = aget l j.
Proof. intros H ?. rewrite (aget_aset _ _ _ _ _ H). destruct (Z.eqb_spec i j); [lia|done]. Qed.

Lemma aget_insert_eq {A} (l : list A) i x : 0 <= i < alen l -> (<[Z.to_nat i := x]> l).[i] = Some x.
Proof. intros Hi. apply (aget_aset_eq l). by apply aset_Some. Qed.

Lemma aget_insert_ne {A} (l : list A) i j x : 0 <= i < alen l -> i <> j -> (<[Z.to_nat i := x]> l).[j] = l.[j].
Proof. intros Hi Hj. apply (aget_aset_ne l _ i _ x); [by apply aset_Some|done]. Qed.

Lemma amod_Some {A} (l : list A) i f :
  0 <= i < alen l -> exists x l', aget l i = Some x /\ aset l i (f x) = Some l' /\ amod l i f = Some l'.
Proof.
  intros H. destruct (aget_is_Some l i H) as [x Hx].
  exists x, (<[Z.to_nat i := f x]> l). unfold amod. rewrite Hx; simpl.
  rewrite aset_Some by done. done.
Qed.

Lemma aset_Forall {A} (P : A -> Prop) l l' i x :
  aset l i x = Some l' -> Forall P l -> P x -> Forall P l'.
Proof. intros [_ ->]%aset_inv ??. by apply Forall_insert. Qed.

Lemma aget_Forall {A} (P : A -> Prop) l i x : Forall P l -> aget l i = Some x -> P x.
Proof.
  intros Hl Hx. pose proof (aget_Some_lt _ _ _ Hx).
  rewrite aget_lookup in Hx by lia. by eapply Forall_lookup_1.
Qed.

Lemma aget_replicate {A} n (x : A) i : 0 <= i < Z.of_nat n -> aget (replicate n x) i = Some x.
Proof. intros. rewrite aget_lookup by lia. apply lookup_replicate_2. lia. Qed.

Lemma alen_replicate {A} n (x : A) : alen (replicate n x) = Z.of_nat n.
Proof. unfold alen. by rewrite length_replicate. Qed.

Lemma alist_eq {A} (l l' : list A) :
  alen l = alen l' -> (forall i, 0 <= i < alen l -> aget l i = aget l' i) -> l = l'.
Proof.
  unfold alen. intros Hl H. apply list_eq. intros i.
  destruct (decide (i < length l)%nat) as [Hi|Hi].
  - specialize (H (Z.of_nat i) ltac:(lia)).
    rewrite !aget_lookup, Nat2Z.id in H by lia. done.
  - rewrite !lookup_ge_None_2 by lia. done.
Qed.

#[export] Hint Resolve aget_Some_lt : carr.
#[export] Hint Rewrite @alen_replicate : carr.

(** ** Loop rules *)

(** The invariant rule for [for_from]: [I i s] holds before the body runs at [i]. *)
Lemma for_from_inv {S} (I : Z -> S -> Prop) n i f (s : S) :
  I i s ->
  (forall k t, i <= k < i + Z.of_nat n -> I k t -> exists t', f k t = Some t' /\ I (k + 1) t') ->
  exists s', for_from n i f s = Some s' /\ I (i + Z.of_nat n) s'.
Proof.
  revert i s. induction n as [|n IH]; intros i s HI Hb.
  - exists s. split; [done|]. by rewrite Z.add_0_r.
  - destruct (Hb i s ltac:(lia) HI) as (t & Ht & HIt). simpl for_from. rewrite Ht. simpl.
    destruct (IH (i + 1) t HIt) as (s' & Hs' & HI').
    { intros k u Hk. apply Hb. lia. }
    exists s'. split; [done|]. replace (i + Z.of_nat (Datatypes.S n)) with (i + 1 + Z.of_nat n) by lia. done.
Qed.

(** A loop whose body does something at one index only. *)
Lemma for_from_idle {S} n i f (s : S) :
  (forall k, i <= k < i + Z.of_nat n -> f k s = Some s) -> for_from n i f s = Some s.
Proof.
  revert i. induction n as [|n IH]; intros i Hb; [done|]. cbn [for_from]. rewrite Hb by lia. cbn. apply IH.
  intros k Hk. apply Hb. lia.
Qed.

Lemma for_from_single {S} n i f (s s' : S) j :
  i <= j < i + Z.of_nat n -> f j s = Some s' ->
  (forall k, i <= k < j -> f k s = Some s) -> (forall k, j < k < i + Z.of_nat n -> f k s' = Some s') ->
  for_from n i f s = Some s'.
Proof.
  revert i. induction n as [|n IH]; intros i Hj Ej Hb Ha; [lia|]. cbn [for_from].
  destruct (Z.eq_dec i j) as [->|].
  - rewrite Ej. cbn. apply for_from_idle. intros k Hk. apply Ha. lia.
  - rewrite Hb by lia. cbn. apply IH; [lia|done|intros; apply Hb; lia|intros; apply Ha; lia].
Qed.
