(* ===== verification/Util.v ===== *)
(** The integer helpers of util/util.h and ccan/ilog: rounding to multiples
    and to powers of two. *)

From S2P Require Import Prelude.

(** [align] and [DIV_ROUND_UP] of util/util.h. *)
Definition align (val a : Z) : Z := Z.land (u64 (val + a - 1)) (notu 64 (a - 1)).
Definition DIV_ROUND_UP (n d : Z) : Z := u64 (n + d - 1) / d.

(** [ilog32] and [ilog64] of ccan: the number of bits of the value. *)
Definition ilog (v : Z) : Z := if v =? 0 then 0 else Z.log2 v + 1.
Definition roundup_pow_of_two (n : Z) : Z := if n =? 1 then 1 else shlu 64 1 (ilog (u64 (n - 1))).

(** The three implementations of the logarithm in ccan/ilog.c, of which the
    compiler's count of leading zeros, [ilog], is preferred where there is one:
    halving the value by comparisons, and spreading its top bit down to look
    the bit up with a de Bruijn sequence. *)
Definition ilog_halve (r v m : Z) : Z * Z :=
  let m' := if 2 ^ m - 1 <? v then m else 0 in (Z.lor r m', Z.shiftr v m').

Definition ilog32_branchless (v : Z) : Z :=
  let r := b2z (0 <? v) in
  let '(r, v) := ilog_halve r v 16 in
  let '(r, v) := ilog_halve r v 8 in
  let '(r, v) := ilog_halve r v 4 in
  let '(r, v) := ilog_halve r v 2 in
  r + b2z (1 <? v).

Definition ilog64_branchless (v : Z) : Z :=
  let r := b2z (0 <? v) in
  let '(r, v) := ilog_halve r v 32 in
  let '(r, v) := ilog_halve r (u32 v) 16 in
  let '(r, v) := ilog_halve r v 8 in
  let '(r, v) := ilog_halve r v 4 in
  let '(r, v) := ilog_halve r v 2 in
  r + b2z (1 <? v).

Definition DEBRUIJN_IDX32 : list Z :=
  [ 0; 1;28; 2;29;14;24; 3;30;22;20;15;25;17; 4; 8;
   31;27;13;23;21;19;16; 7;26;12;18; 6;11; 5;10; 9].

Definition DEBRUIJN_IDX64 : list Z :=
  [ 0; 1; 2; 7; 3;13; 8;19; 4;25;14;28; 9;34;20;40;
    5;17;26;38;15;46;29;48;10;31;35;54;21;50;41;57;
   63; 6;12;18;24;27;33;39;16;37;45;47;30;53;49;56;
   62;11;23;32;36;44;52;55;61;22;43;51;60;42;59;58].

Definition spread (v n : Z) : Z := Z.lor v (Z.shiftr v n).

Definition ilog32 (v : Z) : option Z :=
  let r := b2z (0 <? v) in
  let v := foldl spread v [1; 2; 4; 8; 16] in
  let v := u32 (Z.shiftr v 1 + 1) in
  x ← DEBRUIJN_IDX32.[Z.land (Z.shiftr (u32 (v * 0x77CB531)) 27) 0x1F];
  Some (r + x).

Definition ilog64 (v : Z) : option Z :=
  let r := b2z (0 <? v) in
  let v := foldl spread v [1; 2; 4; 8; 16; 32] in
  let v := u64 (Z.shiftr v 1 + 1) in
  x ← DEBRUIJN_IDX64.[Z.land (Z.shiftr (u64 (v * 0x218A392CD3D5DBF)) 58) 0x3F];
  Some (r + x).

(** ** Lemmas *)

Lemma land_notu_pow x k : 0 <= k <= 64 -> in_width 64 x -> Z.land x (notu 64 (2 ^ k - 1)) = 2 ^ k * (x / 2 ^ k).
Proof.
  intros Hk Hx. pose proof (Z.pow_pos_nonneg 2 k). pose proof (Z.pow_le_mono_r 2 k 64). rewrite notu_lnot by lia.
  replace (Z.land x (u64 (Z.lnot (2 ^ k - 1)))) with (Z.ldiff x (Z.ones k)).
  - rewrite Z.ldiff_ones_r, Z.shiftl_mul_pow2, Z.shiftr_div_pow2 by lia. lia.
  - apply Z.bits_inj'. intros i Hi. rewrite Z.ldiff_spec, Z.land_spec, testbit_wrapu, Z.lnot_spec, Z.ones_equiv by lia.
    rewrite <- Z.sub_1_r. destruct (Z.ltb_spec i 64); [done|]. by rewrite (testbit_high 64 x i) by done.
Qed.

Lemma align_up v k :
  0 <= k <= 64 -> 0 <= v -> v + 2 ^ k - 1 < 2 ^ 64 -> align v (2 ^ k) = 2 ^ k * ((v + 2 ^ k - 1) / 2 ^ k).
Proof.
  intros Hk Hv Hb. pose proof (Z.pow_pos_nonneg 2 k). unfold align.
  rewrite wrapu_small by lia. apply land_notu_pow; [done|]. unfold in_width. lia.
Qed.

Lemma roundup_pow n :
  1 < n <= 2 ^ 63 -> exists k, 0 < k <= 63 /\ roundup_pow_of_two n = 2 ^ k /\ 2 ^ (k - 1) < n <= 2 ^ k.
Proof.
  intros Hn. unfold roundup_pow_of_two, ilog. rewrite (proj2 (Z.eqb_neq n 1)) by lia.
  rewrite (wrapu_small 64 (n - 1)) by (unfold in_width; lia). rewrite (proj2 (Z.eqb_neq (n - 1) 0)) by lia.
  pose proof (Z.log2_spec (n - 1) ltac:(lia)) as [H1 H2]. pose proof (Z.log2_nonneg (n - 1)).
  assert (Z.log2 (n - 1) < 63) by (apply Z.log2_lt_pow2; lia).
  exists (Z.log2 (n - 1) + 1). unfold Z.succ in H2. split_and!; try lia.
  - unfold shlu. rewrite Z.shiftl_mul_pow2, Z.mul_1_l by lia. apply wrapu_small.
    split; [lia|]. apply Z.pow_lt_mono_r; lia.
  - replace (Z.log2 (n - 1) + 1 - 1) with (Z.log2 (n - 1)) by lia. lia.
Qed.

Lemma roundup_spec n :
  1 < n <= 2 ^ 30 -> exists k, 0 < k <= 30 /\ roundup_pow_of_two n = 2 ^ k /\ 2 ^ (k - 1) < n <= 2 ^ k.
Proof.
  intros Hn. destruct (roundup_pow n) as (k & Hk & E & Hb); [lia|]. exists k. split_and!; try lia.
  destruct (Z.le_gt_cases k 30); [done|]. assert (2 ^ 30 <= 2 ^ (k - 1)) by (apply Z.pow_le_mono_r; lia). lia.
Qed.

Lemma ilog_pred k : 0 < k -> ilog (2 ^ k - 1) = k.
Proof.
  intros Hk. unfold ilog. assert (2 ^ 1 <= 2 ^ k) by (apply Z.pow_le_mono_r; lia).
  rewrite (proj2 (Z.eqb_neq _ 0)) by lia. pose proof (Z.log2_pred_pow2 k Hk) as H'. unfold Z.pred in H'.
  change (2 ^ k - 1) with (2 ^ k + -1). lia.
Qed.

Lemma roundup_unique n k : 1 < n <= 2 ^ 30 -> 0 < k -> 2 ^ (k - 1) < n <= 2 ^ k -> roundup_pow_of_two n = 2 ^ k.
Proof.
  intros Hn Hk Hb. destruct (roundup_spec n Hn) as (k' & Hk' & -> & Hb').
  assert (k - 1 < k') by (apply (Z.pow_lt_mono_r_iff 2); lia). assert (k' - 1 < k) by (apply (Z.pow_lt_mono_r_iff 2); lia).
  f_equal. lia.
Qed.

(** *** The logarithm *)

(** [x] has the top bit of [v] and the [m - 1] bits below it, and no bit above. *)
Definition spreads (t m x : Z) : Prop :=
  (forall i, t < i -> Z.testbit x i = false) /\
  (forall i, 0 <= i -> t - m < i <= t -> Z.testbit x i = true).

Lemma spread_twice t m x : 0 <= m -> spreads t m x -> spreads t (2 * m) (spread x m).
Proof.
  intros Hm [Ha Hb]. split; intros i; unfold spread; rewrite Z.lor_spec; intros.
  - destruct (Z.lt_ge_cases i 0); [by rewrite !Z.testbit_neg_r|]. by rewrite Z.shiftr_spec, !Ha by lia.
  - rewrite Z.shiftr_spec by lia. destruct (Z.lt_ge_cases (t - m) i); [by rewrite Hb by lia|].
    rewrite (Hb (i + m)) by lia. apply orb_true_r.
Qed.

Lemma spreads_top v : 0 < v -> spreads (Z.log2 v) 1 v.
Proof.
  intros Hv. split; intros i; [intros; by apply Z.bits_above_log2; lia|].
  intros ? ?. replace i with (Z.log2 v) by lia. by apply Z.bit_log2.
Qed.

Lemma spreads_all t m x : 0 <= t < m -> spreads t m x -> x = 2 ^ (t + 1) - 1.
Proof.
  intros Ht [Ha Hb]. replace (2 ^ (t + 1) - 1) with (Z.ones (t + 1)) by (rewrite Z.ones_equiv; lia).
  apply Z.bits_inj'. intros i Hi. rewrite Z.testbit_ones_nonneg by lia.
  destruct (Z.ltb_spec i (t + 1)); [apply Hb|apply Ha]; lia.
Qed.

(** Halving what the spread leaves and adding one gives the top bit alone. *)
Lemma spread_top_bit v x m :
  0 < v -> Z.log2 v < m -> spreads (Z.log2 v) m x -> Z.shiftr x 1 + 1 = 2 ^ Z.log2 v.
Proof.
  intros Hv Hm Hx. pose proof (Z.log2_nonneg v). rewrite (spreads_all (Z.log2 v) m x ltac:(lia) Hx), Z.shiftr_div_pow2 by lia.
  rewrite Z.pow_add_r by lia. set (p := 2 ^ Z.log2 v). change (2 ^ 1) with 2. dlia.
Qed.

Definition debruijn_ok (w mul sh mask : Z) (table : list Z) : bool :=
  forallb (fun k => bool_decide (table.[Z.land (Z.shiftr (wrapu w (2 ^ k * mul)) sh) mask] = Some k)) (seqZ 0 w).

Lemma debruijn_spec w mul sh mask table k :
  debruijn_ok w mul sh mask table = true -> 0 <= k < w ->
  table.[Z.land (Z.shiftr (wrapu w (2 ^ k * mul)) sh) mask] = Some k.
Proof.
  unfold debruijn_ok. rewrite forallb_forall. intros H Hk. eapply bool_decide_eq_true_1, H.
  apply list_elem_of_In, elem_of_seqZ. lia.
Qed.

Lemma ilog_log2 v : 0 < v -> ilog v = 1 + Z.log2 v.
Proof. intros. unfold ilog. rewrite (proj2 (Z.eqb_neq v 0)) by lia. lia. Qed.

Lemma ilog32_ok v : in_width 32 v -> ilog32 v = Some (ilog v).
Proof.
  intros Hv. destruct (Z.eqb_spec v 0) as [->|]; [reflexivity|]. unfold in_width in Hv.
  assert (Z.log2 v < 32) by (apply Z.log2_lt_pow2; lia). pose proof (Z.log2_nonneg v).
  unfold ilog32. rewrite (spread_top_bit v _ 32); [|lia|lia|].
  - assert (2 ^ Z.log2 v < 2 ^ 32) by (apply Z.pow_lt_mono_r; lia).
    rewrite (wrapu_small 32 (2 ^ _)) by lia. rewrite debruijn_spec; [|vm_compute; reflexivity|lia].
    cbn [mbind option_bind]. rewrite ilog_log2 by lia. by rewrite (proj2 (Z.ltb_lt 0 v)) by lia.
  - cbn [foldl]. apply (spread_twice _ 16), (spread_twice _ 8), (spread_twice _ 4), (spread_twice _ 2), (spread_twice _ 1), spreads_top; lia.
Qed.

Lemma ilog64_ok v : in_width 64 v -> ilog64 v = Some (ilog v).
Proof.
  intros Hv. destruct (Z.eqb_spec v 0) as [->|]; [reflexivity|]. unfold in_width in Hv.
  assert (Z.log2 v < 64) by (apply Z.log2_lt_pow2; lia). pose proof (Z.log2_nonneg v).
  unfold ilog64. rewrite (spread_top_bit v _ 64); [|lia|lia|].
  - assert (2 ^ Z.log2 v < 2 ^ 64) by (apply Z.pow_lt_mono_r; lia).
    rewrite (wrapu_small 64 (2 ^ _)) by lia. rewrite debruijn_spec; [|vm_compute; reflexivity|lia].
    cbn [mbind option_bind]. rewrite ilog_log2 by lia. by rewrite (proj2 (Z.ltb_lt 0 v)) by lia.
  - cbn [foldl]. apply (spread_twice _ 32), (spread_twice _ 16), (spread_twice _ 8), (spread_twice _ 4), (spread_twice _ 2), (spread_twice _ 1), spreads_top; lia.
Qed.

(** One halving takes [m] or no bits off the value. *)
Lemma ilog_halve_spec r v m :
  0 < v < 2 ^ (2 * m) -> 0 < m ->
  exists m' v', ilog_halve r v m = (Z.lor r m', v') /\ (m' = m \/ m' = 0) /\ 0 < v' < 2 ^ m /\ ilog v = m' + ilog v'.
Proof.
  intros Hv Hm. unfold ilog_halve. destruct (Z.ltb_spec (2 ^ m - 1) v) as [Hl|Hl].
  - assert (2 ^ (2 * m) = 2 ^ m * 2 ^ m) as Hp by (rewrite <- Z.pow_add_r by lia; f_equal; lia).
    assert (0 < Z.shiftr v m < 2 ^ m) as Hs.
    { rewrite Z.shiftr_div_pow2 by lia. split; [apply Z.div_str_pos; lia|apply Z.div_lt_upper_bound; lia]. }
    eexists m, _. split_and!; [done|by left|lia|lia|]. rewrite !ilog_log2, Z.log2_shiftr by lia.
    assert (m <= Z.log2 v) by (apply Z.log2_le_pow2; lia). lia.
  - eexists 0, _. rewrite Z.shiftr_0_r. split_and!; try done; [by right|lia|lia].
Qed.

Lemma ilog_last v : 0 < v < 2 ^ 2 -> ilog v = 1 + b2z (1 <? v).
Proof. intros. assert (v = 1 \/ v = 2 \/ v = 3) as [->|[->| ->]] by lia; reflexivity. Qed.

Ltac halve := match goal with
  | |- context [ilog_halve ?r ?x ?n] =>
    let E := fresh in destruct (ilog_halve_spec r x n) as (?m&?v&E&?&?&?); [lia|lia|rewrite E; clear E; cbv beta iota]
  end.

Ltac eval_lor := match goal with
  | |- context [Z.lor ?a ?b] => let c := eval vm_compute in (Z.lor a b) in change (Z.lor a b) with c
  end.

Lemma ilog32_branchless_ok v : in_width 32 v -> ilog32_branchless v = ilog v.
Proof.
  intros Hv. destruct (Z.eqb_spec v 0) as [->|]; [reflexivity|]. unfold in_width in Hv.
  unfold ilog32_branchless. rewrite (proj2 (Z.ltb_lt 0 v)) by lia. do 4 halve.
  pose proof (ilog_last v3 ltac:(lia)). set (last := b2z (1 <? v3)) in *. clearbody last.
  repeat match goal with H : _ = _ \/ _ = 0 |- _ => destruct H as [->| ->] end; eval_lor; lia.
Qed.

Lemma ilog64_branchless_ok v : in_width 64 v -> ilog64_branchless v = ilog v.
Proof.
  intros Hv. destruct (Z.eqb_spec v 0) as [->|]; [reflexivity|]. unfold in_width in Hv.
  unfold ilog64_branchless. rewrite (proj2 (Z.ltb_lt 0 v)) by lia. halve. rewrite (wrapu_small 32) by lia. do 4 halve.
  pose proof (ilog_last v4 ltac:(lia)). set (last := b2z (1 <? v4)) in *. clearbody last.
  repeat match goal with H : _ = _ \/ _ = 0 |- _ => destruct H as [->| ->] end; eval_lor; lia.
Qed.

(** The four integer logarithms of ccan/ilog.c are the number of bits of
    their argument, the value the compiler's intrinsic gives: the comparisons
    that halve the value, and the de Bruijn multiplication with its table,
    which never leaves the table, for every 32-bit and every 64-bit value. *)
Theorem ilog_implementations v :
  in_width 64 v ->
  ilog64 v = Some (ilog v) /\ ilog64_branchless v = ilog v /\
  (in_width 32 v -> ilog32 v = Some (ilog v) /\ ilog32_branchless v = ilog v).
Proof.
  intros Hv. split_and!; [by apply ilog64_ok|by apply ilog64_branchless_ok|].
  split; [by apply ilog32_ok|by apply ilog32_branchless_ok].
Qed.

Lemma ilog_implementations_witness : ilog64 (2 ^ 64 - 1) = Some 64 /\ ilog32 0x12345 = Some 17.
Proof.
  split; [apply (ilog_implementations (2 ^ 64 - 1)); split; [discriminate|reflexivity]|].
  apply (ilog_implementations 0x12345); split; discriminate || reflexivity.
Defined.
