(* ===== verification/Sums.v ===== *)
(** Finite sums of integers: totals of counters, numbers of bits set. *)

From S2P Require Import Prelude.

(** [f 0 + ... + f (n - 1)] *)
Fixpoint zsum (n : nat) (f : Z -> Z) : Z := match n with O => 0 | S n' => zsum n' f + f (Z.of_nat n') end.

Lemma zsum_ext n f g : (forall i, 0 <= i < Z.of_nat n -> f i = g i) -> zsum n f = zsum n g.
Proof. induction n as [|n IH]; intros H; [done|]. cbn. rewrite IH, H by (intros; apply H || lia; lia). done. Qed.

Lemma zsum_succ i f : 0 <= i -> zsum (Z.to_nat (i + 1)) f = zsum (Z.to_nat i) f + f i.
Proof. intros Hi. replace (Z.to_nat (i + 1)) with (S (Z.to_nat i)) by lia. cbn [zsum]. by rewrite Z2Nat.id. Qed.

Lemma zsum_zero n f : (forall i, 0 <= i < Z.of_nat n -> f i = 0) -> zsum n f = 0.
Proof. induction n as [|n IH]; intros H; [done|]. cbn. rewrite IH, H by (intros; apply H || lia; lia). done. Qed.

Lemma zsum_app a b f : zsum (a + b) f = zsum a f + zsum b (fun i => f (Z.of_nat a + i)).
Proof.
  induction b as [|b IH]; [rewrite Nat.add_0_r; cbn; lia|]. rewrite Nat.add_succ_r. cbn [zsum]. rewrite IH.
  replace (Z.of_nat (a + b)) with (Z.of_nat a + Z.of_nat b) by lia. lia.
Qed.

Lemma zsum_plus n f g : zsum n (fun i => f i + g i) = zsum n f + zsum n g.
Proof. induction n as [|n IH]; [done|]. cbn [zsum]. lia. Qed.

Lemma zsum_single n k f : 0 <= k < Z.of_nat n -> zsum n (fun i => if i =? k then f i else 0) = f k.
Proof.
  induction n as [|n IH]; intros Hk; [lia|]. cbn [zsum]. destruct (Z.eqb_spec (Z.of_nat n) k) as [E|].
  - rewrite zsum_zero; [by rewrite E|]. intros i Hi. destruct (Z.eqb_spec i k); lia.
  - rewrite IH by lia. lia.
Qed.

Lemma zsum_swap n m f : zsum n (fun i => zsum m (fun j => f i j)) = zsum m (fun j => zsum n (fun i => f i j)).
Proof.
  induction n as [|n IH]; cbn [zsum]; [by rewrite zsum_zero|]. rewrite IH. by rewrite zsum_plus.
Qed.

Lemma zsum_const n c : zsum n (fun _ => c) = c * Z.of_nat n.
Proof. induction n as [|n IH]; [cbn; lia|]. cbn [zsum]. lia. Qed.

Lemma zsum_S m f : zsum (S m) f = zsum m f + f (Z.of_nat m).
Proof. done. Qed.

(** *** Changes of one summand *)

Lemma zsum_update n k f g :
  0 <= k < Z.of_nat n -> (forall i, 0 <= i < Z.of_nat n -> i <> k -> g i = f i) -> zsum n g = zsum n f + (g k - f k).
Proof.
  intros Hk H. rewrite <- (zsum_single n k (fun i => g i - f i)), <- zsum_plus by done.
  apply zsum_ext. intros i Hi. destruct (Z.eqb_spec i k) as [->|]; [lia|]. rewrite H; lia.
Qed.

Lemma zsum_le n f g : (forall i, 0 <= i < Z.of_nat n -> f i <= g i) -> zsum n f <= zsum n g.
Proof.
  induction n as [|n IH]; intros H; [done|]. rewrite !zsum_S. assert (f (Z.of_nat n) <= g (Z.of_nat n)) by (apply H; lia).
  assert (zsum n f <= zsum n g) by (apply IH; intros; apply H; lia). lia.
Qed.

Lemma zsum_nonneg n f : (forall i, 0 <= i < Z.of_nat n -> 0 <= f i) -> 0 <= zsum n f.
Proof. intros H. etrans; [|by apply zsum_le, H]. by rewrite zsum_zero. Qed.

Lemma zsum_pos_ex n f : 0 < zsum n f -> exists i, 0 <= i < Z.of_nat n /\ 0 < f i.
Proof.
  induction n as [|n IH]; [done|]. rewrite zsum_S. intros H. destruct (Z.lt_ge_cases 0 (f (Z.of_nat n))).
  - exists (Z.of_nat n). lia.
  - destruct IH as (i & Hi & ?); [lia|]. exists i. lia.
Qed.

Lemma zsum_ge_one n k f : 0 <= k < Z.of_nat n -> (forall i, 0 <= i < Z.of_nat n -> 0 <= f i) -> f k <= zsum n f.
Proof.
  intros Hk H. rewrite <- (zsum_single n k f Hk). apply zsum_le. intros i Hi. pose proof (H i Hi).
  destruct (Z.eqb_spec i k); lia.
Qed.
