(* ===== verification/Bitmap.v ===== *)
(** util/bitmap.c and util/bitmap.h: bitmaps over arrays of 64-bit words.

    A bitmap is the array of its words; [bitmap_bit] is the bit it stores at
    an index.  Every operation is a function of the array, [None] being an
    access outside it or a failed [assert].  The theorems give the bits after
    each operation and the results of the searches. *)

From S2P Require Import Prelude.

(** ** Definitions *)

Definition BITS_PER_LONG : Z := 64.
Definition ULONG_MAX : Z := 2 ^ 64 - 1.
Definition BITS_TO_LONGS (nr : Z) : Z := u64 (nr + BITS_PER_LONG - 1) / BITS_PER_LONG.

Definition BMP_WORD_INDEX (n : Z) : Z := n / BITS_PER_LONG.
Definition BMP_WORD_OFFSET (n : Z) : Z := n mod BITS_PER_LONG.
Definition BMP_FIRST_WORD_MASK (start : Z) : Z := shlu 64 ULONG_MAX (BMP_WORD_OFFSET start).
Definition BMP_LAST_WORD_MASK (end_ : Z) : Z :=
  if BMP_WORD_OFFSET end_ =? 0 then ULONG_MAX else notu 64 (BMP_FIRST_WORD_MASK end_).

(** The loop of [bitmap_find_first_bit]; each turn reads one more word, so one
    unit of fuel per word and one for the exit are enough. *)
Fixpoint find_first_bit_loop (fuel : nat) (bmp : list Z)
    (start end_ curr_idx curr_offset : Z) : option Z :=
  match fuel with
  | O => None
  | S fuel' =>
    if start <? end_ then
      w ← bmp.[curr_idx];
      let bit := ffsl (Z.shiftr w curr_offset) in
      if negb (bit =? 0) then Some (Z.min end_ (u64 (start + bit - 1)))
      else find_first_bit_loop fuel' bmp (u64 (start + (BITS_PER_LONG - curr_offset)))
             end_ (curr_idx + 1) 0
    else Some end_
  end.

Definition bitmap_find_first_bit (bmp : list Z) (start end_ : Z) : option Z :=
  let curr_offset := BMP_WORD_OFFSET start in
  let curr_idx := BMP_WORD_INDEX start in
  if negb (start <=? end_) then None
  else find_first_bit_loop (S (length bmp)) bmp start end_ curr_idx curr_offset.

Definition bitmap_zero_region (bmp : list Z) (start end_ : Z) : option (list Z) :=
  let curr_idx := BMP_WORD_INDEX start in
  let last_idx := BMP_WORD_INDEX (u64 (end_ - 1)) in
  if negb (start <=? end_) then None else
  if end_ <=? start then Some bmp else
  let start_mask := BMP_FIRST_WORD_MASK start in
  let last_mask := BMP_LAST_WORD_MASK end_ in
  if curr_idx =? last_idx then
    amod bmp curr_idx (fun w => Z.land w (notu 64 (Z.land start_mask last_mask)))
  else
    bmp ← amod bmp curr_idx (fun w => Z.land w (notu 64 start_mask));
    bmp ← for_from (Z.to_nat (last_idx - (curr_idx + 1))) (curr_idx + 1)
            (fun i b => aset b i 0) bmp;
    amod bmp last_idx (fun w => Z.land w (notu 64 last_mask)).

Definition bitmap_fill_region (bmp : list Z) (start end_ : Z) : option (list Z) :=
  let curr_idx := BMP_WORD_INDEX start in
  let last_idx := BMP_WORD_INDEX (u64 (end_ - 1)) in
  if negb (start <=? end_) then None else
  if end_ <=? start then Some bmp else
  let start_mask := BMP_FIRST_WORD_MASK start in
  let last_mask := BMP_LAST_WORD_MASK end_ in
  if curr_idx =? last_idx then
    amod bmp curr_idx (fun w => Z.lor w (Z.land start_mask last_mask))
  else
    bmp ← amod bmp curr_idx (fun w => Z.lor w start_mask);
    bmp ← for_from (Z.to_nat (last_idx - (curr_idx + 1))) (curr_idx + 1)
            (fun i b => aset b i ULONG_MAX) bmp;
    amod bmp last_idx (fun w => Z.lor w last_mask).

(** The middle loop of [bitmap_is_free_region]: are the [n] words from [i] zero? *)
Fixpoint words_are (n : nat) (v : Z) (bmp : list Z) (i : Z) : option bool :=
  match n with
  | O => Some true
  | S n' => w ← bmp.[i]; if negb (w =? v) then Some false else words_are n' v bmp (i + 1)
  end.

Definition bitmap_is_free_region (bmp : list Z) (start region_size : Z) : option bool :=
  let curr_idx := BMP_WORD_INDEX start in
  let start_mask := BMP_FIRST_WORD_MASK start in
  let last_idx := BMP_WORD_INDEX (u64 (start + region_size - 1)) in
  let last_mask := BMP_LAST_WORD_MASK (u64 (start + region_size)) in
  w ← bmp.[curr_idx];
  if curr_idx =? last_idx then Some (Z.land (Z.land w start_mask) last_mask =? 0)
  else if negb (Z.land w start_mask =? 0) then Some false
  else
    z ← words_are (Z.to_nat (last_idx - (curr_idx + 1))) 0 bmp (curr_idx + 1);
    if negb z then Some false else
    w ← bmp.[last_idx];
    Some (Z.land w last_mask =? 0).

Definition bitmap_set_bit (bmp : list Z) (idx : Z) : option (list Z) :=
  amod bmp (idx / BITS_PER_LONG) (fun w => Z.lor w (shlu 64 1 (idx mod BITS_PER_LONG))).

Definition bitmap_clear_bit (bmp : list Z) (idx : Z) : option (list Z) :=
  amod bmp (idx / BITS_PER_LONG) (fun w => Z.land w (notu 64 (shlu 64 1 (idx mod BITS_PER_LONG)))).

Definition bitmap_test_bit (bmp : list Z) (idx : Z) : option bool :=
  w ← bmp.[idx / BITS_PER_LONG];
  Some (negb (Z.land w (shlu 64 1 (idx mod BITS_PER_LONG)) =? 0)).

(** The loop of [bitmap_find_free_region]; [start] grows by one each turn and
    the loop is left once [start + region_size] exceeds [nbits]. *)
Fixpoint find_free_region_loop (fuel : nat) (bmp : list Z) (nbits region_size start : Z) : option Z :=
  match fuel with
  | O => None
  | S fuel' =>
    if u64 (start + region_size) <=? nbits then
      b ← bitmap_test_bit bmp start;
      if (b : bool) then find_free_region_loop fuel' bmp nbits region_size (u64 (start + 1))
      else
        free ← bitmap_is_free_region bmp start region_size;
        if (free : bool) then Some start
        else find_free_region_loop fuel' bmp nbits region_size (u64 (start + 1))
    else Some nbits
  end.

Definition bitmap_find_free_region (bmp : list Z) (nbits region_size : Z) : option Z :=
  if region_size =? 0 then Some 0
  else find_free_region_loop (S (Z.to_nat nbits)) bmp nbits region_size 0.

Definition bitmap_fill (bmp : list Z) (nbits : Z) : option (list Z) :=
  for_from (Z.to_nat (BITS_TO_LONGS nbits)) 0 (fun i b => aset b i ULONG_MAX) bmp.

Definition bitmap_zero (bmp : list Z) (nbits : Z) : option (list Z) :=
  for_from (Z.to_nat (BITS_TO_LONGS nbits)) 0 (fun i b => aset b i 0) bmp.

(** The mask of the last word used by [bitmap_empty] and [bitmap_full]. *)
Definition last_mask (nbits : Z) : Z :=
  if negb (nbits mod BITS_PER_LONG =? 0)
  then shlu 64 1 (nbits mod BITS_PER_LONG) - 1 else ULONG_MAX.

Definition bitmap_empty (bmp : list Z) (nbits : Z) : option bool :=
  if nbits =? 0 then None else
  let last := BITS_TO_LONGS nbits - 1 in
  z ← words_are (Z.to_nat last) 0 bmp 0;
  if negb z then Some false else
  w ← bmp.[last];
  Some (if negb (Z.land w (last_mask nbits) =? 0) then false else true).

Definition bitmap_full (bmp : list Z) (nbits : Z) : option bool :=
  if nbits =? 0 then None else
  let last := BITS_TO_LONGS nbits - 1 in
  z ← words_are (Z.to_nat last) ULONG_MAX bmp 0;
  if negb z then Some false else
  w ← bmp.[last];
  Some (if negb (Z.lxor (Z.land w (last_mask nbits)) (last_mask nbits) =? 0) then false else true).

(** [calloc] succeeds or not ([mem_ok]); [None] is the NULL it returns. *)
Definition bitmap_alloc0 (mem_ok : bool) (size : Z) : option (list Z) :=
  if mem_ok then Some (replicate (Z.to_nat (BITS_TO_LONGS size)) 0) else None.

Definition bitmap_alloc1 (mem_ok : bool) (size : Z) : option (list Z) :=
  bmp ← bitmap_alloc0 mem_ok size; bitmap_fill bmp size.

(** *** Abstraction: the bit stored at an index, and well-formed bitmaps *)

Definition bitmap_bit (bmp : list Z) (i : Z) : bool :=
  match bmp.[i / 64] with Some w => Z.testbit w (i mod 64) | None => false end.

Definition bitmap_ok (bmp : list Z) : Prop :=
  Forall (in_width 64) bmp /\ 64 * alen bmp < 2 ^ 64.

(** All bits of [lo, hi) are [b]. *)
Definition region_is (bmp : list Z) (b : bool) (lo hi : Z) : Prop :=
  forall i, lo <= i < hi -> bitmap_bit bmp i = b.

(** ** Words and masks *)

Lemma testbit_ULONG_MAX j : 0 <= j -> Z.testbit ULONG_MAX j = (j <? 64).
Proof.
  intros. change ULONG_MAX with (Z.ones 64). rewrite Z.testbit_ones_nonneg by lia. done.
Qed.

Lemma ULONG_MAX_width : in_width 64 ULONG_MAX.
Proof. unfold in_width, ULONG_MAX. lia. Qed.

Lemma first_mask_width s : in_width 64 (BMP_FIRST_WORD_MASK s).
Proof. apply shlu_range. lia. Qed.

Lemma testbit_first_mask s j :
  0 <= j < 64 -> Z.testbit (BMP_FIRST_WORD_MASK s) j = (s mod 64 <=? j).
Proof.
  intros. unfold BMP_FIRST_WORD_MASK, BMP_WORD_OFFSET, BITS_PER_LONG.
  rewrite testbit_shlu by lia. pose proof (Z.mod_pos_bound s 64 ltac:(lia)).
  destruct (Z.leb_spec (s mod 64) j).
  - rewrite testbit_ULONG_MAX by lia. repeat zcase; simpl; lia.
  - rewrite Z.testbit_neg_r by lia. apply andb_false_r.
Qed.

Lemma last_mask_width e : in_width 64 (BMP_LAST_WORD_MASK e).
Proof.
  unfold BMP_LAST_WORD_MASK. zcase; [apply ULONG_MAX_width|].
  apply notu_range, first_mask_width.
Qed.

Lemma testbit_last_mask e j :
  0 <= j < 64 -> Z.testbit (BMP_LAST_WORD_MASK e) j = (e mod 64 =? 0) || (j <? e mod 64).
Proof.
  intros. unfold BMP_LAST_WORD_MASK, BMP_WORD_OFFSET, BITS_PER_LONG.
  destruct (Z.eqb_spec (e mod 64) 0); simpl.
  - rewrite testbit_ULONG_MAX by lia. zcase; lia.
  - rewrite testbit_notu, testbit_first_mask by (try apply first_mask_width; lia).
    repeat zcase; simpl; lia.
Qed.

Lemma testbit_bit k j : 0 <= k < 64 -> 0 <= j -> Z.testbit (shlu 64 1 k) j = (j =? k).
Proof.
  intros. rewrite testbit_shlu by lia. destruct (Z.eqb_spec j k) as [->|].
  - rewrite Z.sub_diag. zcase; [done|lia].
  - destruct (Z.lt_ge_cases (j - k) 0).
    + rewrite Z.testbit_neg_r by lia. apply andb_false_r.
    + rewrite (testbit_high 1 1) by lia. apply andb_false_r.
Qed.

Lemma land_notu_width w m : in_width 64 w -> in_width 64 m -> in_width 64 (Z.land w (notu 64 m)).
Proof.
  intros Hw Hm. pose proof (notu_range 64 m Hm). apply land_range; unfold in_width in *; lia.
Qed.

Lemma testbit_land_notu w m j :
  in_width 64 m -> 0 <= j < 64 -> Z.testbit (Z.land w (notu 64 m)) j = Z.testbit w j && negb (Z.testbit m j).
Proof.
  intros. rewrite Z.land_spec, testbit_notu by (unfold in_width in *; lia).
  zcase; [|lia]. done.
Qed.

(** ** Reading and updating one word *)

Lemma bitmap_width bmp k w : bitmap_ok bmp -> aget bmp k = Some w -> in_width 64 w.
Proof. intros [Hw _] E. exact (aget_Forall _ _ _ _ Hw E). Qed.

Lemma bitmap_word bmp i :
  bitmap_ok bmp -> 0 <= i < 64 * alen bmp ->
  exists w, aget bmp (i / 64) = Some w /\ in_width 64 w /\ bitmap_bit bmp i = Z.testbit w (i mod 64).
Proof.
  intros Hb Hi. destruct (aget_is_Some bmp (i / 64)) as [w E]; [dlia|].
  exists w. unfold bitmap_bit. rewrite E. eauto using bitmap_width.
Qed.

Lemma bitmap_bit_word bmp k w j :
  aget bmp k = Some w -> 0 <= j < 64 -> bitmap_bit bmp (64 * k + j) = Z.testbit w j.
Proof.
  intros E Hj. unfold bitmap_bit.
  replace ((64 * k + j) / 64) with k by dlia.
  replace ((64 * k + j) mod 64) with j by dlia. by rewrite E.
Qed.

Lemma bitmap_bit_out bmp i : 64 * alen bmp <= i -> bitmap_bit bmp i = false.
Proof.
  intros. unfold bitmap_bit. rewrite aget_None; [done|]. right. dlia.
Qed.

Lemma bitmap_aset bmp k v :
  bitmap_ok bmp -> 0 <= k < alen bmp -> in_width 64 v ->
  exists bmp', aset bmp k v = Some bmp' /\ bitmap_ok bmp' /\ alen bmp' = alen bmp /\
  forall i, 0 <= i -> bitmap_bit bmp' i = if i / 64 =? k then Z.testbit v (i mod 64) else bitmap_bit bmp i.
Proof.
  intros [Hw Hl] Hk Hv. destruct (aset bmp k v) as [bmp'|] eqn:E; [|by rewrite aset_Some in E].
  exists bmp'. pose proof (aset_alen _ _ _ _ E). split_and!; try done.
  - split; [by eapply aset_Forall|lia].
  - intros i Hi. unfold bitmap_bit. rewrite (aget_aset _ _ _ _ _ E), (Z.eqb_sym k). by zcase.
Qed.

Lemma bitmap_amod bmp k f :
  bitmap_ok bmp -> 0 <= k < alen bmp -> (forall w, in_width 64 w -> in_width 64 (f w)) ->
  exists w bmp', aget bmp k = Some w /\ in_width 64 w /\
  amod bmp k f = Some bmp' /\ bitmap_ok bmp' /\ alen bmp' = alen bmp /\
  forall i, 0 <= i -> bitmap_bit bmp' i = if i / 64 =? k then Z.testbit (f w) (i mod 64) else bitmap_bit bmp i.
Proof.
  intros Hb Hk Hf. destruct (aget_is_Some bmp k Hk) as [w Ew].
  assert (in_width 64 w) by eauto using bitmap_width.
  destruct (bitmap_aset bmp k (f w) Hb Hk ltac:(eauto)) as (bmp' & E & ? & ? & ?).
  exists w, bmp'. unfold amod. rewrite Ew. simpl. eauto 10.
Qed.

(** Setting every word of a range. *)
Lemma words_set_loop bmp v n k :
  bitmap_ok bmp -> in_width 64 v -> 0 <= k -> k + Z.of_nat n <= alen bmp ->
  exists bmp', for_from n k (fun i b => aset b i v) bmp = Some bmp' /\ bitmap_ok bmp' /\
  alen bmp' = alen bmp /\
  forall i, 0 <= i -> bitmap_bit bmp' i =
    if (k <=? i / 64) && (i / 64 <? k + Z.of_nat n) then Z.testbit v (i mod 64) else bitmap_bit bmp i.
Proof.
  intros Hb Hv Hk Hn.
  destruct (for_from_inv (fun h b => bitmap_ok b /\ alen b = alen bmp /\
    forall i, 0 <= i -> bitmap_bit b i =
      if (k <=? i / 64) && (i / 64 <? h) then Z.testbit v (i mod 64) else bitmap_bit bmp i)
    n k (fun i b => aset b i v) bmp) as (b & E & ? & ? & ?); [| |by exists b].
  - split_and!; [done|done|]. intros i Hi. repeat zcase; simpl; try done; lia.
  - intros h b Hh (Hbok & Hlen & Hbits).
    destruct (bitmap_aset b h v) as (b' & E & Hok' & Hlen' & Hbits'); [done|lia|done|].
    exists b'. split_and!; try done; [lia|].
    intros i Hi. rewrite Hbits', Hbits by done. repeat zcase; simpl; try done; lia.
Qed.

(** The words of a range compared with a value that is 0 or all ones. *)
Lemma words_are_spec (c : bool) bmp n k :
  bitmap_ok bmp -> 0 <= k -> k + Z.of_nat n <= alen bmp ->
  exists b, words_are n (if c then ULONG_MAX else 0) bmp k = Some b /\
  (b = true <-> region_is bmp c (64 * k) (64 * (k + Z.of_nat n))).
Proof.
  intros Hb. revert k. induction n as [|n IH]; intros k Hk Hn.
  { exists true. simpl. split; [done|]. split; [|done]. intros _ i Hi. lia. }
  simpl words_are. destruct (aget_is_Some bmp k ltac:(lia)) as [w Ew]. rewrite Ew. simpl.
  assert (in_width 64 w) as Hw by eauto using bitmap_width.
  assert (w = (if c then ULONG_MAX else 0) <-> forall j, 0 <= j < 64 -> Z.testbit w j = c) as Hwc.
  { split.
    - intros -> j Hj. destruct c; [|apply Z.testbit_0_l].
      rewrite testbit_ULONG_MAX by lia. zcase; [done|lia].
    - intros H. apply (bits_eq_bounded 64); [done|by destruct c|]. intros i Hi. rewrite H by done.
      destruct c; [|by rewrite Z.testbit_0_l].
      rewrite testbit_ULONG_MAX by lia. zcase; [done|lia]. }
  destruct (Z.eqb_spec w (if c then ULONG_MAX else 0)) as [Ec|Ec]; simpl.
  - destruct (IH (k + 1)) as (b & Eb & Hbb); [lia|lia|]. exists b. split; [done|]. rewrite Hbb.
    pose proof (proj1 Hwc Ec) as Hbits.
    split; intros Hr i Hi; [|apply Hr; lia].
    destruct (Z.lt_ge_cases i (64 * (k + 1))); [|apply Hr; lia].
    replace i with (64 * k + (i - 64 * k)) by lia.
    rewrite (bitmap_bit_word _ _ _ _ Ew) by lia. apply Hbits. lia.
  - exists false. split; [done|]. split; [done|]. intros Hr. exfalso. apply Ec, Hwc.
    intros j Hj. rewrite <- (bitmap_bit_word _ _ _ _ Ew) by lia. apply Hr. lia.
Qed.

(** ** Searching for a set bit *)

Lemma find_first_bit_loop_spec fuel bmp start end_ k off :
  bitmap_ok bmp -> 0 <= off < 64 -> 0 <= k -> start = 64 * k + off ->
  end_ <= 64 * alen bmp -> start <= 64 * alen bmp -> alen bmp - k < Z.of_nat fuel ->
  exists r, find_first_bit_loop fuel bmp start end_ k off = Some r /\
  (start <= end_ -> start <= r) /\ r <= end_ /\ region_is bmp false start r /\
  (r < end_ -> bitmap_bit bmp r = true).
Proof.
  intros Hb. revert start k off. induction fuel as [|fuel IH]; intros start k off Hoff Hk Hs He Hs' Hf.
  { pose proof (alen_nonneg bmp). destruct Hb. lia. }
  simpl find_first_bit_loop. destruct (Z.ltb_spec start end_) as [Hlt|Hge].
  2:{ exists end_. split_and!; [done|lia|lia| |lia]. intros i Hi. lia. }
  destruct (aget_is_Some bmp k) as [w Ew]; [lia|]. rewrite Ew. simpl.
  pose proof (bitmap_width _ _ _ Hb Ew) as Hw.
  pose proof (shiftr_range 64 w off ltac:(lia) ltac:(lia) Hw) as Hsh.
  assert (forall j, off <= j < 64 -> bitmap_bit bmp (64 * k + j) = Z.testbit (Z.shiftr w off) (j - off)) as Hbit.
  { intros j Hj. rewrite (bitmap_bit_word _ _ _ _ Ew), Z.shiftr_spec by lia. f_equal. lia. }
  assert (64 * alen bmp < 2 ^ 64) by apply Hb.
  destruct (Z.eqb_spec (ffsl (Z.shiftr w off)) 0) as [E0|E0]; simpl.
  - apply (proj1 (ffsl_zero _ (proj1 Hsh))) in E0.
    assert (region_is bmp false start (64 * (k + 1))) as Hz.
    { intros i Hi. replace i with (64 * k + (i - 64 * k)) by lia.
      rewrite Hbit, E0 by lia. apply Z.testbit_0_l. }
    unfold BITS_PER_LONG.
    replace (u64 (start + (64 - off))) with (64 * (k + 1)) by (rewrite wrapu_small; lia).
    destruct (IH (64 * (k + 1)) (k + 1) 0) as (r & Er & H1 & H2 & H3 & H4); [lia..|].
    exists r. split_and!; [done| |done| |done].
    + destruct (Z.lt_ge_cases end_ (64 * (k + 1))); [|lia].
      intros. destruct fuel; [done|]. simpl in Er. rewrite (proj2 (Z.ltb_ge _ _)) in Er by lia.
      simplify_eq. lia.
    + intros i Hi. destruct (Z.lt_ge_cases i (64 * (k + 1))); [apply Hz|apply H3]; lia.
  - assert (0 < Z.shiftr w off) as Hpos.
    { destruct (Z.eq_dec (Z.shiftr w off) 0) as [E|]; [|lia]. by rewrite E in E0. }
    destruct (ffsl_spec _ Hpos) as (Hf1 & Hf2 & Hf3).
    set (b := ffsl (Z.shiftr w off)) in *.
    assert (b - 1 + off < 64).
    { rewrite Z.shiftr_spec in Hf2 by lia. destruct (Z.lt_ge_cases (b - 1 + off) 64); [done|].
      rewrite (testbit_high 64 w) in Hf2 by (done || lia). done. }
    rewrite wrapu_small by lia. eexists. split; [done|].
    split_and!; [lia|lia| |].
    + intros i Hi. replace i with (64 * k + (i - 64 * k)) by lia.
      rewrite Hbit by lia. apply Hf3. lia.
    + intros. rewrite Z.min_r by lia. replace (start + b - 1) with (64 * k + (off + (b - 1))) by lia.
      rewrite Hbit by lia. replace (off + (b - 1) - off) with (b - 1) by lia. done.
Qed.

Lemma find_first_bit_correct bmp start end_ :
  bitmap_ok bmp -> 0 <= start <= end_ -> end_ <= 64 * alen bmp ->
  exists r, bitmap_find_first_bit bmp start end_ = Some r /\ start <= r <= end_ /\
    region_is bmp false start r /\ (r < end_ -> bitmap_bit bmp r = true).
Proof.
  intros Hb Hs He. unfold bitmap_find_first_bit, BMP_WORD_OFFSET, BMP_WORD_INDEX, BITS_PER_LONG.
  rewrite (proj2 (Z.leb_le start end_)) by lia. cbn [negb].
  destruct (find_first_bit_loop_spec (S (length bmp)) bmp start end_ (start / 64) (start mod 64))
    as (r & Er & H1 & H2 & H3 & H4); try done; [dlia|dlia|dlia|lia|unfold alen; dlia|].
  exists r. split_and!; auto; lia.
Qed.

(** ** Setting and clearing regions

    [bitmap_zero_region] and [bitmap_fill_region] have one shape: masked
    updates of the first and last word around a loop that overwrites the words
    in between.  The section proves it for any masked update [upd w m] that
    forces the bits of the mask [m] to [c]. *)

Section Region.
Context (c : bool) (upd : Z -> Z -> Z).
Hypothesis upd_width : forall w m, in_width 64 w -> in_width 64 m -> in_width 64 (upd w m).
Hypothesis upd_bit : forall w m j, in_width 64 w -> in_width 64 m -> 0 <= j < 64 ->
  Z.testbit (upd w m) j = if Z.testbit m j then c else Z.testbit w j.

Lemma bitmap_masked bmp k m :
  bitmap_ok bmp -> 0 <= k < alen bmp -> in_width 64 m ->
  exists bmp', amod bmp k (fun w => upd w m) = Some bmp' /\ bitmap_ok bmp' /\ alen bmp' = alen bmp /\
  forall i, 0 <= i -> bitmap_bit bmp' i =
    if (i / 64 =? k) && Z.testbit m (i mod 64) then c else bitmap_bit bmp i.
Proof.
  intros Hb Hk Hm.
  destruct (bitmap_amod bmp k (fun w => upd w m)) as (w & b & Ew & Hw & Eb & ? & ? & Hbits); eauto.
  exists b. split_and!; try done. intros i Hi. rewrite Hbits by done.
  destruct (Z.eqb_spec (i / 64) k) as [Ei|]; [|done].
  rewrite upd_bit by (done || dlia). unfold bitmap_bit. by rewrite Ei, Ew.
Qed.

Lemma region_one_word bmp start end_ :
  bitmap_ok bmp -> 0 <= start < end_ -> end_ <= 64 * alen bmp -> start / 64 = (end_ - 1) / 64 ->
  exists bmp', amod bmp (start / 64)
      (fun w => upd w (Z.land (BMP_FIRST_WORD_MASK start) (BMP_LAST_WORD_MASK end_))) = Some bmp' /\
  bitmap_ok bmp' /\ alen bmp' = alen bmp /\
  forall i, 0 <= i -> bitmap_bit bmp' i = if (start <=? i) && (i <? end_) then c else bitmap_bit bmp i.
Proof.
  intros Hb Hs He Eq.
  destruct (bitmap_masked bmp (start / 64) (Z.land (BMP_FIRST_WORD_MASK start) (BMP_LAST_WORD_MASK end_)))
    as (b & Eb & Hok & Hl & Hbits); [done|dlia| |].
  { pose proof (first_mask_width start). pose proof (last_mask_width end_).
    apply land_range; unfold in_width in *; lia. }
  exists b. split_and!; try done. intros i Hi. rewrite Hbits by done.
  rewrite Z.land_spec, testbit_first_mask, testbit_last_mask by dlia.
  zcases.
Qed.

Lemma region_many_words bmp start end_ :
  bitmap_ok bmp -> 0 <= start < end_ -> end_ <= 64 * alen bmp -> start / 64 <> (end_ - 1) / 64 ->
  exists b1 b2 b3, amod bmp (start / 64) (fun w => upd w (BMP_FIRST_WORD_MASK start)) = Some b1 /\
  for_from (Z.to_nat ((end_ - 1) / 64 - (start / 64 + 1))) (start / 64 + 1)
    (fun i b => aset b i (if c then ULONG_MAX else 0)) b1 = Some b2 /\
  amod b2 ((end_ - 1) / 64) (fun w => upd w (BMP_LAST_WORD_MASK end_)) = Some b3 /\
  bitmap_ok b3 /\ alen b3 = alen bmp /\
  forall i, 0 <= i -> bitmap_bit b3 i = if (start <=? i) && (i <? end_) then c else bitmap_bit bmp i.
Proof.
  intros Hb Hs He Ne.
  destruct (bitmap_masked bmp (start / 64) (BMP_FIRST_WORD_MASK start))
    as (b1 & Eb1 & Hok1 & Hl1 & Hbits1); [done|dlia|apply first_mask_width|].
  destruct (words_set_loop b1 (if c then ULONG_MAX else 0)
      (Z.to_nat ((end_ - 1) / 64 - (start / 64 + 1))) (start / 64 + 1))
    as (b2 & Eb2 & Hok2 & Hl2 & Hbits2); [done|by destruct c|dlia|dlia|].
  destruct (bitmap_masked b2 ((end_ - 1) / 64) (BMP_LAST_WORD_MASK end_))
    as (b3 & Eb3 & Hok3 & Hl3 & Hbits3); [done|dlia|apply last_mask_width|].
  exists b1, b2, b3. split_and!; try done; [lia|].
  intros i Hi. rewrite Hbits3, Hbits2, Hbits1 by done.
  rewrite testbit_first_mask, testbit_last_mask by dlia.
  assert (Z.testbit (if c then ULONG_MAX else 0) (i mod 64) = c) as ->.
  { destruct c; [|apply Z.testbit_0_l]. rewrite testbit_ULONG_MAX by dlia. zcase; [done|dlia]. }
  zcases.
Qed.

End Region.

Lemma zero_region_bits bmp start end_ :
  bitmap_ok bmp -> 0 <= start <= end_ -> end_ <= 64 * alen bmp ->
  exists bmp', bitmap_zero_region bmp start end_ = Some bmp' /\ bitmap_ok bmp' /\ alen bmp' = alen bmp /\
  forall i, 0 <= i -> bitmap_bit bmp' i = if (start <=? i) && (i <? end_) then false else bitmap_bit bmp i.
Proof.
  intros Hb Hs He. unfold bitmap_zero_region, BMP_WORD_INDEX, BITS_PER_LONG.
  rewrite (proj2 (Z.leb_le start end_)) by lia. simpl negb. cbv iota.
  destruct (Z.leb_spec end_ start).
  { exists bmp. split_and!; try done. intros i Hi. zcases. }
  rewrite (wrapu_small 64 (end_ - 1)) by (destruct Hb; lia).
  assert (forall w m j, in_width 64 w -> in_width 64 m -> 0 <= j < 64 ->
    Z.testbit (Z.land w (notu 64 m)) j = if Z.testbit m j then false else Z.testbit w j) as Hbit.
  { intros. rewrite testbit_land_notu by done.
    destruct (Z.testbit m j); rewrite ?andb_false_r, ?andb_true_r; done. }
  destruct (Z.eqb_spec (start / 64) ((end_ - 1) / 64)).
  - apply (region_one_word false (fun w m => Z.land w (notu 64 m))); eauto using land_notu_width; lia.
  - destruct (region_many_words false (fun w m => Z.land w (notu 64 m)) land_notu_width Hbit bmp start end_)
      as (b1 & b2 & b3 & E1 & E2 & E3 & ?); [done|lia..|done|].
    exists b3. rewrite E1. simpl. rewrite E2. done.
Qed.

Lemma fill_region_bits bmp start end_ :
  bitmap_ok bmp -> 0 <= start <= end_ -> end_ <= 64 * alen bmp ->
  exists bmp', bitmap_fill_region bmp start end_ = Some bmp' /\ bitmap_ok bmp' /\ alen bmp' = alen bmp /\
  forall i, 0 <= i -> bitmap_bit bmp' i = if (start <=? i) && (i <? end_) then true else bitmap_bit bmp i.
Proof.
  intros Hb Hs He. unfold bitmap_fill_region, BMP_WORD_INDEX, BITS_PER_LONG.
  rewrite (proj2 (Z.leb_le start end_)) by lia. simpl negb. cbv iota.
  destruct (Z.leb_spec end_ start).
  { exists bmp. split_and!; try done. intros i Hi. zcases. }
  rewrite (wrapu_small 64 (end_ - 1)) by (destruct Hb; lia).
  assert (forall w m, in_width 64 w -> in_width 64 m -> in_width 64 (Z.lor w m)) as Hwd.
  { intros. apply lor_range; done. }
  assert (forall w m j, in_width 64 w -> in_width 64 m -> 0 <= j < 64 ->
    Z.testbit (Z.lor w m) j = if Z.testbit m j then true else Z.testbit w j) as Hbit.
  { intros. rewrite Z.lor_spec. destruct (Z.testbit m j); rewrite ?orb_true_r, ?orb_false_r; done. }
  destruct (Z.eqb_spec (start / 64) ((end_ - 1) / 64)).
  - apply (region_one_word true Z.lor); eauto; lia.
  - destruct (region_many_words true Z.lor Hwd Hbit bmp start end_)
      as (b1 & b2 & b3 & E1 & E2 & E3 & ?); [done|lia..|done|].
    exists b3. rewrite E1. simpl. rewrite E2. done.
Qed.

(** ** Single bits *)

Lemma set_bit_bits bmp i :
  bitmap_ok bmp -> 0 <= i < 64 * alen bmp ->
  exists bmp', bitmap_set_bit bmp i = Some bmp' /\ bitmap_ok bmp' /\ alen bmp' = alen bmp /\
  forall j, 0 <= j -> bitmap_bit bmp' j = if j =? i then true else bitmap_bit bmp j.
Proof.
  intros Hb Hi. unfold bitmap_set_bit, BITS_PER_LONG.
  destruct (bitmap_amod bmp (i / 64) (fun w => Z.lor w (shlu 64 1 (i mod 64))))
    as (w & b & Ew & Hw & Eb & ? & ? & Hbits); [done|dlia| |].
  { intros. apply lor_range; try done. apply shlu_range. lia. }
  exists b. split_and!; try done. intros j Hj. rewrite Hbits by done.
  rewrite Z.lor_spec, testbit_bit by dlia. unfold bitmap_bit.
  destruct (Z.eqb_spec (j / 64) (i / 64)) as [Ej|]; [rewrite Ej, Ew|]; zcases.
Qed.

Lemma clear_bit_bits bmp i :
  bitmap_ok bmp -> 0 <= i < 64 * alen bmp ->
  exists bmp', bitmap_clear_bit bmp i = Some bmp' /\ bitmap_ok bmp' /\ alen bmp' = alen bmp /\
  forall j, 0 <= j -> bitmap_bit bmp' j = if j =? i then false else bitmap_bit bmp j.
Proof.
  intros Hb Hi. unfold bitmap_clear_bit, BITS_PER_LONG.
  assert (in_width 64 (shlu 64 1 (i mod 64))) by (apply shlu_range; lia).
  destruct (bitmap_amod bmp (i / 64) (fun w => Z.land w (notu 64 (shlu 64 1 (i mod 64)))))
    as (w & b & Ew & Hw & Eb & ? & ? & Hbits); [done|dlia|eauto using land_notu_width|].
  exists b. split_and!; try done. intros j Hj. rewrite Hbits by done.
  rewrite testbit_land_notu, testbit_bit by (done || dlia). unfold bitmap_bit.
  destruct (Z.eqb_spec (j / 64) (i / 64)) as [Ej|]; [rewrite Ej, Ew|]; zcases.
Qed.

Lemma land_bit_nonzero w k :
  in_width 64 w -> 0 <= k < 64 -> negb (Z.land w (shlu 64 1 k) =? 0) = Z.testbit w k.
Proof.
  intros Hw Hk.
  assert (in_width 64 (Z.land w (shlu 64 1 k))) as Hr.
  { apply land_range; try done. apply shlu_range. lia. }
  destruct (Z.land w (shlu 64 1 k) =? 0) eqn:E.
  - rewrite (eqb_0_testbit_w 64) in E by done. specialize (E k Hk).
    rewrite Z.land_spec, testbit_bit, Z.eqb_refl, andb_true_r in E by lia. by rewrite E.
  - destruct (Z.testbit w k) eqn:Ek; [done|]. exfalso.
    apply not_true_iff_false in E. apply E, (eqb_0_testbit_w 64); [done|].
    intros j Hj. rewrite Z.land_spec, testbit_bit by lia.
    destruct (Z.eqb_spec j k); [by subst; rewrite Ek|apply andb_false_r].
Qed.

Lemma test_bit_bits bmp i :
  bitmap_ok bmp -> 0 <= i < 64 * alen bmp -> bitmap_test_bit bmp i = Some (bitmap_bit bmp i).
Proof.
  intros Hb Hi. destruct (bitmap_word bmp i Hb Hi) as (w & Ew & Hw & Hbit).
  unfold bitmap_test_bit, BITS_PER_LONG. rewrite Ew. simpl.
  rewrite land_bit_nonzero, Hbit by (done || dlia). done.
Qed.

(** ** Testing whether a region is free *)

(** A masked word is zero iff the region of its bits under the mask is free. *)
Lemma masked_word_free bmp k w m lo hi :
  bitmap_ok bmp -> aget bmp k = Some w -> in_width 64 m -> 64 * k <= lo -> hi <= 64 * (k + 1) ->
  (forall j, 0 <= j < 64 -> Z.testbit m j = (lo <=? 64 * k + j) && (64 * k + j <? hi)) ->
  (Z.land w m =? 0) = true <-> region_is bmp false lo hi.
Proof.
  intros Hb Ew Hm Hlo Hhi Hbits. pose proof (bitmap_width _ _ _ Hb Ew) as Hw.
  rewrite (eqb_0_testbit_w 64) by (apply land_range; unfold in_width in *; lia).
  split; intros H i Hi.
  - specialize (H (i - 64 * k) ltac:(lia)). rewrite Z.land_spec, Hbits in H by lia.
    rewrite <- (bitmap_bit_word _ _ _ (i - 64 * k) Ew) in H by lia.
    replace (64 * k + (i - 64 * k)) with i in H by lia.
    rewrite (proj2 (Z.leb_le lo i)), (proj2 (Z.ltb_lt i hi)), andb_true_r in H by lia. done.
  - rewrite Z.land_spec, Hbits by lia.
    destruct (Z.leb_spec lo (64 * k + i)), (Z.ltb_spec (64 * k + i) hi); simpl; rewrite ?andb_false_r; try done.
    rewrite andb_true_r, <- (bitmap_bit_word _ _ _ _ Ew) by lia. apply H. lia.
Qed.

Lemma is_free_region_correct bmp start n :
  bitmap_ok bmp -> 0 <= start -> 0 < n -> start + n <= 64 * alen bmp ->
  exists b, bitmap_is_free_region bmp start n = Some b /\
  (b = true <-> region_is bmp false start (start + n)).
Proof.
  intros Hb Hs Hn Hend. assert (64 * alen bmp < 2 ^ 64) by apply Hb.
  unfold bitmap_is_free_region, BMP_WORD_INDEX, BITS_PER_LONG.
  rewrite (wrapu_small 64 (start + n - 1)), (wrapu_small 64 (start + n)) by lia.
  destruct (aget_is_Some bmp (start / 64)) as [w Ew]; [dlia|]. rewrite Ew. simpl.
  pose proof (first_mask_width start) as Hm1. pose proof (last_mask_width (start + n)) as Hm2.
  destruct (Z.eqb_spec (start / 64) ((start + n - 1) / 64)) as [Eq|Ne].
  { eexists. split; [done|]. rewrite <- Z.land_assoc.
    apply (masked_word_free bmp (start / 64)); try done; [|dlia|dlia|].
    - apply land_range; unfold in_width in *; lia.
    - intros j Hj. rewrite Z.land_spec, testbit_first_mask, testbit_last_mask by lia. zcases. }
  destruct (masked_word_free bmp (start / 64) w (BMP_FIRST_WORD_MASK start) start (64 * (start / 64 + 1)))
    as [Hf1 Hf2]; try done; [dlia| |].
  { intros j Hj. rewrite testbit_first_mask by lia. zcases. }
  destruct (Z.land w (BMP_FIRST_WORD_MASK start) =? 0); simpl.
  2:{ exists false. split; [done|]. split; [done|]. intros Hr. apply Hf2. intros i Hi. apply Hr. dlia. }
  specialize (Hf1 eq_refl).
  destruct (words_are_spec false bmp (Z.to_nat ((start + n - 1) / 64 - (start / 64 + 1))) (start / 64 + 1))
    as (z & Ez & Hz); [done|dlia|dlia|]. rewrite Ez. simpl.
  rewrite Z2Nat.id in Hz by dlia.
  destruct z; simpl.
  2:{ exists false. split; [done|]. split; [done|]. intros Hr. apply Hz. intros i Hi. apply Hr. dlia. }
  apply proj1 in Hz. specialize (Hz eq_refl).
  destruct (aget_is_Some bmp ((start + n - 1) / 64)) as [w' Ew']; [dlia|]. rewrite Ew'. simpl.
  eexists. split; [done|].
  rewrite (masked_word_free bmp ((start + n - 1) / 64) w' (BMP_LAST_WORD_MASK (start + n))
    (64 * ((start + n - 1) / 64)) (start + n)); try done; [|dlia|].
  - split; intros Hr i Hi; [|apply Hr; dlia].
    destruct (Z.lt_ge_cases i (64 * (start / 64 + 1))); [apply Hf1; lia|].
    destruct (Z.lt_ge_cases i (64 * ((start + n - 1) / 64))); [apply Hz; lia|apply Hr; lia].
  - intros j Hj. rewrite testbit_last_mask by lia. zcases.
Qed.

(** ** Searching for a free region *)

Lemma find_free_region_loop_spec fuel bmp nbits n start :
  bitmap_ok bmp -> 0 < n -> nbits <= 64 * alen bmp -> nbits + n < 2 ^ 64 ->
  0 <= start <= nbits -> nbits - start < Z.of_nat fuel ->
  exists r, find_free_region_loop fuel bmp nbits n start = Some r /\
  (forall s, start <= s < r -> s + n <= nbits -> ~ region_is bmp false s (s + n)) /\
  (r = nbits \/ r + n <= nbits /\ start <= r /\ region_is bmp false r (r + n)).
Proof.
  intros Hb Hn Hl Hov. revert start. induction fuel as [|fuel IH]; intros start Hs Hf; [lia|].
  simpl find_free_region_loop. rewrite wrapu_small by lia.
  destruct (Z.leb_spec (start + n) nbits).
  2:{ exists nbits. split_and!; [done| |by left]. intros s Hs1 Hs2. lia. }
  rewrite test_bit_bits by (done || lia). simpl. rewrite wrapu_small by lia.
  assert (~ region_is bmp false start (start + n) ->
    exists r, find_free_region_loop fuel bmp nbits n (start + 1) = Some r /\
    (forall s, start <= s < r -> s + n <= nbits -> ~ region_is bmp false s (s + n)) /\
    (r = nbits \/ r + n <= nbits /\ start <= r /\ region_is bmp false r (r + n))) as Hnext.
  { intros Hnf. destruct (IH (start + 1)) as (r & Er & Hr1 & Hr2); [lia|lia|].
    exists r. split_and!; [done| |destruct Hr2 as [|[? []]]; eauto with lia].
    intros s Hs1 Hs2. destruct (Z.eq_dec s start) as [->|]; [done|]. apply Hr1; lia. }
  destruct (bitmap_bit bmp start) eqn:Eb.
  { apply Hnext. intros Hr. rewrite Hr in Eb by lia. done. }
  destruct (is_free_region_correct bmp start n) as ([] & Ef & Hfree); [done|lia..| |]; rewrite Ef; simpl.
  - exists start. split_and!; [done|lia|]. right. split_and!; [lia|lia|]. by apply Hfree.
  - apply Hnext. intros Hr. by apply Hfree in Hr.
Qed.

(** ** Whole bitmaps *)

Lemma BITS_TO_LONGS_small n : 0 <= n -> n + 63 < 2 ^ 64 -> BITS_TO_LONGS n = (n + 63) / 64.
Proof.
  intros. unfold BITS_TO_LONGS, BITS_PER_LONG.
  replace (n + 64 - 1) with (n + 63) by lia. rewrite wrapu_small by lia. done.
Qed.

Lemma fill_bits bmp n :
  bitmap_ok bmp -> 0 <= n <= 64 * alen bmp -> n + 63 < 2 ^ 64 ->
  exists bmp', bitmap_fill bmp n = Some bmp' /\ bitmap_ok bmp' /\ alen bmp' = alen bmp /\ region_is bmp' true 0 n.
Proof.
  intros Hb Hn Ho. unfold bitmap_fill. rewrite BITS_TO_LONGS_small by lia.
  destruct (words_set_loop bmp ULONG_MAX (Z.to_nat ((n + 63) / 64)) 0) as (b & Eb & ? & ? & Hbits);
    [done|apply ULONG_MAX_width|lia|dlia|].
  exists b. split_and!; try done. intros i Hi. rewrite Hbits by lia.
  rewrite testbit_ULONG_MAX by dlia. zcases.
Qed.

Lemma zero_bits bmp n :
  bitmap_ok bmp -> 0 <= n <= 64 * alen bmp -> n + 63 < 2 ^ 64 ->
  exists bmp', bitmap_zero bmp n = Some bmp' /\ bitmap_ok bmp' /\ alen bmp' = alen bmp /\ region_is bmp' false 0 n.
Proof.
  intros Hb Hn Ho. unfold bitmap_zero. rewrite BITS_TO_LONGS_small by lia.
  destruct (words_set_loop bmp 0 (Z.to_nat ((n + 63) / 64)) 0) as (b & Eb & ? & ? & Hbits);
    [done|unfold in_width; lia|lia|dlia|].
  exists b. split_and!; try done. intros i Hi. rewrite Hbits by lia. rewrite Z.testbit_0_l. zcases.
Qed.

Lemma alloc0_bits n :
  0 <= n -> n + 127 < 2 ^ 64 ->
  exists bmp, bitmap_alloc0 true n = Some bmp /\ bitmap_ok bmp /\ alen bmp = (n + 63) / 64 /\
  forall i, bitmap_bit bmp i = false.
Proof.
  intros Hn Ho. unfold bitmap_alloc0. rewrite BITS_TO_LONGS_small by lia.
  eexists. split; [done|]. rewrite alen_replicate. split_and!.
  - split; [apply Forall_replicate; unfold in_width; lia|rewrite alen_replicate; dlia].
  - dlia.
  - intros i. unfold bitmap_bit. destruct (aget _ _) as [w|] eqn:E; [|done].
    pose proof (aget_Some_lt _ _ _ E) as Hl. rewrite alen_replicate in Hl.
    rewrite aget_replicate in E by lia. simplify_eq. apply Z.testbit_0_l.
Qed.

Lemma tail_mask_bits n j :
  0 < n -> 0 <= j < 64 -> Z.testbit (last_mask n) j = (64 * ((n + 63) / 64 - 1) + j <? n).
Proof.
  intros Hn Hj. unfold last_mask, BITS_PER_LONG.
  destruct (Z.eqb_spec (n mod 64) 0); simpl.
  - rewrite testbit_ULONG_MAX by lia. zcases.
  - assert (shlu 64 1 (n mod 64) - 1 = Z.ones (n mod 64)) as ->.
    { unfold shlu, Z.ones. rewrite wrapu_small; [lia|]. rewrite Z.shiftl_1_l.
      split; [apply Z.pow_nonneg; lia|]. apply Z.pow_lt_mono_r; dlia. }
    rewrite Z.testbit_ones_nonneg by dlia. zcases.
Qed.

Lemma tail_mask_width n : in_width 64 (last_mask n).
Proof.
  unfold last_mask, BITS_PER_LONG. destruct (Z.eqb_spec (n mod 64) 0); simpl; [apply ULONG_MAX_width|].
  unfold in_width. pose proof (shlu_range 64 1 (n mod 64) ltac:(lia)).
  assert (shlu 64 1 (n mod 64) <> 0); [|lia]. intros E.
  pose proof (testbit_bit (n mod 64) (n mod 64) ltac:(dlia) ltac:(dlia)) as Hb.
  rewrite E, Z.testbit_0_l, Z.eqb_refl in Hb. done.
Qed.

Lemma empty_correct bmp n :
  bitmap_ok bmp -> 0 < n <= 64 * alen bmp -> n + 63 < 2 ^ 64 ->
  exists b, bitmap_empty bmp n = Some b /\ (b = true <-> region_is bmp false 0 n).
Proof.
  intros Hb Hn Ho. unfold bitmap_empty. rewrite BITS_TO_LONGS_small by lia.
  destruct (Z.eqb_spec n 0); [lia|].
  destruct (words_are_spec false bmp (Z.to_nat ((n + 63) / 64 - 1)) 0) as (z & Ez & Hz); [done|lia|dlia|].
  rewrite Ez. simpl. rewrite Z2Nat.id in Hz by dlia. destruct z; simpl.
  2:{ exists false. split; [done|]. split; [done|]. intros Hr. apply Hz. intros i Hi. apply Hr. dlia. }
  apply proj1 in Hz. specialize (Hz eq_refl).
  destruct (aget_is_Some bmp ((n + 63) / 64 - 1)) as [w Ew]; [dlia|]. rewrite Ew. simpl.
  eexists. split; [done|].
  assert ((Z.land w (last_mask n) =? 0) = true <-> region_is bmp false (64 * ((n + 63) / 64 - 1)) n) as Hw.
  { apply (masked_word_free bmp ((n + 63) / 64 - 1)); try done; [apply tail_mask_width|dlia|].
    intros j Hj. rewrite tail_mask_bits by lia. zcases. }
  transitivity ((Z.land w (last_mask n) =? 0) = true); [by destruct (_ =? 0)|]. rewrite Hw.
  split; intros Hr i Hi; [|apply Hr; dlia].
  destruct (Z.lt_ge_cases i (64 * ((n + 63) / 64 - 1))); [apply Hz; lia|apply Hr; lia].
Qed.

Lemma full_correct bmp n :
  bitmap_ok bmp -> 0 < n <= 64 * alen bmp -> n + 63 < 2 ^ 64 ->
  exists b, bitmap_full bmp n = Some b /\ (b = true <-> region_is bmp true 0 n).
Proof.
  intros Hb Hn Ho. unfold bitmap_full. rewrite BITS_TO_LONGS_small by lia.
  destruct (Z.eqb_spec n 0); [lia|].
  destruct (words_are_spec true bmp (Z.to_nat ((n + 63) / 64 - 1)) 0) as (z & Ez & Hz); [done|lia|dlia|].
  rewrite Ez. simpl. rewrite Z2Nat.id in Hz by dlia. destruct z; simpl.
  2:{ exists false. split; [done|]. split; [done|]. intros Hr. apply Hz. intros i Hi. apply Hr. dlia. }
  apply proj1 in Hz. specialize (Hz eq_refl).
  destruct (aget_is_Some bmp ((n + 63) / 64 - 1)) as [w Ew]; [dlia|]. rewrite Ew. simpl.
  eexists. split; [done|]. pose proof (bitmap_width _ _ _ Hb Ew) as Hwd. pose proof (tail_mask_width n) as Hmw.
  assert ((Z.lxor (Z.land w (last_mask n)) (last_mask n) =? 0) = true <->
    region_is bmp true (64 * ((n + 63) / 64 - 1)) n) as Hw.
  { rewrite (eqb_0_testbit_w 64) by (apply lxor_range; try apply land_range; unfold in_width in *; lia).
    split; intros H i Hi.
    - specialize (H (i - 64 * ((n + 63) / 64 - 1)) ltac:(dlia)).
      rewrite Z.lxor_spec, Z.land_spec, tail_mask_bits in H by dlia.
      rewrite <- (bitmap_bit_word _ _ _ _ Ew) in H by dlia.
      replace (64 * ((n + 63) / 64 - 1) + (i - 64 * ((n + 63) / 64 - 1))) with i in H by lia.
      rewrite (proj2 (Z.ltb_lt i n)) in H by lia. by destruct (bitmap_bit bmp i).
    - rewrite Z.lxor_spec, Z.land_spec, tail_mask_bits, <- (bitmap_bit_word _ _ _ _ Ew) by lia.
      destruct (Z.ltb_spec (64 * ((n + 63) / 64 - 1) + i) n); [|by rewrite andb_false_r].
      rewrite H by lia. done. }
  transitivity ((Z.lxor (Z.land w (last_mask n)) (last_mask n) =? 0) = true); [by destruct (_ =? 0)|]. rewrite Hw.
  split; intros Hr i Hi; [|apply Hr; dlia].
  destruct (Z.lt_ge_cases i (64 * ((n + 63) / 64 - 1))); [apply Hz; lia|apply Hr; lia].
Qed.

(** ** Properties *)

(** For [start <= end] within the bitmap, [bitmap_find_first_bit] returns
    without leaving the array: the index it returns is [end] or a set bit, and
    every bit from [start] up to it is clear. *)
Theorem bitmap_find_first_bit_spec bmp start end_ :
  bitmap_ok bmp -> 0 <= start <= end_ -> end_ <= 64 * alen bmp ->
  exists r, bitmap_find_first_bit bmp start end_ = Some r /\ start <= r <= end_ /\
    region_is bmp false start r /\ (r < end_ -> bitmap_bit bmp r = true).
Proof. apply find_first_bit_correct. Qed.

(** [bitmap_zero_region] and [bitmap_fill_region] clear and set exactly the
    bits of [start, end) and keep the bitmap well formed, whether the region
    lies in one word or spans several. *)
Theorem bitmap_region_update_spec bmp start end_ :
  bitmap_ok bmp -> 0 <= start <= end_ -> end_ <= 64 * alen bmp ->
  exists z f, bitmap_zero_region bmp start end_ = Some z /\ bitmap_fill_region bmp start end_ = Some f /\
    bitmap_ok z /\ bitmap_ok f /\ alen z = alen bmp /\ alen f = alen bmp /\
    forall i, 0 <= i ->
      bitmap_bit z i = (if (start <=? i) && (i <? end_) then false else bitmap_bit bmp i) /\
      bitmap_bit f i = (if (start <=? i) && (i <? end_) then true else bitmap_bit bmp i).
Proof.
  intros Hb Hs He.
  destruct (zero_region_bits bmp start end_ Hb Hs He) as (z & ? & ? & ? & ?).
  destruct (fill_region_bits bmp start end_ Hb Hs He) as (f & ? & ? & ? & ?).
  exists z, f. split_and!; auto.
Qed.

(** [bitmap_find_free_region] returns the smallest index at which
    [region_size] consecutive bits below [nbits] are clear, and [nbits] when
    there is none; its search terminates inside the array. *)
Theorem bitmap_find_free_region_spec bmp nbits n :
  bitmap_ok bmp -> 0 < n -> 0 <= nbits <= 64 * alen bmp -> nbits + n < 2 ^ 64 ->
  exists r, bitmap_find_free_region bmp nbits n = Some r /\
    (forall s, 0 <= s < r -> s + n <= nbits -> ~ region_is bmp false s (s + n)) /\
    (r = nbits \/ 0 <= r /\ r + n <= nbits /\ region_is bmp false r (r + n)).
Proof.
  intros Hb Hn Hl Ho. unfold bitmap_find_free_region. destruct (Z.eqb_spec n 0); [lia|].
  destruct (find_free_region_loop_spec (S (Z.to_nat nbits)) bmp nbits n 0) as (r & Er & H1 & H2);
    [done|lia..|].
  exists r. split_and!; [done|done|tauto].
Qed.

(** [bitmap_empty] and [bitmap_full] decide whether the first [nbits] bits
    are all clear and all set, ignoring the unused bits of the last word. *)
Theorem bitmap_empty_full_spec bmp n :
  bitmap_ok bmp -> 0 < n <= 64 * alen bmp -> n + 63 < 2 ^ 64 ->
  exists e f, bitmap_empty bmp n = Some e /\ bitmap_full bmp n = Some f /\
    (e = true <-> region_is bmp false 0 n) /\ (f = true <-> region_is bmp true 0 n).
Proof.
  intros Hb Hn Ho. destruct (empty_correct bmp n Hb Hn Ho) as (e & ? & ?).
  destruct (full_correct bmp n Hb Hn Ho) as (f & ? & ?). exists e, f. done.
Qed.

(** Two words with bits 3, 70 and 71 set. *)
Definition bmp_ex : list Z := [8; 192].

Lemma bmp_ex_ok : bitmap_ok bmp_ex.
Proof. split; [repeat constructor; unfold in_width; lia|vm_compute; done]. Qed.

Lemma bitmap_find_first_bit_witness :
  bitmap_find_first_bit bmp_ex 4 128 = Some 70 /\
  exists r, bitmap_find_first_bit bmp_ex 4 128 = Some r /\ 4 <= r <= 128 /\
    region_is bmp_ex false 4 r /\ (r < 128 -> bitmap_bit bmp_ex r = true).
Proof.
  split; [vm_compute; reflexivity|].
  apply (bitmap_find_first_bit_spec bmp_ex 4 128 bmp_ex_ok); change (alen bmp_ex) with 2; lia.
Defined.

Lemma bitmap_region_update_witness :
  bitmap_fill_region bmp_ex 2 66 = Some [2 ^ 64 - 4; 195] /\
  exists z f, bitmap_zero_region bmp_ex 2 66 = Some z /\ bitmap_fill_region bmp_ex 2 66 = Some f /\
    bitmap_ok z /\ bitmap_ok f /\ alen z = alen bmp_ex /\ alen f = alen bmp_ex /\
    forall i, 0 <= i ->
      bitmap_bit z i = (if (2 <=? i) && (i <? 66) then false else bitmap_bit bmp_ex i) /\
      bitmap_bit f i = (if (2 <=? i) && (i <? 66) then true else bitmap_bit bmp_ex i).
Proof.
  split; [vm_compute; reflexivity|].
  apply (bitmap_region_update_spec bmp_ex 2 66 bmp_ex_ok); change (alen bmp_ex) with 2; lia.
Defined.

Lemma bitmap_find_free_region_witness :
  bitmap_find_free_region bmp_ex 128 66 = Some 4 /\
  exists r, bitmap_find_free_region bmp_ex 128 66 = Some r /\
    (forall s, 0 <= s < r -> s + 66 <= 128 -> ~ region_is bmp_ex false s (s + 66)) /\
    (r = 128 \/ 0 <= r /\ r + 66 <= 128 /\ region_is bmp_ex false r (r + 66)).
Proof.
  split; [vm_compute; reflexivity|].
  apply (bitmap_find_free_region_spec bmp_ex 128 66 bmp_ex_ok);
    [lia | change (alen bmp_ex) with 2; lia | lia].
Defined.

Lemma bitmap_empty_full_witness :
  exists e f, bitmap_empty [2 ^ 64 - 1; 7] 67 = Some e /\ bitmap_full [2 ^ 64 - 1; 7] 67 = Some f /\
    (e = true <-> region_is [2 ^ 64 - 1; 7] false 0 67) /\ (f = true <-> region_is [2 ^ 64 - 1; 7] true 0 67).
Proof.
  apply (bitmap_empty_full_spec [2 ^ 64 - 1; 7] 67);
    [split; [repeat constructor; unfold in_width; lia|vm_compute; done]
    | change (alen [2 ^ 64 - 1; 7]) with 2; lia | lia].
Defined.
