(* ===== verification/Recorder.v ===== *)
(** providers/mlx5/recorder.h, recorder.c and the hook of [mlx5_create_qp]
    (verbs.c): the shared-memory region of Fusa, the registration of queue
    pairs in it, the counting Bloom filter and the local lock table.

    [sh_local_region] is the mapped region.  A function that reads or writes
    it takes and returns it; [None] is undefined behaviour (an access outside
    an array, a NULL dereference, a non-void function that ends without a
    value).  The 64-bit atomic builtins act on one cell at a time. *)

From S2P Require Import Prelude.

(** ** Constants *)

Definition MAX_COUNTER_NUM : Z := 512.
Definition MAX_RECORDER_NUM : Z := 32.
Definition SLOT_GRANULARITY : Z := 16.
Definition BLOOM_ROWS : Z := 256.
Definition BLOOM_COLS : Z := 256.
Definition CAS_OP_CODE : Z := 1.
Definition FAA_OP_CODE : Z := 977.
Definition CRC_CHECK_MAGIC : Z := 888.
Definition QP_OFF : Z := 100000.
Definition f_seed : Z := 0xc70697.
Definition s_seed : Z := 0xc63548.
Definition SHM_SIZE : Z := 209715200.

(** The length of the per-queue-pair counter arrays and of the strategy. *)
Definition NR_SLOTS : Z := MAX_COUNTER_NUM * SLOT_GRANULARITY.

(** ** The shared region *)

Record recorder := Recorder {
  qpn : Z;
  counters : list Z;
  c_counters : list Z }.

Record rpc_meta := RpcMeta {
  machine_num : Z;
  rm_machine_id : Z;
  rkey : Z;
  rm_rpc_addr : Z;
  rm_length : Z;
  rm_crc : Z }.

Record local_rpc_meta := LocalRpcMeta {
  lm_machine_num : Z;
  machine_id : Z;
  lkey : Z;
  rpc_addr : Z;
  s_buf_length : Z;
  r_buf_length : Z }.

Record sh_local_region := Region {
  credit : list Z;                    (* strag.credit *)
  records : list recorder;
  rmeta_ : rpc_meta;
  lmeta_ : local_rpc_meta;
  remote_off : list Z;
  local_off : list Z;
  running : list Z;
  epoch : list Z;
  inflight : list Z;
  hotness_bloom : list (list Z);
  local_lock_table : list (list Z) }.

Definition with_records (r : sh_local_region) (v : list recorder) : sh_local_region :=
  Region (credit r) v (rmeta_ r) (lmeta_ r) (remote_off r) (local_off r) (running r)
    (epoch r) (inflight r) (hotness_bloom r) (local_lock_table r).

(** The region after [memset (shm_ptr, 0, SHM_SIZE)]. *)
Definition recorder_zero : recorder :=
  Recorder 0 (replicate (Z.to_nat NR_SLOTS) 0) (replicate (Z.to_nat NR_SLOTS) 0).

Definition region_zero : sh_local_region :=
  let per_qp := replicate (Z.to_nat MAX_RECORDER_NUM) 0 in
  let table := replicate (Z.to_nat BLOOM_ROWS) (replicate (Z.to_nat BLOOM_COLS) 0) in
  Region (replicate (Z.to_nat NR_SLOTS) 0) (replicate (Z.to_nat MAX_RECORDER_NUM) recorder_zero)
    (RpcMeta 0 0 0 0 0 0) (LocalRpcMeta 0 0 0 0 0 0)
    per_qp per_qp per_qp per_qp per_qp table table.

(** ** Mapping queue pair numbers to recorders *)

(** The probing loop of the insert branch: [n] turns from [i]. *)
Fixpoint probe_free (n : nat) (recs : list recorder) (i : Z) : option Z :=
  match n with
  | O => None
  | S n' =>
    r ← recs.[i mod MAX_RECORDER_NUM];
    if qpn r =? 0 then Some (i mod MAX_RECORDER_NUM) else probe_free n' recs (i + 1)
  end.

(** The search loop of the lookup branch: it indexes [records] by [i] itself. *)
Fixpoint search_qpn (n : nat) (recs : list recorder) (q i : Z) : option Z :=
  match n with
  | O => None
  | S n' => r ← recs.[i]; if qpn r =? q then Some i else search_qpn n' recs q (i + 1)
  end.

Definition map_qpn_to_idx (recs : list recorder) (q insert : Z) : option Z :=
  let first_idx := q mod MAX_RECORDER_NUM in
  cur ← recs.[first_idx];
  if insert =? 1 then
    if qpn cur =? 0 then Some first_idx
    else probe_free (Z.to_nat (MAX_RECORDER_NUM - 1)) recs (first_idx + 1)
  else search_qpn (Z.to_nat MAX_RECORDER_NUM) recs q first_idx.

(** ** The hook of [mlx5_create_qp]

    A process's view is [shm_ptr]: whether it has mapped the region.  The
    region itself is shared by every process that maps SHM_NAME.  [qp] is the
    queue pair [create_qp] returned ([None] is NULL), [mmap_ok] whether
    [shm_open] and [mmap] succeed: on failure the [memset] writes through
    MAP_FAILED. *)

Definition create_qp_hook (mapped : bool) (shm : sh_local_region) (mmap_ok : bool) (qp : option Z)
  : option (bool * sh_local_region) :=
  shm ← (if mapped then Some shm else if mmap_ok then Some region_zero else None);
  q ← qp;
  idx ← map_qpn_to_idx (records shm) q 1;
  rec ← (records shm).[idx];
  recs ← aset (records shm) idx (Recorder q (counters rec) (c_counters rec));
  Some (true, with_records shm recs).

(** ** Hashing and the counting Bloom filter *)

Definition GOLDEN : Z := 0x9e3779b97f4a7c15.

(** [MyCityHash64WithSeed] on [words] complete 64-bit blocks followed by the
    trailing [bytes] (fewer than 8) of a buffer of [len] bytes. *)
Fixpoint hash_words (hash : Z) (data : list Z) : Z :=
  match data with
  | [] => hash
  | d :: data' => hash_words (u64 (Z.lxor hash d * GOLDEN)) data'
  end.

Fixpoint hash_bytes (hash i : Z) (bytes : list Z) : Z :=
  match bytes with
  | [] => hash
  | b :: bytes' => hash_bytes (u64 (Z.lxor hash (shlu 64 b (i * 8)) * GOLDEN)) (i + 1) bytes'
  end.

Definition MyCityHash64WithSeed (words bytes : list Z) (len seed : Z) : Z :=
  hash_bytes (hash_words (Z.lxor seed len) words) 0 bytes.

Definition hash_row (key : Z) : Z := MyCityHash64WithSeed [key] [] 8 f_seed mod BLOOM_ROWS.
Definition hash_col (key : Z) : Z := MyCityHash64WithSeed [key] [] 8 s_seed mod BLOOM_COLS.

(** A cell of a two-dimensional table. *)
Definition get2 (t : list (list Z)) (row col : Z) : option Z :=
  r ← t.[row]; r.[col].

Definition set2 (t : list (list Z)) (row col v : Z) : option (list (list Z)) :=
  r ← t.[row]; r' ← aset r col v; aset t row r'.

(** [memset] of the whole table. *)
Definition bloom2D_init (bloom : list (list Z)) : list (list Z) :=
  map (map (fun _ => 0)) bloom.

Definition local_lock_table_init (table : list (list Z)) : list (list Z) :=
  map (map (fun _ => 0)) table.

Definition bloom2D_insert (bloom : list (list Z)) (key : Z) : option (list (list Z) * Z) :=
  let row := hash_row key in
  let col := hash_col key in
  c ← get2 bloom row col;
  bloom ← set2 bloom row col (u32 (c + 1));
  c' ← get2 bloom row col;
  Some (bloom, c').

Definition bloom2D_decre (bloom : list (list Z)) (key : Z) : option (list (list Z)) :=
  let row := hash_row key in
  let col := hash_col key in
  c ← get2 bloom row col;
  set2 bloom row col (u32 (c - 1)).

Definition bloom2D_query (bloom : list (list Z)) (key : Z) : option Z :=
  get2 bloom (hash_row key) (hash_col key).

(** ** The local lock table

    One turn of each spin loop: a compare-and-swap of the cell of [key], and
    whether the loop is left. *)

Definition try_lock (table : list (list Z)) (key : Z) : option (list (list Z) * bool) :=
  c ← get2 table (hash_row key) (hash_col key);
  if c =? 0 then table' ← set2 table (hash_row key) (hash_col key) 1; Some (table', true)
  else Some (table, false).

Definition try_unlock (table : list (list Z)) (key : Z) : option (list (list Z) * bool) :=
  c ← get2 table (hash_row key) (hash_col key);
  if c =? 1 then table' ← set2 table (hash_row key) (hash_col key) 0; Some (table', true)
  else Some (table, false).

Fixpoint locking_local_table (fuel : nat) (table : list (list Z)) (key : Z) : option (list (list Z)) :=
  match fuel with
  | O => None
  | S fuel' =>
    r ← try_lock table key;
    if (snd r : bool) then Some (fst r) else locking_local_table fuel' (fst r) key
  end.

Fixpoint unlock_local_table (fuel : nat) (table : list (list Z)) (key : Z) : option (list (list Z)) :=
  match fuel with
  | O => None
  | S fuel' =>
    r ← try_unlock table key;
    if (snd r : bool) then Some (fst r) else unlock_local_table fuel' (fst r) key
  end.

(** ** Registrations of a sequence of queue pairs *)

Fixpoint create_qps (mapped : bool) (shm : sh_local_region) (qs : list Z) : option sh_local_region :=
  match qs with
  | [] => Some shm
  | q :: qs' => r ← create_qp_hook mapped shm true (Some q); create_qps (fst r) (snd r) qs'
  end.

(** Insertions of a sequence of keys into the filter. *)
Fixpoint bloom_adds (bloom : list (list Z)) (ks : list Z) : option (list (list Z)) :=
  match ks with
  | [] => Some bloom
  | k :: ks' => r ← bloom2D_insert bloom k; bloom_adds (fst r) ks'
  end.

(** The cell of a key in the filter and in the lock table. *)
Definition same_cell (k k' : Z) : bool :=
  (hash_row k =? hash_row k') && (hash_col k =? hash_col k').

(** *** Threads that share the lock table

    A thread calls [locking_local_table], spins, holds the lock of its key and
    spins in [unlock_local_table]; every step is one compare-and-swap. *)
Inductive lstat := LIdle | LWait (key : Z) | LHeld (key : Z).

Inductive lock_step : list (list Z) * list lstat -> list (list Z) * list lstat -> Prop :=
| lock_call table ths t key :
    ths !! t = Some LIdle -> lock_step (table, ths) (table, <[t := LWait key]> ths)
| lock_turn table ths t key table' b :
    ths !! t = Some (LWait key) -> try_lock table key = Some (table', b) ->
    lock_step (table, ths) (table', <[t := if b : bool then LHeld key else LWait key]> ths)
| unlock_turn table ths t key table' b :
    ths !! t = Some (LHeld key) -> try_unlock table key = Some (table', b) ->
    lock_step (table, ths) (table', <[t := if b : bool then LIdle else LHeld key]> ths).

(** The owner of slot [i], and the queue pairs that own a slot. *)
Definition qpn_at (recs : list recorder) (i : Z) : option Z := qpn <$> recs.[i].

Definition owners (recs : list recorder) : list Z := filter (fun q => q <> 0) (qpn <$> recs).

Definition recorder_ok (r : recorder) : Prop :=
  alen (counters r) = NR_SLOTS /\ alen (c_counters r) = NR_SLOTS.

Definition table_ok (w : Z) (t : list (list Z)) : Prop :=
  alen t = BLOOM_ROWS /\ Forall (fun r => alen r = BLOOM_COLS /\ Forall (in_width w) r) t.

(** The shape of the region: every array has its declared length. *)
Record region_ok (r : sh_local_region) : Prop := {
  credit_len : alen (credit r) = NR_SLOTS;
  records_len : alen (records r) = MAX_RECORDER_NUM;
  records_ok : Forall recorder_ok (records r);
  remote_off_len : alen (remote_off r) = MAX_RECORDER_NUM;
  local_off_len : alen (local_off r) = MAX_RECORDER_NUM;
  running_len : alen (running r) = MAX_RECORDER_NUM;
  epoch_len : alen (epoch r) = MAX_RECORDER_NUM;
  inflight_len : alen (inflight r) = MAX_RECORDER_NUM;
  bloom_ok : table_ok 32 (hotness_bloom r);
  locks_ok : table_ok 64 (local_lock_table r) }.

(** ** The search loops *)

Lemma search_qpn_spec n recs q i j :
  0 <= i ->
  search_qpn n recs q i = Some j <->
  i <= j < i + Z.of_nat n /\ qpn_at recs j = Some q /\
  forall k, i <= k < j -> exists q', qpn_at recs k = Some q' /\ q' <> q.
Proof.
  unfold qpn_at. revert i. induction n as [|n IH]; intros i Hi; simpl search_qpn.
  { split; [done|]. intros [? _]. lia. }
  destruct (aget recs i) as [r|] eqn:Er; simpl.
  - destruct (Z.eqb_spec (qpn r) q) as [Eq|Ne].
    + split.
      * intros [= <-]. split_and!; [lia|lia|by rewrite Er, <- Eq|lia].
      * intros (Hj & Ej & Hk). destruct (Z.eq_dec i j); [by subst|].
        destruct (Hk i ltac:(lia)) as (q' & E' & ?). rewrite Er in E'. simpl in E'. simplify_eq.
    + rewrite IH by lia. split; intros (Hj & Ej & Hk).
      * split_and!; [lia|lia|done|]. intros k Hki.
        destruct (Z.eq_dec k i) as [->|]; [rewrite Er; simpl; eauto|apply Hk; lia].
      * assert (i <> j) by (intros <-; rewrite Er in Ej; simpl in Ej; simplify_eq).
        split_and!; [lia|lia|done|]. intros k Hki. apply Hk. lia.
  - split; [done|]. intros (Hj & Ej & Hk). destruct (Z.eq_dec i j) as [->|]; [by rewrite Er in Ej|].
    destruct (Hk i ltac:(lia)) as (q' & E' & ?). by rewrite Er in E'.
Qed.

Lemma probe_free_Some n recs i j :
  alen recs = MAX_RECORDER_NUM -> probe_free n recs i = Some j ->
  0 <= j < MAX_RECORDER_NUM /\ qpn_at recs j = Some 0.
Proof.
  intros Hl. revert i. induction n as [|n IH]; intros i; simpl; [done|]. intros H. inv_bind.
  zcase_in H; [|by eapply IH]. simplify_eq. unfold qpn_at. rewrite H0. simpl.
  split; [apply Z.mod_pos_bound; unfold MAX_RECORDER_NUM; lia|congruence].
Qed.

Lemma probe_free_None n recs i :
  alen recs = MAX_RECORDER_NUM -> probe_free n recs i = None ->
  forall k, 0 <= k < Z.of_nat n -> qpn_at recs ((i + k) mod MAX_RECORDER_NUM) <> Some 0.
Proof.
  intros Hl. revert i. induction n as [|n IH]; intros i Hp k Hk; [lia|]. simpl in Hp.
  destruct (aget_is_Some recs (i mod MAX_RECORDER_NUM)) as [r Er].
  { rewrite Hl. apply Z.mod_pos_bound. unfold MAX_RECORDER_NUM. lia. }
  rewrite Er in Hp. simpl in Hp. destruct (Z.eqb_spec (qpn r) 0); [done|].
  destruct (Z.eq_dec k 0) as [->|].
  - rewrite Z.add_0_r. unfold qpn_at. rewrite Er. simpl. congruence.
  - replace (i + k) with (i + 1 + (k - 1)) by lia. apply IH; [done|lia].
Qed.

(** The insert branch finds a free slot exactly when there is one. *)
Lemma map_insert_Some recs q j :
  alen recs = MAX_RECORDER_NUM -> map_qpn_to_idx recs q 1 = Some j ->
  0 <= j < MAX_RECORDER_NUM /\ qpn_at recs j = Some 0.
Proof.
  intros Hl H. unfold map_qpn_to_idx in H. inv_bind. change (1 =? 1) with true in H. cbv iota in H.
  zcase_in H; [|by eapply probe_free_Some]. simplify_eq. unfold qpn_at. rewrite H0. simpl.
  split; [apply Z.mod_pos_bound; unfold MAX_RECORDER_NUM; lia|congruence].
Qed.

Lemma map_insert_None recs q :
  alen recs = MAX_RECORDER_NUM -> map_qpn_to_idx recs q 1 = None ->
  forall j, 0 <= j < MAX_RECORDER_NUM -> qpn_at recs j <> Some 0.
Proof.
  intros Hl H j Hj. unfold map_qpn_to_idx in H.
  destruct (aget_is_Some recs (q mod MAX_RECORDER_NUM)) as [r Er].
  { rewrite Hl. apply Z.mod_pos_bound. unfold MAX_RECORDER_NUM. lia. }
  rewrite Er in H. cbn [mbind option_bind] in H. change (1 =? 1) with true in H. cbv iota in H.
  destruct (Z.eqb_spec (qpn r) 0) as [|Hr]; [done|].
  destruct (Z.eq_dec j (q mod MAX_RECORDER_NUM)) as [->|Hne].
  { unfold qpn_at. rewrite Er. simpl. congruence. }
  pose proof (probe_free_None _ _ _ Hl H ((j - q mod MAX_RECORDER_NUM - 1) mod MAX_RECORDER_NUM)) as Hp.
  unfold MAX_RECORDER_NUM in *.
  replace ((q mod 32 + 1 + (j - q mod 32 - 1) mod 32) mod 32) with j in Hp by dlia.
  apply Hp. dlia.
Qed.

Lemma map_lookup_spec recs q j :
  alen recs = MAX_RECORDER_NUM ->
  map_qpn_to_idx recs q 0 = Some j <->
  q mod MAX_RECORDER_NUM <= j < MAX_RECORDER_NUM /\ qpn_at recs j = Some q /\
  forall k, q mod MAX_RECORDER_NUM <= k < j -> qpn_at recs k <> Some q.
Proof.
  intros Hl. assert (0 <= q mod MAX_RECORDER_NUM < MAX_RECORDER_NUM) as Hq.
  { apply Z.mod_pos_bound. unfold MAX_RECORDER_NUM. lia. }
  unfold map_qpn_to_idx. destruct (aget_is_Some recs (q mod MAX_RECORDER_NUM)) as [r Er]; [lia|].
  rewrite Er. cbn [mbind option_bind]. change (0 =? 1) with false. cbv iota.
  rewrite search_qpn_spec by lia.
  split; intros (Hj & Ej & Hk).
  - assert (j < MAX_RECORDER_NUM).
    { unfold qpn_at in Ej. destruct (aget recs j) eqn:E; [|done]. apply aget_Some_lt in E. lia. }
    split_and!; [lia|lia|done|]. intros k Hki E. destruct (Hk k Hki) as (q' & E' & ?). congruence.
  - split_and!; [lia|unfold MAX_RECORDER_NUM in *; lia|done|].
    intros k Hki. destruct (aget_is_Some recs k) as [rk Erk]; [lia|].
    exists (qpn rk). specialize (Hk k Hki). unfold qpn_at in *. rewrite Erk in *. simpl in *.
    split; [done|congruence].
Qed.

(** ** Owners of slots *)

Lemma filter_perm_insert (P : Z -> Prop) `{forall x, Decision (P x)} (l : list Z) i x y :
  l !! i = Some x -> ~ P x -> P y -> filter P (<[i := y]> l) ≡ₚ y :: filter P l.
Proof.
  intros Hi Hx Hy. rewrite (insert_take_drop l i y) by (by eapply lookup_lt_Some).
  rewrite <- (take_drop_middle l i x Hi) at 3.
  rewrite !filter_app, !filter_cons. rewrite decide_True, decide_False by done.
  by rewrite Permutation_middle.
Qed.

Lemma owners_register recs recs' j q r :
  aget recs j = Some r -> qpn r = 0 -> q <> 0 ->
  aset recs j (Recorder q (counters r) (c_counters r)) = Some recs' ->
  owners recs' ≡ₚ q :: owners recs.
Proof.
  intros Er E0 Hq [Hj ->]%aset_inv. unfold owners. rewrite list_fmap_insert. simpl.
  rewrite aget_lookup in Er by lia.
  apply filter_perm_insert with 0; [|by auto|done].
  rewrite list_lookup_fmap, Er. simpl. by rewrite E0.
Qed.

Lemma filter_NoDup_slot (l : list Z) i j x :
  NoDup (filter (fun q => q <> 0) l) -> x <> 0 -> l !! i = Some x -> l !! j = Some x -> i = j.
Proof.
  intros Hnd Hx. revert i j Hnd. induction l as [|y l IH]; intros i j Hnd Hi Hj; [done|].
  assert (NoDup (filter (fun q => q <> 0) l)) as Hnd'.
  { rewrite filter_cons in Hnd. case_decide; [by inv Hnd|done]. }
  assert (y = x -> forall k, l !! k = Some x -> False) as Hfst.
  { intros -> k Hk. rewrite filter_cons, decide_True in Hnd by done. inv Hnd.
    match goal with Hn : _ ∉ _ |- _ => apply Hn end.
    apply list_elem_of_filter. split; [done|]. by eapply list_elem_of_lookup_2. }
  destruct i, j; simpl in *; simplify_eq; try done.
  - exfalso. by eapply Hfst.
  - exfalso. by eapply Hfst.
  - f_equal. by eapply IH.
Qed.

Lemma qpn_at_lookup recs i q : 0 <= i -> qpn_at recs i = Some q <-> (qpn <$> recs) !! Z.to_nat i = Some q.
Proof. intros. unfold qpn_at. rewrite aget_lookup, list_lookup_fmap by done. done. Qed.

Lemma qpn_at_lt recs i q : qpn_at recs i = Some q -> 0 <= i < alen recs.
Proof. unfold qpn_at. destruct (aget recs i) eqn:E; [|done]. intros _. by eapply aget_Some_lt. Qed.

Lemma owners_unique recs i j q :
  NoDup (owners recs) -> q <> 0 -> qpn_at recs i = Some q -> qpn_at recs j = Some q -> i = j.
Proof.
  intros Hnd Hq Hi Hj. pose proof (qpn_at_lt _ _ _ Hi). pose proof (qpn_at_lt _ _ _ Hj).
  rewrite qpn_at_lookup in Hi, Hj by lia.
  pose proof (filter_NoDup_slot _ _ _ _ Hnd Hq Hi Hj). lia.
Qed.

Lemma elem_of_owners recs q : q ∈ owners recs <-> q <> 0 /\ exists i, qpn_at recs i = Some q.
Proof.
  unfold owners. rewrite list_elem_of_filter. split; intros [Hq Hi]; split; try done.
  - apply list_elem_of_lookup in Hi as [k Hk]. exists (Z.of_nat k).
    apply qpn_at_lookup; [lia|]. by rewrite Nat2Z.id.
  - destruct Hi as [i Hi]. pose proof (qpn_at_lt _ _ _ Hi).
    apply qpn_at_lookup in Hi; [|lia]. by eapply list_elem_of_lookup_2.
Qed.

Lemma filter_all (P : Z -> Prop) `{forall x, Decision (P x)} (l : list Z) :
  (forall x, x ∈ l -> P x) -> filter P l = l.
Proof.
  induction l as [|y l IH]; intros Hl; [done|].
  rewrite filter_cons_True by (apply Hl; constructor). f_equal. apply IH. intros x Hx. apply Hl. by constructor.
Qed.

Lemma owners_length_full recs :
  alen recs = MAX_RECORDER_NUM ->
  (forall j, 0 <= j < MAX_RECORDER_NUM -> qpn_at recs j <> Some 0) ->
  Z.of_nat (length (owners recs)) = MAX_RECORDER_NUM.
Proof.
  intros Hl H. rewrite <- Hl. unfold owners, alen.
  rewrite filter_all; [by rewrite length_fmap|].
  intros q [k Hk]%list_elem_of_lookup ->.
  pose proof (lookup_lt_Some _ _ _ Hk) as Hlt. rewrite length_fmap in Hlt. unfold alen in Hl.
  apply (H (Z.of_nat k)); [lia|]. apply qpn_at_lookup; [lia|]. by rewrite Nat2Z.id.
Qed.

Lemma owners_length_free recs j :
  alen recs = MAX_RECORDER_NUM -> qpn_at recs j = Some 0 ->
  Z.of_nat (length (owners recs)) < MAX_RECORDER_NUM.
Proof.
  intros Hl Hj. pose proof (qpn_at_lt _ _ _ Hj). apply qpn_at_lookup in Hj; [|lia].
  rewrite <- Hl. unfold alen.
  assert (length (owners recs) < length (qpn <$> recs))%nat as Hlt;
    [|rewrite length_fmap in Hlt; lia].
  apply length_filter_lt with 0; [by eapply list_elem_of_lookup_2|by intros []].
Qed.

(** ** One registration *)

(** Slots that have an owner keep it. *)
Definition keeps_owners (recs recs' : list recorder) : Prop :=
  forall i q, q <> 0 -> qpn_at recs i = Some q -> qpn_at recs' i = Some q.

Lemma create_hook_free shm q :
  alen (records shm) = MAX_RECORDER_NUM -> q <> 0 ->
  Z.of_nat (length (owners (records shm))) < MAX_RECORDER_NUM ->
  exists recs', create_qp_hook true shm true (Some q) = Some (true, with_records shm recs') /\
  alen recs' = MAX_RECORDER_NUM /\ owners recs' ≡ₚ q :: owners (records shm) /\
  keeps_owners (records shm) recs' /\ (Forall recorder_ok (records shm) -> Forall recorder_ok recs').
Proof.
  intros Hl Hq Hfree. unfold create_qp_hook. cbn [mbind option_bind].
  destruct (map_qpn_to_idx (records shm) q 1) as [j|] eqn:Ej.
  2:{ pose proof (owners_length_full _ Hl (map_insert_None _ _ Hl Ej)). lia. }
  destruct (map_insert_Some _ _ _ Hl Ej) as [Hj H0]. unfold qpn_at in H0.
  destruct (aget (records shm) j) as [r|] eqn:Er; simpl in H0; [|done]. simplify_eq.
  cbn [mbind option_bind].
  destruct (aset (records shm) j (Recorder q (counters r) (c_counters r))) as [recs'|] eqn:Es.
  2:{ rewrite aset_Some in Es by lia. done. }
  rewrite Er. cbn [mbind option_bind]. rewrite Es.
  exists recs'. split; [reflexivity|]. split_and!; [|by eapply owners_register| |].
  - rewrite <- Hl. by eapply aset_alen.
  - intros i q' Hq' Hi. unfold qpn_at in *. rewrite (aget_aset_ne _ _ _ i _ Es); [done|].
    intros ->. rewrite Er in Hi. simpl in Hi. congruence.
  - intros Hf. apply (aset_Forall recorder_ok _ _ _ _ Es Hf). exact (aget_Forall recorder_ok _ _ _ Hf Er).
Qed.

Lemma create_hook_full shm q :
  alen (records shm) = MAX_RECORDER_NUM ->
  Z.of_nat (length (owners (records shm))) = MAX_RECORDER_NUM ->
  create_qp_hook true shm true (Some q) = None.
Proof.
  intros Hl Hfull. unfold create_qp_hook. cbn [mbind option_bind].
  destruct (map_qpn_to_idx (records shm) q 1) as [j|] eqn:Ej; [|done].
  destruct (map_insert_Some _ _ _ Hl Ej) as [_ H0].
  pose proof (owners_length_free _ _ Hl H0). lia.
Qed.

Lemma region_ok_with_records shm recs :
  region_ok shm -> alen recs = MAX_RECORDER_NUM -> Forall recorder_ok recs -> region_ok (with_records shm recs).
Proof. intros []. by constructor. Qed.

Lemma table_zero_ok w : 0 <= w ->
  table_ok w (replicate (Z.to_nat BLOOM_ROWS) (replicate (Z.to_nat BLOOM_COLS) 0)).
Proof.
  intros. split; [by rewrite alen_replicate|].
  apply Forall_replicate. split; [by rewrite alen_replicate|]. apply Forall_replicate. unfold in_width. lia.
Qed.

Lemma region_zero_ok : region_ok region_zero.
Proof.
  constructor; unfold region_zero; cbn [credit records remote_off local_off running epoch inflight
    hotness_bloom local_lock_table]; try (by rewrite alen_replicate); try (apply table_zero_ok; lia).
  apply Forall_replicate. split; cbn [recorder_zero counters c_counters]; by rewrite alen_replicate.
Qed.

Lemma owners_zero : owners (records region_zero) = [].
Proof. vm_compute. done. Qed.

(** ** A sequence of registrations *)

Lemma create_qps_mapped shm qs :
  region_ok shm -> Forall (fun q => q <> 0) qs ->
  Z.of_nat (length (owners (records shm))) + Z.of_nat (length qs) <= MAX_RECORDER_NUM ->
  exists shm', create_qps true shm qs = Some shm' /\ region_ok shm' /\
  owners (records shm') ≡ₚ qs ++ owners (records shm) /\ keeps_owners (records shm) (records shm').
Proof.
  revert shm. induction qs as [|q qs IH]; intros shm Hok Hq Hlen; simpl create_qps.
  { exists shm. split_and!; try done. by intros i q. }
  inv Hq. destruct (create_hook_free shm q) as (recs & E & Hl & Hp & Hk & Hf);
    [apply Hok|done|simpl in Hlen; lia|].
  rewrite E. cbn [mbind option_bind fst snd].
  destruct (IH (with_records shm recs)) as (shm' & E' & Hok' & Hp' & Hk').
  { apply region_ok_with_records; [done..|]. apply Hf, Hok. }
  { done. }
  { cbn [with_records records]. rewrite (Permutation_length Hp). simpl in Hlen |- *. lia. }
  cbn [with_records records] in *.
  exists shm'. split_and!; [done|done| |].
  - rewrite Hp', Hp. simpl. by rewrite Permutation_middle.
  - intros i q' Hq' Hi. apply Hk'; [done|]. by apply Hk.
Qed.

Lemma create_qps_overflow shm qs :
  region_ok shm -> Forall (fun q => q <> 0) qs ->
  MAX_RECORDER_NUM < Z.of_nat (length (owners (records shm))) + Z.of_nat (length qs) ->
  Z.of_nat (length (owners (records shm))) <= MAX_RECORDER_NUM ->
  create_qps true shm qs = None.
Proof.
  revert shm. induction qs as [|q qs IH]; intros shm Hok Hq Hlen Hle; simpl in Hlen; [lia|].
  cbn [create_qps]. inv Hq.
  destruct (Z.eq_dec (Z.of_nat (length (owners (records shm)))) MAX_RECORDER_NUM).
  { by rewrite create_hook_full by (apply Hok || done). }
  destruct (create_hook_free shm q) as (recs & E & Hl & Hp & Hk & Hf); [apply Hok|done|lia|].
  rewrite E. cbn [mbind option_bind fst snd].
  apply IH; [|done|..]; cbn [with_records records].
  - apply region_ok_with_records; [done..|]. apply Hf, Hok.
  - rewrite (Permutation_length Hp). simpl. lia.
  - rewrite (Permutation_length Hp). simpl. lia.
Qed.

(** The first registration of a process maps and clears the region. *)
Lemma create_qps_unmapped shm qs :
  qs <> [] -> create_qps false shm qs = create_qps true region_zero qs.
Proof. destruct qs; [done|]. intros _. reflexivity. Qed.

Lemma create_qps_fresh qs shm :
  qs <> [] -> Forall (fun q => q <> 0) qs -> Z.of_nat (length qs) <= MAX_RECORDER_NUM ->
  exists shm', create_qps false shm qs = Some shm' /\ region_ok shm' /\ owners (records shm') ≡ₚ qs.
Proof.
  intros Hne Hq Hlen. rewrite create_qps_unmapped by done.
  destruct (create_qps_mapped region_zero qs) as (shm' & E & Hok & Hp & _);
    [apply region_zero_ok|done|by rewrite owners_zero|].
  rewrite owners_zero, app_nil_r in Hp. eauto.
Qed.

(** ** Cells of two-dimensional tables *)

Lemma length_filter_mono (P Q : Z -> Prop) `{forall x, Decision (P x)} `{forall x, Decision (Q x)} (l : list Z) :
  (forall x, P x -> Q x) -> (length (filter P l) <= length (filter Q l))%nat.
Proof.
  intros HPQ. induction l as [|x l IH]; [done|]. rewrite !filter_cons.
  destruct (decide (P x)); [rewrite (decide_True (P := Q x)) by auto; simpl; lia|].
  case_decide; simpl; lia.
Qed.

Lemma get2_ok w t row col :
  table_ok w t -> 0 <= row < BLOOM_ROWS -> 0 <= col < BLOOM_COLS ->
  exists v, get2 t row col = Some v /\ in_width w v.
Proof.
  intros [Hl Hf] Hr Hc. destruct (aget_is_Some t row) as [r Er]; [lia|].
  destruct (aget_Forall _ _ _ _ Hf Er) as [Hrl Hrw].
  destruct (aget_is_Some r col) as [v Ev]; [lia|].
  exists v. unfold get2. rewrite Er. cbn [mbind option_bind]. split; [done|].
  exact (aget_Forall _ _ _ _ Hrw Ev).
Qed.

Lemma set2_ok w t row col v :
  table_ok w t -> 0 <= row < BLOOM_ROWS -> 0 <= col < BLOOM_COLS -> in_width w v ->
  exists t', set2 t row col v = Some t' /\ table_ok w t' /\
  forall row' col', get2 t' row' col' =
    if (row =? row') && (col =? col') then Some v else get2 t row' col'.
Proof.
  intros [Hl Hf] Hr Hc Hv. destruct (aget_is_Some t row) as [r Er]; [lia|].
  destruct (aget_Forall _ _ _ _ Hf Er) as [Hrl Hrw].
  destruct (aset r col v) as [r'|] eqn:Er'; [|rewrite aset_Some in Er' by lia; done].
  destruct (aset t row r') as [t'|] eqn:Et'; [|rewrite aset_Some in Et' by lia; done].
  exists t'. unfold set2. rewrite Er. cbn [mbind option_bind]. rewrite Er'. cbn [mbind option_bind].
  split_and!; [done| |].
  - split; [by rewrite (aset_alen _ _ _ _ Et')|]. apply (aset_Forall _ _ _ _ _ Et' Hf).
    split; [by rewrite (aset_alen _ _ _ _ Er')|]. exact (aset_Forall _ _ _ _ _ Er' Hrw Hv).
  - intros row' col'. unfold get2. rewrite (aget_aset _ _ _ _ _ Et').
    destruct (Z.eqb_spec row row') as [<-|]; [|done]. cbn [mbind option_bind andb].
    rewrite (aget_aset _ _ _ _ _ Er'), Er. by destruct (Z.eqb_spec col col').
Qed.

Lemma hash_row_range key : 0 <= hash_row key < BLOOM_ROWS.
Proof. apply Z.mod_pos_bound. unfold BLOOM_ROWS. lia. Qed.

Lemma hash_col_range key : 0 <= hash_col key < BLOOM_COLS.
Proof. apply Z.mod_pos_bound. unfold BLOOM_COLS. lia. Qed.

#[local] Hint Resolve hash_row_range hash_col_range : carr.

Lemma bloom2D_insert_ok bloom k :
  table_ok 32 bloom -> exists bloom' c, bloom2D_query bloom k = Some c /\
  bloom2D_insert bloom k = Some (bloom', u32 (c + 1)) /\ table_ok 32 bloom' /\
  forall k', bloom2D_query bloom' k' =
    if same_cell k k' then Some (u32 (c + 1)) else bloom2D_query bloom k'.
Proof.
  intros Hb. destruct (get2_ok 32 bloom (hash_row k) (hash_col k)) as (c & Ec & Hc); auto with carr.
  destruct (set2_ok 32 bloom (hash_row k) (hash_col k) (u32 (c + 1))) as (b' & Eb & Hb' & Hg);
    auto with carr; try (apply wrapu_range; lia).
  exists b', c. unfold bloom2D_insert, bloom2D_query. rewrite Ec. cbn [mbind option_bind].
  rewrite Eb. cbn [mbind option_bind]. rewrite Hg, !Z.eqb_refl. cbn [andb mbind option_bind].
  split_and!; done.
Qed.

Lemma bloom_adds_ok bloom ks :
  table_ok 32 bloom ->
  exists bloom', bloom_adds bloom ks = Some bloom' /\ table_ok 32 bloom' /\
  forall k, exists c, bloom2D_query bloom k = Some c /\
    bloom2D_query bloom' k = Some (u32 (c + Z.of_nat (length (filter (fun x => same_cell x k = true) ks)))).
Proof.
  revert bloom. induction ks as [|x ks IH]; intros bloom Hb; simpl bloom_adds.
  { exists bloom. split_and!; try done. intros k.
    destruct (get2_ok 32 bloom (hash_row k) (hash_col k)) as (c & Ec & Hc); auto with carr.
    exists c. unfold bloom2D_query. rewrite Ec. split; [done|]. simpl. rewrite Z.add_0_r.
    by rewrite wrapu_small by apply Hc. }
  destruct (bloom2D_insert_ok bloom x Hb) as (b1 & c & Ec & E1 & Hb1 & Hq1).
  rewrite E1. cbn [mbind option_bind fst].
  destruct (IH b1 Hb1) as (b2 & E2 & Hb2 & Hq2). exists b2. split_and!; try done. intros k.
  destruct (Hq2 k) as (ck & Ek & Ek2). rewrite Hq1 in Ek. rewrite filter_cons.
  destruct (same_cell x k) eqn:Es.
  - exists c. split.
    + unfold same_cell in Es. apply andb_true_iff in Es as [E3 E4]. apply Z.eqb_eq in E3, E4.
      unfold bloom2D_query in *. by rewrite <- E3, <- E4.
    + simplify_eq. rewrite decide_True by done. rewrite Ek2, wrapu_add_l. do 2 f_equal.
      cbn [length]. lia.
  - exists ck. split; [done|]. by rewrite decide_False by done.
Qed.

(** ** The lock table *)

(** A cell is 1 exactly when a thread holds a key of it, and then only one does. *)
Record lock_inv (table : list (list Z)) (ths : list lstat) : Prop := {
  li_table : table_ok 64 table;
  li_cell : forall k, exists c, get2 table (hash_row k) (hash_col k) = Some c /\ (c = 0 \/ c = 1) /\
    (c = 0 -> forall t k', ths !! t = Some (LHeld k') -> same_cell k' k = false);
  li_held : forall t k, ths !! t = Some (LHeld k) -> get2 table (hash_row k) (hash_col k) = Some 1;
  li_excl : forall t t' k k', ths !! t = Some (LHeld k) -> ths !! t' = Some (LHeld k') ->
    same_cell k k' = true -> t = t' }.

Lemma same_cell_sym k k' : same_cell k k' = same_cell k' k.
Proof. unfold same_cell. by rewrite (Z.eqb_sym (hash_row k)), (Z.eqb_sym (hash_col k)). Qed.

Lemma same_cell_trans a b c : same_cell a b = true -> same_cell b c = same_cell a c.
Proof.
  unfold same_cell. intros [E1 E2]%andb_true_iff. apply Z.eqb_eq in E1, E2. by rewrite E1, E2.
Qed.

Lemma held_insert ths t s t' k :
  (forall k', s <> LHeld k') -> (<[t := s]> ths : list lstat) !! t' = Some (LHeld k) ->
  t <> t' /\ ths !! t' = Some (LHeld k).
Proof.
  intros Hs H. destruct (decide (t = t')) as [<-|].
  - apply list_lookup_insert_Some in H as [(_ & -> & _)|[]]; [|done]. by destruct (Hs k).
  - by rewrite list_lookup_insert_ne in H.
Qed.

Lemma lock_inv_idle table ths t s :
  lock_inv table ths -> (forall k, s <> LHeld k) -> (forall k, ths !! t <> Some (LHeld k)) ->
  lock_inv table (<[t := s]> ths).
Proof.
  intros [] Hs Ht. constructor; try done.
  - intros k. destruct (li_cell0 k) as (c & ? & ? & Hc). exists c. split_and!; try done.
    intros Hc0 t' k' [? ?]%held_insert; eauto.
  - intros t' k [_ H]%held_insert; eauto.
  - intros t1 t2 k1 k2 [_ H1]%held_insert [_ H2]%held_insert; eauto.
Qed.

Lemma lock_inv_acquire table ths t k table' :
  lock_inv table ths -> ths !! t = Some (LWait k) -> get2 table (hash_row k) (hash_col k) = Some 0 ->
  set2 table (hash_row k) (hash_col k) 1 = Some table' -> lock_inv table' (<[t := LHeld k]> ths).
Proof.
  intros [] Ht Hc Hs.
  destruct (set2_ok 64 table (hash_row k) (hash_col k) 1) as (t1 & E1 & Hok & Hg); auto with carr.
  { unfold in_width. lia. }
  simplify_eq.
  assert (forall t' k', ths !! t' = Some (LHeld k') -> same_cell k' k = false) as Hfree.
  { destruct (li_cell0 k) as (c & Ec & _ & Hc0). intros. eapply Hc0; [congruence|done]. }
  assert (forall t' k', (<[t := LHeld k]> ths) !! t' = Some (LHeld k') ->
    t' = t /\ k' = k \/ t' <> t /\ ths !! t' = Some (LHeld k')) as Hh.
  { intros t' k' H. apply list_lookup_insert_Some in H as [(-> & H & _)|[]]; [left|right]; [|done].
    by simplify_eq. }
  constructor; try done.
  - intros k'. rewrite Hg. fold (same_cell k k'). destruct (same_cell k k') eqn:Es.
    + exists 1. split_and!; [done|by right|done].
    + destruct (li_cell0 k') as (c & Ec & Hc01 & Hc0). exists c. split_and!; try done.
      intros E0 t' k1 [[-> ->]|[_ H1]]%Hh; [done|]. by eapply Hc0.
  - intros t' k' H. rewrite Hg. fold (same_cell k k'). destruct (same_cell k k') eqn:Es; [done|].
    destruct (Hh _ _ H) as [[-> ->]|[_ H1]]; [|by eapply li_held0].
    exfalso. unfold same_cell in Es. by rewrite !Z.eqb_refl in Es.
  - intros t1 t2 k1 k2 [[-> ->]|[? H1]]%Hh [[-> ->]|[? H2]]%Hh Es; eauto; exfalso.
    + rewrite same_cell_sym in Es. by rewrite (Hfree _ _ H2) in Es.
    + by rewrite (Hfree _ _ H1) in Es.
Qed.

Lemma lock_inv_release table ths t k table' :
  lock_inv table ths -> ths !! t = Some (LHeld k) ->
  set2 table (hash_row k) (hash_col k) 0 = Some table' -> lock_inv table' (<[t := LIdle]> ths).
Proof.
  intros [] Ht Hs.
  destruct (set2_ok 64 table (hash_row k) (hash_col k) 0) as (t1 & E1 & Hok & Hg); auto with carr.
  { unfold in_width. lia. }
  simplify_eq. constructor; try done.
  - intros k'. rewrite Hg. fold (same_cell k k'). destruct (same_cell k k') eqn:Es.
    + exists 0. split_and!; [done|by left|]. intros _ t' k1 [Hne H1]%held_insert; [|done].
      destruct (same_cell k1 k') eqn:E2; [|done]. exfalso. apply Hne. symmetry.
      eapply li_excl0; [exact H1|exact Ht|]. rewrite same_cell_sym in Es.
      rewrite <- E2. symmetry. rewrite same_cell_sym in Es.
      rewrite (same_cell_sym k1 k), (same_cell_sym k1 k'). by rewrite (same_cell_trans k k' k1).
    + destruct (li_cell0 k') as (c & Ec & Hc01 & Hc0). exists c. split_and!; try done.
      intros E0 t' k1 [_ H1]%held_insert; eauto.
  - intros t' k' [Hne H1]%held_insert; [|done]. rewrite Hg. fold (same_cell k k').
    destruct (same_cell k k') eqn:Es; [|eauto]. exfalso. by eapply Hne, li_excl0.
  - intros t1 t2 k1 k2 [_ H1]%held_insert [_ H2]%held_insert; eauto.
Qed.

Lemma lock_step_inv s s' : lock_step s s' -> lock_inv s.1 s.2 -> lock_inv s'.1 s'.2.
Proof.
  intros [table ths t key Ht|table ths t key table' b Ht Hl|table ths t key table' b Ht Hu] Hinv; simpl in *.
  - apply lock_inv_idle; [done|done|]. intros k. congruence.
  - unfold try_lock in Hl. inv_bind. zcase_in Hl.
    + inv_bind. simplify_eq. by eapply lock_inv_acquire.
    + simplify_eq. apply lock_inv_idle; [done|done|]. intros k. congruence.
  - unfold try_unlock in Hu. destruct Hinv as [] eqn:Ei. pose proof (li_held0 _ _ Ht) as Hc.
    rewrite Hc in Hu. simpl in Hu. inv_bind. simplify_eq. by eapply lock_inv_release.
Qed.

Lemma lock_steps_inv s s' : rtc lock_step s s' -> lock_inv s.1 s.2 -> lock_inv s'.1 s'.2.
Proof. induction 1; eauto using lock_step_inv. Qed.

Lemma lock_table_init_zero table :
  alen table = BLOOM_ROWS -> Forall (fun r => alen r = BLOOM_COLS) table ->
  local_lock_table_init table = replicate (Z.to_nat BLOOM_ROWS) (replicate (Z.to_nat BLOOM_COLS) 0).
Proof.
  unfold alen, local_lock_table_init. intros Hl Hf. apply list_eq_same_length with (n := Z.to_nat BLOOM_ROWS).
  - by rewrite length_replicate.
  - rewrite length_map. lia.
  - intros i r r' Hi Hr Hr'. apply lookup_replicate in Hr' as [-> _].
    rewrite list_lookup_fmap in Hr. destruct (table !! i) as [r0|] eqn:E; [|done]. simpl in Hr. simplify_eq.
    apply (Forall_lookup_1 _ _ _ _ Hf) in E. symmetry. apply replicate_as_elem_of. split.
    + rewrite length_map. lia.
    + intros x Hx. apply list_elem_of_In, in_map_iff in Hx as (y & <- & _). done.
Qed.

Lemma get2_zero row col :
  0 <= row < BLOOM_ROWS -> 0 <= col < BLOOM_COLS ->
  get2 (replicate (Z.to_nat BLOOM_ROWS) (replicate (Z.to_nat BLOOM_COLS) 0)) row col = Some 0.
Proof.
  intros. unfold get2. rewrite aget_replicate by lia. cbn [mbind option_bind].
  by rewrite aget_replicate by lia.
Qed.

Lemma lock_init_inv table n :
  table_ok 64 table -> lock_inv (local_lock_table_init table) (replicate n LIdle).
Proof.
  intros [Hl Hf]. rewrite lock_table_init_zero; [|done|by eapply Forall_impl; [exact Hf|intros ? []]].
  assert (forall t k, replicate n LIdle !! t = Some (LHeld k) -> False) as Hnone.
  { intros t k [H _]%lookup_replicate. done. }
  constructor; [apply table_zero_ok; lia| |intros ?? Ht; by destruct (Hnone _ _ Ht)..|].
  - intros k. exists 0. rewrite get2_zero by auto with carr.
    split_and!; [done|by left|]. intros _ t k' Ht. by destruct (Hnone _ _ Ht).
  - intros t t' k k' Ht. by destruct (Hnone _ _ Ht).
Qed.

(** ** Properties *)

(** C39: a process that creates at most 32 queue pairs with distinct non-zero
    numbers registers all of them: no access leaves the region, each queue
    pair owns exactly one slot, and every other slot stays free. *)
Theorem fusa_registration shm qs :
  qs <> [] -> Forall (fun q => q <> 0) qs -> NoDup qs -> Z.of_nat (length qs) <= MAX_RECORDER_NUM ->
  exists shm', create_qps false shm qs = Some shm' /\ region_ok shm' /\
    (forall q, q ∈ qs -> exists! i, qpn_at (records shm') i = Some q) /\
    (forall i q, qpn_at (records shm') i = Some q -> q = 0 \/ q ∈ qs).
Proof.
  intros Hne Hq Hnd Hlen. destruct (create_qps_fresh qs shm Hne Hq Hlen) as (shm' & E & Hok & Hp).
  assert (NoDup (owners (records shm'))) as Hnd' by by rewrite Hp.
  exists shm'. split_and!; try done.
  - intros q Hin. rewrite Forall_forall in Hq. pose proof (Hq q Hin) as Hq0.
    rewrite <- Hp in Hin. apply elem_of_owners in Hin as [_ [i Hi]].
    exists i. split; [done|]. intros j Hj. by eapply owners_unique.
  - intros i q Hi. destruct (decide (q = 0)); [by left|right].
    rewrite <- Hp. apply elem_of_owners. eauto.
Qed.

(** Slots are never released, so a process can register at most 32 queue
    pairs over its whole life: the registration of one more ends without a
    slot index, whatever queue pairs have been destroyed in between. *)
Theorem fusa_registration_exhausted shm qs :
  Forall (fun q => q <> 0) qs -> MAX_RECORDER_NUM < Z.of_nat (length qs) ->
  create_qps false shm qs = None.
Proof.
  intros Hq Hlen. destruct qs as [|q qs]; [simpl in Hlen; unfold MAX_RECORDER_NUM in Hlen; lia|].
  rewrite create_qps_unmapped by done.
  apply create_qps_overflow; [apply region_zero_ok|done|rewrite owners_zero; cbn [length] in *; lia|].
  rewrite owners_zero. unfold MAX_RECORDER_NUM. simpl. lia.
Qed.

(** The lookup of a registered queue pair finds its slot if the slot is at
    or after the home slot [qpn mod 32]; a queue pair that linear probing moved
    past the end of the table to an earlier slot is never found, and the search
    leaves the array. *)
Theorem fusa_lookup recs q i :
  alen recs = MAX_RECORDER_NUM -> NoDup (owners recs) -> q <> 0 -> qpn_at recs i = Some q ->
  map_qpn_to_idx recs q 0 = if q mod MAX_RECORDER_NUM <=? i then Some i else None.
Proof.
  intros Hl Hnd Hq Hi. pose proof (qpn_at_lt _ _ _ Hi).
  destruct (Z.leb_spec (q mod MAX_RECORDER_NUM) i).
  - apply map_lookup_spec; [done|]. split_and!; [done|lia|done|].
    intros k Hk Ek. pose proof (owners_unique _ _ _ _ Hnd Hq Hi Ek). lia.
  - destruct (map_qpn_to_idx recs q 0) as [j|] eqn:E; [|done]. apply map_lookup_spec in E; [|done].
    destruct E as (Hj & Ej & _). pose proof (owners_unique _ _ _ _ Hnd Hq Hi Ej). lia.
Qed.

(** Queue pairs 31 and 63 share the home slot 31, so the second is
    registered in slot 0; every later lookup of it reads outside [records]. *)
Theorem fusa_lookup_wrapped :
  (shm' ← create_qps false region_zero [31; 63];
   Some (qpn_at (records shm') 31, qpn_at (records shm') 0, map_qpn_to_idx (records shm') 63 0))
  = Some (Some 31, Some 63, None).
Proof. vm_compute. reflexivity. Qed.

(** The first registration of a second process clears the whole region:
    afterwards no queue pair of the first process is found. *)
Theorem fusa_second_process shm q q' :
  q <> 0 -> q' <> 0 -> q <> q' ->
  exists shm', create_qp_hook false shm true (Some q) = Some (true, shm') /\
    map_qpn_to_idx (records shm') q' 0 = None.
Proof.
  intros Hq Hq' Hne.
  destruct (create_hook_free region_zero q) as (recs & E & Hl & Hp & _);
    [apply region_zero_ok|done|by rewrite owners_zero|].
  exists (with_records region_zero recs). split; [done|]. cbn [with_records records].
  destruct (map_qpn_to_idx recs q' 0) as [j|] eqn:Ej; [|done].
  apply map_lookup_spec in Ej; [|done]. destruct Ej as (_ & Ej & _).
  assert (q' ∈ owners recs) as Hin by (apply elem_of_owners; eauto).
  rewrite Hp, owners_zero in Hin. apply list_elem_of_singleton in Hin. congruence.
Qed.

(** After any sequence of insertions into the counting Bloom filter the
    count of a key is the initial count of its cell plus the number of inserted
    keys of that cell (modulo 2^32): it never undercounts the key itself. *)
Theorem bloom_count bloom ks k :
  table_ok 32 bloom -> bloom2D_query bloom k = Some 0 -> Z.of_nat (length ks) < 2 ^ 32 ->
  exists bloom' n, bloom_adds bloom ks = Some bloom' /\ bloom2D_query bloom' k = Some n /\
    n = Z.of_nat (length (filter (fun x => same_cell x k = true) ks)) /\
    Z.of_nat (length (filter (fun x => x = k) ks)) <= n.
Proof.
  intros Hb H0 Hlen. destruct (bloom_adds_ok bloom ks Hb) as (b & E & Hok & Hq).
  destruct (Hq k) as (c & Ec & En). simplify_eq.
  pose proof (length_filter (fun x => same_cell x k = true) ks).
  rewrite Z.add_0_l, wrapu_small in En by lia.
  eexists b, _. split_and!; [done|done|done|]. apply inj_le.
  apply length_filter_mono. intros x ->. unfold same_cell. by rewrite !Z.eqb_refl.
Qed.

(** [bloom2D_decre] undoes [bloom2D_insert] of the same key. *)
Theorem bloom_insert_decre bloom k :
  table_ok 32 bloom ->
  exists b1 b2 n, bloom2D_insert bloom k = Some (b1, n) /\ bloom2D_decre b1 k = Some b2 /\
    forall k', bloom2D_query b2 k' = bloom2D_query bloom k'.
Proof.
  intros Hb. destruct (bloom2D_insert_ok bloom k Hb) as (b1 & c & Ec & E1 & Hb1 & Hq1).
  destruct (set2_ok 32 b1 (hash_row k) (hash_col k) (u32 (u32 (c + 1) - 1))) as (b2 & E2 & Hb2 & Hg);
    auto with carr; [apply wrapu_range; lia|].
  assert (bloom2D_query b1 k = Some (u32 (c + 1))) as Eq1.
  { rewrite Hq1. unfold same_cell. by rewrite !Z.eqb_refl. }
  exists b1, b2, (u32 (c + 1)). split_and!; [done| |].
  - unfold bloom2D_decre. unfold bloom2D_query in Eq1. rewrite Eq1. done.
  - intros k'. unfold bloom2D_query at 1. rewrite Hg. fold (same_cell k k').
    destruct (same_cell k k') eqn:Es; [|unfold bloom2D_query in Hq1; by rewrite Hq1, Es].
    destruct (get2_ok 32 bloom (hash_row k) (hash_col k)) as (c' & Ec' & Hc'); auto with carr.
    unfold same_cell in Es. apply andb_true_iff in Es as [Er Ecl]. apply Z.eqb_eq in Er, Ecl.
    unfold bloom2D_query in *. rewrite <- Er, <- Ecl, Ec. simplify_eq. f_equal.
    unfold Z.sub. rewrite wrapu_add_l, <- Z.add_assoc, Z.add_0_r. by apply wrapu_small.
Qed.

(** Starting from an initialised lock table and idle threads, however the
    threads' compare-and-swaps interleave, two threads never hold keys of the
    same cell, and a holder's unlock succeeds at its first attempt. *)
Theorem lock_table_mutex table n table' ths :
  table_ok 64 table ->
  rtc lock_step (local_lock_table_init table, replicate n LIdle) (table', ths) ->
  (forall t t' k k', ths !! t = Some (LHeld k) -> ths !! t' = Some (LHeld k') ->
    same_cell k k' = true -> t = t') /\
  (forall t k, ths !! t = Some (LHeld k) -> exists tb, unlock_local_table 1 table' k = Some tb).
Proof.
  intros Hok Hrun.
  assert (lock_inv table' ths) as [].
  { apply (lock_steps_inv _ _ Hrun). by apply lock_init_inv. }
  split; [done|]. intros t k Ht. pose proof (li_held0 _ _ Ht) as Hc.
  destruct (set2_ok 64 table' (hash_row k) (hash_col k) 0) as (tb & Etb & _); auto with carr.
  { unfold in_width. lia. }
  exists tb. simpl. unfold try_unlock. rewrite Hc. simpl. rewrite Etb. done.
Qed.

Lemma fusa_registration_witness :
  exists shm', create_qps false region_zero [5; 37; 6] = Some shm' /\ region_ok shm' /\
    (forall q, q ∈ [5; 37; 6] -> exists! i, qpn_at (records shm') i = Some q) /\
    (forall i q, qpn_at (records shm') i = Some q -> q = 0 \/ q ∈ [5; 37; 6]).
Proof.
  apply (fusa_registration region_zero [5; 37; 6]);
    [discriminate|repeat constructor; discriminate|apply (bool_decide_unpack _); vm_compute; exact I
    |vm_compute; discriminate].
Defined.

Lemma fusa_registration_exhausted_witness :
  create_qps false region_zero (Z.of_nat <$> seq 1 33) = None.
Proof.
  apply (fusa_registration_exhausted region_zero (Z.of_nat <$> seq 1 33));
    [apply (bool_decide_unpack _); vm_compute; exact I|vm_compute; reflexivity].
Defined.

Lemma fusa_lookup_witness :
  let recs := <[5%nat := Recorder 37 [] []]> (replicate 32 recorder_zero) in
  map_qpn_to_idx recs 37 0 = if 37 mod MAX_RECORDER_NUM <=? 5 then Some 5 else None.
Proof.
  intros recs. apply (fusa_lookup recs 37 5);
    [vm_compute; reflexivity|apply (bool_decide_unpack _); vm_compute; exact I|discriminate
    |vm_compute; reflexivity].
Defined.

Lemma fusa_second_process_witness :
  exists shm', create_qp_hook false region_zero true (Some 9) = Some (true, shm') /\
    map_qpn_to_idx (records shm') 8 0 = None.
Proof. apply (fusa_second_process region_zero 9 8); discriminate. Defined.

(** The cleared Bloom filter and lock table. *)
Definition table_zero : list (list Z) :=
  replicate (Z.to_nat BLOOM_ROWS) (replicate (Z.to_nat BLOOM_COLS) 0).

Lemma bloom_count_witness :
  exists bloom' n, bloom_adds table_zero [7; 8; 7] = Some bloom' /\ bloom2D_query bloom' 7 = Some n /\
    n = Z.of_nat (length (filter (fun x => same_cell x 7 = true) [7; 8; 7])) /\
    Z.of_nat (length (filter (fun x => x = 7) [7; 8; 7])) <= n.
Proof.
  apply (bloom_count table_zero [7; 8; 7] 7);
    [apply table_zero_ok; lia|vm_compute; reflexivity|vm_compute; reflexivity].
Defined.

Lemma bloom_insert_decre_witness :
  exists b1 b2 n, bloom2D_insert table_zero 7 = Some (b1, n) /\ bloom2D_decre b1 7 = Some b2 /\
    forall k', bloom2D_query b2 k' = bloom2D_query table_zero k'.
Proof. apply (bloom_insert_decre table_zero 7). apply table_zero_ok. lia. Defined.

Lemma lock_table_mutex_witness :
  let table' := default [] (set2 table_zero (hash_row 7) (hash_col 7) 1) in
  let ths := [LHeld 7; LIdle] in
  (forall t t' k k', ths !! t = Some (LHeld k) -> ths !! t' = Some (LHeld k') ->
    same_cell k k' = true -> t = t') /\
  (forall t k, ths !! t = Some (LHeld k) -> exists tb, unlock_local_table 1 table' k = Some tb).
Proof.
  intros table' ths. apply (lock_table_mutex table_zero 2); [apply table_zero_ok; lia|].
  eapply rtc_l; [apply (lock_call _ _ 0 7); reflexivity|].
  eapply rtc_l; [|apply rtc_refl].
  refine (lock_turn (local_lock_table_init table_zero) [LWait 7; LIdle] 0 7 table' true _ _);
    vm_compute; reflexivity.
Defined.
