(* ===== verification/Mem.v ===== *)
(** Byte-addressed memory and the byte order of the fields in it.

    Work queue buffers, doorbell records and RPC buffers are ranges of one
    memory, a finite map from addresses to bytes (an address that was never
    written reads as 0).  A field [x = htobe32 (v)] is a big-endian store of
    four bytes; the host is little-endian (recorder.h includes x86intrin.h). *)

From S2P Require Import Prelude.

Abbreviation mem := (gmap Z Z).

Definition ld8 (m : mem) (a : Z) : Z := default 0 (m !! a).
Definition st8 (m : mem) (a v : Z) : mem := <[a := u8 v]> m.

Fixpoint load_bytes (m : mem) (a : Z) (n : nat) : list Z :=
  match n with
  | O => []
  | S n' => ld8 m a :: load_bytes m (a + 1) n'
  end.

Fixpoint store_bytes (m : mem) (a : Z) (bs : list Z) : mem :=
  match bs with
  | [] => m
  | b :: bs' => store_bytes (st8 m a b) (a + 1) bs'
  end.

(** The [n] bytes of a value, least significant first, and back. *)
Fixpoint le_bytes (n : nat) (v : Z) : list Z :=
  match n with
  | O => []
  | S n' => v mod 256 :: le_bytes n' (v / 256)
  end.

Fixpoint le_val (bs : list Z) : Z :=
  match bs with
  | [] => 0
  | b :: bs' => b + 256 * le_val bs'
  end.

Definition be_bytes (n : nat) (v : Z) : list Z := reverse (le_bytes n v).
Definition be_val (bs : list Z) : Z := le_val (reverse bs).

Definition st_le (n : nat) (m : mem) (a v : Z) : mem := store_bytes m a (le_bytes n v).
Definition st_be (n : nat) (m : mem) (a v : Z) : mem := store_bytes m a (be_bytes n v).
Definition ld_le (n : nat) (m : mem) (a : Z) : Z := le_val (load_bytes m a n).
Definition ld_be (n : nat) (m : mem) (a : Z) : Z := be_val (load_bytes m a n).

(** [memcpy] of disjoint ranges and [memset]; a negative count is a huge
    [size_t], which no caller passes. *)
Definition memcpy (m : mem) (dst src n : Z) : mem := store_bytes m dst (load_bytes m src (Z.to_nat n)).
Definition memset (m : mem) (dst c n : Z) : mem := store_bytes m dst (replicate (Z.to_nat n) c).

(** The byte swap of a 32-bit value: [htobe32] and [be32toh] as functions. *)
Definition bswap32 (v : Z) : Z := be_val (le_bytes 4 v).

Definition byte_ok (b : Z) : Prop := 0 <= b < 256.

(** Every byte of memory is one. *)
Definition mem_ok (m : mem) : Prop := forall a, byte_ok (ld8 m a).

(** ** Bytes of values *)

Lemma length_le_bytes n v : length (le_bytes n v) = n.
Proof. revert v. induction n; simpl; auto. Qed.

Lemma length_be_bytes n v : length (be_bytes n v) = n.
Proof. unfold be_bytes. by rewrite length_reverse, length_le_bytes. Qed.

Lemma le_bytes_ok n v : Forall byte_ok (le_bytes n v).
Proof.
  revert v. induction n as [|n IH]; intros v; simpl; constructor; [|done].
  unfold byte_ok. apply Z.mod_pos_bound. lia.
Qed.

Lemma be_bytes_ok n v : Forall byte_ok (be_bytes n v).
Proof. unfold be_bytes. apply Forall_reverse, le_bytes_ok. Qed.

Lemma le_val_le_bytes n v : le_val (le_bytes n v) = v mod 256 ^ Z.of_nat n.
Proof.
  revert v. induction n as [|n IH]; intros v; simpl le_bytes; simpl le_val.
  - by rewrite Z.mod_1_r.
  - rewrite IH, Nat2Z.inj_succ, Z.pow_succ_r by lia. symmetry. apply Z.rem_mul_r; lia.
Qed.

Lemma be_val_be_bytes n v : be_val (be_bytes n v) = v mod 256 ^ Z.of_nat n.
Proof. unfold be_val, be_bytes. by rewrite reverse_involutive, le_val_le_bytes. Qed.

Lemma le_val_range bs : Forall byte_ok bs -> 0 <= le_val bs < 256 ^ Z.of_nat (length bs).
Proof.
  induction 1 as [|b bs Hb _ IH]; [simpl; lia|]. cbn [length le_val].
  rewrite Nat2Z.inj_succ, Z.pow_succ_r by lia. unfold byte_ok in Hb. lia.
Qed.

Lemma le_bytes_le_val bs : Forall byte_ok bs -> le_bytes (length bs) (le_val bs) = bs.
Proof.
  induction 1 as [|b bs Hb Hbs IH]; [done|]. cbn [length le_val le_bytes]. unfold byte_ok in Hb.
  replace ((b + 256 * le_val bs) mod 256) with b by dlia.
  replace ((b + 256 * le_val bs) / 256) with (le_val bs) by dlia. by rewrite IH.
Qed.

(** ** Loads after stores *)

Lemma length_load_bytes m a n : length (load_bytes m a n) = n.
Proof. revert a. induction n; simpl; auto. Qed.

Lemma ld8_store_bytes_out m a bs b :
  b < a \/ a + Z.of_nat (length bs) <= b -> ld8 (store_bytes m a bs) b = ld8 m b.
Proof.
  revert m a. induction bs as [|x bs IH]; intros m a Hd; simpl in *; [done|].
  rewrite IH by lia. unfold ld8, st8. rewrite lookup_insert_ne by lia. done.
Qed.

Lemma load_store_out m a bs b n :
  b + Z.of_nat n <= a \/ a + Z.of_nat (length bs) <= b ->
  load_bytes (store_bytes m a bs) b n = load_bytes m b n.
Proof.
  revert b. induction n as [|n IH]; intros b Hd; simpl; [done|].
  rewrite ld8_store_bytes_out, IH by lia. done.
Qed.

Lemma load_store_same m a bs : Forall byte_ok bs -> load_bytes (store_bytes m a bs) a (length bs) = bs.
Proof.
  revert m a. induction bs as [|b bs IH]; intros m a Hb; simpl; [done|]. inv Hb.
  rewrite IH by done. f_equal. rewrite ld8_store_bytes_out by lia.
  unfold ld8, st8. rewrite lookup_insert_eq. simpl. apply wrapu_small. by unfold byte_ok in *.
Qed.

Lemma load_bytes_app m a n k :
  load_bytes m a (n + k) = load_bytes m a n ++ load_bytes m (a + Z.of_nat n) k.
Proof.
  revert a. induction n as [|n IH]; intros a; simpl.
  - by rewrite Z.add_0_r.
  - rewrite IH. do 3 f_equal. lia.
Qed.

Lemma store_bytes_app m a bs cs :
  store_bytes m a (bs ++ cs) = store_bytes (store_bytes m a bs) (a + Z.of_nat (length bs)) cs.
Proof.
  revert m a. induction bs as [|b bs IH]; intros m a; simpl.
  - by rewrite Z.add_0_r.
  - rewrite IH. f_equal. lia.
Qed.

Lemma ld_be_st_be n m a v : ld_be n (st_be n m a v) a = v mod 256 ^ Z.of_nat n.
Proof.
  pose proof (load_store_same m a (be_bytes n v) (be_bytes_ok n v)) as H.
  rewrite length_be_bytes in H. unfold ld_be, st_be. rewrite H. apply be_val_be_bytes.
Qed.

Lemma ld_le_st_le n m a v : ld_le n (st_le n m a v) a = v mod 256 ^ Z.of_nat n.
Proof.
  pose proof (load_store_same m a (le_bytes n v) (le_bytes_ok n v)) as H.
  rewrite length_le_bytes in H. unfold ld_le, st_le. rewrite H. apply le_val_le_bytes.
Qed.

Lemma ld_be_st_be_out n k m a b v :
  b + Z.of_nat n <= a \/ a + Z.of_nat k <= b -> ld_be n (st_be k m a v) b = ld_be n m b.
Proof. intros. unfold ld_be, st_be. rewrite load_store_out; rewrite ?length_be_bytes; done. Qed.

Lemma ld_be_st_le_out n k m a b v :
  b + Z.of_nat n <= a \/ a + Z.of_nat k <= b -> ld_be n (st_le k m a v) b = ld_be n m b.
Proof. intros. unfold ld_be, st_le. rewrite load_store_out; rewrite ?length_le_bytes; done. Qed.

Lemma ld_le_st_le_out n k m a b v :
  b + Z.of_nat n <= a \/ a + Z.of_nat k <= b -> ld_le n (st_le k m a v) b = ld_le n m b.
Proof. intros. unfold ld_le, st_le. rewrite load_store_out; rewrite ?length_le_bytes; done. Qed.

Lemma ld_le_st_be_out n k m a b v :
  b + Z.of_nat n <= a \/ a + Z.of_nat k <= b -> ld_le n (st_be k m a v) b = ld_le n m b.
Proof. intros. unfold ld_le, st_be. rewrite load_store_out; rewrite ?length_be_bytes; done. Qed.

Lemma st8_store m a v : st8 m a v = store_bytes m a [v].
Proof. done. Qed.

Lemma ld_be_st8_out n m a b v : b + Z.of_nat n <= a \/ a + 1 <= b -> ld_be n (st8 m a v) b = ld_be n m b.
Proof. intros. unfold ld_be. rewrite st8_store, load_store_out; simpl; done. Qed.

Lemma ld_le_st8_out n m a b v : b + Z.of_nat n <= a \/ a + 1 <= b -> ld_le n (st8 m a v) b = ld_le n m b.
Proof. intros. unfold ld_le. rewrite st8_store, load_store_out; simpl; done. Qed.

Lemma ld8_st8 m a v : ld8 (st8 m a v) a = u8 v.
Proof. unfold ld8, st8. by rewrite lookup_insert_eq. Qed.

Lemma ld8_st8_out m a b v : a <> b -> ld8 (st8 m a v) b = ld8 m b.
Proof. intros. unfold ld8, st8. by rewrite lookup_insert_ne. Qed.

Lemma ld8_st_be_out n m a b v : b < a \/ a + Z.of_nat n <= b -> ld8 (st_be n m a v) b = ld8 m b.
Proof. intros. unfold st_be. apply ld8_store_bytes_out. by rewrite length_be_bytes. Qed.

Lemma ld8_st_le_out n m a b v : b < a \/ a + Z.of_nat n <= b -> ld8 (st_le n m a v) b = ld8 m b.
Proof. intros. unfold st_le. apply ld8_store_bytes_out. by rewrite length_le_bytes. Qed.

(** Zero has no byte order. *)
Lemma st_le_0 n m a : st_le n m a 0 = st_be n m a 0.
Proof.
  assert (le_bytes n 0 = replicate n 0) as E by (induction n as [|n IH]; [done|]; change (0 :: le_bytes n 0 = 0 :: replicate n 0); by rewrite IH).
  unfold st_le, st_be, be_bytes. by rewrite E, reverse_replicate.
Qed.

(** A big-endian store is a little-endian store of the swapped value. *)
Lemma st_be_bswap32 m a v : st_be 4 m a v = st_le 4 m a (bswap32 v).
Proof.
  unfold st_be, st_le, bswap32, be_val, be_bytes. f_equal.
  rewrite <- (le_bytes_le_val (reverse (le_bytes 4 v))) at 1; [|apply Forall_reverse, le_bytes_ok].
  by rewrite length_reverse, length_le_bytes.
Qed.

Lemma bswap32_range v : 0 <= bswap32 v < 2 ^ 32.
Proof.
  unfold bswap32, be_val. pose proof (le_val_range (reverse (le_bytes 4 v))) as H.
  rewrite length_reverse, length_le_bytes in H. apply H, Forall_reverse, le_bytes_ok.
Qed.

Lemma ld8_store_bytes_ext m m' a bs b :
  ld8 m' b = ld8 m b -> ld8 (store_bytes m' a bs) b = ld8 (store_bytes m a bs) b.
Proof.
  revert m m' a. induction bs as [|x bs IH]; intros m m' a H; simpl; [done|]. apply IH.
  unfold ld8, st8 in *. destruct (decide (a = b)) as [->|Hn]; [by rewrite !lookup_insert_eq|].
  by rewrite !lookup_insert_ne.
Qed.

(** The effect of a store outside a range, as a relation used to frame a
    whole function: [m'] agrees with [m] outside [lo, hi). *)
Definition same_outside (lo hi : Z) (m m' : mem) : Prop :=
  forall a, a < lo \/ hi <= a -> ld8 m' a = ld8 m a.

#[export] Instance same_outside_refl lo hi : Reflexive (same_outside lo hi).
Proof. by intros m a. Qed.

#[export] Instance same_outside_trans lo hi : Transitive (same_outside lo hi).
Proof. intros m1 m2 m3 H12 H23 a Ha. rewrite H23, H12; done. Qed.

Lemma same_outside_weaken lo hi lo' hi' m m' :
  same_outside lo hi m m' -> lo' <= lo -> hi <= hi' -> same_outside lo' hi' m m'.
Proof. intros H ?? a Ha. apply H. lia. Qed.

Lemma same_outside_store lo hi m a bs :
  lo <= a -> a + Z.of_nat (length bs) <= hi -> same_outside lo hi m (store_bytes m a bs).
Proof. intros ?? b Hb. apply ld8_store_bytes_out. lia. Qed.

Lemma load_bytes_same lo hi m m' a n :
  same_outside lo hi m m' -> a + Z.of_nat n <= lo \/ hi <= a -> load_bytes m' a n = load_bytes m a n.
Proof.
  intros H. revert a. induction n as [|n IH]; intros a Ha; simpl; [done|].
  rewrite H, IH by lia. done.
Qed.

Lemma ld_be_same lo hi m m' a n :
  same_outside lo hi m m' -> a + Z.of_nat n <= lo \/ hi <= a -> ld_be n m' a = ld_be n m a.
Proof. intros. unfold ld_be. by erewrite load_bytes_same. Qed.

(** Loads depend on the bytes they read only. *)
Lemma load_bytes_ext m m' a n :
  (forall b, a <= b < a + Z.of_nat n -> ld8 m' b = ld8 m b) -> load_bytes m' a n = load_bytes m a n.
Proof.
  revert a. induction n as [|n IH]; intros a H; simpl; [done|]. f_equal; [apply H; lia|].
  apply IH. intros b Hb. apply H. lia.
Qed.

Lemma ld_be_ext m m' a n :
  (forall b, a <= b < a + Z.of_nat n -> ld8 m' b = ld8 m b) -> ld_be n m' a = ld_be n m a.
Proof. intros H. unfold ld_be. by rewrite (load_bytes_ext _ _ _ _ H). Qed.

Lemma ld_le_ext m m' a n :
  (forall b, a <= b < a + Z.of_nat n -> ld8 m' b = ld8 m b) -> ld_le n m' a = ld_le n m a.
Proof. intros H. unfold ld_le. by rewrite (load_bytes_ext _ _ _ _ H). Qed.

(** ** Copies *)

Lemma store_bytes_mem_ok m a bs : mem_ok m -> mem_ok (store_bytes m a bs).
Proof.
  revert m a. induction bs as [|b bs IH]; intros m a H; [done|]. simpl. apply IH. intros x.
  unfold ld8, st8. destruct (decide (a = x)) as [->|]; [rewrite lookup_insert_eq|rewrite lookup_insert_ne by done; apply H].
  simpl. apply (wrapu_range 8). lia.
Qed.

Lemma memcpy_at m dst src n k : mem_ok m -> 0 <= k < n -> ld8 (memcpy m dst src n) (dst + k) = ld8 m (src + k).
Proof.
  intros Hm Hk. unfold memcpy.
  assert (H : forall bs a m0 j, Forall byte_ok bs -> forall v, bs !! j = Some v -> ld8 (store_bytes m0 a bs) (a + Z.of_nat j) = v).
  { induction bs as [|b bs IH]; intros a m0 j Hf v Hv; [done|]. inv Hf. destruct j as [|j]; simpl in *.
    - injection Hv as ->. rewrite Z.add_0_r, ld8_store_bytes_out by lia. rewrite ld8_st8. by apply (wrapu_small 8).
    - replace (a + Z.of_nat (S j)) with (a + 1 + Z.of_nat j) by lia. by apply IH. }
  assert (L : forall a n0 j, (j < n0)%nat -> load_bytes m a n0 !! j = Some (ld8 m (a + Z.of_nat j))).
  { intros a n0. revert a. induction n0 as [|n0 IH]; intros a j Hj; [lia|]. destruct j as [|j]; simpl.
    - by rewrite Z.add_0_r.
    - rewrite IH by lia. do 2 f_equal. lia. }
  replace k with (Z.of_nat (Z.to_nat k)) by lia. apply H; [|apply L; lia].
  apply Forall_lookup_2. intros j v Hv. assert (j < Z.to_nat n)%nat as Hj.
  { apply lookup_lt_Some in Hv. by rewrite length_load_bytes in Hv. }
  rewrite L in Hv by done. injection Hv as <-. apply Hm.
Qed.

Lemma ld_be_move m m' a a' n :
  (forall k, 0 <= k < Z.of_nat n -> ld8 m' (a' + k) = ld8 m (a + k)) -> ld_be n m' a' = ld_be n m a.
Proof.
  intros H. unfold ld_be. f_equal. revert a a' H. induction n as [|n IH]; intros a a' H; simpl; [done|]. f_equal.
  - specialize (H 0 ltac:(lia)). by rewrite !Z.add_0_r in H.
  - apply IH. intros k Hk. rewrite <- !Z.add_assoc. apply H. lia.
Qed.

Lemma ld_le_range m a n : mem_ok m -> 0 <= ld_le n m a < 256 ^ Z.of_nat n.
Proof.
  intros Hm. unfold ld_le. rewrite <- (length_load_bytes m a n) at 3. apply le_val_range.
  revert a. induction n as [|n IH]; intros a; simpl; constructor; [apply Hm|apply IH].
Qed.

Lemma ld_le_move m m' a a' n :
  (forall k, 0 <= k < Z.of_nat n -> ld8 m' (a' + k) = ld8 m (a + k)) -> ld_le n m' a' = ld_le n m a.
Proof.
  intros H. unfold ld_le. f_equal. revert a a' H. induction n as [|n IH]; intros a a' H; simpl; [done|]. f_equal.
  - specialize (H 0 ltac:(lia)). by rewrite !Z.add_0_r in H.
  - apply IH. intros k Hk. rewrite <- !Z.add_assoc. apply H. lia.
Qed.

(** Bytes copied from one memory to another. *)
Lemma store_load_at ms mc dst src n k : mem_ok mc -> 0 <= k < Z.of_nat n ->
  ld8 (store_bytes ms dst (load_bytes mc src n)) (dst + k) = ld8 mc (src + k).
Proof.
  intros Hm. revert ms dst src k. induction n as [|n IH]; intros ms dst src k Hk; [lia|]. simpl.
  destruct (Z.eq_dec k 0) as [->|].
  - rewrite !Z.add_0_r, ld8_store_bytes_out, ld8_st8 by lia. apply wrapu_small, Hm.
  - replace (dst + k) with (dst + 1 + (k - 1)) by lia. rewrite IH by lia. f_equal. lia.
Qed.

Lemma empty_mem_ok : mem_ok ∅.
Proof. intros a. unfold ld8. by rewrite lookup_empty. Qed.

Lemma memcpy_frame m dst src n : 0 <= n -> same_outside dst (dst + n) m (memcpy m dst src n).
Proof. intros Hn a Ha. apply ld8_store_bytes_out. rewrite length_load_bytes. lia. Qed.

(** Resolves a load through the stores above it, the addresses by [lia]. *)
Ltac mem_step :=
  first
  [ rewrite ld_be_st_be | rewrite ld_le_st_le | rewrite ld8_st8
  | rewrite ld_be_st_be_out by lia | rewrite ld_be_st_le_out by lia | rewrite ld_be_st8_out by lia
  | rewrite ld_le_st_le_out by lia | rewrite ld_le_st_be_out by lia | rewrite ld_le_st8_out by lia
  | rewrite ld8_st_be_out by lia | rewrite ld8_st_le_out by lia | rewrite ld8_st8_out by lia ].
Ltac mem_load := repeat mem_step.
