(* ===== verification/Wqe.v ===== *)
(** providers/mlx5/qp.c, wqe.h, mlx5dv.h: the segments of a send work queue
    entry (WQE) and the functions that write them.

    A segment is a range of bytes of the memory; a function that fills one
    takes the memory and the segment's address and returns the memory, with
    the fields at the offsets of the packed C structure.  Functions that can
    refuse their input return an error number with the state reached, as the
    C functions do; [None] is undefined behaviour. *)

From S2P Require Import Prelude Util Mem.

(** ** Error numbers and the sequencing of fallible steps *)

Definition EINVAL : Z := 22.
Definition ENOMEM : Z := 12.
Definition EOPNOTSUPP : Z := 95.
Definition ENOENT : Z := 2.

(** [Some (0, s)]: go on with [s]; [Some (e, s)]: leave with error [e] in
    state [s]; [None]: undefined behaviour. *)
Definition andthen {S : Type} (r : option (Z * S)) (k : S -> option (Z * S)) : option (Z * S) :=
  match r with
  | None => None
  | Some (e, s) => if e =? 0 then k s else Some (e, s)
  end.

Notation "'let!' s := r 'in' k" := (andthen r (fun s => k))
  (at level 10, s pattern, k at level 200, format "'let!'  s  :=  r  'in' '//' k").

(** ** Constants *)

Definition IBV_WR_RDMA_WRITE : Z := 0.
Definition IBV_WR_RDMA_WRITE_WITH_IMM : Z := 1.
Definition IBV_WR_SEND : Z := 2.
Definition IBV_WR_SEND_WITH_IMM : Z := 3.
Definition IBV_WR_RDMA_READ : Z := 4.
Definition IBV_WR_ATOMIC_CMP_AND_SWP : Z := 5.
Definition IBV_WR_ATOMIC_FETCH_AND_ADD : Z := 6.
Definition IBV_WR_LOCAL_INV : Z := 7.
Definition IBV_WR_BIND_MW : Z := 8.
Definition IBV_WR_SEND_WITH_INV : Z := 9.
Definition IBV_WR_TSO : Z := 10.
Definition IBV_WR_DRIVER1 : Z := 11.

Definition MLX5_OPCODE_NOP : Z := 0x00.
Definition MLX5_OPCODE_SEND_INVAL : Z := 0x01.
Definition MLX5_OPCODE_RDMA_WRITE : Z := 0x08.
Definition MLX5_OPCODE_RDMA_WRITE_IMM : Z := 0x09.
Definition MLX5_OPCODE_SEND : Z := 0x0a.
Definition MLX5_OPCODE_SEND_IMM : Z := 0x0b.
Definition MLX5_OPCODE_TSO : Z := 0x0e.
Definition MLX5_OPCODE_RDMA_READ : Z := 0x10.
Definition MLX5_OPCODE_ATOMIC_CS : Z := 0x11.
Definition MLX5_OPCODE_ATOMIC_FA : Z := 0x12.
Definition MLX5_OPCODE_UMR : Z := 0x25.

(** The table indexed by the verbs opcode. *)
Definition mlx5_ib_opcode : list Z :=
  [ MLX5_OPCODE_RDMA_WRITE; MLX5_OPCODE_RDMA_WRITE_IMM; MLX5_OPCODE_SEND; MLX5_OPCODE_SEND_IMM;
    MLX5_OPCODE_RDMA_READ; MLX5_OPCODE_ATOMIC_CS; MLX5_OPCODE_ATOMIC_FA; MLX5_OPCODE_UMR;
    MLX5_OPCODE_UMR; MLX5_OPCODE_SEND_INVAL; MLX5_OPCODE_TSO; MLX5_OPCODE_UMR ].

Definition IBV_SEND_FENCE : Z := 1.
Definition IBV_SEND_SIGNALED : Z := 2.
Definition IBV_SEND_SOLICITED : Z := 4.
Definition IBV_SEND_INLINE : Z := 8.
Definition IBV_SEND_IP_CSUM : Z := 16.

Definition MLX5_WQE_CTRL_CQ_UPDATE : Z := 8.
Definition MLX5_WQE_CTRL_SOLICITED : Z := 2.
Definition MLX5_WQE_CTRL_FENCE : Z := 128.
Definition MLX5_WQE_CTRL_INITIATOR_SMALL_FENCE : Z := 32.
Definition MLX5_SEND_WQE_BB : Z := 64.
Definition MLX5_SEND_WQE_SHIFT : Z := 6.
Definition MLX5_INLINE_SEG : Z := 0x80000000.
Definition MLX5_INVALID_LKEY : Z := 0x100.
Definition MLX5_EXTENDED_UD_AV : Z := 0x80000000.
Definition MLX5_ATOMIC_SIZE : Z := 8.
Definition MLX5_ETH_WQE_L3_CSUM : Z := 64.
Definition MLX5_ETH_WQE_L4_CSUM : Z := 128.
Definition MLX5_CSUM_SUPPORT_RAW_OVER_ETH : Z := 1.
Definition MLX5_CSUM_SUPPORT_UNDERLAY_UD : Z := 2.
Definition MLX5_QP_FLAGS_USE_UNDERLAY : Z := 1.
Definition MLX5_IPOIB_INLINE_MIN_HEADER_SIZE : Z := 4.
Definition MLX5_SOURCE_QPN_INLINE_MAX_HEADER_SIZE : Z := 18.
Definition MLX5_ETH_L2_INLINE_HEADER_SIZE : Z := 18.
Definition MLX5_ETH_L2_MIN_HEADER_SIZE : Z := 14.

(** Sizes and field offsets of the segments. *)
Definition sizeof_ctrl : Z := 16.
Definition sizeof_raddr : Z := 16.
Definition sizeof_atomic : Z := 16.
Definition sizeof_xrc : Z := 16.
Definition sizeof_data : Z := 16.
Definition sizeof_datagram : Z := 48.
Definition sizeof_eth : Z := 32.
Definition sizeof_eth_pad : Z := 16.
Definition sizeof_umr_ctrl : Z := 48.
Definition sizeof_mkey_ctx : Z := 64.
Definition eth_inline_hdr_start : Z := 14.
Definition eth_inline_hdr : Z := 16.

(** A flag test [x & f]. *)
Definition has (x f : Z) : bool := negb (Z.land x f =? 0).

(** ** Work requests *)

Record ibv_sge := Sge { sg_addr : Z; sg_length : Z; sg_lkey : Z }.

Record ibv_mw_bind_info := BindInfo {
  bi_mr_lkey : Z; bi_addr : Z; bi_length : Z; bi_access : Z }.

(** [w0] to [w3] are the 64-bit words of the union [wr]: [rdma.remote_addr],
    [atomic.remote_addr] and [ud.ah] are [w0]; [atomic.compare_add] is [w1],
    whose low half is [rdma.rkey] and [ud.remote_qpn] and whose high half is
    [ud.remote_qkey]; [w2] is [atomic.swap] and [w3] holds [atomic.rkey].
    [imm] is the 32-bit union of [imm_data] and [invalidate_rkey].  The address
    handle of a UD request is given by the address of its [mlx5_wqe_av]. *)
Record ibv_send_wr := SendWr {
  wr_id : Z; sg_list : list ibv_sge; num_sge : Z; opcode : Z; send_flags : Z; imm : Z;
  w0 : Z; w1 : Z; w2 : Z; w3 : Z; remote_srqn : Z;
  mw_type : Z; mw_rkey : Z; bind_rkey : Z; bind_info : ibv_mw_bind_info;
  tso_hdr : Z; tso_hdr_sz : Z; tso_mss : Z }.

Definition rdma_remote_addr (w : ibv_send_wr) : Z := w0 w.
Definition rdma_rkey (w : ibv_send_wr) : Z := u32 (w1 w).
Definition atomic_remote_addr (w : ibv_send_wr) : Z := w0 w.
Definition atomic_compare_add (w : ibv_send_wr) : Z := w1 w.
Definition atomic_swap (w : ibv_send_wr) : Z := w2 w.
Definition atomic_rkey (w : ibv_send_wr) : Z := u32 (w3 w).
Definition ud_av (w : ibv_send_wr) : Z := w0 w.
Definition ud_remote_qpn (w : ibv_send_wr) : Z := u32 (w1 w).
Definition ud_remote_qkey (w : ibv_send_wr) : Z := w1 w / 2 ^ 32.

(** ** Segments *)

Definition set_raddr_seg (m : mem) (rseg remote_addr rkey : Z) : mem :=
  let m := st_be 8 m rseg remote_addr in
  let m := st_be 4 m (rseg + 8) rkey in
  st_le 4 m (rseg + 12) 0.

Definition set_atomic_seg (m : mem) (aseg opcode swap compare_add : Z) : mem :=
  if opcode =? IBV_WR_ATOMIC_CMP_AND_SWP then
    let m := st_be 8 m aseg swap in
    st_be 8 m (aseg + 8) compare_add
  else st_be 8 m aseg compare_add.

Definition _set_datagram_seg (m : mem) (dseg av remote_qpn remote_qkey : Z) : mem :=
  let m := memcpy m dseg av sizeof_datagram in
  let m := st_be 4 m (dseg + 8) (Z.lor remote_qpn MLX5_EXTENDED_UD_AV) in
  st_be 4 m dseg remote_qkey.

Definition set_datagram_seg (m : mem) (dseg : Z) (w : ibv_send_wr) : mem :=
  _set_datagram_seg m dseg (ud_av w) (ud_remote_qpn w) (ud_remote_qkey w).

Definition set_data_ptr_seg (m : mem) (dseg : Z) (sg : ibv_sge) (offset : Z) : mem :=
  let m := st_be 4 m dseg (sg_length sg - offset) in
  let m := st_be 4 m (dseg + 4) (sg_lkey sg) in
  st_be 8 m (dseg + 8) (sg_addr sg + offset).

Definition set_data_ptr_seg_atomic (m : mem) (dseg : Z) (sg : ibv_sge) : mem :=
  let m := st_be 4 m dseg MLX5_ATOMIC_SIZE in
  let m := st_be 4 m (dseg + 4) (sg_lkey sg) in
  st_be 8 m (dseg + 8) (sg_addr sg).

Definition set_data_ptr_seg_end (m : mem) (dseg : Z) : mem :=
  let m := st_le 4 m dseg 0 in
  let m := st_be 4 m (dseg + 4) MLX5_INVALID_LKEY in
  st_le 8 m (dseg + 8) 0.

(** The value of [ctrl->imm], a native 32-bit value. *)
Definition send_ieth (w : ibv_send_wr) : Z :=
  if (opcode w =? IBV_WR_SEND_WITH_IMM) || (opcode w =? IBV_WR_RDMA_WRITE_WITH_IMM) then imm w
  else if opcode w =? IBV_WR_SEND_WITH_INV then bswap32 (imm w)
  else 0.

(** [calc_sig] of mlx5.h: the complement of the exclusive or of the bytes. *)
Definition calc_sig (m : mem) (a size : Z) : Z :=
  notu 8 (fold_left Z.lxor (load_bytes m a (Z.to_nat size)) 0).

Definition wq_sig_of (m : mem) (ctrl : Z) : Z :=
  calc_sig m ctrl (Z.shiftl (Z.land (ld_be 4 m (ctrl + 4)) 0x3f) 4).

(** ** The queue pair *)

Record mlx5_wq := Wq {
  wrid : list Z; wqe_head : list Z; wqe_cnt : Z; max_post : Z; head : Z; tail : Z; cur_post : Z;
  max_gs : Z; qp_state_max_gs : Z; wqe_shift : Z; wq_offset : Z; qend : Z; wr_data : list Z }.

Record mlx5_bf := Bf { reg : Z; bf_offset : Z; bf_buf_size : Z; uuarn : Z }.

Record mlx5_qp := Qp {
  qp_type : Z; qp_num : Z; qp_state : Z; qp_buf : Z; max_inline_data : Z; bf : mlx5_bf;
  fm_cache : Z; sq_signal_bits : Z; sq_start : Z; sq : mlx5_wq; db : Z; rq : mlx5_wq;
  wq_sig : bool; qp_cap_cache : Z; atomics_enabled : bool; max_tso : Z; max_tso_header : Z;
  qp_flags : Z }.

(** What the send path reads of the device context. *)
Record mlx5_context := Ctx { eth_min_inline_size : Z; shut_up_bf : bool; prefer_bf : bool }.

Definition IBV_QPT_RC : Z := 2.
Definition IBV_QPT_UC : Z := 3.
Definition IBV_QPT_UD : Z := 4.
Definition IBV_QPT_RAW_PACKET : Z := 8.
Definition IBV_QPT_XRC_SEND : Z := 9.

Definition mlx5_get_send_wqe (qp : mlx5_qp) (n : Z) : Z :=
  sq_start qp + Z.shiftl n MLX5_SEND_WQE_SHIFT.

Definition mlx5_wq_overflow (wq : mlx5_wq) (nreq : Z) : bool :=
  let cur := u32 (head wq - tail wq) in
  if u32 (cur + nreq) <? max_post wq then false
  else let cur := u32 (head wq - tail wq) in max_post wq <=? u32 (cur + nreq).

(** [seg] moves to the start of the queue when it has reached its end. *)
Definition wrap_seg (qp : mlx5_qp) (seg : Z) : Z :=
  if seg =? qend (sq qp) then mlx5_get_send_wqe qp 0 else seg.

(** ** The variables [_mlx5_post_send] carries while it fills one WQE *)

Record wst := Wst {
  wm : mem; seg : Z; size : Z; sg_index : Z; sg_off : Z;
  next_fence : Z; wdata : Z; tso_left : Z; inl : bool }.

Definition with_mem (s : wst) (m : mem) : wst :=
  Wst m (seg s) (size s) (sg_index s) (sg_off s) (next_fence s) (wdata s) (tso_left s) (inl s).
Definition with_seg (s : wst) (m : mem) (sg sz : Z) : wst :=
  Wst m sg sz (sg_index s) (sg_off s) (next_fence s) (wdata s) (tso_left s) (inl s).
Definition with_copy_ptr (s : wst) (i off : Z) : wst :=
  Wst (wm s) (seg s) (size s) i off (next_fence s) (wdata s) (tso_left s) (inl s).
Definition with_fence (s : wst) (f : Z) : wst :=
  Wst (wm s) (seg s) (size s) (sg_index s) (sg_off s) f (wdata s) (tso_left s) (inl s).
Definition with_wdata (s : wst) (d : Z) : wst :=
  Wst (wm s) (seg s) (size s) (sg_index s) (sg_off s) (next_fence s) d (tso_left s) (inl s).
Definition with_tso (s : wst) (t : Z) : wst :=
  Wst (wm s) (seg s) (size s) (sg_index s) (sg_off s) (next_fence s) (wdata s) t (inl s).
Definition with_inl (s : wst) (b : bool) : wst :=
  Wst (wm s) (seg s) (size s) (sg_index s) (sg_off s) (next_fence s) (wdata s) (tso_left s) b.

(** ** Inline data *)

(** The copy loop of [set_data_inl_seg]: [wqe] is the write position, [total]
    the bytes so far. *)
Fixpoint inl_copy_loop (qp : mlx5_qp) (m : mem) (sges : list ibv_sge) (offset wqe total : Z)
  : option (Z * (mem * Z)) :=
  match sges with
  | [] => Some (0, (m, total))
  | sg :: sges' =>
    let addr := u64 (sg_addr sg + offset) in
    let len := i32 (sg_length sg - offset) in
    let total := i32 (total + len) in
    if max_inline_data qp <? total then Some (ENOMEM, (m, total))
    else if len <? 0 then None
    else if qend (sq qp) <? wqe + len then
      let copy := qend (sq qp) - wqe in
      let m := memcpy m wqe addr copy in
      let wqe := mlx5_get_send_wqe qp 0 in
      let m := memcpy m wqe (addr + copy) (len - copy) in
      inl_copy_loop qp m sges' 0 (wqe + (len - copy)) total
    else
      let m := memcpy m wqe addr len in
      inl_copy_loop qp m sges' 0 (wqe + len) total
  end.

(** The scatter entries [sg_list[i]] for [i] from [from] below [num_sge];
    reading past the list is undefined. *)
Definition sges_from (w : ibv_send_wr) (from : Z) : option (list ibv_sge) :=
  if num_sge w <=? from then Some []
  else if (0 <=? from) && (num_sge w <=? alen (sg_list w))
  then Some (take (Z.to_nat (num_sge w - from)) (drop (Z.to_nat from) (sg_list w)))
  else None.

Definition set_data_inl_seg (qp : mlx5_qp) (w : ibv_send_wr) (s : wst) : option (Z * wst) :=
  sges ← sges_from w (sg_index s);
  r ← inl_copy_loop qp (wm s) sges (sg_off s) (seg s + 4) 0;
  let '(e, (m, total)) := r in
  if negb (e =? 0) then Some (e, with_mem s m)
  else if negb (total =? 0) then
    let m := st_be 4 m (seg s) (Z.lor total MLX5_INLINE_SEG) in
    Some (0, with_seg s m (seg s) (size s + align (total + 4) 16 / 16))
  else Some (0, with_mem s m).

(** ** Ethernet segments *)

(** The loop of [copy_eth_inline_headers] that gathers the header from several
    entries; it returns the memory, what is missing, the last length and copy
    size, and the index reached. *)
Fixpoint eth_hdr_loop (m : mem) (eseg : Z) (elems : list (Z * Z)) (rest length copied j : Z)
  : mem * Z * Z * Z * Z :=
  match elems with
  | [] => (m, rest, length, copied, j)
  | (addr, len) :: elems' =>
    if 0 <? rest then
      let copied := Z.min len rest in
      let m := memcpy m (eseg + eth_inline_hdr_start + (MLX5_ETH_L2_INLINE_HEADER_SIZE - rest)) addr copied in
      eth_hdr_loop m eseg elems' (rest - copied) len copied (j + 1)
    else (m, rest, length, copied, j)
  end.

Definition copy_eth_inline_headers (ctx : mlx5_context) (m : mem) (elems : list (Z * Z)) (eseg : Z)
  : Z * (mem * Z * Z) :=
  let inl_hdr_size := eth_min_inline_size ctx in
  match elems with
  | [] => (EINVAL, (m, 0, 0))
  | (addr, length) :: _ =>
    let finish m length copied j :=
      let m := st_be 2 m (eseg + 12) inl_hdr_size in
      if length =? copied then (0, (m, j + 1, 0)) else (0, (m, j, copied)) in
    if MLX5_ETH_L2_INLINE_HEADER_SIZE <=? length then
      finish (memcpy m (eseg + eth_inline_hdr_start) addr inl_hdr_size) length inl_hdr_size 0
    else
      let '(m, rest, length, copied, j) := eth_hdr_loop m eseg elems inl_hdr_size length 0 0 in
      if negb (rest =? 0) then (EINVAL, (m, 0, 0))
      else finish m length copied (if negb (j =? 0) then j - 1 else j)
  end.

Definition set_tso_eth_seg (qp : mlx5_qp) (s : wst) (hdr hdr_sz mss : Z) : Z * wst :=
  let eseg := seg s in
  if (hdr_sz <? MLX5_ETH_L2_MIN_HEADER_SIZE) || (max_tso_header qp <? hdr_sz) then (EINVAL, s)
  else
    let rest := hdr_sz in
    let m := st_be 2 (wm s) (eseg + 6) mss in
    let m := st_be 2 m (eseg + 12) hdr_sz in
    let left_len := qend (sq qp) - (eseg + eth_inline_hdr_start) in
    let copy_sz := Z.min left_len rest in
    let m := memcpy m (eseg + eth_inline_hdr_start) hdr copy_sz in
    let sg := seg s + (align (copy_sz - 2) 16 - 16) in
    let sz := size s + (align (copy_sz - 2) 16 / 16 - 1) in
    if copy_sz <? rest then
      let sg := mlx5_get_send_wqe qp 0 in
      let rest := rest - copy_sz in
      let m := memcpy m sg (hdr + copy_sz) rest in
      (0, with_seg s m (sg + align rest 16) (sz + align rest 16 / 16))
    else (0, with_seg s m sg sz).

Definition mlx5_post_send_underlay (qp : mlx5_qp) (w : ibv_send_wr) (s : wst) : option (Z * wst) :=
  if opcode w =? IBV_WR_SEND_WITH_IMM then Some (EINVAL, s) else
  let m := memset (wm s) (seg s) 0 sizeof_eth_pad in
  let eseg := seg s + sizeof_eth_pad in
  let m := st_le 8 m eseg 0 in
  let m := st_le 4 m (eseg + 8) 0 in
  let csum := has (send_flags w) IBV_SEND_IP_CSUM in
  if csum && negb (has (qp_cap_cache qp) MLX5_CSUM_SUPPORT_UNDERLAY_UD) then Some (EINVAL, with_mem s m) else
  let m := if csum then st8 m (eseg + 4) (Z.lor (ld8 m (eseg + 4)) (Z.lor MLX5_ETH_WQE_L3_CSUM MLX5_ETH_WQE_L4_CSUM))
           else m in
  sg ← (sg_list w).[0];
  let long := MLX5_SOURCE_QPN_INLINE_MAX_HEADER_SIZE <=? sg_length sg in
  let copy := if long && has (send_flags w) IBV_SEND_INLINE
              then MLX5_SOURCE_QPN_INLINE_MAX_HEADER_SIZE else MLX5_IPOIB_INLINE_MIN_HEADER_SIZE in
  if negb long && (sg_length sg <? copy) then Some (EINVAL, with_mem s m) else
  let m := memcpy m (eseg + eth_inline_hdr_start) (sg_addr sg) copy in
  let m := st_be 2 m (eseg + 12) copy in
  let s' := with_seg s m (eseg + sizeof_eth) (size s + (sizeof_eth_pad + sizeof_eth) / 16) in
  Some (0, if sg_length sg =? copy then with_copy_ptr s' (sg_index s + 1) (sg_off s)
           else with_copy_ptr s' (sg_index s) copy).

(** ** Memory window binding *)

Definition IBV_MW_TYPE_1 : Z := 1.
Definition IBV_MW_TYPE_2 : Z := 2.
Definition UMR_FLAG_INLINE : Z := 128.
Definition UMR_FLAG_CHECK_FREE : Z := 32.
Definition UMR_FLAG_TRNSLATION_OFFSET : Z := 16.
Definition UMR_FLAG_CHECK_QPN : Z := 8.
Definition UMR_MASK_LEN : Z := 2 ^ 0.
Definition UMR_MASK_START_ADDR : Z := 2 ^ 6.
Definition UMR_MASK_MKEY : Z := 2 ^ 13.
Definition UMR_MASK_QPN : Z := 2 ^ 14.
Definition UMR_MASK_ACCESS_LOCAL_WRITE : Z := 2 ^ 18.
Definition UMR_MASK_ACCESS_REMOTE_READ : Z := 2 ^ 19.
Definition UMR_MASK_ACCESS_REMOTE_WRITE : Z := 2 ^ 20.
Definition UMR_MASK_ACCESS_ATOMIC : Z := 2 ^ 21.
Definition UMR_MASK_FREE : Z := 2 ^ 29.
Definition MKEY_CONTEXT_FREE : Z := 64.
Definition MKEY_ACCESS_ATOMIC : Z := 64.
Definition MKEY_ACCESS_REMOTE_WRITE : Z := 32.
Definition MKEY_ACCESS_REMOTE_READ : Z := 16.
Definition MKEY_ACCESS_LOCAL_WRITE : Z := 8.
Definition IBV_ACCESS_LOCAL_WRITE : Z := 1.
Definition IBV_ACCESS_REMOTE_WRITE : Z := 2.
Definition IBV_ACCESS_REMOTE_READ : Z := 4.
Definition IBV_ACCESS_REMOTE_ATOMIC : Z := 8.
Definition IBV_ACCESS_ZERO_BASED : Z := 32.

(** [ALIGN (x, log_a)] and [get_klm_octo]. *)
Definition ALIGN (x log_a : Z) : Z :=
  Z.land (x + Z.shiftl 1 log_a - 1) (Z.lnot (Z.shiftl 1 log_a - 1)).
Definition get_klm_octo (nentries : Z) : Z := ALIGN nentries 3 / 2.

(** [field |= htobe64 (x)], [flags |= x]. *)
Definition or_be (n : nat) (m : mem) (a x : Z) : mem := st_be n m a (Z.lor (ld_be n m a) x).
Definition or8 (m : mem) (a x : Z) : mem := st8 m a (Z.lor (ld8 m a) x).

Definition set_umr_data_seg (s : wst) (bi : ibv_mw_bind_info) : wst :=
  let data := seg s in
  let m := st_be 4 (wm s) data (bi_length bi) in
  let m := st_be 4 m (data + 4) (bi_mr_lkey bi) in
  let m := st_be 8 m (data + 8) (bi_addr bi) in
  let m := memset m (data + 16) 0 (64 - 16) in
  with_seg s m (seg s + 64) (size s + 64 / 16).

Definition set_umr_mkey_seg (s : wst) (type rkey : Z) (bi : ibv_mw_bind_info) (qpn : Z) : wst :=
  let mkey := seg s in
  let m := st_be 4 (wm s) (mkey + 4)
    (Z.lor (Z.land rkey 0xFF)
      (if (type =? IBV_MW_TYPE_1) || (bi_length bi =? 0) then 0xFFFFFF00 else shlu 32 qpn 8)) in
  let access m f g := if has (bi_access bi) f then or8 m (mkey + 2) g else m in
  let m :=
    if negb (bi_length bi =? 0) then
      let m := st8 m (mkey + 2) 0 in
      let m := st8 m mkey 0 in
      let m := access m IBV_ACCESS_LOCAL_WRITE MKEY_ACCESS_LOCAL_WRITE in
      let m := access m IBV_ACCESS_REMOTE_WRITE MKEY_ACCESS_REMOTE_WRITE in
      let m := access m IBV_ACCESS_REMOTE_READ MKEY_ACCESS_REMOTE_READ in
      let m := access m IBV_ACCESS_REMOTE_ATOMIC MKEY_ACCESS_ATOMIC in
      let m := if has (bi_access bi) IBV_ACCESS_ZERO_BASED then st_le 8 m (mkey + 16) 0
               else st_be 8 m (mkey + 16) (bi_addr bi) in
      st_be 8 m (mkey + 24) (bi_length bi)
    else st8 m mkey MKEY_CONTEXT_FREE in
  with_seg s m (seg s + sizeof_mkey_ctx) (size s + sizeof_mkey_ctx / 16).

Definition set_umr_control_seg (s : wst) (type : Z) (bi : ibv_mw_bind_info) : wst :=
  let ctrl := seg s in
  let m := st8 (wm s) ctrl (Z.lor UMR_FLAG_TRNSLATION_OFFSET UMR_FLAG_INLINE) in
  let m := st_be 8 m (ctrl + 8) (Z.lor UMR_MASK_FREE UMR_MASK_MKEY) in
  let m := st_le 2 m (ctrl + 6) 0 in
  let m := memset m (ctrl + 1) 0 3 in
  let m := memset m (ctrl + 16) 0 32 in
  let m := if type =? IBV_MW_TYPE_2 then or_be 8 m (ctrl + 8) UMR_MASK_QPN else m in
  let m :=
    if negb (bi_length bi =? 0) then
      let m := st_be 2 m (ctrl + 4) (get_klm_octo 1) in
      let m := if type =? IBV_MW_TYPE_2 then or8 m ctrl UMR_FLAG_CHECK_FREE else m in
      or_be 8 m (ctrl + 8)
        (Z.lor UMR_MASK_LEN (Z.lor UMR_MASK_START_ADDR (Z.lor UMR_MASK_ACCESS_LOCAL_WRITE
          (Z.lor UMR_MASK_ACCESS_REMOTE_READ (Z.lor UMR_MASK_ACCESS_REMOTE_WRITE UMR_MASK_ACCESS_ATOMIC)))))
    else
      let m := st_be 2 m (ctrl + 4) (get_klm_octo 0) in
      if type =? IBV_MW_TYPE_2 then or8 m ctrl UMR_FLAG_CHECK_QPN else m in
  with_seg s m (seg s + sizeof_umr_ctrl) (size s + sizeof_umr_ctrl / 16).

Definition wrap_wst (qp : mlx5_qp) (s : wst) : wst := with_seg s (wm s) (wrap_seg qp (seg s)) (size s).

Definition set_bind_wr (qp : mlx5_qp) (s : wst) (type rkey : Z) (bi : ibv_mw_bind_info) : Z * wst :=
  if 2 ^ 31 <? bi_length bi then (EOPNOTSUPP, s) else
  let s := wrap_wst qp (set_umr_control_seg s type bi) in
  let s := set_umr_mkey_seg s type rkey bi (qp_num qp) in
  if bi_length bi =? 0 then (0, s) else
  let s := wrap_wst qp s in
  (0, set_umr_data_seg s bi).
