(* ===== verification/PostSend.v ===== *)
(** providers/mlx5/qp.c: [_mlx5_post_send], which turns a list of work
    requests into WQEs in the send queue and rings the doorbell.

    One iteration of its loop is [post_one]: the checks, the control segment,
    the segments of the queue pair's type, the data segments, the completion
    of the control segment and of the software rings.  The variables that
    survive an iteration ([next_fence], [sg_copy_ptr], [max_tso], [inl],
    [size], [ctrl]) are threaded through the loop as in the code.  Device
    registers are write-only: their writes are the events [mmio]. *)

From S2P Require Import Prelude Util Mem Wqe.

Definition IBV_WC_BIND_MW : Z := 5.
Definition IBV_WC_LOCAL_INV : Z := 6.

(** ** Segments by transport *)

Definition add_raddr (s : wst) (remote_addr rkey : Z) : wst :=
  with_seg s (set_raddr_seg (wm s) (seg s) remote_addr rkey) (seg s + sizeof_raddr) (size s + sizeof_raddr / 16).

(** [IBV_WR_BIND_MW] and [IBV_WR_LOCAL_INV], common to RC and UC. *)
Definition bind_segs (qp : mlx5_qp) (w : ibv_send_wr) (ctrl : Z) (s : wst) : Z * wst :=
  if opcode w =? IBV_WR_BIND_MW then
    let s := with_fence s MLX5_WQE_CTRL_INITIATOR_SMALL_FENCE in
    let s := with_mem s (st_be 4 (wm s) (ctrl + 12) (mw_rkey w)) in
    let '(err, s) := set_bind_wr qp s (mw_type w) (bind_rkey w) (bind_info w) in
    if negb (err =? 0) then (err, s) else (0, with_wdata s IBV_WC_BIND_MW)
  else
    let s := with_fence s MLX5_WQE_CTRL_INITIATOR_SMALL_FENCE in
    let s := with_mem s (st_be 4 (wm s) (ctrl + 12) (imm w)) in
    let '(err, s) := set_bind_wr qp s IBV_MW_TYPE_2 0 (BindInfo 0 0 0 0) in
    if negb (err =? 0) then (err, s) else (0, with_wdata s IBV_WC_LOCAL_INV).

Definition rc_segs (qp : mlx5_qp) (w : ibv_send_wr) (ctrl : Z) (s : wst) : Z * wst :=
  if (opcode w =? IBV_WR_RDMA_READ) || (opcode w =? IBV_WR_RDMA_WRITE) ||
     (opcode w =? IBV_WR_RDMA_WRITE_WITH_IMM) then
    (0, add_raddr s (rdma_remote_addr w) (rdma_rkey w))
  else if (opcode w =? IBV_WR_ATOMIC_CMP_AND_SWP) || (opcode w =? IBV_WR_ATOMIC_FETCH_AND_ADD) then
    if negb (atomics_enabled qp) then (EOPNOTSUPP, s)
    else
      let m := set_raddr_seg (wm s) (seg s) (atomic_remote_addr w) (atomic_rkey w) in
      let sg := seg s + sizeof_raddr in
      let m := set_atomic_seg m sg (opcode w) (atomic_swap w) (atomic_compare_add w) in
      (0, with_seg s m (sg + sizeof_atomic) (size s + (sizeof_raddr + sizeof_atomic) / 16))
  else if (opcode w =? IBV_WR_BIND_MW) || (opcode w =? IBV_WR_LOCAL_INV) then bind_segs qp w ctrl s
  else (0, s).

Definition xrc_segs (qp : mlx5_qp) (w : ibv_send_wr) (ctrl : Z) (s : wst) : Z * wst :=
  let s := if negb (opcode w =? IBV_WR_BIND_MW) && negb (opcode w =? IBV_WR_LOCAL_INV)
           then with_seg s (st_be 4 (wm s) (seg s) (remote_srqn w)) (seg s + sizeof_xrc) (size s + sizeof_xrc / 16)
           else s in
  rc_segs qp w ctrl s.

Definition uc_segs (qp : mlx5_qp) (w : ibv_send_wr) (ctrl : Z) (s : wst) : Z * wst :=
  if (opcode w =? IBV_WR_RDMA_WRITE) || (opcode w =? IBV_WR_RDMA_WRITE_WITH_IMM) then
    (0, add_raddr s (rdma_remote_addr w) (rdma_rkey w))
  else if (opcode w =? IBV_WR_BIND_MW) || (opcode w =? IBV_WR_LOCAL_INV) then bind_segs qp w ctrl s
  else (0, s).

Definition ud_segs (qp : mlx5_qp) (w : ibv_send_wr) (s : wst) : option (Z * wst) :=
  let m := set_datagram_seg (wm s) (seg s) w in
  let s := wrap_wst qp (with_seg s m (seg s + sizeof_datagram) (size s + sizeof_datagram / 16)) in
  if has (qp_flags qp) MLX5_QP_FLAGS_USE_UNDERLAY then mlx5_post_send_underlay qp w s else Some (0, s).

Definition raw_segs (ctx : mlx5_context) (qp : mlx5_qp) (w : ibv_send_wr) (s : wst) : option (Z * wst) :=
  let s := with_mem s (memset (wm s) (seg s) 0 sizeof_eth) in
  let eseg := seg s in
  if has (send_flags w) IBV_SEND_IP_CSUM && negb (has (qp_cap_cache qp) MLX5_CSUM_SUPPORT_RAW_OVER_ETH)
  then Some (EINVAL, s) else
  let s := if has (send_flags w) IBV_SEND_IP_CSUM
           then with_mem s (or8 (wm s) (eseg + 4) (Z.lor MLX5_ETH_WQE_L3_CSUM MLX5_ETH_WQE_L4_CSUM)) else s in
  if opcode w =? IBV_WR_TSO then
    let s := with_tso s (max_tso qp) in
    let '(err, s) := set_tso_eth_seg qp s (tso_hdr w) (tso_hdr_sz w) (tso_mss w) in
    if negb (err =? 0) then Some (err, s)
    else Some (0, with_seg s (wm s) (seg s + sizeof_eth) (size s + sizeof_eth / 16))
  else
    sges ← sges_from w 0;
    let '(err, (m, i, off)) :=
      copy_eth_inline_headers ctx (wm s) (map (fun g => (sg_addr g, sg_length g)) sges) eseg in
    if negb (err =? 0) then Some (err, with_mem s m)
    else
      let inl_hdr_size := eth_min_inline_size ctx in
      Some (0, with_copy_ptr (with_seg s m (seg s + Z.land (eth_inline_hdr + inl_hdr_size) (notu 64 0xf))
                 (size s + Z.shiftr (eth_inline_hdr + inl_hdr_size) 4)) i off).

Definition transport_segs (ctx : mlx5_context) (qp : mlx5_qp) (w : ibv_send_wr) (ctrl : Z) (s : wst)
  : option (Z * wst) :=
  if qp_type qp =? IBV_QPT_XRC_SEND then Some (xrc_segs qp w ctrl s)
  else if qp_type qp =? IBV_QPT_RC then Some (rc_segs qp w ctrl s)
  else if qp_type qp =? IBV_QPT_UC then Some (uc_segs qp w ctrl s)
  else if qp_type qp =? IBV_QPT_UD then ud_segs qp w s
  else if qp_type qp =? IBV_QPT_RAW_PACKET then raw_segs ctx qp w s
  else Some (0, s).

(** ** Data segments *)

(** The gather loop; [seg] of the state is [dpseg]. *)
Fixpoint data_ptr_loop (qp : mlx5_qp) (w : ibv_send_wr) (sges : list ibv_sge) (s : wst) : Z * wst :=
  match sges with
  | [] => (0, s)
  | sg :: sges' =>
    let s := wrap_wst qp s in
    if sg_length sg =? 0 then data_ptr_loop qp w sges' s
    else if (opcode w =? IBV_WR_ATOMIC_CMP_AND_SWP) || (opcode w =? IBV_WR_ATOMIC_FETCH_AND_ADD) then
      let s := with_seg s (set_data_ptr_seg_atomic (wm s) (seg s) sg) (seg s + sizeof_data) (size s + sizeof_data / 16) in
      data_ptr_loop qp w sges' (with_copy_ptr s (sg_index s) 0)
    else if (opcode w =? IBV_WR_TSO) && (tso_left s <? sg_length sg) then (EINVAL, s)
    else
      let s := if opcode w =? IBV_WR_TSO then with_tso s (tso_left s - sg_length sg) else s in
      let s := with_seg s (set_data_ptr_seg (wm s) (seg s) sg (sg_off s)) (seg s + sizeof_data) (size s + sizeof_data / 16) in
      data_ptr_loop qp w sges' (with_copy_ptr s (sg_index s) 0)
  end.

Definition data_segs (qp : mlx5_qp) (w : ibv_send_wr) (s : wst) : option (Z * wst) :=
  if has (send_flags w) IBV_SEND_INLINE && negb (num_sge w =? 0) then
    let! s := set_data_inl_seg qp w s in
    Some (0, with_inl s true)
  else
    sges ← sges_from w (sg_index s);
    Some (data_ptr_loop qp w sges s).

(** ** One work request *)

Record lst := Lst { lq : mlx5_qp; lw : wst; lctrl : Z }.

Definition with_sq (qp : mlx5_qp) (q : mlx5_wq) : mlx5_qp :=
  Qp (qp_type qp) (qp_num qp) (qp_state qp) (qp_buf qp) (max_inline_data qp) (bf qp) (fm_cache qp)
    (sq_signal_bits qp) (sq_start qp) q (db qp) (rq qp) (wq_sig qp) (qp_cap_cache qp)
    (atomics_enabled qp) (max_tso qp) (max_tso_header qp) (qp_flags qp).

Definition with_wr_data (q : mlx5_wq) (d : list Z) : mlx5_wq :=
  Wq (wrid q) (wqe_head q) (wqe_cnt q) (max_post q) (head q) (tail q) (cur_post q)
    (max_gs q) (qp_state_max_gs q) (wqe_shift q) (wq_offset q) (qend q) d.

Definition with_post (q : mlx5_wq) (ids heads : list Z) (cur : Z) : mlx5_wq :=
  Wq ids heads (wqe_cnt q) (max_post q) (head q) (tail q) cur
    (max_gs q) (qp_state_max_gs q) (wqe_shift q) (wq_offset q) (qend q) (wr_data q).

Definition sq_idx (q : mlx5_wq) : Z := Z.land (cur_post q) (u32 (wqe_cnt q - 1)).

(** The checks at the head of the loop body. *)
Definition post_checks (q : mlx5_wq) (nreq : Z) (w : ibv_send_wr) : Z :=
  if (opcode w <? 0) || (alen mlx5_ib_opcode <=? opcode w) then EINVAL
  else if mlx5_wq_overflow q nreq then ENOMEM
  else if qp_state_max_gs q <? num_sge w then ENOMEM
  else 0.

(** The control segment as it is initialised. *)
Definition ctrl_init (qp : mlx5_qp) (w : ibv_send_wr) (m : mem) (ctrl fence : Z) : mem :=
  let m := st_le 4 m (ctrl + 8) 0 in
  let m := st_le 4 m (ctrl + 12) (send_ieth w) in
  st8 m (ctrl + 11)
    (Z.lor (Z.lor (Z.lor (sq_signal_bits qp) fence)
       (if has (send_flags w) IBV_SEND_SIGNALED then MLX5_WQE_CTRL_CQ_UPDATE else 0))
       (if has (send_flags w) IBV_SEND_SOLICITED then MLX5_WQE_CTRL_SOLICITED else 0)).

(** The end of the loop body: opcode, size and signature of the control
    segment, and the software rings. *)
Definition ctrl_finish (qp : mlx5_qp) (w : ibv_send_wr) (m : mem) (ctrl sz : Z) : option mem :=
  op ← mlx5_ib_opcode.[opcode w];
  let m := st_be 4 m ctrl (Z.lor (Z.shiftl (Z.land (cur_post (sq qp)) 0xffff) 8) op) in
  let m := st_be 4 m (ctrl + 4) (Z.lor sz (shlu 32 (qp_num qp) 8)) in
  Some (if wq_sig qp then st8 m (ctrl + 8) (wq_sig_of m ctrl) else m).

Definition rings_finish (q : mlx5_wq) (nreq id idx sz : Z) : option mlx5_wq :=
  ids ← aset (wrid q) idx id;
  heads ← aset (wqe_head q) idx (u32 (head q + nreq));
  Some (with_post q ids heads (u32 (cur_post q + DIV_ROUND_UP (sz * 16) MLX5_SEND_WQE_BB))).

Definition post_one (ctx : mlx5_context) (nreq : Z) (w : ibv_send_wr) (l : lst) : option (Z * lst) :=
  let qp := lq l in
  let s := lw l in
  let err := post_checks (sq qp) nreq w in
  if negb (err =? 0) then Some (err, l) else
  let fence := if has (send_flags w) IBV_SEND_FENCE then MLX5_WQE_CTRL_FENCE else next_fence s in
  let s := with_fence s 0 in
  let idx := sq_idx (sq qp) in
  let ctrl := mlx5_get_send_wqe qp idx in
  let m := ctrl_init qp w (wm s) ctrl fence in
  let s := with_wdata (with_seg s m (ctrl + sizeof_ctrl) (sizeof_ctrl / 16)) 0 in
  r ← transport_segs ctx qp w ctrl s;
  let '(err, s) := r in
  data ← aset (wr_data (sq qp)) idx (wdata s);
  let qp := with_sq qp (with_wr_data (sq qp) data) in
  if negb (err =? 0) then Some (err, Lst qp s ctrl) else
  r ← data_segs qp w s;
  let '(err, s) := r in
  if negb (err =? 0) then Some (err, Lst qp s ctrl) else
  m ← ctrl_finish qp w (wm s) ctrl (size s);
  q ← rings_finish (sq qp) nreq (wr_id w) idx (size s);
  Some (0, Lst (with_sq qp q) (with_mem s m) ctrl).

(** The loop over the list: the error, the number of requests posted and the
    rest of the list, whose head is [*bad_wr] on error. *)
Fixpoint post_loop (ctx : mlx5_context) (nreq : Z) (wrs : list ibv_send_wr) (l : lst)
  : option (Z * Z * list ibv_send_wr * lst) :=
  match wrs with
  | [] => Some (0, nreq, [], l)
  | w :: wrs' =>
    r ← post_one ctx nreq w l;
    let '(err, l) := r in
    if negb (err =? 0) then Some (err, nreq, wrs, l) else post_loop ctx (nreq + 1) wrs' l
  end.

(** ** The doorbell *)

Inductive mmio_event := MmioWrite (addr : Z) (bytes : list Z).

(** [mlx5_bf_copy]: 64 bytes at a time, the source wrapping at the queue's end. *)
Fixpoint mlx5_bf_copy (fuel : nat) (qp : mlx5_qp) (m : mem) (dst src bytecnt : Z) : list mmio_event :=
  match fuel with
  | O => []
  | S fuel' =>
    let ev := MmioWrite dst (load_bytes m src 64) in
    let src := if src + 64 =? qend (sq qp) then sq_start qp else src + 64 in
    if 0 <? bytecnt - 64 then ev :: mlx5_bf_copy fuel' qp m (dst + 64) src (bytecnt - 64) else [ev]
  end.

Definition with_head (q : mlx5_wq) (h : Z) : mlx5_wq :=
  Wq (wrid q) (wqe_head q) (wqe_cnt q) (max_post q) h (tail q) (cur_post q)
    (max_gs q) (qp_state_max_gs q) (wqe_shift q) (wq_offset q) (qend q) (wr_data q).

Definition with_bf (qp : mlx5_qp) (b : mlx5_bf) : mlx5_qp :=
  Qp (qp_type qp) (qp_num qp) (qp_state qp) (qp_buf qp) (max_inline_data qp) b (fm_cache qp)
    (sq_signal_bits qp) (sq_start qp) (sq qp) (db qp) (rq qp) (wq_sig qp) (qp_cap_cache qp)
    (atomics_enabled qp) (max_tso qp) (max_tso_header qp) (qp_flags qp).

Definition with_fm_cache (qp : mlx5_qp) (f : Z) : mlx5_qp :=
  Qp (qp_type qp) (qp_num qp) (qp_state qp) (qp_buf qp) (max_inline_data qp) (bf qp) f
    (sq_signal_bits qp) (sq_start qp) (sq qp) (db qp) (rq qp) (wq_sig qp) (qp_cap_cache qp)
    (atomics_enabled qp) (max_tso qp) (max_tso_header qp) (qp_flags qp).

Definition post_send_db (ctx : mlx5_context) (qp : mlx5_qp) (m : mem) (nreq : Z) (inl : bool) (sz ctrl : Z)
  : mlx5_qp * mem * list mmio_event :=
  if nreq =? 0 then (qp, m, []) else
  let qp := with_sq qp (with_head (sq qp) (u32 (head (sq qp) + nreq))) in
  let m := st_be 4 m (db qp + 4) (Z.land (cur_post (sq qp)) 0xffff) in
  let b := bf qp in
  let ev :=
    if negb (shut_up_bf ctx) && (nreq =? 1) && negb (uuarn b =? 0) && (inl || prefer_bf ctx) &&
       (1 <? sz) && (sz <=? bf_buf_size b / 16)
    then mlx5_bf_copy (Z.to_nat (align (sz * 16) 64 / 64)) qp m (reg b + bf_offset b) ctrl (align (sz * 16) 64)
    else [MmioWrite (reg b + bf_offset b) (load_bytes m ctrl 8)] in
  (with_bf qp (Bf (reg b) (Z.lxor (bf_offset b) (bf_buf_size b)) (bf_buf_size b) (uuarn b)), m, ev).

(** ** [_mlx5_post_send] *)

Record send_result := SendResult {
  sr_err : Z; sr_bad : list ibv_send_wr; sr_qp : mlx5_qp; sr_mem : mem; sr_mmio : list mmio_event }.

Definition _mlx5_post_send (ctx : mlx5_context) (qp : mlx5_qp) (m : mem) (wrs : list ibv_send_wr)
  : option send_result :=
  let s := Wst m 0 0 0 0 (fm_cache qp) 0 0 false in
  r ← post_loop ctx 0 wrs (Lst qp s 0);
  let '(err, nreq, bad, l) := r in
  let qp := with_fm_cache (lq l) (next_fence (lw l)) in
  let '(qp, m, ev) := post_send_db ctx qp (wm (lw l)) nreq (inl (lw l)) (size (lw l)) (lctrl l) in
  Some (SendResult err (if err =? 0 then [] else bad) qp m ev).
