(* ===== verification/PostSendSpec.v ===== *)
(** The contract of [_mlx5_post_send] on reliable connections.

    The send queue is a ring of 64-byte slots.  [encodes] states, in terms of
    the bytes the device reads, that a request is in the ring at a position;
    the theorems show that posting a chain of requests leaves each of them
    encoded at its position, in order, with the doorbell record at the end of
    the chain, that failures post the requests before the bad one and what the
    bad one leaves, and that the queue is never overcommitted. *)

From S2P Require Import Prelude Util Mem Wqe PostSend.

(** ** Ring addresses *)

(** The address of the byte offset [o] of the ring. *)
Definition ring (qp : mlx5_qp) (o : Z) : Z := sq_start qp + o mod (64 * wqe_cnt (sq qp)).

(** A send queue as [mlx5_alloc_qp_buf] and [mlx5_init_qp_indices] leave it. *)
Record sq_ok (qp : mlx5_qp) : Prop := {
  sq_pow2 : exists k, 0 <= k <= 16 /\ wqe_cnt (sq qp) = 2 ^ k;
  sq_qend : qend (sq qp) = sq_start qp + 64 * wqe_cnt (sq qp);
  sq_wrid : alen (wrid (sq qp)) = wqe_cnt (sq qp);
  sq_heads : alen (wqe_head (sq qp)) = wqe_cnt (sq qp);
  sq_data : alen (wr_data (sq qp)) = wqe_cnt (sq qp);
  sq_cur : in_width 32 (cur_post (sq qp)) }.

(** [a] is in none of the [n] 16-byte units from offset [o] on. *)
Definition outside (qp : mlx5_qp) (o n a : Z) : Prop :=
  forall j, 0 <= j < n -> ~ (ring qp (o + 16 * j) <= a < ring qp (o + 16 * j) + 16).

(** ** Encoded requests *)

Definition is_rdma (w : ibv_send_wr) : bool :=
  (opcode w =? IBV_WR_RDMA_READ) || (opcode w =? IBV_WR_RDMA_WRITE) || (opcode w =? IBV_WR_RDMA_WRITE_WITH_IMM).
Definition is_atomic (w : ibv_send_wr) : bool :=
  (opcode w =? IBV_WR_ATOMIC_CMP_AND_SWP) || (opcode w =? IBV_WR_ATOMIC_FETCH_AND_ADD).
Definition is_send (w : ibv_send_wr) : bool :=
  (opcode w =? IBV_WR_SEND) || (opcode w =? IBV_WR_SEND_WITH_IMM) || (opcode w =? IBV_WR_SEND_WITH_INV).

(** The number of 16-byte units before the data segments. *)
Definition hdr_units (w : ibv_send_wr) : Z := if is_rdma w then 2 else if is_atomic w then 3 else 1.

Definition nonempty (g : ibv_sge) : bool := negb (sg_length g =? 0).
Definition gather (w : ibv_send_wr) : list ibv_sge :=
  List.filter nonempty (take (Z.to_nat (num_sge w)) (sg_list w)).
Definition units (w : ibv_send_wr) : Z := hdr_units w + alen (gather w).
Definition slots (w : ibv_send_wr) : Z := (units w + 3) / 4.

Definition sge_ok (g : ibv_sge) : Prop :=
  in_width 64 (sg_addr g) /\ in_width 32 (sg_length g) /\ in_width 32 (sg_lkey g).

(** A request of the data path of a reliable connection: its fields are of
    their C types, and it is not inline. *)
Record rc_request (qp : mlx5_qp) (w : ibv_send_wr) : Prop := {
  rq_op : is_rdma w || is_atomic w || is_send w = true;
  rq_atomic : is_atomic w = true -> atomics_enabled qp = true;
  rq_inline : has (send_flags w) IBV_SEND_INLINE = false;
  rq_sges : 0 <= num_sge w <= alen (sg_list w);
  rq_gs : num_sge w <= qp_state_max_gs (sq qp);
  rq_sge_ok : Forall sge_ok (sg_list w);
  rq_imm : in_width 32 (imm w);
  rq_addr : in_width 64 (w0 w) /\ in_width 64 (w1 w) /\ in_width 64 (w2 w);
  rq_fits : units w <= 63 /\ units w <= 4 * wqe_cnt (sq qp) }.

(** What the device reads of a data segment. *)
Definition data_at (w : ibv_send_wr) (m : mem) (a : Z) (g : ibv_sge) : Prop :=
  ld_be 4 m a = (if is_atomic w then MLX5_ATOMIC_SIZE else sg_length g) /\
  ld_be 4 m (a + 4) = sg_lkey g /\ ld_be 8 m (a + 8) = sg_addr g.

Definition flag (w : ibv_send_wr) (f v : Z) : Z := if has (send_flags w) f then v else 0.

(** The device's view of request [w] posted at slot [p]. *)
Record encodes (qp : mlx5_qp) (m : mem) (p : Z) (w : ibv_send_wr) (fence : Z) : Prop := {
  en_op : exists op, mlx5_ib_opcode.[opcode w] = Some op /\
          ld_be 4 m (ring qp (64 * p)) = (p mod 2 ^ 16) * 2 ^ 8 + op;
  en_ds : ld_be 4 m (ring qp (64 * p) + 4) = units w + (qp_num qp mod 2 ^ 24) * 2 ^ 8;
  en_flags : ld8 m (ring qp (64 * p) + 11) =
    u8 (Z.lor (Z.lor (Z.lor (sq_signal_bits qp) fence) (flag w IBV_SEND_SIGNALED MLX5_WQE_CTRL_CQ_UPDATE))
       (flag w IBV_SEND_SOLICITED MLX5_WQE_CTRL_SOLICITED));
  en_imm : ld_le 4 m (ring qp (64 * p) + 12) = send_ieth w;
  en_raddr : is_rdma w || is_atomic w = true ->
    ld_be 8 m (ring qp (64 * p + 16)) = w0 w /\
    ld_be 4 m (ring qp (64 * p + 16) + 8) = (if is_rdma w then rdma_rkey w else atomic_rkey w);
  en_atomic : is_atomic w = true ->
    if opcode w =? IBV_WR_ATOMIC_CMP_AND_SWP
    then ld_be 8 m (ring qp (64 * p + 32)) = atomic_swap w /\
         ld_be 8 m (ring qp (64 * p + 32) + 8) = atomic_compare_add w
    else ld_be 8 m (ring qp (64 * p + 32)) = atomic_compare_add w;
  en_data : forall j g, gather w !! j = Some g ->
    data_at w m (ring qp (64 * p + 16 * (hdr_units w + Z.of_nat j))) g }.

(** A chain encoded one request behind the other from slot [p]; [fence] is the
    fence carried over from the previous post. *)
Fixpoint chain_encoded (qp : mlx5_qp) (m : mem) (p fence : Z) (wrs : list ibv_send_wr) : Prop :=
  match wrs with
  | [] => True
  | w :: wrs' =>
    encodes qp m p w (if has (send_flags w) IBV_SEND_FENCE then MLX5_WQE_CTRL_FENCE else fence) /\
    chain_encoded qp m (p + slots w) 0 wrs'
  end.

Fixpoint total_slots (wrs : list ibv_send_wr) : Z :=
  match wrs with [] => 0 | w :: wrs' => slots w + total_slots wrs' end.

(** The software rings: the slot a request starts in has its id, its number
    among all requests, and no opcode of the driver's own. *)
Fixpoint chain_recorded (q : mlx5_wq) (p h : Z) (wrs : list ibv_send_wr) : Prop :=
  match wrs with
  | [] => True
  | w :: wrs' =>
    ((wrid q).[p mod wqe_cnt q] = Some (wr_id w) /\ (wqe_head q).[p mod wqe_cnt q] = Some (u32 h) /\
     (wr_data q).[p mod wqe_cnt q] = Some 0) /\
    chain_recorded q (p + slots w) (h + 1) wrs'
  end.

(** [qp'] is [qp] with other contents of the software rings. *)
Definition same_cfg (qp qp' : mlx5_qp) : Prop :=
  exists data ids heads cur, qp' = with_sq qp (with_post (with_wr_data (sq qp) data) ids heads cur).

(** The requests that are posted and not completed. *)
Definition outstanding (qp : mlx5_qp) : Z := u32 (head (sq qp) - tail (sq qp)).

(** The room a chain needs, and a doorbell record that is not in the ring. *)
Record chain_fits (qp : mlx5_qp) (wrs : list ibv_send_wr) : Prop := {
  cf_sq : sq_ok qp;
  cf_rc : qp_type qp = IBV_QPT_RC;
  cf_reqs : Forall (rc_request qp) wrs;
  cf_max : in_width 32 (max_post (sq qp));
  cf_post : outstanding qp + alen wrs <= max_post (sq qp);
  cf_slots : total_slots wrs <= wqe_cnt (sq qp);
  cf_db : db qp + 8 <= sq_start qp \/ qend (sq qp) <= db qp }.

(** Sample queue pairs, used by the witnesses: a ring of four slots, the next
    slot being the last one, and a work request of each kind. *)
Definition sample_qp (type cur flags : Z) (atomics : bool) : mlx5_qp :=
  Qp type 7 3 0x1000 0 (Bf 0x8000 0 256 1) 0 0 0x1000
    (Wq [0;0;0;0] [0;0;0;0] 4 4 0 0 cur 4 4 6 0 0x1100 [0;0;0;0]) 0x2000
    (Wq [] [] 0 0 0 0 0 0 0 0 0 0 []) false 0 atomics 0 0 flags.
Definition sample_ctx : mlx5_context := Ctx 18 false true.
Definition sample_wr (op : Z) (sges : list ibv_sge) : ibv_send_wr :=
  SendWr 77 sges (alen sges) op IBV_SEND_SIGNALED 0 0xa000 5 6 9 0 0 0 0 (BindInfo 0 0 0 0) 0 0 0.
Definition sample_chain : list ibv_send_wr :=
  [ sample_wr IBV_WR_ATOMIC_CMP_AND_SWP [Sge 0x3000 8 1; Sge 0x3008 8 1];
    sample_wr IBV_WR_RDMA_WRITE [Sge 0x4000 100 2] ].

(** ** The ring *)

Section Ring.
Context (qp : mlx5_qp) (Hok : sq_ok qp).

Lemma cnt_pos : 0 < wqe_cnt (sq qp).
Proof. destruct (sq_pow2 _ Hok) as (k & ? & ->). lia. Qed.

Lemma ring_range o : sq_start qp <= ring qp o < sq_start qp + 64 * wqe_cnt (sq qp).
Proof. pose proof cnt_pos. unfold ring. pose proof (Z.mod_pos_bound o (64 * wqe_cnt (sq qp))). lia. Qed.

Lemma ring_unit o : (16 | o) -> exists q, ring qp o = sq_start qp + 16 * q /\ 0 <= q < 4 * wqe_cnt (sq qp).
Proof.
  intros [t ->]. pose proof cnt_pos. exists (t mod (4 * wqe_cnt (sq qp))). unfold ring. split.
  - replace (64 * wqe_cnt (sq qp)) with (4 * wqe_cnt (sq qp) * 16) by lia.
    rewrite Zmult_mod_distr_r. lia.
  - apply Z.mod_pos_bound. lia.
Qed.

(** Stepping one unit and wrapping at the end is the next ring address. *)
Lemma wrap_next o : (16 | o) -> wrap_seg qp (ring qp o + 16) = ring qp (o + 16).
Proof.
  intros [t ->]. pose proof cnt_pos as Hc. unfold wrap_seg, mlx5_get_send_wqe, ring.
  rewrite (sq_qend _ Hok). set (c := wqe_cnt (sq qp)) in *.
  replace (64 * c) with (4 * c * 16) by lia.
  replace (t * 16 + 16) with ((t + 1) * 16) by lia. rewrite !Zmult_mod_distr_r.
  pose proof (Z.mod_pos_bound t (4 * c)). pose proof (Z.div_mod t (4 * c)).
  zcase.
  - replace ((t + 1) mod (4 * c)) with 0; [rewrite Z.shiftl_0_l; lia|].
    apply Z.mod_unique with (t / (4 * c) + 1); lia.
  - replace ((t + 1) mod (4 * c)) with (t mod (4 * c) + 1); [lia|].
    apply Z.mod_unique with (t / (4 * c)); lia.
Qed.

Lemma wrap_ring o : wrap_seg qp (ring qp o) = ring qp o.
Proof. pose proof (ring_range o). unfold wrap_seg. rewrite (sq_qend _ Hok). zcase; lia. Qed.

(** Within a slot, ring addresses are consecutive. *)
Lemma ring_slot p x : 0 <= x < 64 -> ring qp (64 * p + x) = ring qp (64 * p) + x.
Proof.
  intros Hx. pose proof cnt_pos as Hc. unfold ring. set (c := wqe_cnt (sq qp)) in *.
  rewrite Zmult_mod_distr_l. pose proof (Z.mod_pos_bound p c). pose proof (Z.div_mod p c).
  replace ((64 * p + x) mod (64 * c)) with (64 * (p mod c) + x); [lia|].
  apply Z.mod_unique with (p / c); lia.
Qed.

(** Different units of one lap do not share a byte. *)
Lemma ring_disjoint o i j a :
  (16 | o) -> i <> j -> - (4 * wqe_cnt (sq qp)) < i - j < 4 * wqe_cnt (sq qp) ->
  ring qp (o + 16 * i) <= a < ring qp (o + 16 * i) + 16 ->
  ~ (ring qp (o + 16 * j) <= a < ring qp (o + 16 * j) + 16).
Proof.
  intros [t ->] Hij Hlt Hi Hj. pose proof cnt_pos as Hc. unfold ring in *.
  set (c := wqe_cnt (sq qp)) in *.
  replace (64 * c) with (4 * c * 16) in * by lia.
  replace (t * 16 + 16 * i) with ((t + i) * 16) in * by lia.
  replace (t * 16 + 16 * j) with ((t + j) * 16) in * by lia.
  rewrite !Zmult_mod_distr_r in *.
  assert ((t + i) mod (4 * c) = (t + j) mod (4 * c)) as He by lia.
  pose proof (Z.div_mod (t + i) (4 * c)). pose proof (Z.div_mod (t + j) (4 * c)).
  assert (i - j = 4 * c * ((t + i) / (4 * c) - (t + j) / (4 * c))) as Hd by lia.
  set (d := (t + i) / (4 * c) - (t + j) / (4 * c)) in *. clearbody d c.
  clear - Hd Hij Hlt Hc. destruct (Z.eq_dec d 0) as [->|Hz]; [rewrite Z.mul_0_r in Hd|]; nia.
Qed.

Lemma sq_idx_mod : sq_idx (sq qp) = cur_post (sq qp) mod wqe_cnt (sq qp).
Proof.
  destruct (sq_pow2 _ Hok) as (k & Hk & Hc). unfold sq_idx. rewrite Hc, wrapu_small.
  - rewrite <- Z.land_ones by lia. f_equal. rewrite Z.ones_equiv. lia.
  - pose proof (Z.pow_le_mono_r 2 k 16 ltac:(lia) ltac:(lia)). pose proof (Z.pow_pos_nonneg 2 k). lia.
Qed.

Lemma sq_idx_range : 0 <= sq_idx (sq qp) < wqe_cnt (sq qp).
Proof. rewrite sq_idx_mod. apply Z.mod_pos_bound, cnt_pos. Qed.

Lemma get_send_wqe_ring : mlx5_get_send_wqe qp (sq_idx (sq qp)) = ring qp (64 * cur_post (sq qp)).
Proof.
  rewrite sq_idx_mod. unfold mlx5_get_send_wqe, MLX5_SEND_WQE_SHIFT, ring.
  rewrite Z.shiftl_mul_pow2, Zmult_mod_distr_l by lia. lia.
Qed.

(** The 32-bit counter wraps with the ring. *)
Lemma ring_u32 p x : ring qp (64 * u32 p + x) = ring qp (64 * p + x).
Proof.
  destruct (sq_pow2 _ Hok) as (k & Hk & Hc). unfold ring. f_equal. rewrite Hc. unfold wrapu.
  pose proof (Z.div_mod p (2 ^ 32) ltac:(lia)) as Hp.
  replace (64 * p + x) with (64 * (p mod 2 ^ 32) + x + (2 ^ (32 - k) * (p / 2 ^ 32)) * (64 * 2 ^ k)).
  - symmetry. apply Z.mod_add. lia.
  - assert (2 ^ 32 = 2 ^ (32 - k) * 2 ^ k) as E by (rewrite <- Z.pow_add_r by lia; f_equal; lia).
    rewrite E in Hp at 1. lia.
Qed.
End Ring.

(** ** The gather loop *)

Lemma data_at_ext w m m' a g :
  (forall b, a <= b < a + 16 -> ld8 m' b = ld8 m b) -> data_at w m a g -> data_at w m' a g.
Proof.
  intros H (H1 & H2 & H3). split_and!; [rewrite <- H1|rewrite <- H2|rewrite <- H3];
    apply ld_be_ext; intros b Hb; apply H; lia.
Qed.

Lemma data_seg_written w m a g :
  sge_ok g ->
  data_at w (if is_atomic w then set_data_ptr_seg_atomic m a g else set_data_ptr_seg m a g 0) a g.
Proof.
  intros (Ha & Hl & Hk). unfold in_width in *. unfold data_at, MLX5_ATOMIC_SIZE.
  destruct (is_atomic w); unfold set_data_ptr_seg, set_data_ptr_seg_atomic; rewrite ?Z.sub_0_r, ?Z.add_0_r;
    split_and!; mem_load; apply Z.mod_small; simpl; lia.
Qed.

Lemma data_seg_frame w m a g b :
  b < a \/ a + 16 <= b ->
  ld8 (if is_atomic w then set_data_ptr_seg_atomic m a g else set_data_ptr_seg m a g 0) b = ld8 m b.
Proof.
  intros Hb. destruct (is_atomic w); unfold set_data_ptr_seg, set_data_ptr_seg_atomic; by mem_load.
Qed.

(** One turn of the loop on a non-empty entry. *)
Lemma data_ptr_loop_cons qp w g sges s :
  opcode w <> IBV_WR_TSO -> sg_off s = 0 ->
  data_ptr_loop qp w (g :: sges) s =
  if nonempty g then
    let a := wrap_seg qp (seg s) in
    data_ptr_loop qp w sges
      (with_seg s (if is_atomic w then set_data_ptr_seg_atomic (wm s) a g else set_data_ptr_seg (wm s) a g 0)
         (a + 16) (size s + 1))
  else data_ptr_loop qp w sges (wrap_wst qp s).
Proof.
  intros Ht Ho. unfold nonempty. cbn [data_ptr_loop]. destruct (sg_length g =? 0); [done|]. cbn [negb].
  change ((opcode w =? IBV_WR_ATOMIC_CMP_AND_SWP) || (opcode w =? IBV_WR_ATOMIC_FETCH_AND_ADD)) with (is_atomic w).
  rewrite (proj2 (Z.eqb_neq _ _) Ht). cbn [andb].
  unfold wrap_wst, with_seg, with_copy_ptr, sizeof_data. cbn. rewrite Ho. by destruct (is_atomic w).
Qed.

Lemma data_ptr_loop_spec qp w sges : forall s o,
  sq_ok qp -> (16 | o) -> wrap_seg qp (seg s) = ring qp o -> opcode w <> IBV_WR_TSO -> sg_off s = 0 ->
  Forall sge_ok sges -> alen (List.filter nonempty sges) <= 4 * wqe_cnt (sq qp) ->
  exists m sg,
    data_ptr_loop qp w sges s = (0, with_seg s m sg (size s + alen (List.filter nonempty sges))) /\
    (forall j g, List.filter nonempty sges !! j = Some g -> data_at w m (ring qp (o + 16 * Z.of_nat j)) g) /\
    (forall a, outside qp o (alen (List.filter nonempty sges)) a -> ld8 m a = ld8 (wm s) a).
Proof.
  induction sges as [|g sges IH]; intros s o Hok Hd Hs Ht Ho Hg Hn.
  { exists (wm s), (seg s). split_and!; [|by intros j g ?|done].
    simpl. rewrite Z.add_0_r. by destruct s. }
  inv Hg. rewrite data_ptr_loop_cons by done. simpl List.filter in *. destruct (nonempty g).
  2: { destruct (IH (wrap_wst qp s) o) as (m & sg & E & D & F); try done.
       { simpl. rewrite Hs. by apply wrap_ring. }
       exists m, sg. split_and!; try done. }
  rewrite Hs. cbv zeta. set (m1 := if is_atomic w then _ else _).
  assert (alen (g :: List.filter nonempty sges) = alen (List.filter nonempty sges) + 1) as Hl
    by (unfold alen; cbn [length]; lia).
  rewrite Hl in *. set (n := alen (List.filter nonempty sges)) in *.
  assert (Hn0 : 0 <= n) by apply alen_nonneg.
  destruct (IH (with_seg s m1 (ring qp o + 16) (size s + 1)) (o + 16)) as (m & sg & E & D & F); try done.
  { by apply Z.divide_add_r; [|exists 1]. }
  { cbn [seg with_seg]. by apply wrap_next. }
  { lia. }
  exists m, sg. rewrite E. split_and!.
  - unfold with_seg. cbn. do 2 f_equal. lia.
  - intros [|j] g' Hj.
    + simpl in Hj. inv Hj. rewrite Z.mul_0_r, Z.add_0_r.
      apply data_at_ext with m1; [|by apply data_seg_written]. intros b Hb.
      rewrite F; [done|]. intros i Hi. replace (o + 16 + 16 * i) with (o + 16 * (i + 1)) by lia.
      apply (ring_disjoint qp Hok o 0); try done; try lia. by rewrite Z.mul_0_r, Z.add_0_r.
    + simpl in Hj. specialize (D _ _ Hj). by replace (o + 16 * Z.of_nat (S j)) with (o + 16 + 16 * Z.of_nat j) by lia.
  - intros a Ha. rewrite F.
    + unfold m1. cbn [wm with_seg]. apply data_seg_frame. specialize (Ha 0). rewrite Z.mul_0_r, Z.add_0_r in Ha. lia.
    + intros i Hi. replace (o + 16 + 16 * i) with (o + 16 * (i + 1)) by lia. apply Ha. lia.
Qed.

(** ** The header of a request *)

Section Request.
Context (qp : mlx5_qp) (w : ibv_send_wr) (Hw : rc_request qp w).

Lemma rdma_not_atomic : is_rdma w = true -> is_atomic w = false.
Proof.
  unfold is_rdma, is_atomic, IBV_WR_RDMA_READ, IBV_WR_RDMA_WRITE, IBV_WR_RDMA_WRITE_WITH_IMM,
    IBV_WR_ATOMIC_CMP_AND_SWP, IBV_WR_ATOMIC_FETCH_AND_ADD. lia.
Qed.

Lemma rc_opcode : (0 <= opcode w <= 6 \/ opcode w = 9) /\ opcode w <> IBV_WR_TSO.
Proof.
  pose proof (rq_op _ _ Hw) as H. revert H. unfold is_rdma, is_atomic, is_send, IBV_WR_TSO, IBV_WR_RDMA_READ,
    IBV_WR_RDMA_WRITE, IBV_WR_RDMA_WRITE_WITH_IMM, IBV_WR_ATOMIC_CMP_AND_SWP, IBV_WR_ATOMIC_FETCH_AND_ADD,
    IBV_WR_SEND, IBV_WR_SEND_WITH_IMM, IBV_WR_SEND_WITH_INV. lia.
Qed.

Lemma hdr_units_range : 1 <= hdr_units w <= 3.
Proof. unfold hdr_units. destruct (is_rdma w), (is_atomic w); lia. Qed.

(** The opcode table is defined on the request's opcode. *)
Lemma rc_table : exists op, mlx5_ib_opcode.[opcode w] = Some op /\ 0 <= op < 2 ^ 8.
Proof.
  destruct rc_opcode as [H _].
  assert (opcode w = 0 \/ opcode w = 1 \/ opcode w = 2 \/ opcode w = 3 \/ opcode w = 4 \/ opcode w = 5 \/
          opcode w = 6 \/ opcode w = 9) as Hc by lia.
  repeat (destruct Hc as [Hc|Hc]); rewrite Hc; (eexists; split; [vm_compute; reflexivity|lia]).
Qed.

Definition hdr_at (m : mem) (c : Z) : Prop :=
  (is_rdma w || is_atomic w = true ->
    ld_be 8 m (c + 16) = w0 w /\
    ld_be 4 m (c + 16 + 8) = (if is_rdma w then rdma_rkey w else atomic_rkey w)) /\
  (is_atomic w = true ->
    if opcode w =? IBV_WR_ATOMIC_CMP_AND_SWP
    then ld_be 8 m (c + 32) = atomic_swap w /\ ld_be 8 m (c + 32 + 8) = atomic_compare_add w
    else ld_be 8 m (c + 32) = atomic_compare_add w).

Lemma hdr_at_ext m m' c :
  (forall b, c + 16 <= b < c + 16 * hdr_units w -> ld8 m' b = ld8 m b) -> hdr_at m c -> hdr_at m' c.
Proof.
  unfold hdr_at, hdr_units. intros H [H1 H2].
  destruct (is_rdma w) eqn:Er; [rewrite (rdma_not_atomic Er) in *|destruct (is_atomic w)];
    split; intros Hx; try done.
  - destruct (H1 Hx) as [<- <-]. split; apply ld_be_ext; intros; apply H; lia.
  - destruct (H1 Hx) as [<- <-]. split; apply ld_be_ext; intros; apply H; lia.
  - specialize (H2 Hx). destruct (opcode w =? IBV_WR_ATOMIC_CMP_AND_SWP).
    + destruct H2 as [<- <-]. split; apply ld_be_ext; intros; apply H; lia.
    + rewrite <- H2. apply ld_be_ext; intros; apply H; lia.
Qed.

Lemma rc_segs_spec c s :
  seg s = c + 16 -> size s = 1 ->
  exists m, rc_segs qp w c s = (0, with_seg s m (c + 16 * hdr_units w) (hdr_units w)) /\
    same_outside (c + 16) (c + 16 * hdr_units w) (wm s) m /\ hdr_at m c.
Proof.
  intros Hs Hz. destruct (rq_addr _ _ Hw) as (Ha & Hc & Hp). unfold in_width in *.
  unfold rc_segs. fold (is_rdma w). fold (is_atomic w). unfold hdr_at, hdr_units.
  destruct (is_rdma w) eqn:Er; [|destruct (is_atomic w) eqn:Ea].
  - exists (set_raddr_seg (wm s) (seg s) (rdma_remote_addr w) (rdma_rkey w)). split_and!.
    + unfold add_raddr, sizeof_raddr. rewrite Hs, Hz. by replace (c + 16 + 16) with (c + 16 * 2) by lia.
    + unfold set_raddr_seg. intros a Hb. mem_load. done.
    + intros _. rewrite Hs. unfold set_raddr_seg, rdma_remote_addr, rdma_rkey.
      pose proof (wrapu_range 32 (w1 w) ltac:(lia)). split; mem_load; apply Z.mod_small; simpl; lia.
    + by rewrite (rdma_not_atomic Er).
  - rewrite (rq_atomic _ _ Hw Ea). cbn [negb]. eexists. split_and!.
    + unfold sizeof_raddr, sizeof_atomic. rewrite Hs, Hz. by replace (c + 16 + 16 + 16) with (c + 16 * 3) by lia.
    + unfold set_raddr_seg, set_atomic_seg. intros a Hb. destruct (_ =? _); by mem_load.
    + intros _. unfold set_raddr_seg, set_atomic_seg, atomic_remote_addr, atomic_rkey, sizeof_raddr.
      pose proof (wrapu_range 32 (w3 w) ltac:(lia)).
      destruct (_ =? _); split; mem_load; apply Z.mod_small; simpl; lia.
    + intros _. unfold set_raddr_seg, set_atomic_seg, atomic_swap, atomic_compare_add, sizeof_raddr.
      destruct (_ =? _); [split|]; replace (c + 32) with (c + 16 + 16) by lia; mem_load; apply Z.mod_small; simpl; lia.
  - exists (wm s). destruct rc_opcode as [Ho _].
    pose proof (rq_op _ _ Hw) as Hop. rewrite Er, Ea in Hop. cbn in Hop. unfold is_send in Hop.
    unfold IBV_WR_SEND, IBV_WR_SEND_WITH_IMM, IBV_WR_SEND_WITH_INV, IBV_WR_BIND_MW, IBV_WR_LOCAL_INV in *.
    rewrite (proj2 (Z.eqb_neq (opcode w) 8)), (proj2 (Z.eqb_neq (opcode w) 7)) by lia. split_and!; try done.
    replace (c + 16 * 1) with (seg s) by lia. rewrite <- Hz. by destruct s.
Qed.
End Request.

(** ** One request *)

Lemma ctrl_init_spec qp w m c fence :
  in_width 32 (imm w) ->
  ld8 (ctrl_init qp w m c fence) (c + 11) =
    u8 (Z.lor (Z.lor (Z.lor (sq_signal_bits qp) fence) (flag w IBV_SEND_SIGNALED MLX5_WQE_CTRL_CQ_UPDATE))
       (flag w IBV_SEND_SOLICITED MLX5_WQE_CTRL_SOLICITED)) /\
  ld_le 4 (ctrl_init qp w m c fence) (c + 12) = send_ieth w /\
  same_outside c (c + 16) m (ctrl_init qp w m c fence).
Proof.
  intros Hi. unfold ctrl_init. split_and!; [by mem_load| |intros a Ha; by mem_load].
  mem_load. apply Z.mod_small. unfold send_ieth, in_width in *.
  destruct (_ || _); [simpl; lia|]. destruct (_ =? _); [|simpl; lia].
  apply bswap32_range.
Qed.

(** The second word of the control segment: the size below the number of the
    queue pair. *)
Lemma qpn_ds_value sz qpn : 0 <= sz < 2 ^ 8 -> Z.lor sz (shlu 32 qpn 8) = sz + (qpn mod 2 ^ 24) * 2 ^ 8.
Proof.
  intros Hs. assert (shlu 32 qpn 8 = Z.shiftl (qpn mod 2 ^ 24) 8) as ->.
  { unfold shlu, wrapu. rewrite !Z.shiftl_mul_pow2 by lia. change (2 ^ 32) with (2 ^ 24 * 2 ^ 8).
    by rewrite Zmult_mod_distr_r. }
  rewrite Z.lor_comm, lor_shift_add by lia. lia.
Qed.

Lemma ctrl_finish_spec qp w m c sz op :
  mlx5_ib_opcode.[opcode w] = Some op -> 0 <= op < 2 ^ 8 -> 0 <= sz < 2 ^ 8 ->
  exists m', ctrl_finish qp w m c sz = Some m' /\
    ld_be 4 m' c = (cur_post (sq qp) mod 2 ^ 16) * 2 ^ 8 + op /\
    ld_be 4 m' (c + 4) = sz + (qp_num qp mod 2 ^ 24) * 2 ^ 8 /\
    same_outside c (c + 9) m m'.
Proof.
  intros Ho Hop Hsz. unfold ctrl_finish. rewrite Ho. cbn [mbind option_bind].
  change 0xffff with (2 ^ 16 - 1). rewrite land_mod, lor_shift_add by lia.
  pose proof (Z.mod_pos_bound (cur_post (sq qp)) (2 ^ 16) ltac:(lia)).
  pose proof (Z.mod_pos_bound (qp_num qp) (2 ^ 24) ltac:(lia)).
  rewrite qpn_ds_value by lia.
  eexists. split; [done|]. destruct (wq_sig qp); (split_and!; [| |intros a Ha; by mem_load]);
    mem_load; rewrite Z.mod_small; simpl; lia.
Qed.

Lemma sges_from_0 w : 0 <= num_sge w <= alen (sg_list w) ->
  sges_from w 0 = Some (take (Z.to_nat (num_sge w)) (sg_list w)).
Proof.
  intros H. unfold sges_from. zcase; [by replace (Z.to_nat (num_sge w)) with 0%nat by lia|].
  rewrite (proj2 (Z.leb_le (num_sge w) _)) by lia. cbn. by rewrite Z.sub_0_r, drop_0.
Qed.

(** Header bytes are outside the data segments of their request. *)
Lemma hdr_outside qp p h n x :
  sq_ok qp -> 0 <= x < 16 * h -> h <= 4 -> h + n <= 4 * wqe_cnt (sq qp) ->
  outside qp (64 * p + 16 * h) n (ring qp (64 * p) + x).
Proof.
  intros Hok Hx Hh Hn j Hj. replace (64 * p + 16 * h + 16 * j) with (64 * p + 16 * (h + j)) by lia.
  assert (x = 16 * (x / 16) + x mod 16 /\ 0 <= x mod 16 < 16) as [Hd Hm] by (split; dlia).
  apply (ring_disjoint qp Hok (64 * p) (x / 16)); try lia.
  - exists (4 * p). lia.
  - rewrite ring_slot by (done || lia). lia.
Qed.

Lemma gather_data qp w p s :
  sq_ok qp -> rc_request qp w ->
  seg s = ring qp (64 * p) + 16 * hdr_units w -> sg_index s = 0 -> sg_off s = 0 ->
  exists m sg, data_segs qp w s = Some (0, with_seg s m sg (size s + alen (gather w))) /\
    (forall j g, gather w !! j = Some g ->
       data_at w m (ring qp (64 * p + 16 * (hdr_units w + Z.of_nat j))) g) /\
    (forall a, outside qp (64 * p + 16 * hdr_units w) (alen (gather w)) a -> ld8 m a = ld8 (wm s) a).
Proof.
  intros Hok Hw Hs Hx Ho. unfold data_segs. rewrite (rq_inline _ _ Hw). cbn [andb].
  rewrite Hx, sges_from_0 by apply Hw. cbn [mbind option_bind].
  pose proof (hdr_units_range w) as Hh. pose proof (alen_nonneg (gather w)).
  destruct (rq_fits _ _ Hw) as [_ Hf]. unfold units in Hf.
  destruct (data_ptr_loop_spec qp w (take (Z.to_nat (num_sge w)) (sg_list w)) s (64 * p + 16 * hdr_units w))
    as (m & sg & E & D & F); try done.
  - exists (4 * p + hdr_units w). lia.
  - rewrite Hs. rewrite <- (ring_slot qp Hok p) by lia. by apply wrap_ring.
  - by apply (rc_opcode _ _ Hw).
  - apply Forall_take, Hw.
  - fold (gather w). lia.
  - exists m, sg. rewrite E. split_and!; try done. intros j g Hj.
    replace (64 * p + 16 * (hdr_units w + Z.of_nat j)) with (64 * p + 16 * hdr_units w + 16 * Z.of_nat j) by lia.
    by apply D.
Qed.

Lemma units_slots qp w : rc_request qp w -> DIV_ROUND_UP (units w * 16) MLX5_SEND_WQE_BB = slots w.
Proof.
  intros Hw. pose proof (hdr_units_range w). pose proof (alen_nonneg (gather w)).
  destruct (rq_fits _ _ Hw) as [Hf _]. unfold DIV_ROUND_UP, slots, MLX5_SEND_WQE_BB.
  rewrite wrapu_small by (unfold units in *; lia).
  replace (units w * 16 + 64 - 1) with (15 + (units w + 3) * 16) by lia.
  change 64 with (16 * 4). rewrite <- Z.div_div, Z.div_add by lia. done.
Qed.

Section PostOne.
Context (ctx : mlx5_context) (nreq : Z) (w : ibv_send_wr) (l : lst).
Let qp := lq l.
Let p := cur_post (sq qp).
Context (Hok : sq_ok qp) (Hrc : qp_type qp = IBV_QPT_RC) (Hw : rc_request qp w)
  (Hov : mlx5_wq_overflow (sq qp) nreq = false) (Hi : sg_index (lw l) = 0) (Hof : sg_off (lw l) = 0).

Lemma post_checks_rc : post_checks (sq qp) nreq w = 0.
Proof.
  pose proof (rc_opcode _ _ Hw) as [Ho _]. pose proof (rq_gs _ _ Hw). unfold post_checks.
  change (alen mlx5_ib_opcode) with 12. rewrite Hov. repeat zcase; try done; lia.
Qed.

(** The queue pair after the request, given the rings it wrote. *)
Definition posted_qp (data ids heads : list Z) : mlx5_qp :=
  with_sq qp (with_post (with_wr_data (sq qp) data) ids heads (u32 (p + slots w))).

Definition fence_of : Z := if has (send_flags w) IBV_SEND_FENCE then MLX5_WQE_CTRL_FENCE else next_fence (lw l).

(** [post_one] runs the stages one after the other. *)
Lemma post_one_stages m1 m2 m3 sg data ids heads :
  let c := ring qp (64 * p) in
  let s0 := Wst (ctrl_init qp w (wm (lw l)) c fence_of) (c + 16) 1 0 0 0 0 (tso_left (lw l)) (inl (lw l)) in
  let s1 := with_seg s0 m1 (c + 16 * hdr_units w) (hdr_units w) in
  let qp1 := with_sq qp (with_wr_data (sq qp) data) in
  rc_segs qp w c s0 = (0, s1) ->
  aset (wr_data (sq qp)) (sq_idx (sq qp)) 0 = Some data ->
  data_segs qp1 w s1 = Some (0, with_seg s1 m2 sg (units w)) ->
  ctrl_finish qp1 w m2 c (units w) = Some m3 ->
  aset (wrid (sq qp)) (sq_idx (sq qp)) (wr_id w) = Some ids ->
  aset (wqe_head (sq qp)) (sq_idx (sq qp)) (u32 (head (sq qp) + nreq)) = Some heads ->
  post_one ctx nreq w l =
    Some (0, Lst (posted_qp data ids heads)
               (Wst m3 sg (units w) 0 0 0 0 (tso_left (lw l)) (inl (lw l))) c).
Proof.
  intros c s0 s1 qp1 E1 Ed E2 E3 Ei Eh. unfold post_one. fold qp. rewrite post_checks_rc. cbn [negb Z.eqb].
  rewrite (get_send_wqe_ring qp Hok). fold p. fold c. fold fence_of.
  unfold transport_segs. rewrite Hrc. change (IBV_QPT_RC =? IBV_QPT_XRC_SEND) with false.
  change (IBV_QPT_RC =? IBV_QPT_RC) with true. cbv iota.
  replace (with_wdata _ 0) with s0 by (unfold s0, with_wdata, with_seg, with_fence; cbn; by rewrite Hi, Hof).
  rewrite E1. cbn [mbind option_bind]. replace (wdata s1) with 0 by done. rewrite Ed. cbn [mbind option_bind].
  cbn [negb Z.eqb]. fold qp1. rewrite E2. cbn [mbind option_bind negb Z.eqb]. cbn [wm with_seg size].
  rewrite E3. cbn [mbind option_bind]. unfold rings_finish. subst qp1. cbn [sq with_sq wrid wqe_head head with_wr_data cur_post].
  rewrite Ei. cbn [mbind option_bind]. rewrite Eh. cbn [mbind option_bind]. by rewrite (units_slots _ _ Hw).
Qed.

(** The bytes of the finished WQE, from what each stage wrote. *)
Lemma encodes_stages op m0 m1 m2 m3 :
  let c := ring qp (64 * p) in
  mlx5_ib_opcode.[opcode w] = Some op ->
  ld8 m0 (c + 11) = u8 (Z.lor (Z.lor (Z.lor (sq_signal_bits qp) fence_of)
     (flag w IBV_SEND_SIGNALED MLX5_WQE_CTRL_CQ_UPDATE)) (flag w IBV_SEND_SOLICITED MLX5_WQE_CTRL_SOLICITED)) ->
  ld_le 4 m0 (c + 12) = send_ieth w ->
  same_outside (c + 16) (c + 16 * hdr_units w) m0 m1 -> hdr_at w m1 c ->
  (forall j g, gather w !! j = Some g ->
     data_at w m2 (ring qp (64 * p + 16 * (hdr_units w + Z.of_nat j))) g) ->
  (forall a, outside qp (64 * p + 16 * hdr_units w) (alen (gather w)) a -> ld8 m2 a = ld8 m1 a) ->
  ld_be 4 m3 c = (p mod 2 ^ 16) * 2 ^ 8 + op ->
  ld_be 4 m3 (c + 4) = units w + (qp_num qp mod 2 ^ 24) * 2 ^ 8 ->
  same_outside c (c + 9) m2 m3 ->
  encodes qp m3 p w fence_of.
Proof.
  intros c Hop Ifl Iim F1 H1 D2 F2 O3 S3 F3. pose proof (hdr_units_range w) as Hh.
  destruct (rq_fits _ _ Hw) as [Hf Hf']. unfold units in Hf, Hf'.
  assert (Hout : forall x, 0 <= x < 16 * hdr_units w -> ld8 m2 (c + x) = ld8 m1 (c + x)).
  { intros x Hx. apply F2, hdr_outside; (done || lia). }
  assert (H3 : hdr_at w m3 c).
  { apply hdr_at_ext with m1; [|done]. intros b Hb. rewrite F3 by lia.
    replace b with (c + (b - c)) by lia. apply Hout. lia. }
  constructor; fold c.
  - by exists op.
  - done.
  - rewrite F3, Hout, F1 by lia. done.
  - rewrite <- Iim. apply ld_le_ext. intros b Hb. rewrite F3 by lia.
    replace b with (c + (b - c)) by lia. rewrite Hout, F1 by lia. done.
  - rewrite (ring_slot qp Hok) by lia. by apply H3.
  - rewrite (ring_slot qp Hok) by lia. by apply H3.
  - intros j g Hj. apply data_at_ext with m2; [|by apply D2]. intros b Hb. apply F3.
    apply lookup_lt_Some in Hj. unfold alen in *.
    destruct (decide (c <= b < c + 16)) as [Hc|]; [exfalso|lia].
    apply (ring_disjoint qp Hok (64 * p) 0 (hdr_units w + Z.of_nat j) b); try lia.
    + exists (4 * p). lia.
    + by rewrite Z.mul_0_r, Z.add_0_r.
Qed.

(** The request changes its own units only. *)
Lemma frame_stages m0 m1 m2 m3 :
  let c := ring qp (64 * p) in
  same_outside c (c + 16) (wm (lw l)) m0 ->
  same_outside (c + 16) (c + 16 * hdr_units w) m0 m1 ->
  (forall a, outside qp (64 * p + 16 * hdr_units w) (alen (gather w)) a -> ld8 m2 a = ld8 m1 a) ->
  same_outside c (c + 9) m2 m3 ->
  forall a, outside qp (64 * p) (units w) a -> ld8 m3 a = ld8 (wm (lw l)) a.
Proof.
  intros c F0 F1 F2 F3 a Ha. pose proof (hdr_units_range w) as Hh. pose proof (alen_nonneg (gather w)).
  assert (Hc : a < c \/ c + 16 * hdr_units w <= a).
  { destruct (decide (a < c \/ c + 16 * hdr_units w <= a)) as [|Hn]; [done|exfalso].
    apply (Ha ((a - c) / 16)); [unfold units; dlia|].
    rewrite (ring_slot qp Hok) by dlia. fold c. dlia. }
  rewrite F3 by lia. rewrite F2; [by rewrite F1, F0 by lia|].
  intros j Hj. replace (64 * p + 16 * hdr_units w + 16 * j) with (64 * p + 16 * (hdr_units w + j)) by lia.
  apply Ha. unfold units. lia.
Qed.

Lemma post_one_rc :
  exists m data ids heads sg,
    aset (wr_data (sq qp)) (sq_idx (sq qp)) 0 = Some data /\
    aset (wrid (sq qp)) (sq_idx (sq qp)) (wr_id w) = Some ids /\
    aset (wqe_head (sq qp)) (sq_idx (sq qp)) (u32 (head (sq qp) + nreq)) = Some heads /\
    post_one ctx nreq w l =
      Some (0, Lst (posted_qp data ids heads)
                 (Wst m sg (units w) 0 0 0 0 (tso_left (lw l)) (inl (lw l))) (ring qp (64 * p))) /\
    encodes qp m p w fence_of /\
    (forall a, outside qp (64 * p) (units w) a -> ld8 m a = ld8 (wm (lw l)) a).
Proof.
  pose proof (sq_idx_range qp Hok) as Hidx. pose proof (hdr_units_range w) as Hh.
  pose proof (alen_nonneg (gather w)) as Hn. destruct (rq_fits _ _ Hw) as [Hf Hf'].
  destruct (rc_table _ _ Hw) as (op & Hop & Hopr).
  destruct (ctrl_init_spec qp w (wm (lw l)) (ring qp (64 * p)) fence_of ltac:(apply Hw)) as (Ifl & Iim & Ifr).
  destruct (rc_segs_spec qp w Hw (ring qp (64 * p))
     (Wst (ctrl_init qp w (wm (lw l)) (ring qp (64 * p)) fence_of) (ring qp (64 * p) + 16) 1 0 0 0 0
       (tso_left (lw l)) (inl (lw l))) eq_refl eq_refl) as (m1 & E1 & F1 & H1).
  pose proof (aset_Some (wr_data (sq qp)) (sq_idx (sq qp)) 0 ltac:(by rewrite (sq_data _ Hok))) as Ed.
  set (data := <[_ := 0]> _) in Ed.
  set (qp1 := with_sq qp (with_wr_data (sq qp) data)).
  assert (Hok1 : sq_ok qp1).
  { pose proof (aset_alen _ _ _ _ Ed) as Hl. destruct Hok. constructor; try done. cbn. by rewrite Hl. }
  assert (Hw1 : rc_request qp1 w) by (by destruct Hw; constructor).
  destruct (gather_data qp1 w p (with_seg (Wst (ctrl_init qp w (wm (lw l)) (ring qp (64 * p)) fence_of)
     (ring qp (64 * p) + 16) 1 0 0 0 0 (tso_left (lw l)) (inl (lw l))) m1
     (ring qp (64 * p) + 16 * hdr_units w) (hdr_units w)) Hok1 Hw1 eq_refl eq_refl eq_refl) as (m2 & sg & E2 & D2 & F2).
  destruct (ctrl_finish_spec qp1 w m2 (ring qp (64 * p)) (units w) op Hop Hopr ltac:(unfold units in *; lia))
    as (m3 & E3 & O3 & S3 & F3).
  eexists m3, data, _, _, sg. split; [done|]. do 2 (split; [apply aset_Some; by rewrite ?(sq_wrid _ Hok), ?(sq_heads _ Hok)|]).
  split; [|split].
  - apply (post_one_stages m1 m2); try done; apply aset_Some; by rewrite ?(sq_wrid _ Hok), ?(sq_heads _ Hok).
  - by eapply (encodes_stages op _ m1 m2).
  - by eapply (frame_stages _ m1 m2).
Qed.
End PostOne.

(** ** Chains of requests *)

#[export] Instance same_cfg_refl : Reflexive same_cfg.
Proof. intros qp. exists (wr_data (sq qp)), (wrid (sq qp)), (wqe_head (sq qp)), (cur_post (sq qp)). by destruct qp as [????????? [] ????????]. Qed.

#[export] Instance same_cfg_trans : Transitive same_cfg.
Proof. intros qp1 qp2 qp3 (? & ? & ? & ? & ->) (d & i & h & c & ->). by exists d, i, h, c. Qed.

Lemma outside_weaken qp o n n' a : outside qp o n' a -> n <= n' -> outside qp o n a.
Proof. intros H Hn j Hj. apply H. lia. Qed.

Lemma slots_units w : units w <= 4 * slots w.
Proof. unfold slots. dlia. Qed.

Lemma slots_pos w : 1 <= slots w.
Proof. pose proof (hdr_units_range w). pose proof (alen_nonneg (gather w)). unfold slots, units. dlia. Qed.

Lemma total_slots_nonneg wrs : 0 <= total_slots wrs.
Proof. induction wrs as [|w wrs IH]; simpl; [lia|]. pose proof (slots_pos w). lia. Qed.

(** An encoding depends on the bytes of its own units only. *)
Lemma encodes_ext qp m m' p w f :
  sq_ok qp ->
  (forall j b, 0 <= j < units w -> ring qp (64 * p + 16 * j) <= b < ring qp (64 * p + 16 * j) + 16 -> ld8 m' b = ld8 m b) ->
  encodes qp m p w f -> encodes qp m' p w f.
Proof.
  intros Hok H E. pose proof (hdr_units_range w) as Hh. pose proof (alen_nonneg (gather w)) as Hn.
  assert (Hhdr : forall b, ring qp (64 * p) <= b < ring qp (64 * p) + 16 * hdr_units w -> ld8 m' b = ld8 m b).
  { intros b Hb. apply (H ((b - ring qp (64 * p)) / 16)); [unfold units; dlia|].
    rewrite (ring_slot qp Hok) by dlia. dlia. }
  assert (Hd : hdr_at w m' (ring qp (64 * p))).
  { apply hdr_at_ext with m; [intros; apply Hhdr; lia|].
    pose proof (en_raddr _ _ _ _ _ E) as R. pose proof (en_atomic _ _ _ _ _ E) as A.
    rewrite !(ring_slot qp Hok) in R by lia. by rewrite !(ring_slot qp Hok) in A by lia. }
  destruct E as [(op & Hop & E1) E2 E3 E4 _ _ E7]. constructor.
  - exists op. split; [done|]. rewrite <- E1. apply ld_be_ext. intros; apply Hhdr; lia.
  - rewrite <- E2. apply ld_be_ext. intros; apply Hhdr; lia.
  - rewrite <- E3. apply Hhdr; lia.
  - rewrite <- E4. apply ld_le_ext. intros; apply Hhdr; lia.
  - rewrite !(ring_slot qp Hok) by lia. by apply Hd.
  - rewrite !(ring_slot qp Hok) by lia. by apply Hd.
  - intros j g Hj. apply data_at_ext with m; [|by apply E7]. intros b Hb.
    apply lookup_lt_Some in Hj. apply (H (hdr_units w + Z.of_nat j)); [unfold units, alen; lia|done].
Qed.

(** The counter is 32 bits wide, the encoding does not see the wrap. *)
Lemma encodes_u32 qp m p w f : sq_ok qp -> encodes qp m (u32 p) w f -> encodes qp m p w f.
Proof.
  intros Hok [(op & Hop & E1) E2 E3 E4 E5 E6 E7].
  pose proof (ring_u32 qp Hok p 0) as R0. rewrite !Z.add_0_r in R0. rewrite R0 in *.
  constructor; rewrite <- ?(ring_u32 qp Hok p); try done.
  - exists op. split; [done|]. rewrite E1. do 2 f_equal. unfold wrapu.
    apply Z.mod_mod_divide. by exists (2 ^ 16).
  - intros j g Hj. rewrite <- (ring_u32 qp Hok p). by apply E7.
Qed.

Lemma chain_encoded_ext qp m m' wrs : forall p f,
  sq_ok qp ->
  (forall j b, 0 <= j < 4 * total_slots wrs -> ring qp (64 * p + 16 * j) <= b < ring qp (64 * p + 16 * j) + 16 ->
     ld8 m' b = ld8 m b) ->
  chain_encoded qp m p f wrs -> chain_encoded qp m' p f wrs.
Proof.
  induction wrs as [|w wrs IH]; intros p f Hok H; simpl; [done|]. intros [E C].
  pose proof (slots_units w). pose proof (slots_pos w). pose proof (total_slots_nonneg wrs).
  simpl in H. split.
  - apply encodes_ext with m; try done. intros j b Hj. apply H. lia.
  - apply IH; try done. intros j b Hj Hb. apply (H (4 * slots w + j)); [lia|].
    by replace (64 * p + 16 * (4 * slots w + j)) with (64 * (p + slots w) + 16 * j) by lia.
Qed.

(** Two queue pairs of the same configuration read a chain alike. *)
Lemma chain_encoded_cfg qp qp' m wrs : forall p f,
  same_cfg qp qp' -> chain_encoded qp' m p f wrs -> chain_encoded qp m p f wrs.
Proof.
  induction wrs as [|w wrs IH]; intros p f Hc; [done|]. intros [E C]. split; [|by apply IH].
  destruct Hc as (d & i & h & c & ->). by destruct E; constructor.
Qed.

Lemma rc_request_cfg qp qp' w : same_cfg qp qp' -> rc_request qp w -> rc_request qp' w.
Proof. intros (d & i & h & c & ->) []. by constructor. Qed.

Lemma no_overflow q n nreq :
  in_width 32 (max_post q) -> 0 <= nreq < n -> u32 (head q - tail q) + n <= max_post q ->
  mlx5_wq_overflow q nreq = false.
Proof.
  intros Hm Hn Hp. pose proof (wrapu_range 32 (head q - tail q) ltac:(lia)). unfold in_width in *.
  unfold mlx5_wq_overflow. rewrite wrapu_small by lia. by rewrite (proj2 (Z.ltb_lt _ _)) by lia.
Qed.

(** Outside the slots [p, p + n) the software rings do not change. *)
Definition rings_kept (q q' : mlx5_wq) (p n : Z) : Prop :=
  forall i, (forall j, 0 <= j < n -> i <> (p + j) mod wqe_cnt q) ->
    (wrid q').[i] = (wrid q).[i] /\ (wqe_head q').[i] = (wqe_head q).[i] /\ (wr_data q').[i] = (wr_data q).[i].

Lemma sq_idx_counter qp p : sq_ok qp -> cur_post (sq qp) = u32 p -> sq_idx (sq qp) = p mod wqe_cnt (sq qp).
Proof.
  intros Hok Hp. destruct (sq_pow2 _ Hok) as (k & Hk & Hc). rewrite sq_idx_mod, Hp, Hc by done. unfold wrapu.
  apply Z.mod_mod_divide. exists (2 ^ (32 - k)). rewrite <- Z.pow_add_r by lia. f_equal. lia.
Qed.

Lemma mod_apart p a b n : 0 <= n -> 0 < a -> 0 <= b -> a + b < n -> p mod n <> (p + a + b) mod n.
Proof.
  intros Hn Ha Hb Hab E. assert ((a + b) mod n = 0) as H.
  { replace (a + b) with (p + a + b - p) by lia. rewrite Zminus_mod, <- E, Z.sub_diag. apply Zmod_0_l. }
  rewrite Z.mod_small in H by lia. lia.
Qed.

(** One request recorded in front of a chain that keeps its slot. *)
Lemma recorded_cons q q' idx data ids heads cur p h wrs w :
  let q1 := with_post (with_wr_data q data) ids heads cur in
  idx = p mod wqe_cnt q -> slots w + total_slots wrs <= wqe_cnt q -> wqe_cnt q' = wqe_cnt q ->
  aset (wr_data q) idx 0 = Some data -> aset (wrid q) idx (wr_id w) = Some ids -> aset (wqe_head q) idx (u32 h) = Some heads ->
  chain_recorded q' (p + slots w) (h + 1) wrs -> rings_kept q1 q' (p + slots w) (total_slots wrs) ->
  chain_recorded q' p h (w :: wrs) /\ rings_kept q q' p (slots w + total_slots wrs).
Proof.
  intros q1 -> Ht Hcnt Ed Ei Eh R K. pose proof (slots_pos w). pose proof (total_slots_nonneg wrs). split.
  - cbn [chain_recorded]. split; [|done]. rewrite Hcnt.
    destruct (K (p mod wqe_cnt q)) as (-> & -> & ->).
    { intros j Hj. apply mod_apart; (lia || (cbn; lia)). }
    cbn. by rewrite (aget_aset_eq _ _ _ _ Ei), (aget_aset_eq _ _ _ _ Eh), (aget_aset_eq _ _ _ _ Ed).
  - intros i Hi. assert (i <> p mod wqe_cnt q) as Hne.
    { specialize (Hi 0). rewrite Z.add_0_r in Hi. apply Hi. lia. }
    destruct (K i) as (-> & -> & ->).
    { intros j Hj. rewrite <- Z.add_assoc. apply Hi. lia. }
    cbn. by rewrite (aget_aset_ne _ _ _ _ _ Ei), (aget_aset_ne _ _ _ _ _ Eh), (aget_aset_ne _ _ _ _ _ Ed) by done.
Qed.

Lemma posted_sq_ok qp i id h data ids heads p :
  sq_ok qp -> aset (wr_data (sq qp)) i 0 = Some data -> aset (wrid (sq qp)) i id = Some ids ->
  aset (wqe_head (sq qp)) i h = Some heads ->
  sq_ok (with_sq qp (with_post (with_wr_data (sq qp) data) ids heads (u32 p))).
Proof.
  intros Hok Ed Ei Eh. apply aset_alen in Ed, Ei, Eh. destruct Hok. constructor; try done; cbn; try congruence.
  unfold in_width. apply wrapu_range. lia.
Qed.

Lemma post_loop_rc ctx n wrs : forall nreq p l,
  sq_ok (lq l) -> qp_type (lq l) = IBV_QPT_RC -> Forall (rc_request (lq l)) wrs ->
  in_width 32 (max_post (sq (lq l))) -> 0 <= nreq -> nreq + alen wrs <= n ->
  outstanding (lq l) + n <= max_post (sq (lq l)) ->
  total_slots wrs <= wqe_cnt (sq (lq l)) -> cur_post (sq (lq l)) = u32 p ->
  sg_index (lw l) = 0 -> sg_off (lw l) = 0 ->
  exists l', post_loop ctx nreq wrs l = Some (0, nreq + alen wrs, [], l') /\
    same_cfg (lq l) (lq l') /\ cur_post (sq (lq l')) = u32 (p + total_slots wrs) /\
    chain_encoded (lq l) (wm (lw l')) p (next_fence (lw l)) wrs /\
    (forall a, outside (lq l) (64 * p) (4 * total_slots wrs) a -> ld8 (wm (lw l')) a = ld8 (wm (lw l)) a) /\
    chain_recorded (sq (lq l')) p (head (sq (lq l)) + nreq) wrs /\
    rings_kept (sq (lq l)) (sq (lq l')) p (total_slots wrs).
Proof.
  induction wrs as [|w wrs IH]; intros nreq p l Hok Hrc Hf Hm Hr Hn Hq Ht Hp Hi Ho.
  { exists l. simpl. by rewrite !Z.add_0_r. }
  inv Hf. pose proof (slots_pos w). pose proof (total_slots_nonneg wrs) as Hts. pose proof (alen_nonneg wrs).
  assert (alen (w :: wrs) = alen wrs + 1) as Hl by (unfold alen; cbn [length]; lia). rewrite Hl in *.
  cbn [total_slots] in *.
  destruct (post_one_rc ctx nreq w l) as (m & data & ids & heads & sg & Ed & Ei & Eh & E1 & C1 & F1); try done.
  { apply (no_overflow _ n); (done || lia). }
  set (l1 := Lst _ _ _) in E1.
  assert (Hc1 : same_cfg (lq l) (lq l1)) by (by exists data, ids, heads, (u32 (cur_post (sq (lq l)) + slots w))).
  destruct (IH (nreq + 1) (p + slots w) l1) as (l' & E & Hc & Hcur & C & F & R & K); try done; try lia.
  { by apply (posted_sq_ok _ (sq_idx (sq (lq l))) (wr_id w) (u32 (head (sq (lq l)) + nreq)) data ids heads). }
  { eapply Forall_impl; [done|]. intros w' ?. by eapply rc_request_cfg. }
  { change (total_slots wrs <= wqe_cnt (sq (lq l))). lia. }
  { change (u32 (cur_post (sq (lq l)) + slots w) = u32 (p + slots w)). by rewrite Hp, wrapu_add_l. }
  assert (Hrec : chain_recorded (sq (lq l')) p (head (sq (lq l)) + nreq) (w :: wrs) /\
                 rings_kept (sq (lq l)) (sq (lq l')) p (slots w + total_slots wrs)).
  { apply (recorded_cons _ _ (sq_idx (sq (lq l))) data ids heads (u32 (cur_post (sq (lq l)) + slots w))); try done.
    - by apply sq_idx_counter.
    - destruct Hc as (? & ? & ? & ? & Hc). by rewrite Hc.
    - by rewrite <- Z.add_assoc. }
  exists l'. split_and!; try apply Hrec.
  - cbn [post_loop]. rewrite E1. cbn [mbind option_bind negb Z.eqb]. rewrite E.
    by replace (nreq + 1 + alen wrs) with (nreq + (alen wrs + 1)) by lia.
  - by etrans.
  - by rewrite Z.add_assoc.
  - assert (He : encodes (lq l) m p w (fence_of w l)) by (apply encodes_u32; [done|by rewrite <- Hp]).
    split; [|exact (chain_encoded_cfg _ _ _ _ _ _ Hc1 C)]. apply encodes_ext with m; try done. intros j b Hj Hb.
    rewrite F; [done|]. intros i Hx. pose proof (slots_units w).
    replace (64 * (p + slots w) + 16 * i) with (64 * p + 16 * (4 * slots w + i)) by lia.
    eapply (ring_disjoint (lq l) Hok (64 * p) j); try done; try lia. exists (4 * p). lia.
  - intros a Ha. pose proof (slots_units w). rewrite F.
    + apply F1. intros j Hj. rewrite Hp, (ring_u32 (lq l) Hok p (16 * j)). apply Ha. lia.
    + intros j Hj. replace (64 * (p + slots w) + 16 * j) with (64 * p + 16 * (4 * slots w + j)) by lia.
      apply Ha. lia.
Qed.

(** ** The doorbell *)

Lemma slot_next qp p :
  sq_ok qp ->
  (if ring qp (64 * p) + 64 =? qend (sq qp) then sq_start qp else ring qp (64 * p) + 64) = ring qp (64 * Z.succ p).
Proof.
  intros Hok. replace (64 * Z.succ p) with (64 * p + 48 + 16) by lia.
  rewrite <- (wrap_next qp Hok) by (exists (4 * p + 3); lia). rewrite (ring_slot qp Hok) by lia.
  unfold wrap_seg, mlx5_get_send_wqe. rewrite Z.shiftl_0_l, Z.add_0_r.
  by replace (ring qp (64 * p) + 48 + 16) with (ring qp (64 * p) + 64) by lia.
Qed.

(** The BlueFlame copy reads the ring slot by slot. *)
Lemma bf_copy_ring qp m p dst n : sq_ok qp -> forall i,
  mlx5_bf_copy (S n) qp m (dst + 64 * i) (ring qp (64 * (p + i))) (64 * Z.of_nat (S n)) =
  map (fun k => MmioWrite (dst + 64 * k) (load_bytes m (ring qp (64 * (p + k))) 64)) (seqZ i (Z.of_nat (S n))).
Proof.
  intros Hok. induction n as [|n IH]; intros i; rewrite (seqZ_cons i (Z.of_nat _)) by lia; cbn [map].
  - cbn [mlx5_bf_copy]. f_equal.
  - remember (S n) as n'. cbn [mlx5_bf_copy]. rewrite (proj2 (Z.ltb_lt 0 _)) by lia.
    rewrite slot_next by done.
    replace (64 * Z.of_nat (S n') - 64) with (64 * Z.of_nat n') by lia.
    replace (Z.pred (Z.of_nat (S n'))) with (Z.of_nat n') by lia.
    replace (dst + 64 * i + 64) with (dst + 64 * Z.succ i) by lia.
    replace (Z.succ (p + i)) with (p + Z.succ i) by lia. f_equal. apply IH.
Qed.

Lemma align_slots qp w : rc_request qp w -> align (units w * 16) 64 = 64 * slots w.
Proof.
  intros Hw. pose proof (hdr_units_range w). pose proof (alen_nonneg (gather w)).
  destruct (rq_fits _ _ Hw) as [Hf _]. change 64 with (2 ^ 6) at 1. rewrite align_up by (unfold units in *; lia).
  rewrite <- (units_slots _ _ Hw). unfold DIV_ROUND_UP, MLX5_SEND_WQE_BB. rewrite wrapu_small; [done|].
  unfold units in *. lia.
Qed.

Lemma in_ring_units qp p n a :
  sq_ok qp -> outside qp (64 * p) n a \/ sq_start qp <= a < qend (sq qp).
Proof.
  intros Hok. destruct (decide (sq_start qp <= a < qend (sq qp))) as [|Ha]; [by right|left].
  intros j _. rewrite (sq_qend _ Hok) in Ha.
  destruct (ring_unit qp Hok (64 * p + 16 * j)) as (q & -> & Hq); [exists (4 * p + j); lia|]. lia.
Qed.

(** ** Failures *)

(** The slot of the next WQE. *)
Definition next_slot (qp : mlx5_qp) : Z := mlx5_get_send_wqe qp (sq_idx (sq qp)).

Definition binds (w : ibv_send_wr) : bool := (opcode w =? IBV_WR_BIND_MW) || (opcode w =? IBV_WR_LOCAL_INV).

(** A queue pair and a request without segments ahead of the checks. *)
Definition late_segs (qp : mlx5_qp) (w : ibv_send_wr) : Prop :=
  (qp_type qp = IBV_QPT_RC \/ qp_type qp = IBV_QPT_UC) /\ has (send_flags w) IBV_SEND_INLINE = false /\ opcode w <> IBV_WR_TSO.

Lemma bind_segs_error qp w ctrl s e s' : bind_segs qp w ctrl s = (e, s') -> e <> 0 ->
  same_outside (ctrl + 12) (ctrl + 16) (wm s) (wm s') /\ next_fence s' = MLX5_WQE_CTRL_INITIATOR_SMALL_FENCE.
Proof.
  unfold bind_segs, set_bind_wr. intros H He. repeat case_match; simplify_eq/=; try done.
  all: split; [intros a Ha; rewrite ld8_st_be_out by lia; done|done].
Qed.

Lemma late_segs_error ctx qp w ctrl s e s' : late_segs qp w -> transport_segs ctx qp w ctrl s = Some (e, s') -> e <> 0 ->
  same_outside (ctrl + 12) (ctrl + 16) (wm s) (wm s') /\ next_fence s' = if binds w then MLX5_WQE_CTRL_INITIATOR_SMALL_FENCE else next_fence s.
Proof.
  intros (Ht & _ & _) H He. unfold transport_segs, binds in *.
  destruct Ht as [Ht|Ht]; rewrite Ht in H; cbn in H; injection H as H; unfold rc_segs, uc_segs in H; repeat case_match; simplify_eq/=; try done.
  all: try (by eapply bind_segs_error).
  exfalso. unfold IBV_WR_ATOMIC_CMP_AND_SWP, IBV_WR_ATOMIC_FETCH_AND_ADD, IBV_WR_BIND_MW, IBV_WR_LOCAL_INV in *. lia.
Qed.

Lemma data_ptr_loop_0 qp w sges : forall s, opcode w <> IBV_WR_TSO -> fst (data_ptr_loop qp w sges s) = 0.
Proof.
  induction sges as [|g sges IH]; intros s Hn; cbn [data_ptr_loop]; [done|]. rewrite (proj2 (Z.eqb_neq _ _) Hn). cbn [andb].
  repeat case_match; by apply IH.
Qed.

Lemma ctrl_init_outside qp w m ctrl f : same_outside (ctrl + 8) (ctrl + 16) m (ctrl_init qp w m ctrl f).
Proof. intros a Ha. unfold ctrl_init. rewrite ld8_st8_out, !ld8_st_le_out by lia. done. Qed.

(** A request is refused by the checks, with nothing changed, or while it is
    built: then its entry of [wr_data] may have changed. *)
Lemma post_one_error ctx nreq w l e l' :
  post_one ctx nreq w l = Some (e, l') -> e <> 0 ->
  (post_checks (sq (lq l)) nreq w = e /\ l' = l) \/
  (post_checks (sq (lq l)) nreq w = 0 /\ exists x data, aset (wr_data (sq (lq l))) (sq_idx (sq (lq l))) x = Some data /\
    lq l' = with_sq (lq l) (with_wr_data (sq (lq l)) data) /\
    (late_segs (lq l) w -> same_outside (next_slot (lq l) + 8) (next_slot (lq l) + 16) (wm (lw l)) (wm (lw l')) /\
       next_fence (lw l') = if binds w then MLX5_WQE_CTRL_INITIATOR_SMALL_FENCE else 0)).
Proof.
  unfold post_one. intros H He. destruct (Z.eqb_spec (post_checks (sq (lq l)) nreq w) 0) as [Hc|Hc]; cbn [negb] in H; [right|left; by inv H].
  split; [done|]. apply bind_Some in H as ([e1 s1] & H1 & H). apply bind_Some in H as (data & Hd & H).
  exists (wdata s1), data. split; [done|]. destruct (Z.eqb_spec e1 0) as [->|Hn]; cbn [negb] in H.
  - apply bind_Some in H as ([e2 s2] & H2 & H). destruct (Z.eqb_spec e2 0) as [->|Hn2]; cbn [negb] in H; inv_bind; [done|].
    split; [done|]. intros (_ & Hi & Ht). exfalso. unfold data_segs in H2. rewrite Hi in H2. cbn [andb] in H2. inv_bind.
    match goal with Hx : data_ptr_loop ?q w ?g ?z = _ |- _ => pose proof (data_ptr_loop_0 q w g z Ht) as K; rewrite Hx in K; done end.
  - inv H. split; [done|]. intros Hl. destruct (late_segs_error _ _ _ _ _ _ _ Hl H1 He) as [Hm Hf]. split; [|exact Hf].
    intros a Ha. cbn [lw]. rewrite Hm by (unfold next_slot in Ha; lia). cbn. apply ctrl_init_outside. exact Ha.
Qed.

Lemma post_one_ok ctx nreq w l l' :
  post_one ctx nreq w l = Some (0, l') ->
  mlx5_wq_overflow (sq (lq l)) nreq = false /\ head (sq (lq l')) = head (sq (lq l)) /\
  tail (sq (lq l')) = tail (sq (lq l)) /\ max_post (sq (lq l')) = max_post (sq (lq l)) /\
  qp_state_max_gs (sq (lq l')) = qp_state_max_gs (sq (lq l)).
Proof.
  unfold post_one. intros H. unfold post_checks in H.
  destruct (_ || _); [done|]. destruct (mlx5_wq_overflow _ _); [done|]. destruct (_ <? _); [done|]. cbn [negb Z.eqb] in H.
  apply bind_Some in H as ([e1 s1] & _ & H). apply bind_Some in H as (data & _ & H).
  destruct (Z.eqb_spec e1 0); [|by inv H]. cbn [negb] in H.
  apply bind_Some in H as ([e2 s2] & _ & H). destruct (Z.eqb_spec e2 0); [|by inv H]. cbn [negb] in H.
  apply bind_Some in H as (m & _ & H). apply bind_Some in H as (q & Hq & H). inv H.
  unfold rings_finish in Hq. inv_bind. done.
Qed.

Lemma post_one_checks ctx nreq w l l' k w' :
  post_one ctx nreq w l = Some (0, l') -> post_checks (sq (lq l')) k w' = post_checks (sq (lq l)) k w'.
Proof.
  intros H. destruct (post_one_ok _ _ _ _ _ H) as (_ & Eh & Et & Em & Eg). unfold post_checks, mlx5_wq_overflow. by rewrite Eh, Et, Em, Eg.
Qed.

(** A loop that stops posts the requests before the bad one, which its run on
    them alone posts as well. *)
Lemma post_loop_prefix ctx wrs : forall nreq l e n bad l',
  post_loop ctx nreq wrs l = Some (e, n, bad, l') -> e <> 0 ->
  exists k w rest l1, wrs = k ++ w :: rest /\ bad = w :: rest /\ n = nreq + alen k /\
    post_loop ctx nreq k l = Some (0, n, [], l1) /\ post_one ctx n w l1 = Some (e, l') /\
    post_checks (sq (lq l1)) n w = post_checks (sq (lq l)) n w.
Proof.
  induction wrs as [|w wrs IH]; intros nreq l e n bad l' H He; cbn [post_loop] in H; [by inv H|].
  apply bind_Some in H as ([e1 l1] & H1 & H). destruct (Z.eqb_spec e1 0) as [->|Hn]; cbn [negb] in H.
  - destruct (IH _ _ _ _ _ _ H He) as (k & w' & rest & l2 & -> & -> & -> & Hk & Hq & Hc).
    exists (w :: k), w', rest, l2.
    assert (nreq + 1 + alen k = nreq + alen (w :: k)) as Hl by (unfold alen; cbn [length]; lia).
    rewrite Hl in *. split_and!; try done; [cbn [post_loop]; by rewrite H1|]. rewrite Hc. by eapply post_one_checks.
  - inv H. exists [], w, wrs, l. unfold alen. cbn. rewrite Z.add_0_r. done.
Qed.

(** The requests posted fit the queue. *)
Lemma post_loop_fits ctx wrs : forall nreq l e n bad l',
  post_loop ctx nreq wrs l = Some (e, n, bad, l') -> in_width 32 (max_post (sq (lq l))) -> 0 <= nreq ->
  outstanding (lq l) + nreq <= max_post (sq (lq l)) ->
  nreq <= n /\ outstanding (lq l) + n <= max_post (sq (lq l)) /\
  head (sq (lq l')) = head (sq (lq l)) /\ tail (sq (lq l')) = tail (sq (lq l)) /\
  max_post (sq (lq l')) = max_post (sq (lq l)).
Proof.
  unfold outstanding. induction wrs as [|w wrs IH]; intros nreq l e n bad l' H Hm Hr Hq; cbn [post_loop] in H; [by inv H|].
  apply bind_Some in H as ([e1 l1] & H1 & H). destruct (Z.eqb_spec e1 0) as [->|Hn]; cbn [negb] in H.
  - destruct (post_one_ok _ _ _ _ _ H1) as (Ho & Eh & Et & Em & _).
    assert (u32 (head (sq (lq l)) - tail (sq (lq l))) + (nreq + 1) <= max_post (sq (lq l))).
    { pose proof (wrapu_range 32 (head (sq (lq l)) - tail (sq (lq l))) ltac:(lia)).
      unfold in_width in Hm. unfold mlx5_wq_overflow in Ho. rewrite wrapu_small in Ho by lia.
      zcase_in Ho; [lia|]. zcase_in Ho; (done || lia). }
    rewrite <- Eh, <- Et, <- Em in *. destruct (IH _ _ _ _ _ _ H) as (? & ? & ? & ? & ?); try done; lia.
  - inv H. destruct (post_one_error _ _ _ _ _ _ H1 Hn) as [[_ ->]|(_ & x & data & _ & -> & _)]; done.
Qed.

Lemma outstanding_post h t n mx :
  in_width 32 mx -> 0 <= n -> u32 (h - t) + n <= mx -> u32 (u32 (h + n) - t) = u32 (h - t) + n.
Proof.
  intros Hm Hn Hx. pose proof (wrapu_range 32 (h - t) ltac:(lia)). unfold in_width in *.
  rewrite <- Z.add_opp_r, wrapu_add_l. replace (h + n + - t) with (h - t + n) by lia.
  rewrite <- wrapu_add_l. apply wrapu_small. lia.
Qed.

Lemma sample_sq_ok type flags atomics : sq_ok (sample_qp type 3 flags atomics).
Proof. constructor; try done. by exists 2. Qed.

Lemma sample_chain_fits : chain_fits (sample_qp IBV_QPT_RC 3 0 true) sample_chain.
Proof.
  constructor; try done; try (by apply sample_sq_ok); try (by left + right).
  repeat constructor; vm_compute; done.
Qed.

Lemma run_err (x : option send_result) e : sr_err <$> x = Some e -> exists r, x = Some r /\ sr_err r = e.
Proof. intros (r & -> & ->)%fmap_Some. by exists r. Qed.

(** The doorbell record holds the low half of the posting index. *)
Lemma db_record_value m a x y : x = u32 y -> ld_be 4 (st_be 4 m a (Z.land x 0xffff)) a = y mod 2 ^ 16.
Proof.
  intros ->. rewrite ld_be_st_be. change 0xffff with (2 ^ 16 - 1). rewrite land_mod by lia. unfold wrapu.
  rewrite (Z.mod_mod_divide y (2 ^ 32)) by (by exists (2 ^ 16)). apply Z.mod_small.
  pose proof (Z.mod_pos_bound y (2 ^ 16)). simpl. lia.
Qed.

(** ** Correctness of [_mlx5_post_send] *)

Lemma chain_recorded_head q x wrs : forall p h, chain_recorded q p h wrs -> chain_recorded (with_head q x) p h wrs.
Proof. induction wrs as [|w wrs IH]; intros p h; [done|]. intros [H Hr]. split; [exact H|by apply IH]. Qed.

(** Posting a chain: the loop, then the doorbell record. *)
Lemma post_chain_ok ctx qp m wrs :
  chain_fits qp wrs -> wrs <> [] ->
  exists r, _mlx5_post_send ctx qp m wrs = Some r /\ sr_err r = 0 /\ sr_bad r = [] /\
    chain_encoded qp (sr_mem r) (cur_post (sq qp)) (fm_cache qp) wrs /\
    ld_be 4 (sr_mem r) (db qp + 4) = (cur_post (sq qp) + total_slots wrs) mod 2 ^ 16 /\
    cur_post (sq (sr_qp r)) = u32 (cur_post (sq qp) + total_slots wrs) /\
    outstanding (sr_qp r) = outstanding qp + alen wrs /\
    (forall a, (a < sq_start qp \/ qend (sq qp) <= a) -> (a < db qp + 4 \/ db qp + 8 <= a) ->
       ld8 (sr_mem r) a = ld8 m a) /\
    chain_recorded (sq (sr_qp r)) (cur_post (sq qp)) (head (sq qp)) wrs /\
    (exists data ids heads, sq (sr_qp r) =
       with_head (with_post (with_wr_data (sq qp) data) ids heads (cur_post (sq (sr_qp r)))) (u32 (head (sq qp) + alen wrs))).
Proof.
  intros [Hok Hrc Hf Hm Hq Ht Hdb] Hne.
  assert (0 < alen wrs) by (destruct wrs; [done|unfold alen; cbn [length]; lia]).
  destruct (post_loop_rc ctx (alen wrs) wrs 0 (cur_post (sq qp)) (Lst qp (Wst m 0 0 0 0 (fm_cache qp) 0 0 false) 0))
    as (l' & E & (data & ids & heads & cur & Hqp) & Hcur & C & F & R & _); try done; try lia.
  { cbn. symmetry. apply wrapu_small, Hok. }
  unfold _mlx5_post_send. rewrite E. cbn [mbind option_bind]. unfold post_send_db. rewrite Hqp in *.
  rewrite Z.add_0_l, (proj2 (Z.eqb_neq _ _)) by lia. eexists. split; [done|]. cbn [sr_err sr_bad sr_mem sr_qp].
  change (cur = u32 (cur_post (sq qp) + total_slots wrs)) in Hcur. change (db (with_bf _ _)) with (db qp).
  split_and!; try done.
  - apply chain_encoded_ext with (wm (lw l')); [done| |exact C]. intros j b Hj Hb. apply ld8_st_be_out.
    pose proof (ring_range qp Hok (64 * cur_post (sq qp) + 16 * j)).
    destruct (ring_unit qp Hok (64 * cur_post (sq qp) + 16 * j)) as (q & Hq' & ?); [exists (4 * cur_post (sq qp) + j); lia|].
    rewrite (sq_qend _ Hok) in Hdb. cbn. lia.
  - cbn [db with_sq with_fm_cache]. apply db_record_value. by rewrite <- Hcur.
  - unfold outstanding. cbn [head tail sq with_bf with_sq with_fm_cache with_head with_post with_wr_data].
    by apply (outstanding_post _ _ _ (max_post (sq qp))); [| lia |].
  - intros a Ha Hd. cbn [db with_sq with_fm_cache]. rewrite ld8_st_be_out by (cbn; lia). apply F.
    destruct (in_ring_units qp (cur_post (sq qp)) (4 * total_slots wrs) a Hok); [done|lia].
  - rewrite Z.add_0_r in R. cbn. by apply chain_recorded_head.
  - exists data, ids, heads. cbn. done.
Qed.

(** C5: posting a chain of RDMA, atomic and send requests on a reliable
    connection with room for it succeeds, and leaves in the send ring, from the
    posting index on and wrapping at the end of the buffer, every request of the
    chain in order exactly as the device reads it: opcode, index, queue pair,
    size, fence and completion flags, immediate, remote address and key, atomic
    operands and gather list.  The software rings hold the id and the number of
    each request at its slot, for the completion to find.  The doorbell record
    holds the 16-bit index behind the chain, and no byte outside the ring and
    that record changes. *)
Theorem post_send_rc_chain ctx qp m wrs :
  chain_fits qp wrs -> wrs <> [] ->
  exists r, _mlx5_post_send ctx qp m wrs = Some r /\ sr_err r = 0 /\ sr_bad r = [] /\
    chain_encoded qp (sr_mem r) (cur_post (sq qp)) (fm_cache qp) wrs /\
    ld_be 4 (sr_mem r) (db qp + 4) = (cur_post (sq qp) + total_slots wrs) mod 2 ^ 16 /\
    cur_post (sq (sr_qp r)) = u32 (cur_post (sq qp) + total_slots wrs) /\
    outstanding (sr_qp r) = outstanding qp + alen wrs /\
    (forall a, (a < sq_start qp \/ qend (sq qp) <= a) -> (a < db qp + 4 \/ db qp + 8 <= a) ->
       ld8 (sr_mem r) a = ld8 m a) /\
    chain_recorded (sq (sr_qp r)) (cur_post (sq qp)) (head (sq qp)) wrs.
Proof.
  intros Hf Hn. destruct (post_chain_ok ctx qp m wrs Hf Hn) as (r & H1 & H2 & H3 & H4 & H5 & H6 & H7 & H8 & H9 & _).
  exists r. split_and!; done.
Qed.

Lemma post_send_rc_chain_witness :
  chain_fits (sample_qp IBV_QPT_RC 3 0 true) sample_chain /\
  exists r, _mlx5_post_send sample_ctx (sample_qp IBV_QPT_RC 3 0 true) ∅ sample_chain = Some r /\
    chain_encoded (sample_qp IBV_QPT_RC 3 0 true) (sr_mem r) 3 0 sample_chain /\ cur_post (sq (sr_qp r)) = 6.
Proof.
  split; [exact sample_chain_fits|].
  destruct (post_send_rc_chain sample_ctx (sample_qp IBV_QPT_RC 3 0 true) ∅ sample_chain sample_chain_fits ltac:(done))
    as (r & E & _ & _ & C & _ & Hc & _).
  exists r. split_and!; [done|exact C|exact Hc].
Defined.

(** A single request that BlueFlame applies to (a register with a BlueFlame
    buffer, a device that prefers it, a WQE of more than one unit that fits the
    buffer) is written to the device register slot by slot: the events are the
    64-byte slots of the ring that hold the WQE, in order, wrapping with it. *)
Theorem post_send_blueflame ctx qp m w :
  chain_fits qp [w] -> shut_up_bf ctx = false -> prefer_bf ctx = true -> uuarn (bf qp) <> 0 ->
  1 < units w <= bf_buf_size (bf qp) / 16 ->
  exists r, _mlx5_post_send ctx qp m [w] = Some r /\ sr_err r = 0 /\
    sr_mmio r = map (fun k => MmioWrite (reg (bf qp) + bf_offset (bf qp) + 64 * k)
                       (load_bytes (sr_mem r) (ring qp (64 * (cur_post (sq qp) + k))) 64)) (seqZ 0 (slots w)) /\
    bf_offset (bf (sr_qp r)) = Z.lxor (bf_offset (bf qp)) (bf_buf_size (bf qp)).
Proof.
  intros [Hok Hrc Hf Hm Hq _ _] Hsh Hpr Hu Hsz. inv Hf.
  destruct (post_one_rc ctx 0 w (Lst qp (Wst m 0 0 0 0 (fm_cache qp) 0 0 false) 0))
    as (m' & data & ids & heads & sg & Ed & Ei & Eh & E & _); try done.
  { apply (no_overflow _ 1); (done || lia). }
  unfold _mlx5_post_send. cbn [post_loop]. rewrite E. cbn [mbind option_bind negb Z.eqb lq lw lctrl Z.add].
  unfold post_send_db. change (1 =? 0) with false. cbv iota. eexists. split; [done|]. split; [done|].
  cbn [sr_mmio sr_mem sr_qp bf with_bf with_sq with_fm_cache posted_qp lq size inl]. split; [|done].
  rewrite Hsh, Hpr, orb_true_r, (proj2 (Z.eqb_neq _ _) Hu). rewrite (proj2 (Z.ltb_lt 1 _)), (proj2 (Z.leb_le _ _)) by lia.
  cbn [andb negb Z.eqb Pos.eqb].
  rewrite (align_slots qp w) by done. pose proof (slots_pos w).
  replace (64 * slots w / 64) with (slots w) by (rewrite Z.mul_comm, Z.div_mul; lia).
  destruct (Z.to_nat (slots w)) as [|n] eqn:En; [lia|]. replace (slots w) with (Z.of_nat (S n)) by lia.
  set (q := with_sq (with_fm_cache _ _) _). set (m1 := st_be _ _ _ _).
  assert (Hq' : sq_ok q).
  { apply aset_alen in Ed, Ei, Eh. cbn [lq] in *. destruct Hok. constructor; try done; cbn; try congruence.
    apply (wrapu_range 32 (cur_post (sq qp) + slots w)). lia. }
  pose proof (bf_copy_ring q m1 (cur_post (sq qp)) (reg (bf qp) + bf_offset (bf qp)) n Hq' 0) as B.
  rewrite Z.mul_0_r, !Z.add_0_r in B. exact B.
Qed.

Lemma post_send_blueflame_witness :
  chain_fits (sample_qp IBV_QPT_RC 3 0 true) [sample_wr IBV_WR_RDMA_READ [Sge 0x3000 8 1; Sge 0x3008 8 1; Sge 0x3010 8 1]] /\
  exists r, _mlx5_post_send sample_ctx (sample_qp IBV_QPT_RC 3 0 true) ∅
      [sample_wr IBV_WR_RDMA_READ [Sge 0x3000 8 1; Sge 0x3008 8 1; Sge 0x3010 8 1]] = Some r /\
    sr_mmio r = [MmioWrite 0x8000 (load_bytes (sr_mem r) 0x10c0 64); MmioWrite 0x8040 (load_bytes (sr_mem r) 0x1000 64)].
Proof.
  assert (H : chain_fits (sample_qp IBV_QPT_RC 3 0 true)
    [sample_wr IBV_WR_RDMA_READ [Sge 0x3000 8 1; Sge 0x3008 8 1; Sge 0x3010 8 1]]).
  { constructor; try done; try (by apply sample_sq_ok); try (by left + right). repeat constructor; vm_compute; done. }
  split; [exact H|].
  destruct (post_send_blueflame sample_ctx _ ∅ _ H eq_refl eq_refl ltac:(done) ltac:(vm_compute; done))
    as (r & E & _ & Ev & _).
  exists r. split; [exact E|]. rewrite Ev. reflexivity.
Defined.

(** What a request refused while it was built leaves: its entry of [wr_data],
    the fence, and for RC and UC at most eight bytes of its control segment.  The
    doorbell record is the same, and nothing is rung when it was the first. *)
Record half_built (ok : list ibv_send_wr) (w : ibv_send_wr) (r r' : send_result) : Prop := {
  hb_qp : exists x d f, aset (wr_data (sq (sr_qp r'))) (sq_idx (sq (sr_qp r'))) x = Some d /\
    sr_qp r = with_fm_cache (with_sq (sr_qp r') (with_wr_data (sq (sr_qp r')) d)) f;
  hb_db : ok <> [] -> ld_be 4 (sr_mem r) (db (sr_qp r') + 4) = ld_be 4 (sr_mem r') (db (sr_qp r') + 4);
  hb_mmio : ok = [] -> sr_mmio r = [];
  hb_late : late_segs (sr_qp r') w ->
    same_outside (next_slot (sr_qp r') + 8) (next_slot (sr_qp r') + 16) (sr_mem r') (sr_mem r) /\
    fm_cache (sr_qp r) = if binds w then MLX5_WQE_CTRL_INITIATOR_SMALL_FENCE else 0 }.

Lemma same_outside_stores lo hi m m' a bs : same_outside lo hi m m' -> same_outside lo hi (store_bytes m a bs) (store_bytes m' a bs).
Proof. intros H b Hb. by apply ld8_store_bytes_ext, H. Qed.

(** C25: whatever the queue pair's type and whatever goes wrong, an error leaves
    the send queue as if the requests before [*bad_wr] had been posted: the list
    splits at [*bad_wr] and posting the first part alone succeeds.  A request the
    checks refuse (opcode, room, gather entries) gives their code, and queue pair,
    memory and doorbell are exactly those of posting the first part.  A request
    refused while it is built leaves the head, the posting index, the ids and
    everything else of the queue pair but its own entry of [wr_data] and the
    fence kept for the next request, the same doorbell record, and no doorbell at
    all when it was the first; on RC and UC queue pairs, without inline data,
    memory differs in the eight bytes of its own control segment at most. *)
Theorem post_send_error_prefix ctx qp m wrs r :
  _mlx5_post_send ctx qp m wrs = Some r -> sr_err r <> 0 ->
  exists ok w rest r', wrs = ok ++ w :: rest /\ sr_bad r = w :: rest /\
    _mlx5_post_send ctx qp m ok = Some r' /\ sr_err r' = 0 /\
    let refused := post_checks (sq qp) (alen ok) w in
    (refused <> 0 -> sr_err r = refused /\ sr_qp r = sr_qp r' /\ sr_mem r = sr_mem r' /\ sr_mmio r = sr_mmio r') /\
    (refused = 0 -> half_built ok w r r').
Proof.
  unfold _mlx5_post_send. intros H He. apply bind_Some in H as ([[[e n] bad] l'] & H & Hr).
  assert (e <> 0) as Hen by (unfold post_send_db in Hr; by destruct (n =? 0); inv Hr).
  destruct (post_loop_prefix _ _ _ _ _ _ _ _ H Hen) as (k & w & rest & l1 & -> & -> & -> & Hk & H1 & Hc).
  exists k, w, rest. rewrite Hk. cbn [mbind option_bind]. rewrite (proj2 (Z.eqb_neq e 0) Hen) in Hr.
  rewrite Z.add_0_l in *. cbn [lq] in Hc. cbv zeta. rewrite <- Hc.
  destruct (post_one_error _ _ _ _ _ _ H1 Hen) as [[Hp ->]|(Hp & x & d & Hd & Hq & Hl)]; rewrite Hp.
  - destruct (post_send_db _ _ _ _ _ _ _) as [[q2 m2] ev]. inv Hr. by eexists.
  - rewrite Hq in Hr. unfold post_send_db in *. destruct (Z.eqb_spec (alen k) 0) as [H0|H0]; inv Hr; eexists; (split_and!; try done); intros _.
    + constructor; cbn [sr_qp sr_mem sr_mmio]; [by exists x, d, (next_fence (lw l'))|intros Hnk; by destruct k|done|exact Hl].
    + constructor; cbn [sr_qp sr_mem sr_mmio]; [by exists x, d, (next_fence (lw l'))|intros _; etransitivity; [apply ld_be_st_be|symmetry; apply ld_be_st_be]| |].
      * intros ->. done.
      * intros Hs. destruct (Hl Hs) as [Hm Hf]. split; [|exact Hf]. apply same_outside_stores. exact Hm.
Qed.

(** A chain whose second request is an atomic on a queue pair that has none. *)
Lemma post_send_error_prefix_witness :
  exists r, _mlx5_post_send sample_ctx (sample_qp IBV_QPT_RC 3 0 false) ∅ (reverse sample_chain) = Some r /\
    sr_err r = EOPNOTSUPP /\ exists ok w rest r', reverse sample_chain = ok ++ w :: rest /\ sr_bad r = w :: rest /\
    _mlx5_post_send sample_ctx (sample_qp IBV_QPT_RC 3 0 false) ∅ ok = Some r' /\ sr_err r' = 0 /\
    (post_checks (sq (sample_qp IBV_QPT_RC 3 0 false)) (alen ok) w = 0 -> half_built ok w r r').
Proof.
  destruct (run_err (_mlx5_post_send sample_ctx (sample_qp IBV_QPT_RC 3 0 false) ∅ (reverse sample_chain)) EOPNOTSUPP)
    as (r & E & He); [vm_compute; reflexivity|].
  destruct (post_send_error_prefix sample_ctx (sample_qp IBV_QPT_RC 3 0 false) ∅ (reverse sample_chain) r E ltac:(by rewrite He))
    as (ok & w & rest & r' & H1 & H2 & H3 & H4 & _ & H5).
  exists r. split; [exact E|]. split; [exact He|]. exists ok, w, rest, r'. split_and!; assumption.
Defined.

(** C26: the send queue is never overcommitted: for any queue pair and any list,
    also one that fails, the posted and uncompleted requests stay within
    [max_post] and grow by the number of requests posted. *)
Theorem post_send_never_overcommits ctx qp m wrs r :
  in_width 32 (max_post (sq qp)) -> outstanding qp <= max_post (sq qp) ->
  _mlx5_post_send ctx qp m wrs = Some r ->
  outstanding qp <= outstanding (sr_qp r) <= max_post (sq (sr_qp r)) /\ max_post (sq (sr_qp r)) = max_post (sq qp).
Proof.
  unfold _mlx5_post_send. intros Hm Ho H. apply bind_Some in H as ([[[e n] bad] l'] & H & Hr).
  destruct (post_loop_fits _ _ _ _ _ _ _ _ H Hm) as (Hn & Hx & Eh & Et & Em); [lia|by rewrite Z.add_0_r|].
  cbn [lq] in *. unfold post_send_db in Hr. destruct (Z.eqb_spec n 0) as [->|]; inv Hr; cbn [sr_qp].
  - unfold outstanding in *. change (sq (with_fm_cache (lq l') (next_fence (lw l')))) with (sq (lq l')).
    rewrite Eh, Et, Em. done.
  - unfold outstanding. cbn [sq with_bf with_sq with_head with_fm_cache head tail max_post].
    rewrite Eh, Et, Em. rewrite (outstanding_post _ _ _ (max_post (sq qp))); (done || lia || idtac).
    unfold outstanding in *. lia.
Qed.

Lemma post_send_never_overcommits_witness :
  exists r, _mlx5_post_send sample_ctx (sample_qp IBV_QPT_RC 3 0 true) ∅ sample_chain = Some r /\ outstanding (sr_qp r) <= 4.
Proof.
  destruct (run_err (_mlx5_post_send sample_ctx (sample_qp IBV_QPT_RC 3 0 true) ∅ sample_chain) 0)
    as (r & E & _); [vm_compute; reflexivity|].
  assert (in_width 32 (max_post (sq (sample_qp IBV_QPT_RC 3 0 true)))) as Hm by (split; [done|reflexivity]).
  assert (outstanding (sample_qp IBV_QPT_RC 3 0 true) <= max_post (sq (sample_qp IBV_QPT_RC 3 0 true))) as Ho by done.
  destruct (post_send_never_overcommits sample_ctx (sample_qp IBV_QPT_RC 3 0 true) ∅ sample_chain r Hm Ho E) as [[_ H] Em].
  exists r. split; [exact E|]. rewrite Em in H. exact H.
Defined.

(** The gather position of an enhanced-IPoIB request ([sg_copy_ptr]) is not
    reset between the requests of a chain: of two identical datagrams whose
    first gather entry is the inlined header and whose second is the payload,
    the first WQE has the payload's data segment (8 units) and the second has
    none (7 units), so that its payload is not sent; posted alone, the same
    request has it. *)
Theorem post_send_underlay_chain :
  let qp := sample_qp IBV_QPT_UD 0 MLX5_QP_FLAGS_USE_UNDERLAY false in
  let w := sample_wr IBV_WR_SEND [Sge 0x3000 4 1; Sge 0x3100 100 1] in
  let ds r p := Z.land (ld_be 4 (sr_mem r) (ring qp (64 * p) + 4)) 0x3f in
  (r ← _mlx5_post_send sample_ctx qp ∅ [w; w]; Some (sr_err r, ds r 0, ds r 2)) = Some (0, 8, 7) /\
  (r ← _mlx5_post_send sample_ctx qp ∅ [w]; Some (sr_err r, ds r 0)) = Some (0, 8).
Proof. split; vm_compute; reflexivity. Qed.

(** When a later request of a chain fails after its WQE was begun, the
    doorbell register is written from that unfinished WQE instead of the last
    posted one: here the first request is posted in slot 0, the second is
    refused, and the register receives the eight stale bytes of slot 1. *)
Theorem post_send_doorbell_of_failed_wqe :
  let qp := sample_qp IBV_QPT_RC 0 0 false in
  (r ← _mlx5_post_send sample_ctx qp ∅ (reverse sample_chain);
   Some (sr_err r, alen (sr_bad r), load_bytes (sr_mem r) (ring qp 0) 8, sr_mmio r)) =
  Some (EOPNOTSUPP, 1, [0; 0; 0; 8; 0; 0; 7; 3], [MmioWrite 0x8000 [0; 0; 0; 0; 0; 0; 0; 0]]).
Proof. vm_compute. reflexivity. Qed.
