(* ===== verification/NewSend.v ===== *)
(** providers/mlx5/qp.c: the extended posting interface ([ibv_wr_start], a
    builder and setters per request, [ibv_wr_complete]).

    A batch is built in place: a builder starts a WQE at [cur_post] and leaves
    [cur_ctrl], [cur_data], [cur_size] for the setters, the last setter
    finalises the WQE and advances [cur_post]; errors are remembered in [err]
    and reported by [mlx5_send_wr_complete], which rolls the batch back.  Each
    function is a step on [mqp], the queue pair with the fields of this
    interface; [None] is undefined behaviour. *)

From S2P Require Import Prelude Util Mem Wqe PostSend.

Definition IBV_QPT_DRIVER : Z := 0xff.
Definition IBV_WC_DRIVER1 : Z := 135.
Definition IBV_WC_DRIVER2 : Z := 136.
Definition IBV_WC_DRIVER3 : Z := 137.
Definition MLX5_OPCODE_MMO : Z := 0x2F.
Definition MLX5_OPC_MOD_MMO_DMA : Z := 1.
Definition MLX5_DMA_MMO_MAX_SIZE : Z := 2 ^ 31.
Definition WQE_REQ_SETTERS_UD_XRC_DC : Z := 2.
Definition MLX5DV_DCTYPE_DCI : Z := 2.

(** ** The state of a batch

    [wr_id] and [wr_flags] of [ibv_qp_ex] are set by the application before
    each builder. *)
Record mqp := Mqp {
  xq : mlx5_qp; xm : mem; ex_wr_id : Z; wr_flags : Z;
  cur_post_rb : Z; fm_cache_rb : Z; perr : Z; nreq : Z; inl_wqe : bool;
  cur_size : Z; cur_data : Z; cur_eth : Z; cur_ctrl : Z; cur_setters_cnt : Z }.

(** What the interface reads of the context and of the protection domain. *)
Record xenv := Xenv { xctx : mlx5_context; dma_max_size : Z; opaque_lkey : Z; opaque_buf : Z }.

Definition with_xq (s : mqp) (q : mlx5_qp) : mqp :=
  Mqp q (xm s) (ex_wr_id s) (wr_flags s) (cur_post_rb s) (fm_cache_rb s) (perr s) (nreq s) (inl_wqe s)
    (cur_size s) (cur_data s) (cur_eth s) (cur_ctrl s) (cur_setters_cnt s).
Definition with_xm (s : mqp) (m : mem) : mqp :=
  Mqp (xq s) m (ex_wr_id s) (wr_flags s) (cur_post_rb s) (fm_cache_rb s) (perr s) (nreq s) (inl_wqe s)
    (cur_size s) (cur_data s) (cur_eth s) (cur_ctrl s) (cur_setters_cnt s).
Definition with_wr (s : mqp) (id flags : Z) : mqp :=
  Mqp (xq s) (xm s) id flags (cur_post_rb s) (fm_cache_rb s) (perr s) (nreq s) (inl_wqe s)
    (cur_size s) (cur_data s) (cur_eth s) (cur_ctrl s) (cur_setters_cnt s).
Definition with_perr (s : mqp) (e : Z) : mqp :=
  Mqp (xq s) (xm s) (ex_wr_id s) (wr_flags s) (cur_post_rb s) (fm_cache_rb s) e (nreq s) (inl_wqe s)
    (cur_size s) (cur_data s) (cur_eth s) (cur_ctrl s) (cur_setters_cnt s).
Definition with_nreq (s : mqp) (n : Z) : mqp :=
  Mqp (xq s) (xm s) (ex_wr_id s) (wr_flags s) (cur_post_rb s) (fm_cache_rb s) (perr s) n (inl_wqe s)
    (cur_size s) (cur_data s) (cur_eth s) (cur_ctrl s) (cur_setters_cnt s).
Definition with_inl_wqe (s : mqp) (b : bool) : mqp :=
  Mqp (xq s) (xm s) (ex_wr_id s) (wr_flags s) (cur_post_rb s) (fm_cache_rb s) (perr s) (nreq s) b
    (cur_size s) (cur_data s) (cur_eth s) (cur_ctrl s) (cur_setters_cnt s).
Definition with_size (s : mqp) (z : Z) : mqp :=
  Mqp (xq s) (xm s) (ex_wr_id s) (wr_flags s) (cur_post_rb s) (fm_cache_rb s) (perr s) (nreq s) (inl_wqe s)
    z (cur_data s) (cur_eth s) (cur_ctrl s) (cur_setters_cnt s).
Definition with_data (s : mqp) (a : Z) : mqp :=
  Mqp (xq s) (xm s) (ex_wr_id s) (wr_flags s) (cur_post_rb s) (fm_cache_rb s) (perr s) (nreq s) (inl_wqe s)
    (cur_size s) a (cur_eth s) (cur_ctrl s) (cur_setters_cnt s).
Definition with_eth (s : mqp) (a : Z) : mqp :=
  Mqp (xq s) (xm s) (ex_wr_id s) (wr_flags s) (cur_post_rb s) (fm_cache_rb s) (perr s) (nreq s) (inl_wqe s)
    (cur_size s) (cur_data s) a (cur_ctrl s) (cur_setters_cnt s).
Definition with_ctrl (s : mqp) (a : Z) : mqp :=
  Mqp (xq s) (xm s) (ex_wr_id s) (wr_flags s) (cur_post_rb s) (fm_cache_rb s) (perr s) (nreq s) (inl_wqe s)
    (cur_size s) (cur_data s) (cur_eth s) a (cur_setters_cnt s).
Definition with_setters (s : mqp) (n : Z) : mqp :=
  Mqp (xq s) (xm s) (ex_wr_id s) (wr_flags s) (cur_post_rb s) (fm_cache_rb s) (perr s) (nreq s) (inl_wqe s)
    (cur_size s) (cur_data s) (cur_eth s) (cur_ctrl s) n.

Definition with_cur_post (qp : mlx5_qp) (c : Z) : mlx5_qp :=
  with_sq qp (with_post (sq qp) (wrid (sq qp)) (wqe_head (sq qp)) c).

(** [if (!mqp->err) mqp->err = e]. *)
Definition set_err (s : mqp) (e : Z) : mqp := if perr s =? 0 then with_perr s e else s.

(** ** Batches *)

Definition mlx5_send_wr_start (s : mqp) : mqp :=
  Mqp (xq s) (xm s) (ex_wr_id s) (wr_flags s) (cur_post (sq (xq s))) (fm_cache (xq s)) 0 0 false
    (cur_size s) (cur_data s) (cur_eth s) (cur_ctrl s) (cur_setters_cnt s).

(** The assignments of the two saved fields. *)
Definition roll_back (s : mqp) : mqp :=
  with_xq s (with_fm_cache (with_cur_post (xq s) (cur_post_rb s)) (fm_cache_rb s)).

Definition mlx5_send_wr_complete_error (s : mqp) : Z * mqp := (EINVAL, roll_back s).

Definition mlx5_send_wr_complete (e : xenv) (s : mqp) : Z * mqp * list mmio_event :=
  if negb (perr s =? 0) then (perr s, roll_back s, [])
  else
    let '(qp, m, ev) := post_send_db (xctx e) (xq s) (xm s) (nreq s) (inl_wqe s) (cur_size s) (cur_ctrl s) in
    (0, with_xm (with_xq s qp) m, ev).

Definition mlx5_send_wr_abort (s : mqp) : mqp := roll_back s.

(** ** Starting and finishing a WQE *)

Definition wr_data_of (ib_op mlx5_op : Z) : Z :=
  if ib_op =? IBV_WR_BIND_MW then IBV_WC_BIND_MW
  else if ib_op =? IBV_WR_LOCAL_INV then IBV_WC_LOCAL_INV
  else if ib_op =? IBV_WR_DRIVER1 then IBV_WC_DRIVER1
  else if mlx5_op =? MLX5_OPCODE_MMO then IBV_WC_DRIVER3
  else 0.

(** The assignments to the three rings at the slot of [cur_post]. *)
Definition fill_rings (s : mqp) (data : Z) : option mlx5_wq :=
  let q := sq (xq s) in
  ids ← aset (wrid q) (sq_idx q) (ex_wr_id s);
  heads ← aset (wqe_head q) (sq_idx q) (u32 (head q + nreq s));
  datas ← aset (wr_data q) (sq_idx q) data;
  Some (with_wr_data (with_post q ids heads (cur_post q)) datas).

(** The control segment as it is initialised. *)
Definition ctrl_start (s : mqp) (m : mem) (ctrl mlx5_op : Z) : mem :=
  let qp := xq s in
  let m := st_le 4 m (ctrl + 8) 0 in
  let fence := if has (wr_flags s) IBV_SEND_FENCE then MLX5_WQE_CTRL_FENCE else fm_cache qp in
  let m := st8 m (ctrl + 11)
    (Z.lor (Z.lor (Z.lor (sq_signal_bits qp) fence)
       (if has (wr_flags s) IBV_SEND_SIGNALED then MLX5_WQE_CTRL_CQ_UPDATE else 0))
       (if has (wr_flags s) IBV_SEND_SOLICITED then MLX5_WQE_CTRL_SOLICITED else 0)) in
  st_be 4 m ctrl (Z.lor (Z.shiftl (Z.land (cur_post (sq qp)) 0xffff) 8) mlx5_op).

Definition _common_wqe_init_op (ib_op mlx5_op : Z) (s : mqp) : option mqp :=
  let qp := xq s in
  if mlx5_wq_overflow (sq qp) (nreq s) then Some (set_err s ENOMEM) else
  q ← fill_rings s (wr_data_of ib_op mlx5_op);
  let ctrl := mlx5_get_send_wqe qp (sq_idx (sq qp)) in
  let m := ctrl_start s (xm s) ctrl mlx5_op in
  Some (with_ctrl (with_xm (with_xq s (with_fm_cache (with_sq qp q) 0)) m) ctrl).

Definition _common_wqe_init (ib_op : Z) (s : mqp) : option mqp :=
  op ← mlx5_ib_opcode.[ib_op];
  _common_wqe_init_op ib_op op s.

Definition __wqe_finalize (s : mqp) : mqp :=
  let s := if wq_sig (xq s) then with_xm s (st8 (xm s) (cur_ctrl s + 8) (wq_sig_of (xm s) (cur_ctrl s))) else s in
  with_xq s (with_cur_post (xq s) (u32 (cur_post (sq (xq s)) + DIV_ROUND_UP (cur_size s) 4))).

Definition _common_wqe_finalize (s : mqp) : mqp :=
  __wqe_finalize
    (with_xm s (st_be 4 (xm s) (cur_ctrl s + 4) (Z.lor (cur_size s) (shlu 32 (qp_num (xq s)) 8)))).

(** The end of each setter of a request that needs two of them. *)
Definition count_setter (s : mqp) : mqp :=
  if cur_setters_cnt s =? WQE_REQ_SETTERS_UD_XRC_DC - 1 then _common_wqe_finalize s
  else with_setters s (u8 (cur_setters_cnt s + 1)).

(** ** Builders *)

Definition _mlx5_send_wr_send (ib_op : Z) (s : mqp) : option mqp :=
  s ← _common_wqe_init ib_op s;
  let t := qp_type (xq s) in
  let transport_seg_sz := if (t =? IBV_QPT_UD) || (t =? IBV_QPT_DRIVER) then sizeof_datagram
                          else if t =? IBV_QPT_XRC_SEND then sizeof_xrc else 0 in
  let s := with_data s (wrap_seg (xq s) (cur_ctrl s + sizeof_ctrl + transport_seg_sz)) in
  let s := with_size s ((sizeof_ctrl + transport_seg_sz) / 16) in
  Some (with_setters (with_nreq s (nreq s + 1)) 0).

Definition mlx5_send_wr_send_other (s : mqp) : option mqp := _mlx5_send_wr_send IBV_WR_SEND s.

(** The checksum offload flags of an Ethernet segment, refused when the queue
    pair does not support them; [true] to go on. *)
Definition eth_csum (s : mqp) (eseg : Z) : bool * mqp :=
  if has (wr_flags s) IBV_SEND_IP_CSUM then
    if negb (has (qp_cap_cache (xq s)) MLX5_CSUM_SUPPORT_RAW_OVER_ETH) then (false, set_err s EINVAL)
    else (true, with_xm s (or8 (xm s) (eseg + 4) (Z.lor MLX5_ETH_WQE_L3_CSUM MLX5_ETH_WQE_L4_CSUM)))
  else (true, s).

Definition mlx5_send_wr_send_eth (e : xenv) (s : mqp) : option mqp :=
  let inl_hdr_size := eth_min_inline_size (xctx e) in
  s ← _common_wqe_init IBV_WR_SEND s;
  let eseg := cur_ctrl s + sizeof_ctrl in
  let s := with_xm s (memset (xm s) eseg 0 sizeof_eth) in
  let s := if negb (inl_hdr_size =? 0) then with_eth s eseg else s in
  let '(ok, s) := eth_csum s eseg in
  if negb ok then Some s else
  let eseg_sz := Z.land (eth_inline_hdr + inl_hdr_size) (notu 64 0xf) in
  let s := with_data s (eseg + eseg_sz) in
  let s := with_size s (Z.shiftr (sizeof_ctrl + eseg_sz) 4) in
  Some (with_nreq s (nreq s + 1)).

Definition mlx5_send_wr_send_imm (imm_data : Z) (s : mqp) : option mqp :=
  s ← _mlx5_send_wr_send IBV_WR_SEND_WITH_IMM s;
  Some (with_xm s (st_le 4 (xm s) (cur_ctrl s + 12) imm_data)).

Definition mlx5_send_wr_send_inv (invalidate_rkey : Z) (s : mqp) : option mqp :=
  s ← _mlx5_send_wr_send IBV_WR_SEND_WITH_INV s;
  Some (with_xm s (st_be 4 (xm s) (cur_ctrl s + 12) invalidate_rkey)).

Definition mlx5_send_wr_send_tso (hdr hdr_sz mss : Z) (s : mqp) : option mqp :=
  s ← _common_wqe_init IBV_WR_TSO s;
  let eseg := cur_ctrl s + sizeof_ctrl in
  let s := with_xm s (memset (xm s) eseg 0 sizeof_eth) in
  let '(ok, s) := eth_csum s eseg in
  if negb ok then Some s else
  let '(err, w) := set_tso_eth_seg (xq s) (Wst (xm s) eseg 0 0 0 0 0 0 false) hdr hdr_sz mss in
  let s := with_xm s (wm w) in
  if negb (err =? 0) then Some (set_err s err) else
  let s := with_data s (seg w + sizeof_eth) in
  let s := with_size s (size w + Z.shiftr (sizeof_ctrl + sizeof_eth) 4) in
  Some (with_nreq (with_eth s 0) (nreq s + 1)).

(** The size of the segment between control and remote address. *)
Definition rdma_transport_sz (s : mqp) : Z :=
  let t := qp_type (xq s) in
  if t =? IBV_QPT_DRIVER then sizeof_datagram else if t =? IBV_QPT_XRC_SEND then sizeof_xrc else 0.

Definition _mlx5_send_wr_rdma (rkey remote_addr ib_op : Z) (s : mqp) : option mqp :=
  s ← _common_wqe_init ib_op s;
  let transport_seg_sz := rdma_transport_sz s in
  let raddr_seg := wrap_seg (xq s) (cur_ctrl s + sizeof_ctrl + transport_seg_sz) in
  let s := with_xm s (set_raddr_seg (xm s) raddr_seg remote_addr rkey) in
  let s := with_data s (raddr_seg + sizeof_raddr) in
  let s := with_size s ((sizeof_ctrl + transport_seg_sz + sizeof_raddr) / 16) in
  Some (with_setters (with_nreq s (nreq s + 1)) 0).

Definition mlx5_send_wr_rdma_write (rkey remote_addr : Z) (s : mqp) : option mqp :=
  _mlx5_send_wr_rdma rkey remote_addr IBV_WR_RDMA_WRITE s.

Definition mlx5_send_wr_rdma_write_imm (rkey remote_addr imm_data : Z) (s : mqp) : option mqp :=
  s ← _mlx5_send_wr_rdma rkey remote_addr IBV_WR_RDMA_WRITE_WITH_IMM s;
  Some (with_xm s (st_le 4 (xm s) (cur_ctrl s + 12) imm_data)).

Definition mlx5_send_wr_rdma_read (rkey remote_addr : Z) (s : mqp) : option mqp :=
  _mlx5_send_wr_rdma rkey remote_addr IBV_WR_RDMA_READ s.

Definition _mlx5_send_wr_atomic (rkey remote_addr compare_add swap ib_op : Z) (s : mqp) : option mqp :=
  s ← _common_wqe_init ib_op s;
  let transport_seg_sz := rdma_transport_sz s in
  let raddr_seg := wrap_seg (xq s) (cur_ctrl s + sizeof_ctrl + transport_seg_sz) in
  let s := with_xm s (set_raddr_seg (xm s) raddr_seg remote_addr rkey) in
  let s := with_xm s (set_atomic_seg (xm s) (raddr_seg + sizeof_raddr) ib_op swap compare_add) in
  let s := with_data s (wrap_seg (xq s) (raddr_seg + sizeof_raddr + sizeof_atomic)) in
  let s := with_size s ((sizeof_ctrl + transport_seg_sz + sizeof_raddr + sizeof_atomic) / 16) in
  Some (with_setters (with_nreq s (nreq s + 1)) 0).

Definition mlx5_send_wr_atomic_cmp_swp (rkey remote_addr compare swap : Z) (s : mqp) : option mqp :=
  _mlx5_send_wr_atomic rkey remote_addr compare swap IBV_WR_ATOMIC_CMP_AND_SWP s.

Definition mlx5_send_wr_atomic_fetch_add (rkey remote_addr add : Z) (s : mqp) : option mqp :=
  _mlx5_send_wr_atomic rkey remote_addr add 0 IBV_WR_ATOMIC_FETCH_AND_ADD s.

Definition _build_umr_wqe (orig_rkey new_rkey : Z) (bi : ibv_mw_bind_info) (ib_op : Z) (s : mqp) : option mqp :=
  s ← _common_wqe_init ib_op s;
  let s := with_xm s (st_be 4 (xm s) (cur_ctrl s + 12) orig_rkey) in
  let '(err, w) := set_bind_wr (xq s)
    (Wst (xm s) (cur_ctrl s + sizeof_ctrl) (sizeof_ctrl / 16) 0 0 0 0 0 false) IBV_MW_TYPE_2 new_rkey bi in
  let s := with_xm s (wm w) in
  if negb (err =? 0) then Some (set_err s err) else
  let s := with_size s (size w) in
  let s := with_xq s (with_fm_cache (xq s) MLX5_WQE_CTRL_INITIATOR_SMALL_FENCE) in
  Some (_common_wqe_finalize (with_nreq s (nreq s + 1))).

Definition mlx5_send_wr_bind_mw (mw_rkey rkey : Z) (bi : ibv_mw_bind_info) (s : mqp) : option mqp :=
  _build_umr_wqe mw_rkey rkey bi IBV_WR_BIND_MW s.

Definition mlx5_send_wr_local_inv (invalidate_rkey : Z) (s : mqp) : option mqp :=
  _build_umr_wqe invalidate_rkey 0 (BindInfo 0 0 0 0) IBV_WR_LOCAL_INV s.

(** ** Data setters *)

(** The first [n] elements of a caller's array; reading past it is undefined. *)
Definition first_n {A} (n : Z) (l : list A) : option (list A) :=
  if n <=? alen l then Some (take (Z.to_nat n) l) else None.

Definition put_data_seg (m : mem) (dseg length lkey addr : Z) : mem :=
  let m := st_be 4 m dseg length in
  let m := st_be 4 m (dseg + 4) lkey in
  st_be 8 m (dseg + 8) addr.

Definition _mlx5_send_wr_set_sge (lkey addr length : Z) (s : mqp) : mqp :=
  if length =? 0 then s
  else with_size (with_xm s (put_data_seg (xm s) (cur_data s) length lkey addr)) (cur_size s + sizeof_data / 16).

Definition mlx5_send_wr_set_sge_rc_uc (lkey addr length : Z) (s : mqp) : mqp :=
  _common_wqe_finalize (_mlx5_send_wr_set_sge lkey addr length s).

Definition mlx5_send_wr_set_sge_ud_xrc_dc (lkey addr length : Z) (s : mqp) : mqp :=
  count_setter (_mlx5_send_wr_set_sge lkey addr length s).

Definition mlx5_send_wr_set_sge_eth (e : xenv) (lkey addr length : Z) (s : mqp) : mqp :=
  if negb (cur_eth s =? 0) then
    let '(err, (m, _, offset)) := copy_eth_inline_headers (xctx e) (xm s) [(addr, length)] (cur_eth s) in
    let s := with_xm s m in
    if negb (err =? 0) then set_err s err
    else _common_wqe_finalize (_mlx5_send_wr_set_sge lkey (u64 (addr + offset)) (u32 (length - offset)) s)
  else _common_wqe_finalize (_mlx5_send_wr_set_sge lkey addr length s).

(** The gather loop: the memory and [cur_size]. *)
Fixpoint set_sge_loop (qp : mlx5_qp) (sges : list ibv_sge) (m : mem) (dseg sz : Z) : mem * Z :=
  match sges with
  | [] => (m, sz)
  | g :: sges' =>
    let dseg := wrap_seg qp dseg in
    if sg_length g =? 0 then set_sge_loop qp sges' m dseg sz
    else set_sge_loop qp sges' (put_data_seg m dseg (sg_length g) (sg_lkey g) (sg_addr g))
           (dseg + sizeof_data) (sz + sizeof_data / 16)
  end.

Definition _mlx5_send_wr_set_sge_list (num_sge : Z) (sgl : list ibv_sge) (s : mqp) : option mqp :=
  if max_gs (sq (xq s)) <? num_sge then Some (set_err s ENOMEM) else
  sges ← first_n num_sge sgl;
  let '(m, sz) := set_sge_loop (xq s) sges (xm s) (cur_data s) (cur_size s) in
  Some (with_size (with_xm s m) sz).

Definition mlx5_send_wr_set_sge_list_rc_uc (num_sge : Z) (sgl : list ibv_sge) (s : mqp) : option mqp :=
  s ← _mlx5_send_wr_set_sge_list num_sge sgl s; Some (_common_wqe_finalize s).

Definition mlx5_send_wr_set_sge_list_ud_xrc_dc (num_sge : Z) (sgl : list ibv_sge) (s : mqp) : option mqp :=
  s ← _mlx5_send_wr_set_sge_list num_sge sgl s; Some (count_setter s).

(** The gather loop behind the inlined headers, from entry [index] on; only
    the first entry written starts at [offset]. *)
Fixpoint set_sge_eth_loop (qp : mlx5_qp) (sges : list ibv_sge) (offset : Z) (m : mem) (dseg sz : Z) : mem * Z :=
  match sges with
  | [] => (m, sz)
  | g :: sges' =>
    let length := u32 (sg_length g - offset) in
    if length =? 0 then set_sge_eth_loop qp sges' offset m dseg sz
    else
      let dseg := wrap_seg qp dseg in
      set_sge_eth_loop qp sges' 0 (put_data_seg m dseg length (sg_lkey g) (sg_addr g + offset))
        (dseg + sizeof_data) (sz + sizeof_data / 16)
  end.

Definition mlx5_send_wr_set_sge_list_eth (e : xenv) (num_sge : Z) (sgl : list ibv_sge) (s : mqp) : option mqp :=
  if max_gs (sq (xq s)) <? num_sge then Some (set_err s ENOMEM) else
  sges ← first_n num_sge sgl;
  let '(err, (m, index, offset)) :=
    if negb (cur_eth s =? 0)
    then copy_eth_inline_headers (xctx e) (xm s) (map (fun g => (sg_addr g, sg_length g)) sges) (cur_eth s)
    else (0, (xm s, 0, 0)) in
  let s := with_xm s m in
  if negb (err =? 0) then Some (set_err s err) else
  let '(m, sz) := set_sge_eth_loop (xq s) (drop (Z.to_nat index) sges) offset (xm s) (cur_data s) (cur_size s) in
  Some (_common_wqe_finalize (with_size (with_xm s m) sz)).

(** ** Inline data setters *)

(** A copy of [n] bytes that continues at the start of the queue; a
    destination past the end gives a negative count, a [memcpy] out of
    bounds. *)
Definition memcpy_to_wqe_and_update (qp : mlx5_qp) (m : mem) (dest src n : Z) : option (mem * Z) :=
  if qend (sq qp) <? dest + n then
    let copy := qend (sq qp) - dest in
    if copy <? 0 then None else
    let m := memcpy m dest src copy in
    let dest := mlx5_get_send_wqe qp 0 in
    Some (memcpy m dest (src + copy) (n - copy), dest + (n - copy))
  else Some (memcpy m dest src n, dest + n).

Definition memcpy_to_wqe (qp : mlx5_qp) (m : mem) (dest src n : Z) : option mem :=
  if qend (sq qp) <? dest + n then
    let copy := qend (sq qp) - dest in
    if copy <? 0 then None else
    let m := memcpy m dest src copy in
    Some (memcpy m (mlx5_get_send_wqe qp 0) (src + copy) (n - copy))
  else Some (memcpy m dest src n).

(** The header of the inline segment and the size of the WQE. *)
Definition inline_header (s : mqp) (length : Z) : mqp :=
  with_size (with_xm s (st_be 4 (xm s) (cur_data s) (Z.lor length MLX5_INLINE_SEG)))
    (u32 (cur_size s + DIV_ROUND_UP (length + 4) 16)).

Definition _mlx5_send_wr_set_inline_data (addr length : Z) (s : mqp) : option mqp :=
  if max_inline_data (xq s) <? length then Some (set_err s ENOMEM) else
  let s := with_inl_wqe s true in
  if length =? 0 then Some s else
  m ← memcpy_to_wqe (xq s) (xm s) (cur_data s + 4) addr length;
  Some (inline_header (with_xm s m) length).

Definition mlx5_send_wr_set_inline_data_rc_uc (addr length : Z) (s : mqp) : option mqp :=
  s ← _mlx5_send_wr_set_inline_data addr length s; Some (_common_wqe_finalize s).

Definition mlx5_send_wr_set_inline_data_ud_xrc_dc (addr length : Z) (s : mqp) : option mqp :=
  s ← _mlx5_send_wr_set_inline_data addr length s; Some (count_setter s).

Definition mlx5_send_wr_set_inline_data_eth (e : xenv) (addr length : Z) (s : mqp) : option mqp :=
  if negb (cur_eth s =? 0) then
    let '(err, (m, _, offset)) := copy_eth_inline_headers (xctx e) (xm s) [(addr, length)] (cur_eth s) in
    let s := with_xm s m in
    if negb (err =? 0) then Some (set_err s err)
    else s ← _mlx5_send_wr_set_inline_data (addr + offset) (u64 (length - offset)) s; Some (_common_wqe_finalize s)
  else s ← _mlx5_send_wr_set_inline_data addr length s; Some (_common_wqe_finalize s).

(** The copy loop over a list of buffers (address and length): the error, the
    memory and the bytes copied.  [offset] applies to the first buffer. *)
Fixpoint inline_list_loop (qp : mlx5_qp) (too_long : Z) (bufs : list (Z * Z)) (offset : Z) (m : mem) (wqe inl_size : Z)
  : option (Z * (mem * Z)) :=
  match bufs with
  | [] => Some (0, (m, inl_size))
  | (addr, len) :: bufs' =>
    let length := u64 (len - offset) in
    let inl_size := u64 (inl_size + length) in
    if max_inline_data qp <? inl_size then Some (too_long, (m, inl_size)) else
    r ← memcpy_to_wqe_and_update qp m wqe (addr + offset) length;
    inline_list_loop qp too_long bufs' 0 (fst r) (snd r) inl_size
  end.

Definition _mlx5_send_wr_set_inline_data_list (num_buf : Z) (buf_list : list (Z * Z)) (s : mqp) : option mqp :=
  bufs ← first_n num_buf buf_list;
  r ← inline_list_loop (xq s) ENOMEM bufs 0 (xm s) (cur_data s + 4) 0;
  let '(err, (m, inl_size)) := r in
  let s := with_xm s m in
  if negb (err =? 0) then Some (set_err s err) else
  let s := with_inl_wqe s true in
  if inl_size =? 0 then Some s else Some (inline_header s inl_size).

Definition mlx5_send_wr_set_inline_data_list_rc_uc (num_buf : Z) (bufs : list (Z * Z)) (s : mqp) : option mqp :=
  s ← _mlx5_send_wr_set_inline_data_list num_buf bufs s; Some (_common_wqe_finalize s).

Definition mlx5_send_wr_set_inline_data_list_ud_xrc_dc (num_buf : Z) (bufs : list (Z * Z)) (s : mqp) : option mqp :=
  s ← _mlx5_send_wr_set_inline_data_list num_buf bufs s; Some (count_setter s).

Definition mlx5_send_wr_set_inline_data_list_eth (e : xenv) (num_buf : Z) (buf_list : list (Z * Z)) (s : mqp) : option mqp :=
  bufs ← first_n num_buf buf_list;
  let '(err, (m, index, offset)) :=
    if negb (cur_eth s =? 0) then copy_eth_inline_headers (xctx e) (xm s) bufs (cur_eth s)
    else (0, (xm s, 0, 0)) in
  let s := with_xm s m in
  if negb (err =? 0) then Some (set_err s err) else
  r ← inline_list_loop (xq s) EINVAL (drop (Z.to_nat index) bufs) offset (xm s) (cur_data s + 4) 0;
  let '(err, (m, inl_size)) := r in
  let s := with_xm s m in
  if negb (err =? 0) then Some (set_err s err) else
  let s := if negb (inl_size =? 0) then inline_header s inl_size else s in
  Some (_common_wqe_finalize (with_inl_wqe s true)).

(** ** Address setters *)

Definition mlx5_send_wr_set_ud_addr (av remote_qpn remote_qkey : Z) (s : mqp) : mqp :=
  count_setter (with_xm s (_set_datagram_seg (xm s) (cur_ctrl s + sizeof_ctrl) av remote_qpn remote_qkey)).

Definition mlx5_send_wr_set_xrc_srqn (remote_srqn : Z) (s : mqp) : mqp :=
  count_setter (with_xm s (st_be 4 (xm s) (cur_ctrl s + sizeof_ctrl) remote_srqn)).

Definition mlx5_send_wr_set_dc_addr (av remote_dctn remote_dc_key : Z) (s : mqp) : mqp :=
  let dseg := cur_ctrl s + sizeof_ctrl in
  let m := memcpy (xm s) dseg av sizeof_datagram in
  let m := or_be 4 m (dseg + 8) (Z.lor remote_dctn MLX5_EXTENDED_UD_AV) in
  count_setter (with_xm s (st_be 8 m dseg remote_dc_key)).

Definition mlx5_send_wr_set_dc_addr_stream (av remote_dctn remote_dc_key stream_id : Z) (s : mqp) : mqp :=
  mlx5_send_wr_set_dc_addr av remote_dctn remote_dc_key
    (with_xm s (st_be 2 (xm s) (cur_ctrl s + 9) stream_id)).

(** ** Raw WQEs and DMA copies *)

Definition raw_wqe_init (s : mqp) : option mqp :=
  let qp := xq s in
  if mlx5_wq_overflow (sq qp) (nreq s) then Some (set_err s ENOMEM) else
  q ← fill_rings s IBV_WC_DRIVER2;
  Some (with_ctrl (with_xq s (with_fm_cache (with_sq qp q) 0)) (mlx5_get_send_wqe qp (sq_idx (sq qp)))).

Definition mlx5_wr_raw_wqe (wqe : Z) (s : mqp) : option mqp :=
  let ds := Z.land (ld_be 4 (xm s) (wqe + 4)) 0x3f in
  s ← raw_wqe_init s;
  let wq_left := qend (sq (xq s)) - cur_ctrl s in
  let m := if Z.shiftl ds 4 <=? wq_left then memcpy (xm s) (cur_ctrl s) wqe (Z.shiftl ds 4)
           else
             let m := memcpy (xm s) (cur_ctrl s) wqe wq_left in
             memcpy m (mlx5_get_send_wqe (xq s) 0) (wqe + wq_left) (Z.shiftl ds 4 - wq_left) in
  let m := st_be 4 m (cur_ctrl s)
    (Z.lor (Z.land (ld_be 4 m wqe) 0xff0000ff) (Z.shiftl (Z.land (cur_post (sq (xq s))) 0xffff) 8)) in
  let s := with_size (with_xm s m) ds in
  Some (__wqe_finalize (with_nreq s (nreq s + 1))).

Definition mlx5_wr_memcpy (e : xenv) (dest_lkey dest_addr src_lkey src_addr length : Z) (s : mqp) : option mqp :=
  if (length =? 0) || (dma_max_size e <? length) then Some (set_err s EINVAL) else
  let length := if length =? MLX5_DMA_MMO_MAX_SIZE then 0 else length in
  s ← _common_wqe_init_op (-1) MLX5_OPCODE_MMO s;
  let ctrl := cur_ctrl s in
  let m := st_be 4 (xm s) ctrl
    (Z.lor (Z.land (ld_be 4 (xm s) ctrl) 0xffffff) (Z.shiftl MLX5_OPC_MOD_MMO_DMA 24)) in
  let m := st_le 4 m (ctrl + 16) 0 in
  let m := st_be 4 m (ctrl + 20) (opaque_lkey e) in
  let m := st_be 8 m (ctrl + 24) (opaque_buf e) in
  let m := put_data_seg m (ctrl + 32) length src_lkey src_addr in
  let m := put_data_seg m (ctrl + 48) length dest_lkey dest_addr in
  let s := with_size (with_xm s m) 4 in
  Some (_common_wqe_finalize (with_nreq s (nreq s + 1))).

(** ** The function table of a queue pair

    The function pointers of [ibv_qp_ex] and [mlx5dv_qp_ex]: which family of
    builders and of setters is installed, and the single functions besides
    them.  A call through a pointer that was left [NULL] is undefined. *)

Inductive builders := builders_rc_xrc_dc | builders_uc | builders_ud | builders_eth.
Inductive setters := setters_rc_uc | setters_ud_xrc_dc | setters_eth.

Record pfns := Pfns {
  pf_builders : builders; pf_setters : setters;
  pf_ud_addr : bool; pf_xrc_srqn : bool; pf_dc_addr : bool;
  pf_mkey : bool; pf_memcpy : bool; pf_raw_wqe : bool }.

Definition IBV_QP_EX_WITH_RDMA_WRITE : Z := 2 ^ 0.
Definition IBV_QP_EX_WITH_RDMA_WRITE_WITH_IMM : Z := 2 ^ 1.
Definition IBV_QP_EX_WITH_SEND : Z := 2 ^ 2.
Definition IBV_QP_EX_WITH_SEND_WITH_IMM : Z := 2 ^ 3.
Definition IBV_QP_EX_WITH_RDMA_READ : Z := 2 ^ 4.
Definition IBV_QP_EX_WITH_ATOMIC_CMP_AND_SWP : Z := 2 ^ 5.
Definition IBV_QP_EX_WITH_ATOMIC_FETCH_AND_ADD : Z := 2 ^ 6.
Definition IBV_QP_EX_WITH_LOCAL_INV : Z := 2 ^ 7.
Definition IBV_QP_EX_WITH_BIND_MW : Z := 2 ^ 8.
Definition IBV_QP_EX_WITH_SEND_WITH_INV : Z := 2 ^ 9.
Definition IBV_QP_EX_WITH_TSO : Z := 2 ^ 10.
Definition MLX5DV_QP_EX_WITH_RAW_WQE : Z := 2 ^ 3.
Definition MLX5DV_QP_EX_WITH_MEMCPY : Z := 2 ^ 4.
Definition MLX5DV_QP_EX_ALL : Z := 2 ^ 5 - 1.
Definition MLX5DV_QP_INIT_ATTR_MASK_DC : Z := 2 ^ 1.
Definition MLX5DV_QP_INIT_ATTR_MASK_SEND_OPS_FLAGS : Z := 2 ^ 2.

Definition flags_or (l : list Z) : Z := fold_left Z.lor l 0.

Definition MLX5_SUPPORTED_SEND_OPS_FLAGS_UC : Z := flags_or
  [ IBV_QP_EX_WITH_SEND; IBV_QP_EX_WITH_SEND_WITH_INV; IBV_QP_EX_WITH_SEND_WITH_IMM; IBV_QP_EX_WITH_RDMA_WRITE;
    IBV_QP_EX_WITH_RDMA_WRITE_WITH_IMM; IBV_QP_EX_WITH_LOCAL_INV; IBV_QP_EX_WITH_BIND_MW ].
Definition MLX5_SUPPORTED_SEND_OPS_FLAGS_RC : Z := flags_or
  [ IBV_QP_EX_WITH_SEND; IBV_QP_EX_WITH_SEND_WITH_INV; IBV_QP_EX_WITH_SEND_WITH_IMM; IBV_QP_EX_WITH_RDMA_WRITE;
    IBV_QP_EX_WITH_RDMA_WRITE_WITH_IMM; IBV_QP_EX_WITH_RDMA_READ; IBV_QP_EX_WITH_ATOMIC_CMP_AND_SWP;
    IBV_QP_EX_WITH_ATOMIC_FETCH_AND_ADD; IBV_QP_EX_WITH_LOCAL_INV; IBV_QP_EX_WITH_BIND_MW ].
Definition MLX5_SUPPORTED_SEND_OPS_FLAGS_UD : Z := flags_or
  [ IBV_QP_EX_WITH_SEND; IBV_QP_EX_WITH_SEND_WITH_IMM ].
Definition MLX5_SUPPORTED_SEND_OPS_FLAGS_RAW_PACKET : Z := flags_or
  [ IBV_QP_EX_WITH_SEND; IBV_QP_EX_WITH_TSO ].

(** [mlx5dv_qp_init_attr], with the fields of its [dc_init_attr]. *)
Record dv_attr := DvAttr {
  dv_comp_mask : Z; dv_create_flags : Z; dv_send_ops_flags : Z;
  dv_dc_type : Z; dv_access_key : Z; dv_log_num_concurent : Z; dv_log_num_errored : Z }.

(** An error number, or the table. *)
Inductive fill_result := FillError (err : Z) | Filled (p : pfns).

(** [ops & ~supported] is not 0. *)
Definition beyond (ops supported : Z) : bool := negb (Z.land ops (notu 64 supported) =? 0).

Definition mlx5_qp_fill_wr_pfns (qp : mlx5_qp) (type ops : Z) (attr : option dv_attr) : option fill_result :=
  if negb (atomics_enabled qp) && (has ops IBV_QP_EX_WITH_ATOMIC_CMP_AND_SWP || has ops IBV_QP_EX_WITH_ATOMIC_FETCH_AND_ADD)
  then Some (FillError EOPNOTSUPP) else
  let mlx5_ops := match attr with
    | Some a => if has (dv_comp_mask a) MLX5DV_QP_INIT_ATTR_MASK_SEND_OPS_FLAGS then dv_send_ops_flags a else 0
    | None => 0
    end in
  let dv := negb (mlx5_ops =? 0) in
  if dv && beyond mlx5_ops MLX5DV_QP_EX_ALL then Some (FillError EOPNOTSUPP) else
  if type =? IBV_QPT_RC then
    if beyond ops MLX5_SUPPORTED_SEND_OPS_FLAGS_RC then Some (FillError EOPNOTSUPP)
    else Some (Filled (Pfns builders_rc_xrc_dc setters_rc_uc false false false dv dv dv))
  else if type =? IBV_QPT_UC then
    if beyond ops MLX5_SUPPORTED_SEND_OPS_FLAGS_UC || beyond mlx5_ops MLX5DV_QP_EX_WITH_RAW_WQE then Some (FillError EOPNOTSUPP)
    else Some (Filled (Pfns builders_uc setters_rc_uc false false false false false dv))
  else if type =? IBV_QPT_XRC_SEND then
    if beyond ops MLX5_SUPPORTED_SEND_OPS_FLAGS_RC || beyond mlx5_ops MLX5DV_QP_EX_WITH_RAW_WQE then Some (FillError EOPNOTSUPP)
    else Some (Filled (Pfns builders_rc_xrc_dc setters_ud_xrc_dc false true false false false dv))
  else if type =? IBV_QPT_UD then
    if beyond ops MLX5_SUPPORTED_SEND_OPS_FLAGS_UD || beyond mlx5_ops MLX5DV_QP_EX_WITH_RAW_WQE then Some (FillError EOPNOTSUPP)
    else if has (qp_flags qp) MLX5_QP_FLAGS_USE_UNDERLAY then Some (FillError EOPNOTSUPP)
    else Some (Filled (Pfns builders_ud setters_ud_xrc_dc true false false false false dv))
  else if type =? IBV_QPT_RAW_PACKET then
    if beyond ops MLX5_SUPPORTED_SEND_OPS_FLAGS_RAW_PACKET || beyond mlx5_ops MLX5DV_QP_EX_WITH_RAW_WQE then Some (FillError EOPNOTSUPP)
    else Some (Filled (Pfns builders_eth setters_eth false false false false false dv))
  else if type =? IBV_QPT_DRIVER then
    a ← attr;
    if negb (has (dv_comp_mask a) MLX5DV_QP_INIT_ATTR_MASK_DC && (dv_dc_type a =? MLX5DV_DCTYPE_DCI))
    then Some (FillError EOPNOTSUPP)
    else if beyond ops MLX5_SUPPORTED_SEND_OPS_FLAGS_RC ||
            beyond mlx5_ops (Z.lor MLX5DV_QP_EX_WITH_RAW_WQE MLX5DV_QP_EX_WITH_MEMCPY)
    then Some (FillError EOPNOTSUPP)
    else Some (Filled (Pfns builders_rc_xrc_dc setters_ud_xrc_dc false false true false true dv))
  else Some (FillError EOPNOTSUPP).

(** ** Batches as sequences of calls *)

Inductive ex_op :=
| SetWr (id flags : Z)
| WrSend | WrSendImm (imm_data : Z) | WrSendInv (rkey : Z) | WrSendTso (hdr hdr_sz mss : Z)
| WrRdmaWrite (rkey addr : Z) | WrRdmaWriteImm (rkey addr imm_data : Z) | WrRdmaRead (rkey addr : Z)
| WrAtomicCmpSwp (rkey addr compare swap : Z) | WrAtomicFetchAdd (rkey addr add : Z)
| WrBindMw (mw_rkey rkey : Z) (bi : ibv_mw_bind_info) | WrLocalInv (rkey : Z)
| WrSetSge (lkey addr length : Z) | WrSetSgeList (n : Z) (l : list ibv_sge)
| WrSetInline (addr length : Z) | WrSetInlineList (n : Z) (l : list (Z * Z))
| WrSetUdAddr (av qpn qkey : Z) | WrSetXrcSrqn (srqn : Z)
| WrSetDcAddr (av dctn key : Z) | WrSetDcAddrStream (av dctn key stream : Z)
| WrRawWqe (wqe : Z) | WrMemcpy (dest_lkey dest_addr src_lkey src_addr length : Z).

(** Members of all builder families but the Ethernet one, of the connected
    ones, and of those with reads and atomics. *)
Definition not_eth (b : builders) : bool := match b with builders_eth => false | _ => true end.
Definition connected (b : builders) : bool := match b with builders_rc_xrc_dc | builders_uc => true | _ => false end.
Definition reliable (b : builders) : bool := match b with builders_rc_xrc_dc => true | _ => false end.

Definition guard_pf (b : bool) (x : option mqp) : option mqp := if b then x else None.

Definition wr_builder (e : xenv) (p : pfns) (o : ex_op) (s : mqp) : option mqp :=
  let b := pf_builders p in
  match o with
  | WrSend => if not_eth b then mlx5_send_wr_send_other s else mlx5_send_wr_send_eth e s
  | WrSendImm i => guard_pf (not_eth b) (mlx5_send_wr_send_imm i s)
  | WrSendInv k => guard_pf (connected b) (mlx5_send_wr_send_inv k s)
  | WrSendTso h sz mss => guard_pf (negb (not_eth b)) (mlx5_send_wr_send_tso h sz mss s)
  | WrRdmaWrite k a => guard_pf (connected b) (mlx5_send_wr_rdma_write k a s)
  | WrRdmaWriteImm k a i => guard_pf (connected b) (mlx5_send_wr_rdma_write_imm k a i s)
  | WrRdmaRead k a => guard_pf (reliable b) (mlx5_send_wr_rdma_read k a s)
  | WrAtomicCmpSwp k a c w => guard_pf (reliable b) (mlx5_send_wr_atomic_cmp_swp k a c w s)
  | WrAtomicFetchAdd k a v => guard_pf (reliable b) (mlx5_send_wr_atomic_fetch_add k a v s)
  | WrBindMw mk k bi => guard_pf (connected b) (mlx5_send_wr_bind_mw mk k bi s)
  | WrLocalInv k => guard_pf (connected b) (mlx5_send_wr_local_inv k s)
  | _ => None
  end.

Definition wr_setter (e : xenv) (p : pfns) (o : ex_op) (s : mqp) : option mqp :=
  match o, pf_setters p with
  | WrSetSge k a n, setters_rc_uc => Some (mlx5_send_wr_set_sge_rc_uc k a n s)
  | WrSetSge k a n, setters_ud_xrc_dc => Some (mlx5_send_wr_set_sge_ud_xrc_dc k a n s)
  | WrSetSge k a n, setters_eth => Some (mlx5_send_wr_set_sge_eth e k a n s)
  | WrSetSgeList n l, setters_rc_uc => mlx5_send_wr_set_sge_list_rc_uc n l s
  | WrSetSgeList n l, setters_ud_xrc_dc => mlx5_send_wr_set_sge_list_ud_xrc_dc n l s
  | WrSetSgeList n l, setters_eth => mlx5_send_wr_set_sge_list_eth e n l s
  | WrSetInline a n, setters_rc_uc => mlx5_send_wr_set_inline_data_rc_uc a n s
  | WrSetInline a n, setters_ud_xrc_dc => mlx5_send_wr_set_inline_data_ud_xrc_dc a n s
  | WrSetInline a n, setters_eth => mlx5_send_wr_set_inline_data_eth e a n s
  | WrSetInlineList n l, setters_rc_uc => mlx5_send_wr_set_inline_data_list_rc_uc n l s
  | WrSetInlineList n l, setters_ud_xrc_dc => mlx5_send_wr_set_inline_data_list_ud_xrc_dc n l s
  | WrSetInlineList n l, setters_eth => mlx5_send_wr_set_inline_data_list_eth e n l s
  | _, _ => None
  end.

Definition ex_step (e : xenv) (p : pfns) (o : ex_op) (s : mqp) : option mqp :=
  match o with
  | SetWr id flags => Some (with_wr s id flags)
  | WrSetUdAddr av q k => guard_pf (pf_ud_addr p) (Some (mlx5_send_wr_set_ud_addr av q k s))
  | WrSetXrcSrqn n => guard_pf (pf_xrc_srqn p) (Some (mlx5_send_wr_set_xrc_srqn n s))
  | WrSetDcAddr av d k => guard_pf (pf_dc_addr p) (Some (mlx5_send_wr_set_dc_addr av d k s))
  | WrSetDcAddrStream av d k st => guard_pf (pf_dc_addr p) (Some (mlx5_send_wr_set_dc_addr_stream av d k st s))
  | WrRawWqe w => guard_pf (pf_raw_wqe p) (mlx5_wr_raw_wqe w s)
  | WrMemcpy dk da sk sa n => guard_pf (pf_memcpy p) (mlx5_wr_memcpy e dk da sk sa n s)
  | WrSetSge _ _ _ | WrSetSgeList _ _ | WrSetInline _ _ | WrSetInlineList _ _ => wr_setter e p o s
  | _ => wr_builder e p o s
  end.

Fixpoint ex_run (e : xenv) (p : pfns) (ops : list ex_op) (s : mqp) : option mqp :=
  match ops with
  | [] => Some s
  | o :: ops' => s ← ex_step e p o s; ex_run e p ops' s
  end.

(** A whole batch: start, calls, complete. *)
Definition ex_batch (e : xenv) (p : pfns) (ops : list ex_op) (s : mqp) : option (Z * mqp * list mmio_event) :=
  s ← ex_run e p ops (mlx5_send_wr_start s);
  Some (mlx5_send_wr_complete e s).
