(* ===== verification/NewSendSpec.v ===== *)
(** The contract of the extended posting interface.

    A batch that is completed with an error, or aborted, is rolled back; a
    batch of requests on a reliable connection leaves them in the ring as
    [_mlx5_post_send] would.  The last theorems are about the two ways
    in which a batch writes where it should not. *)

From S2P Require Import Prelude Util Mem Wqe PostSend PostSendSpec NewSend.

(** ** What a batch leaves alone *)

(** The configuration of a queue pair: without the fields a batch changes (the
    software rings, the posting index and the cached fence), of which
    [rings_kept] speaks. *)
Definition norm (qp : mlx5_qp) : mlx5_qp :=
  with_fm_cache (with_sq qp (with_wr_data (with_post (sq qp) [] [] 0) [])) 0.

Definition core (s : mqp) : Z * Z * mlx5_qp := (cur_post_rb s, fm_cache_rb s, norm (xq s)).

(** [s'] has the saved fields and the configuration of [s], and its error. *)
Definition kept (s s' : mqp) : Prop := core s' = core s /\ (perr s <> 0 -> perr s' = perr s).

(** ** Batches of requests *)

(** The opcodes that carry an immediate or a key to invalidate. *)
Definition with_imm (w : ibv_send_wr) : bool :=
  (opcode w =? IBV_WR_SEND_WITH_IMM) || (opcode w =? IBV_WR_RDMA_WRITE_WITH_IMM) || (opcode w =? IBV_WR_SEND_WITH_INV).

(** The calls that build the request [w]. *)
Definition builder_of (w : ibv_send_wr) : ex_op :=
  if opcode w =? IBV_WR_RDMA_WRITE then WrRdmaWrite (rdma_rkey w) (rdma_remote_addr w)
  else if opcode w =? IBV_WR_RDMA_WRITE_WITH_IMM then WrRdmaWriteImm (rdma_rkey w) (rdma_remote_addr w) (imm w)
  else if opcode w =? IBV_WR_RDMA_READ then WrRdmaRead (rdma_rkey w) (rdma_remote_addr w)
  else if opcode w =? IBV_WR_ATOMIC_CMP_AND_SWP
  then WrAtomicCmpSwp (atomic_rkey w) (atomic_remote_addr w) (atomic_compare_add w) (atomic_swap w)
  else if opcode w =? IBV_WR_ATOMIC_FETCH_AND_ADD
  then WrAtomicFetchAdd (atomic_rkey w) (atomic_remote_addr w) (atomic_compare_add w)
  else if opcode w =? IBV_WR_SEND_WITH_IMM then WrSendImm (imm w)
  else if opcode w =? IBV_WR_SEND_WITH_INV then WrSendInv (imm w)
  else WrSend.

Definition calls_of (w : ibv_send_wr) : list ex_op :=
  [SetWr (wr_id w) (send_flags w); builder_of w; WrSetSgeList (num_sge w) (sg_list w)].

Definition batch_of (wrs : list ibv_send_wr) : list ex_op := flat_map calls_of wrs.

(** A request the interface builds: within [max_gs], and the buffers of an
    atomic are of its operand's size, which [_mlx5_post_send] puts itself. *)
Record ex_request (qp : mlx5_qp) (w : ibv_send_wr) : Prop := {
  er_rc : rc_request qp w;
  er_gs : num_sge w <= max_gs (sq qp);
  er_atomic : is_atomic w = true -> Forall (fun g => sg_length g = 0 \/ sg_length g = MLX5_ATOMIC_SIZE) (sg_list w) }.

(** [w] is in the ring at slot [p], but for the immediate of a request that
    has none: its field keeps what was there. *)
Definition built (qp : mlx5_qp) (m : mem) (p : Z) (w : ibv_send_wr) (fence : Z) : Prop :=
  encodes qp (st_le 4 m (ring qp (64 * p) + 12) (send_ieth w)) p w fence /\
  (with_imm w = true -> ld_le 4 m (ring qp (64 * p) + 12) = send_ieth w).

Fixpoint chain_built (qp : mlx5_qp) (m : mem) (p fence : Z) (wrs : list ibv_send_wr) : Prop :=
  match wrs with
  | [] => True
  | w :: wrs' =>
    built qp m p w (if has (send_flags w) IBV_SEND_FENCE then MLX5_WQE_CTRL_FENCE else fence) /\
    chain_built qp m (p + slots w) 0 wrs'
  end.

(** The room a batch needs, and a doorbell record that is not in the ring. *)
Record ex_fits (qp : mlx5_qp) (wrs : list ibv_send_wr) : Prop := {
  ef_sq : sq_ok qp;
  ef_rc : qp_type qp = IBV_QPT_RC;
  ef_reqs : Forall (ex_request qp) wrs;
  ef_max : in_width 32 (max_post (sq qp));
  ef_post : outstanding qp + alen wrs <= max_post (sq qp);
  ef_slots : total_slots wrs <= wqe_cnt (sq qp);
  ef_db : db qp + 8 <= sq_start qp \/ qend (sq qp) <= db qp }.

(** A request with more gather entries than the queue pair takes: its call
    fails, and the WQE is finished without any. *)
Definition too_many (qp : mlx5_qp) (w : ibv_send_wr) : bool := max_gs (sq qp) <? num_sge w.
Definition without_sges (w : ibv_send_wr) : ibv_send_wr :=
  SendWr (wr_id w) [] 0 (opcode w) (send_flags w) (imm w) (w0 w) (w1 w) (w2 w) (w3 w) (remote_srqn w)
    (mw_type w) (mw_rkey w) (bind_rkey w) (bind_info w) (tso_hdr w) (tso_hdr_sz w) (tso_mss w).
Definition fit (qp : mlx5_qp) (w : ibv_send_wr) : ibv_send_wr := if too_many qp w then without_sges w else w.

(** The index [i] of the software rings is that of one of the [n] slots from [p] on. *)
Definition in_slots (qp : mlx5_qp) (p n i : Z) : Prop :=
  exists k, 0 <= k < n /\ i = Z.land (u32 (p + k)) (u32 (wqe_cnt (sq qp) - 1)).

(** The software rings keep their entries elsewhere. *)
Record rings_kept (used : Z -> Prop) (q q' : mlx5_wq) : Prop := {
  rk_ids : forall i, ~ used i -> (wrid q').[i] = (wrid q).[i];
  rk_heads : forall i, ~ used i -> (wqe_head q').[i] = (wqe_head q).[i];
  rk_data : forall i, ~ used i -> (wr_data q').[i] = (wr_data q).[i] }.

(** The WQE built last is at slot [q] of the ring. *)
Definition last_built_at (s : mqp) (q : Z) : Prop := cur_ctrl s = ring (xq s) (64 * q).

(** The next WQE goes to the last slot but one. *)
Definition at_last_but_one (s : mqp) : Prop := sq_idx (sq (xq s)) = wqe_cnt (sq (xq s)) - 2.

(** The function table of a reliable connection, and sample states. *)
Definition rc_pfns : pfns := Pfns builders_rc_xrc_dc setters_rc_uc false false false false false false.
Definition eth_pfns : pfns := Pfns builders_eth setters_eth false false false false false false.
Definition sample_tso_qp (cur : Z) : mlx5_qp :=
  Qp IBV_QPT_RAW_PACKET 7 3 0x1000 0 (Bf 0x8000 0 256 1) 0 0 0x1000
    (Wq [0;0;0;0] [0;0;0;0] 4 4 0 0 cur 4 4 6 0 0x1100 [0;0;0;0]) 0x2000
    (Wq [] [] 0 0 0 0 0 0 0 0 0 0 []) false 0 true 0 256 0.
Definition sample_env : xenv := Xenv sample_ctx 0 0 0.
Definition sample_mqp (qp : mlx5_qp) : mqp := Mqp qp ∅ 0 0 0 0 0 0 false 0 0 0 0 0.

(** ** Rolling back *)

#[export] Instance kept_refl : Reflexive kept.
Proof. by intros s. Qed.

#[export] Instance kept_trans : Transitive kept.
Proof. intros s1 s2 s3 [C1 E1] [C2 E2]. split; [congruence|]. intros H. rewrite E2, E1; try done. by rewrite E1. Qed.

Lemma kept_set_err s s' e : kept s s' -> kept s (set_err s' e).
Proof.
  intros [C E]. unfold set_err. destruct (Z.eqb_spec (perr s') 0) as [E0|]; [|done].
  split; [done|]. intros H. exfalso. apply H. rewrite <- E0. symmetry. by apply E.
Qed.

Lemma kept_finalize s s' : kept s s' -> kept s (_common_wqe_finalize s').
Proof. intros [C E]. unfold _common_wqe_finalize, __wqe_finalize. cbn [xq with_xm]. by destruct (wq_sig (xq s')). Qed.

Lemma kept_finalize_raw s s' : kept s s' -> kept s (__wqe_finalize s').
Proof. intros [C E]. unfold __wqe_finalize. by destruct (wq_sig (xq s')). Qed.

Lemma kept_count s s' : kept s s' -> kept s (count_setter s').
Proof. intros H. unfold count_setter. destruct (_ =? _); [by apply kept_finalize|by destruct H]. Qed.

Lemma fill_rings_norm s d q :
  fill_rings s d = Some q -> norm (with_fm_cache (with_sq (xq s) q) 0) = norm (xq s).
Proof. unfold fill_rings. intros H. inv_bind. done. Qed.

Lemma kept_init_op ib op s s' : _common_wqe_init_op ib op s = Some s' -> kept s s'.
Proof.
  unfold _common_wqe_init_op. destruct (mlx5_wq_overflow _ _); intros H; inv_bind; [by apply kept_set_err|].
  split; [|done]. unfold core. cbn. erewrite fill_rings_norm; done.
Qed.

Lemma kept_init ib s s' : _common_wqe_init ib s = Some s' -> kept s s'.
Proof. unfold _common_wqe_init. intros H. inv_bind. by eapply kept_init_op. Qed.

Create HintDb kept discriminated.
#[export] Hint Resolve kept_set_err kept_finalize kept_finalize_raw kept_count : kept.

(** Follows a computation to its result, step by step. *)
Ltac kept_step :=
  match goal with
  | H : ?x ≫= _ = Some _ |- _ => apply bind_Some in H; destruct H as (? & ? & H)
  | H : Some _ = Some _ |- _ => injection H as <-
  | H : None = Some _ |- _ => discriminate H
  | H : context [if negb ?b then _ else _] |- _ => destruct b; cbn [negb] in H
  | H : context [match ?x with (_, _) => _ end] |- _ => destruct x eqn:?
  | H : (if ?b then _ else _) = Some _ |- _ => destruct b
  | H : _common_wqe_init _ _ = Some _ |- _ => apply kept_init in H
  | H : _common_wqe_init_op _ _ _ = Some _ |- _ => apply kept_init_op in H
  end.

Lemma kept_rdma k a op s s' : _mlx5_send_wr_rdma k a op s = Some s' -> kept s s'.
Proof. unfold _mlx5_send_wr_rdma. intros H. repeat kept_step. by destruct H0. Qed.

Lemma kept_atomic k a c w op s s' : _mlx5_send_wr_atomic k a c w op s = Some s' -> kept s s'.
Proof. unfold _mlx5_send_wr_atomic. intros H. repeat kept_step. by destruct H0. Qed.

Lemma kept_send op s s' : _mlx5_send_wr_send op s = Some s' -> kept s s'.
Proof. unfold _mlx5_send_wr_send. intros H. repeat kept_step. by destruct H0. Qed.

Lemma kept_csum s eseg b s' s0 : eth_csum s eseg = (b, s') -> kept s0 s -> kept s0 s'.
Proof.
  unfold eth_csum. destruct (has _ _); [destruct (negb _)|]; intros H; injection H as <- <-; intros K; auto with kept.
Qed.

Lemma kept_eth e s s' : mlx5_send_wr_send_eth e s = Some s' -> kept s s'.
Proof.
  unfold mlx5_send_wr_send_eth. intros H. apply bind_Some in H as (s1 & K%kept_init & H).
  match type of H with context [eth_csum ?t ?a] => destruct (eth_csum t a) as [b s2] eqn:Hc; assert (kept s t) as K2 end.
  { by destruct K, (eth_min_inline_size _ =? 0). }
  apply (kept_csum _ _ _ _ s) in Hc; [|done]. destruct b; cbn [negb] in H; injection H as <-; [by destruct Hc|done].
Qed.

Lemma kept_tso h sz mss s s' : mlx5_send_wr_send_tso h sz mss s = Some s' -> kept s s'.
Proof.
  unfold mlx5_send_wr_send_tso. intros H. apply bind_Some in H as (s1 & K%kept_init & H).
  match type of H with context [eth_csum ?t ?a] => destruct (eth_csum t a) as [b s2] eqn:Hc end.
  apply (kept_csum _ _ _ _ s) in Hc; [|by destruct K]. destruct b; cbn [negb] in H; [|by injection H as <-].
  destruct (set_tso_eth_seg _ _ _ _ _) as [err w]. destruct (err =? 0); cbn [negb] in H; injection H as <-.
  - by destruct Hc.
  - apply kept_set_err. by destruct Hc.
Qed.

Lemma kept_umr a b bi op s s' : _build_umr_wqe a b bi op s = Some s' -> kept s s'.
Proof.
  unfold _build_umr_wqe. intros H. apply bind_Some in H as (s1 & K%kept_init & H).
  destruct (set_bind_wr _ _ _ _ _) as [err w]. destruct (err =? 0); cbn [negb] in H; injection H as <-.
  - apply kept_finalize. by destruct K.
  - apply kept_set_err. by destruct K.
Qed.

Lemma kept_builder e p o s s' : wr_builder e p o s = Some s' -> kept s s'.
Proof.
  unfold wr_builder, guard_pf. destruct o; try done;
    try (destruct (not_eth _)); try (destruct (connected _)); try (destruct (reliable _)); try done; cbn [negb];
    unfold mlx5_send_wr_send_other, mlx5_send_wr_send_imm, mlx5_send_wr_send_inv, mlx5_send_wr_rdma_write,
      mlx5_send_wr_rdma_write_imm, mlx5_send_wr_rdma_read, mlx5_send_wr_atomic_cmp_swp,
      mlx5_send_wr_atomic_fetch_add, mlx5_send_wr_bind_mw, mlx5_send_wr_local_inv; intros H;
    try first [by eapply kept_send | by eapply kept_eth | by eapply kept_tso | by eapply kept_rdma | by eapply kept_atomic | by eapply kept_umr];
    apply bind_Some in H as (s1 & K & H); injection H as <-; (apply kept_send in K || apply kept_rdma in K); by destruct K.
Qed.

Lemma kept_set_sge k a n s s' : kept s s' -> kept s (_mlx5_send_wr_set_sge k a n s').
Proof. intros [C E]. unfold _mlx5_send_wr_set_sge. by destruct (_ =? _). Qed.

Lemma kept_set_sge_list n l s s' : _mlx5_send_wr_set_sge_list n l s = Some s' -> kept s s'.
Proof.
  unfold _mlx5_send_wr_set_sge_list. intros H. destruct (_ <? _); [injection H as <-; by apply kept_set_err|].
  apply bind_Some in H as (sges & _ & H). destruct (set_sge_loop _ _ _ _ _). by injection H as <-.
Qed.

Lemma kept_inline a n s s' : _mlx5_send_wr_set_inline_data a n s = Some s' -> kept s s'.
Proof.
  unfold _mlx5_send_wr_set_inline_data. intros H. destruct (_ <? _); [injection H as <-; by apply kept_set_err|].
  destruct (_ =? _); [by injection H as <-|]. apply bind_Some in H as (m & _ & H). by injection H as <-.
Qed.

Lemma kept_inline_list n l s s' : _mlx5_send_wr_set_inline_data_list n l s = Some s' -> kept s s'.
Proof.
  unfold _mlx5_send_wr_set_inline_data_list. intros H. apply bind_Some in H as (bufs & _ & H).
  apply bind_Some in H as ((err & m & sz) & _ & H). destruct (err =? 0); cbn [negb] in H.
  - destruct (_ =? _); by injection H as <-.
  - injection H as <-. by apply kept_set_err.
Qed.

Lemma kept_set_sge_eth e k a n s : kept s (mlx5_send_wr_set_sge_eth e k a n s).
Proof.
  unfold mlx5_send_wr_set_sge_eth. destruct (cur_eth s =? 0); cbn [negb].
  - by apply kept_finalize, kept_set_sge.
  - destruct (copy_eth_inline_headers _ _ _ _) as [err [[m i] off]]. destruct (err =? 0); cbn [negb].
    + by apply kept_finalize, kept_set_sge.
    + by apply kept_set_err.
Qed.

Lemma kept_set_sge_list_eth e n l s s' : mlx5_send_wr_set_sge_list_eth e n l s = Some s' -> kept s s'.
Proof.
  unfold mlx5_send_wr_set_sge_list_eth. intros H. destruct (_ <? _); [injection H as <-; by apply kept_set_err|].
  apply bind_Some in H as (sges & _ & H).
  match type of H with context [if negb (cur_eth s =? 0) then ?x else ?y] =>
    destruct (if negb (cur_eth s =? 0) then x else y) as [err [[m i] off]] end.
  destruct (err =? 0); cbn [negb] in H; [|injection H as <-; by apply kept_set_err].
  destruct (set_sge_eth_loop _ _ _ _ _ _). injection H as <-. by apply kept_finalize.
Qed.

Lemma kept_inline_eth e a n s s' : mlx5_send_wr_set_inline_data_eth e a n s = Some s' -> kept s s'.
Proof.
  unfold mlx5_send_wr_set_inline_data_eth. intros H. destruct (cur_eth s =? 0); cbn [negb] in H.
  - apply bind_Some in H as (s1 & K%kept_inline & H). injection H as <-. by apply kept_finalize.
  - destruct (copy_eth_inline_headers _ _ _ _) as [err [[m i] off]].
    destruct (err =? 0); cbn [negb] in H; [|injection H as <-; by apply kept_set_err].
    apply bind_Some in H as (s1 & K%kept_inline & H). injection H as <-. by apply kept_finalize.
Qed.

Lemma kept_inline_list_eth e n l s s' : mlx5_send_wr_set_inline_data_list_eth e n l s = Some s' -> kept s s'.
Proof.
  unfold mlx5_send_wr_set_inline_data_list_eth. intros H. apply bind_Some in H as (bufs & _ & H).
  match type of H with context [if negb (cur_eth s =? 0) then ?x else ?y] =>
    destruct (if negb (cur_eth s =? 0) then x else y) as [err [[m i] off]] end.
  destruct (err =? 0); cbn [negb] in H; [|injection H as <-; by apply kept_set_err].
  apply bind_Some in H as ((err2 & m2 & sz) & _ & H). destruct (err2 =? 0); cbn [negb] in H.
  - injection H as <-. apply kept_finalize. by destruct (sz =? 0).
  - injection H as <-. by apply kept_set_err.
Qed.

Lemma kept_setter e p o s s' : wr_setter e p o s = Some s' -> kept s s'.
Proof.
  unfold wr_setter. destruct o; try done; destruct (pf_setters p); intros H;
    try first [by eapply kept_set_sge_list_eth | by eapply kept_inline_eth | by eapply kept_inline_list_eth];
    try (injection H as <-; unfold mlx5_send_wr_set_sge_rc_uc, mlx5_send_wr_set_sge_ud_xrc_dc;
         (apply kept_finalize || apply kept_count || apply kept_set_sge_eth); by apply kept_set_sge);
    try (injection H as <-; apply kept_set_sge_eth);
    apply bind_Some in H as (s1 & K & H); injection H as <-; (apply kept_finalize || apply kept_count);
    first [by eapply kept_set_sge_list | by eapply kept_inline | by eapply kept_inline_list].
Qed.

Lemma kept_raw w s s' : mlx5_wr_raw_wqe w s = Some s' -> kept s s'.
Proof.
  unfold mlx5_wr_raw_wqe. intros H. apply bind_Some in H as (s1 & K & H). injection H as <-.
  apply kept_finalize_raw. unfold raw_wqe_init in K. destruct (mlx5_wq_overflow _ _).
  - injection K as <-. destruct (kept_set_err s s ENOMEM) as [C E]; [done|]. by split.
  - apply bind_Some in K as (q & Hq%fill_rings_norm & K). injection K as <-. split; [|done].
    unfold core. cbn. by rewrite Hq.
Qed.

Lemma kept_memcpy e dk da sk sa n s s' : mlx5_wr_memcpy e dk da sk sa n s = Some s' -> kept s s'.
Proof.
  unfold mlx5_wr_memcpy. intros H. destruct (_ || _); [injection H as <-; by apply kept_set_err|].
  apply bind_Some in H as (s1 & K%kept_init_op & H). injection H as <-. apply kept_finalize. by destruct K.
Qed.

Lemma kept_dc av d k s s' : kept s s' -> kept s (mlx5_send_wr_set_dc_addr av d k s').
Proof. intros [C E]. by apply kept_count. Qed.

Lemma ex_step_kept e p o s s' : ex_step e p o s = Some s' -> kept s s'.
Proof.
  unfold ex_step, guard_pf. intros H.
  destruct o; try (by eapply kept_builder); try (by eapply kept_setter); try (by injection H as <-);
    match type of H with (if ?b then _ else _) = _ => destruct b; [|done] end;
    try first [by eapply kept_raw | by eapply kept_memcpy]; injection H as <-; by apply kept_count.
Qed.

Lemma ex_run_kept e p ops : forall s s', ex_run e p ops s = Some s' -> kept s s'.
Proof.
  induction ops as [|o ops IH]; intros s s' H; cbn [ex_run] in H; [by injection H as <-|].
  apply bind_Some in H as (s1 & K%ex_step_kept & H). etrans; [done|by apply IH].
Qed.

(** ** The gather list *)

Lemma put_data_seg_is m a g : put_data_seg m a (sg_length g) (sg_lkey g) (sg_addr g) = set_data_ptr_seg m a g 0.
Proof. unfold put_data_seg, set_data_ptr_seg. by rewrite Z.sub_0_r, Z.add_0_r. Qed.

(** The loop is that of [_mlx5_post_send] on a plain request. *)
Lemma set_sge_loop_is qp w sges : opcode w = IBV_WR_SEND -> forall s, sg_off s = 0 ->
  set_sge_loop qp sges (wm s) (seg s) (size s) =
  let s' := snd (data_ptr_loop qp w sges s) in (wm s', size s').
Proof.
  intros Ho. assert (is_atomic w = false) as Ha by (unfold is_atomic; by rewrite Ho).
  induction sges as [|g sges IH]; intros s Hs; [done|].
  rewrite data_ptr_loop_cons by (rewrite ?Ho; done). unfold nonempty. cbn [set_sge_loop]. rewrite Ha.
  destruct (sg_length g =? 0); cbn [negb].
  - apply (IH (wrap_wst qp s)). done.
  - rewrite put_data_seg_is. cbv zeta.
    apply (IH (with_seg s (set_data_ptr_seg (wm s) (wrap_seg qp (seg s)) g 0) (wrap_seg qp (seg s) + 16) (size s + 1))). done.
Qed.

(** The loop sees the bounds of the ring only. *)
Lemma set_sge_loop_cfg qp qp' sges : (forall a, wrap_seg qp' a = wrap_seg qp a) ->
  forall m d z, set_sge_loop qp' sges m d z = set_sge_loop qp sges m d z.
Proof.
  intros H. induction sges as [|g sges IH]; intros m d z; [done|]. cbn [set_sge_loop]. rewrite H.
  destruct (_ =? _); apply IH.
Qed.

Lemma data_at_plain w w' m a g :
  is_atomic w = false -> (is_atomic w' = true -> sg_length g = MLX5_ATOMIC_SIZE) -> data_at w m a g -> data_at w' m a g.
Proof.
  intros Hw Hw' (H1 & H2 & H3). split_and!; try done. rewrite Hw in H1. rewrite H1.
  by destruct (is_atomic w'); [rewrite Hw'|].
Qed.

Section SetSges.
Context (qp : mlx5_qp) (w : ibv_send_wr) (p : Z) (m : mem) (d : Z).
Context (Hok : sq_ok qp) (Hw : ex_request qp w) (Hd : wrap_seg qp d = ring qp (64 * p + 16 * hdr_units w)).

Lemma set_sge_loop_spec :
  exists m', set_sge_loop qp (take (Z.to_nat (num_sge w)) (sg_list w)) m d (hdr_units w) = (m', units w) /\
    (forall j g, gather w !! j = Some g ->
       data_at w m' (ring qp (64 * p + 16 * (hdr_units w + Z.of_nat j))) g) /\
    (forall a, outside qp (64 * p + 16 * hdr_units w) (alen (gather w)) a -> ld8 m' a = ld8 m a).
Proof.
  destruct Hw as [Hr _ Ha]. pose proof (hdr_units_range w) as Hh. pose proof (alen_nonneg (gather w)).
  destruct (rq_fits _ _ Hr) as [_ Hf]. unfold units in Hf.
  pose (w' := SendWr 0 [] 0 IBV_WR_SEND 0 0 0 0 0 0 0 0 0 0 (BindInfo 0 0 0 0) 0 0 0).
  pose (s := Wst m d (hdr_units w) 0 0 0 0 0 false).
  destruct (data_ptr_loop_spec qp w' (take (Z.to_nat (num_sge w)) (sg_list w)) s (64 * p + 16 * hdr_units w))
    as (m' & sg & E & D & F); try done.
  - exists (4 * p + hdr_units w). lia.
  - apply Forall_take, Hr.
  - fold (gather w). lia.
  - exists m'. rewrite (set_sge_loop_is qp w' _ eq_refl s eq_refl), E. split_and!; try done.
    intros j g Hj. apply (data_at_plain w'); [done| |].
    + intros Hat. specialize (Ha Hat). assert (g ∈ gather w) as Hin by (by eapply list_elem_of_lookup_2).
      unfold gather in Hin. apply list_elem_of_In, filter_In in Hin as [Hin Hne].
      apply (Forall_take _ (Z.to_nat (num_sge w))) in Ha. rewrite List.Forall_forall in Ha.
      destruct (Ha g Hin) as [H0|]; [|done]. unfold nonempty in Hne. by rewrite H0 in Hne.
    + replace (64 * p + 16 * (hdr_units w + Z.of_nat j)) with (64 * p + 16 * hdr_units w + 16 * Z.of_nat j) by lia. by apply D.
Qed.
End SetSges.

(** ** The header of a request *)

Lemma wrap_slot qp p x : sq_ok qp -> 0 <= x < 64 -> wrap_seg qp (ring qp (64 * p) + x) = ring qp (64 * p) + x.
Proof. intros Hok Hx. rewrite <- (ring_slot qp Hok) by done. by apply wrap_ring. Qed.

Definition hdr_mem (w : ibv_send_wr) (m : mem) (c : Z) : mem :=
  if is_rdma w then set_raddr_seg m (c + 16) (rdma_remote_addr w) (rdma_rkey w)
  else if is_atomic w
  then set_atomic_seg (set_raddr_seg m (c + 16) (atomic_remote_addr w) (atomic_rkey w)) (c + 32)
         (opcode w) (if opcode w =? IBV_WR_ATOMIC_CMP_AND_SWP then atomic_swap w else 0) (atomic_compare_add w)
  else m.

Definition imm_mem (w : ibv_send_wr) (m : mem) (c : Z) : mem :=
  if with_imm w then st_le 4 m (c + 12) (send_ieth w) else m.

Lemma send_ieth_range w : in_width 32 (imm w) -> 0 <= send_ieth w < 2 ^ 32.
Proof.
  unfold in_width, send_ieth. intros H. destruct (_ || _); [done|]. destruct (_ =? _); [apply bswap32_range|lia].
Qed.

Lemma imm_mem_spec w m c :
  in_width 32 (imm w) -> same_outside (c + 12) (c + 16) m (imm_mem w m c) /\
  (with_imm w = true -> ld_le 4 (imm_mem w m c) (c + 12) = send_ieth w).
Proof.
  intros Hi. pose proof (send_ieth_range w Hi). unfold imm_mem. destruct (with_imm w); [|done].
  split; [intros a Ha; by mem_load|]. intros _. mem_load. by apply Z.mod_small.
Qed.

Lemma hdr_mem_spec qp w m c :
  rc_request qp w -> same_outside (c + 16) (c + 16 * hdr_units w) m (hdr_mem w m c) /\ hdr_at w (hdr_mem w m c) c.
Proof.
  intros Hw. destruct (rq_addr _ _ Hw) as (Ha & Hc & Hp). unfold in_width in *.
  pose proof (wrapu_range 32 (w1 w) ltac:(lia)). pose proof (wrapu_range 32 (w3 w) ltac:(lia)).
  unfold hdr_mem, hdr_at, hdr_units. destruct (is_rdma w) eqn:Er; [rewrite (rdma_not_atomic _ Er)|destruct (is_atomic w)].
  - unfold set_raddr_seg, rdma_remote_addr, rdma_rkey. split_and!; try done; [intros a Hb; by mem_load|].
    intros _. split; mem_load; apply Z.mod_small; simpl; lia.
  - unfold set_raddr_seg, set_atomic_seg, atomic_remote_addr, atomic_rkey, atomic_swap, atomic_compare_add.
    replace (c + 32) with (c + 16 + 16) by lia.
    destruct (opcode w =? IBV_WR_ATOMIC_CMP_AND_SWP); (split_and!; [intros a Hb; by mem_load|intros _|intros _]);
      try split; mem_load; apply Z.mod_small; simpl; lia.
  - done.
Qed.

Lemma ctrl_start_spec s m c op :
  0 <= op < 2 ^ 8 ->
  let m' := ctrl_start s m c op in
  ld_be 4 m' c = (cur_post (sq (xq s)) mod 2 ^ 16) * 2 ^ 8 + op /\
  ld8 m' (c + 11) =
    u8 (Z.lor (Z.lor (Z.lor (sq_signal_bits (xq s))
       (if has (wr_flags s) IBV_SEND_FENCE then MLX5_WQE_CTRL_FENCE else fm_cache (xq s)))
       (if has (wr_flags s) IBV_SEND_SIGNALED then MLX5_WQE_CTRL_CQ_UPDATE else 0))
       (if has (wr_flags s) IBV_SEND_SOLICITED then MLX5_WQE_CTRL_SOLICITED else 0)) /\
  same_outside c (c + 12) m m'.
Proof.
  intros Hop. unfold ctrl_start. cbv zeta. split_and!; [|by mem_load|intros a Ha; by mem_load].
  change 0xffff with (2 ^ 16 - 1). rewrite land_mod, lor_shift_add by lia. mem_load. apply Z.mod_small.
  pose proof (Z.mod_pos_bound (cur_post (sq (xq s))) (2 ^ 16) ltac:(lia)). simpl. lia.
Qed.

Lemma rc_cases qp w : rc_request qp w ->
  opcode w = IBV_WR_RDMA_WRITE \/ opcode w = IBV_WR_RDMA_WRITE_WITH_IMM \/ opcode w = IBV_WR_SEND \/
  opcode w = IBV_WR_SEND_WITH_IMM \/ opcode w = IBV_WR_RDMA_READ \/ opcode w = IBV_WR_ATOMIC_CMP_AND_SWP \/
  opcode w = IBV_WR_ATOMIC_FETCH_AND_ADD \/ opcode w = IBV_WR_SEND_WITH_INV.
Proof. intros Hw. pose proof (rq_op _ _ Hw) as H. unfold is_rdma, is_atomic, is_send in H. lia. Qed.

(** The builders of a reliable connection, from the initialised WQE on. *)
Section Builders.
Context (o : Z) (s s1 : mqp) (Hi : _common_wqe_init o s = Some s1) (Hrc : qp_type (xq s1) = IBV_QPT_RC)
  (W1 : wrap_seg (xq s1) (cur_ctrl s1 + 16) = cur_ctrl s1 + 16)
  (W3 : wrap_seg (xq s1) (cur_ctrl s1 + 48) = cur_ctrl s1 + 48).

(** [s1] with memory [m] and [n] units of header. *)
Definition header_done (m : mem) (n : Z) : mqp :=
  with_setters (with_nreq (with_size (with_data (with_xm s1 m) (cur_ctrl s1 + 16 * n)) n) (nreq s1 + 1)) 0.

Lemma send_runs : _mlx5_send_wr_send o s = Some (header_done (xm s1) 1).
Proof.
  unfold _mlx5_send_wr_send. rewrite Hi. cbn [mbind option_bind]. rewrite Hrc. cbn -[wrap_seg].
  unfold sizeof_ctrl. by rewrite Z.add_0_r, W1.
Qed.

Lemma rdma_runs k a : _mlx5_send_wr_rdma k a o s = Some (header_done (set_raddr_seg (xm s1) (cur_ctrl s1 + 16) a k) 2).
Proof.
  unfold _mlx5_send_wr_rdma. rewrite Hi. cbn [mbind option_bind]. unfold rdma_transport_sz. rewrite Hrc.
  cbn -[wrap_seg]. unfold sizeof_ctrl, sizeof_raddr, header_done. rewrite Z.add_0_r, W1.
  by replace (cur_ctrl s1 + 16 + 16) with (cur_ctrl s1 + 16 * 2) by lia.
Qed.

Lemma atomic_runs k a x y :
  _mlx5_send_wr_atomic k a x y o s =
  Some (header_done (set_atomic_seg (set_raddr_seg (xm s1) (cur_ctrl s1 + 16) a k) (cur_ctrl s1 + 32) o y x) 3).
Proof.
  unfold _mlx5_send_wr_atomic. rewrite Hi. cbn [mbind option_bind]. unfold rdma_transport_sz. rewrite Hrc.
  cbn -[wrap_seg]. unfold sizeof_ctrl, sizeof_raddr, sizeof_atomic, header_done. rewrite Z.add_0_r, W1.
  change (wrap_seg _ (cur_ctrl s1 + 16 + 16 + 16)) with (wrap_seg (xq s1) (cur_ctrl s1 + 16 + 16 + 16)).
  replace (cur_ctrl s1 + 16 + 16 + 16) with (cur_ctrl s1 + 48) by lia. rewrite W3.
  by replace (cur_ctrl s1 + 16 + 16) with (cur_ctrl s1 + 32) by lia.
Qed.
End Builders.

Lemma finalize_spec s :
  0 <= cur_size s < 2 ^ 8 ->
  exists m, _common_wqe_finalize s =
    with_xq (with_xm s m) (with_cur_post (xq s) (u32 (cur_post (sq (xq s)) + (cur_size s + 3) / 4))) /\
    ld_be 4 m (cur_ctrl s + 4) = cur_size s + (qp_num (xq s) mod 2 ^ 24) * 2 ^ 8 /\
    same_outside (cur_ctrl s + 4) (cur_ctrl s + 9) (xm s) m.
Proof.
  intros Hs. unfold _common_wqe_finalize, __wqe_finalize, DIV_ROUND_UP. cbn [xq with_xm cur_size cur_ctrl xm].
  rewrite qpn_ds_value by done. pose proof (Z.mod_pos_bound (qp_num (xq s)) (2 ^ 24) ltac:(lia)).
  destruct (wq_sig (xq s)); cbn [cur_size with_xm xq]; rewrite (wrapu_small 64) by lia;
    replace (cur_size s + 4 - 1) with (cur_size s + 3) by lia; (eexists; split; [done|]);
    (split; [mem_load; apply Z.mod_small; simpl; lia|]); intros a Ha; by mem_load.
Qed.

Section BuildOne.
Context (e : xenv) (pf : pfns) (w : ibv_send_wr) (s : mqp).
Let qp := xq s.
Let p := cur_post (sq qp).
Let c := ring qp (64 * p).
Context (Hpf : pf_builders pf = builders_rc_xrc_dc) (Hps : pf_setters pf = setters_rc_uc).
Context (Hok : sq_ok qp) (Hrc : qp_type qp = IBV_QPT_RC) (Hw : ex_request qp w)
  (Hov : mlx5_wq_overflow (sq qp) (nreq s) = false).

(** The state behind the builder, for rings [q], memory [m]. *)
Definition begun (q : mlx5_wq) (m : mem) : mqp :=
  Mqp (with_fm_cache (with_sq qp q) 0) m (wr_id w) (send_flags w) (cur_post_rb s) (fm_cache_rb s) (perr s) (nreq s + 1)
    (inl_wqe s) (hdr_units w) (c + 16 * hdr_units w) (cur_eth s) c 0.

Lemma init_runs op data :
  mlx5_ib_opcode.[opcode w] = Some op ->
  forall q, fill_rings (with_wr s (wr_id w) (send_flags w)) 0 = Some q ->
  data = ctrl_start (with_wr s (wr_id w) (send_flags w)) (xm s) c op ->
  _common_wqe_init (opcode w) (with_wr s (wr_id w) (send_flags w)) =
  Some (Mqp (with_fm_cache (with_sq qp q) 0) data (wr_id w) (send_flags w)
    (cur_post_rb s) (fm_cache_rb s) (perr s) (nreq s) (inl_wqe s) (cur_size s) (cur_data s) (cur_eth s) c (cur_setters_cnt s)).
Proof.
  intros Hop q Hq ->. unfold _common_wqe_init. rewrite Hop. cbn [mbind option_bind].
  unfold _common_wqe_init_op. cbn [xq nreq with_wr]. fold qp. rewrite Hov.
  destruct (rc_opcode _ _ (er_rc _ _ Hw)) as [Ho _].
  assert (wr_data_of (opcode w) op = 0) as ->.
  { assert (opcode w = 0 \/ opcode w = 1 \/ opcode w = 2 \/ opcode w = 3 \/ opcode w = 4 \/ opcode w = 5 \/
      opcode w = 6 \/ opcode w = 9) as Hc by lia.
    repeat (destruct Hc as [Hc|Hc]); rewrite Hc in *; by injection Hop as <-. }
  rewrite Hq. cbn [mbind option_bind]. by rewrite (get_send_wqe_ring qp Hok).
Qed.

Lemma builder_runs op q :
  mlx5_ib_opcode.[opcode w] = Some op -> fill_rings (with_wr s (wr_id w) (send_flags w)) 0 = Some q ->
  wr_builder e pf (builder_of w) (with_wr s (wr_id w) (send_flags w)) =
  Some (begun q (imm_mem w (hdr_mem w (ctrl_start (with_wr s (wr_id w) (send_flags w)) (xm s) c op) c) c)).
Proof.
  intros Hop Hq. pose proof (init_runs op _ Hop q Hq eq_refl) as Hi.
  pose proof (wrap_slot qp p 16 Hok ltac:(lia)) as W1. pose proof (wrap_slot qp p 48 Hok ltac:(lia)) as W3.
  assert (exists ids heads data, q = with_wr_data (with_post (sq qp) ids heads (cur_post (sq qp))) data) as (ids & heads & data & ->).
  { unfold fill_rings in Hq. cbn [xq with_wr] in Hq. fold qp in Hq. inv_bind. eauto. }
  pose proof (rc_cases _ _ (er_rc _ _ Hw)) as Hc.
  unfold begun, imm_mem, hdr_mem, hdr_units, with_imm, send_ieth, is_rdma, is_atomic, builder_of, wr_builder.
  rewrite Hpf.
  repeat (destruct Hc as [Hc|Hc]); rewrite Hc in *; cbn - [Z.mul Z.add st_be st_le bswap32];
    unfold mlx5_send_wr_send_other, mlx5_send_wr_send_imm, mlx5_send_wr_send_inv, mlx5_send_wr_rdma_write,
      mlx5_send_wr_rdma_write_imm, mlx5_send_wr_rdma_read, mlx5_send_wr_atomic_cmp_swp, mlx5_send_wr_atomic_fetch_add.
  - etrans; [exact (rdma_runs _ _ _ Hi Hrc W1 _ _)|done].
  - apply bind_Some. eexists. split; [exact (rdma_runs _ _ _ Hi Hrc W1 _ _)|done].
  - etrans; [exact (send_runs _ _ _ Hi Hrc W1)|done].
  - apply bind_Some. eexists. split; [exact (send_runs _ _ _ Hi Hrc W1)|done].
  - etrans; [exact (rdma_runs _ _ _ Hi Hrc W1 _ _)|done].
  - etrans; [exact (atomic_runs _ _ _ Hi Hrc W1 W3 _ _ _ _)|done].
  - etrans; [exact (atomic_runs _ _ _ Hi Hrc W1 W3 _ _ _ 0)|done].
  - apply bind_Some. eexists. split; [exact (send_runs _ _ _ Hi Hrc W1)|]. by rewrite st_be_bswap32.
Qed.

Lemma fill_rings_runs :
  exists ids heads data,
    aset (wrid (sq qp)) (sq_idx (sq qp)) (wr_id w) = Some ids /\
    aset (wqe_head (sq qp)) (sq_idx (sq qp)) (u32 (head (sq qp) + nreq s)) = Some heads /\
    aset (wr_data (sq qp)) (sq_idx (sq qp)) 0 = Some data /\
    fill_rings (with_wr s (wr_id w) (send_flags w)) 0 = Some (with_wr_data (with_post (sq qp) ids heads p) data).
Proof.
  pose proof (sq_idx_range qp Hok) as Hidx. do 3 eexists.
  split; [|split; [|split]]; try (apply aset_Some; by rewrite ?(sq_wrid _ Hok), ?(sq_heads _ Hok), ?(sq_data _ Hok)).
  unfold fill_rings. cbn [xq with_wr ex_wr_id nreq]. fold qp.
  rewrite !aset_Some by (by rewrite ?(sq_wrid _ Hok), ?(sq_heads _ Hok), ?(sq_data _ Hok)). done.
Qed.

(** The bytes of the finished WQE. *)
Lemma built_stages op m0 m1 m2 m3 :
  mlx5_ib_opcode.[opcode w] = Some op ->
  let fence := if has (send_flags w) IBV_SEND_FENCE then MLX5_WQE_CTRL_FENCE else fm_cache qp in
  ld_be 4 m0 c = (p mod 2 ^ 16) * 2 ^ 8 + op ->
  ld8 m0 (c + 11) = u8 (Z.lor (Z.lor (Z.lor (sq_signal_bits qp) fence)
     (flag w IBV_SEND_SIGNALED MLX5_WQE_CTRL_CQ_UPDATE)) (flag w IBV_SEND_SOLICITED MLX5_WQE_CTRL_SOLICITED)) ->
  same_outside (c + 12) (c + 16 * hdr_units w) m0 m1 -> hdr_at w m1 c ->
  (with_imm w = true -> ld_le 4 m1 (c + 12) = send_ieth w) ->
  (forall j g, gather w !! j = Some g -> data_at w m2 (ring qp (64 * p + 16 * (hdr_units w + Z.of_nat j))) g) ->
  (forall a, outside qp (64 * p + 16 * hdr_units w) (alen (gather w)) a -> ld8 m2 a = ld8 m1 a) ->
  ld_be 4 m3 (c + 4) = units w + (qp_num qp mod 2 ^ 24) * 2 ^ 8 ->
  same_outside (c + 4) (c + 9) m2 m3 ->
  built qp m3 p w fence.
Proof.
  intros Hop fence O0 F0 S1 H1 I1 D2 S2 N3 S3. destruct Hw as [Hr _ _]. pose proof (hdr_units_range w) as Hh.
  destruct (rq_fits _ _ Hr) as [Hf Hf']. unfold units in Hf, Hf'. pose proof (send_ieth_range w ltac:(apply Hr)).
  assert (Hout : forall x, 0 <= x < 16 * hdr_units w -> (x < 4 \/ 9 <= x) -> ld8 m3 (c + x) = ld8 m1 (c + x)).
  { intros x Hx Hn. rewrite S3 by lia. apply S2, hdr_outside; (done || lia). }
  split.
  2: { intros Hi. rewrite <- (I1 Hi). apply ld_le_ext. intros b Hb. replace b with (c + (b - c)) by lia.
       apply Hout; unfold c in *; lia. }
  fold c. set (m := st_le 4 m3 (c + 12) (send_ieth w)).
  assert (Hm : forall b, b < c + 12 \/ c + 16 <= b -> ld8 m b = ld8 m3 b) by (intros; apply ld8_st_le_out; lia).
  assert (H3 : hdr_at w m c).
  { apply hdr_at_ext with m1; [|done]. intros b Hb. rewrite Hm by lia. replace b with (c + (b - c)) by lia. apply Hout; lia. }
  constructor; fold c.
  - exists op. split; [done|]. rewrite <- O0. apply ld_be_ext. intros b Hb. rewrite Hm by lia.
    replace b with (c + (b - c)) by lia. rewrite Hout by lia. apply S1. lia.
  - unfold m. by mem_load.
  - rewrite Hm, Hout, S1 by lia. done.
  - unfold m. mem_load. by apply Z.mod_small.
  - rewrite (ring_slot qp Hok) by lia. by apply H3.
  - rewrite (ring_slot qp Hok) by lia. by apply H3.
  - intros j g Hj. apply data_at_ext with m2; [|by apply D2]. intros b Hb.
    apply lookup_lt_Some in Hj. unfold alen in *.
    destruct (decide (c <= b < c + 16)) as [Hc|]; [exfalso|rewrite Hm by lia; apply S3; lia].
    apply (ring_disjoint qp Hok (64 * p) 0 (hdr_units w + Z.of_nat j) b); try lia.
    + exists (4 * p). lia.
    + by rewrite Z.mul_0_r, Z.add_0_r.
Qed.

(** The queue pair behind the request. *)
Definition after (ids heads data : list Z) : mlx5_qp :=
  with_fm_cache (with_sq qp (with_wr_data (with_post (sq qp) ids heads (u32 (p + slots w))) data)) 0.

Lemma build_one :
  exists ids heads data m,
    aset (wrid (sq qp)) (sq_idx (sq qp)) (wr_id w) = Some ids /\
    aset (wqe_head (sq qp)) (sq_idx (sq qp)) (u32 (head (sq qp) + nreq s)) = Some heads /\
    aset (wr_data (sq qp)) (sq_idx (sq qp)) 0 = Some data /\
    ex_run e pf (calls_of w) s =
      Some (Mqp (after ids heads data) m (wr_id w) (send_flags w) (cur_post_rb s) (fm_cache_rb s) (perr s) (nreq s + 1)
        (inl_wqe s) (units w) (c + 16 * hdr_units w) (cur_eth s) c 0) /\
    built qp m p w (if has (send_flags w) IBV_SEND_FENCE then MLX5_WQE_CTRL_FENCE else fm_cache qp) /\
    (forall a, outside qp (64 * p) (units w) a -> ld8 m a = ld8 (xm s) a).
Proof.
  destruct fill_rings_runs as (ids & heads & data & Ei & Eh & Ed & Eq). set (q := with_wr_data _ _) in Eq.
  pose proof (er_rc _ _ Hw) as Hr. destruct (rc_table _ _ Hr) as (op & Hop & Hopr).
  pose proof (builder_runs op q Hop Eq) as B.
  destruct (ctrl_start_spec (with_wr s (wr_id w) (send_flags w)) (xm s) c op Hopr) as (O0 & F0 & S0).
  set (m0 := ctrl_start _ _ _ _) in *. cbn [xq with_wr wr_flags] in O0, F0.
  destruct (hdr_mem_spec qp w m0 c Hr) as [SH HH]. destruct (imm_mem_spec w (hdr_mem w m0 c) c (rq_imm _ _ Hr)) as [SI II].
  set (m1 := imm_mem w _ c) in *. pose proof (hdr_units_range w) as Hh. pose proof (alen_nonneg (gather w)) as Hn.
  destruct (rq_fits _ _ Hr) as [Hf _]. pose proof (rq_sges _ _ Hr) as Hns.
  assert (Hu : 0 <= units w < 2 ^ 8) by (unfold units in *; lia).
  destruct (set_sge_loop_spec qp w p m1 (c + 16 * hdr_units w) Hok Hw) as (m2 & E2 & D2 & S2).
  { rewrite (ring_slot qp Hok) by lia. apply wrap_slot; [done|lia]. }
  destruct (finalize_spec (with_size (with_xm (begun q m1) m2) (units w)) Hu) as (m3 & E3 & N3 & S3).
  cbn [cur_ctrl cur_size xm xq with_xm with_size begun] in E3, N3, S3.
  assert (S1 : same_outside (c + 12) (c + 16 * hdr_units w) m0 m1) by (intros a Ha; rewrite SI, SH by lia; done).
  exists ids, heads, data, m3. split_and!; try done.
  - cbn [calls_of ex_run ex_step mbind option_bind].
    replace (ex_step e pf (builder_of w) _) with (wr_builder e pf (builder_of w) (with_wr s (wr_id w) (send_flags w))).
    2: { unfold builder_of. by repeat (destruct (_ =? _); [done|]). }
    rewrite B. cbn [mbind option_bind]. unfold wr_setter. rewrite Hps.
    unfold mlx5_send_wr_set_sge_list_rc_uc, _mlx5_send_wr_set_sge_list, first_n.
    cbn [xq begun sq with_fm_cache with_sq xm cur_data cur_size]. change (max_gs q) with (max_gs (sq qp)).
    rewrite (proj2 (Z.ltb_ge _ _) (er_gs _ _ Hw)), (proj2 (Z.leb_le _ _)) by lia. cbn [mbind option_bind].
    replace (set_sge_loop _ _ _ _ _) with (m2, units w).
    + cbn [mbind option_bind]. rewrite E3. done.
    + rewrite <- E2. symmetry. by apply set_sge_loop_cfg.
  - apply (built_stages op m0 m1 m2 m3); try done. apply hdr_at_ext with (hdr_mem w m0 c); [|done].
    intros b Hb. apply SI. lia.
  - intros a Ha.
    assert (Hc : a < c \/ c + 16 * hdr_units w <= a).
    { destruct (decide (a < c \/ c + 16 * hdr_units w <= a)) as [|Hx]; [done|exfalso].
      apply (Ha ((a - c) / 16)); [unfold units; dlia|]. rewrite (ring_slot qp Hok) by dlia. fold c. dlia. }
    rewrite S3 by lia. rewrite S2; [by rewrite S1, S0 by lia|].
    intros j Hj. replace (64 * p + 16 * hdr_units w + 16 * j) with (64 * p + 16 * (hdr_units w + j)) by lia.
    apply Ha. unfold units. lia.
Qed.
End BuildOne.

(** ** Chains *)

(** [qp'] is [qp] with other rings and another cached fence. *)
Definition same_cfg_fm (qp qp' : mlx5_qp) : Prop :=
  exists d i h c f, qp' = with_fm_cache (with_sq qp (with_wr_data (with_post (sq qp) i h c) d)) f.

#[export] Instance same_cfg_fm_refl : Reflexive same_cfg_fm.
Proof.
  intros qp. exists (wr_data (sq qp)), (wrid (sq qp)), (wqe_head (sq qp)), (cur_post (sq qp)), (fm_cache qp).
  by destruct qp as [????????? [] ????????].
Qed.

#[export] Instance same_cfg_fm_trans : Transitive same_cfg_fm.
Proof. intros qp1 qp2 qp3 (? & ? & ? & ? & ? & ->) (d & i & h & c & f & ->). by exists d, i, h, c, f. Qed.

Lemma ex_request_cfg qp qp' w : same_cfg_fm qp qp' -> ex_request qp w -> ex_request qp' w.
Proof. intros (d & i & h & c & f & ->) [[] ? ?]. by constructor. Qed.

Lemma built_ext qp m m' p w f :
  sq_ok qp ->
  (forall j b, 0 <= j < units w -> ring qp (64 * p + 16 * j) <= b < ring qp (64 * p + 16 * j) + 16 -> ld8 m' b = ld8 m b) ->
  built qp m p w f -> built qp m' p w f.
Proof.
  intros Hok H [E I]. split.
  - apply encodes_ext with (st_le 4 m (ring qp (64 * p) + 12) (send_ieth w)); [done| |done].
    intros j b Hj Hb. apply ld8_store_bytes_ext. by apply (H j).
  - intros Hi. rewrite <- (I Hi). pose proof (hdr_units_range w). pose proof (alen_nonneg (gather w)).
    apply ld_le_ext. intros b Hb. apply (H 0); [unfold units; lia|]. rewrite Z.mul_0_r, Z.add_0_r. lia.
Qed.

Lemma built_u32 qp m p w f : sq_ok qp -> built qp m (u32 p) w f -> built qp m p w f.
Proof.
  intros Hok [E I]. pose proof (ring_u32 qp Hok p 0) as R. rewrite !Z.add_0_r in R. rewrite R in *.
  split; [by apply encodes_u32|done].
Qed.

Lemma chain_built_ext qp m m' wrs : forall p f,
  sq_ok qp ->
  (forall j b, 0 <= j < 4 * total_slots wrs -> ring qp (64 * p + 16 * j) <= b < ring qp (64 * p + 16 * j) + 16 ->
     ld8 m' b = ld8 m b) ->
  chain_built qp m p f wrs -> chain_built qp m' p f wrs.
Proof.
  induction wrs as [|w wrs IH]; intros p f Hok H; simpl; [done|]. intros [E C].
  pose proof (slots_units w). pose proof (slots_pos w). pose proof (total_slots_nonneg wrs).
  simpl in H. split.
  - apply built_ext with m; try done. intros j b Hj. apply H. lia.
  - apply IH; try done. intros j b Hj Hb. apply (H (4 * slots w + j)); [lia|].
    by replace (64 * p + 16 * (4 * slots w + j)) with (64 * (p + slots w) + 16 * j) by lia.
Qed.

Lemma chain_built_cfg qp qp' m wrs : forall p f,
  same_cfg_fm qp qp' -> chain_built qp' m p f wrs -> chain_built qp m p f wrs.
Proof.
  induction wrs as [|w wrs IH]; intros p f Hc; [done|]. intros [[E I] C]. split; [|by apply IH].
  destruct Hc as (d & i & h & c & fm & ->). split; [by destruct E; constructor|done].
Qed.

Lemma ex_run_app e pf l1 l2 s : ex_run e pf (l1 ++ l2) s = ex_run e pf l1 s ≫= ex_run e pf l2.
Proof. revert s. induction l1 as [|o l1 IH]; intros s; [done|]. cbn. destruct (ex_step e pf o s); [apply IH|done]. Qed.

(** *** Requests with too many entries *)

Lemma too_many_cfg qp qp' : same_cfg_fm qp qp' -> too_many qp' = too_many qp.
Proof. by intros (d & i & h & c & f & ->). Qed.

Lemma fit_cfg qp qp' : same_cfg_fm qp qp' -> fit qp' = fit qp.
Proof. intros H. unfold fit. by rewrite (too_many_cfg _ _ H). Qed.

Lemma fit_id qp wrs : Forall (ex_request qp) wrs -> fit qp <$> wrs = wrs /\ existsb (too_many qp) wrs = false.
Proof.
  induction 1 as [|w wrs Hw _ [IH1 IH2]]; [done|]. cbn [fmap list_fmap existsb]. unfold fit at 1.
  assert (too_many qp w = false) as -> by (unfold too_many; pose proof (er_gs _ _ Hw); lia).
  split; [f_equal; exact IH1|exact IH2].
Qed.

Lemma finalize_err s x : _common_wqe_finalize (set_err s x) = set_err (_common_wqe_finalize s) x.
Proof.
  unfold set_err, _common_wqe_finalize, __wqe_finalize. cbn [xq with_xm].
  destruct (wq_sig (xq s)) eqn:Hs; cbn [perr with_xq with_xm]; (destruct (perr s =? 0); [|by rewrite Hs]); cbn [xq with_perr]; by rewrite Hs.
Qed.

(** The calls of a request that does not fit are those of the request without
    entries, but for the error. *)
Lemma calls_fit e pf w s t :
  pf_setters pf = setters_rc_uc -> ex_request (xq s) (fit (xq s) w) -> ex_run e pf (calls_of (fit (xq s) w)) s = Some t ->
  ex_run e pf (calls_of w) s = Some (if too_many (xq s) w then set_err t ENOMEM else t).
Proof.
  intros Hps Hw. pose proof (er_gs _ _ Hw) as Hg. unfold fit in *. destruct (too_many (xq s) w) eqn:Ht; [|done].
  unfold too_many in Ht. cbn [num_sge without_sges] in Hg. cbn [calls_of ex_run ex_step mbind option_bind].
  change (builder_of (without_sges w)) with (builder_of w). change (wr_id (without_sges w)) with (wr_id w).
  change (send_flags (without_sges w)) with (send_flags w). cbn [num_sge sg_list without_sges].
  destruct (ex_step e pf (builder_of w) _) as [s1|] eqn:E1; [|done]. cbn [mbind option_bind].
  apply ex_step_kept in E1 as [C _]. assert (max_gs (sq (xq s1)) = max_gs (sq (xq s))) as Hm by exact (f_equal (fun c => max_gs (sq (snd c))) C).
  unfold wr_setter. rewrite Hps. unfold mlx5_send_wr_set_sge_list_rc_uc, _mlx5_send_wr_set_sge_list. rewrite Hm, Ht.
  rewrite (proj2 (Z.ltb_ge _ _) Hg). cbn [first_n alen length Z.of_nat Z.leb Z.compare take Z.to_nat mbind option_bind set_sge_loop].
  rewrite finalize_err. intros H. injection H as <-. by destruct s1.
Qed.

(** *** The software rings *)

Lemma rings_kept_refl used q : rings_kept used q q.
Proof. by constructor. Qed.

Lemma rings_kept_trans (u1 u2 u : Z -> Prop) q1 q2 q3 : (forall i, u1 i -> u i) -> (forall i, u2 i -> u i) ->
  rings_kept u1 q1 q2 -> rings_kept u2 q2 q3 -> rings_kept u q1 q3.
Proof.
  intros H1 H2 [A1 B1 C1] [A2 B2 C2]. constructor; intros i Hi; (rewrite A2 || rewrite B2 || rewrite C2); auto.
Qed.

(** What a request that is built leaves, with the error of one that is not. *)
Definition noted (bad : bool) (x : Z) : Z := if bad then if x =? 0 then ENOMEM else x else x.

Section BuildFit.
Context (e : xenv) (pf : pfns) (w : ibv_send_wr) (s : mqp) (p : Z).
Context (Hpf : pf_builders pf = builders_rc_xrc_dc) (Hps : pf_setters pf = setters_rc_uc).
Context (Hok : sq_ok (xq s)) (Hrc : qp_type (xq s) = IBV_QPT_RC) (Hw : ex_request (xq s) (fit (xq s) w))
  (Hov : mlx5_wq_overflow (sq (xq s)) (nreq s) = false) (Hp : cur_post (sq (xq s)) = u32 p).

Lemma build_fit :
  exists s1, ex_run e pf (calls_of w) s = Some s1 /\ same_cfg_fm (xq s) (xq s1) /\ sq_ok (xq s1) /\
    cur_post (sq (xq s1)) = u32 (p + slots (fit (xq s) w)) /\ fm_cache (xq s1) = 0 /\ nreq s1 = nreq s + 1 /\
    perr s1 = noted (too_many (xq s) w) (perr s) /\
    rings_kept (in_slots (xq s) p (slots (fit (xq s) w))) (sq (xq s)) (sq (xq s1)) /\
    built (xq s) (xm s1) p (fit (xq s) w) (if has (send_flags w) IBV_SEND_FENCE then MLX5_WQE_CTRL_FENCE else fm_cache (xq s)) /\
    (forall a, outside (xq s) (64 * p) (units (fit (xq s) w)) a -> ld8 (xm s1) a = ld8 (xm s) a).
Proof.
  destruct (build_one e pf (fit (xq s) w) s) as (ids & heads & data & m & Ei & Eh & Ed & E1 & C1 & F1); try done.
  apply (calls_fit _ _ _ _ _ Hps Hw) in E1. set (w' := fit (xq s) w) in *. set (t := Mqp _ m _ _ _ _ _ _ _ _ _ _ _ _) in E1.
  assert (has (send_flags w') IBV_SEND_FENCE = has (send_flags w) IBV_SEND_FENCE) as Hfl by (unfold w', fit; by destruct (too_many _ _)).
  exists (if too_many (xq s) w then set_err t ENOMEM else t). split; [exact E1|]. clear E1.
  assert (xq (if too_many (xq s) w then set_err t ENOMEM else t) = xq t /\ xm (if too_many (xq s) w then set_err t ENOMEM else t) = m /\
    nreq (if too_many (xq s) w then set_err t ENOMEM else t) = nreq s + 1 /\
    perr (if too_many (xq s) w then set_err t ENOMEM else t) = noted (too_many (xq s) w) (perr s)) as (-> & -> & -> & ->).
  { unfold noted, set_err. change (perr t) with (perr s). by destruct (too_many _ _), (perr s =? 0). }
  assert (Hs : 0 < slots w') by (pose proof (slots_pos w'); lia).
  assert (Hidx : in_slots (xq s) p (slots w') (sq_idx (sq (xq s)))) by (exists 0; unfold sq_idx; rewrite Hp, Z.add_0_r; split; [lia|done]).
  assert (HB : built (xq s) m p w' (if has (send_flags w) IBV_SEND_FENCE then MLX5_WQE_CTRL_FENCE else fm_cache (xq s))).
  { rewrite <- Hfl. apply built_u32; [done|]. by rewrite <- Hp. }
  split_and!; try done; try apply HB.
  - by exists data, ids, heads, (u32 (cur_post (sq (xq s)) + slots w')), 0.
  - apply aset_alen in Ed, Ei, Eh. destruct Hok. constructor; try done; cbn; try congruence. unfold in_width. apply wrapu_range. lia.
  - cbn. by rewrite Hp, wrapu_add_l.
  - constructor; intros i Hi; cbn; (eapply aget_aset_ne; [eassumption|]); intros <-; done.
  - intros a Ha. apply F1. intros j Hj. rewrite Hp, (ring_u32 (xq s) Hok p (16 * j)). by apply Ha.
Qed.
End BuildFit.

Lemma ex_chain e pf n wrs : pf_builders pf = builders_rc_xrc_dc -> pf_setters pf = setters_rc_uc -> forall p s,
  let fitted := fit (xq s) <$> wrs in
  sq_ok (xq s) -> qp_type (xq s) = IBV_QPT_RC -> Forall (ex_request (xq s)) fitted ->
  in_width 32 (max_post (sq (xq s))) -> 0 <= nreq s -> nreq s + alen wrs <= n ->
  outstanding (xq s) + n <= max_post (sq (xq s)) ->
  total_slots fitted <= wqe_cnt (sq (xq s)) -> cur_post (sq (xq s)) = u32 p ->
  exists s', ex_run e pf (batch_of wrs) s = Some s' /\
    same_cfg_fm (xq s) (xq s') /\ sq_ok (xq s') /\ cur_post (sq (xq s')) = u32 (p + total_slots fitted) /\
    nreq s' = nreq s + alen wrs /\ perr s' = noted (existsb (too_many (xq s)) wrs) (perr s) /\
    rings_kept (in_slots (xq s) p (total_slots fitted)) (sq (xq s)) (sq (xq s')) /\
    chain_built (xq s) (xm s') p (fm_cache (xq s)) fitted /\
    (forall a, outside (xq s) (64 * p) (4 * total_slots fitted) a -> ld8 (xm s') a = ld8 (xm s) a).
Proof.
  intros Hpf Hps. induction wrs as [|w wrs IH]; intros p s fitted Hok Hrc Hf Hm Hr Hn Hq Ht Hp.
  { exists s. simpl. rewrite !Z.add_0_r. split_and!; done. }
  unfold fitted in *. clear fitted. cbn [fmap list_fmap total_slots existsb] in *. set (w' := fit (xq s) w) in *. inv Hf.
  pose proof (slots_pos w'). pose proof (total_slots_nonneg (fit (xq s) <$> wrs)) as Hts. pose proof (alen_nonneg wrs).
  assert (alen (w :: wrs) = alen wrs + 1) as Hl by (unfold alen; cbn [length]; lia). rewrite Hl in *.
  destruct (build_fit e pf w s p) as (s1 & E1 & Hc1 & Hok1 & Hp1 & Hfm & Hn1 & He1 & K1 & C1 & F1); try done.
  { apply (no_overflow _ n); (done || lia). }
  fold w' in Hp1, K1, C1, F1. specialize (IH (p + slots w') s1). cbv zeta in IH. rewrite (fit_cfg _ _ Hc1), (too_many_cfg _ _ Hc1), Hfm in IH.
  pose proof Hc1 as (d & ids & hs & cur & fm & Hx).
  destruct IH as (s' & E & Hc & Hok' & Hcur & Hnr & He & K & C & F); try done; try (rewrite Hx; cbn; done); try (rewrite Hx; cbn; lia); try lia.
  { eapply Forall_impl; [done|]. intros v ?. by eapply ex_request_cfg. }
  exists s'. assert (Hout : forall k, in_slots (xq s1) (p + slots w') (total_slots (fit (xq s) <$> wrs)) k -> in_slots (xq s) p (slots w' + total_slots (fit (xq s) <$> wrs)) k).
  { intros k (x & Hk & ->). exists (slots w' + x). split; [lia|]. rewrite Hx, Z.add_assoc. done. }
  split_and!; try done.
  - unfold batch_of. cbn [flat_map]. rewrite ex_run_app, E1. exact E.
  - by transitivity (xq s1).
  - by rewrite Z.add_assoc.
  - rewrite Hnr, Hn1. lia.
  - rewrite He, He1. unfold noted. by destruct (too_many (xq s) w), (existsb _ _), (perr s =? 0) eqn:Hz; cbn; rewrite ?Hz.
  - eapply rings_kept_trans; [|exact Hout|exact K1|exact K]. intros k (x & Hk & ->). exists x. split; [lia|done].
  - split; [|exact (chain_built_cfg _ _ _ _ _ _ Hc1 C)]. apply built_ext with (xm s1); try done.
    2: { unfold w'. unfold fit at 2. replace (send_flags (if too_many (xq s) w then without_sges w else w)) with (send_flags w) by (by destruct (too_many _ _)). exact C1. }
    intros j b Hj Hb. rewrite F; [done|]. intros i Hi. pose proof (slots_units w'). rewrite Hx.
    change (ring _ (64 * (p + slots w') + 16 * i)) with (ring (xq s) (64 * (p + slots w') + 16 * i)).
    replace (64 * (p + slots w') + 16 * i) with (64 * p + 16 * (4 * slots w' + i)) by lia.
    eapply (ring_disjoint (xq s) Hok (64 * p) j); try done; try lia. exists (4 * p). lia.
  - intros a Ha. pose proof (slots_units w'). rewrite F.
    + apply F1. intros j Hj. apply Ha. lia.
    + intros j Hj. rewrite Hx. change (ring _ (64 * (p + slots w') + 16 * j)) with (ring (xq s) (64 * (p + slots w') + 16 * j)).
      replace (64 * (p + slots w') + 16 * j) with (64 * p + 16 * (4 * slots w' + j)) by lia. apply Ha. lia.
Qed.

(** The table of a reliable connection has its builders and setters. *)
Lemma fill_rc qp ops attr pf :
  mlx5_qp_fill_wr_pfns qp IBV_QPT_RC ops attr = Some (Filled pf) ->
  pf_builders pf = builders_rc_xrc_dc /\ pf_setters pf = setters_rc_uc.
Proof.
  unfold mlx5_qp_fill_wr_pfns. cbv zeta. destruct (negb (atomics_enabled qp) && _); [done|].
  destruct (_ && _); [done|]. cbn [Z.eqb Pos.eqb IBV_QPT_RC]. destruct (beyond _ _); [done|].
  intros H. by injection H as <-.
Qed.

(** ** Correctness of batches *)

(** C27: a batch of requests on a reliable connection with room for it can be
    given up.  Whether [ibv_wr_abort] ends it, or [ibv_wr_complete] does because
    a request has more gather entries than the queue pair takes (it then reports
    ENOMEM, whatever is built before and after that request, and rings no
    doorbell), the queue pair has its posting index, cached fence, head and
    configuration from before the batch; its software rings keep the ids, numbers
    and opcodes of every slot the batch was not built in, and memory every byte
    outside those slots; and every batch that had room before has it again.
    (Without room the first call already overwrites the WQE built last: see
    [ex_full_queue_rewrites].) *)
Theorem ex_batch_rolls_back e pf ops attr s wrs :
  mlx5_qp_fill_wr_pfns (xq s) IBV_QPT_RC ops attr = Some (Filled pf) ->
  ex_fits (xq s) (fit (xq s) <$> wrs) ->
  let n := total_slots (fit (xq s) <$> wrs) in
  exists t, ex_run e pf (batch_of wrs) (mlx5_send_wr_start s) = Some t /\
    (existsb (too_many (xq s)) wrs = true -> ex_batch e pf (batch_of wrs) s = Some (ENOMEM, mlx5_send_wr_abort t, [])) /\
    let s' := mlx5_send_wr_abort t in
    (exists ids heads data, xq s' = with_sq (xq s) (with_wr_data (with_post (sq (xq s)) ids heads (cur_post (sq (xq s)))) data)) /\
    rings_kept (in_slots (xq s) (cur_post (sq (xq s))) n) (sq (xq s)) (sq (xq s')) /\
    (forall a, outside (xq s) (64 * cur_post (sq (xq s))) (4 * n) a -> ld8 (xm s') a = ld8 (xm s) a) /\
    (forall wrs', ex_fits (xq s) wrs' -> ex_fits (xq s') wrs').
Proof.
  intros [Hpf Hps]%fill_rc [Hok Hrc Hf Hm Hq Ht _]. cbv zeta. set (qp := xq s) in *.
  assert (alen (fit qp <$> wrs) = alen wrs) as Hl by (unfold alen; by rewrite length_fmap). rewrite Hl in Hq.
  destruct (ex_chain e pf (alen wrs) wrs Hpf Hps (cur_post (sq qp)) (mlx5_send_wr_start s))
    as (t & E & (data & ids & heads & cur & fm & Hqp) & Hok' & _ & _ & He & K & _ & F);
    cbn [xq mlx5_send_wr_start]; fold qp; try done; try (cbn; lia).
  { symmetry. apply wrapu_small, Hok. }
  cbn [perr xq xm mlx5_send_wr_start] in *. fold qp in Hqp, He, K, F.
  destruct (ex_run_kept _ _ _ _ _ E) as [C _]. assert (Hrb : cur_post_rb t = cur_post (sq qp)) by exact (f_equal (fun c => fst (fst c)) C).
  assert (Hfb : fm_cache_rb t = fm_cache qp) by exact (f_equal (fun c => snd (fst c)) C).
  exists t. split; [exact E|]. split.
  { intros Hb. unfold ex_batch. rewrite E. cbn [mbind option_bind]. unfold mlx5_send_wr_complete. by rewrite He, Hb. }
  unfold mlx5_send_wr_abort, roll_back. rewrite Hrb, Hfb. cbn [xq xm with_xq]. rewrite Hqp in *. split_and!.
  - exists ids, heads, data. by destruct qp as [????????? [] ????????].
  - destruct K as [K1 K2 K3]. by constructor.
  - exact F.
  - intros wrs' [H1 H2 H3 H4 H5 H6 H7]. constructor; try done.
    + destruct H1, Hok'. by constructor.
    + eapply Forall_impl; [exact H3|]. intros w Hw. apply (ex_request_cfg qp); [|done]. by exists data, ids, heads, (cur_post (sq qp)), (fm_cache qp).
Qed.

(** A read, and an atomic with nine gather entries for a queue of four. *)
Definition sample_bad_chain : list ibv_send_wr :=
  [sample_wr IBV_WR_RDMA_READ [Sge 0x3000 8 1]; sample_wr IBV_WR_ATOMIC_FETCH_AND_ADD (replicate 9 (Sge 0x3000 8 1))].

Lemma ex_batch_rolls_back_witness :
  exists t, ex_run sample_env rc_pfns (batch_of sample_bad_chain) (mlx5_send_wr_start (sample_mqp (sample_qp IBV_QPT_RC 3 0 true))) = Some t /\
    ex_batch sample_env rc_pfns (batch_of sample_bad_chain) (sample_mqp (sample_qp IBV_QPT_RC 3 0 true)) =
      Some (ENOMEM, mlx5_send_wr_abort t, []) /\ cur_post (sq (xq t)) = 5 /\ cur_post (sq (xq (mlx5_send_wr_abort t))) = 3.
Proof.
  destruct (ex_batch_rolls_back sample_env rc_pfns 0 None (sample_mqp (sample_qp IBV_QPT_RC 3 0 true)) sample_bad_chain)
    as (t & E & Hb & (ids & heads & data & Hq) & _).
  - reflexivity.
  - constructor; try done; try (by apply sample_sq_ok); try (by left + right).
    constructor; [|constructor; [|constructor]]; constructor; try (vm_compute; done);
      try (repeat constructor; vm_compute; done); intros; repeat constructor; vm_compute; auto.
  - exists t. split; [exact E|]. split; [exact (Hb eq_refl)|]. split; [|rewrite Hq; reflexivity].
    assert ((fun t => cur_post (sq (xq t))) <$> ex_run sample_env rc_pfns (batch_of sample_bad_chain)
      (mlx5_send_wr_start (sample_mqp (sample_qp IBV_QPT_RC 3 0 true))) = Some 5) as Hc by (vm_compute; reflexivity).
    rewrite E in Hc. by injection Hc.
Defined.

(** C18: a batch of RDMA, send and atomic requests on a reliable connection
    with room for it, built call by call through the function table of its
    queue pair, succeeds: every request is in the send ring in order as the
    device reads it (an immediate where the request has one), the doorbell
    record holds the 16-bit index behind the batch, the queue accounts for its
    requests, and no byte outside the ring and that record changes. *)
Theorem ex_batch_rc_chain e pf ops attr s wrs :
  mlx5_qp_fill_wr_pfns (xq s) IBV_QPT_RC ops attr = Some (Filled pf) ->
  ex_fits (xq s) wrs -> wrs <> [] ->
  exists s' ev, ex_batch e pf (batch_of wrs) s = Some (0, s', ev) /\
    chain_built (xq s) (xm s') (cur_post (sq (xq s))) (fm_cache (xq s)) wrs /\
    ld_be 4 (xm s') (db (xq s) + 4) = (cur_post (sq (xq s)) + total_slots wrs) mod 2 ^ 16 /\
    cur_post (sq (xq s')) = u32 (cur_post (sq (xq s)) + total_slots wrs) /\
    outstanding (xq s') = outstanding (xq s) + alen wrs /\
    (forall a, (a < sq_start (xq s) \/ qend (sq (xq s)) <= a) -> (a < db (xq s) + 4 \/ db (xq s) + 8 <= a) ->
       ld8 (xm s') a = ld8 (xm s) a).
Proof.
  intros [Hpf Hps]%fill_rc [Hok Hrc Hf Hm Hq Ht Hdb] Hne. set (qp := xq s) in *.
  assert (0 < alen wrs) by (destruct wrs; [done|unfold alen; cbn [length]; lia]). destruct (fit_id _ _ Hf) as [Hid Hbad].
  destruct (ex_chain e pf (alen wrs) wrs Hpf Hps (cur_post (sq qp)) (mlx5_send_wr_start s))
    as (t & E & (data & ids & heads & cur & fm & Hqp) & _ & Hcur & Hn & He & _ & C & F);
    cbn [xq mlx5_send_wr_start]; fold qp; rewrite ?Hid; try done; try (cbn; lia).
  { cbn. symmetry. apply wrapu_small, Hok. }
  cbn [nreq perr xq xm mlx5_send_wr_start] in *. fold qp in Hqp, Hcur, He, C, F. rewrite Hid, Hbad in *. cbn [noted] in He. rewrite Z.add_0_l in Hn.
  unfold ex_batch. rewrite E. cbn [mbind option_bind]. unfold mlx5_send_wr_complete. rewrite He. cbn [negb Z.eqb].
  unfold post_send_db. rewrite Hqp in *. rewrite Hn, (proj2 (Z.eqb_neq _ _)) by lia. do 2 eexists. split; [done|].
  cbn [xm xq with_xm with_xq]. change (cur = u32 (cur_post (sq qp) + total_slots wrs)) in Hcur.
  cbn [db with_bf with_sq with_fm_cache]. split_and!.
  - apply chain_built_ext with (xm t); [done| |exact C]. intros j b Hj Hb. apply ld8_st_be_out.
    pose proof (ring_range qp Hok (64 * cur_post (sq qp) + 16 * j)).
    destruct (ring_unit qp Hok (64 * cur_post (sq qp) + 16 * j)) as (q & Hq' & ?); [exists (4 * cur_post (sq qp) + j); lia|].
    rewrite (sq_qend _ Hok) in Hdb. lia.
  - apply db_record_value. cbn. by rewrite Hcur.
  - done.
  - by apply (outstanding_post _ _ _ (max_post (sq qp))); [| lia |].
  - intros a Ha Hd. rewrite ld8_st_be_out by (cbn; lia). apply F.
    destruct (in_ring_units qp (cur_post (sq qp)) (4 * total_slots wrs) a Hok); [done|lia].
Qed.

Lemma ex_batch_rc_chain_witness :
  exists s' ev, ex_batch sample_env rc_pfns (batch_of sample_chain) (sample_mqp (sample_qp IBV_QPT_RC 3 0 true)) = Some (0, s', ev) /\
    chain_built (sample_qp IBV_QPT_RC 3 0 true) (xm s') 3 0 sample_chain /\ cur_post (sq (xq s')) = 6.
Proof.
  destruct (ex_batch_rc_chain sample_env rc_pfns 0 None (sample_mqp (sample_qp IBV_QPT_RC 3 0 true)) sample_chain)
    as (s' & ev & E & C & _ & Hc & _).
  - reflexivity.
  - constructor; try done; try (by apply sample_sq_ok); try (by left + right).
    constructor; [|constructor; [|constructor]]; constructor; try (vm_compute; done);
      try (repeat constructor; vm_compute; done); intros; repeat constructor; vm_compute; auto.
  - done.
  - exists s', ev. split_and!; [done|exact C|exact Hc].
Defined.

(** A batch that is refused because the queue is full has already written
    its remote address and key over those of the WQE built last, which may
    still be outstanding: the builder goes on with the stale [cur_ctrl] after
    the overflow was noted. *)
Theorem ex_full_queue_rewrites e pf ops attr s q id flags rkey addr lkey buf len :
  mlx5_qp_fill_wr_pfns (xq s) IBV_QPT_RC ops attr = Some (Filled pf) ->
  sq_ok (xq s) -> qp_type (xq s) = IBV_QPT_RC -> mlx5_wq_overflow (sq (xq s)) 0 = true ->
  last_built_at s q -> in_width 64 addr -> in_width 32 rkey ->
  exists s', ex_batch e pf [SetWr id flags; WrRdmaWrite rkey addr; WrSetSge lkey buf len] s = Some (ENOMEM, s', []) /\
    ld_be 8 (xm s') (ring (xq s) (64 * q) + 16) = addr /\ ld_be 4 (xm s') (ring (xq s) (64 * q) + 24) = rkey.
Proof.
  intros [Hpf Hps]%fill_rc Hok Hrc Hov Hc Ha Hk. unfold in_width, last_built_at in *.
  pose proof (wrap_slot (xq s) q 16 Hok ltac:(lia)) as W. set (c := ring (xq s) (64 * q)) in *.
  pose (s1 := with_perr (with_wr (mlx5_send_wr_start s) id flags) ENOMEM).
  assert (Hi : _common_wqe_init IBV_WR_RDMA_WRITE (with_wr (mlx5_send_wr_start s) id flags) = Some s1).
  { unfold _common_wqe_init. cbn [mbind option_bind]. change (mlx5_ib_opcode.[_]) with (Some MLX5_OPCODE_RDMA_WRITE).
    cbn [mbind option_bind]. unfold _common_wqe_init_op. cbn [xq nreq with_wr mlx5_send_wr_start]. by rewrite Hov. }
  assert (W' : wrap_seg (xq s1) (cur_ctrl s1 + 16) = cur_ctrl s1 + 16) by (change (cur_ctrl s1) with (cur_ctrl s); by rewrite Hc).
  pose proof (rdma_runs _ _ _ Hi Hrc W' rkey addr) as Hr. unfold header_done in Hr.
  unfold ex_batch. cbn [ex_run ex_step mbind option_bind]. unfold wr_builder. rewrite Hpf. cbn [connected guard_pf].
  unfold mlx5_send_wr_rdma_write. rewrite Hr. cbn [mbind option_bind]. unfold wr_setter. rewrite Hps. cbn [mbind option_bind].
  set (m1 := set_raddr_seg _ _ _ _) in *. set (s2 := with_setters _ _) in *.
  assert (M1 : ld_be 8 m1 (c + 16) = addr /\ ld_be 4 m1 (c + 24) = rkey).
  { unfold m1, set_raddr_seg. change (cur_ctrl s1) with (cur_ctrl s). rewrite Hc.
    replace (c + 24) with (c + 16 + 8) by lia. split; mem_load; apply Z.mod_small; simpl; lia. }
  unfold mlx5_send_wr_complete.
  assert (perr (mlx5_send_wr_set_sge_rc_uc lkey buf len s2) = ENOMEM) as ->.
  { unfold mlx5_send_wr_set_sge_rc_uc. destruct (kept_finalize s2 (_mlx5_send_wr_set_sge lkey buf len s2)) as [_ E];
      [by apply kept_set_sge|]. by rewrite E. }
  cbn [negb Z.eqb ENOMEM]. eexists. split; [done|]. destruct M1 as [Ma Mk].
  assert (M2 : forall a, c + 16 <= a < c + 32 -> ld8 (xm (mlx5_send_wr_set_sge_rc_uc lkey buf len s2)) a = ld8 m1 a).
  { intros a Hx. unfold mlx5_send_wr_set_sge_rc_uc, _common_wqe_finalize, __wqe_finalize, _mlx5_send_wr_set_sge, put_data_seg.
    destruct (len =? 0), (wq_sig (xq s2)) eqn:Hs; cbn [xq xm with_xq with_xm with_size]; rewrite Hs;
      cbn [xq xm with_xq with_xm with_size cur_ctrl cur_data s2 with_setters with_nreq with_data s1 with_perr with_wr
           mlx5_send_wr_start]; rewrite Hc; by mem_load. }
  split; (etrans; [|(exact Ma || exact Mk)]); apply ld_be_ext; intros b Hb; apply M2; lia.
Qed.

Lemma ex_full_queue_rewrites_witness :
  exists s', ex_batch sample_env rc_pfns [SetWr 1 0; WrRdmaWrite 6 0xb000; WrSetSge 2 0x5000 8]
      (with_ctrl (sample_mqp (with_sq (sample_qp IBV_QPT_RC 7 0 true) (with_head (sq (sample_qp IBV_QPT_RC 7 0 true)) 4))) 0x1080)
      = Some (ENOMEM, s', []) /\ ld_be 8 (xm s') (0x1080 + 16) = 0xb000.
Proof.
  destruct (ex_full_queue_rewrites sample_env rc_pfns 0 None
    (with_ctrl (sample_mqp (with_sq (sample_qp IBV_QPT_RC 7 0 true) (with_head (sq (sample_qp IBV_QPT_RC 7 0 true)) 4))) 0x1080)
    6 1 0 6 0xb000 2 0x5000 8) as (s' & E & H & _); try done.
  - constructor; try done. by exists 2.
  - by exists s'.
Defined.

Lemma fill_eth qp ops attr pf :
  mlx5_qp_fill_wr_pfns qp IBV_QPT_RAW_PACKET ops attr = Some (Filled pf) ->
  pf_builders pf = builders_eth /\ pf_setters pf = setters_eth.
Proof.
  unfold mlx5_qp_fill_wr_pfns. cbv zeta. destruct (negb (atomics_enabled qp) && _); [done|].
  destruct (_ && _); [done|]. cbn [Z.eqb Pos.eqb IBV_QPT_RAW_PACKET IBV_QPT_RC IBV_QPT_UC IBV_QPT_XRC_SEND IBV_QPT_UD].
  destruct (_ || _); [done|]. intros H. by injection H as <-.
Qed.

(** The header copied by [set_tso_eth_seg] up to the end of the queue, the
    control segment being in the last slot but one. *)
Lemma tso_fills_queue qp s hdr hdr_sz mss :
  seg s = qend (sq qp) - 112 -> 83 <= hdr_sz <= 98 -> hdr_sz <= max_tso_header qp ->
  exists m, set_tso_eth_seg qp s hdr hdr_sz mss = (0, with_seg s m (qend (sq qp) - 32) (size s + 5)).
Proof.
  intros Hs Hz Hmax. unfold set_tso_eth_seg. cbv zeta. unfold MLX5_ETH_L2_MIN_HEADER_SIZE, eth_inline_hdr_start.
  rewrite (proj2 (Z.ltb_ge hdr_sz 14)), (proj2 (Z.ltb_ge (max_tso_header qp) hdr_sz)) by lia. cbn [orb].
  rewrite Hs. replace (Z.min _ hdr_sz) with hdr_sz by lia. rewrite Z.ltb_irrefl.
  assert (align (hdr_sz - 2) 16 = 96) as ->.
  { change 16 with (2 ^ 4). rewrite align_up by lia. change (2 ^ 4) with 16.
    replace ((hdr_sz - 2 + 16 - 1) / 16) with 6 by dlia. done. }
  eexists. f_equal. unfold with_seg. f_equal. lia.
Qed.

Lemma tso_cursor s hdr hdr_sz mss :
  sq_ok (xq s) -> mlx5_wq_overflow (sq (xq s)) (nreq s) = false -> sq_idx (sq (xq s)) = wqe_cnt (sq (xq s)) - 2 ->
  has (wr_flags s) IBV_SEND_IP_CSUM = false -> 83 <= hdr_sz <= 98 -> hdr_sz <= max_tso_header (xq s) ->
  exists s', mlx5_send_wr_send_tso hdr hdr_sz mss s = Some s' /\ cur_data s' = qend (sq (xq s)) /\ cur_eth s' = 0 /\
    cur_ctrl s' = qend (sq (xq s)) - 128 /\ perr s' = perr s.
Proof.
  intros Hok Hov Hidx Hfl Hz Hmax. set (qp := xq s) in *.
  pose proof (sq_idx_range qp Hok) as Hr. pose proof (sq_qend _ Hok) as Hqe.
  assert (Hctrl : mlx5_get_send_wqe qp (sq_idx (sq qp)) = qend (sq qp) - 128).
  { unfold mlx5_get_send_wqe, MLX5_SEND_WQE_SHIFT. rewrite Z.shiftl_mul_pow2, Hidx, Hqe by lia. lia. }
  assert (exists q, fill_rings s 0 = Some q /\ qend q = qend (sq qp)) as (q & Hq & Hqq).
  { unfold fill_rings. fold qp.
    rewrite !aset_Some by (by rewrite ?(sq_wrid _ Hok), ?(sq_heads _ Hok), ?(sq_data _ Hok)). by eexists. }
  unfold mlx5_send_wr_send_tso, _common_wqe_init. change (mlx5_ib_opcode.[_]) with (Some MLX5_OPCODE_TSO).
  cbn [mbind option_bind]. unfold _common_wqe_init_op. fold qp. rewrite Hov. change (wr_data_of _ _) with 0.
  rewrite Hq. cbn [mbind option_bind]. rewrite Hctrl. set (c := qend (sq qp) - 128).
  unfold eth_csum. cbn [wr_flags with_xm with_ctrl with_xq]. rewrite Hfl. cbn [negb].
  cbn [xq xm cur_ctrl with_xm with_ctrl with_xq]. set (m1 := memset _ _ _ _).
  destruct (tso_fills_queue (with_fm_cache (with_sq qp q) 0) (Wst m1 (c + sizeof_ctrl) 0 0 0 0 0 0 false) hdr hdr_sz mss)
    as [m2 E2]; try done.
  { cbn. unfold c, sizeof_ctrl. lia. }
  rewrite E2. cbn [negb Z.eqb]. eexists. split_and!; try done. cbn. rewrite Hqq. unfold sizeof_eth. lia.
Qed.

Lemma finalize_frame s a :
  a < cur_ctrl s \/ cur_ctrl s + 16 <= a -> ld8 (xm (_common_wqe_finalize s)) a = ld8 (xm s) a.
Proof.
  intros Ha. unfold _common_wqe_finalize, __wqe_finalize. cbn [xq with_xm].
  destruct (wq_sig (xq s)); cbn [xm with_xq with_xm cur_ctrl]; by mem_load.
Qed.

Lemma finalize_perr s : perr (_common_wqe_finalize s) = perr s.
Proof. unfold _common_wqe_finalize, __wqe_finalize. cbn [xq with_xm]. by destruct (wq_sig (xq s)). Qed.

(** On a raw packet queue pair, a segmentation offload request whose
    header is 83 to 98 bytes long (TCP with timestamps over IPv6 has 86), built
    in the last slot but one of the send queue, has its gather entry written
    behind the end of the queue: the header ends there, and
    [mlx5_send_wr_set_sge_eth] does not wrap [cur_data]. *)
Theorem tso_gather_past_queue e pf ops attr s hdr hdr_sz mss lkey addr len :
  mlx5_qp_fill_wr_pfns (xq s) IBV_QPT_RAW_PACKET ops attr = Some (Filled pf) ->
  sq_ok (xq s) -> mlx5_wq_overflow (sq (xq s)) (nreq s) = false -> at_last_but_one s ->
  has (wr_flags s) IBV_SEND_IP_CSUM = false -> 83 <= hdr_sz <= 98 -> hdr_sz <= max_tso_header (xq s) ->
  0 < len < 2 ^ 32 -> in_width 64 addr ->
  exists s', ex_run e pf [WrSendTso hdr hdr_sz mss; WrSetSge lkey addr len] s = Some s' /\ perr s' = perr s /\
    ld_be 4 (xm s') (qend (sq (xq s))) = len /\ ld_be 8 (xm s') (qend (sq (xq s)) + 8) = addr.
Proof.
  intros [Hpf Hps]%fill_eth Hok Hov Hidx Hfl Hz Hmax Hlen Ha. unfold in_width in *.
  destruct (tso_cursor s hdr hdr_sz mss) as (s1 & E1 & Hd & He & Hc & Hp); try done.
  unfold ex_run, ex_step, wr_builder, wr_setter. rewrite Hpf, Hps. cbn [not_eth negb guard_pf].
  rewrite E1. cbn [mbind option_bind]. eexists. split; [done|].
  unfold mlx5_send_wr_set_sge_eth. rewrite He. cbn [Z.eqb negb].
  unfold _mlx5_send_wr_set_sge. rewrite (proj2 (Z.eqb_neq len 0)) by lia. set (s2 := with_size _ _).
  rewrite finalize_perr. split; [exact Hp|].
  split; (etrans; [apply ld_be_ext; intros b Hb; apply finalize_frame; change (cur_ctrl s2) with (cur_ctrl s1); lia|]);
    unfold s2, put_data_seg; cbn [xm with_size with_xm]; rewrite Hd; mem_load; apply Z.mod_small; simpl; lia.
Qed.

Lemma tso_gather_past_queue_witness :
  exists s', ex_run sample_env eth_pfns [WrSendTso 0x7000 86 1000; WrSetSge 3 0x4000 500]
      (sample_mqp (sample_tso_qp 2)) = Some s' /\ qend (sq (xq s')) = 0x1100 /\ ld_be 4 (xm s') 0x1100 = 500.
Proof.
  destruct (tso_gather_past_queue sample_env eth_pfns 0 None (sample_mqp (sample_tso_qp 2)) 0x7000 86 1000 3 0x4000 500)
    as (s' & E & _ & H & _); try done.
  - constructor; try done. by exists 2.
  - exists s'. split; [done|]. split; [|done].
    destruct (ex_run_kept _ _ _ _ _ E) as [C _].
    exact (f_equal (fun c => qend (sq (snd c))) C).
Defined.
