(* ===== verification/PostRecv.v ===== *)
(** providers/mlx5/qp.c: the receive side of a queue pair.

    [mlx5_post_recv] and [mlx5_post_wq_recv] fill receive WQEs; the scatter
    routines ([copy_to_scat] and its callers) deliver data the device put into a
    completion to the buffers named by a WQE; [mlx5_bind_mw] posts a memory
    window binding.  The theorems: a list of receives is in the receive ring as
    the device reads it; what [mlx5_copy_to_send_wqe] reads back from a posted
    send WQE is the gather list of the request, also where the WQE wraps. *)

From S2P Require Import Prelude Mem Wqe PostSend PostSendSpec.

(** ** Posting receives *)

Record ibv_recv_wr := RecvWr { rwr_id : Z; rwr_sges : list ibv_sge; rwr_num_sge : Z }.

(** What the two posting functions read of their queue: the address of the
    first WQE, the limit on the number of entries, the signature flag and the
    queue number. *)
Record recv_cfg := RecvCfg { rc_base : Z; rc_gs : Z; rc_sig : bool; rc_qpn : Z }.

Definition get_recv_wqe (qp : mlx5_qp) (n : Z) : Z :=
  qp_buf qp + wq_offset (rq qp) + Z.shiftl n (wqe_shift (rq qp)).

(** The loop over the entries; [j] is the next segment. *)
Fixpoint recv_sges (m : mem) (scat : Z) (sges : list ibv_sge) (j : Z) : mem * Z :=
  match sges with
  | [] => (m, j)
  | g :: sges' =>
    if sg_length g =? 0 then recv_sges m scat sges' j
    else recv_sges (set_data_ptr_seg m (scat + 16 * j) g 0) scat sges' (j + 1)
  end.

(** [sign = calc_sig (sig, size) ^ calc_sig (&qpn, 4) ^ calc_sig (&idx, 2)]. *)
Definition sig_of_bytes (bs : list Z) : Z := notu 8 (fold_left Z.lxor bs 0).
Definition set_sig_seg (m : mem) (sig size qpn idx : Z) : mem :=
  st8 m (sig + 4)
    (Z.lxor (Z.lxor (calc_sig m sig size) (sig_of_bytes (le_bytes 4 qpn))) (sig_of_bytes (le_bytes 2 idx))).

(** The WQE of one receive at address [a]. *)
Definition recv_wqe (c : recv_cfg) (q : mlx5_wq) (m : mem) (a : Z) (w : ibv_recv_wr) : option mem :=
  let m := if rc_sig c then memset m a 0 (Z.shiftl 1 (wqe_shift q)) else m in
  let scat := if rc_sig c then a + 16 else a in
  if negb ((rwr_num_sge w <=? alen (rwr_sges w))) then None else
  let '(m, j) := recv_sges m scat (take (Z.to_nat (rwr_num_sge w)) (rwr_sges w)) 0 in
  let m := if j <? max_gs q then set_data_ptr_seg_end m (scat + 16 * j) else m in
  Some (if rc_sig c then set_sig_seg m a (Z.shiftl (rwr_num_sge w + 1) 4) (rc_qpn c) (Z.land (head q) 0xffff) else m).

Fixpoint recv_loop (c : recv_cfg) (q : mlx5_wq) (nreq ind : Z) (wrs : list ibv_recv_wr) (m : mem) (ids : list Z)
  : option (Z * Z * list ibv_recv_wr * mem * list Z) :=
  match wrs with
  | [] => Some (0, nreq, [], m, ids)
  | w :: wrs' =>
    if mlx5_wq_overflow q nreq then Some (ENOMEM, nreq, wrs, m, ids)
    else if rc_gs c <? rwr_num_sge w then Some (EINVAL, nreq, wrs, m, ids)
    else
      m ← recv_wqe c q m (rc_base c + Z.shiftl ind (wqe_shift q)) w;
      ids ← aset ids ind (rwr_id w);
      recv_loop c q (nreq + 1) (Z.land (ind + 1) (u32 (wqe_cnt q - 1))) wrs' m ids
  end.

Definition with_recv (q : mlx5_wq) (ids : list Z) (h : Z) : mlx5_wq :=
  Wq ids (wqe_head q) (wqe_cnt q) (max_post q) h (tail q) (cur_post q)
    (max_gs q) (qp_state_max_gs q) (wqe_shift q) (wq_offset q) (qend q) (wr_data q).

Definition with_rq (qp : mlx5_qp) (q : mlx5_wq) : mlx5_qp :=
  Qp (qp_type qp) (qp_num qp) (qp_state qp) (qp_buf qp) (max_inline_data qp) (bf qp) (fm_cache qp)
    (sq_signal_bits qp) (sq_start qp) (sq qp) (db qp) q (wq_sig qp) (qp_cap_cache qp)
    (atomics_enabled qp) (max_tso qp) (max_tso_header qp) (qp_flags qp).

Definition IBV_QPS_RTR : Z := 2.

Definition qp_recv_cfg (qp : mlx5_qp) : recv_cfg :=
  RecvCfg (qp_buf qp + wq_offset (rq qp)) (qp_state_max_gs (rq qp)) (wq_sig qp) (qp_num qp).

(** The error, [*bad_wr] and the rest of the list, the queue pair and memory. *)
Definition mlx5_post_recv (qp : mlx5_qp) (m : mem) (wrs : list ibv_recv_wr)
  : option (Z * list ibv_recv_wr * mlx5_qp * mem) :=
  let ind := Z.land (head (rq qp)) (u32 (wqe_cnt (rq qp) - 1)) in
  r ← recv_loop (qp_recv_cfg qp) (rq qp) 0 ind wrs m (wrid (rq qp));
  let '(err, nreq, bad, m, ids) := r in
  let bad := if err =? 0 then [] else bad in
  if nreq =? 0 then Some (err, bad, with_rq qp (with_recv (rq qp) ids (head (rq qp))), m) else
  let qp := with_rq qp (with_recv (rq qp) ids (u32 (head (rq qp) + nreq))) in
  let m := if negb (((qp_type qp =? IBV_QPT_RAW_PACKET) || has (qp_flags qp) MLX5_QP_FLAGS_USE_UNDERLAY) &&
                    (qp_state qp <? IBV_QPS_RTR))
           then st_be 4 m (db qp) (Z.land (head (rq qp)) 0xffff) else m in
  Some (err, bad, qp, m).

(** A work queue of an RSS table: [pbuff], [recv_db], [wq_num]. *)
Record mlx5_rwq := Rwq { pbuff : Z; rwq_rq : mlx5_wq; recv_db : Z; rwq_sig : bool; wq_num : Z }.

Definition mlx5_post_wq_recv (rwq : mlx5_rwq) (m : mem) (wrs : list ibv_recv_wr)
  : option (Z * list ibv_recv_wr * mlx5_rwq * mem) :=
  let q := rwq_rq rwq in
  let ind := Z.land (head q) (u32 (wqe_cnt q - 1)) in
  r ← recv_loop (RecvCfg (pbuff rwq) (max_gs q) (rwq_sig rwq) (wq_num rwq)) q 0 ind wrs m (wrid q);
  let '(err, nreq, bad, m, ids) := r in
  let bad := if err =? 0 then [] else bad in
  if nreq =? 0 then Some (err, bad, Rwq (pbuff rwq) (with_recv q ids (head q)) (recv_db rwq) (rwq_sig rwq) (wq_num rwq), m)
  else
    let h := u32 (head q + nreq) in
    Some (err, bad, Rwq (pbuff rwq) (with_recv q ids h) (recv_db rwq) (rwq_sig rwq) (wq_num rwq),
          st_be 4 m (recv_db rwq) (Z.land h 0xffff)).

(** ** Scattering received data *)

Definition IBV_WC_SUCCESS : Z := 0.
Definition IBV_WC_LOC_LEN_ERR : Z := 1.
Definition IBV_WC_REM_INV_REQ_ERR : Z := 9.
Definition IBV_WC_GENERAL_ERR : Z := 21.

(** The loop of [copy_to_scat] over [max] segments; [fill] is the key of the
    NULL memory region, whose segments are skipped.  It returns the status, the
    memory and the bytes left. *)
Fixpoint scat_loop (fill : Z) (max : nat) (m : mem) (scat buf size : Z) : Z * mem * Z :=
  match max with
  | O => (IBV_WC_LOC_LEN_ERR, m, size)
  | S max' =>
    let copy := Z.min size (ld_be 4 m scat) in
    let m := if ld_be 4 m (scat + 4) =? fill then m else memcpy m (ld_be 8 m (scat + 8)) buf copy in
    if size - copy =? 0 then (IBV_WC_SUCCESS, m, 0)
    else scat_loop fill max' m (scat + 16) (buf + copy) (size - copy)
  end.

Definition copy_to_scat (fill : Z) (m : mem) (scat buf size max : Z) : Z * mem * Z :=
  if size =? 0 then (IBV_WC_SUCCESS, m, size) else scat_loop fill (Z.to_nat max) m scat buf size.

Definition mlx5_copy_to_recv_wqe (fill : Z) (qp : mlx5_qp) (m : mem) (idx buf size : Z) : Z * mem :=
  let max := Z.shiftl 1 (wqe_shift (rq qp) - 4) in
  let scat := get_recv_wqe qp idx in
  let scat := if wq_sig qp then scat + 16 else scat in
  fst (copy_to_scat fill m scat buf size max).

Definition mlx5_copy_to_send_wqe (fill : Z) (qp : mlx5_qp) (m : mem) (idx buf size : Z) : Z * mem :=
  let idx := Z.land idx (u32 (wqe_cnt (sq qp) - 1)) in
  let ctrl := mlx5_get_send_wqe qp idx in
  if negb (qp_type qp =? IBV_QPT_RC) then (IBV_WC_GENERAL_ERR, m) else
  let op := Z.land (ld_be 4 m ctrl) 0xff in
  let off := if op =? MLX5_OPCODE_RDMA_READ then Some (sizeof_ctrl + sizeof_raddr)
             else if (op =? MLX5_OPCODE_ATOMIC_CS) || (op =? MLX5_OPCODE_ATOMIC_FA)
             then Some (sizeof_ctrl + (sizeof_raddr + sizeof_atomic)) else None in
  match off with
  | None => (IBV_WC_REM_INV_REQ_ERR, m)
  | Some off =>
    let scat := ctrl + off in
    let max := Z.land (ld_be 4 m (ctrl + 4)) 0x3F - Z.shiftr (scat - ctrl) 4 in
    if qend (sq qp) <? scat + 16 * max then
      let tmp := Z.shiftr (qend (sq qp) - scat) 4 in
      let '(st, m, left_) := copy_to_scat fill m scat buf size tmp in
      if st =? IBV_WC_SUCCESS then (IBV_WC_SUCCESS, m)
      else fst (copy_to_scat fill m (mlx5_get_send_wqe qp 0) (buf + (size - left_)) left_ (max - tmp))
    else fst (copy_to_scat fill m scat buf size max)
  end.

(** The address and the size of the buffer of an atomic's result. *)
Definition mlx5_get_atomic_laddr (qp : mlx5_qp) (m : mem) (idx : Z) : Z * Z :=
  let dpseg := mlx5_get_send_wqe qp idx + sizeof_ctrl + sizeof_raddr + sizeof_atomic in
  (ld_be 8 m (dpseg + 8), 8).

(** ** Binding a memory window *)

Definition ENOTSUP : Z := 95.
Definition IBV_MR_TYPE_MR : Z := 0.

(** [ibv_inc_rkey]: the low byte of the key is incremented. *)
Definition ibv_inc_rkey (rkey : Z) : Z :=
  let mask := 0xff in
  let newtag := u8 (Z.land (rkey + 1) mask) in
  Z.lor (Z.land rkey (notu 32 mask)) newtag.

(** A memory window is its type and key; [mr] is the type and the allocation
    flags of the region to bind, [None] for NULL. *)
Definition mlx5_bind_mw (ctx : mlx5_context) (qp : mlx5_qp) (m : mem) (type rkey : Z)
    (id flags : Z) (mr : option (Z * Z)) (bi : ibv_mw_bind_info)
  : option (Z * Z * mlx5_qp * mem * list mmio_event) :=
  if has (bi_access bi) IBV_ACCESS_ZERO_BASED then Some (EINVAL, rkey, qp, m, [])
  else
    let err := match mr with
               | Some (mr_type, alloc_flags) =>
                 if negb (mr_type =? IBV_MR_TYPE_MR) then ENOTSUP
                 else if has alloc_flags IBV_ACCESS_ZERO_BASED then EINVAL else 0
               | None => 0
               end in
    if negb (err =? 0) then Some (err, rkey, qp, m, []) else
    let newkey := ibv_inc_rkey rkey in
    let wr := SendWr id [] 0 IBV_WR_BIND_MW flags 0 0 0 0 0 0 type rkey newkey bi 0 0 0 in
    r ← _mlx5_post_send ctx qp m [wr];
    if negb (sr_err r =? 0) then Some (sr_err r, rkey, sr_qp r, sr_mem r, sr_mmio r)
    else Some (0, newkey, sr_qp r, sr_mem r, sr_mmio r).

(** ** Receive rings *)

(** The address of the WQE of the [h]-th receive. *)
Definition rslot (c : recv_cfg) (q : mlx5_wq) (h : Z) : Z :=
  rc_base c + (h mod wqe_cnt q) * 2 ^ wqe_shift q.

Definition sig_room (c : recv_cfg) : Z := if rc_sig c then 16 else 0.

(** A receive queue as it is created: a power of two of WQEs, each with room
    for the signature and the largest scatter list, never more receives than
    WQEs. *)
Record rq_ok (c : recv_cfg) (q : mlx5_wq) : Prop := {
  rk_pow2 : exists k, 0 <= k <= 16 /\ wqe_cnt q = 2 ^ k;
  rk_shift : 0 <= wqe_shift q;
  rk_room : sig_room c + 16 * max_gs q <= 2 ^ wqe_shift q;
  rk_gs : rc_gs c <= max_gs q;
  rk_ids : alen (wrid q) = wqe_cnt q;
  rk_post : 0 <= max_post q <= wqe_cnt q }.

Definition recv_request (c : recv_cfg) (w : ibv_recv_wr) : Prop :=
  0 <= rwr_num_sge w <= alen (rwr_sges w) /\ rwr_num_sge w <= rc_gs c /\ Forall sge_ok (rwr_sges w).

Definition scatter_of (w : ibv_recv_wr) : list ibv_sge :=
  List.filter nonempty (take (Z.to_nat (rwr_num_sge w)) (rwr_sges w)).

Definition seg_at (m : mem) (a : Z) (g : ibv_sge) : Prop :=
  ld_be 4 m a = sg_length g /\ ld_be 4 m (a + 4) = sg_lkey g /\ ld_be 8 m (a + 8) = sg_addr g.

(** The device's view of a receive: its non-empty entries, then the end mark
    unless the list is full. *)
Definition recv_encoded (c : recv_cfg) (q : mlx5_wq) (m : mem) (a : Z) (w : ibv_recv_wr) : Prop :=
  (forall j g, scatter_of w !! j = Some g -> seg_at m (a + sig_room c + 16 * Z.of_nat j) g) /\
  (alen (scatter_of w) < max_gs q ->
   seg_at m (a + sig_room c + 16 * alen (scatter_of w)) (Sge 0 0 MLX5_INVALID_LKEY)).

Lemma seg_at_ext m m' a g :
  (forall b, a <= b < a + 16 -> ld8 m' b = ld8 m b) -> seg_at m a g -> seg_at m' a g.
Proof.
  intros H (H1 & H2 & H3). split_and!; [rewrite <- H1|rewrite <- H2|rewrite <- H3];
    apply ld_be_ext; intros b Hb; apply H; lia.
Qed.

Lemma recv_sges_spec sges : forall m scat j,
  Forall sge_ok sges ->
  exists m', recv_sges m scat sges j = (m', j + alen (List.filter nonempty sges)) /\
    (forall k g, List.filter nonempty sges !! k = Some g -> seg_at m' (scat + 16 * (j + Z.of_nat k)) g) /\
    same_outside (scat + 16 * j) (scat + 16 * (j + alen (List.filter nonempty sges))) m m'.
Proof.
  induction sges as [|g sges IH]; intros m scat j Hf; simpl.
  { exists m. rewrite Z.add_0_r. done. }
  apply Forall_cons in Hf as [Hg Hf]. replace (sg_length g =? 0) with (negb (nonempty g)) by apply negb_involutive.
  destruct (nonempty g); cbn [negb]; [|by apply IH].
  destruct (IH (set_data_ptr_seg m (scat + 16 * j) g 0) scat (j + 1)) as (m' & E & D & F); [done|].
  pose proof (alen_nonneg (List.filter nonempty sges)).
  assert (alen (g :: List.filter nonempty sges) = alen (List.filter nonempty sges) + 1) as Hl
    by (unfold alen; cbn [length]; lia).
  exists m'. rewrite E, Hl. split_and!.
  - f_equal. lia.
  - intros [|k] g' Hk; simpl in Hk.
    + inv Hk. rewrite Z.add_0_r. apply seg_at_ext with (set_data_ptr_seg m (scat + 16 * j) g' 0).
      * intros b Hb. apply F. lia.
      * destruct Hg as (? & ? & ?). unfold in_width in *.
        unfold seg_at, set_data_ptr_seg. rewrite Z.sub_0_r, Z.add_0_r.
        split_and!; mem_load; apply Z.mod_small; simpl; lia.
    + specialize (D _ _ Hk). by replace (j + Z.of_nat (S k)) with (j + 1 + Z.of_nat k) by lia.
  - intros a Ha. rewrite F by lia. unfold set_data_ptr_seg. by mem_load.
Qed.

Lemma alen_scatter w : 0 <= rwr_num_sge w -> alen (scatter_of w) <= rwr_num_sge w.
Proof.
  intros. unfold scatter_of, alen. etrans.
  - apply inj_le. apply List.filter_length_le.
  - rewrite length_take. lia.
Qed.

Lemma recv_wqe_spec c q m a w :
  rq_ok c q -> recv_request c w ->
  exists m', recv_wqe c q m a w = Some m' /\ recv_encoded c q m' a w /\
    same_outside a (a + 2 ^ wqe_shift q) m m'.
Proof.
  intros Hq (Hn & Hg & Hs). pose proof (alen_scatter w ltac:(lia)) as Hle.
  pose proof (alen_nonneg (scatter_of w)). pose proof (rk_gs _ _ Hq). pose proof (rk_room _ _ Hq) as Hr.
  pose proof (rk_shift _ _ Hq).
  unfold recv_wqe. rewrite (proj2 (Z.leb_le _ _)) by lia. cbn [negb].
  set (m0 := if rc_sig c then memset _ _ _ _ else m).
  replace (if rc_sig c then a + 16 else a) with (a + sig_room c) by (unfold sig_room; destruct (rc_sig c); lia).
  assert (F0 : same_outside a (a + 2 ^ wqe_shift q) m m0).
  { unfold m0. destruct (rc_sig c); [|done]. apply same_outside_store; [done|].
    rewrite length_replicate, Z.shiftl_1_l. lia. }
  destruct (recv_sges_spec (take (Z.to_nat (rwr_num_sge w)) (rwr_sges w)) m0 (a + sig_room c) 0) as (m1 & E & D & F).
  { by apply Forall_take. }
  rewrite E. fold (scatter_of w) in *. rewrite Z.add_0_l in *. rewrite Z.mul_0_r, Z.add_0_r in F.
  set (n := alen (scatter_of w)) in *.
  set (m2 := if n <? max_gs q then _ else m1).
  assert (Hsr : 0 <= sig_room c) by (unfold sig_room; destruct (rc_sig c); lia).
  assert (F2 : same_outside (a + sig_room c + 16 * n) (a + sig_room c + 16 * (n + 1)) m1 m2).
  { unfold m2. zcase; [|done]. intros b Hb. unfold set_data_ptr_seg_end. by mem_load. }
  assert (Hin : n < max_gs q \/ m2 = m1) by (unfold m2; zcase; [by left|by right]).
  assert (R2 : recv_encoded c q m2 a w).
  { split.
    - intros j g Hj. specialize (D _ _ Hj). rewrite Z.add_0_l in D. apply seg_at_ext with m1; [|done].
      apply lookup_lt_Some in Hj. intros b Hb. apply F2. unfold n, alen. lia.
    - intros Hlt. unfold m2. fold n. rewrite (proj2 (Z.ltb_lt _ _)) by done.
      unfold seg_at, set_data_ptr_seg_end, MLX5_INVALID_LKEY. rewrite !st_le_0. split_and!; by mem_load. }
  eexists. split; [done|]. unfold recv_encoded in *. fold n in R2 |- *. split.
  - destruct (rc_sig c) eqn:Esig; [|done]. unfold sig_room in *. rewrite Esig in *. destruct R2 as [R2 R3]. split.
    + intros j g Hj. eapply seg_at_ext; [|by apply R2]. intros b Hb. unfold set_sig_seg. apply ld8_st8_out. lia.
    + intros Hlt. eapply seg_at_ext; [|by apply R3]. intros b Hb. unfold set_sig_seg. apply ld8_st8_out. lia.
  - transitivity m0; [done|]. transitivity m1.
    { eapply same_outside_weaken; [done|lia|lia]. }
    transitivity m2.
    { destruct Hin as [Hin| ->]; [|done]. eapply same_outside_weaken; [done|lia|lia]. }
    destruct (rc_sig c) eqn:Esig; [|done]. unfold sig_room in Hr. rewrite Esig in Hr.
    intros b Hb. unfold set_sig_seg. apply ld8_st8_out.
    assert (16 <= 2 ^ wqe_shift q) by lia. lia.
Qed.

(** Receives less than a lap apart have different WQEs. *)
Lemma rslot_disjoint c q h i j a :
  rq_ok c q -> i <> j -> - wqe_cnt q < i - j < wqe_cnt q ->
  rslot c q (h + i) <= a < rslot c q (h + i) + 2 ^ wqe_shift q ->
  ~ (rslot c q (h + j) <= a < rslot c q (h + j) + 2 ^ wqe_shift q).
Proof.
  intros Hq Hij Hlt Hi Hj. unfold rslot in *. pose proof (rk_shift _ _ Hq).
  pose proof (Z.pow_pos_nonneg 2 (wqe_shift q) ltac:(lia) ltac:(lia)) as Hp.
  set (s := 2 ^ wqe_shift q) in *. set (n := wqe_cnt q) in *.
  assert ((h + i) mod n = (h + j) mod n) as E by (clear Hij Hlt; nia).
  assert (0 < n) by lia.
  pose proof (Z.div_mod (h + i) n ltac:(lia)). pose proof (Z.div_mod (h + j) n ltac:(lia)).
  assert (i - j = n * ((h + i) / n - (h + j) / n)) as D by lia.
  destruct (Z.eq_dec ((h + i) / n - (h + j) / n) 0) as [E0|]; [rewrite E0 in D; lia|].
  set (d := (h + i) / n - (h + j) / n) in *. clearbody d. clear - D Hlt n0. nia.
Qed.

Lemma rslot_range c q h :
  rq_ok c q -> rc_base c <= rslot c q h /\ rslot c q h + 2 ^ wqe_shift q <= rc_base c + wqe_cnt q * 2 ^ wqe_shift q.
Proof.
  intros Hq. destruct (rk_pow2 _ _ Hq) as (k & Hk & E). pose proof (rk_shift _ _ Hq). unfold rslot. rewrite E.
  pose proof (Z.pow_pos_nonneg 2 k ltac:(lia) ltac:(lia)).
  pose proof (Z.pow_pos_nonneg 2 (wqe_shift q) ltac:(lia) ltac:(lia)).
  pose proof (Z.mod_pos_bound h (2 ^ k) ltac:(lia)). nia.
Qed.

Lemma ring_next q k h : 0 <= k <= 16 -> wqe_cnt q = 2 ^ k ->
  Z.land (h mod wqe_cnt q + 1) (u32 (wqe_cnt q - 1)) = (h + 1) mod wqe_cnt q.
Proof.
  intros Hk E. pose proof (Z.pow_pos_nonneg 2 k ltac:(lia) ltac:(lia)).
  pose proof (Z.pow_le_mono_r 2 k 16 ltac:(lia) ltac:(lia)).
  rewrite wrapu_small by lia. rewrite E. rewrite land_mod by lia. rewrite Z.add_mod_idemp_l by lia. done.
Qed.

Lemma recv_encoded_ext c q m m' a w :
  rq_ok c q -> recv_request c w -> (forall b, a <= b < a + 2 ^ wqe_shift q -> ld8 m' b = ld8 m b) ->
  recv_encoded c q m a w -> recv_encoded c q m' a w.
Proof.
  intros Hq (Hn & Hg & _) H [R1 R2]. pose proof (alen_scatter w ltac:(lia)). pose proof (rk_room _ _ Hq).
  pose proof (rk_gs _ _ Hq). assert (0 <= sig_room c) by (unfold sig_room; destruct (rc_sig c); lia).
  pose proof (alen_nonneg (scatter_of w)). split.
  - intros j g Hj. eapply seg_at_ext; [|by apply R1]. apply lookup_lt_Some in Hj. unfold alen in *.
    intros b Hb. apply H. lia.
  - intros Hlt. eapply seg_at_ext; [|by apply R2]. intros b Hb. apply H. lia.
Qed.

Lemma mod_ne h d n : 0 < d < n -> (h + d) mod n <> h mod n.
Proof.
  intros Hd E. pose proof (Z.div_mod (h + d) n ltac:(lia)). pose proof (Z.div_mod h n ltac:(lia)).
  assert (d = n * ((h + d) / n - h / n)) as D by lia.
  set (x := (h + d) / n - h / n) in *. clearbody x. clear - D Hd. destruct (Z.le_gt_cases x 0); nia.
Qed.

Lemma recv_loop_ok c q n wrs : forall nreq h m ids,
  rq_ok c q -> Forall (recv_request c) wrs -> alen ids = wqe_cnt q ->
  0 <= nreq -> nreq + alen wrs <= n -> n <= wqe_cnt q -> u32 (head q - tail q) + n <= max_post q ->
  exists m' ids', recv_loop c q nreq (h mod wqe_cnt q) wrs m ids = Some (0, nreq + alen wrs, [], m', ids') /\
    (forall k w, wrs !! k = Some w ->
       recv_encoded c q m' (rslot c q (h + Z.of_nat k)) w /\
       ids'.[(h + Z.of_nat k) mod wqe_cnt q] = Some (rwr_id w)) /\
    (forall a, (forall k, 0 <= k < alen wrs -> ~ (rslot c q (h + k) <= a < rslot c q (h + k) + 2 ^ wqe_shift q)) ->
       ld8 m' a = ld8 m a) /\
    (forall i, (forall k, 0 <= k < alen wrs -> i <> (h + k) mod wqe_cnt q) -> ids'.[i] = ids.[i]).
Proof.
  induction wrs as [|w wrs IH]; intros nreq h m ids Hq Hf Hids Hr Hn Hc Hm.
  { exists m, ids. cbn. rewrite Z.add_0_r. done. }
  apply Forall_cons in Hf as [Hw Hf].
  destruct (rk_pow2 _ _ Hq) as (k2 & Hk2 & Ek2).
  assert (0 < wqe_cnt q) as Hpos by (rewrite Ek2; lia).
  assert (alen (w :: wrs) = alen wrs + 1) as Hl by (unfold alen; cbn [length]; lia). rewrite Hl in *.
  pose proof (alen_nonneg wrs).
  cbn [recv_loop]. rewrite (no_overflow q n) by (try lia; pose proof (rk_post _ _ Hq); unfold in_width;
    pose proof (Z.pow_le_mono_r 2 k2 16 ltac:(lia) ltac:(lia)); lia).
  destruct Hw as (Hw1 & Hw2 & Hw3). rewrite (proj2 (Z.ltb_ge _ _)) by done.
  rewrite Z.shiftl_mul_pow2 by apply Hq. change (rc_base c + h mod wqe_cnt q * 2 ^ wqe_shift q) with (rslot c q h).
  destruct (recv_wqe_spec c q m (rslot c q h) w Hq) as (m1 & E1 & R1 & F1); [done|].
  rewrite E1. cbn [mbind option_bind].
  assert (exists ids1, aset ids (h mod wqe_cnt q) (rwr_id w) = Some ids1) as [ids1 Ei].
  { eexists. apply aset_Some. rewrite Hids. by apply Z.mod_pos_bound. }
  rewrite Ei. cbn [mbind option_bind]. rewrite (ring_next q k2) by done.
  destruct (IH (nreq + 1) (h + 1) m1 ids1) as (m' & ids' & E & D & F & G); try done; try lia.
  { by rewrite (aset_alen _ _ _ _ Ei). }
  exists m', ids'. rewrite E. split_and!.
  - by replace (nreq + 1 + alen wrs) with (nreq + (alen wrs + 1)) by lia.
  - intros [|k] w' Hk; simpl in Hk.
    + inv Hk. rewrite Z.add_0_r. split.
      * eapply recv_encoded_ext; [done|done| |done]. intros b Hb. apply F. intros k Hk.
        rewrite <- Z.add_assoc. apply (rslot_disjoint c q h 0); try done; try lia. by rewrite Z.add_0_r.
      * rewrite G; [by eapply aget_aset_eq|]. intros k Hk. rewrite <- Z.add_assoc.
        apply not_eq_sym, mod_ne. lia.
    + specialize (D _ _ Hk). by replace (h + Z.of_nat (S k)) with (h + 1 + Z.of_nat k) by lia.
  - intros a Ha. rewrite F.
    + apply F1. specialize (Ha 0). rewrite Z.add_0_r in Ha. lia.
    + intros k Hk. rewrite <- Z.add_assoc. apply Ha. lia.
  - intros i Hi. rewrite G.
    + eapply aget_aset_ne; [done|]. specialize (Hi 0). rewrite Z.add_0_r in Hi. intros Heq. by apply (Hi ltac:(lia)).
    + intros k Hk. rewrite <- Z.add_assoc. apply Hi. lia.
Qed.

Lemma head_idx q k : 0 <= k <= 16 -> wqe_cnt q = 2 ^ k -> Z.land (head q) (u32 (wqe_cnt q - 1)) = head q mod wqe_cnt q.
Proof.
  intros Hk E. pose proof (Z.pow_pos_nonneg 2 k ltac:(lia) ltac:(lia)).
  pose proof (Z.pow_le_mono_r 2 k 16 ltac:(lia) ltac:(lia)).
  rewrite wrapu_small by lia. rewrite E. by rewrite land_mod by lia.
Qed.

(** ** Scattering *)

(** What the scatter routines compute: the bytes go to the buffers in order. *)
Fixpoint scatter (m : mem) (segs : list (Z * Z)) (bytes : list Z) : mem :=
  match segs with
  | [] => m
  | (a, n) :: segs' => scatter (store_bytes m a (take (Z.to_nat n) bytes)) segs' (drop (Z.to_nat n) bytes)
  end.

Fixpoint room (segs : list (Z * Z)) : Z :=
  match segs with [] => 0 | (_, n) :: segs' => n + room segs' end.

(** Scatter entry [g] of length [n] at [a], with a key that is not [fill]. *)
Definition scat_at (fill : Z) (m : mem) (a : Z) (s : Z * Z) : Prop :=
  ld_be 4 m a = snd s /\ ld_be 8 m (a + 8) = fst s /\ ld_be 4 m (a + 4) <> fill /\ 0 <= snd s.

(** The target [s] does not meet the bytes [lo, hi). *)
Definition apart (lo hi : Z) (s : Z * Z) : Prop := fst s + snd s <= lo \/ hi <= fst s.

Lemma scat_at_ext fill m m' a s :
  (forall b, a <= b < a + 16 -> ld8 m' b = ld8 m b) -> scat_at fill m a s -> scat_at fill m' a s.
Proof.
  intros H (H1 & H2 & H3 & H4). split_and!; [rewrite <- H1|rewrite <- H2| |done].
  1,2: apply ld_be_ext; intros b Hb; apply H; lia.
  intros E. apply H3. rewrite <- E. symmetry. apply ld_be_ext. intros b Hb. apply H. lia.
Qed.

Lemma store_frame m a bs n lo hi b :
  Z.of_nat (length bs) <= n -> apart lo hi (a, n) -> lo <= b < hi -> ld8 (store_bytes m a bs) b = ld8 m b.
Proof. unfold apart. cbn. intros. apply ld8_store_bytes_out. lia. Qed.

Lemma scatter_nil m segs : scatter m segs [] = m.
Proof. revert m. induction segs as [|[a n] segs IH]; intros m; simpl; [done|]. by rewrite take_nil, drop_nil, IH. Qed.

Lemma room_nonneg segs : Forall (fun s => 0 <= snd s) segs -> 0 <= room segs.
Proof. induction 1 as [|[a n] segs H _ IH]; simpl in *; lia. Qed.

(** The loop over consecutive segments. *)
Lemma scat_loop_spec fill segs : forall m scat buf size,
  0 < size ->
  (forall j s, segs !! j = Some s -> scat_at fill m (scat + 16 * Z.of_nat j) s) ->
  Forall (apart scat (scat + 16 * alen segs)) segs -> Forall (apart buf (buf + size)) segs ->
  scat_loop fill (length segs) m scat buf size =
    (if size <=? room segs then IBV_WC_SUCCESS else IBV_WC_LOC_LEN_ERR,
     scatter m segs (load_bytes m buf (Z.to_nat (Z.min size (room segs)))), size - Z.min size (room segs)).
Proof.
  induction segs as [|[a n] segs IH]; intros m scat buf size Hs Hat Hsc Hbuf.
  { cbn. rewrite (proj2 (Z.leb_gt size 0)) by lia. replace (size - Z.min size 0) with size by lia. done. }
  assert (Hnn : Forall (fun s => 0 <= snd s) segs).
  { apply Forall_lookup. intros i s Hi. destruct (Hat (S i) s Hi) as (_ & _ & _ & ?). done. }
  pose proof (room_nonneg segs Hnn) as Hroom.
  destruct (Hat O (a, n) eq_refl) as (E1 & E2 & E3 & E4). cbn [fst snd] in *. rewrite Z.mul_0_r, Z.add_0_r in *.
  apply Forall_cons in Hsc as [Hsc0 Hsc], Hbuf as [Hb0 Hbuf].
  assert (alen ((a, n) :: segs) = alen segs + 1) as Hl by (unfold alen; cbn [length]; lia). rewrite Hl in *.
  pose proof (alen_nonneg segs).
  cbn [scat_loop length room scatter]. rewrite E1, E2, (proj2 (Z.eqb_neq _ _) E3). unfold memcpy.
  destruct (Z.le_gt_cases size n) as [Hle|Hgt].
  - rewrite !Z.min_l by lia. rewrite Z.sub_diag, (proj2 (Z.leb_le _ _)) by lia. cbn [Z.eqb].
    pose proof (length_load_bytes m buf (Z.to_nat size)) as HL.
    rewrite take_ge, drop_ge, scatter_nil by (rewrite HL; lia). done.
  - rewrite (Z.min_r size n) by lia. rewrite (proj2 (Z.eqb_neq (size - n) 0)) by lia.
    set (m1 := store_bytes m a (load_bytes m buf (Z.to_nat n))).
    assert (Fr : forall lo hi b, apart lo hi (a, n) -> lo <= b < hi -> ld8 m1 b = ld8 m b).
    { intros lo hi b. apply store_frame. rewrite length_load_bytes. lia. }
    rewrite IH; [| lia | | |].
    2: { intros j s Hj. apply scat_at_ext with m.
         - apply lookup_lt_Some in Hj as Hj'. unfold alen in *. intros b Hb. apply (Fr _ _ b Hsc0). lia.
         - replace (scat + 16 + 16 * Z.of_nat j) with (scat + 16 * Z.of_nat (S j)) by lia. by apply Hat. }
    2: { apply (Forall_impl _ _ _ Hsc). unfold apart. intros s. lia. }
    2: { apply (Forall_impl _ _ _ Hbuf). unfold apart. intros s. lia. }
    replace (Z.min size (n + room segs)) with (n + Z.min (size - n) (room segs)) by lia.
    replace (size - n - Z.min (size - n) (room segs)) with (size - (n + Z.min (size - n) (room segs))) by lia.
    replace (size - n <=? room segs) with (size <=? n + room segs) by (repeat zcase; lia).
    rewrite Z2Nat.inj_add, load_bytes_app by lia.
    rewrite take_app_length', drop_app_length' by (by rewrite length_load_bytes).
    rewrite Z2Nat.id by lia. do 3 f_equal. apply load_bytes_ext. intros b Hb. apply (Fr _ _ b Hb0). lia.
Qed.

(** The whole routine, for as many segments as it is told. *)
Lemma copy_to_scat_spec fill m scat buf size segs :
  0 <= size ->
  (forall j s, segs !! j = Some s -> scat_at fill m (scat + 16 * Z.of_nat j) s) ->
  Forall (apart scat (scat + 16 * alen segs)) segs -> Forall (apart buf (buf + size)) segs ->
  copy_to_scat fill m scat buf size (alen segs) =
    (if size <=? room segs then IBV_WC_SUCCESS else IBV_WC_LOC_LEN_ERR,
     scatter m segs (load_bytes m buf (Z.to_nat (Z.min size (room segs)))), size - Z.min size (room segs)).
Proof.
  intros Hs Hat Hsc Hbuf. unfold copy_to_scat.
  assert (Hnn : Forall (fun s => 0 <= snd s) segs).
  { apply Forall_lookup. intros i s Hi. by destruct (Hat i s Hi) as (_ & _ & _ & ?). }
  pose proof (room_nonneg segs Hnn). destruct (Z.eqb_spec size 0) as [->|].
  - rewrite (proj2 (Z.leb_le 0 _)), Z.min_l by lia. cbn. by rewrite scatter_nil.
  - replace (Z.to_nat (alen segs)) with (length segs) by (unfold alen; lia). apply scat_loop_spec; (done || lia).
Qed.

Lemma scatter_app segs1 segs2 b2 : forall m b1,
  Forall (fun s => 0 <= snd s) segs1 -> Z.of_nat (length b1) = room segs1 ->
  scatter m (segs1 ++ segs2) (b1 ++ b2) = scatter (scatter m segs1 b1) segs2 b2.
Proof.
  induction segs1 as [|[a n] segs1 IH]; intros m b1 Hf Hl; cbn [app scatter room] in *.
  { by destruct b1. }
  apply Forall_cons in Hf as [Hn Hf]. cbn in Hn. pose proof (room_nonneg _ Hf).
  rewrite take_app_le, drop_app_le by lia. apply IH; [done|]. rewrite length_drop. lia.
Qed.

Lemma scatter_app_short segs1 segs2 : forall m bs,
  Forall (fun s => 0 <= snd s) segs1 -> Z.of_nat (length bs) <= room segs1 ->
  scatter m (segs1 ++ segs2) bs = scatter m segs1 bs.
Proof.
  induction segs1 as [|[a n] segs1 IH]; intros m bs Hf Hl; cbn [app scatter room] in *.
  { assert (bs = []) as -> by (destruct bs; [done|cbn in Hl; lia]). apply scatter_nil. }
  apply Forall_cons in Hf as [Hn Hf]. cbn in Hn. pose proof (room_nonneg _ Hf).
  apply IH; [done|]. rewrite length_drop. lia.
Qed.

Lemma scatter_frame segs lo hi b : forall m bs,
  Forall (fun s => 0 <= snd s) segs -> Forall (apart lo hi) segs -> lo <= b < hi -> ld8 (scatter m segs bs) b = ld8 m b.
Proof.
  induction segs as [|[a n] segs IH]; intros m bs Hn Hf Hb; cbn [scatter]; [done|].
  apply Forall_cons in Hf as [Ha Hf], Hn as [Hn0 Hn]. rewrite IH by done.
  eapply store_frame; [|done|done]. rewrite length_take. cbn in Hn0. lia.
Qed.

Lemma room_app segs1 segs2 : room (segs1 ++ segs2) = room segs1 + room segs2.
Proof. induction segs1 as [|[a n] segs1 IH]; simpl; lia. Qed.

(** The targets of a request: each gather entry receives its length, an
    atomic's eight bytes. *)
Definition targets (w : ibv_send_wr) : list (Z * Z) :=
  map (fun g => (sg_addr g, if is_atomic w then MLX5_ATOMIC_SIZE else sg_length g)) (gather w).

(** The ring from offset [o] on, as two linear pieces. *)
Lemma ring_linear qp o j :
  sq_ok qp -> (16 | o) -> 0 <= j ->
  let t := (qend (sq qp) - ring qp o) / 16 in
  (j < t -> ring qp (o + 16 * j) = ring qp o + 16 * j) /\
  (t <= j < t + 4 * wqe_cnt (sq qp) -> ring qp (o + 16 * j) = sq_start qp + 16 * (j - t)).
Proof.
  intros Hok [x ->] Hj. pose proof (cnt_pos qp Hok) as Hc. rewrite (sq_qend _ Hok). unfold ring.
  set (c := wqe_cnt (sq qp)) in *. set (st := sq_start qp).
  replace (64 * c) with (4 * c * 16) by lia. replace (x * 16 + 16 * j) with ((x + j) * 16) by lia.
  rewrite !Zmult_mod_distr_r. pose proof (Z.mod_pos_bound x (4 * c) ltac:(lia)) as Hx.
  replace ((st + 4 * c * 16 - (st + x mod (4 * c) * 16)) / 16) with (4 * c - x mod (4 * c)).
  2: { symmetry. replace (st + 4 * c * 16 - (st + x mod (4 * c) * 16)) with ((4 * c - x mod (4 * c)) * 16) by lia.
       by apply Z.div_mul. }
  pose proof (Z.div_mod x (4 * c) ltac:(lia)) as Dx. split; intros Ht.
  - replace ((x + j) mod (4 * c)) with (x mod (4 * c) + j); [lia|].
    apply Z.mod_unique with (x / (4 * c)); lia.
  - replace ((x + j) mod (4 * c)) with (x mod (4 * c) + j - 4 * c); [lia|].
    apply Z.mod_unique with (x / (4 * c) + 1); lia.
Qed.

Section Scatter.
Context (fill : Z) (qp : mlx5_qp) (m : mem) (p : Z) (w : ibv_send_wr) (f : Z) (buf size : Z).
Context (Hok : sq_ok qp) (Hw : rc_request qp w) (Henc : encodes qp m p w f).
Context (Hop : opcode w = IBV_WR_RDMA_READ \/ is_atomic w = true).
Context (Hkey : Forall (fun g => sg_lkey g <> fill) (gather w)).
Context (Hring : Forall (apart (sq_start qp) (qend (sq qp))) (targets w)).
Context (Hbuf : Forall (apart buf (buf + size)) (targets w)).

Lemma targets_nonneg : Forall (fun s => 0 <= snd s) (targets w).
Proof.
  unfold targets, gather. apply Forall_map, Forall_forall. intros g Hg. cbn.
  destruct (is_atomic w); [done|].
  apply list_elem_of_In, filter_In in Hg as [Hg _].
  pose proof (Forall_take _ (Z.to_nat (num_sge w)) _ (rq_sge_ok _ _ Hw)) as Hf.
  rewrite Forall_forall in Hf. apply list_elem_of_In in Hg. destruct (Hf _ Hg) as (_ & [? _] & _). done.
Qed.

Lemma targets_at j s :
  targets w !! j = Some s -> scat_at fill m (ring qp (64 * p + 16 * hdr_units w + 16 * Z.of_nat j)) s.
Proof.
  intros Hj. pose proof targets_nonneg as Hn. rewrite Forall_lookup in Hn. specialize (Hn _ _ Hj).
  unfold targets in Hj. rewrite list_lookup_fmap in Hj. apply fmap_Some in Hj as (g & Hg & ->).
  destruct (en_data _ _ _ _ _ Henc _ _ Hg) as (D1 & D2 & D3).
  replace (64 * p + 16 * hdr_units w + 16 * Z.of_nat j) with (64 * p + 16 * (hdr_units w + Z.of_nat j)) by lia.
  split_and!; try done. rewrite D2. rewrite Forall_lookup in Hkey. by eapply Hkey.
Qed.

Lemma wqe_opcode :
  Z.land (ld_be 4 m (ring qp (64 * p))) 0xff =
  if is_rdma w then MLX5_OPCODE_RDMA_READ
  else if opcode w =? IBV_WR_ATOMIC_CMP_AND_SWP then MLX5_OPCODE_ATOMIC_CS else MLX5_OPCODE_ATOMIC_FA.
Proof.
  destruct (en_op _ _ _ _ _ Henc) as (op & Ht & ->). change 0xff with (2 ^ 8 - 1). rewrite land_mod by lia.
  rewrite Z.add_comm, Z.mod_add by lia. unfold is_rdma, is_atomic in *.
  assert (opcode w = 4 \/ opcode w = 5 \/ opcode w = 6) as Ho.
  { unfold IBV_WR_RDMA_READ, IBV_WR_ATOMIC_CMP_AND_SWP, IBV_WR_ATOMIC_FETCH_AND_ADD in *. lia. }
  destruct Ho as [Ho|[Ho|Ho]]; rewrite Ho in *; vm_compute in Ht; inv Ht; reflexivity.
Qed.

Lemma wqe_data_units : Z.land (ld_be 4 m (ring qp (64 * p) + 4)) 0x3F - hdr_units w = alen (targets w).
Proof.
  rewrite (en_ds _ _ _ _ _ Henc). change 0x3F with (2 ^ 6 - 1). rewrite land_mod by lia.
  pose proof (hdr_units_range w). pose proof (alen_nonneg (gather w)). destruct (rq_fits _ _ Hw) as [Hf _].
  change (2 ^ 8) with (4 * 2 ^ 6). rewrite Z.mul_assoc, Z.mod_add, Z.mod_small by (unfold units in *; lia).
  unfold units, targets, alen. rewrite length_map. lia.
Qed.

Context (Hsize : 0 <= size <= room (targets w)).
Let o := 64 * p + 16 * hdr_units w.
Let t := (qend (sq qp) - ring qp o) / 16.

Lemma data_divide : (16 | o).
Proof. exists (4 * p + hdr_units w). unfold o. lia. Qed.

Lemma data_few : alen (targets w) <= 4 * wqe_cnt (sq qp).
Proof.
  destruct (rq_fits _ _ Hw) as [_ Hf]. pose proof (hdr_units_range w). unfold units in Hf.
  unfold targets, alen in *. rewrite length_map. lia.
Qed.

Lemma data_end : 0 <= t /\ ring qp o + 16 * t = qend (sq qp).
Proof.
  destruct (ring_unit qp Hok o data_divide) as (q & E & Hq). unfold t. rewrite E, (sq_qend _ Hok).
  replace (sq_start qp + 64 * wqe_cnt (sq qp) - (sq_start qp + 16 * q)) with ((4 * wqe_cnt (sq qp) - q) * 16) by lia.
  rewrite Z.div_mul by lia. lia.
Qed.

(** A piece of the targets, from a piece of the ring. *)
Lemma scatter_piece m' a segs i b sz :
  (forall x, sq_start qp <= x < qend (sq qp) -> ld8 m' x = ld8 m x) ->
  (forall j s, segs !! j = Some s -> targets w !! (i + j)%nat = Some s) ->
  (forall j, (j < length segs)%nat -> a + 16 * Z.of_nat j = ring qp (o + 16 * Z.of_nat (i + j)%nat)) ->
  sq_start qp <= a -> a + 16 * alen segs <= qend (sq qp) -> 0 <= sz -> buf <= b -> b + sz <= buf + size ->
  copy_to_scat fill m' a b sz (alen segs) =
    (if sz <=? room segs then IBV_WC_SUCCESS else IBV_WC_LOC_LEN_ERR,
     scatter m' segs (load_bytes m' b (Z.to_nat (Z.min sz (room segs)))), sz - Z.min sz (room segs)).
Proof.
  intros Hm Hsub Haddr Ha Hae Hsz Hb Hbe.
  assert (Hin : forall P, Forall P (targets w) -> Forall P segs).
  { intros P HP. rewrite Forall_lookup in HP |- *. intros j s Hj. by eapply HP, Hsub. }
  apply copy_to_scat_spec; [done| | |].
  - intros j s Hj. pose proof (lookup_lt_Some _ _ _ Hj) as Hlt. apply scat_at_ext with m.
    + intros x Hx. apply Hm. unfold alen in *. lia.
    + rewrite Haddr by done. by apply targets_at, Hsub.
  - apply (Forall_impl _ _ _ (Hin _ Hring)). unfold apart. intros s. lia.
  - apply (Forall_impl _ _ _ (Hin _ Hbuf)). unfold apart. intros s. lia.
Qed.

(** The targets in one piece of the ring, and in two. *)
Lemma scatter_straight :
  ring qp o + 16 * alen (targets w) <= qend (sq qp) ->
  copy_to_scat fill m (ring qp o) buf size (alen (targets w)) =
  (IBV_WC_SUCCESS, scatter m (targets w) (load_bytes m buf (Z.to_nat size)), 0).
Proof.
  intros He. destruct data_end as [Ht Et]. rewrite (scatter_piece m (ring qp o) (targets w) 0); try done; try lia.
  - rewrite (proj2 (Z.leb_le _ _)), Z.min_l, Z.sub_diag by lia. done.
  - intros j Hj. symmetry. apply (ring_linear qp o (Z.of_nat j) Hok data_divide); [lia|]. fold t. unfold alen in *. lia.
  - pose proof (ring_range qp Hok o). lia.
Qed.

Lemma scatter_wrapped :
  qend (sq qp) < ring qp o + 16 * alen (targets w) ->
  let '(st, m1, rest) := copy_to_scat fill m (ring qp o) buf size t in
  (if st =? IBV_WC_SUCCESS then (IBV_WC_SUCCESS, m1)
   else fst (copy_to_scat fill m1 (sq_start qp) (buf + (size - rest)) rest (alen (targets w) - t))) =
  (IBV_WC_SUCCESS, scatter m (targets w) (load_bytes m buf (Z.to_nat size))).
Proof.
  intros He. destruct data_end as [Ht Et]. pose proof data_few as Hfew. pose proof targets_nonneg as Hnn.
  pose proof (ring_range qp Hok o) as Hro. pose proof (sq_qend _ Hok).
  set (s1 := take (Z.to_nat t) (targets w)). set (s2 := drop (Z.to_nat t) (targets w)).
  assert (Hs : targets w = s1 ++ s2) by (symmetry; apply take_drop).
  assert (L1 : alen s1 = t) by (unfold s1, alen in *; rewrite length_take; lia).
  assert (L2 : alen s2 = alen (targets w) - t) by (unfold s2, alen in *; rewrite length_drop; lia).
  assert (N1 : Forall (fun s => 0 <= snd s) s1) by by apply Forall_take.
  assert (N2 : Forall (fun s => 0 <= snd s) s2) by by apply Forall_drop.
  pose proof (room_nonneg _ N1). pose proof (room_nonneg _ N2).
  assert (Hroom : room (targets w) = room s1 + room s2) by (rewrite Hs; apply room_app).
  replace (copy_to_scat fill m (ring qp o) buf size t) with (copy_to_scat fill m (ring qp o) buf size (alen s1)) by by rewrite L1.
  rewrite (scatter_piece m (ring qp o) s1 0); try done; try lia.
  2: { intros j s Hj. rewrite Hs. by apply lookup_app_l_Some. }
  2: { intros j Hj. symmetry. apply (ring_linear qp o (Z.of_nat j) Hok data_divide); [lia|]. fold t. unfold alen in *. lia. }
  destruct (Z.leb_spec size (room s1)) as [Hle|Hgt].
  { rewrite Z.min_l by lia. cbn [Z.eqb IBV_WC_SUCCESS]. f_equal. rewrite Hs. symmetry. apply scatter_app_short; [done|].
    rewrite length_load_bytes. lia. }
  rewrite Z.min_r by lia. cbn [Z.eqb IBV_WC_SUCCESS IBV_WC_LOC_LEN_ERR].
  set (b1 := load_bytes m buf (Z.to_nat (room s1))). set (m1 := scatter m s1 b1).
  replace (size - (size - room s1)) with (room s1) by lia. rewrite <- L2.
  rewrite (scatter_piece m1 (sq_start qp) s2 (length s1)); try done; try lia.
  - rewrite (proj2 (Z.leb_le _ _)), Z.min_l by lia. cbn [fst]. f_equal. rewrite Hs.
    replace (Z.to_nat size) with (Z.to_nat (room s1) + Z.to_nat (size - room s1))%nat by lia.
    rewrite load_bytes_app. fold b1. rewrite scatter_app; [|done|unfold b1; rewrite length_load_bytes; lia].
    fold m1. f_equal. rewrite Z2Nat.id by lia. apply load_bytes_ext. intros x Hx.
    apply (scatter_frame _ buf (buf + size)); [done|by apply Forall_take|lia].
  - intros x Hx. apply (scatter_frame _ (sq_start qp) (qend (sq qp))); [done|by apply Forall_take|done].
  - intros j s Hj. rewrite Hs. by rewrite lookup_app_r, Nat.add_comm, Nat.add_sub by lia.
  - intros j Hj. symmetry. unfold alen in *.
    destruct (ring_linear qp o (Z.of_nat (length s1 + j)) Hok data_divide) as [_ R]; [lia|]. fold t in R. rewrite R; lia.
Qed.
End Scatter.

(** ** Correctness of the receive side *)

(** C19: a list of receives that the queue has room for is posted completely:
    the receive ring holds, in the WQE of each, its non-empty scatter entries
    followed by the end mark, its id is in the software ring at the same index,
    and the doorbell record holds the new 16-bit head. *)
Theorem post_recv_chain qp m wrs :
  let c := qp_recv_cfg qp in
  rq_ok c (rq qp) -> Forall (recv_request c) wrs -> wrs <> [] ->
  u32 (head (rq qp) - tail (rq qp)) + alen wrs <= max_post (rq qp) ->
  (db qp + 4 <= rc_base c \/ rc_base c + wqe_cnt (rq qp) * 2 ^ wqe_shift (rq qp) <= db qp) ->
  (qp_type qp = IBV_QPT_RAW_PACKET \/ has (qp_flags qp) MLX5_QP_FLAGS_USE_UNDERLAY = true -> IBV_QPS_RTR <= qp_state qp) ->
  exists qp' m', mlx5_post_recv qp m wrs = Some (0, [], qp', m') /\
    (forall k w, wrs !! k = Some w ->
       recv_encoded c (rq qp) m' (rslot c (rq qp) (head (rq qp) + Z.of_nat k)) w /\
       (wrid (rq qp')).[(head (rq qp) + Z.of_nat k) mod wqe_cnt (rq qp)] = Some (rwr_id w)) /\
    head (rq qp') = u32 (head (rq qp) + alen wrs) /\ ld_be 4 m' (db qp) = head (rq qp') mod 2 ^ 16.
Proof.
  intros c Hq Hf Hne Hout Hdb Hst. pose proof (alen_nonneg wrs).
  assert (0 < alen wrs) by (destruct wrs; [done|unfold alen; cbn [length]; lia]).
  destruct (rk_pow2 _ _ Hq) as (k2 & Hk2 & Ek2). pose proof (rk_post _ _ Hq).
  pose proof (wrapu_range 32 (head (rq qp) - tail (rq qp)) ltac:(lia)).
  destruct (recv_loop_ok c (rq qp) (alen wrs) wrs 0 (head (rq qp)) m (wrid (rq qp)))
    as (m1 & ids & E & D & _); try done; try lia; try apply Hq.
  unfold mlx5_post_recv. fold c. rewrite (head_idx _ k2) by done. rewrite E. cbn [mbind option_bind].
  rewrite (proj2 (Z.eqb_neq _ _)) by lia. rewrite Z.add_0_l. eexists _, _. split; [done|].
  cbn [rq with_rq head with_recv wrid qp_type qp_flags qp_state db].
  replace (negb _) with true.
  2: { symmetry. apply negb_true_iff, andb_false_iff. destruct (Z.ltb_spec (qp_state qp) IBV_QPS_RTR); [left|by right].
       apply orb_false_iff. split; [apply Z.eqb_neq; intros ?|destruct (has _ _)]; try done; exfalso; lia || (specialize (Hst ltac:(auto)); lia). }
  split_and!; try done.
  - intros k w Hk. destruct (D _ _ Hk) as [R I]. split; [|done].
    eapply recv_encoded_ext; [done| | |exact R].
    + rewrite Forall_lookup in Hf. by eapply Hf.
    + intros b Hb. apply ld8_st_be_out.
      pose proof (rslot_range c (rq qp) (head (rq qp) + Z.of_nat k) Hq). cbn. lia.
  - mem_load. change 0xffff with (2 ^ 16 - 1). rewrite land_mod by lia. apply Z.mod_small. simpl.
    pose proof (Z.mod_pos_bound (u32 (head (rq qp) + alen wrs)) (2 ^ 16)). lia.
Qed.

Definition sample_rq (qp : mlx5_qp) : mlx5_qp :=
  with_rq qp (Wq [0; 0; 0; 0] [] 4 4 2 0 0 2 2 5 0x800 0 []).
Definition sample_recvs : list ibv_recv_wr :=
  [ RecvWr 11 [Sge 0x3000 8 1] 1; RecvWr 12 [Sge 0x4000 0 1; Sge 0x5000 64 2] 2 ].

Lemma post_recv_chain_witness :
  exists qp' m', mlx5_post_recv (sample_rq (sample_qp IBV_QPT_RC 0 0 true)) ∅ sample_recvs = Some (0, [], qp', m') /\
    head (rq qp') = 4 /\ ld_be 4 m' 0x2000 = 4.
Proof.
  destruct (post_recv_chain (sample_rq (sample_qp IBV_QPT_RC 0 0 true)) ∅ sample_recvs) as (qp' & m' & E & _ & H & D).
  - constructor; try done. by exists 2.
  - repeat constructor; vm_compute; done.
  - done.
  - vm_compute; done.
  - right. vm_compute; done.
  - done.
  - exists qp', m'. split; [exact E|]. split; [exact H|]. rewrite H in D. exact D.
Defined.

(** C28: data the device returned inside the completion of an RDMA read or an
    atomic is delivered to the buffers of the posted request: for a request
    encoded in the send ring, [mlx5_copy_to_send_wqe] finds its gather list
    there, also when the WQE wraps at the end of the ring, and stores the bytes
    into the entries in order. *)
Theorem copy_to_send_wqe_scatters fill qp m p w f buf size :
  sq_ok qp -> qp_type qp = IBV_QPT_RC -> rc_request qp w -> encodes qp m p w f ->
  opcode w = IBV_WR_RDMA_READ \/ is_atomic w = true ->
  Forall (fun g => sg_lkey g <> fill) (gather w) ->
  Forall (apart (sq_start qp) (qend (sq qp))) (targets w) -> Forall (apart buf (buf + size)) (targets w) ->
  0 <= size <= room (targets w) ->
  mlx5_copy_to_send_wqe fill qp m p buf size =
  (IBV_WC_SUCCESS, scatter m (targets w) (load_bytes m buf (Z.to_nat size))).
Proof.
  intros Hok Hrc Hw He Hop Hkey Hring Hbuf Hsize.
  pose proof (wqe_opcode qp m p w f He Hop) as Ho. pose proof (wqe_data_units qp m p w f Hw He) as Hd.
  assert (mlx5_get_send_wqe qp (Z.land p (u32 (wqe_cnt (sq qp) - 1))) = ring qp (64 * p)) as Hc.
  { destruct (sq_pow2 _ Hok) as (k & Hk & Ek). pose proof (Z.pow_pos_nonneg 2 k ltac:(lia) ltac:(lia)).
    pose proof (Z.pow_le_mono_r 2 k 16 ltac:(lia) ltac:(lia)). unfold ring, mlx5_get_send_wqe, MLX5_SEND_WQE_SHIFT.
    rewrite wrapu_small by lia. rewrite Ek, land_mod, Z.shiftl_mul_pow2, Zmult_mod_distr_l by lia. lia. }
  unfold mlx5_copy_to_send_wqe. rewrite Hc, Hrc, Ho. change (negb (IBV_QPT_RC =? IBV_QPT_RC)) with false. cbv iota.
  pose proof (hdr_units_range w) as Hh.
  set (off := if (if is_rdma w then _ else _) =? MLX5_OPCODE_RDMA_READ then _ else _).
  assert (off = Some (16 * hdr_units w)) as ->.
  { unfold off, hdr_units. destruct (is_rdma w) eqn:Er; [done|].
    destruct Hop as [Hop|Hop]; [unfold is_rdma in Er; rewrite Hop in Er; done|]. rewrite Hop.
    by destruct (opcode w =? IBV_WR_ATOMIC_CMP_AND_SWP). }
  replace (ring qp (64 * p) + 16 * hdr_units w - ring qp (64 * p)) with (hdr_units w * 16) by lia.
  rewrite !Z.shiftr_div_pow2 by lia. change (2 ^ 4) with 16. rewrite Z.div_mul, Hd by lia.
  rewrite <- (ring_slot qp Hok) by lia.
  replace (mlx5_get_send_wqe qp 0) with (sq_start qp) by (unfold mlx5_get_send_wqe; rewrite Z.shiftl_0_l; lia).
  destruct (Z.ltb_spec (qend (sq qp)) (ring qp (64 * p + 16 * hdr_units w) + 16 * alen (targets w))) as [Hlt|Hge].
  - pose proof (scatter_wrapped fill qp m p w f buf size Hok Hw He Hop Hkey Hring Hbuf Hsize Hlt) as S.
    by destruct (copy_to_scat fill m (ring qp (64 * p + 16 * hdr_units w)) buf size _) as [[st m1] rest].
  - by rewrite (scatter_straight fill qp m p w f buf size).
Qed.

(** A read whose two gather entries lie on both sides of the end of the ring. *)
Definition sample_read : ibv_send_wr := sample_wr IBV_WR_RDMA_READ [Sge 0x3000 8 1; Sge 0x3100 8 1; Sge 0x3200 8 1].

Lemma sample_read_encoded :
  exists m, encodes (sample_qp IBV_QPT_RC 3 0 true) m 3 sample_read 0.
Proof.
  destruct (post_one_rc sample_ctx 0 sample_read
    (Lst (sample_qp IBV_QPT_RC 3 0 true) (Wst ∅ 0 0 0 0 0 0 0 false) 0)) as (m & ? & ? & ? & ? & _ & _ & _ & _ & E & _);
    try done; [apply sample_sq_ok| |by exists m].
  constructor; try done; try (repeat constructor; vm_compute; done).
Qed.

Lemma copy_to_send_wqe_scatters_witness :
  exists m, mlx5_copy_to_send_wqe 0x100 (sample_qp IBV_QPT_RC 3 0 true) m 3 0x6000 20 =
    (IBV_WC_SUCCESS, scatter m [(0x3000, 8); (0x3100, 8); (0x3200, 8)] (load_bytes m 0x6000 20)).
Proof.
  destruct sample_read_encoded as [m He]. exists m.
  apply (copy_to_send_wqe_scatters 0x100 (sample_qp IBV_QPT_RC 3 0 true) m 3 sample_read 0 0x6000 20); try exact He.
  - apply sample_sq_ok.
  - reflexivity.
  - constructor; try done; try (repeat constructor; vm_compute; done).
  - left; reflexivity.
  - repeat constructor; done.
  - change (targets sample_read) with [(0x3000, 8); (0x3100, 8); (0x3200, 8)].
    repeat apply Forall_cons_2; try apply Forall_nil_2; right; vm_compute; done.
  - change (targets sample_read) with [(0x3000, 8); (0x3100, 8); (0x3200, 8)].
    repeat apply Forall_cons_2; try apply Forall_nil_2; left; vm_compute; done.
  - vm_compute; split; done.
Defined.
