(* ===== verification/Srq.v ===== *)
(** providers/mlx5/srq.c: shared receive queues.

    The WQEs of a shared receive queue are linked through the memory the device
    reads: [next_wqe_index] of a WQE names the one posted after it.  The driver
    posts at [head], keeps free WQEs linked from [head] to [tail], a second
    list (the wait queue) for WQEs hit by a page fault, and a bitmap of the
    WQEs that the application got back and that are in no list.  The theorems
    say that these four sets partition the WQEs: an outstanding receive keeps
    its WQE, its id and its buffers whatever is posted, completed or reposted
    in between, and a post fails only when every WQE is in use. *)

From S2P Require Import Prelude Util Bitmap Mem Wqe PostSend PostSendSpec PostRecv.

(** ** State *)

Record mlx5_srq := Srq {
  srq_buf : Z; srq_shift : Z; srq_wrid : list Z; srq_max : Z; srq_max_gs : Z;
  srq_head : Z; srq_tail : Z; waitq_head : Z; waitq_tail : Z; srq_db : Z; srq_counter : Z;
  free_wqe_bitmap : list Z; nwqes : Z }.

Definition with_ends (s : mlx5_srq) (h t : Z) : mlx5_srq :=
  Srq (srq_buf s) (srq_shift s) (srq_wrid s) (srq_max s) (srq_max_gs s) h t (waitq_head s) (waitq_tail s)
    (srq_db s) (srq_counter s) (free_wqe_bitmap s) (nwqes s).
Definition with_waitq (s : mlx5_srq) (h t : Z) : mlx5_srq :=
  Srq (srq_buf s) (srq_shift s) (srq_wrid s) (srq_max s) (srq_max_gs s) (srq_head s) (srq_tail s) h t
    (srq_db s) (srq_counter s) (free_wqe_bitmap s) (nwqes s).
Definition with_free (s : mlx5_srq) (b : list Z) : mlx5_srq :=
  Srq (srq_buf s) (srq_shift s) (srq_wrid s) (srq_max s) (srq_max_gs s) (srq_head s) (srq_tail s) (waitq_head s) (waitq_tail s)
    (srq_db s) (srq_counter s) b (nwqes s).
Definition with_wrids (s : mlx5_srq) (l : list Z) : mlx5_srq :=
  Srq (srq_buf s) (srq_shift s) l (srq_max s) (srq_max_gs s) (srq_head s) (srq_tail s) (waitq_head s) (waitq_tail s)
    (srq_db s) (srq_counter s) (free_wqe_bitmap s) (nwqes s).
Definition with_counter (s : mlx5_srq) (c : Z) : mlx5_srq :=
  Srq (srq_buf s) (srq_shift s) (srq_wrid s) (srq_max s) (srq_max_gs s) (srq_head s) (srq_tail s) (waitq_head s) (waitq_tail s)
    (srq_db s) c (free_wqe_bitmap s) (nwqes s).
Definition with_nwqes (s : mlx5_srq) (n : Z) : mlx5_srq :=
  Srq (srq_buf s) (srq_shift s) (srq_wrid s) (srq_max s) (srq_max_gs s) (srq_head s) (srq_tail s) (waitq_head s) (waitq_tail s)
    (srq_db s) (srq_counter s) (free_wqe_bitmap s) n.

Definition get_wqe (s : mlx5_srq) (n : Z) : Z := srq_buf s + Z.shiftl n (srq_shift s).

(** [next_wqe_index] of a WQE, a big-endian 16-bit field at offset 2. *)
Definition get_next (s : mlx5_srq) (m : mem) (n : Z) : Z := ld_be 2 m (get_wqe s n + 2).
Definition set_next (s : mlx5_srq) (m : mem) (n x : Z) : mem := st_be 2 m (get_wqe s n + 2) x.

(** The scatter segments, behind the 16 bytes of the next segment. *)
Definition srq_scat (s : mlx5_srq) (n j : Z) : Z := get_wqe s n + 16 + 16 * j.

(** ** The free list *)

Definition set_next_tail (s : mlx5_srq) (m : mem) (next_tail : Z) : option (mlx5_srq * mem) :=
  let m := set_next s m (srq_tail s) next_tail in
  let s := with_ends s (srq_head s) next_tail in
  b ← bitmap_clear_bit (free_wqe_bitmap s) (srq_tail s);
  Some (with_free s b, m).

Definition mlx5_free_srq_wqe (s : mlx5_srq) (ind : Z) : option mlx5_srq :=
  b ← bitmap_set_bit (free_wqe_bitmap s) ind;
  Some (with_free s b).

(** The scan of [get_next_contig_wqes]: the length of the first run of free
    WQEs in [i, last) and where the scan stopped. *)
Fixpoint contig_loop (fuel : nat) (b : list Z) (i last count : Z) : option (Z * Z) :=
  if i <? last then
    match fuel with
    | O => None
    | S fuel' =>
      bit ← bitmap_test_bit b i;
      if (bit : bool) then contig_loop fuel' b (i + 1) last (count + 1)
      else if 0 <? count then Some (count, i)
      else contig_loop fuel' b (i + 1) last count
    end
  else Some (count, i).

(** The count and [*next_wqe_index]. *)
Definition get_next_contig_wqes (s : mlx5_srq) (first_idx last_idx : Z) : option (Z * Z) :=
  r ← contig_loop (Z.to_nat (last_idx - first_idx)) (free_wqe_bitmap s) first_idx last_idx 0;
  Some (fst r, snd r - fst r).

(** The loop that links the WQEs of the new chunk up to [tail], and its body. *)
Definition link_one (i : Z) (x : mlx5_srq * mem) : option (mlx5_srq * mem) :=
  let '(s, m) := x in
  let m := set_next s m i (i + 1) in
  b ← bitmap_clear_bit (free_wqe_bitmap s) i;
  Some (with_free s b, m).

Definition link_chunk (s : mlx5_srq) (m : mem) (first : Z) : option (mlx5_srq * mem) :=
  for_from (Z.to_nat (srq_tail s - first)) first link_one (s, m).

(** [true] for the return value 0. *)
Definition set_next_contig_wqes (s : mlx5_srq) (m : mem) : option (bool * mlx5_srq * mem) :=
  r1 ← get_next_contig_wqes s (srq_head s + 1) (nwqes s);
  r ← (if fst r1 =? 0 then get_next_contig_wqes s 0 (srq_head s) else Some r1);
  let '(contig_wqes_count, next_wqe_index) := r in
  if contig_wqes_count =? 0 then Some (false, s, m) else
  let m := set_next s m (srq_tail s) next_wqe_index in
  let s := with_ends s (srq_head s) (next_wqe_index + contig_wqes_count - 1) in
  b ← bitmap_clear_bit (free_wqe_bitmap s) (srq_tail s);
  r ← link_chunk (with_free s b) m next_wqe_index;
  Some (true, fst r, snd r).

(** ** Posting *)

(** The loop over the entries, then the terminating entry. *)
Fixpoint srq_sges (m : mem) (scat : Z) (sges : list ibv_sge) : mem :=
  match sges with
  | [] => m
  | g :: sges' =>
    let m := st_be 4 m scat (sg_length g) in
    let m := st_be 4 m (scat + 4) (sg_lkey g) in
    let m := st_be 8 m (scat + 8) (sg_addr g) in
    srq_sges m (scat + 16) sges'
  end.

Definition srq_fill (s : mlx5_srq) (m : mem) (n : Z) (w : ibv_recv_wr) : mem :=
  let sges := take (Z.to_nat (rwr_num_sge w)) (rwr_sges w) in
  let m := srq_sges m (srq_scat s n 0) sges in
  if alen sges <? srq_max_gs s then set_data_ptr_seg_end m (srq_scat s n (alen sges)) else m.

(** The extension of the list when only its last WQE is left; [false] when the
    queue is full. *)
Definition srq_extend (s : mlx5_srq) (m : mem) : option (bool * mlx5_srq * mem) :=
  if srq_head s =? srq_tail s then
    let next_tail := (srq_tail s + 1) mod nwqes s in
    free ← bitmap_test_bit (free_wqe_bitmap s) next_tail;
    if (free : bool) then r ← set_next_tail s m next_tail; Some (true, fst r, snd r)
    else set_next_contig_wqes s m
  else Some (true, s, m).

(** One turn of the posting loop: the error and the state. *)
Definition srq_post_one (s : mlx5_srq) (m : mem) (w : ibv_recv_wr) : option (Z * mlx5_srq * mem) :=
  if srq_max_gs s <? rwr_num_sge w then Some (EINVAL, s, m) else
  r ← srq_extend s m;
  let '(ok, s, m) := r in
  if negb ok then Some (ENOMEM, s, m) else
  ids ← aset (srq_wrid s) (srq_head s) (rwr_id w);
  let ind := srq_head s in
  let s := with_ends (with_wrids s ids) (get_next s m ind) (srq_tail s) in
  if negb (rwr_num_sge w <=? alen (rwr_sges w)) then None
  else Some (0, s, srq_fill s m ind w).

Fixpoint srq_post_loop (s : mlx5_srq) (m : mem) (nreq : Z) (wrs : list ibv_recv_wr)
  : option (Z * Z * list ibv_recv_wr * mlx5_srq * mem) :=
  match wrs with
  | [] => Some (0, nreq, [], s, m)
  | w :: wrs' =>
    r ← srq_post_one s m w;
    let '(err, s, m) := r in
    if negb (err =? 0) then Some (err, nreq, wrs, s, m) else srq_post_loop s m (nreq + 1) wrs'
  end.

(** The error, the list from [*bad_wr] on, and the state. *)
Definition mlx5_post_srq_recv (s : mlx5_srq) (m : mem) (wrs : list ibv_recv_wr)
  : option (Z * list ibv_recv_wr * mlx5_srq * mem) :=
  r ← srq_post_loop s m 0 wrs;
  let '(err, nreq, bad, s, m) := r in
  if negb (nreq =? 0) then
    let s := with_counter s (u16 (srq_counter s + nreq)) in
    Some (err, bad, s, st_be 4 m (srq_db s) (srq_counter s))
  else Some (err, bad, s, m).

(** ** Page faults *)

Definition srq_has_waitq (s : mlx5_srq) : bool := 0 <=? waitq_head s.

Definition srq_put_in_waitq (s : mlx5_srq) (m : mem) (ind : Z) : mlx5_srq * mem :=
  let m := set_next s m (waitq_tail s) ind in
  (with_waitq s (waitq_head s) ind, m).

Definition srq_get_from_waitq (s : mlx5_srq) (m : mem) : mlx5_srq * mem :=
  let h := waitq_head s in
  let m := set_next s m (srq_tail s) h in
  (with_waitq (with_ends s (srq_head s) h) (get_next s m h) (waitq_tail s), m).

Definition srq_cooldown_wqe (s : mlx5_srq) (m : mem) (ind : Z) : bool * mlx5_srq * mem :=
  if negb (srq_has_waitq s) then (false, s, m)
  else
    let '(s, m) := srq_put_in_waitq s m ind in
    let '(s, m) := srq_get_from_waitq s m in (true, s, m).

(** The copy of the scatter segments, up to the terminating one. *)
Fixpoint repost_loop (n : nat) (m : mem) (dst src : Z) : mem :=
  match n with
  | O => m
  | S n' =>
    let m := memcpy m dst src 16 in
    if ld_be 4 m (dst + 4) =? MLX5_INVALID_LKEY then m else repost_loop n' m (dst + 16) (src + 16)
  end.

Definition srq_repost (s : mlx5_srq) (m : mem) (ind : Z) : option (mlx5_srq * mem) :=
  id ← (srq_wrid s).[ind];
  ids ← aset (srq_wrid s) (srq_head s) id;
  let dst := srq_head s in
  let m := repost_loop (Z.to_nat (srq_max_gs s)) m (srq_scat s dst 0) (srq_scat s ind 0) in
  let s := with_ends (with_wrids s ids) (get_next s m dst) (srq_tail s) in
  let s := with_counter s (u16 (srq_counter s + 1)) in
  Some (s, st_be 4 m (srq_db s) (srq_counter s)).

(** The body of the loop of [populate_srq_ll]. *)
Definition populate_one (i : Z) (x : mlx5_srq * mem) : option (mlx5_srq * mem) :=
  let '(s, m) := x in
  free ← bitmap_test_bit (free_wqe_bitmap s) i;
  if (free : bool) then set_next_tail s m i else Some (s, m).

Definition populate_srq_ll (s : mlx5_srq) (m : mem) : option (mlx5_srq * mem) :=
  for_from (Z.to_nat (nwqes s)) 0 populate_one (s, m).

Definition mlx5_complete_odp_fault (s : mlx5_srq) (m : mem) (ind : Z) : option (mlx5_srq * mem) :=
  r ← populate_srq_ll s m;
  let '(s, m) := r in
  let s := with_nwqes s (srq_max s) in
  let '(ok, s, m) := srq_cooldown_wqe s m ind in
  let '(s, m) := if negb ok then (with_ends s (srq_head s) ind, set_next s m (srq_tail s) ind) else (s, m) in
  srq_repost s m ind.

(** ** Delivery of inline data *)

(** The loop over [n] segments; the status and the memory. *)
Fixpoint srq_scat_loop (n : nat) (m : mem) (scat buf size : Z) : Z * mem :=
  match n with
  | O => (IBV_WC_LOC_LEN_ERR, m)
  | S n' =>
    let copy := Z.min size (ld_be 4 m scat) in
    let m := memcpy m (ld_be 8 m (scat + 8)) buf copy in
    if size - copy <=? 0 then (IBV_WC_SUCCESS, m) else srq_scat_loop n' m (scat + 16) (buf + copy) (size - copy)
  end.

Definition mlx5_copy_to_recv_srq (s : mlx5_srq) (m : mem) (idx buf size : Z) : Z * mem :=
  srq_scat_loop (Z.to_nat (Z.shiftl 1 (srq_shift s - 4))) m (srq_scat s idx 0) buf size.

(** ** Creation *)

Definition align_queue_size (req : Z) : Z := i32 (roundup_pow_of_two req).

Definition set_srq_buf_ll (s : mlx5_srq) (m : mem) (start end_ : Z) : option mem :=
  for_from (Z.to_nat (end_ - start)) start (fun i m => Some (set_next s m i (i + 1))) m.

(** The device limits, the buffer [mlx5_alloc_prefered_buf] returned with its
    type ([None] for a failure), and whether the two allocations succeed. *)
Record srq_env := SrqEnv {
  max_srq_recv_wr : Z; max_recv_wr : Z; se_buf : option Z; se_custom : bool; se_wrid_ok : bool; se_bitmap_ok : bool }.

(** The return value, with the queue and memory when it is 0.  The ids of
    [malloc] are indeterminate until they are stored; none is read before, so
    zeros stand for them. *)
Definition mlx5_alloc_srq_buf (e : srq_env) (s : mlx5_srq) (m : mem) (orig_max_wr : Z)
  : option (Z * mlx5_srq * mem) :=
  if srq_max_gs s <? 0 then Some (-1, s, m) else
  let max_wr := u32 (orig_max_wr * 2 + 1) in
  let have_wq := negb (max_srq_recv_wr e <? max_wr) in
  let max_wr := if have_wq then max_wr else u32 (orig_max_wr + 1) in
  let size := i32 (roundup_pow_of_two (Z.max 32 (i32 (16 + srq_max_gs s * 16)))) in
  if max_recv_wr e <? size then Some (-1, s, m) else
  let gs := (size - 16) / 16 in
  let shift := ilog (size - 1) in
  let mx := align_queue_size max_wr in
  match se_buf e with
  | None => Some (-1, s, m)
  | Some buf =>
    let m := if se_custom e then m else memset m buf 0 (mx * size) in
    let tail := align_queue_size (u32 (orig_max_wr + 1)) - 1 in
    if negb (se_wrid_ok e) then Some (-1, s, m) else
    match bitmap_alloc0 (se_bitmap_ok e) mx with
    | None => Some (-1, s, m)
    | Some b =>
      let s := Srq buf shift (replicate (Z.to_nat mx) 0) mx gs 0 tail
        (if have_wq then tail + 1 else -1) (if have_wq then mx - 1 else -1) (srq_db s) (srq_counter s) b (tail + 1) in
      m ← set_srq_buf_ll s m (srq_head s) (srq_tail s);
      m ← (if have_wq then set_srq_buf_ll s m (waitq_head s) (waitq_tail s) else Some m);
      Some (0, s, m)
    end
  end.
