(* ===== verification/SrqSpec.v ===== *)
(** The contract of shared receive queues: the invariant that ties lists,
    bitmap and outstanding receives together, kept by every operation. *)

From S2P Require Import Prelude Util Bitmap Mem Wqe PostSend PostSendSpec PostRecv Srq.

(** ** The abstract queue

    The free WQEs linked from [head] to [tail], those of the wait queue, and
    the outstanding receives with the WQE each is in. *)
Record srq_abs := SrqAbs { main_q : list Z; wait_q : list Z; out : list (Z * ibv_recv_wr) }.

Definition used (a : srq_abs) : list Z := main_q a ++ wait_q a ++ map fst (out a).

(** Consecutive elements are linked through the memory. *)
Definition linked (s : mlx5_srq) (m : mem) (l : list Z) : Prop :=
  forall k i j, l !! k = Some i -> l !! S k = Some j -> get_next s m i = j.

(** A list with its first and last element. *)
Definition queue (s : mlx5_srq) (m : mem) (l : list Z) (h t : Z) : Prop :=
  hd_error l = Some h /\ last l = Some t /\ linked s m l.

Definition srq_sges_of (w : ibv_recv_wr) : list ibv_sge := take (Z.to_nat (rwr_num_sge w)) (rwr_sges w).

(** The device's view of a receive in WQE [i]. *)
Definition srq_encodes (s : mlx5_srq) (m : mem) (i : Z) (w : ibv_recv_wr) : Prop :=
  (forall j g, srq_sges_of w !! j = Some g -> seg_at m (srq_scat s i (Z.of_nat j)) g) /\
  (alen (srq_sges_of w) < srq_max_gs s ->
   seg_at m (srq_scat s i (alen (srq_sges_of w))) (Sge 0 0 MLX5_INVALID_LKEY)).

(** A receive that may be posted: a list the array has, of entries of their C
    types, none with the key that ends a list. *)
Record srq_request (s : mlx5_srq) (w : ibv_recv_wr) : Prop := {
  sr_num : 0 <= rwr_num_sge w <= alen (rwr_sges w);
  sr_gs : rwr_num_sge w <= srq_max_gs s;
  sr_sges : Forall sge_ok (rwr_sges w);
  sr_lkeys : Forall (fun g => sg_lkey g <> MLX5_INVALID_LKEY) (rwr_sges w) }.

(** What does not change: the layout of the buffer, its doorbell record. *)
Record srq_cfg_ok (s : mlx5_srq) : Prop := {
  sc_shift : 5 <= srq_shift s;
  sc_gs : 0 <= srq_max_gs s /\ 16 + 16 * srq_max_gs s <= 2 ^ srq_shift s;
  sc_max : 0 < nwqes s <= srq_max s /\ srq_max s <= 2 ^ 16;
  sc_ids : alen (srq_wrid s) = srq_max s;
  sc_bmp : bitmap_ok (free_wqe_bitmap s) /\ srq_max s <= 64 * alen (free_wqe_bitmap s);
  sc_db : srq_db s + 4 <= srq_buf s \/ srq_buf s + srq_max s * 2 ^ srq_shift s <= srq_db s }.

(** [free] bits are exactly those of the WQEs in use nowhere; above [nwqes]
    there are WQEs of the wait queue only. *)
Record srq_inv (s : mlx5_srq) (m : mem) (a : srq_abs) : Prop := {
  si_cfg : srq_cfg_ok s;
  si_mem : mem_ok m;
  si_main : queue s m (main_q a) (srq_head s) (srq_tail s);
  si_wait : if srq_has_waitq s then queue s m (wait_q a) (waitq_head s) (waitq_tail s) else wait_q a = [];
  si_nodup : NoDup (used a);
  si_range : Forall (fun i => 0 <= i < srq_max s) (used a);
  si_free : forall i, 0 <= i < srq_max s -> bitmap_bit (free_wqe_bitmap s) i = true <-> i ∉ used a;
  si_high : forall i, nwqes s <= i < srq_max s -> i ∈ wait_q a;
  si_out : forall i w, (i, w) ∈ out a ->
    (srq_wrid s).[i] = Some (rwr_id w) /\ srq_request s w /\ srq_encodes s m i w }.

(** ** Layout *)

Section Layout.
Context (s : mlx5_srq) (Hs : srq_cfg_ok s).

Lemma stride_min : 32 <= 2 ^ srq_shift s.
Proof. pose proof (sc_shift _ Hs). change 32 with (2 ^ 5). apply Z.pow_le_mono_r; lia. Qed.

Lemma get_wqe_mul n : get_wqe s n = srq_buf s + n * 2 ^ srq_shift s.
Proof. pose proof (sc_shift _ Hs). unfold get_wqe. rewrite Z.shiftl_mul_pow2; lia. Qed.

(** Different WQEs do not overlap. *)
Lemma wqe_apart i j :
  i <> j -> get_wqe s i + 2 ^ srq_shift s <= get_wqe s j \/ get_wqe s j + 2 ^ srq_shift s <= get_wqe s i.
Proof.
  intros Hij. rewrite !get_wqe_mul. pose proof stride_min. set (k := 2 ^ srq_shift s) in *. clearbody k.
  destruct (Z.lt_ge_cases i j); [left|right]; nia.
Qed.

Lemma wqe_db i : 0 <= i < srq_max s ->
  srq_db s + 4 <= get_wqe s i \/ get_wqe s i + 2 ^ srq_shift s <= srq_db s.
Proof.
  intros Hi. rewrite get_wqe_mul. pose proof stride_min. destruct (sc_db _ Hs); [left|right];
    set (k := 2 ^ srq_shift s) in *; clearbody k; nia.
Qed.

Lemma get_set_next m n x i :
  0 <= x < 2 ^ 16 -> get_next s (set_next s m n x) i = if i =? n then x else get_next s m i.
Proof.
  intros Hx. unfold get_next, set_next. pose proof stride_min. zcase.
  - subst. rewrite ld_be_st_be. by apply Z.mod_small.
  - apply ld_be_st_be_out. destruct (wqe_apart i n); [done| |]; lia.
Qed.

(** What the outside of a memory change means for a WQE. *)
Lemma get_next_ext m m' i :
  (forall b, get_wqe s i <= b < get_wqe s i + 16 -> ld8 m' b = ld8 m b) -> get_next s m' i = get_next s m i.
Proof. intros H. apply ld_be_ext. intros b Hb. apply H. lia. Qed.

Lemma srq_encodes_ext m m' i w :
  srq_request s w ->
  (forall b, get_wqe s i + 16 <= b < get_wqe s i + 2 ^ srq_shift s -> ld8 m' b = ld8 m b) ->
  srq_encodes s m i w -> srq_encodes s m' i w.
Proof.
  intros Hw H [E1 E2]. destruct (sc_gs _ Hs) as [_ Hg]. pose proof (sr_gs _ _ Hw).
  assert (alen (srq_sges_of w) <= rwr_num_sge w).
  { pose proof (sr_num _ _ Hw). unfold alen, srq_sges_of. rewrite length_take. lia. }
  split.
  - intros j g Hj. apply seg_at_ext with m; [|by apply E1]. apply lookup_lt_Some in Hj. unfold alen in *.
    intros b Hb. unfold srq_scat in Hb. apply H. lia.
  - intros Hlt. apply seg_at_ext with m; [|by apply E2]. unfold alen in *. intros b Hb. unfold srq_scat in Hb. apply H. lia.
Qed.

Lemma set_next_frame m n x b :
  b < get_wqe s n + 2 \/ get_wqe s n + 4 <= b -> ld8 (set_next s m n x) b = ld8 m b.
Proof. intros H. apply ld8_st_be_out. lia. Qed.

Lemma srq_encodes_set_next m n x i w :
  srq_request s w -> srq_encodes s m i w -> srq_encodes s (set_next s m n x) i w.
Proof.
  intros Hw. apply srq_encodes_ext; [done|]. intros b Hb. apply set_next_frame. pose proof stride_min.
  destruct (decide (i = n)) as [->|Hn]; [lia|]. destruct (wqe_apart i n); [done| |]; lia.
Qed.
End Layout.

(** ** Lists *)

Lemma linked_ext s m m' l :
  (forall i, i ∈ l -> get_next s m' i = get_next s m i) -> linked s m l -> linked s m' l.
Proof. intros H L k i j Hi Hj. rewrite H; [by eapply L|]. by eapply list_elem_of_lookup_2. Qed.

Lemma queue_ext s m m' l h t :
  (forall i, i ∈ l -> get_next s m' i = get_next s m i) -> queue s m l h t -> queue s m' l h t.
Proof. intros H (Hh & Ht & L). split_and!; try done. by eapply linked_ext. Qed.

Lemma last_snoc_inv (l : list Z) t : last l = Some t -> exists l', l = l' ++ [t].
Proof. intros H. by apply last_Some in H. Qed.

(** A list joined to another at its tail. *)
Lemma linked_app s m l t x xs :
  linked s m (l ++ [t]) -> linked s m (x :: xs) -> get_next s m t = x -> linked s m ((l ++ [t]) ++ x :: xs).
Proof.
  intros L1 L2 Ht k i j Hi Hj. destruct (decide (S k < length (l ++ [t]))%nat) as [Hk|Hk].
  - rewrite lookup_app_l in Hi by lia. rewrite lookup_app_l in Hj by lia. by eapply L1.
  - rewrite length_app in Hk. simpl in Hk. destruct (decide (k = length l)) as [->|Hn].
    + rewrite lookup_app_l in Hi by (rewrite length_app; simpl; lia).
      rewrite lookup_app_r in Hj by (rewrite length_app; simpl; lia).
      rewrite lookup_app_r, Nat.sub_diag in Hi by lia. rewrite length_app in Hj. simpl in *.
      replace (S (length l) - (length l + 1))%nat with 0%nat in Hj by lia. simpl in Hj. congruence.
    + rewrite lookup_app_r in Hi by (rewrite length_app; simpl; lia).
      rewrite lookup_app_r in Hj by (rewrite length_app; simpl; lia). rewrite length_app in Hi, Hj. simpl in Hi, Hj.
      apply (L2 _ _ _ Hi). rewrite <- Hj. f_equal. lia.
Qed.

Lemma linked_one s m x : linked s m [x].
Proof. intros k i j _ Hj. by destruct k. Qed.

(** The tail of a queue is written, its other links are not. *)
Lemma queue_snoc s m l h t x :
  srq_cfg_ok s -> 0 <= x < 2 ^ 16 -> NoDup l -> queue s m l h t -> queue s (set_next s m t x) (l ++ [x]) h x.
Proof.
  intros Hs Hx Hnd (Hh & Ht & L). destruct (last_snoc_inv l t Ht) as [l' ->]. split_and!.
  - by destruct l'.
  - by rewrite last_snoc.
  - apply linked_app.
    + intros k i j Hi Hj. rewrite (get_set_next s Hs) by done. zcase; [|by eapply L].
      subst i. exfalso. pose proof (lookup_lt_Some _ _ _ Hj) as Hl. rewrite length_app in Hl. simpl in Hl.
      assert (k = length l') as ->; [|lia].
      apply (NoDup_lookup (l' ++ [t]) k (length l') t); [done|done|].
      rewrite lookup_app_r, Nat.sub_diag by lia. done.
    + apply linked_one.
    + rewrite (get_set_next s Hs) by done. by rewrite Z.eqb_refl.
Qed.

(** ** Growing the free list *)

(** The free list of [s] grows by the free WQEs [xs], in this order. *)
Record extends (s : mlx5_srq) (m : mem) (a : srq_abs) (xs : list Z) (s' : mlx5_srq) (m' : mem) : Prop := {
  ex_state : exists t b, last xs = Some t /\ s' = with_free (with_ends s (srq_head s) t) b /\ bitmap_ok b /\
    alen b = alen (free_wqe_bitmap s) /\
    forall j, 0 <= j -> bitmap_bit b j = if decide (j ∈ xs) then false else bitmap_bit (free_wqe_bitmap s) j;
  ex_mem : mem_ok m';
  ex_main : queue s m' (main_q a ++ xs) (srq_head s) (srq_tail s');
  ex_next : forall i, i ∉ main_q a -> i ∉ xs -> get_next s m' i = get_next s m i;
  ex_enc : forall i w, srq_request s w -> srq_encodes s m i w -> srq_encodes s m' i w }.

Lemma extends_inv s m a xs s' m' :
  srq_inv s m a -> NoDup xs ->
  Forall (fun x => 0 <= x < srq_max s /\ bitmap_bit (free_wqe_bitmap s) x = true) xs ->
  extends s m a xs s' m' -> srq_inv s' m' (SrqAbs (main_q a ++ xs) (wait_q a) (out a)).
Proof.
  intros [Hc Hm Hmain Hw Hnd Hr Hf Hh Ho] Hx Hxs [(t & b & Ht & -> & Hb & Hl & Hbits) Hm' Hq Hn He].
  rewrite Forall_forall in Hxs.
  assert (Hfresh : forall x, x ∈ xs -> x ∉ used a) by (intros x Hin; apply Hf; by apply Hxs).
  assert (Hu : forall x, x ∈ used (SrqAbs (main_q a ++ xs) (wait_q a) (out a)) <-> x ∈ used a \/ x ∈ xs).
  { intros x. unfold used. simpl. rewrite !elem_of_app. tauto. }
  constructor; simpl.
  - destruct Hc as [? ? ? ? [? ?] ?]. constructor; simpl; try done. split; [done|]. by rewrite Hl.
  - done.
  - exact Hq.
  - change (srq_has_waitq _) with (srq_has_waitq s). destruct (srq_has_waitq s); [|done].
    apply (queue_ext s m); [|done]. intros i Hi. apply Hn.
    + unfold used in Hnd. apply NoDup_app in Hnd as (_ & Hd & _). intros Hin. apply (Hd i Hin). apply elem_of_app. by left.
    + intros Hin. apply (Hfresh i Hin). unfold used. rewrite !elem_of_app. auto.
  - assert (used (SrqAbs (main_q a ++ xs) (wait_q a) (out a)) ≡ₚ used a ++ xs) as -> by (unfold used; simpl; solve_Permutation).
    apply NoDup_app. split_and!; [done|intros x H1 H2; by apply (Hfresh x)|done].
  - apply Forall_forall. intros x [Hin|Hin]%Hu; [by apply (proj1 (Forall_forall _ _) Hr)|by apply Hxs].
  - intros i Hi. rewrite Hbits, Hu by lia. destruct (decide (i ∈ xs)); [split; [done|tauto]|]. rewrite Hf by done. tauto.
  - exact Hh.
  - intros i w Hin. destruct (Ho i w Hin) as (? & [? ? ? ?] & ?). split_and!; [done|by constructor|]. by apply (He i w).
Qed.

(** The links of the outstanding receives are the device's to follow. *)
Definition keeps_out (s : mlx5_srq) (a : srq_abs) (m m' : mem) : Prop :=
  forall i, i ∈ map fst (out a) -> get_next s m' i = get_next s m i.

Lemma out_fresh s m a i : srq_inv s m a -> i ∈ map fst (out a) -> (i ∉ main_q a) /\ (i ∉ wait_q a) /\ 0 <= i < srq_max s.
Proof.
  intros Hi Hin. pose proof (si_nodup _ _ _ Hi) as Hnd. pose proof (si_range _ _ _ Hi) as Hr. unfold used in *.
  apply NoDup_app in Hnd as (_ & H1 & Hnd). apply NoDup_app in Hnd as (_ & H2 & _). rewrite Forall_forall in Hr. split_and!.
  - intros Hx. apply (H1 _ Hx). apply elem_of_app. by right.
  - intros Hx. by apply (H2 _ Hx).
  - apply Hr. rewrite !elem_of_app. auto.
  - apply Hr. rewrite !elem_of_app. auto.
Qed.

Lemma extends_keeps s m a xs s' m' :
  srq_inv s m a -> Forall (fun x => 0 <= x < srq_max s /\ bitmap_bit (free_wqe_bitmap s) x = true) xs ->
  extends s m a xs s' m' -> keeps_out s a m m'.
Proof.
  intros Hi Hxs Hx i Hin. destruct (out_fresh _ _ _ i Hi Hin) as (Hn & _ & Hr). apply (ex_next _ _ _ _ _ _ Hx); [done|].
  intros Hx'. apply (proj1 (Forall_forall _ _) Hxs) in Hx' as [_ Hb]. apply (si_free _ _ _ Hi) in Hb; [|done].
  apply Hb. unfold used. rewrite !elem_of_app. auto.
Qed.

Lemma inv_nodup_main s m a : srq_inv s m a -> NoDup (main_q a).
Proof. intros [_ _ _ _ Hnd _ _ _ _]. by apply NoDup_app in Hnd as [? _]. Qed.

Lemma inv_tail s m a : srq_inv s m a -> srq_tail s ∈ main_q a /\ 0 <= srq_tail s < srq_max s.
Proof.
  intros Hi. destruct (si_main _ _ _ Hi) as (_ & Ht & _). apply last_Some_elem_of in Ht. split; [done|].
  apply (proj1 (Forall_forall _ _) (si_range _ _ _ Hi)). unfold used. rewrite !elem_of_app. auto.
Qed.

Lemma inv_head s m a : srq_inv s m a -> srq_head s ∈ main_q a /\ 0 <= srq_head s < srq_max s.
Proof.
  intros Hi. destruct (si_main _ _ _ Hi) as (Hh & _). assert (srq_head s ∈ main_q a) as Hin.
  { destruct (main_q a); [done|]. simpl in Hh. injection Hh as ->. left. }
  split; [done|]. apply (proj1 (Forall_forall _ _) (si_range _ _ _ Hi)). unfold used. rewrite !elem_of_app. auto.
Qed.

Lemma set_next_tail_extends s m a x :
  srq_inv s m a -> 0 <= x < srq_max s ->
  exists s' m', set_next_tail s m x = Some (s', m') /\ extends s m a [x] s' m'.
Proof.
  intros Hi Hx. pose proof (si_cfg _ _ _ Hi) as Hc. destruct (sc_bmp _ Hc) as [Hb Hl]. destruct (sc_max _ Hc).
  destruct (clear_bit_bits (free_wqe_bitmap s) x) as (b & E & Hb' & Hl' & Hbits); [done|lia|].
  unfold set_next_tail. cbn [with_ends free_wqe_bitmap srq_tail]. rewrite E. cbn [mbind option_bind].
  do 2 eexists. split; [done|]. destruct (inv_tail _ _ _ Hi) as [Hin _]. constructor.
  - exists x, b. split_and!; try done. intros j Hj. rewrite Hbits by done.
    destruct (Z.eqb_spec j x), (decide (j ∈ [x])) as [Hd|Hd]; try done.
    + exfalso. apply Hd. subst. by left.
    + apply list_elem_of_singleton in Hd. done.
  - apply store_bytes_mem_ok, Hi.
  - apply (queue_snoc s m (main_q a) (srq_head s) (srq_tail s) x); [done|lia|by eapply inv_nodup_main|apply Hi].
  - intros i H1 H2. rewrite (get_set_next s Hc) by lia. zcase; [|done]. by subst.
  - intros i w Hw. by apply srq_encodes_set_next.
Qed.

Lemma set_next_tail_inv s m a x :
  srq_inv s m a -> 0 <= x < srq_max s -> bitmap_bit (free_wqe_bitmap s) x = true ->
  exists s' m' b, set_next_tail s m x = Some (s', m') /\ s' = with_free (with_ends s (srq_head s) x) b /\
    srq_inv s' m' (SrqAbs (main_q a ++ [x]) (wait_q a) (out a)) /\ keeps_out s a m m'.
Proof.
  intros Hi Hx Hb. destruct (set_next_tail_extends s m a x Hi Hx) as (s' & m' & E & H).
  destruct (ex_state _ _ _ _ _ _ H) as (t & b & Ht & Hs & _). injection Ht as <-.
  exists s', m', b. split_and!; [done|done| |].
  - apply (extends_inv s m); [done|apply NoDup_singleton|by constructor|done].
  - eapply extends_keeps; [done| |done]. by constructor.
Qed.

(** ** Chunks of free WQEs *)

(** The scan, from [i] on with the [count] WQEs before [i] free. *)
Lemma contig_loop_spec fuel b : bitmap_ok b -> forall i last count,
  0 <= i -> 0 <= count -> last <= 64 * alen b -> (last - i <= Z.of_nat fuel) ->
  (forall j, i - count <= j < i -> bitmap_bit b j = true) ->
  exists n k, contig_loop fuel b i last count = Some (n, k) /\ i <= k /\ (k <= last \/ k = i) /\ count <= n /\
    (forall j, k - n <= j < k -> bitmap_bit b j = true) /\ i - count <= k - n /\
    (n = 0 -> forall j, i <= j < last -> bitmap_bit b j = false).
Proof.
  intros Hb. induction fuel as [|fuel IH]; intros i last count Hi Hc Hl Hf Hfree; cbn [contig_loop].
  { destruct (Z.ltb_spec i last); [lia|]. exists count, i. split_and!; try done; try lia. }
  destruct (Z.ltb_spec i last); [|exists count, i; split_and!; try done; lia].
  rewrite test_bit_bits by (done || lia). cbn [mbind option_bind]. destruct (bitmap_bit b i) eqn:Ei.
  - destruct (IH (i + 1) last (count + 1)) as (n & k & E & ? & ? & ? & Hn & ? & Hz); try lia.
    { intros j Hj. destruct (Z.eq_dec j i) as [->|]; [done|]. apply Hfree. lia. }
    exists n, k. split_and!; try done; try lia.
  - destruct (Z.ltb_spec 0 count).
    + exists count, i. split_and!; try done; lia.
    + destruct (IH (i + 1) last count) as (n & k & E & ? & ? & ? & Hn & ? & Hz); try lia.
      exists n, k. split_and!; try done; try lia. intros Hn0 j Hj.
      destruct (Z.eq_dec j i) as [->|]; [done|]. apply Hz; [done|lia].
Qed.

Section Chunk.
Context (s : mlx5_srq) (m : mem) (a : srq_abs) (first n : Z) (Hi : srq_inv s m a) (Hn : 0 < n) (Hf : 0 <= first)
  (Hmax : first + n <= srq_max s)
  (Hfree : forall j, first <= j < first + n -> bitmap_bit (free_wqe_bitmap s) j = true).

Lemma tail_not_in_chunk : ~ (first <= srq_tail s < first + n).
Proof.
  intros H. apply Hfree in H. destruct (inv_tail _ _ _ Hi) as [Hin Hr].
  apply (si_free _ _ _ Hi) in H; [|done]. apply H. unfold used. rewrite !elem_of_app. auto.
Qed.

(** The state of the loop before the WQE [k] is linked. *)
Definition chunk_at (k : Z) (x : mlx5_srq * mem) : Prop :=
  exists b, fst x = with_free (with_ends s (srq_head s) (first + n - 1)) b /\ bitmap_ok b /\
    alen b = alen (free_wqe_bitmap s) /\
    (forall j, 0 <= j -> bitmap_bit b j =
       if (first <=? j) && (j <? k) || (j =? first + n - 1) then false else bitmap_bit (free_wqe_bitmap s) j) /\
    mem_ok (snd x) /\
    (forall i, get_next s (snd x) i =
       if i =? srq_tail s then first else if (first <=? i) && (i <? k) then i + 1 else get_next s m i) /\
    (forall i w, srq_request s w -> srq_encodes s m i w -> srq_encodes s (snd x) i w).

Lemma chunk_step k x :
  first <= k < first + n - 1 -> chunk_at k x ->
  exists y, link_one k x = Some y /\ chunk_at (k + 1) y.
Proof.
  intros Hk (b & Es & Hb & Hl & Hbits & Hm & Hnext & He). destruct x as [s' m']. simpl in *. subst s'.
  pose proof (si_cfg _ _ _ Hi) as Hc. destruct (sc_bmp _ Hc) as [_ Hlen]. destruct (sc_max _ Hc) as [_ H16].
  destruct (clear_bit_bits b k) as (b' & E & Hb' & Hl' & Hbits'); [done|lia|].
  unfold link_one. cbn [free_wqe_bitmap with_free]. rewrite E. cbn [mbind option_bind]. eexists. split; [done|].
  exists b'. simpl. split_and!; try done; [by rewrite Hl'| | | |].
  - intros j Hj. rewrite Hbits', Hbits by done. zcases.
  - by apply store_bytes_mem_ok.
  - intros i. change (set_next _ m' k (k + 1)) with (set_next s m' k (k + 1)). rewrite (get_set_next s Hc), Hnext by lia.
    pose proof tail_not_in_chunk. destruct (Z.eqb_spec i k) as [->|]; [zcases|zcases].
  - intros i w Hw Hx. apply (srq_encodes_set_next s Hc m' k (k + 1) i w Hw). by apply He.
Qed.

Lemma chunk_main m' :
  (forall i, get_next s m' i =
     if i =? srq_tail s then first else if (first <=? i) && (i <? first + n - 1) then i + 1 else get_next s m i) ->
  queue s m' (main_q a ++ seqZ first n) (srq_head s) (first + n - 1).
Proof.
  intros Hnext.
  destruct (si_main _ _ _ Hi) as (Hh & Ht & L). destruct (last_snoc_inv _ _ Ht) as [l El].
  pose proof (inv_nodup_main _ _ _ Hi) as Hnd. rewrite El in *. split_and!.
  + by destruct l.
  + replace n with (n - 1 + 1) by lia. rewrite seqZ_app, app_assoc by lia. rewrite last_app. simpl. do 2 f_equal. lia.
  + rewrite seqZ_cons by lia. apply linked_app.
    * intros k i j Hki Hkj. rewrite Hnext. pose proof (lookup_lt_Some _ _ _ Hkj) as Hlt. rewrite length_app in Hlt. simpl in Hlt.
      destruct (Z.eqb_spec i (srq_tail s)) as [->|].
      { exfalso. assert (k = length l) as ->; [|lia]. apply (NoDup_lookup _ _ _ _ Hnd Hki).
        by rewrite lookup_app_r, Nat.sub_diag by lia. }
      assert (i ∉ seqZ first n) as Hni.
      { intros Hin%elem_of_seqZ. assert (i ∈ used a) as Hu.
        { unfold used. rewrite El, !elem_of_app. left. rewrite <- elem_of_app. by eapply list_elem_of_lookup_2. }
        apply (si_free _ _ _ Hi) in Hu; [done|lia|]. apply Hfree. lia. }
      rewrite elem_of_seqZ in Hni. destruct (Z.leb_spec first i), (Z.ltb_spec i (first + n - 1)); simpl; try lia; by eapply L.
    * rewrite <- seqZ_cons by lia. intros k i j Hki Hkj. apply lookup_seqZ in Hki as [-> ?], Hkj as [-> ?].
      rewrite Hnext. pose proof tail_not_in_chunk. zcases.
    * rewrite Hnext, Z.eqb_refl. done.
Qed.

Lemma chunk_extends :
  exists s' m', link_chunk (with_free (with_ends s (srq_head s) (first + n - 1))
      (default [] (bitmap_clear_bit (free_wqe_bitmap s) (first + n - 1)))) (set_next s m (srq_tail s) first) first = Some (s', m') /\
    bitmap_clear_bit (free_wqe_bitmap s) (first + n - 1) <> None /\
    extends s m a (seqZ first n) s' m'.
Proof.
  pose proof (si_cfg _ _ _ Hi) as Hc. destruct (sc_bmp _ Hc) as [Hb Hl]. destruct (sc_max _ Hc) as [_ H16].
  destruct (clear_bit_bits (free_wqe_bitmap s) (first + n - 1)) as (b & E & Hb' & Hl' & Hbits); [done|lia|].
  rewrite E. cbn [default]. set (s1 := with_free (with_ends s (srq_head s) (first + n - 1)) b). set (m1 := set_next s m (srq_tail s) first).
  unfold link_chunk. cbn [srq_tail s1 with_free with_ends].
  assert (C0 : chunk_at first (s1, m1)).
  { exists b. simpl. split_and!; try done.
    - intros j Hj. rewrite Hbits by done. zcases.
    - apply store_bytes_mem_ok, Hi.
    - intros i. unfold m1. rewrite (get_set_next s Hc) by lia. zcases.
    - intros i w Hw Hx. by apply srq_encodes_set_next. }
  destruct (for_from_inv chunk_at (Z.to_nat (first + n - 1 - first)) first link_one (s1, m1) C0) as ([s' m'] & E' & C).
  { intros k t Hk. apply chunk_step. lia. }
  exists s', m'. split; [exact E'|]. split; [done|].
  replace (first + Z.of_nat (Z.to_nat (first + n - 1 - first))) with (first + n - 1) in C by lia.
  destruct C as (b' & Es & Hb1 & Hl1 & Hbits1 & Hm1 & Hnext & He). simpl in *. subst s'. constructor.
  - exists (first + n - 1), b'. split_and!; try done.
    + replace n with (n - 1 + 1) by lia. rewrite seqZ_app by lia. rewrite last_app. simpl. do 2 f_equal. lia.
    + intros j Hj. rewrite Hbits1 by done. destruct (decide (j ∈ seqZ first n)) as [Hd|Hd]; rewrite elem_of_seqZ in Hd; zcases.
  - done.
  - by apply chunk_main.
  - intros i H1 H2. rewrite Hnext. rewrite elem_of_seqZ in H2. destruct (inv_tail _ _ _ Hi) as [Hin _].
    destruct (Z.eqb_spec i (srq_tail s)) as [->|]; [done|]. zcases.
  - done.
Qed.
End Chunk.

(** ** Posting *)

(** No WQE below [nwqes] is left but the last one of the free list. *)
Definition srq_full (s : mlx5_srq) (a : srq_abs) : Prop :=
  main_q a = [srq_head s] /\ forall i, 0 <= i < srq_max s -> i ∈ used a.

Lemma get_next_contig_spec s m a first last :
  srq_inv s m a -> 0 <= first -> last <= srq_max s ->
  exists n k, get_next_contig_wqes s first last = Some (n, k) /\ 0 <= n /\
    (n = 0 -> forall j, first <= j < last -> bitmap_bit (free_wqe_bitmap s) j = false) /\
    (0 < n -> first <= k /\ k + n <= last /\ forall j, k <= j < k + n -> bitmap_bit (free_wqe_bitmap s) j = true).
Proof.
  intros Hi Hf Hl. destruct (sc_bmp _ (si_cfg _ _ _ Hi)) as [Hb Hlen].
  destruct (contig_loop_spec (Z.to_nat (last - first)) (free_wqe_bitmap s) Hb first last 0)
    as (n & k & E & ? & ? & ? & Hn & ? & Hz); try lia.
  unfold get_next_contig_wqes. rewrite E. cbn [mbind option_bind fst snd]. exists n, (k - n). split_and!; try done.
  intros Hp. split_and!; try lia. intros j Hj. apply Hn. lia.
Qed.

Lemma set_next_contig_spec s m a :
  srq_inv s m a -> srq_head s = srq_tail s ->
  (exists t b m' xs, set_next_contig_wqes s m = Some (true, with_free (with_ends s (srq_head s) t) b, m') /\ xs <> [] /\
     srq_inv (with_free (with_ends s (srq_head s) t) b) m' (SrqAbs (main_q a ++ xs) (wait_q a) (out a)) /\
     keeps_out s a m m') \/
  (set_next_contig_wqes s m = Some (false, s, m) /\
   forall j, 0 <= j < nwqes s -> j <> srq_head s -> bitmap_bit (free_wqe_bitmap s) j = false).
Proof.
  intros Hi Hht. pose proof (si_cfg _ _ _ Hi) as Hc. destruct (sc_max _ Hc) as [Hnw H16].
  destruct (inv_head _ _ _ Hi) as [_ Hh]. unfold set_next_contig_wqes.
  destruct (get_next_contig_spec s m a (srq_head s + 1) (nwqes s) Hi) as (n1 & k1 & E1 & P1 & Z1 & F1); try lia.
  destruct (get_next_contig_spec s m a 0 (srq_head s) Hi) as (n2 & k2 & E2 & P2 & Z2 & F2); try lia.
  rewrite E1. cbn [mbind option_bind fst].
  assert (exists n k, (if n1 =? 0 then get_next_contig_wqes s 0 (srq_head s) else Some (n1, k1)) = Some (n, k) /\
    (n = 0 /\ (forall j, 0 <= j < nwqes s -> j <> srq_head s -> bitmap_bit (free_wqe_bitmap s) j = false) \/
     0 < n /\ 0 <= k /\ k + n <= srq_max s /\ forall j, k <= j < k + n -> bitmap_bit (free_wqe_bitmap s) j = true))
    as (n & k & -> & Hn).
  { destruct (Z.eqb_spec n1 0) as [->|].
    - exists n2, k2. split; [done|]. destruct (Z.eq_dec n2 0) as [->|]; [left|right].
      + split; [done|]. intros j Hj Hne. destruct (Z.lt_ge_cases j (srq_head s)); [apply Z2|apply Z1]; (done || lia).
      + destruct F2 as (? & ? & ?); [lia|]. split_and!; (done || lia).
    - exists n1, k1. split; [done|]. right. destruct F1 as (? & ? & ?); [lia|]. split_and!; (done || lia). }
  cbn [mbind option_bind]. destruct Hn as [[-> Hz]|(Hp & Hk & Hm & Hfree)]; [right|left].
  { split; done. }
  rewrite (proj2 (Z.eqb_neq n 0)) by lia.
  destruct (chunk_extends s m a k n Hi Hp Hk Hm Hfree) as (s' & m' & E & Hnn & Hx).
  cbn [srq_tail with_ends free_wqe_bitmap].
  destruct (bitmap_clear_bit (free_wqe_bitmap s) (k + n - 1)) as [b0|] eqn:Eb; [|done]. cbn [mbind option_bind default] in *.
  change (id b0) with b0 in E. rewrite E. cbn [mbind option_bind fst snd].
  assert (Hxs : Forall (fun x => 0 <= x < srq_max s /\ bitmap_bit (free_wqe_bitmap s) x = true) (seqZ k n)).
  { apply Forall_forall. intros x Hin%elem_of_seqZ. split; [lia|]. apply Hfree. lia. }
  destruct (ex_state _ _ _ _ _ _ Hx) as (t & b & Ht & Es & _). exists t, b, m', (seqZ k n). rewrite Es in *. split_and!.
  - done.
  - rewrite seqZ_cons by lia. done.
  - apply (extends_inv s m); try done. apply NoDup_seqZ.
  - by eapply extends_keeps.
Qed.

Lemma queue_single s m l h : NoDup l -> queue s m l h h -> l = [h].
Proof.
  intros Hnd (Hh & Ht & _). destruct l as [|x l]; [done|]. simpl in Hh. injection Hh as ->.
  destruct l as [|y l]; [done|]. exfalso. apply last_Some_elem_of in Ht as Hin.
  rewrite last_cons_cons in Ht. apply last_Some_elem_of in Ht. by apply NoDup_cons in Hnd as [Hn _].
Qed.

Lemma srq_extend_spec s m a :
  srq_inv s m a ->
  (exists t b m' xs, srq_extend s m = Some (true, with_free (with_ends s (srq_head s) t) b, m') /\
     (2 <= length (main_q a ++ xs))%nat /\
     srq_inv (with_free (with_ends s (srq_head s) t) b) m' (SrqAbs (main_q a ++ xs) (wait_q a) (out a)) /\
     keeps_out s a m m') \/
  (srq_extend s m = Some (false, s, m) /\ srq_full s a).
Proof.
  intros Hi. pose proof (si_cfg _ _ _ Hi) as Hc. destruct (sc_max _ Hc) as [Hnw H16]. destruct (sc_bmp _ Hc) as [Hb Hl].
  pose proof (inv_nodup_main _ _ _ Hi) as Hnd. pose proof (si_main _ _ _ Hi) as Hq.
  unfold srq_extend. destruct (Z.eqb_spec (srq_head s) (srq_tail s)) as [Hht|Hht].
  - assert (main_q a = [srq_head s]) as Hm by (apply (queue_single s m); [done|by rewrite Hht in Hq |- *]).
    pose proof (Z.mod_pos_bound (srq_tail s + 1) (nwqes s) ltac:(lia)). set (nt := (srq_tail s + 1) mod nwqes s) in *.
    rewrite test_bit_bits by (done || lia). cbn [mbind option_bind].
    destruct (bitmap_bit (free_wqe_bitmap s) nt) eqn:Ent.
    + destruct (set_next_tail_inv s m a nt) as (s' & m' & b & E & -> & Hi' & ?); try done; try lia.
      rewrite E. cbn [mbind option_bind fst snd]. left. exists nt, b, m', [nt]. split_and!; try done.
      rewrite length_app, Hm. simpl. lia.
    + destruct (set_next_contig_spec s m a Hi Hht) as [(t & b & m' & xs & E & Hne & Hi' & ?)|[E Hz]]; [left|right].
      * exists t, b, m', xs. split_and!; try done. rewrite length_app, Hm. destruct xs; [done|]. simpl. lia.
      * split; [done|]. split; [done|]. intros i Hr. destruct (decide (i ∈ used a)) as [|Hn]; [done|exfalso].
        assert (i < nwqes s) as Hlt.
        { destruct (Z.lt_ge_cases i (nwqes s)); [done|]. exfalso. apply Hn. unfold used. rewrite !elem_of_app.
          right. left. apply (si_high _ _ _ Hi). lia. }
        apply (si_free _ _ _ Hi) in Hn as Hbit; [|done].
        rewrite Hz in Hbit; [done|lia|]. intros ->. apply Hn. unfold used. rewrite Hm. left.
  - left. exists (srq_tail s), (free_wqe_bitmap s), m, []. rewrite app_nil_r.
    replace (with_free (with_ends s (srq_head s) (srq_tail s)) (free_wqe_bitmap s)) with s by (by destruct s).
    split_and!; [done| |by destruct a|done].
    destruct Hq as (Hh & Ht & _). destruct (main_q a) as [|x [|y l]]; simpl in *; [done|congruence|lia].
Qed.

Lemma srq_sges_spec sges : forall m scat,
  Forall sge_ok sges -> mem_ok m ->
  (forall j g, sges !! j = Some g -> seg_at (srq_sges m scat sges) (scat + 16 * Z.of_nat j) g) /\
  same_outside scat (scat + 16 * alen sges) m (srq_sges m scat sges) /\ mem_ok (srq_sges m scat sges).
Proof.
  induction sges as [|g sges IH]; intros m scat Hf Hm; [done|]. inv Hf.
  assert (alen (g :: sges) = alen sges + 1) as Hl by (unfold alen; cbn [length]; lia). rewrite Hl.
  pose proof (alen_nonneg sges). cbn [srq_sges]. set (m1 := st_be 8 _ _ _).
  assert (Hm1 : mem_ok m1) by (by repeat apply store_bytes_mem_ok).
  destruct (IH m1 (scat + 16)) as (D & F & Hok); try done. split_and!; [| |done].
  - intros [|j] g' Hj; simpl in Hj.
    + inv Hj. rewrite Z.mul_0_r, Z.add_0_r. apply seg_at_ext with m1; [intros b Hb; apply F; lia|].
      destruct H1 as (? & ? & ?). unfold in_width in *.
      unfold m1, seg_at. split_and!; mem_load; apply Z.mod_small; simpl; lia.
    + specialize (D _ _ Hj). by replace (scat + 16 * Z.of_nat (S j)) with (scat + 16 + 16 * Z.of_nat j) by lia.
  - intros b Hb. rewrite F by lia. unfold m1. by mem_load.
Qed.

Lemma srq_fill_spec s m n w :
  srq_cfg_ok s -> srq_request s w -> mem_ok m ->
  srq_encodes s (srq_fill s m n w) n w /\
  same_outside (get_wqe s n + 16) (get_wqe s n + 2 ^ srq_shift s) m (srq_fill s m n w) /\ mem_ok (srq_fill s m n w).
Proof.
  intros Hs Hw Hm. destruct (sc_gs _ Hs) as [_ Hg]. pose proof (sr_gs _ _ Hw). pose proof (sr_num _ _ Hw).
  assert (alen (srq_sges_of w) = rwr_num_sge w) as Hl by (unfold alen, srq_sges_of in *; rewrite length_take; lia).
  unfold srq_fill. fold (srq_sges_of w).
  destruct (srq_sges_spec (srq_sges_of w) m (srq_scat s n 0)) as (D & F & Hok); [apply Forall_take, Hw|done|].
  unfold srq_scat in *. rewrite Z.mul_0_r, Z.add_0_r in *. set (m1 := srq_sges _ _ _) in *. set (k := alen (srq_sges_of w)) in *.
  set (m2 := if k <? srq_max_gs s then _ else m1).
  assert (Hm2 : m2 = m1 \/ k < srq_max_gs s /\ m2 = set_data_ptr_seg_end m1 (get_wqe s n + 16 + 16 * k))
    by (unfold m2; zcase; auto).
  assert (F2 : same_outside (get_wqe s n + 16 + 16 * k) (get_wqe s n + 16 + 16 * k + 16) m1 m2).
  { destruct Hm2 as [-> |[_ ->]]; [done|]. intros b Hb. unfold set_data_ptr_seg_end. by mem_load. }
  split_and!.
  - split.
    + intros j g Hj. unfold srq_scat. apply seg_at_ext with m1; [|by apply D]. apply lookup_lt_Some in Hj.
      intros b Hb. apply F2. unfold k, alen. lia.
    + intros Hlt. fold k in Hlt |- *. unfold srq_scat, m2. rewrite (proj2 (Z.ltb_lt _ _)) by done.
      unfold seg_at, set_data_ptr_seg_end, MLX5_INVALID_LKEY. rewrite !st_le_0. split_and!; by mem_load.
  - intros b Hb. destruct Hm2 as [E|[Hlt _]]; [rewrite E; apply F; lia|]. rewrite F2 by lia. apply F. lia.
  - destruct Hm2 as [-> |[_ ->]]; [done|]. by repeat apply store_bytes_mem_ok.
Qed.

(** Taking the head of the free list for a receive whose data is written. *)
(** Segments after the first of a WQE hold no links. *)
Lemma scat_next s m m' h i :
  srq_cfg_ok s -> same_outside (get_wqe s h + 16) (get_wqe s h + 2 ^ srq_shift s) m m' -> get_next s m' i = get_next s m i.
Proof.
  intros Hc F. apply get_next_ext. intros b Hb. apply F. pose proof (stride_min s Hc).
  destruct (decide (i = h)) as [->|Hn]; [lia|]. destruct (wqe_apart s Hc i h Hn); lia.
Qed.

Lemma pop_inv s m a h l w ids m' :
  srq_inv s m a -> main_q a = h :: l -> l <> [] -> srq_request s w ->
  aset (srq_wrid s) h (rwr_id w) = Some ids ->
  same_outside (get_wqe s h + 16) (get_wqe s h + 2 ^ srq_shift s) m m' -> srq_encodes s m' h w -> mem_ok m' ->
  srq_inv (with_ends (with_wrids s ids) (get_next s m h) (srq_tail s)) m' (SrqAbs l (wait_q a) ((h, w) :: out a)).
Proof.
  intros [Hc Hm Hq Hw Hnd Hr Hf Hh Ho] Hmain Hl Hreq Hids F He Hm'. rewrite Hmain in *.
  assert (Hu : used a ≡ₚ used (SrqAbs l (wait_q a) ((h, w) :: out a))) by (unfold used; rewrite Hmain; simpl; solve_Permutation).
  assert (Hnext : forall i, get_next s m' i = get_next s m i) by (intros i; by apply (scat_next s m m' h)).
  constructor; simpl.
  - destruct Hc. constructor; simpl; try done. by rewrite (aset_alen _ _ _ _ Hids).
  - done.
  - destruct Hq as (_ & Ht & L). destruct l as [|x l]; [done|]. split_and!.
    + simpl. f_equal. symmetry. by apply (L 0%nat).
    + done.
    + intros k i j Hi Hj. cbn in Hi, Hj |- *. change (get_next s m' i = j). rewrite Hnext. by apply (L (S k)).
  - change (srq_has_waitq _) with (srq_has_waitq s). destruct (srq_has_waitq s); [|done].
    by apply (queue_ext s m).
  - by rewrite <- Hu.
  - by rewrite <- Hu.
  - intros i Hi. rewrite <- Hu. by apply Hf.
  - exact Hh.
  - intros i w' Hin. pose proof (NoDup_app (h :: l) (wait_q a ++ map fst (out a))) as [Hd _].
    unfold used in Hnd. rewrite Hmain in Hnd. destruct (Hd Hnd) as (_ & Hd' & _). clear Hd.
    apply elem_of_cons in Hin as [[= -> ->]|Hin].
    + split_and!; [by eapply aget_aset_eq|by destruct Hreq; constructor|exact He].
    + destruct (Ho i w' Hin) as (Hid & [? ? ? ?] & Henc).
      assert (h <> i) as Hne.
      { intros ->. apply (Hd' i); [left|]. apply elem_of_app. right. apply list_elem_of_fmap. by exists (i, w'). }
      split_and!; [by rewrite (aget_aset_ne _ _ _ _ _ Hids)|by constructor|].
      apply (srq_encodes_ext s Hc m); [by constructor| |done]. intros b Hb. apply F.
      destruct (wqe_apart s Hc i h); [done| |]; lia.
Qed.

(** A receive whose list is well-formed, maybe too long for the queue. *)
Record recv_wf (w : ibv_recv_wr) : Prop := {
  rw_num : 0 <= rwr_num_sge w <= alen (rwr_sges w);
  rw_sges : Forall sge_ok (rwr_sges w);
  rw_lkeys : Forall (fun g => sg_lkey g <> MLX5_INVALID_LKEY) (rwr_sges w) }.

(** The fields a post leaves alone. *)
Definition same_layout (s s' : mlx5_srq) : Prop :=
  srq_buf s' = srq_buf s /\ srq_shift s' = srq_shift s /\ srq_max s' = srq_max s /\ srq_max_gs s' = srq_max_gs s /\
  srq_db s' = srq_db s /\ srq_counter s' = srq_counter s.

#[export] Instance same_layout_refl : Reflexive same_layout.
Proof. by intros s. Qed.

#[export] Instance same_layout_trans : Transitive same_layout.
Proof. intros s1 s2 s3 H1 H2. unfold same_layout in *. intuition congruence. Qed.

Lemma srq_post_one_spec s m a w :
  srq_inv s m a -> recv_wf w ->
  exists e s' m', srq_post_one s m w = Some (e, s', m') /\ same_layout s s' /\
   ((e = 0 /\ keeps_out s a m m' /\ get_next s m' (srq_head s) = srq_head s' /\
     exists l, srq_inv s' m' (SrqAbs l (wait_q a) ((srq_head s, w) :: out a))) \/
    (s' = s /\ m' = m /\ (e = ENOMEM /\ srq_full s a \/ e = EINVAL /\ srq_max_gs s < rwr_num_sge w))).
Proof.
  intros Hi [Hn Hsg Hlk]. unfold srq_post_one. destruct (Z.ltb_spec (srq_max_gs s) (rwr_num_sge w)).
  { exists EINVAL, s, m. split_and!; try done. right. split_and!; try done. by right. }
  destruct (srq_extend_spec s m a Hi) as [(t & b & m1 & xs & -> & Hlen & Hi1 & Hko)|[-> Hfull]]; cbn [mbind option_bind negb].
  2: { exists ENOMEM, s, m. split_and!; try done. right. split_and!; try done. by left. }
  set (s1 := with_free _ b) in *. pose proof (si_cfg _ _ _ Hi1) as Hc1.
  destruct (inv_head _ _ _ Hi1) as [_ Hh]. change (srq_head s1) with (srq_head s) in *.
  rewrite (aset_Some (srq_wrid s1)) by (rewrite (sc_ids _ Hc1); done). cbn [mbind option_bind].
  rewrite (proj2 (Z.leb_le (rwr_num_sge w) _)) by lia. cbn [negb].
  set (ids := <[_ := _]> _). do 3 eexists. split; [done|]. split; [done|]. left. split; [done|].
  assert (Hreq : srq_request s1 w) by (by constructor).
  destruct (srq_fill_spec s1 m1 (srq_head s) w Hc1 Hreq (si_mem _ _ _ Hi1)) as (He & F & Hm).
  pose proof (fun i => scat_next s1 _ _ (srq_head s) i Hc1 F) as Hnx. split; [intros i Hin; rewrite <- Hko by done; apply Hnx|].
  split; [apply Hnx|]. destruct (si_main _ _ _ Hi1) as (Hhd & _). simpl in Hhd, Hlen.
  destruct (main_q a ++ xs) as [|h l] eqn:Em; [done|]. simpl in Hhd. injection Hhd as ->.
  change (srq_head s1) with (srq_head s) in *. exists l.
  set (s2 := with_ends _ _ _). assert (l <> []) as Hl by (intros ->; simpl in Hlen; lia).
  assert (Hids : aset (srq_wrid s1) (srq_head s) (rwr_id w) = Some ids) by (apply aset_Some; rewrite (sc_ids _ Hc1); done).
  exact (pop_inv s1 m1 (SrqAbs (srq_head s :: l) (wait_q a) (out a)) (srq_head s) l w ids
    (srq_fill s1 m1 (srq_head s) w) Hi1 eq_refl Hl Hreq Hids F He Hm).
Qed.

(** The receives of a list that were posted, with their WQEs, last one first. *)
Definition posted_as (p : list (Z * ibv_recv_wr)) (wrs : list ibv_recv_wr) : Prop := map snd (reverse p) = wrs.

(** The WQEs of [l] are linked, the last one to the head of the free list: the
    device that follows the links gets there. *)
Definition chained (s : mlx5_srq) (m : mem) (l : list Z) : Prop := linked s m (l ++ [srq_head s]).

Lemma chained_ext s m s' m' l :
  (forall i, i ∈ l -> get_next s m' i = get_next s m i) -> srq_buf s' = srq_buf s -> srq_shift s' = srq_shift s ->
  srq_head s' = srq_head s -> chained s m l -> chained s' m' l.
Proof.
  intros H Hb Hs Hh L k i j Hi Hj. rewrite Hh in *.
  assert (get_next s' m' i = get_next s m' i) as -> by (unfold get_next, get_wqe; by rewrite Hb, Hs).
  rewrite H; [by eapply L|]. apply lookup_lt_Some in Hj. rewrite length_app in Hj. simpl in Hj.
  rewrite lookup_app_l in Hi by lia. by eapply list_elem_of_lookup_2.
Qed.

Lemma chained_snoc s m s' m' l :
  (forall i, i ∈ l -> get_next s m' i = get_next s m i) -> get_next s m' (srq_head s) = srq_head s' ->
  srq_buf s' = srq_buf s -> srq_shift s' = srq_shift s -> chained s m l -> chained s' m' (l ++ [srq_head s]).
Proof.
  intros H Hh Hb Hs L. pose proof (chained_ext s m s m' l H eq_refl eq_refl eq_refl L) as L'.
  pose proof (linked_app s m' l _ (srq_head s') [] L' (linked_one _ _ _) Hh) as L''.
  intros k i j Hi Hj. rewrite <- (L'' k i j Hi Hj). unfold get_next, get_wqe. by rewrite Hb, Hs.
Qed.

Lemma srq_post_loop_spec wrs : forall s m a nreq,
  srq_inv s m a -> Forall recv_wf wrs -> 0 <= nreq ->
  exists e bad s' m' p l k, srq_post_loop s m nreq wrs = Some (e, nreq + alen k, bad, s', m') /\ same_layout s s' /\
    wrs = k ++ bad /\ posted_as p k /\ srq_inv s' m' (SrqAbs l (wait_q a) (p ++ out a)) /\
    (forall c, c ⊆ map fst (out a) -> chained s m c -> chained s' m' (c ++ map fst (reverse p))) /\
    hd_error (map fst (reverse p) ++ [srq_head s']) = Some (srq_head s) /\
    (e = 0 /\ bad = [] \/
     exists w rest, bad = w :: rest /\
       (e = ENOMEM /\ srq_full s' (SrqAbs l (wait_q a) (p ++ out a)) \/ e = EINVAL /\ srq_max_gs s < rwr_num_sge w)).
Proof.
  induction wrs as [|w wrs IH]; intros s m a nreq Hi Hf Hn; cbn [srq_post_loop].
  { exists 0, [], s, m, [], (main_q a), []. rewrite Z.add_0_r. split_and!; try done; [by destruct a| |by left].
    intros c _ Hch. by rewrite app_nil_r. }
  inv Hf. destruct (srq_post_one_spec s m a w Hi) as (e & s1 & m1 & E & Hl & Hcase); [done|].
  rewrite E. cbn [mbind option_bind]. destruct Hcase as [(-> & Hko & Hnx & l1 & Hi1)|(-> & -> & He)].
  - cbn [negb Z.eqb]. destruct (IH s1 m1 _ (nreq + 1) Hi1) as (e & bad & s' & m' & p & l & k & E' & Hl' & -> & Hp & Hi' & Hch & _ & Hc); [done|lia|].
    exists e, bad, s', m', (p ++ [(srq_head s, w)]), l, (w :: k). rewrite E'. simpl in Hi'. rewrite <- app_assoc. split_and!; try done.
    + do 5 f_equal. unfold alen. cbn [length]. lia.
    + by etrans.
    + unfold posted_as in *. rewrite reverse_app. cbn. by f_equal.
    + intros c Hsub Hc0. rewrite reverse_app. cbn. specialize (Hch (c ++ [srq_head s])). rewrite <- app_assoc in Hch.
      apply Hch.
      * intros i [Hin|Hin%list_elem_of_singleton]%elem_of_app; [right; by apply Hsub|subst i; left].
      * destruct Hl as (Hb & Hs & _). apply (chained_snoc s m); try done. intros i Hin. by apply Hko, Hsub.
    + by rewrite reverse_app.
    + destruct Hc as [?|(w' & rest & ? & Hc)]; [by left|right]. exists w', rest. split; [done|].
      assert (srq_max_gs s1 = srq_max_gs s) as <- by apply Hl. exact Hc.
  - assert (negb (e =? 0) = true) as -> by (destruct He as [[-> _]|[-> _]]; done).
    exists e, (w :: wrs), s, m, [], (main_q a), []. rewrite Z.add_0_r. split_and!; try done; [by destruct a|intros c _ Hch; by rewrite app_nil_r|].
    right. exists w, wrs. split; [done|]. destruct He as [[-> Hfull]|?]; [left|by right]. split; [done|]. by destruct a.
Qed.

(** The doorbell record is no part of a WQE. *)
Lemma db_next s m a v i : srq_inv s m a -> i ∈ used a -> get_next s (st_be 4 m (srq_db s) v) i = get_next s m i.
Proof.
  intros Hi Hin. pose proof (si_cfg _ _ _ Hi) as Hc. apply get_next_ext. intros b Hb. apply ld8_st_be_out.
  pose proof (stride_min s Hc). apply (proj1 (Forall_forall _ _) (si_range _ _ _ Hi)) in Hin.
  destruct (wqe_db s Hc i Hin); lia.
Qed.

Lemma db_inv s m a c v : srq_inv s m a -> srq_inv (with_counter s c) (st_be 4 m (srq_db s) v) a.
Proof.
  intros Hi. pose proof (db_next s m a v) as Hn0. pose proof (fun i => Hn0 i Hi) as Hn. clear Hn0.
  destruct Hi as [Hc Hm Hq Hw Hnd Hr Hf Hh Ho].
  assert (F : forall i b, 0 <= i < srq_max s -> get_wqe s i <= b < get_wqe s i + 2 ^ srq_shift s ->
    ld8 (st_be 4 m (srq_db s) v) b = ld8 m b).
  { intros i b Hi Hb. apply ld8_st_be_out. destruct (wqe_db s Hc i Hi); lia. }
  constructor; try done.
  - by destruct Hc.
  - by apply store_bytes_mem_ok.
  - apply (queue_ext s m); [|done]. intros i Hi. apply Hn. unfold used. rewrite !elem_of_app. auto.
  - change (srq_has_waitq _) with (srq_has_waitq s). destruct (srq_has_waitq s); [|done].
    apply (queue_ext s m); [|done]. intros i Hi. apply Hn. unfold used. rewrite !elem_of_app. auto.
  - intros i w Hin. destruct (Ho i w Hin) as (? & Hreq & He). split_and!; [done|by destruct Hreq|].
    apply (srq_encodes_ext s Hc m); [done| |done]. intros b Hb. rewrite Forall_forall in Hr.
    apply (F i); [|lia]. apply Hr. unfold used. rewrite !elem_of_app. right. right. apply list_elem_of_fmap. by exists (i, w).
Qed.

Lemma srq_post_spec s m a wrs :
  srq_inv s m a -> Forall recv_wf wrs ->
  exists e bad s' m' p l k, mlx5_post_srq_recv s m wrs = Some (e, bad, s', m') /\
    wrs = k ++ bad /\ posted_as p k /\ srq_inv s' m' (SrqAbs l (wait_q a) (p ++ out a)) /\
    (forall c, c ⊆ map fst (out a) -> chained s m c -> chained s' m' (c ++ map fst (reverse p))) /\
    hd_error (map fst (reverse p) ++ [srq_head s']) = Some (srq_head s) /\
    srq_max_gs s' = srq_max_gs s /\ srq_db s' = srq_db s /\ srq_max s' = srq_max s /\
    (k <> [] -> srq_counter s' = u16 (srq_counter s + alen k) /\ ld_be 4 m' (srq_db s) = srq_counter s') /\
    (e = 0 /\ bad = [] \/
     exists w rest, bad = w :: rest /\
       (e = ENOMEM /\ srq_full s' (SrqAbs l (wait_q a) (p ++ out a)) \/ e = EINVAL /\ srq_max_gs s < rwr_num_sge w)).
Proof.
  intros Hi Hf. destruct (srq_post_loop_spec wrs s m a 0 Hi Hf ltac:(lia))
    as (e & bad & s1 & m1 & p & l & k & E & (? & ? & ? & ? & Hdb & Hct) & Hk & Hp & Hi1 & Hch & Hhd & He).
  unfold mlx5_post_srq_recv. rewrite E. cbn [mbind option_bind]. rewrite Z.add_0_l.
  destruct (Z.eqb_spec (alen k) 0) as [Hz|Hz]; cbn [negb].
  - exists e, bad, s1, m1, p, l, k. split_and!; try done. intros Hne. exfalso. destruct k; [done|]. unfold alen in Hz. simpl in Hz. lia.
  - exists e, bad, (with_counter s1 (u16 (srq_counter s1 + alen k))), (st_be 4 m1 (srq_db s1) (u16 (srq_counter s1 + alen k))), p, l, k.
    split_and!; try done.
    + by apply db_inv.
    + intros c Hsub Hc0. apply (chained_ext s1 m1); try done; [|by apply Hch]. intros i Hin. apply (db_next _ _ _ _ i Hi1).
      unfold used. simpl. rewrite map_app, !elem_of_app. apply elem_of_app in Hin as [Hin|Hin]; [by do 3 right; apply Hsub|].
      right. right. left. change (i ∈ fst <$> reverse p) in Hin. rewrite fmap_reverse in Hin. by rewrite elem_of_reverse in Hin.
    + intros _. rewrite <- Hct, <- Hdb, ld_be_st_be. split; [done|]. apply Z.mod_small.
      pose proof (wrapu_range 16 (srq_counter s1 + alen k) ltac:(lia)). simpl. lia.
Qed.

(** ** Giving WQEs back *)

Lemma free_inv s m a ind w o :
  srq_inv s m a -> out a ≡ₚ (ind, w) :: o ->
  exists s' b, mlx5_free_srq_wqe s ind = Some s' /\ s' = with_free s b /\ srq_inv s' m (SrqAbs (main_q a) (wait_q a) o).
Proof.
  intros [Hc Hm Hq Hw Hnd Hr Hf Hh Ho] Hp. destruct (sc_bmp _ Hc) as [Hb Hl]. destruct (sc_max _ Hc) as [_ H16].
  set (a' := SrqAbs (main_q a) (wait_q a) o).
  assert (Hu : used a ≡ₚ ind :: used a') by (unfold used, a'; simpl; rewrite Hp; simpl; solve_Permutation).
  assert (0 <= ind < srq_max s) as Hind by (apply (proj1 (Forall_forall _ _) Hr); rewrite Hu; left).
  destruct (set_bit_bits (free_wqe_bitmap s) ind) as (b & E & Hb' & Hl' & Hbits); [done|lia|].
  exists (with_free s b), b. unfold mlx5_free_srq_wqe. rewrite E. split_and!; try done.
  rewrite Hu in Hnd. apply NoDup_cons in Hnd as [Hni Hnd]. constructor; simpl; try done.
  - destruct Hc. constructor; simpl; try done. split; [done|]. by rewrite Hl'.
  - rewrite Hu in Hr. by apply Forall_cons in Hr as [_ Hr].
  - intros i Hi. rewrite Hbits by lia. destruct (Z.eqb_spec i ind) as [->|Hn]; [done|].
    rewrite Hf, Hu, not_elem_of_cons by done. tauto.
  - intros i w' Hin. destruct (Ho i w') as (? & [? ? ? ?] & ?); [rewrite Hp; by right|].
    split_and!; [done|by constructor|done].
Qed.

(** ** Copies of scatter lists *)

Lemma seg_at_copy m dst src g : mem_ok m -> seg_at m src g -> seg_at (memcpy m dst src 16) dst g.
Proof.
  intros Hm (H1 & H2 & H3). split_and!; [rewrite <- H1|rewrite <- H2|rewrite <- H3]; apply ld_be_move; intros k Hk;
    rewrite <- ?Z.add_assoc; apply memcpy_at; (done || lia).
Qed.

Lemma repost_loop_spec sges : forall n m dst src,
  alen sges <= Z.of_nat n -> mem_ok m -> src + 16 * Z.of_nat n <= dst \/ dst + 16 * Z.of_nat n <= src ->
  Forall (fun g => sg_lkey g <> MLX5_INVALID_LKEY) sges ->
  (forall j g, sges !! j = Some g -> seg_at m (src + 16 * Z.of_nat j) g) ->
  (alen sges < Z.of_nat n -> seg_at m (src + 16 * alen sges) (Sge 0 0 MLX5_INVALID_LKEY)) ->
  let m' := repost_loop n m dst src in
  (forall j g, sges !! j = Some g -> seg_at m' (dst + 16 * Z.of_nat j) g) /\
  (alen sges < Z.of_nat n -> seg_at m' (dst + 16 * alen sges) (Sge 0 0 MLX5_INVALID_LKEY)) /\
  same_outside dst (dst + 16 * Z.of_nat n) m m' /\ mem_ok m'.
Proof.
  induction sges as [|g sges IH]; intros n m dst src Hn Hm Hd Hk Hs He.
  - cbn zeta. destruct n as [|n]; [split_and!; try done; unfold alen; simpl; lia|]. cbn [repost_loop].
    unfold alen in *. simpl length in *. rewrite Z.mul_0_r, !Z.add_0_r in *.
    pose proof (seg_at_copy m dst src _ Hm (He ltac:(lia))) as Hc. rewrite (proj2 (Z.eqb_eq (ld_be 4 _ (dst + 4)) _)) by apply Hc.
    split_and!; try done; [|by apply store_bytes_mem_ok].
    intros b Hb. apply memcpy_frame; lia.
  - assert (alen (g :: sges) = alen sges + 1) as Hl by (unfold alen; cbn [length]; lia). rewrite Hl in *.
    pose proof (alen_nonneg sges). destruct n as [|n]; [lia|]. cbn zeta. cbn [repost_loop]. inv Hk.
    pose proof (seg_at_copy m dst src g Hm) as Hc. pose proof (Hs 0%nat g eq_refl) as H0. rewrite Z.mul_0_r, Z.add_0_r in H0.
    specialize (Hc H0). rewrite (proj2 (Z.eqb_neq (ld_be 4 _ (dst + 4)) _)) by (destruct Hc as (_ & -> & _); done).
    set (m1 := memcpy m dst src 16) in *. assert (F1 : same_outside dst (dst + 16) m m1) by (by apply memcpy_frame).
    destruct (IH n m1 (dst + 16) (src + 16)) as (D & E & F & Hok); try done; try lia.
    + by apply store_bytes_mem_ok.
    + intros j g' Hj. pose proof (lookup_lt_Some _ _ _ Hj). apply seg_at_ext with m.
      * intros b Hb. apply F1. unfold alen in *. lia.
      * replace (src + 16 + 16 * Z.of_nat j) with (src + 16 * Z.of_nat (S j)) by lia. by apply Hs.
    + intros Hlt. apply seg_at_ext with m; [intros b Hb; apply F1; lia|].
      replace (src + 16 + 16 * alen sges) with (src + 16 * (alen sges + 1)) by lia. apply He. lia.
    + split_and!; [| | |done].
      * intros [|j] g' Hj; simpl in Hj.
        { injection Hj as <-. rewrite Z.mul_0_r, Z.add_0_r. apply seg_at_ext with m1; [|done]. intros b Hb. apply F. lia. }
        replace (dst + 16 * Z.of_nat (S j)) with (dst + 16 + 16 * Z.of_nat j) by lia. by apply D.
      * intros Hlt. replace (dst + 16 * (alen sges + 1)) with (dst + 16 + 16 * alen sges) by lia. apply E. lia.
      * intros b Hb. rewrite F, F1 by lia. done.
Qed.

(** ** Page faults *)

Definition populated (s : mlx5_srq) (m : mem) (a : srq_abs) (x : mlx5_srq * mem) : Prop :=
  exists t b xs, fst x = with_free (with_ends s (srq_head s) t) b /\
    srq_inv (fst x) (snd x) (SrqAbs (main_q a ++ xs) (wait_q a) (out a)) /\ keeps_out s a m (snd x).

Lemma populate_spec s m a :
  srq_inv s m a -> exists x, populate_srq_ll s m = Some x /\ populated s m a x.
Proof.
  intros Hi. unfold populate_srq_ll.
  edestruct (for_from_inv (fun _ x => populated s m a x) (Z.to_nat (nwqes s)) 0 populate_one (s, m)) as (x & E & Hx); [| |by exists x].
  - exists (srq_tail s), (free_wqe_bitmap s), []. rewrite app_nil_r. split; [by destruct s|]. split; [by destruct a|done].
  - intros k [s1 m1] Hk (t & b & xs & Hs1 & Hi1 & Hk1). cbn [fst snd] in *. pose proof (si_cfg _ _ _ Hi1) as Hc1.
    destruct (sc_bmp _ Hc1) as [Hb Hl]. destruct (sc_max _ Hc1). assert (nwqes s1 = nwqes s) as Hnw by (by rewrite Hs1).
    unfold populate_one. rewrite test_bit_bits by (done || lia). cbn [mbind option_bind].
    destruct (bitmap_bit (free_wqe_bitmap s1) k) eqn:Eb; [|eexists; split; [done|]; by exists t, b, xs].
    destruct (set_next_tail_inv s1 m1 _ k Hi1 ltac:(lia) Eb) as (s2 & m2 & b2 & E2 & Hs2 & Hi2 & Hk2).
    exists (s2, m2). split; [done|]. exists k, b2, (xs ++ [k]). cbn [fst snd main_q wait_q out] in *. rewrite app_assoc.
    split; [by rewrite Hs2, Hs1|]. split; [done|]. intros i Hin. rewrite <- Hk1 by done. rewrite Hs1 in Hk2. by apply Hk2.
Qed.

Lemma nwqes_inv s m a : srq_inv s m a -> srq_inv (with_nwqes s (srq_max s)) m a.
Proof.
  intros [Hc Hm Hq Hw Hnd Hr Hf Hh Ho]. constructor; try done; simpl.
  - destruct Hc. constructor; simpl; (done || lia).
  - lia.
  - intros i w Hin. destruct (Ho i w Hin) as (? & [] & ?). split_and!; [done|by constructor|done].
Qed.

(** The lists change, the WQEs in them and the outstanding receives do not. *)
Lemma requeue_inv s m a t wh wt m' l q o :
  srq_inv s m a -> used a ≡ₚ used (SrqAbs l q o) -> o ⊆ out a -> mem_ok m' ->
  let s' := with_waitq (with_ends s (srq_head s) t) wh wt in
  queue s m' l (srq_head s) t -> (if srq_has_waitq s' then queue s m' q wh wt else q = []) ->
  (forall i, i ∈ wait_q a -> nwqes s <= i -> i ∈ q) ->
  (forall i w, srq_request s w -> srq_encodes s m i w -> srq_encodes s m' i w) ->
  srq_inv s' m' (SrqAbs l q o).
Proof.
  intros [Hc Hm Hq Hw Hnd Hr Hf Hh Ho] Hu HO Hm' s' Hl Hwq Hhi He. constructor; simpl; try done.
  - by destruct Hc.
  - by rewrite <- Hu.
  - by rewrite <- Hu.
  - intros i Hi. rewrite <- Hu. by apply Hf.
  - intros i Hi. apply Hhi; [by apply Hh|lia].
  - intros i w Hin. destruct (Ho i w (HO _ Hin)) as (? & [? ? ? ?] & ?).
    split_and!; [done|by constructor|]. by apply (He i w).
Qed.

(** The first WQE of the wait queue goes to the free list, [ind] behind it. *)
Lemma waitq_rotate s m l q ind :
  srq_cfg_ok s -> NoDup (l ++ ind :: q) -> Forall (fun i => 0 <= i < 2 ^ 16) (ind :: q) ->
  queue s m l (srq_head s) (srq_tail s) -> queue s m q (waitq_head s) (waitq_tail s) ->
  exists q' m', q ++ [ind] = waitq_head s :: q' /\
    srq_cooldown_wqe s m ind = (if srq_has_waitq s
       then (true, with_waitq (with_ends s (srq_head s) (waitq_head s)) (get_next s m' (waitq_head s)) ind, m') else (false, s, m)) /\
    m' = set_next s (set_next s m (waitq_tail s) ind) (srq_tail s) (waitq_head s) /\
    queue s m' (l ++ [waitq_head s]) (srq_head s) (waitq_head s) /\
    queue s m' q' (get_next s m' (waitq_head s)) ind.
Proof.
  intros Hc Hnd Hr Hl Hq. apply Forall_cons in Hr as [Hind Hr]. apply NoDup_app in Hnd as (Hndl & Hd & Hndq).
  apply NoDup_cons in Hndq as [Hni Hndq]. destruct q as [|h q]; [by destruct Hq|].
  assert (waitq_head s = h) as Hh by (destruct Hq as ([= ?] & _); done). rewrite Hh in *.
  assert (waitq_tail s ∈ h :: q) as Hwt by (by apply last_Some_elem_of, Hq). assert (srq_tail s ∈ l) as Ht by (by apply last_Some_elem_of, Hl).
  assert (0 <= h < 2 ^ 16) as Hhr by (by inv Hr).
  set (m1 := set_next s m (waitq_tail s) ind). set (m2 := set_next s m1 (srq_tail s) h).
  assert (Q1 : queue s m1 ((h :: q) ++ [ind]) h ind) by (by apply queue_snoc).
  assert (N2 : forall i, i ∈ (h :: q) ++ [ind] -> get_next s m2 i = get_next s m1 i).
  { intros i Hi. unfold m2. rewrite (get_set_next s Hc) by done. zcase; [|done]. exfalso. subst i. apply (Hd _ Ht).
    apply elem_of_app in Hi. rewrite list_elem_of_singleton in Hi. rewrite elem_of_cons. tauto. }
  pose proof (queue_ext _ _ m2 _ _ _ N2 Q1) as (_ & Hlast & L). exists (q ++ [ind]), m2. split_and!; try done.
  - unfold srq_cooldown_wqe, srq_put_in_waitq, srq_get_from_waitq. destruct (srq_has_waitq s); [|done]. cbn. by rewrite Hh.
  - apply queue_snoc; try done. apply (queue_ext s m); [|done]. intros i Hi. unfold m1. rewrite (get_set_next s Hc) by done.
    zcase; [|done]. exfalso. subst i. apply (Hd _ Hi). by right.
  - split_and!; [|by rewrite last_snoc|intros k i j Hi Hj; by apply (L (S k))].
    destruct (q ++ [ind]) as [|x r] eqn:E; [by destruct q|]. simpl. f_equal. symmetry. apply (L 0%nat); simpl; [done|]. by rewrite E.
Qed.

(** WQE [ind] leaves the outstanding receives: it is put behind the free list,
    or at the end of the wait queue whose first WQE goes to the free list. *)
Lemma cool_inv s m a ind w o :
  srq_inv s m a -> out a ≡ₚ (ind, w) :: o -> nwqes s = srq_max s ->
  let '(ok, s1, m1) := srq_cooldown_wqe s m ind in
  let '(s2, m2) := if negb ok then (with_ends s1 (srq_head s1) ind, set_next s1 m1 (srq_tail s1) ind) else (s1, m1) in
  exists x l t wh wt, s2 = with_waitq (with_ends s (srq_head s) t) wh wt /\
    srq_inv s2 m2 (SrqAbs (main_q a ++ [x]) l o) /\ srq_encodes s m2 ind w /\ length l = length (wait_q a) /\
    forall i, i ∈ map fst o -> get_next s m2 i = get_next s m i.
Proof.
  intros Hi Hp Hnw. pose proof Hi as [Hc Hm Hq Hw Hnd Hr Hf Hh Ho].
  destruct (Ho ind w) as (_ & Hreq & Henc); [rewrite Hp; left|].
  assert (Hu : used a ≡ₚ (main_q a ++ ind :: wait_q a) ++ map fst o) by (unfold used; rewrite Hp; simpl; solve_Permutation).
  destruct (sc_max _ Hc) as [_ H16]. assert (Hrr : Forall (fun i => 0 <= i < 2 ^ 16) (ind :: wait_q a)).
  { rewrite Hu in Hr. apply Forall_app in Hr as [Hr _]. apply Forall_app in Hr as [_ Hr]. eapply Forall_impl; [exact Hr|]. simpl. lia. }
  assert (HO : o ⊆ out a) by (intros x Hx; rewrite Hp; by right). rewrite Hu in Hnd. apply NoDup_app in Hnd as [Hnd _].
  assert (Htl : forall i, i ∈ map fst o -> i <> srq_tail s /\ (srq_has_waitq s = true -> i <> waitq_tail s)).
  { intros i Hin. destruct (out_fresh _ _ _ i Hi) as (H1 & H2 & _).
    { apply list_elem_of_fmap in Hin as (y & -> & Hy). apply list_elem_of_fmap. exists y. auto. }
    destruct Hq as (_ & Hq & _). split; [intros ->; apply H1; by apply last_Some_elem_of|].
    intros E ->. apply H2. rewrite E in Hw. by apply last_Some_elem_of, Hw. }
  assert (Hhi : forall (q : list Z) i, i ∈ wait_q a -> nwqes s <= i -> i ∈ q).
  { intros q i Hin Hge. exfalso. assert (0 <= i < srq_max s); [|lia].
    apply (proj1 (Forall_forall _ _) Hr). unfold used. rewrite !elem_of_app. auto. }
  destruct (srq_has_waitq s) eqn:Ew.
  - destruct (waitq_rotate s m (main_q a) (wait_q a) ind Hc Hnd Hrr Hq Hw) as (q' & m' & Hq' & -> & Hm' & Q1 & Q2).
    rewrite Ew. cbn [negb]. exists (waitq_head s), q', (waitq_head s), (get_next s m' (waitq_head s)), ind.
    assert (0 <= waitq_head s < 2 ^ 16 /\ 0 <= ind < 2 ^ 16) as [Hwr Hir].
    { split; [|by inv Hrr]. apply Forall_cons in Hrr as [_ Hrr]. apply (proj1 (Forall_forall _ _) Hrr).
      destruct Hw as (Hw & _). destruct (wait_q a); [done|]. injection Hw as ->. left. }
    split; [done|]. split_and!; [|by rewrite Hm'; do 2 (apply srq_encodes_set_next; [done|done|])| |].
    2: { apply (f_equal length) in Hq'. rewrite length_app in Hq'. simpl in Hq'. lia. }
    2: { intros i Hin. destruct (Htl i Hin) as [H1 H2]. rewrite Hm', !(get_set_next s Hc) by done.
         rewrite !(proj2 (Z.eqb_neq _ _)); [done|by apply H2|done]. }
    apply (requeue_inv s m a); try done.
    + rewrite Hu. unfold used. simpl. rewrite <- !app_assoc. apply Permutation_app_head.
      assert (wait_q a ++ [ind] ≡ₚ waitq_head s :: q') as HP by by rewrite Hq'.
      rewrite app_assoc. change ([waitq_head s] ++ q') with (waitq_head s :: q'). rewrite <- HP. solve_Permutation.
    + rewrite Hm'. by do 2 apply store_bytes_mem_ok.
    + destruct (srq_has_waitq (with_waitq _ _ _)) eqn:E; [exact Q2|exfalso]. unfold srq_has_waitq in E. cbn [waitq_head with_waitq] in E. apply Z.leb_gt in E.
      assert (get_next s m' (waitq_head s) ∈ wait_q a ++ [ind]) as Hin.
      { rewrite Hq'. right. destruct q'; [by destruct Q2|]. destruct Q2 as ([= ->] & _). left. }
      rewrite Forall_forall in Hrr. apply elem_of_app in Hin. rewrite list_elem_of_singleton in Hin.
      assert (0 <= get_next s m' (waitq_head s)) by (apply (Hrr _); rewrite elem_of_cons; tauto). lia.
    + by apply Hhi.
    + intros i w' Hr' He. rewrite Hm'. by do 2 (apply srq_encodes_set_next; [done|done|]).
  - unfold srq_cooldown_wqe. rewrite Ew. cbn [negb].
    exists ind, [], ind, (waitq_head s), (waitq_tail s). split; [by destruct s|]. rewrite Hw in *.
    split_and!; [|by apply srq_encodes_set_next|done|].
    2: { intros i Hin. destruct (Htl i Hin) as [H1 _]. rewrite (get_set_next s Hc) by (inv Hrr; lia).
         by rewrite (proj2 (Z.eqb_neq _ _)). }
    assert (with_ends s (srq_head s) ind = with_waitq (with_ends s (srq_head s) ind) (waitq_head s) (waitq_tail s)) as -> by (by destruct s).
    apply (requeue_inv s m a); try done.
    + by apply store_bytes_mem_ok.
    + apply queue_snoc; try done; [inv Hrr; lia|by apply NoDup_app in Hnd as [? _]].
    + change (srq_has_waitq _) with (srq_has_waitq s). by rewrite Ew.
    + by rewrite Hw; apply Hhi.
    + intros i w' Hr' He. by apply srq_encodes_set_next.
Qed.

(** The receive in WQE [ind] is copied to the head of the free list. *)
Lemma srq_repost_spec s m a h l ind w :
  srq_inv s m a -> main_q a = h :: l -> l <> [] -> ind <> h -> 0 <= ind < srq_max s ->
  srq_request s w -> srq_encodes s m ind w -> (srq_wrid s).[ind] = Some (rwr_id w) ->
  exists s' m', srq_repost s m ind = Some (s', m') /\ srq_inv s' m' (SrqAbs l (wait_q a) ((h, w) :: out a)) /\
    keeps_out s a m m' /\ get_next s m' h = srq_head s' /\ srq_buf s' = srq_buf s /\ srq_shift s' = srq_shift s /\ srq_max s' = srq_max s /\
    srq_counter s' = u16 (srq_counter s + 1) /\ ld_be 4 m' (srq_db s) = srq_counter s'.
Proof.
  intros Hi Hmain Hl Hne Hind Hreq [He1 He2] Hid. pose proof (si_cfg _ _ _ Hi) as Hc.
  destruct (inv_head _ _ _ Hi) as [_ Hh]. assert (srq_head s = h) as Hhd.
  { destruct (si_main _ _ _ Hi) as (E & _). rewrite Hmain in E. by injection E as <-. }
  rewrite Hhd in Hh. destruct (sc_gs _ Hc) as [Hg0 Hg]. pose proof (sr_num _ _ Hreq). pose proof (sr_gs _ _ Hreq).
  assert (alen (srq_sges_of w) <= rwr_num_sge w) as Hsl by (unfold alen, srq_sges_of; rewrite length_take; lia).
  destruct (repost_loop_spec (srq_sges_of w) (Z.to_nat (srq_max_gs s)) m (srq_scat s h 0) (srq_scat s ind 0)) as (D & E & F & Hm').
  - lia.
  - apply Hi.
  - unfold srq_scat. destruct (wqe_apart s Hc ind h Hne); lia.
  - apply Forall_take, Hreq.
  - intros j g Hj. specialize (He1 j g Hj). unfold srq_scat in *. by rewrite Z.mul_0_r, Z.add_0_r.
  - intros Hlt. rewrite Z2Nat.id in Hlt by lia. specialize (He2 Hlt). unfold srq_scat in *. by rewrite Z.mul_0_r, Z.add_0_r.
  - set (m1 := repost_loop _ _ _ _) in *. rewrite Z2Nat.id in * by lia.
    unfold srq_scat in D, E, F. rewrite Z.mul_0_r, Z.add_0_r in D, E, F. fold m1 in D, E, F.
    assert (Henc : srq_encodes s m1 h w) by (split; [exact D|exact E]).
    assert (Hids : aset (srq_wrid s) h (rwr_id w) = Some (<[Z.to_nat h := rwr_id w]> (srq_wrid s))).
    { apply aset_Some. by rewrite (sc_ids _ Hc). }
    unfold srq_repost. rewrite Hid. cbn [mbind option_bind]. rewrite Hhd, Hids. cbn [mbind option_bind]. fold m1.
    assert (F' : same_outside (get_wqe s h + 16) (get_wqe s h + 2 ^ srq_shift s) m m1) by (intros b Hb; apply F; lia).
    pose proof (pop_inv s m a h l w _ m1 Hi Hmain Hl Hreq Hids F' Henc Hm') as Hi'.
    assert (get_next s m1 h = get_next s m h) as Hn.
    { apply (get_next_ext s). intros b Hb. apply F'. lia. }
    pose proof (fun v i => db_next _ m1 _ v i Hi' : _ -> get_next s (st_be 4 m1 (srq_db s) v) i = get_next s m1 i) as Hdbn.
    do 2 eexists. split; [done|]. rewrite Hn. split_and!; [by apply (db_inv (with_ends _ _ _))| | |done|done|done|done|].
    + intros i Hin. rewrite <- (scat_next s m m1 h i) by done. apply Hdbn. unfold used. simpl.
      rewrite !elem_of_app, elem_of_cons. auto.
    + rewrite <- Hn. apply Hdbn. unfold used. simpl. rewrite !elem_of_app, elem_of_cons. auto.
    + rewrite ld_be_st_be. apply Z.mod_small. pose proof (wrapu_range 16 (srq_counter s + 1) ltac:(lia)). simpl in *. lia.
Qed.

(** A page fault on an outstanding receive posts it again, in the WQE at the
    head of the free list. *)
Lemma odp_fault_spec s m a ind w o :
  srq_inv s m a -> out a ≡ₚ (ind, w) :: o ->
  exists s' m' l q, mlx5_complete_odp_fault s m ind = Some (s', m') /\
    srq_inv s' m' (SrqAbs l q ((srq_head s, w) :: o)) /\
    (forall c, c ⊆ map fst o -> chained s m c -> chained s' m' (c ++ [srq_head s])) /\
    length q = length (wait_q a) /\ srq_max s' = srq_max s /\
    srq_counter s' = u16 (srq_counter s + 1) /\ ld_be 4 m' (srq_db s) = srq_counter s'.
Proof.
  intros Hi Hp. unfold mlx5_complete_odp_fault.
  destruct (populate_spec s m a Hi) as ([s1 m1] & -> & t & b & xs & Hs1 & Hi1 & Hk1). cbn [mbind option_bind fst snd] in *.
  apply nwqes_inv in Hi1. set (s2 := with_nwqes s1 (srq_max s1)) in *.
  set (a2 := SrqAbs (main_q a ++ xs) (wait_q a) (out a)) in *. assert (Hp2 : out a2 ≡ₚ (ind, w) :: o) by done.
  pose proof (si_out _ _ _ Hi1 ind w ltac:(rewrite Hp2; left)) as (Hid & Hreq & _).
  assert (0 <= ind < srq_max s2) as Hind.
  { apply (proj1 (Forall_forall _ _) (si_range _ _ _ Hi1)). unfold used. rewrite Hp2. simpl. rewrite !elem_of_app, elem_of_cons. auto. }
  assert (ind ∉ main_q a2) as Hnin.
  { pose proof (si_nodup _ _ _ Hi1) as Hnd. unfold used in Hnd. rewrite Hp2 in Hnd. apply NoDup_app in Hnd as (_ & Hd & _).
    intros Hin. apply (Hd _ Hin). apply elem_of_app. right. left. }
  pose proof (cool_inv s2 m1 a2 ind w o Hi1 Hp2 eq_refl) as Hcool.
  destruct (srq_cooldown_wqe s2 m1 ind) as [[ok s3] m3]. destruct (if negb ok then _ else _) as [s4 m4].
  destruct Hcool as (x & q & t' & wh & wt & Hs4 & Hi4 & Henc & Hlq & Hk4).
  assert (srq_head s4 = srq_head s) as Hh4 by (by rewrite Hs4; unfold s2; rewrite Hs1).
  destruct (main_q a2) as [|h r] eqn:Em; [by destruct (si_main _ _ _ Hi1) as (E & _); rewrite Em in E|].
  assert (h = srq_head s) as ->.
  { destruct (si_main _ _ _ Hi4) as (E & _). simpl in E. injection E as ->. done. }
  destruct (srq_repost_spec s4 m4 _ (srq_head s) (r ++ [x]) ind w Hi4) as (s' & m' & E & Hi' & Hk' & Hnx & Hb' & Hsh' & Hmx' & Hct & Hdb).
  - done.
  - by destruct r.
  - intros ->. apply Hnin. left.
  - by rewrite Hs4.
  - rewrite Hs4. by destruct Hreq.
  - by rewrite Hs4.
  - by rewrite Hs4.
  - exists s', m', (r ++ [x]), q. split_and!; [done|exact Hi'| |done| | |].
    + rewrite Hs4 in *; unfold s2 in *; rewrite Hs1 in *. intros c Hsub. apply chained_snoc; try done. intros i Hin. apply Hsub in Hin.
      etrans; [by apply Hk'|]. etrans; [by apply Hk4|]. apply Hk1. rewrite Hp. by right.
    + by rewrite Hmx', Hs4; unfold s2; rewrite Hs1.
    + by rewrite Hct, Hs4; unfold s2; rewrite Hs1.
    + rewrite <- Hdb. by rewrite Hs4; unfold s2; rewrite Hs1.
Qed.

(** ** Creation *)

(** The list of consecutive WQEs. *)
Lemma set_ll_spec s m start end_ :
  srq_cfg_ok s -> mem_ok m -> 0 <= start <= end_ -> end_ < srq_max s ->
  exists m', set_srq_buf_ll s m start end_ = Some m' /\ mem_ok m' /\
    queue s m' (seqZ start (end_ + 1 - start)) start end_ /\
    forall i, i < start \/ end_ <= i -> get_next s m' i = get_next s m i.
Proof.
  intros Hc Hm Hse He. destruct (sc_max _ Hc) as [_ H16]. unfold set_srq_buf_ll.
  edestruct (for_from_inv (fun k m' => mem_ok m' /\ (forall i, get_next s m' i = if (start <=? i) && (i <? k) then i + 1 else get_next s m i))
    (Z.to_nat (end_ - start)) start (fun i m => Some (set_next s m i (i + 1))) m) as (m' & E & Hok & Hn).
  - split; [done|]. intros i. zcases; (done || lia).
  - intros k m1 Hk [Hok Hn]. eexists. split; [done|]. split; [by apply store_bytes_mem_ok|].
    intros i. rewrite (get_set_next s Hc), Hn by lia. zcases; (done || lia).
  - rewrite Z2Nat.id in Hn by lia. exists m'. split_and!; [done|done| |].
    + split_and!.
      * by rewrite seqZ_cons by lia.
      * replace (end_ + 1 - start) with (end_ - start + 1) by lia. rewrite seqZ_app by lia. rewrite last_app. cbn.
        f_equal. lia.
      * intros k i j [-> Hk1]%lookup_seqZ [-> Hk2]%lookup_seqZ. rewrite Hn. zcases; lia.
    + intros i Hi. rewrite Hn. zcases; (done || lia).
Qed.

(** A queue [mlx5_alloc_srq_buf] has just set up: for at least one receive and
    within the limits of the device, its doorbell record outside its buffer. *)
Record srq_created (e : srq_env) (s0 : mlx5_srq) (m0 : mem) (max_wr : Z) (s : mlx5_srq) (m : mem) : Prop := {
  cr_wr : 1 <= max_wr < 2 ^ 15;
  cr_gs : 0 <= srq_max_gs s0 <= 2 ^ 20;
  cr_mem : mem_ok m0;
  cr_ok : mlx5_alloc_srq_buf e s0 m0 max_wr = Some (0, s, m);
  cr_db : srq_db s + 4 <= srq_buf s \/ srq_buf s + srq_max s * 2 ^ srq_shift s <= srq_db s }.

(** The size of a WQE and the number of segments it has. *)
Lemma srq_stride gs :
  0 <= gs <= 2 ^ 20 ->
  exists k, 5 <= k <= 30 /\ i32 (roundup_pow_of_two (Z.max 32 (i32 (16 + gs * 16)))) = 2 ^ k /\
    gs <= (2 ^ k - 16) / 16 /\ 16 + 16 * ((2 ^ k - 16) / 16) = 2 ^ k.
Proof.
  intros Hg. replace (i32 (16 + gs * 16)) with (16 + gs * 16) by (unfold i32; rewrite Z.mod_small; lia).
  destruct (roundup_spec (Z.max 32 (16 + gs * 16))) as (k & Hk & E & Hb); [lia|].
  assert (5 <= k) as Hk5.
  { destruct (Z.lt_ge_cases k 5); [|done]. assert (2 ^ k < 2 ^ 5) by (apply Z.pow_lt_mono_r; lia). lia. }
  assert (k <= 25). { destruct (Z.le_gt_cases k 25); [done|]. assert (2 ^ 25 <= 2 ^ (k - 1)) by (apply Z.pow_le_mono_r; lia). lia. }
  assert (2 ^ k <= 2 ^ 25) by (apply Z.pow_le_mono_r; lia).
  assert (2 ^ k = 16 * 2 ^ (k - 4)) as Hk16 by (change 16 with (2 ^ 4); rewrite <- Z.pow_add_r by lia; f_equal; lia).
  assert ((2 ^ k - 16) / 16 = 2 ^ (k - 4) - 1) as Hd.
  { rewrite Hk16. replace (16 * 2 ^ (k - 4) - 16) with ((2 ^ (k - 4) - 1) * 16) by lia. by apply Z.div_mul. }
  exists k. rewrite E, Hd. split_and!; try lia. unfold i32. rewrite Z.mod_small; lia.
Qed.

(** The two queues: one of [2 ^ k] WQEs, the wait queue of as many. *)
Lemma srq_sizes o :
  1 <= o < 2 ^ 15 ->
  exists k, 0 < k <= 15 /\ align_queue_size (u32 (o + 1)) = 2 ^ k /\ align_queue_size (u32 (o * 2 + 1)) = 2 ^ (k + 1) /\ o < 2 ^ k.
Proof.
  intros Ho. unfold align_queue_size. rewrite !(wrapu_small 32) by lia.
  destruct (roundup_spec (o + 1)) as (k & Hk & E & Hb); [lia|].
  assert (k <= 15). { destruct (Z.le_gt_cases k 15); [done|]. assert (2 ^ 15 <= 2 ^ (k - 1)) by (apply Z.pow_le_mono_r; lia). lia. }
  assert (2 ^ (k + 1) = 2 * 2 ^ k /\ 2 ^ k = 2 * 2 ^ (k - 1)) as [H1 H2].
  { rewrite <- !Z.pow_succ_r by lia. split; f_equal; lia. }
  assert (2 ^ k <= 2 ^ 15) by (apply Z.pow_le_mono_r; lia).
  rewrite (roundup_unique (o * 2 + 1) (k + 1)) by (replace (k + 1 - 1) with k by lia; lia).
  exists k. rewrite E, H1. unfold i32. rewrite !Z.mod_small by lia. lia.
Qed.

(** The last part of [mlx5_alloc_srq_buf]: all WQEs are in the lists. *)
Lemma srq_lists_inv s m p (wq : bool) m1 m2 :
  srq_cfg_ok s -> mem_ok m -> 0 < p -> nwqes s = p -> srq_head s = 0 -> srq_tail s = p - 1 ->
  (forall i, bitmap_bit (free_wqe_bitmap s) i = false) ->
  (if wq then waitq_head s = p /\ waitq_tail s = srq_max s - 1 /\ p < srq_max s else waitq_head s = -1 /\ srq_max s = p) ->
  set_srq_buf_ll s m (srq_head s) (srq_tail s) = Some m1 ->
  (if wq then set_srq_buf_ll s m1 (waitq_head s) (waitq_tail s) else Some m1) = Some m2 ->
  srq_inv s m2 (SrqAbs (seqZ 0 p) (seqZ p (srq_max s - p)) []).
Proof.
  intros Hc Hm Hp Hnw Hh Ht Hb Hw E1 E2. destruct (sc_max _ Hc) as [Hnm _].
  destruct (set_ll_spec s m (srq_head s) (srq_tail s)) as (m1' & E1' & Hm1 & Q1 & N1); try done; try lia.
  rewrite E1 in E1'. injection E1' as <-. rewrite Hh, Ht in Q1. replace (p - 1 + 1 - 0) with p in Q1 by lia.
  assert (mem_ok m2 /\ queue s m2 (seqZ 0 p) 0 (p - 1) /\
    if srq_has_waitq s then queue s m2 (seqZ p (srq_max s - p)) (waitq_head s) (waitq_tail s) else seqZ p (srq_max s - p) = [])
    as (Hm2 & Q2 & W2).
  { unfold srq_has_waitq. destruct wq.
    - destruct Hw as (W1 & W2 & W3). destruct (set_ll_spec s m1 (waitq_head s) (waitq_tail s)) as (m2' & E2' & Hm2 & Q2 & N2); try done; try lia.
      rewrite E2 in E2'. injection E2' as <-. split_and!; [done| |].
      + apply (queue_ext s m1); [|done]. intros i Hi%elem_of_seqZ. apply N2. lia.
      + rewrite W1, W2 in *. rewrite (proj2 (Z.leb_le 0 p)) by lia. by replace (srq_max s - 1 + 1 - p) with (srq_max s - p) in Q2 by lia.
    - injection E2 as <-. destruct Hw as [-> ->]. split_and!; try done. simpl. by rewrite Z.sub_diag. }
  assert (Hu : used (SrqAbs (seqZ 0 p) (seqZ p (srq_max s - p)) []) = seqZ 0 (srq_max s)).
  { unfold used. simpl. rewrite app_nil_r. replace (srq_max s) with (p + (srq_max s - p)) at 2 by lia. by rewrite seqZ_app by lia. }
  constructor; rewrite ?Hu; simpl; try done.
  - by rewrite Hh, Ht.
  - apply NoDup_seqZ.
  - apply Forall_forall. intros i Hi%elem_of_seqZ. lia.
  - intros i Hi. rewrite Hb. split; [done|]. intros Hn. exfalso. apply Hn, elem_of_seqZ. lia.
  - intros i Hi. apply elem_of_seqZ. lia.
  - intros i w Hin. by apply not_elem_of_nil in Hin.
Qed.

Lemma srq_created_inv e s0 m0 o s m :
  srq_created e s0 m0 o s m ->
  srq_inv s m (SrqAbs (seqZ 0 (nwqes s)) (seqZ (nwqes s) (srq_max s - nwqes s)) []) /\ srq_head s = 0 /\
  o < nwqes s /\ srq_max_gs s0 <= srq_max_gs s.
Proof.
  intros [Ho Hg Hm E Hdb]. unfold mlx5_alloc_srq_buf in E. rewrite (proj2 (Z.ltb_ge _ 0)) in E by lia.
  destruct (srq_stride (srq_max_gs s0) Hg) as (k & Hk & Ek & Hgs & Hsz). rewrite Ek in E.
  destruct (_ <? 2 ^ k) in E; [done|]. rewrite ilog_pred in E by lia.
  destruct (srq_sizes o Ho) as (q & Hq & S1 & S2 & Hoq).
  destruct (se_buf e) as [buf|]; [|done]. destruct (se_wrid_ok e); [|done]. cbn [negb] in E.
  set (wq := negb _) in E. assert (exists mx, align_queue_size (if wq then u32 (o * 2 + 1) else u32 (o + 1)) = mx /\
    mx = if wq then 2 ^ (q + 1) else 2 ^ q) as (mx & Emx & Hmx) by (eexists; split; [done|]; by destruct wq).
  rewrite Emx, S1 in E. assert (2 ^ (q + 1) = 2 * 2 ^ q) as Hdbl by (rewrite <- Z.pow_succ_r by lia; f_equal; lia).
  assert (2 ^ q <= 2 ^ 15) by (apply Z.pow_le_mono_r; lia). assert (2 ^ 1 <= 2 ^ q) by (apply Z.pow_le_mono_r; lia).
  assert (2 ^ q <= mx <= 2 ^ 16) as Hmx' by (rewrite Hmx; destruct wq; lia).
  destruct (se_bitmap_ok e); [|done]. destruct (alloc0_bits mx) as (b & Eb & Hb & Hlb & Hbits); [lia|lia|]. rewrite Eb in E.
  set (m1 := if se_custom e then m0 else _) in E. assert (mem_ok m1) as Hm1 by (unfold m1; destruct (se_custom e); [done|by apply store_bytes_mem_ok]).
  clearbody m1. set (s1 := Srq _ _ _ _ _ _ _ _ _ _ _ _ _) in E.
  destruct (set_srq_buf_ll s1 m1 _ _) as [m2|] eqn:E2; [|done]. cbn [mbind option_bind] in E.
  destruct (if wq then set_srq_buf_ll _ _ _ _ else _) as [m3|] eqn:E3; [|done]. cbn [mbind option_bind] in E.
  assert (s1 = s) as <- by exact (f_equal (fun x => match x with Some (_, s, _) => s | None => s1 end) E).
  assert (m3 = m) as <- by exact (f_equal (fun x => match x with Some (_, _, m) => m | None => m3 end) E). clear E.
  assert (Hc : srq_cfg_ok s1).
  { constructor; simpl; try lia; try done. unfold alen. rewrite length_replicate. lia. split; [done|]. rewrite Hlb. dlia. }
  split_and!; [|done|simpl; lia|done].
  apply (srq_lists_inv s1 m1 (nwqes s1) wq m2 m3); try done; simpl; try lia. destruct wq; lia.
Qed.

(** ** The queue with its device

    The device reads WQEs in the order of their links, from the head the queue
    had when it was created.  [ss_pending] are the receives posted and not yet
    read, [ss_fetched] those read whose completion was not polled, with their
    WQEs: what the application and the device know of the queue. *)
Record srq_sys := SrqSys {
  ss_srq : mlx5_srq; ss_mem : mem; ss_hw : Z; ss_pending : list ibv_recv_wr; ss_fetched : list (Z * ibv_recv_wr) }.

(** A list is posted; the device reads a WQE; the completion of the [n]th
    receive is polled, or reports a page fault. *)
Inductive srq_event := EvPost (wrs : list ibv_recv_wr) | EvFetch | EvFree (n : nat) | EvFault (n : nat).

Definition srq_event_step (ev : srq_event) (x : srq_sys) : option srq_sys :=
  let '(SrqSys s m hw pending fetched) := x in
  match ev with
  | EvPost wrs =>
    r ← mlx5_post_srq_recv s m wrs;
    let '(_, bad, s, m) := r in
    Some (SrqSys s m hw (pending ++ take (length wrs - length bad) wrs) fetched)
  | EvFetch =>
    match pending with
    | [] => Some x
    | w :: pending => Some (SrqSys s m (get_next s m hw) pending ((hw, w) :: fetched))
    end
  | EvFree n =>
    match fetched !! n with
    | None => Some x
    | Some (i, _) => s ← mlx5_free_srq_wqe s i; Some (SrqSys s m hw pending (delete n fetched))
    end
  | EvFault n =>
    match fetched !! n with
    | None => Some x
    | Some (i, w) =>
      r ← mlx5_complete_odp_fault s m i;
      let '(s, m) := r in Some (SrqSys s m hw (pending ++ [w]) (delete n fetched))
    end
  end.

Fixpoint srq_run (evs : list srq_event) (x : srq_sys) : option srq_sys :=
  match evs with
  | [] => Some x
  | ev :: evs => x ← srq_event_step ev x; srq_run evs x
  end.

Definition event_wf (ev : srq_event) : Prop :=
  match ev with EvPost wrs => Forall recv_wf wrs | _ => True end.

(** The WQEs the device reads next. *)
Fixpoint walk (s : mlx5_srq) (m : mem) (i : Z) (n : nat) : list Z :=
  match n with O => [] | S n => i :: walk s m (get_next s m i) n end.

Definition holds (s : mlx5_srq) (m : mem) (i : Z) (w : ibv_recv_wr) : Prop :=
  (srq_wrid s).[i] = Some (rwr_id w) /\ srq_encodes s m i w.

Record sys_inv (n : Z) (x : srq_sys) (a : srq_abs) (c : list Z) : Prop := {
  sy_inv : srq_inv (ss_srq x) (ss_mem x) a;
  sy_len : length c = length (ss_pending x);
  sy_out : out a ≡ₚ zip c (ss_pending x) ++ ss_fetched x;
  sy_chain : chained (ss_srq x) (ss_mem x) c;
  sy_cap : srq_max (ss_srq x) = n + alen (wait_q a);
  sy_hw : hd_error (c ++ [srq_head (ss_srq x)]) = Some (ss_hw x) }.

Lemma sys_pending n x a c : sys_inv n x a c -> c ⊆ map fst (out a).
Proof.
  intros [_ Hl Ho _ _ _] i Hin. rewrite Ho, map_app. apply elem_of_app. left.
  change (map fst (zip c (ss_pending x))) with (fst <$> zip c (ss_pending x)). by rewrite fst_zip by lia.
Qed.

Lemma hd_app_snoc (l : list Z) x y h : hd_error (l ++ [x]) = Some h -> hd_error ((l ++ [x]) ++ [y]) = Some h.
Proof. by destruct l. Qed.

Lemma post_sys n s m hw p f a c wrs :
  sys_inv n (SrqSys s m hw p f) a c -> Forall recv_wf wrs ->
  exists err posted bad s' m' a' c', mlx5_post_srq_recv s m wrs = Some (err, bad, s', m') /\ wrs = posted ++ bad /\
    sys_inv n (SrqSys s' m' hw (p ++ posted) f) a' c' /\
    (posted <> [] -> srq_counter s' = u16 (srq_counter s + alen posted) /\ ld_be 4 m' (srq_db s) = srq_counter s') /\
    (err = 0 /\ bad = [] \/
     exists w rest, bad = w :: rest /\ (err = ENOMEM /\ srq_full s' a' \/ err = EINVAL /\ srq_max_gs s < rwr_num_sge w)).
Proof.
  intros Hx Hw. pose proof (sys_pending _ _ _ _ Hx) as Hsub. destruct Hx as [Hi Hl Ho Hc Hcap Hh]. simpl in *.
  destruct (srq_post_spec s m a wrs Hi Hw) as (e & bad & s' & m' & q & l & k & E & Hk & Hq & Hi' & Hch & Hhd & _ & _ & Hmx & Hdb & He).
  exists e, k, bad, s', m'. do 2 eexists. split_and!; [done|done| |done|exact He].
  constructor; simpl; [exact Hi'| | |by apply Hch|by rewrite Hmx|].
  - rewrite !length_app, length_map, Hl. f_equal. rewrite <- Hq. by rewrite length_map.
  - unfold posted_as in Hq. rewrite <- Hq, zip_with_app by done.
    assert (zip (map fst (reverse q)) (map snd (reverse q)) = reverse q) as -> by (by rewrite <- (zip_fst_snd (reverse q)) at 3).
    simpl. rewrite Ho, reverse_Permutation. solve_Permutation.
  - rewrite <- app_assoc. destruct c; [|done]. simpl in *. rewrite Hhd. exact Hh.
Qed.

Lemma post_step n x a c wrs :
  sys_inv n x a c -> Forall recv_wf wrs -> exists x' a' c', srq_event_step (EvPost wrs) x = Some x' /\ sys_inv n x' a' c'.
Proof.
  destruct x as [s m hw p f]. intros Hx Hw. destruct (post_sys _ _ _ _ _ _ _ _ _ Hx Hw) as (e & k & bad & s' & m' & a' & c' & E & -> & Hx' & _).
  simpl. rewrite E. cbn [mbind option_bind]. rewrite length_app, Nat.add_sub, take_app_length. by do 3 eexists.
Qed.

Lemma fetch_step n x a c : sys_inv n x a c -> exists x' a' c', srq_event_step EvFetch x = Some x' /\ sys_inv n x' a' c'.
Proof.
  destruct x as [s m hw p f]. intros [Hi Hl Ho Hc Hcap Hh]. simpl in *. destruct p as [|w p].
  { do 3 eexists. split; [done|]. by constructor. }
  destruct c as [|i c]; [done|]. simpl in *. injection Hh as ->. exists (SrqSys s m (get_next s m hw) p ((hw, w) :: f)), a, c.
  split; [done|]. constructor; simpl; [done|lia| | |done|].
  - rewrite Ho. simpl. solve_Permutation.
  - intros k y z Hy Hz. by apply (Hc (S k)).
  - destruct c as [|j c]; simpl; f_equal; symmetry; by apply (Hc 0%nat).
Qed.

Lemma free_step n x a c k : sys_inv n x a c -> exists x' a' c', srq_event_step (EvFree k) x = Some x' /\ sys_inv n x' a' c'.
Proof.
  destruct x as [s m hw p f]. intros [Hi Hl Ho Hc Hcap Hh]. simpl in *. destruct (f !! k) as [[i w]|] eqn:En.
  2: { do 3 eexists. split; [done|]. by constructor. }
  apply delete_Permutation in En. destruct (free_inv s m a i w (zip c p ++ delete k f) Hi) as (s' & b & -> & -> & Hi').
  { rewrite Ho, En at 1. simpl. solve_Permutation. }
  cbn [mbind option_bind]. do 3 eexists. split; [done|]. constructor; [exact Hi'|exact Hl|done|exact Hc|exact Hcap|exact Hh].
Qed.

Lemma fault_step n x a c k : sys_inv n x a c -> exists x' a' c', srq_event_step (EvFault k) x = Some x' /\ sys_inv n x' a' c'.
Proof.
  destruct x as [s m hw p f]. intros [Hi Hl Ho Hc Hcap Hh]. simpl in *. destruct (f !! k) as [[i w]|] eqn:En.
  2: { do 3 eexists. split; [done|]. by constructor. }
  apply delete_Permutation in En.
  destruct (odp_fault_spec s m a i w (zip c p ++ delete k f) Hi) as (s' & m' & l & q & -> & Hi' & Hch & Hlq & Hmx & _).
  { rewrite Ho, En at 1. simpl. solve_Permutation. }
  cbn [mbind option_bind]. do 3 eexists. split; [done|]. constructor; simpl; [exact Hi'| | |apply Hch; [|done]| |by apply hd_app_snoc].
  - rewrite !length_app. simpl. lia.
  - rewrite zip_with_app by done. simpl. solve_Permutation.
  - intros j Hj. rewrite map_app. apply elem_of_app. left. change (j ∈ fst <$> zip c p). by rewrite fst_zip by lia.
  - unfold alen in *. cbn [wait_q]. rewrite Hmx, Hlq. exact Hcap.
Qed.

Lemma run_inv n evs : forall x a c,
  sys_inv n x a c -> Forall event_wf evs -> exists x' a' c', srq_run evs x = Some x' /\ sys_inv n x' a' c'.
Proof.
  induction evs as [|ev evs IH]; intros x a c Hx Hw; simpl; [by exists x, a, c|]. inv Hw.
  assert (exists x' a' c', srq_event_step ev x = Some x' /\ sys_inv n x' a' c') as (x' & a' & c' & -> & Hx').
  { destruct ev; [by eapply post_step|by eapply fetch_step|by eapply free_step|by eapply fault_step]. }
  by apply (IH x' a' c').
Qed.

Lemma chained_walk s m c : forall hw,
  chained s m c -> hd_error (c ++ [srq_head s]) = Some hw -> walk s m hw (length c) = c.
Proof.
  induction c as [|i c IH]; intros hw Hc Hh; [done|]. simpl in Hh. injection Hh as ->. simpl. f_equal.
  apply IH; [intros k y z Hy Hz; by apply (Hc (S k))|].
  destruct c as [|j c]; simpl; f_equal; symmetry; by apply (Hc 0%nat).
Qed.

Lemma created_sys e s0 m0 o s m :
  srq_created e s0 m0 o s m -> exists n a, o < n /\ sys_inv n (SrqSys s m (srq_head s) [] []) a [].
Proof.
  intros Hcr. destruct (srq_created_inv _ _ _ _ _ _ Hcr) as (Hi & _ & Ho & _). do 2 eexists. split; [exact Ho|].
  destruct (sc_max _ (si_cfg _ _ _ Hi)) as [Hnw _].
  constructor; simpl; [exact Hi|done|done|intros k i j Hi' Hj; by destruct k| |done].
  unfold alen. cbn [wait_q]. rewrite length_seqZ. lia.
Qed.

(** C10: A shared receive queue is a queue: after any sequence of posts (of lists
    of any length, up to their first error), reads by the device, completions
    and page faults on a queue [mlx5_alloc_srq_buf] has set up, no operation
    has accessed memory outside its arrays, and the device, following the
    links, finds the outstanding receives in the order they were posted, each
    with its own scatter list and [wr_id]; WQEs of receives it has already read
    are still intact, and no WQE is used twice. *)
Theorem srq_fifo e s0 m0 max_wr s m evs :
  srq_created e s0 m0 max_wr s m -> Forall event_wf evs ->
  exists s' m' hw pending fetched,
    srq_run evs (SrqSys s m (srq_head s) [] []) = Some (SrqSys s' m' hw pending fetched) /\
    Forall2 (holds s' m') (walk s' m' hw (length pending)) pending /\
    Forall (fun x => holds s' m' (fst x) (snd x)) fetched /\
    NoDup (walk s' m' hw (length pending) ++ map fst fetched).
Proof.
  intros Hcr Hw. destruct (created_sys _ _ _ _ _ _ Hcr) as (n & a0 & _ & H0).
  destruct (run_inv n evs _ _ _ H0 Hw) as ([s' m' hw p f] & a & c & -> & [Hi Hl Ho Hc _ Hh]). simpl in *.
  exists s', m', hw, p, f. rewrite <- Hl, (chained_walk s' m' c hw) by done.
  assert (Hout : Forall (fun x => holds s' m' (fst x) (snd x)) (out a)).
  { apply Forall_forall. intros [i w] Hin. destruct (si_out _ _ _ Hi i w Hin) as (? & _ & ?). by split. }
  rewrite Ho in Hout. apply Forall_app in Hout as [H1 H2]. split_and!; [done| |done|].
  - apply Forall2_same_length_lookup_2; [done|]. intros k i w Hi' Hw'. rewrite Forall_lookup in H1.
    apply (H1 k (i, w)). by rewrite lookup_zip_with, Hi', Hw'.
  - pose proof (si_nodup _ _ _ Hi) as Hnd. unfold used in Hnd. rewrite Ho in Hnd. rewrite map_app in Hnd.
    change (map fst (zip c p)) with (fst <$> zip c p) in Hnd. rewrite fst_zip in Hnd by lia.
    apply NoDup_app in Hnd as (_ & _ & Hnd). by apply NoDup_app in Hnd as (_ & _ & Hnd).
Qed.

(** Nothing is free but the head of the list. *)
Lemma full_out n s m a hw p f c :
  sys_inv n (SrqSys s m hw p f) a c -> srq_full s a -> n - 1 = alen p + alen f.
Proof.
  intros [Hi Hl Ho _ Hcap _] [Hm Hall]. simpl in *. pose proof (si_nodup _ _ _ Hi) as Hnd.
  destruct (sc_max _ (si_cfg _ _ _ Hi)) as [Hnw _].
  assert (used a ≡ₚ seqZ 0 (srq_max s)) as Hp.
  { apply NoDup_Permutation; [done|apply NoDup_seqZ|]. intros i. rewrite elem_of_seqZ, Z.add_0_l. split; [|apply Hall].
    intros Hin. by apply (proj1 (Forall_forall _ _) (si_range _ _ _ Hi)). }
  apply Permutation_length in Hp. unfold used in Hp. rewrite !length_app, length_map, Hm, Ho, length_app, length_seqZ in Hp.
  rewrite length_zip_with in Hp. unfold alen in *. simpl in Hp. lia.
Qed.

(** Whatever happened to a queue before, posting a list returns: all of it is
    posted, or up to the first receive with more segments than a WQE has
    ([EINVAL]), or up to the first for which there is no WQE ([ENOMEM]), and
    then at least the [max_wr] receives the queue was created for are
    outstanding.  The doorbell record counts the receives posted. *)
Theorem srq_post_outcome e s0 m0 max_wr s m evs x wrs :
  srq_created e s0 m0 max_wr s m -> Forall event_wf evs -> srq_run evs (SrqSys s m (srq_head s) [] []) = Some x ->
  Forall recv_wf wrs ->
  exists err posted bad s' m', mlx5_post_srq_recv (ss_srq x) (ss_mem x) wrs = Some (err, bad, s', m') /\ wrs = posted ++ bad /\
    (posted <> [] -> srq_counter s' = u16 (srq_counter (ss_srq x) + alen posted) /\
                     ld_be 4 m' (srq_db (ss_srq x)) = srq_counter s') /\
    (err = 0 /\ bad = [] \/
     (exists w rest, err = EINVAL /\ bad = w :: rest /\ srq_max_gs (ss_srq x) < rwr_num_sge w) \/
     err = ENOMEM /\ bad <> [] /\ max_wr <= alen (ss_pending x) + alen posted + alen (ss_fetched x)).
Proof.
  intros Hcr He Hrun Hw. destruct (created_sys _ _ _ _ _ _ Hcr) as (n & a0 & Hn & H0).
  destruct (run_inv n evs _ _ _ H0 He) as (x' & a & c & Hx & Hi). rewrite Hrun in Hx. injection Hx as <-.
  destruct x as [s1 m1 hw p f]. cbn [ss_srq ss_mem ss_pending ss_fetched].
  destruct (post_sys _ _ _ _ _ _ _ _ _ Hi Hw) as (err & k & bad & s' & m' & a' & c' & E & Hk & Hx' & Hdb & Ho).
  exists err, k, bad, s', m'. split_and!; [done|done|done|].
  destruct Ho as [?|(w & rest & -> & [[-> Hf]|[-> Hg]])]; [by left|right; right|right; left; by exists w, rest].
  split_and!; [done|done|]. pose proof (full_out _ _ _ _ _ _ _ _ Hx' Hf) as Hlen. unfold alen in *. rewrite length_app in Hlen. lia.
Qed.

(** ** A queue in use *)

Definition sample_srq_env : srq_env := SrqEnv 1000 4096 (Some 4096) true true true.
Definition sample_srq0 : mlx5_srq := Srq 0 0 [] 0 1 0 0 0 0 256 0 [] 0.
Definition sample_srq : mlx5_srq * mem :=
  match mlx5_alloc_srq_buf sample_srq_env sample_srq0 ∅ 2 with Some (_, s, m) => (s, m) | None => (sample_srq0, ∅) end.
Definition sample_recv (k : Z) : ibv_recv_wr := RecvWr (100 + k) [Sge (65536 * k) 64 7] 1.

Lemma sample_created : srq_created sample_srq_env sample_srq0 ∅ 2 (fst sample_srq) (snd sample_srq).
Proof.
  constructor.
  - lia.
  - simpl. lia.
  - intros a. unfold ld8. rewrite lookup_empty. unfold byte_ok, in_width. simpl. lia.
  - by vm_compute.
  - left. vm_compute. discriminate.
Qed.

Lemma sample_recv_wf k : 0 <= k < 2 ^ 40 -> recv_wf (sample_recv k).
Proof.
  intros Hk. constructor; simpl; [unfold alen; simpl; lia| |].
  - constructor; [|done]. unfold sge_ok, in_width. simpl. lia.
  - by constructor.
Qed.

Definition sample_events : list srq_event :=
  [EvPost [sample_recv 1; sample_recv 2]; EvFetch; EvFault 0; EvFetch; EvPost [sample_recv 3]; EvFree 0].

Lemma sample_events_wf : Forall event_wf sample_events.
Proof.
  assert (Forall recv_wf [sample_recv 1; sample_recv 2] /\ Forall recv_wf [sample_recv 3]) as [H1 H2] by (split; repeat (constructor; try by apply sample_recv_wf)).
  by repeat (constructor; try done).
Qed.

(** Three receives, a page fault on the first one, the second one completed. *)
Lemma srq_fifo_witness :
  exists s' m' hw pending fetched,
    srq_run sample_events (SrqSys (fst sample_srq) (snd sample_srq) (srq_head (fst sample_srq)) [] []) =
      Some (SrqSys s' m' hw pending fetched) /\
    Forall2 (holds s' m') (walk s' m' hw (length pending)) pending /\
    Forall (fun x => holds s' m' (fst x) (snd x)) fetched /\
    NoDup (walk s' m' hw (length pending) ++ map fst fetched).
Proof. exact (srq_fifo _ _ _ _ _ _ sample_events sample_created sample_events_wf). Defined.

(** The device reads what is left of them in the order of their posts. *)
Lemma sample_run_pending :
  option_map (fun x => (map rwr_id (ss_pending x), walk (ss_srq x) (ss_mem x) (ss_hw x) 2))
    (srq_run sample_events (SrqSys (fst sample_srq) (snd sample_srq) (srq_head (fst sample_srq)) [] [])) =
  Some ([101; 103], [2; 3]).
Proof. by vm_compute. Qed.

Lemma sample_list_wf : Forall recv_wf [sample_recv 4].
Proof. constructor; [by apply sample_recv_wf|done]. Qed.

Lemma srq_post_outcome_witness :
  exists x err posted bad s' m',
    srq_run sample_events (SrqSys (fst sample_srq) (snd sample_srq) (srq_head (fst sample_srq)) [] []) = Some x /\
    mlx5_post_srq_recv (ss_srq x) (ss_mem x) [sample_recv 4] = Some (err, bad, s', m') /\ [sample_recv 4] = posted ++ bad /\
    (err = 0 /\ bad = [] \/
     (exists w rest, err = EINVAL /\ bad = w :: rest /\ srq_max_gs (ss_srq x) < rwr_num_sge w) \/
     err = ENOMEM /\ bad <> [] /\ 2 <= alen (ss_pending x) + alen posted + alen (ss_fetched x)).
Proof.
  destruct (srq_run sample_events (SrqSys (fst sample_srq) (snd sample_srq) (srq_head (fst sample_srq)) [] [])) as [x|] eqn:E.
  - destruct (srq_post_outcome _ _ _ _ _ _ sample_events x [sample_recv 4] sample_created sample_events_wf E sample_list_wf)
      as (err & posted & bad & s' & m' & H1 & H2 & _ & H3).
    exists x, err, posted, bad, s', m'. exact (conj eq_refl (conj H1 (conj H2 H3))).
  - exfalso. revert E. clear. vm_compute. discriminate.
Defined.
