(* ===== verification/Tables.v ===== *)
(** providers/mlx5: the two-level tables that map the numbers of queue pairs,
    shared receive queues, memory keys and user indices to their objects
    (qp.c, srq.c, mlx5.c, mlx5.h).

    A number has 24 bits: the upper 12 choose a page, the lower 12 an entry of
    it.  A page is allocated with its first entry and freed with its last one,
    which its reference count decides.  The theorem says that such a table is
    the finite map of the objects stored and not cleared: the counts are right
    after every operation, so no entry is read from a freed page and no page
    is freed under an object. *)

From stdpp Require Import gmap.
From S2P Require Import Prelude.

(** ** State and operations *)

Definition TABLE_SHIFT : Z := 12.
Definition TABLE_MASK : Z := Z.shiftl 1 TABLE_SHIFT - 1.
Definition TABLE_SIZE : Z := Z.shiftl 1 (24 - TABLE_SHIFT).

(** A freed or unallocated page has no entries: reading one is undefined
    behaviour.  Pointers are addresses, 0 is [NULL]. *)
Record page := Page { refcnt : Z; table : list Z }.

Definition tab_find (t : list page) (key : Z) : option Z :=
  p ← t.[Z.shiftr key TABLE_SHIFT];
  if negb (refcnt p =? 0) then (table p).[Z.land key TABLE_MASK] else Some 0.

(** [mem_ok]: whether [calloc] succeeds.  The return value and the table. *)
Definition tab_store (mem_ok : bool) (t : list page) (key obj : Z) : option (Z * list page) :=
  let tind := Z.shiftr key TABLE_SHIFT in
  p ← t.[tind];
  if (refcnt p =? 0) && negb mem_ok then t ← aset t tind (Page 0 []); Some (-1, t)
  else
    let entries := if refcnt p =? 0 then replicate (Z.to_nat (TABLE_MASK + 1)) 0 else table p in
    entries ← aset entries (Z.land key TABLE_MASK) obj;
    t ← aset t tind (Page (refcnt p + 1) entries);
    Some (0, t).

Definition tab_clear (t : list page) (key : Z) : option (list page) :=
  let tind := Z.shiftr key TABLE_SHIFT in
  p ← t.[tind];
  if refcnt p - 1 =? 0 then aset t tind (Page 0 [])
  else
    entries ← aset (table p) (Z.land key TABLE_MASK) 0;
    aset t tind (Page (refcnt p - 1) entries).

Definition mlx5_find_qp := tab_find.
Definition mlx5_store_qp := tab_store.
Definition mlx5_clear_qp := tab_clear.
Definition mlx5_find_srq := tab_find.
Definition mlx5_store_srq := tab_store.
Definition mlx5_clear_srq := tab_clear.
Definition mlx5_find_mkey := tab_find.
Definition mlx5_store_mkey := tab_store.
Definition mlx5_clear_mkey := tab_clear.
Definition mlx5_find_uidx := tab_find.
Definition mlx5_clear_uidx := tab_clear.

(** The two loops of [get_free_uidx]: the index of the first page with room,
    and of the first free entry; the length when there is none. *)
Fixpoint first_page (t : list page) (tind : Z) : Z :=
  match t with
  | [] => tind
  | p :: t => if refcnt p <? TABLE_MASK then tind else first_page t (tind + 1)
  end.

Fixpoint first_entry (l : list Z) (i : Z) : Z :=
  match l with
  | [] => i
  | x :: l => if x =? 0 then i else first_entry l (i + 1)
  end.

Definition get_free_uidx (t : list page) : option Z :=
  let tind := first_page t 0 in
  if tind =? TABLE_SIZE then Some (-1) else
  p ← t.[tind];
  if refcnt p =? 0 then Some (Z.shiftl tind TABLE_SHIFT)
  else Some (Z.lor (Z.shiftl tind TABLE_SHIFT) (first_entry (table p) 0)).

Definition mlx5_store_uidx (mem_ok : bool) (t : list page) (rsc : Z) : option (Z * list page) :=
  uidx ← get_free_uidx t;
  if uidx <? 0 then Some (-1, t) else
  r ← tab_store mem_ok t uidx rsc;
  let '(rc, t) := r in
  Some (if rc =? 0 then uidx else -1, t).

(** ** The abstract table *)

Definition entries_of (l : list Z) : Z := Z.of_nat (length (filter (fun x => x <> 0) l)).

(** A page holds [f]: unallocated when it is empty. *)
Record page_ok (p : page) (f : Z -> Z) : Prop := {
  po_cnt : refcnt p = 0 /\ (forall i, 0 <= i < TABLE_SIZE -> f i = 0) \/
           0 < refcnt p /\ refcnt p = entries_of (table p) /\ alen (table p) = TABLE_MASK + 1 /\
           forall i, 0 <= i < TABLE_SIZE -> (table p).[i] = Some (f i) }.

Definition slot (M : gmap Z Z) (tind i : Z) : Z := default 0 (M !! (tind * TABLE_SIZE + i)).

Record tab_rep (t : list page) (M : gmap Z Z) : Prop := {
  tr_len : alen t = TABLE_SIZE;
  tr_pages : forall tind p, t.[tind] = Some p -> page_ok p (slot M tind);
  tr_keys : map_Forall (fun key obj => in_width 24 key /\ obj <> 0) M }.

(** ** Pages *)

Lemma entries_of_insert l i x y :
  l !! i = Some x -> entries_of (<[i := y]> l) + (if decide (x = 0) then 0 else 1) =
                     entries_of l + (if decide (y = 0) then 0 else 1).
Proof.
  intros Hi. rewrite insert_take_drop by (by eapply lookup_lt_Some). rewrite <- (take_drop_middle _ _ _ Hi) at 3.
  unfold entries_of. rewrite !filter_app, !filter_cons, !length_app. 
  destruct (decide (x = 0)), (decide (y = 0)); repeat case_decide; try done; simpl; lia.
Qed.

Lemma entries_of_zero l : entries_of l = 0 -> forall i x, l !! i = Some x -> x = 0.
Proof.
  unfold entries_of. intros H i x Hx. destruct (decide (x = 0)) as [|Hn]; [done|exfalso].
  assert (x ∈ filter (fun x => x <> 0) l) as Hin by (apply list_elem_of_filter; split; [done|by eapply list_elem_of_lookup_2]).
  destruct (filter _ l); [by apply not_elem_of_nil in Hin|]. simpl in H. lia.
Qed.

Lemma entries_of_one l i x j y :
  entries_of l = 1 -> l !! i = Some x -> x <> 0 -> l !! j = Some y -> i <> j -> y = 0.
Proof.
  intros H Hi Hx Hj Hne. pose proof (entries_of_insert l i x 0 Hi) as He.
  rewrite decide_False, decide_True in He by done.
  apply (entries_of_zero (<[i := 0]> l)) with j; [lia|]. by rewrite list_lookup_insert_ne.
Qed.

Lemma entries_of_bound l : 0 <= entries_of l <= alen l.
Proof. unfold entries_of, alen. pose proof (length_filter (fun x => x <> 0) l). lia. Qed.

(** The index of a number. *)
Lemma key_split key :
  in_width 24 key ->
  exists tind i, Z.shiftr key TABLE_SHIFT = tind /\ Z.land key TABLE_MASK = i /\ key = tind * TABLE_SIZE + i /\
    0 <= tind < TABLE_SIZE /\ 0 <= i < TABLE_SIZE.
Proof.
  intros Hk. exists (key / 4096), (key mod 4096). unfold in_width in Hk.
  change TABLE_MASK with (Z.ones 12). rewrite Z.land_ones, Z.shiftr_div_pow2 by (unfold TABLE_SHIFT; lia).
  change (2 ^ TABLE_SHIFT) with 4096. change TABLE_SIZE with 4096. split_and!; try done; dlia.
Qed.

Lemma page_store p f ok i obj :
  page_ok p f -> 0 <= i < TABLE_SIZE -> f i = 0 -> obj <> 0 -> refcnt p <> 0 \/ ok = true ->
  exists l, aset (if refcnt p =? 0 then replicate (Z.to_nat (TABLE_MASK + 1)) 0 else table p) i obj = Some l /\
    page_ok (Page (refcnt p + 1) l) (fun j => if j =? i then obj else f j).
Proof.
  intros [[[Hr Hf]|(Hr & Hc & Hl & Hf)]] Hi Hz Ho Hok.
  - rewrite (proj2 (Z.eqb_eq _ _) Hr). set (l0 := replicate _ 0).
    assert (alen l0 = TABLE_SIZE) as Hl0 by (unfold l0; rewrite alen_replicate; done).
    assert (l0 !! Z.to_nat i = Some 0) as Hi0.
    { apply lookup_replicate_2. change (TABLE_MASK + 1) with TABLE_SIZE. lia. }
    rewrite aset_Some by lia. eexists. split; [done|]. constructor. right. simpl.
    pose proof (entries_of_insert l0 _ _ obj Hi0) as He. rewrite decide_True, decide_False in He by done.
    assert (entries_of l0 = 0) as H0.
    { unfold entries_of, l0. clear. induction (Z.to_nat (TABLE_MASK + 1)); [done|]. simpl. by rewrite filter_cons_False by auto. }
    split_and!; try lia.
    + unfold alen. by rewrite length_insert.
    + intros j Hj. rewrite (aget_aset l0 _ i j obj) by (apply aset_Some; lia). rewrite Z.eqb_sym. zcase; [done|].
      rewrite Hf by done. unfold l0. apply aget_replicate. change (TABLE_MASK + 1) with TABLE_SIZE. lia.
  - rewrite (proj2 (Z.eqb_neq _ 0)) by lia. change (TABLE_MASK + 1) with TABLE_SIZE in Hl.
    rewrite aset_Some by lia. eexists. split; [done|]. constructor. right. simpl.
    pose proof (Hf i Hi) as Hfi. rewrite aget_lookup, Hz in Hfi by lia.
    pose proof (entries_of_insert _ _ _ obj Hfi) as He. rewrite decide_True, decide_False in He by done.
    split_and!; try lia.
    + unfold alen. by rewrite length_insert.
    + intros j Hj. rewrite (aget_aset (table p) _ i j obj) by (apply aset_Some; lia). rewrite Z.eqb_sym. zcase; [done|]. by apply Hf.
Qed.

Lemma page_clear p f i :
  page_ok p f -> 0 <= i < TABLE_SIZE -> f i <> 0 ->
  (refcnt p = 1 /\ forall j, 0 <= j < TABLE_SIZE -> j <> i -> f j = 0) \/
  (1 < refcnt p /\ exists l, aset (table p) i 0 = Some l /\ page_ok (Page (refcnt p - 1) l) (fun j => if j =? i then 0 else f j)).
Proof.
  intros [[[Hr Hf]|(Hr & Hc & Hl & Hf)]] Hi Hz; [by exfalso; apply Hz, Hf|].
  pose proof (Hf i Hi) as Hfi. rewrite aget_lookup in Hfi by lia. change (TABLE_MASK + 1) with TABLE_SIZE in Hl.
  destruct (Z.eq_dec (refcnt p) 1) as [E|E]; [left|right].
  - split; [done|]. intros j Hj Hne. pose proof (Hf j Hj) as Hfj. rewrite aget_lookup in Hfj by lia.
    apply (entries_of_one (table p) (Z.to_nat i) (f i) (Z.to_nat j)); try done; lia.
  - split; [lia|]. rewrite aset_Some by lia. eexists. split; [done|]. constructor. right. simpl.
    pose proof (entries_of_insert _ _ _ 0 Hfi) as He. rewrite decide_False, decide_True in He by done. split_and!; try lia.
    + unfold alen. by rewrite length_insert.
    + intros j Hj. rewrite (aget_aset (table p) _ i j 0) by (apply aset_Some; lia). rewrite Z.eqb_sym. zcase; [done|]. by apply Hf.
Qed.

(** ** Tables *)

Section Table.
Context (t : list page) (M : gmap Z Z) (Ht : tab_rep t M).

Lemma tab_page tind : 0 <= tind < TABLE_SIZE -> exists p, t.[tind] = Some p /\ page_ok p (slot M tind).
Proof.
  intros Hi. destruct (aget_is_Some t tind) as [p Hp]; [by rewrite (tr_len _ _ Ht)|].
  exists p. split; [done|by apply (tr_pages _ _ Ht)].
Qed.

(** A change of one page is a change of the entries with its index. *)
Lemma tab_update tind p M' :
  0 <= tind < TABLE_SIZE -> page_ok p (slot M' tind) ->
  (forall k i, k <> tind -> 0 <= i < TABLE_SIZE -> slot M' k i = slot M k i) ->
  map_Forall (fun key obj => in_width 24 key /\ obj <> 0) M' ->
  exists t', aset t tind p = Some t' /\ tab_rep t' M'.
Proof.
  intros Hi Hp Hs HM. rewrite aset_Some by (rewrite (tr_len _ _ Ht); done). eexists. split; [done|].
  assert (E : aset t tind p = Some (<[Z.to_nat tind := p]> t)) by (apply aset_Some; rewrite (tr_len _ _ Ht); done).
  constructor; [|intros k q Hq|done].
  - rewrite (aset_alen _ _ _ _ E). apply Ht.
  - rewrite (aget_aset _ _ _ _ _ E) in Hq. zcase_in Hq; [by simplify_eq|].
    destruct (tr_pages _ _ Ht k q Hq) as [Hc]. constructor. destruct Hc as [[Hr Hf]|(Hr & Hc & Hl & Hf)]; [left|right].
    + split; [done|]. intros i Hii. rewrite Hs by done. by apply Hf.
    + split_and!; try done. intros i Hii. rewrite Hs by done. by apply Hf.
Qed.

Lemma slot_key key obj tind i k j :
  key = tind * TABLE_SIZE + i -> 0 <= i < TABLE_SIZE -> 0 <= j < TABLE_SIZE ->
  slot (<[key := obj]> M) k j = if (k =? tind) && (j =? i) then obj else slot M k j.
Proof.
  intros -> Hi Hj. unfold slot. destruct (Z.eqb_spec k tind) as [->|Hk]; simpl.
  - zcase; [subst; by rewrite lookup_insert_eq|]. rewrite lookup_insert_ne by lia. done.
  - rewrite lookup_insert_ne; [done|]. change TABLE_SIZE with 4096 in *. nia.
Qed.

Lemma slot_delete key tind i k j :
  key = tind * TABLE_SIZE + i -> 0 <= i < TABLE_SIZE -> 0 <= j < TABLE_SIZE ->
  slot (delete key M) k j = if (k =? tind) && (j =? i) then 0 else slot M k j.
Proof.
  intros -> Hi Hj. unfold slot. destruct (Z.eqb_spec k tind) as [->|Hk]; simpl.
  - zcase; [subst; by rewrite lookup_delete_eq|]. rewrite lookup_delete_ne by lia. done.
  - rewrite lookup_delete_ne; [done|]. change TABLE_SIZE with 4096 in *. nia.
Qed.

Lemma page_ext p f g : (forall i, 0 <= i < TABLE_SIZE -> f i = g i) -> page_ok p f -> page_ok p g.
Proof.
  intros H [[[Hr Hf]|(Hr & Hc & Hl & Hf)]]; constructor; [left|right].
  - split; [done|]. intros i Hi. rewrite <- H by done. by apply Hf.
  - split_and!; try done. intros i Hi. rewrite <- H by done. by apply Hf.
Qed.

Lemma tab_find_spec key : in_width 24 key -> tab_find t key = Some (default 0 (M !! key)).
Proof.
  intros Hk. destruct (key_split key Hk) as (tind & i & H1 & H2 & H3 & Ht' & Hi).
  destruct (tab_page tind Ht') as (p & Hp & [Hc]). unfold tab_find. rewrite H1, Hp, H2. cbn [mbind option_bind].
  rewrite H3. change (default 0 _) with (slot M tind i).
  destruct Hc as [[-> Hf]|(Hr & Hc & Hl & Hf)]; [by rewrite (Hf i)|].
  rewrite (proj2 (Z.eqb_neq _ 0)) by lia. by apply Hf.
Qed.

Lemma tab_store_spec ok key obj :
  in_width 24 key -> M !! key = None -> obj <> 0 ->
  exists r t', tab_store ok t key obj = Some (r, t') /\
    (r = 0 /\ tab_rep t' (<[key := obj]> M) \/ r = -1 /\ ok = false /\ tab_rep t' M).
Proof.
  intros Hk Hn Ho. destruct (key_split key Hk) as (tind & i & H1 & H2 & H3 & Ht' & Hi).
  destruct (tab_page tind Ht') as (p & Hp & Hpo). unfold tab_store. rewrite H1, Hp, H2. cbn [mbind option_bind].
  assert (slot M tind i = 0) as Hz by (unfold slot; rewrite <- H3, Hn; done).
  destruct ((refcnt p =? 0) && negb ok) eqn:E.
  - apply andb_true_iff in E as [E1 E2]. apply Z.eqb_eq in E1. destruct ok; [done|].
    destruct (tab_update tind (Page 0 []) M) as (t' & -> & Hr); [done| |done|apply Ht|].
    + destruct Hpo as [[[_ Hf]|(Hr & _)]]; [|lia]. constructor. by left.
    + exists (-1), t'. split; [done|]. by right.
  - destruct (page_store p (slot M tind) ok i obj) as (l & -> & Hpo'); try done.
    { destruct (Z.eqb_spec (refcnt p) 0); [right|by left]. by destruct ok. }
    cbn [mbind option_bind].
    destruct (tab_update tind (Page (refcnt p + 1) l) (<[key := obj]> M)) as (t' & -> & Hr); [done| | | |].
    + eapply page_ext; [|exact Hpo']. intros j Hj. rewrite (slot_key key obj tind i) by done. by rewrite Z.eqb_refl.
    + intros k j Hne Hj. rewrite (slot_key key obj tind i) by done. by rewrite (proj2 (Z.eqb_neq k tind)).
    + apply map_Forall_insert_2; [done|apply Ht].
    + exists 0, t'. split; [done|]. by left.
Qed.

Lemma tab_clear_spec key obj :
  M !! key = Some obj -> exists t', tab_clear t key = Some t' /\ tab_rep t' (delete key M).
Proof.
  intros Hn. destruct (tr_keys _ _ Ht key obj Hn) as [Hk Ho]. destruct (key_split key Hk) as (tind & i & H1 & H2 & H3 & Ht' & Hi).
  destruct (tab_page tind Ht') as (p & Hp & Hpo). unfold tab_clear. rewrite H1, Hp, H2. cbn [mbind option_bind].
  assert (slot M tind i <> 0) as Hz by (unfold slot; rewrite <- H3, Hn; done).
  assert (HM : map_Forall (fun key obj => in_width 24 key /\ obj <> 0) (delete key M)) by (apply map_Forall_delete, Ht).
  assert (Hs : forall k j, k <> tind -> 0 <= j < TABLE_SIZE -> slot (delete key M) k j = slot M k j).
  { intros k j Hne Hj. rewrite (slot_delete key tind i) by done. by rewrite (proj2 (Z.eqb_neq k tind)). }
  destruct (page_clear p (slot M tind) i Hpo Hi Hz) as [[-> Hf]|(Hgt & l & -> & Hpo')].
  - apply tab_update; try done. constructor. left. split; [done|]. intros j Hj. rewrite (slot_delete key tind i) by done.
    rewrite Z.eqb_refl. simpl. zcase; [done|]. by apply Hf.
  - rewrite (proj2 (Z.eqb_neq _ 0)) by lia. cbn [mbind option_bind]. apply tab_update; try done.
    eapply page_ext; [|exact Hpo']. intros j Hj. rewrite (slot_delete key tind i) by done. by rewrite Z.eqb_refl.
Qed.
End Table.

(** A table as [calloc] returns it with the context. *)
Lemma tab_rep_empty : tab_rep (replicate (Z.to_nat TABLE_SIZE) (Page 0 [])) ∅.
Proof.
  constructor; [by rewrite alen_replicate| |apply map_Forall_empty].
  intros tind p Hp. pose proof (aget_Some_lt _ _ _ Hp) as Hl. rewrite alen_replicate in Hl.
  rewrite aget_replicate in Hp by lia. simplify_eq. constructor. left. done.
Qed.

(** ** User indices *)

Lemma first_page_spec t : forall k, exists n, first_page t k = k + n /\ 0 <= n <= alen t /\
  (forall p, t.[n] = Some p -> refcnt p < TABLE_MASK) /\
  (forall j p, 0 <= j < n -> t.[j] = Some p -> TABLE_MASK <= refcnt p).
Proof.
  induction t as [|p t IH]; intros k; cbn [first_page].
  { exists 0. split_and!; (done || lia). }
  assert (alen (p :: t) = alen t + 1) as Hl by (unfold alen; cbn [length]; lia). pose proof (alen_nonneg t).
  destruct (Z.ltb_spec (refcnt p) TABLE_MASK).
  - exists 0. split_and!; try lia. intros q [= <-]. done.
  - destruct (IH (k + 1)) as (n & -> & Hn & H1 & H2). exists (n + 1). split_and!; try lia.
    + intros q Hq. apply H1. rewrite aget_lookup in Hq |- * by lia. by replace (Z.to_nat (n + 1)) with (S (Z.to_nat n)) in Hq by lia.
    + intros j q Hj Hq. destruct (Z.eq_dec j 0) as [->|Hj0]; [injection Hq as <-; done|]. apply (H2 (j - 1)); [lia|].
      rewrite aget_lookup in Hq |- * by lia. by replace (Z.to_nat j) with (S (Z.to_nat (j - 1))) in Hq by lia.
Qed.

Lemma first_entry_spec l : entries_of l < alen l -> forall k,
  exists n, first_entry l k = k + n /\ 0 <= n < alen l /\ l.[n] = Some 0.
Proof.
  induction l as [|x l IH]; intros He k; [unfold alen, entries_of in He; simpl in He; lia|]. cbn [first_entry].
  assert (alen (x :: l) = alen l + 1) as Hl by (unfold alen; cbn [length]; lia). pose proof (alen_nonneg l).
  destruct (Z.eqb_spec x 0) as [->|Hx].
  - exists 0. split_and!; (done || lia).
  - destruct (IH) with (k := k + 1) as (n & -> & Hn & H0).
    { unfold entries_of in *. rewrite filter_cons_True in He by done. simpl in He. lia. }
    exists (n + 1). split_and!; try lia. rewrite aget_lookup in H0 |- * by lia.
    by replace (Z.to_nat (n + 1)) with (S (Z.to_nat n)) by lia.
Qed.

(** The user indices a page holds. *)
Definition page_count (t : list page) (tind : Z) : Z := match t.[tind] with Some p => refcnt p | None => 0 end.

Lemma get_free_spec t M :
  tab_rep t M -> exists u, get_free_uidx t = Some u /\
    (u = -1 /\ (forall tind, 0 <= tind < TABLE_SIZE -> TABLE_MASK <= page_count t tind) \/
     in_width 24 u /\ M !! u = None).
Proof.
  intros Ht. destruct (first_page_spec t 0) as (n & E & Hn & H1 & H2). rewrite (tr_len _ _ Ht) in Hn. unfold get_free_uidx.
  rewrite E, Z.add_0_l. destruct (Z.eqb_spec n TABLE_SIZE) as [->|Hne].
  { exists (-1). split; [done|]. left. split; [done|]. intros tind Hi. destruct (tab_page t M Ht tind Hi) as (p & Hp & _).
    unfold page_count. rewrite Hp. by apply (H2 tind). }
  destruct (tab_page t M Ht n) as (p & Hp & [Hc]); [lia|]. rewrite Hp. cbn [mbind option_bind].
  assert (Hfree : forall i, 0 <= i < TABLE_SIZE -> slot M n i = 0 -> in_width 24 (n * 2 ^ 12 + i) /\ M !! (n * 2 ^ 12 + i) = None).
  { intros i Hi Hs. unfold slot in Hs. change TABLE_SIZE with 4096 in *. change (2 ^ 12) with 4096. split; [unfold in_width; lia|].
    destruct (M !! (n * 4096 + i)) eqn:Em; [|done]. simpl in Hs. by destruct (tr_keys _ _ Ht _ _ Em). }
  rewrite Z.shiftl_mul_pow2 by (unfold TABLE_SHIFT; lia). change (2 ^ TABLE_SHIFT) with (2 ^ 12).
  destruct Hc as [[-> Hf]|(Hr & Hc & Hl & Hf)].
  - eexists. split; [done|]. right. rewrite <- (Z.add_0_r (n * 2 ^ 12)). apply Hfree; [|apply Hf]; by change TABLE_SIZE with 4096.
  - rewrite (proj2 (Z.eqb_neq _ 0)) by lia. eexists. split; [done|]. right. specialize (H1 p Hp).
    destruct (first_entry_spec (table p)) with (k := 0) as (i & -> & Hi & H0); [lia|].
    rewrite Hl in Hi. change (TABLE_MASK + 1) with TABLE_SIZE in Hi.
    rewrite <- Z.shiftl_mul_pow2, lor_shift_add by (change TABLE_SIZE with 4096 in *; lia).
    apply Hfree; [done|]. rewrite (Hf i Hi) in H0. by injection H0.
Qed.

Lemma store_uidx_spec t M ok rsc :
  tab_rep t M -> rsc <> 0 ->
  exists r t', mlx5_store_uidx ok t rsc = Some (r, t') /\
    (in_width 24 r /\ M !! r = None /\ tab_rep t' (<[r := rsc]> M) \/
     r = -1 /\ tab_rep t' M /\ (ok = true -> forall tind, 0 <= tind < TABLE_SIZE -> TABLE_MASK <= page_count t tind)).
Proof.
  intros Ht Ho. unfold mlx5_store_uidx. destruct (get_free_spec t M Ht) as (u & -> & [[-> Hfull]|[Hu Hn]]); cbn [mbind option_bind].
  - exists (-1), t. split; [done|]. right. split_and!; done.
  - rewrite (proj2 (Z.ltb_ge u 0)) by apply Hu.
    destruct (tab_store_spec t M Ht ok u rsc Hu Hn Ho) as (r & t' & -> & [[-> Hr]|(-> & -> & Hr)]); cbn [mbind option_bind].
    + exists u, t'. split; [done|]. left. done.
    + exists (-1), t'. split; [done|]. right. done.
Qed.

(** C35: The tables of a context are finite maps.  The empty one is the map
    without elements; for a table that represents a map, finding a number gives
    the object stored under it and [NULL] for any other number; storing an
    object under a free number adds it, or fails when the page cannot be
    allocated and then changes nothing; clearing a stored number removes it;
    and a new user index is one that is not in use, refused only when every
    page has at least 4095 of them or the allocation fails.  The reference
    count of each page is the number of its objects throughout, so no
    operation touches a page that is not allocated. *)
Theorem tables_are_maps :
  tab_rep (replicate (Z.to_nat TABLE_SIZE) (Page 0 [])) ∅ /\
  forall t M, tab_rep t M ->
    (forall qpn, in_width 24 qpn -> mlx5_find_qp t qpn = Some (default 0 (M !! qpn))) /\
    (forall mem_ok qpn qp, in_width 24 qpn -> M !! qpn = None -> qp <> 0 ->
       exists r t', mlx5_store_qp mem_ok t qpn qp = Some (r, t') /\
         (r = 0 /\ tab_rep t' (<[qpn := qp]> M) \/ r = -1 /\ mem_ok = false /\ tab_rep t' M)) /\
    (forall qpn qp, M !! qpn = Some qp -> exists t', mlx5_clear_qp t qpn = Some t' /\ tab_rep t' (delete qpn M)) /\
    (forall mem_ok rsc, rsc <> 0 ->
       exists uidx t', mlx5_store_uidx mem_ok t rsc = Some (uidx, t') /\
         (in_width 24 uidx /\ M !! uidx = None /\ tab_rep t' (<[uidx := rsc]> M) \/
          uidx = -1 /\ tab_rep t' M /\
          (mem_ok = true -> forall tind, 0 <= tind < TABLE_SIZE -> TABLE_MASK <= page_count t tind))).
Proof.
  split; [exact tab_rep_empty|]. intros t M Ht. split_and!.
  - exact (tab_find_spec t M Ht).
  - exact (tab_store_spec t M Ht).
  - exact (tab_clear_spec t M Ht).
  - intros ok rsc. by apply store_uidx_spec.
Qed.
