(* ===== verification/Tm.v ===== *)
(** providers/mlx5: tag matching on a shared receive queue.

    [mlx5_post_srq_ops] (qp.c) adds and removes receive tags through WQEs of a
    command queue pair; the completions of [handle_tag_matching] (cq.c, in
    [Cq.v]) give the entries back.  Entries are linked into a queue of free
    ones from [tm_head] to [tm_tail]; [expect_cqe] counts the completions an
    entry still waits for, and the last one frees it
    ([mlx5_tm_release_tag], mlx5.h).  Pointers to entries are indices of
    [tm_list], -1 is [NULL]. *)

From S2P Require Import Prelude Util Mem Wqe PostSend.

Definition i8 (x : Z) : Z := (x + 2 ^ 7) mod 2 ^ 8 - 2 ^ 7.

(** ** State *)

Record tag_entry := Tag { tg_next : Z; tg_id : Z; tg_phase : Z; tg_ptr : Z; tg_size : Z; tg_expect : Z }.
Record srq_op := SrqOp { op_tag : Z; op_id : Z; op_wqe_head : Z }.

(** The fields of [struct mlx5_srq] for tag matching; [cmd_qp] is the address
    of the command queue pair. *)
Record tm_state := Tm {
  tm_list : list tag_entry; tm_head : Z; tm_tail : Z; tm_op : list srq_op; op_head : Z; op_tail : Z;
  unexp_in : Z; unexp_out : Z; cmd_qp : Z }.

Definition with_tags (t : tm_state) (l : list tag_entry) : tm_state :=
  Tm l (tm_head t) (tm_tail t) (tm_op t) (op_head t) (op_tail t) (unexp_in t) (unexp_out t) (cmd_qp t).
Definition with_tm_ends (t : tm_state) (h tl : Z) : tm_state :=
  Tm (tm_list t) h tl (tm_op t) (op_head t) (op_tail t) (unexp_in t) (unexp_out t) (cmd_qp t).
Definition with_ops (t : tm_state) (l : list srq_op) (h tl : Z) : tm_state :=
  Tm (tm_list t) (tm_head t) (tm_tail t) l h tl (unexp_in t) (unexp_out t) (cmd_qp t).
Definition with_unexp (t : tm_state) (i o : Z) : tm_state :=
  Tm (tm_list t) (tm_head t) (tm_tail t) (tm_op t) (op_head t) (op_tail t) i o (cmd_qp t).

Definition set_next_tag (e : tag_entry) (n : Z) : tag_entry := Tag n (tg_id e) (tg_phase e) (tg_ptr e) (tg_size e) (tg_expect e).
Definition set_expect (e : tag_entry) (n : Z) : tag_entry := Tag (tg_next e) (tg_id e) (tg_phase e) (tg_ptr e) (tg_size e) n.
Definition set_buffer (e : tag_entry) (p s : Z) : tag_entry := Tag (tg_next e) (tg_id e) (tg_phase e) p s (tg_expect e).

Definition mlx5_tm_release_tag (t : tm_state) (tag : Z) : option tm_state :=
  e ← (tm_list t).[tag];
  let n := i8 (tg_expect e - 1) in
  l ← aset (tm_list t) tag (set_expect e n);
  if negb (n =? 0) then Some (with_tags t l) else
  l ← amod l tag (fun e => set_next_tag e (-1));
  l ← amod l (tm_tail t) (fun e => set_next_tag e tag);
  Some (with_tm_ends (with_tags t l) (tm_head t) tag).

(** [q] is the send queue of the command queue pair. *)
Definition mlx5_tm_add_op (t : tm_state) (q : mlx5_wq) (tag id nreq : Z) : option tm_state :=
  ops ← aset (tm_op t) (Z.land (u32 (op_tail t)) (u32 (wqe_cnt q - 1))) (SrqOp tag id (u32 (head q + nreq)));
  let t := with_ops t ops (op_head t) (i32 (op_tail t + 1)) in
  if negb (tag =? -1) then
    l ← amod (tm_list t) tag (fun e => set_expect e (i8 (tg_expect e + 1)));
    Some (with_tags t l)
  else Some t.

(** ** Posting *)

Definition IBV_WR_TAG_ADD : Z := 0.
Definition IBV_WR_TAG_DEL : Z := 1.
Definition IBV_WR_TAG_SYNC : Z := 2.
Definition IBV_OPS_SIGNALED : Z := 1.
Definition IBV_OPS_TM_SYNC : Z := 2.
Definition MLX5_TM_OPCODE_NOP : Z := 0.
Definition MLX5_TM_OPCODE_APPEND : Z := 1.
Definition MLX5_TM_OPCODE_REMOVE : Z := 2.
Definition MLX5_SRQ_FLAG_TM_SW_CNT : Z := 64.
Definition MLX5_SRQ_FLAG_TM_CQE_REQ : Z := 128.
Definition MLX5_OPCODE_TAG_MATCHING : Z := 0x28.

Record ibv_ops_wr := OpsWr {
  ow_id : Z; ow_opcode : Z; ow_flags : Z; ow_unexpected : Z; ow_handle : Z; ow_recv_id : Z;
  ow_sges : list ibv_sge; ow_num_sge : Z; ow_tag : Z; ow_mask : Z }.

Definition with_handle (w : ibv_ops_wr) (h : Z) : ibv_ops_wr :=
  OpsWr (ow_id w) (ow_opcode w) (ow_flags w) (ow_unexpected w) h (ow_recv_id w) (ow_sges w) (ow_num_sge w) (ow_tag w) (ow_mask w).

Definition set_tm_seg (m : mem) (seg op : Z) (w : ibv_ops_wr) (index : Z) : mem :=
  let flags := if has (ow_flags w) IBV_OPS_SIGNALED then MLX5_SRQ_FLAG_TM_CQE_REQ else 0 in
  let sync := has (ow_flags w) IBV_OPS_TM_SYNC in
  let m := st8 m (seg + 1) (if sync then Z.lor flags MLX5_SRQ_FLAG_TM_SW_CNT else flags) in
  let m := if sync then st_be 2 m (seg + 6) (ow_unexpected w) else m in
  let m := st8 m seg (Z.shiftl op 4) in
  if op =? MLX5_TM_OPCODE_NOP then m else
  let m := st_be 2 m (seg + 2) index in
  if op =? MLX5_TM_OPCODE_REMOVE then m else
  st_be 8 (st_be 8 m (seg + 16) (ow_tag w)) (seg + 24) (ow_mask w).

(** A request filled in: the error, or the request with its handle, the tags,
    memory and size. *)
Inductive tm_built := TmErr (err : Z) | TmDone (w : ibv_ops_wr) (t : tm_state) (m : mem) (size : Z).

(** [IBV_WR_TAG_ADD]: the entry at the head of the free ones, never the last. *)
Definition tag_add (t : tm_state) (qp : mlx5_qp) (m : mem) (w : ibv_ops_wr) (nreq seg size : Z) : option tm_built :=
  let tag := tm_head t in
  e ← (tm_list t).[tag];
  if tg_next e =? -1 then Some (TmErr ENOMEM) else
  let t := with_tm_ends t (tg_next e) (tm_tail t) in
  let m := set_tm_seg m seg MLX5_TM_OPCODE_APPEND w (tg_next e) in
  let t := if has (ow_flags w) IBV_OPS_TM_SYNC then with_unexp t (unexp_in t) (i32 (ow_unexpected w)) else t in
  l ← aset (tm_list t) tag (Tag (-1) (ow_recv_id w) (unexp_out t) (tg_ptr e) (tg_size e) (i8 (tg_expect e + 1)));
  t ← (if has (ow_flags w) IBV_OPS_SIGNALED then mlx5_tm_add_op (with_tags t l) (sq qp) tag (ow_id w) nreq
       else Some (with_tags t l));
  let w := with_handle w tag in
  let seg := wrap_seg qp (seg + 32) in
  let full := if negb (ow_num_sge w =? 0) then g ← (ow_sges w).[0]; Some (negb (sg_length g =? 0), g) else Some (false, Sge 0 0 0) in
  r ← full;
  let '(b, g) := r in
  if (b : bool) then
    l ← amod (tm_list t) tag (fun e => set_buffer e (sg_addr g) (sg_length g));
    Some (TmDone w (with_tags t l) (set_data_ptr_seg m seg g 0) (size + 2 + 1))
  else Some (TmDone w t (set_data_ptr_seg_end m seg) (size + 2 + 1)).

Definition tag_del (t : tm_state) (qp : mlx5_qp) (m : mem) (w : ibv_ops_wr) (nreq seg size : Z) : option tm_built :=
  let tag := ow_handle w in
  let m := set_tm_seg m seg MLX5_TM_OPCODE_REMOVE w tag in
  t ← (if has (ow_flags w) IBV_OPS_SIGNALED then mlx5_tm_add_op t (sq qp) tag (ow_id w) nreq else mlx5_tm_release_tag t tag);
  Some (TmDone w t m (size + 2)).

Definition tag_sync (t : tm_state) (qp : mlx5_qp) (m : mem) (w : ibv_ops_wr) (nreq seg size : Z) : option tm_built :=
  let m := set_tm_seg m seg MLX5_TM_OPCODE_NOP w 0 in
  t ← (if has (ow_flags w) IBV_OPS_SIGNALED then mlx5_tm_add_op t (sq qp) (-1) (ow_id w) nreq else Some t);
  Some (TmDone w t m (size + 2)).

Definition tm_build (t : tm_state) (qp : mlx5_qp) (m : mem) (w : ibv_ops_wr) (nreq seg size : Z) : option tm_built :=
  if ow_opcode w =? IBV_WR_TAG_ADD then tag_add t qp m w nreq seg size
  else if ow_opcode w =? IBV_WR_TAG_DEL then tag_del t qp m w nreq seg size
  else if ow_opcode w =? IBV_WR_TAG_SYNC then tag_sync t qp m w nreq seg size
  else Some (TmErr EINVAL).

(** The control segment as it is initialised, and when the WQE is complete. *)
Definition tm_ctrl_init (m : mem) (ctrl : Z) : mem :=
  st8 (st_le 4 (st_le 4 m (ctrl + 8) 0) (ctrl + 12) 0) (ctrl + 11) 0.

Definition tm_ctrl_finish (qp : mlx5_qp) (m : mem) (ctrl size : Z) : mem :=
  let m := st_be 4 m ctrl (Z.lor MLX5_OPCODE_TAG_MATCHING (Z.shiftl (Z.land (cur_post (sq qp)) 0xffff) 8)) in
  let m := st_be 4 m (ctrl + 4) (Z.lor size (shlu 32 (qp_num qp) 8)) in
  if wq_sig qp then st8 m (ctrl + 8) (wq_sig_of m ctrl) else m.

(** What the loop leaves: the error, the number of requests, those done with
    their handles, the rest, the state, [size] and [ctrl]. *)
Record tm_result := TmResult {
  tr_err : Z; tr_nreq : Z; tr_done : list ibv_ops_wr; tr_bad : list ibv_ops_wr;
  tr_tm : tm_state; tr_qp : mlx5_qp; tr_mem : mem; tr_size : Z; tr_ctrl : Z }.

Fixpoint tm_loop (t : tm_state) (qp : mlx5_qp) (m : mem) (nreq size ctrl : Z) (wrs done_ : list ibv_ops_wr) : option tm_result :=
  match wrs with
  | [] => Some (TmResult 0 nreq done_ [] t qp m size ctrl)
  | w :: wrs' =>
    if mlx5_wq_overflow (sq qp) nreq then Some (TmResult ENOMEM nreq done_ wrs t qp m size ctrl) else
    let ctrl := mlx5_get_send_wqe qp (sq_idx (sq qp)) in
    let m := tm_ctrl_init m ctrl in
    r ← tm_build t qp m w nreq (ctrl + 16) 1;
    match r with
    | TmErr err => Some (TmResult err nreq done_ wrs t qp m 1 ctrl)
    | TmDone w t m size =>
      let m := tm_ctrl_finish qp m ctrl size in
      let q := sq qp in
      let qp := with_sq qp (with_post q (wrid q) (wqe_head q) (u32 (cur_post q + DIV_ROUND_UP (size * 16) 64))) in
      tm_loop t qp m (nreq + 1) size ctrl wrs' (done_ ++ [w])
    end
  end.

(** [None] for [cmd_qp] is a shared receive queue without tag matching.  The
    error, the requests done, [*bad_wr] and the rest, the tags, queue pair and
    memory, and the writes to the doorbell register. *)
Definition mlx5_post_srq_ops (ctx : mlx5_context) (t : tm_state) (cmd : option mlx5_qp) (m : mem) (wrs : list ibv_ops_wr)
  : option (Z * list ibv_ops_wr * list ibv_ops_wr * tm_state * option mlx5_qp * mem * list mmio_event) :=
  match cmd with
  | None => Some (EINVAL, [], wrs, t, None, m, [])
  | Some qp =>
    r ← tm_loop t qp m 0 0 0 wrs [];
    let qp := with_fm_cache (tr_qp r) 0 in
    let '(qp, m, ev) := post_send_db ctx qp (tr_mem r) (tr_nreq r) false (tr_size r) (tr_ctrl r) in
    Some (tr_err r, tr_done r, tr_bad r, tr_tm r, Some qp, m, ev)
  end.
