(* ===== verification/Cq.v ===== *)
(** providers/mlx5/cq.c: completion queues.

    The device writes completions (CQEs) into a ring in memory and marks the
    generation of each with an owner bit; the driver reads them in order,
    finds the queue the completion is about, reports the id of its request and
    gives the WQE back.  [mlx5_poll_cq] fills an array of [ibv_wc];
    [mlx5_start_poll]/[mlx5_next_poll]/[mlx5_end_poll] leave the completion in
    the ring for the [read_*] functions ("lazy").  [mlx5_cq_clean] removes the
    completions of a queue pair from the ring, [mlx5_cq_resize_copy_cqes]
    moves them to another ring.

    The functions change memory, the queue and the objects the completions are
    about: they are written in a state monad over all of these, in which
    undefined behaviour, and a thread that freezes on an error, has no result. *)

From stdpp Require Import gmap.
From S2P Require Import Prelude Bitmap Mem Wqe PostSend PostRecv Srq Tables Tm.

(** ** State *)

(** The fields the lazy interface reads and writes. *)
Record cq_lazy := Lazy {
  cq_flags : Z; cq_cqe64 : Z; cached_opcode : Z; ex_wr_id : Z; ex_status : Z; cur_rsc : Z; cur_srq : Z }.

(** The fields that decide when polling waits. *)
Record cq_stall := Stall {
  stall_enable : bool; stall_adaptive_enable : bool; stall_next_poll : Z; stall_cycles : Z; stall_last_count : Z }.

(** [cqe_mask] is [verbs_cq.cq.cqe], the number of entries less one. *)
Record mlx5_cq := Cq {
  cq_buf : Z; cqe_mask : Z; cqe_sz : Z; cons_index : Z; dbrec : Z; cqn : Z; arm_sn : Z;
  active_cqes : Z; resize_buf : Z; resize_cqes : Z; resize_cqe_sz : Z; lazy_st : cq_lazy; stall_st : cq_stall }.

(** The objects of the resource tables, by address: queue pairs (with the
    address of their shared receive queue, 0 for none), shared receive queues
    ([xrc]: of type [MLX5_RSC_TYPE_XSRQ]) and work queues. *)
Record srq_obj := SrqObj { so_srqn : Z; so_srq : mlx5_srq; so_tm : tm_state }.
Inductive resource :=
| RQp (rsn : Z) (qp : mlx5_qp) (srq : Z)
| RSrq (xrc : bool) (rsn : Z) (o : srq_obj)
| RRwq (rsn : Z) (q : mlx5_rwq).

Definition rsn_of (r : resource) : Z := match r with RQp n _ _ => n | RSrq _ n _ => n | RRwq n _ => n end.

Record mlx5_sig_err := SigErr { se_syndrome : Z; se_expected : Z; se_actual : Z; se_offset : Z; se_type : Z; se_domain : Z }.
Record mlx5_sig_ctx := SigCtx { err_info : mlx5_sig_err; err_count : Z; err_exists : bool; err_count_updated : bool }.

(** Everything polling may change; [w_now] is the value of the time stamp
    counter, [w_fill] the key of the NULL memory region, [w_freeze]
    the setting [mlx5_freeze_on_error_cqe]. *)
Record world := World {
  w_mem : mem; w_cq : mlx5_cq; w_rscs : gmap Z resource; w_sigs : gmap Z mlx5_sig_ctx;
  qp_table : list page; srq_table : list page; uidx_table : list page; mkey_table : list page;
  w_now : Z; w_fill : Z; w_freeze : bool }.

Definition with_wmem (w : world) (m : mem) : world :=
  World m (w_cq w) (w_rscs w) (w_sigs w) (qp_table w) (srq_table w) (uidx_table w) (mkey_table w) (w_now w) (w_fill w) (w_freeze w).
Definition with_wcq (w : world) (c : mlx5_cq) : world :=
  World (w_mem w) c (w_rscs w) (w_sigs w) (qp_table w) (srq_table w) (uidx_table w) (mkey_table w) (w_now w) (w_fill w) (w_freeze w).
Definition with_rscs (w : world) (r : gmap Z resource) : world :=
  World (w_mem w) (w_cq w) r (w_sigs w) (qp_table w) (srq_table w) (uidx_table w) (mkey_table w) (w_now w) (w_fill w) (w_freeze w).
Definition with_sigs (w : world) (s : gmap Z mlx5_sig_ctx) : world :=
  World (w_mem w) (w_cq w) (w_rscs w) s (qp_table w) (srq_table w) (uidx_table w) (mkey_table w) (w_now w) (w_fill w) (w_freeze w).

Definition with_cons (c : mlx5_cq) (n : Z) : mlx5_cq :=
  Cq (cq_buf c) (cqe_mask c) (cqe_sz c) n (dbrec c) (cqn c) (arm_sn c) (active_cqes c) (resize_buf c) (resize_cqes c)
    (resize_cqe_sz c) (lazy_st c) (stall_st c).
Definition with_lazy (c : mlx5_cq) (l : cq_lazy) : mlx5_cq :=
  Cq (cq_buf c) (cqe_mask c) (cqe_sz c) (cons_index c) (dbrec c) (cqn c) (arm_sn c) (active_cqes c) (resize_buf c) (resize_cqes c)
    (resize_cqe_sz c) l (stall_st c).
Definition with_stall (c : mlx5_cq) (s : cq_stall) : mlx5_cq :=
  Cq (cq_buf c) (cqe_mask c) (cqe_sz c) (cons_index c) (dbrec c) (cqn c) (arm_sn c) (active_cqes c) (resize_buf c) (resize_cqes c)
    (resize_cqe_sz c) (lazy_st c) s.

Definition set_flags (l : cq_lazy) (f : Z) : cq_lazy := Lazy f (cq_cqe64 l) (cached_opcode l) (ex_wr_id l) (ex_status l) (cur_rsc l) (cur_srq l).
Definition set_cqe64 (l : cq_lazy) (a : Z) : cq_lazy := Lazy (cq_flags l) a (cached_opcode l) (ex_wr_id l) (ex_status l) (cur_rsc l) (cur_srq l).
Definition set_cached (l : cq_lazy) (o : Z) : cq_lazy := Lazy (cq_flags l) (cq_cqe64 l) o (ex_wr_id l) (ex_status l) (cur_rsc l) (cur_srq l).
Definition set_ex_id (l : cq_lazy) (i : Z) : cq_lazy := Lazy (cq_flags l) (cq_cqe64 l) (cached_opcode l) i (ex_status l) (cur_rsc l) (cur_srq l).
Definition set_ex_status (l : cq_lazy) (s : Z) : cq_lazy := Lazy (cq_flags l) (cq_cqe64 l) (cached_opcode l) (ex_wr_id l) s (cur_rsc l) (cur_srq l).
Definition set_curs (l : cq_lazy) (r s : Z) : cq_lazy := Lazy (cq_flags l) (cq_cqe64 l) (cached_opcode l) (ex_wr_id l) (ex_status l) r s.

Record ibv_wc := Wc {
  wc_id : Z; wc_status : Z; wc_opcode : Z; wc_vendor_err : Z; wc_byte_len : Z; wc_imm : Z; wc_qp_num : Z; wc_src_qp : Z;
  wc_flags : Z; wc_pkey_index : Z; wc_slid : Z; wc_sl : Z; wc_dlid : Z }.

Definition wc_set_id (c : ibv_wc) (x : Z) : ibv_wc :=
  Wc x (wc_status c) (wc_opcode c) (wc_vendor_err c) (wc_byte_len c) (wc_imm c) (wc_qp_num c) (wc_src_qp c) (wc_flags c) (wc_pkey_index c) (wc_slid c) (wc_sl c) (wc_dlid c).
Definition wc_set_status (c : ibv_wc) (x : Z) : ibv_wc :=
  Wc (wc_id c) x (wc_opcode c) (wc_vendor_err c) (wc_byte_len c) (wc_imm c) (wc_qp_num c) (wc_src_qp c) (wc_flags c) (wc_pkey_index c) (wc_slid c) (wc_sl c) (wc_dlid c).
Definition wc_set_opcode (c : ibv_wc) (x : Z) : ibv_wc :=
  Wc (wc_id c) (wc_status c) x (wc_vendor_err c) (wc_byte_len c) (wc_imm c) (wc_qp_num c) (wc_src_qp c) (wc_flags c) (wc_pkey_index c) (wc_slid c) (wc_sl c) (wc_dlid c).
Definition wc_set_vendor (c : ibv_wc) (x : Z) : ibv_wc :=
  Wc (wc_id c) (wc_status c) (wc_opcode c) x (wc_byte_len c) (wc_imm c) (wc_qp_num c) (wc_src_qp c) (wc_flags c) (wc_pkey_index c) (wc_slid c) (wc_sl c) (wc_dlid c).
Definition wc_set_len (c : ibv_wc) (x : Z) : ibv_wc :=
  Wc (wc_id c) (wc_status c) (wc_opcode c) (wc_vendor_err c) x (wc_imm c) (wc_qp_num c) (wc_src_qp c) (wc_flags c) (wc_pkey_index c) (wc_slid c) (wc_sl c) (wc_dlid c).
Definition wc_set_imm (c : ibv_wc) (x : Z) : ibv_wc :=
  Wc (wc_id c) (wc_status c) (wc_opcode c) (wc_vendor_err c) (wc_byte_len c) x (wc_qp_num c) (wc_src_qp c) (wc_flags c) (wc_pkey_index c) (wc_slid c) (wc_sl c) (wc_dlid c).
Definition wc_set_qp_num (c : ibv_wc) (x : Z) : ibv_wc :=
  Wc (wc_id c) (wc_status c) (wc_opcode c) (wc_vendor_err c) (wc_byte_len c) (wc_imm c) x (wc_src_qp c) (wc_flags c) (wc_pkey_index c) (wc_slid c) (wc_sl c) (wc_dlid c).
Definition wc_set_flags (c : ibv_wc) (x : Z) : ibv_wc :=
  Wc (wc_id c) (wc_status c) (wc_opcode c) (wc_vendor_err c) (wc_byte_len c) (wc_imm c) (wc_qp_num c) (wc_src_qp c) x (wc_pkey_index c) (wc_slid c) (wc_sl c) (wc_dlid c).

(** ** The monad *)

Definition M (A : Type) : Type := world -> option (A * world).
Definition ret {A} (a : A) : M A := fun w => Some (a, w).
Definition bindM {A B} (e : M A) (k : A -> M B) : M B := fun w => match e w with Some (a, w') => k a w' | None => None end.
Definition ub {A} : M A := fun _ => None.
Definition get {A} (f : world -> A) : M A := fun w => Some (f w, w).
Definition upd (f : world -> world) : M unit := fun w => Some (tt, f w).
Definition lift {A} (o : option A) : M A := fun w => match o with Some a => Some (a, w) | None => None end.

Declare Scope cq_scope.
Delimit Scope cq_scope with cq.
Notation "x <~ e ;; k" := (bindM e (fun x => k)) (at level 100, e at next level, right associativity) : cq_scope.
Notation "e ;;; k" := (bindM e (fun _ => k)) (at level 100, right associativity) : cq_scope.
#[local] Open Scope cq_scope.

Definition be (n : nat) (a : Z) : M Z := get (fun w => ld_be n (w_mem w) a).
Definition byte (a : Z) : M Z := get (fun w => ld8 (w_mem w) a).
Definition the_cq : M mlx5_cq := get w_cq.
Definition set_mem (m : mem) : M unit := upd (fun w => with_wmem w m).
Definition mod_lazy (f : cq_lazy -> cq_lazy) : M unit := upd (fun w => with_wcq w (with_lazy (w_cq w) (f (lazy_st (w_cq w))))).

(** The object at an address; a cast to another type is undefined. *)
Definition rsc_at (a : Z) : M resource := r <~ get (fun w => w_rscs w !! a) ;; lift r.
Definition set_rsc (a : Z) (r : resource) : M unit := upd (fun w => with_rscs w (<[a := r]> (w_rscs w))).
Definition qp_at (a : Z) : M (Z * mlx5_qp * Z) := r <~ rsc_at a ;; match r with RQp n q s => ret (n, q, s) | _ => ub end.
Definition srq_at (a : Z) : M (bool * Z * srq_obj) := r <~ rsc_at a ;; match r with RSrq x n o => ret (x, n, o) | _ => ub end.

(** ** Completions in memory *)

Definition CQ_OK : Z := 0.
Definition CQ_EMPTY : Z := -1.
Definition CQ_POLL_ERR : Z := -2.
Definition CQ_POLL_NODATA : Z := 2.

Definition MLX5_CQE_REQ : Z := 0.
Definition MLX5_CQE_RESP_WR_IMM : Z := 1.
Definition MLX5_CQE_RESP_SEND : Z := 2.
Definition MLX5_CQE_RESP_SEND_IMM : Z := 3.
Definition MLX5_CQE_RESP_SEND_INV : Z := 4.
Definition MLX5_CQE_RESIZE_CQ : Z := 5.
Definition MLX5_CQE_NO_PACKET : Z := 6.
Definition MLX5_CQE_SIG_ERR : Z := 12.
Definition MLX5_CQE_REQ_ERR : Z := 13.
Definition MLX5_CQE_RESP_ERR : Z := 14.
Definition MLX5_CQE_INVALID : Z := 15.
Definition MLX5_CQE_OWNER_MASK : Z := 1.
Definition MLX5_INLINE_SCATTER_32 : Z := 4.
Definition MLX5_INLINE_SCATTER_64 : Z := 8.
Definition MLX5_CQE_APP_TAG_MATCHING : Z := 1.
Definition MLX5_CQ_FLAGS_RX_CSUM_VALID : Z := 1.
Definition MLX5_CQ_FLAGS_EMPTY_DURING_POLL : Z := 2.
Definition MLX5_CQ_FLAGS_FOUND_CQES : Z := 4.
Definition MLX5_CQ_FLAGS_SINGLE_THREADED : Z := 16.
Definition MLX5_CQ_FLAGS_DV_OWNED : Z := 32.
Definition MLX5_CQ_FLAGS_TM_SYNC_REQ : Z := 64.
Definition MLX5_CQ_FLAGS_RAW_WQE : Z := 128.
Definition MLX5_CQ_LAZY_FLAGS : Z := Z.lor (Z.lor MLX5_CQ_FLAGS_RX_CSUM_VALID MLX5_CQ_FLAGS_TM_SYNC_REQ) MLX5_CQ_FLAGS_RAW_WQE.

(** Fields of [struct mlx5_cqe64] at address [c] and of the structures laid
    over it. *)
Definition ml_path (c : Z) : M Z := byte (c + 17).
Definition slid (c : Z) : M Z := be 2 (c + 22).
Definition flags_rqpn (c : Z) : M Z := be 4 (c + 24).
Definition hds_ip_ext (c : Z) : M Z := byte (c + 28).
Definition l4_hdr_type_etc (c : Z) : M Z := byte (c + 29).
Definition vlan_info (c : Z) : M Z := be 2 (c + 30).
Definition srqn_uidx (c : Z) : M Z := be 4 (c + 32).
Definition imm_inval_pkey (c : Z) : M Z := get (fun w => ld_le 4 (w_mem w) (c + 36)).
Definition app (c : Z) : M Z := byte (c + 40).
Definition app_op (c : Z) : M Z := byte (c + 41).
Definition app_info (c : Z) : M Z := be 2 (c + 42).
Definition byte_cnt (c : Z) : M Z := be 4 (c + 44).
Definition timestamp (c : Z) : M Z := be 8 (c + 48).
Definition sop_drop_qpn (c : Z) : M Z := be 4 (c + 56).
Definition wqe_counter (c : Z) : M Z := be 2 (c + 60).
Definition op_own (c : Z) : M Z := byte (c + 63).
Definition tm_success (c : Z) : M Z := be 4 c.
Definition hw_phase_cnt (c : Z) : M Z := be 2 (c + 4).
Definition vendor_err_synd (c : Z) : M Z := byte (c + 54).
Definition syndrome (c : Z) : M Z := byte (c + 55).

Definition mlx5dv_get_cqe_opcode (c : Z) : M Z := o <~ op_own c ;; ret (Z.shiftr o 4).
Definition get_cqe_l3_hdr_type (c : Z) : M Z := b <~ l4_hdr_type_etc c ;; ret (Z.land (Z.shiftr b 2) 3).

Definition get_cqe (cq : mlx5_cq) (n : Z) : Z := cq_buf cq + n * cqe_sz cq.
Definition cqe64_of (cq : mlx5_cq) (cqe : Z) : Z := if cqe_sz cq =? 64 then cqe else cqe + 64.

(** 0 for [NULL]. *)
Definition get_sw_cqe (n : Z) : M Z :=
  cq <~ the_cq ;;
  let cqe := get_cqe cq (Z.land n (cqe_mask cq)) in
  let cqe64 := cqe64_of cq cqe in
  opcode <~ mlx5dv_get_cqe_opcode cqe64 ;;
  own <~ op_own cqe64 ;;
  ret (if negb (opcode =? MLX5_CQE_INVALID) &&
          (Z.lxor (Z.land own MLX5_CQE_OWNER_MASK) (b2z (negb (Z.land n (cqe_mask cq + 1) =? 0))) =? 0)
       then cqe else 0).

Definition next_cqe_sw : M Z := cq <~ the_cq ;; get_sw_cqe (cons_index cq).

Definition update_cons_index : M unit :=
  cq <~ the_cq ;;
  m <~ get w_mem ;;
  set_mem (st_be 4 m (dbrec cq) (Z.land (cons_index cq) 0xffffff)).

(** The result with [*pcqe64] and [*pcqe]. *)
Definition mlx5_get_next_cqe : M (Z * Z * Z) :=
  cqe <~ next_cqe_sw ;;
  if cqe =? 0 then ret (CQ_EMPTY, 0, 0) else
  cq <~ the_cq ;;
  upd (fun w => with_wcq w (with_cons cq (u32 (cons_index cq + 1)))) ;;;
  ret (CQ_OK, cqe64_of cq cqe, cqe).

(** ** Requests *)

Definition IBV_WC_SEND : Z := 0.
Definition IBV_WC_RDMA_WRITE : Z := 1.
Definition IBV_WC_RDMA_READ : Z := 2.
Definition IBV_WC_COMP_SWAP : Z := 3.
Definition IBV_WC_FETCH_ADD : Z := 4.
Definition IBV_WC_TSO : Z := 7.
Definition IBV_WC_RECV : Z := 128.
Definition IBV_WC_RECV_RDMA_WITH_IMM : Z := 129.
Definition IBV_WC_TM_ADD : Z := 130.
Definition IBV_WC_TM_DEL : Z := 131.
Definition IBV_WC_TM_SYNC : Z := 132.
Definition IBV_WC_TM_RECV : Z := 133.
Definition IBV_WC_TM_NO_TAG : Z := 134.
Definition IBV_WC_DRIVER2 : Z := 136.
Definition IBV_WC_GRH : Z := 1.
Definition IBV_WC_WITH_IMM : Z := 2.
Definition IBV_WC_IP_CSUM_OK_SHIFT : Z := 2.
Definition IBV_WC_WITH_INV : Z := 8.
Definition IBV_WC_TM_SYNC_REQ : Z := 16.
Definition IBV_WC_TM_MATCH : Z := 32.
Definition IBV_WC_TM_DATA_VALID : Z := 64.
Definition MLX5_OPCODE_SET_PSV : Z := 0x20.
Definition MLX5_OPCODE_MMO : Z := 0x2F.
Definition MLX5_RX_CSUM_VALID : Z := 2 ^ 16.

(** [MLX5_OPCODE_UMR], [SET_PSV], [NOP] and [MMO]: the opcode is in [wr_data]. *)
Definition driver_opcode (op : Z) : bool :=
  (op =? MLX5_OPCODE_UMR) || (op =? MLX5_OPCODE_SET_PSV) || (op =? MLX5_OPCODE_NOP) || (op =? MLX5_OPCODE_MMO).

Definition handle_good_req (wc : ibv_wc) (cqe : Z) (wq : mlx5_wq) (idx : Z) : M ibv_wc :=
  sop <~ sop_drop_qpn cqe ;;
  let op := Z.shiftr sop 24 in
  d <~ lift ((wr_data wq).[idx]) ;;
  cnt <~ byte_cnt cqe ;;
  let wc :=
    if op =? MLX5_OPCODE_RDMA_WRITE_IMM then wc_set_opcode (wc_set_flags wc (Z.lor (wc_flags wc) IBV_WC_WITH_IMM)) IBV_WC_RDMA_WRITE
    else if op =? MLX5_OPCODE_RDMA_WRITE then wc_set_opcode wc IBV_WC_RDMA_WRITE
    else if op =? MLX5_OPCODE_SEND_IMM then wc_set_opcode (wc_set_flags wc (Z.lor (wc_flags wc) IBV_WC_WITH_IMM)) IBV_WC_SEND
    else if (op =? MLX5_OPCODE_SEND) || (op =? MLX5_OPCODE_SEND_INVAL) then wc_set_opcode wc IBV_WC_SEND
    else if op =? MLX5_OPCODE_RDMA_READ then wc_set_len (wc_set_opcode wc IBV_WC_RDMA_READ) cnt
    else if op =? MLX5_OPCODE_ATOMIC_CS then wc_set_len (wc_set_opcode wc IBV_WC_COMP_SWAP) 8
    else if op =? MLX5_OPCODE_ATOMIC_FA then wc_set_len (wc_set_opcode wc IBV_WC_FETCH_ADD) 8
    else if driver_opcode op then wc_set_opcode wc d
    else if op =? MLX5_OPCODE_TSO then wc_set_opcode wc IBV_WC_TSO
    else wc in
  ret (if d =? IBV_WC_DRIVER2 then wc_set_opcode wc IBV_WC_DRIVER2 else wc).

(** ** Receives *)

Definition with_tail (q : mlx5_wq) (t : Z) : mlx5_wq :=
  Wq (wrid q) (wqe_head q) (wqe_cnt q) (max_post q) (head q) t (cur_post q)
    (max_gs q) (qp_state_max_gs q) (wqe_shift q) (wq_offset q) (qend q) (wr_data q).
Definition with_rwq (r : mlx5_rwq) (q : mlx5_wq) : mlx5_rwq := Rwq (pbuff r) q (recv_db r) (rwq_sig r) (wq_num r).

Definition with_srq (o : srq_obj) (s : mlx5_srq) : srq_obj := SrqObj (so_srqn o) s (so_tm o).
Definition with_tm (o : srq_obj) (t : tm_state) : srq_obj := SrqObj (so_srqn o) (so_srq o) t.

(** The id of a receive of a shared receive queue; its WQE is freed. *)
Definition take_srq_wqe (srq wqe_ctr : Z) : M Z :=
  r <~ srq_at srq ;;
  let '(x, n, o) := r in
  id <~ lift ((srq_wrid (so_srq o)).[wqe_ctr]) ;;
  s <~ lift (mlx5_free_srq_wqe (so_srq o) wqe_ctr) ;;
  set_rsc srq (RSrq x n (with_srq o s)) ;;;
  ret id.

(** Data of [len] bytes in the completion: at [cqe], or in the 64 bytes before. *)
Definition scatter_srq (srq wqe_ctr cqe len : Z) : M Z :=
  own <~ op_own cqe ;;
  r <~ srq_at srq ;;
  let '(_, _, o) := r in
  m <~ get w_mem ;;
  if has own MLX5_INLINE_SCATTER_32 then
    let '(err, m) := mlx5_copy_to_recv_srq (so_srq o) m wqe_ctr cqe len in set_mem m ;;; ret err
  else if has own MLX5_INLINE_SCATTER_64 then
    let '(err, m) := mlx5_copy_to_recv_srq (so_srq o) m wqe_ctr (cqe - 64) len in set_mem m ;;; ret err
  else ret IBV_WC_SUCCESS.

(** The id of a receive of a queue pair or work queue, and its index. *)
Definition take_rq_wqe (rsc wqe_ctr : Z) : M (Z * Z) :=
  r <~ rsc_at rsc ;;
  match r with
  | RQp n qp s =>
    let idx := Z.land wqe_ctr (u32 (wqe_cnt (rq qp) - 1)) in
    id <~ lift ((wrid (rq qp)).[idx]) ;;
    set_rsc rsc (RQp n (with_rq qp (with_tail (rq qp) (u32 (tail (rq qp) + 1)))) s) ;;;
    ret (id, idx)
  | RRwq n q =>
    let idx := Z.land wqe_ctr (u32 (wqe_cnt (rwq_rq q) - 1)) in
    id <~ lift ((wrid (rwq_rq q)).[idx]) ;;
    set_rsc rsc (RRwq n (with_rwq q (with_tail (rwq_rq q) (u32 (tail (rwq_rq q) + 1))))) ;;;
    ret (id, idx)
  | RSrq _ _ _ => ub
  end.

(** [rsc] is taken to be a queue pair. *)
Definition scatter_rq (rsc idx cqe len : Z) : M Z :=
  own <~ op_own cqe ;;
  m <~ get w_mem ;;
  fill <~ get w_fill ;;
  if has own MLX5_INLINE_SCATTER_32 then
    r <~ qp_at rsc ;; let '(_, qp, _) := r in
    let '(err, m) := mlx5_copy_to_recv_wqe fill qp m idx cqe len in set_mem m ;;; ret err
  else if has own MLX5_INLINE_SCATTER_64 then
    r <~ qp_at rsc ;; let '(_, qp, _) := r in
    let '(err, m) := mlx5_copy_to_recv_wqe fill qp m idx (cqe - 64) len in set_mem m ;;; ret err
  else ret IBV_WC_SUCCESS.

Definition get_csum_ok (cqe : Z) : M Z :=
  h <~ hds_ip_ext cqe ;;
  t <~ get_cqe_l3_hdr_type cqe ;;
  ret (Z.shiftl (b2z ((Z.land h 6 =? 6) && (t =? 2))) IBV_WC_IP_CSUM_OK_SHIFT).

(** Whether a resource is a queue pair with checksums. *)
Definition qp_csum (rsc : Z) : M bool :=
  r <~ rsc_at rsc ;;
  ret match r with RQp _ qp _ => has (qp_cap_cache qp) MLX5_RX_CSUM_VALID | _ => false end.

(** [srq] is 0 for a receive of [cur_rsc]; the value is the status. *)
Definition handle_responder_lazy (cqe rsc srq : Z) : M Z :=
  wqe_ctr <~ wqe_counter cqe ;;
  len <~ byte_cnt cqe ;;
  if negb (srq =? 0) then
    id <~ take_srq_wqe srq wqe_ctr ;;
    mod_lazy (fun l => set_ex_id l id) ;;;
    scatter_srq srq wqe_ctr cqe len
  else
    csum <~ qp_csum rsc ;;
    mod_lazy (fun l => if csum then set_flags l (Z.lor (cq_flags l) MLX5_CQ_FLAGS_RX_CSUM_VALID) else l) ;;;
    r <~ take_rq_wqe rsc wqe_ctr ;;
    let '(id, idx) := r in
    mod_lazy (fun l => set_ex_id l id) ;;;
    scatter_rq rsc idx cqe len.

(** The switch on the opcode of a completed receive. *)
Definition resp_opcode (wc : ibv_wc) (op imm : Z) : ibv_wc :=
  if op =? MLX5_CQE_RESP_WR_IMM then
    wc_set_imm (wc_set_flags (wc_set_opcode wc IBV_WC_RECV_RDMA_WITH_IMM) (Z.lor (wc_flags wc) IBV_WC_WITH_IMM)) imm
  else if op =? MLX5_CQE_RESP_SEND then wc_set_opcode wc IBV_WC_RECV
  else if op =? MLX5_CQE_RESP_SEND_IMM then
    wc_set_imm (wc_set_flags (wc_set_opcode wc IBV_WC_RECV) (Z.lor (wc_flags wc) IBV_WC_WITH_IMM)) imm
  else if op =? MLX5_CQE_RESP_SEND_INV then
    wc_set_imm (wc_set_flags (wc_set_opcode wc IBV_WC_RECV) (Z.lor (wc_flags wc) IBV_WC_WITH_INV)) (bswap32 imm)
  else wc.

(** The status and the completion. *)
Definition handle_responder (wc : ibv_wc) (cqe rsc srq : Z) : M (Z * ibv_wc) :=
  len <~ byte_cnt cqe ;;
  let wc := wc_set_len wc len in
  wqe_ctr <~ wqe_counter cqe ;;
  r <~ (if negb (srq =? 0) then
          id <~ take_srq_wqe srq wqe_ctr ;;
          err <~ scatter_srq srq wqe_ctr cqe len ;;
          ret (err, wc_set_id wc id)
        else
          csum <~ qp_csum rsc ;;
          f <~ get_csum_ok cqe ;;
          let wc := if csum then wc_set_flags wc (Z.lor (wc_flags wc) f) else wc in
          r <~ take_rq_wqe rsc wqe_ctr ;;
          let '(id, idx) := r in
          err <~ scatter_rq rsc idx cqe len ;;
          ret (err, wc_set_id wc id)) ;;
  let '(err, wc) := r in
  if negb (err =? 0) then ret (err, wc) else
  own <~ op_own cqe ;;
  imm <~ imm_inval_pkey cqe ;;
  let wc := resp_opcode wc (Z.shiftr own 4) imm in
  sl <~ slid cqe ;;
  fr <~ flags_rqpn cqe ;;
  ml <~ ml_path cqe ;;
  let g := Z.land (Z.shiftr fr 28) 3 in
  ret (IBV_WC_SUCCESS,
       Wc (wc_id wc) (wc_status wc) (wc_opcode wc) (wc_vendor_err wc) (wc_byte_len wc) (wc_imm wc) (wc_qp_num wc)
         (Z.land fr 0xffffff) (Z.lor (wc_flags wc) (if negb (g =? 0) then IBV_WC_GRH else 0)) (Z.land (bswap32 imm) 0xffff)
         sl (Z.land (Z.shiftr fr 24) 0xf) (Z.land ml 0x7f)).

(** ** Errors *)

Definition IBV_WC_LOC_QP_OP_ERR : Z := 2.
Definition IBV_WC_LOC_PROT_ERR : Z := 4.
Definition IBV_WC_WR_FLUSH_ERR : Z := 5.
Definition IBV_WC_MW_BIND_ERR : Z := 6.
Definition IBV_WC_BAD_RESP_ERR : Z := 7.
Definition IBV_WC_LOC_ACCESS_ERR : Z := 8.
Definition IBV_WC_REM_ACCESS_ERR : Z := 10.
Definition IBV_WC_REM_OP_ERR : Z := 11.
Definition IBV_WC_RETRY_EXC_ERR : Z := 12.
Definition IBV_WC_RNR_RETRY_EXC_ERR : Z := 13.
Definition IBV_WC_REM_ABORT_ERR : Z := 16.
Definition IBV_WC_TM_ERR : Z := 22.
Definition IBV_WC_TM_RNDV_INCOMPLETE : Z := 23.

Definition MLX5_CQE_SYNDROME_WR_FLUSH_ERR : Z := 0x05.
Definition MLX5_CQE_SYNDROME_TRANSPORT_RETRY_EXC_ERR : Z := 0x15.

Definition mlx5_handle_error_cqe (synd : Z) : Z :=
  if synd =? 0x01 then IBV_WC_LOC_LEN_ERR
  else if synd =? 0x02 then IBV_WC_LOC_QP_OP_ERR
  else if synd =? 0x04 then IBV_WC_LOC_PROT_ERR
  else if synd =? 0x05 then IBV_WC_WR_FLUSH_ERR
  else if synd =? 0x06 then IBV_WC_MW_BIND_ERR
  else if synd =? 0x10 then IBV_WC_BAD_RESP_ERR
  else if synd =? 0x11 then IBV_WC_LOC_ACCESS_ERR
  else if synd =? 0x12 then IBV_WC_REM_INV_REQ_ERR
  else if synd =? 0x13 then IBV_WC_REM_ACCESS_ERR
  else if synd =? 0x14 then IBV_WC_REM_OP_ERR
  else if synd =? 0x15 then IBV_WC_RETRY_EXC_ERR
  else if synd =? 0x16 then IBV_WC_RNR_RETRY_EXC_ERR
  else if synd =? 0x22 then IBV_WC_REM_ABORT_ERR
  else IBV_WC_GENERAL_ERR.

Definition is_odp_pfault_err (ecqe : Z) : M bool :=
  s <~ syndrome ecqe ;;
  v <~ vendor_err_synd ecqe ;;
  ret ((s =? 0x22) && (v =? 0x93)).

Definition get_sig_err_info (cqe : Z) : M mlx5_sig_err :=
  et <~ be 4 (cqe + 16) ;; atr <~ be 4 (cqe + 20) ;; er <~ be 4 (cqe + 24) ;; ar <~ be 4 (cqe + 28) ;;
  sy <~ be 2 (cqe + 32) ;; ty <~ byte (cqe + 34) ;; dm <~ byte (cqe + 35) ;; off <~ be 8 (cqe + 40) ;;
  ret (SigErr sy (Z.lor (Z.shiftl et 32) er) (Z.lor (Z.shiftl atr 32) ar) off (Z.land ty 7) (Z.land dm 7)).

(** ** The object a completion is about *)

(** Whether the cached resource (0 for none) is not the one with this number. *)
Definition stale_rsc (cur rsn : Z) : M bool :=
  if cur =? 0 then ret true else r <~ rsc_at cur ;; ret (negb (rsn =? rsn_of r)).

(** The new value of [*cur_rsc]. *)
Definition get_req_context (cur rsn : Z) (cqe_ver : bool) : M Z :=
  stale <~ stale_rsc cur rsn ;;
  if (stale : bool) then
    if cqe_ver then t <~ get uidx_table ;; lift (mlx5_find_uidx t rsn) else t <~ get qp_table ;; lift (mlx5_find_qp t rsn)
  else ret cur.

(** The error with [*cur_rsc], [*cur_srq] and [*is_srq]. *)
Definition get_resp_ctx_v1 (cur srq uidx : Z) : M (Z * Z * Z * bool) :=
  stale <~ stale_rsc cur uidx ;;
  cur <~ (if (stale : bool) then t <~ get uidx_table ;; lift (mlx5_find_uidx t uidx) else ret cur) ;;
  if cur =? 0 then ret (CQ_POLL_ERR, cur, srq, false) else
  r <~ rsc_at cur ;;
  match r with
  | RQp _ _ s => if negb (s =? 0) then ret (CQ_OK, cur, s, true) else ret (CQ_OK, cur, srq, false)
  | RSrq true _ _ => ret (CQ_OK, cur, cur, true)
  | RRwq _ _ => ret (CQ_OK, cur, srq, false)
  | RSrq false _ _ => ret (CQ_POLL_ERR, cur, srq, false)
  end.

Definition get_qp_ctx (cur qpn : Z) : M (Z * Z) :=
  stale <~ stale_rsc cur qpn ;;
  if (stale : bool) then
    t <~ get qp_table ;;
    cur <~ lift (mlx5_find_qp t qpn) ;;
    ret (if cur =? 0 then CQ_POLL_ERR else CQ_OK, cur)
  else ret (CQ_OK, cur).

Definition get_srq_ctx (srq srqn : Z) : M (Z * Z) :=
  stale <~ (if srq =? 0 then ret true else r <~ srq_at srq ;; let '(_, _, o) := r in ret (negb (srqn =? so_srqn o))) ;;
  if (stale : bool) then
    t <~ get srq_table ;;
    srq <~ lift (mlx5_find_srq t srqn) ;;
    ret (if srq =? 0 then CQ_POLL_ERR else CQ_OK, srq)
  else ret (CQ_OK, srq).

Definition get_cur_rsc (cqe_ver : bool) (qpn srqn_uidx cur srq : Z) : M (Z * Z * Z * bool) :=
  if cqe_ver then get_resp_ctx_v1 cur srq srqn_uidx
  else if negb (srqn_uidx =? 0) then
    r <~ get_srq_ctx srq srqn_uidx ;; let '(err, srq) := r in ret (err, cur, srq, true)
  else
    r <~ get_qp_ctx cur qpn ;; let '(err, cur) := r in ret (err, cur, srq, false).

(** ** Tag matching *)

Definition TM_CONSUMED : Z := 1.
Definition TM_EXPECTED : Z := 2.
Definition TM_UNEXPECTED : Z := 3.
Definition TM_NO_TAG : Z := 4.
Definition TM_APPEND : Z := 5.
Definition TM_REMOVE : Z := 6.
Definition TM_NOOP : Z := 7.
Definition TM_CONSUMED_SW_RDNV : Z := 9.
Definition TM_CONSUMED_MSG : Z := 0xA.
Definition TM_CONSUMED_MSG_SW_RDNV : Z := 0xB.
Definition TM_MSG_COMPLETION_CANCELED : Z := 0xC.
Definition MLX5_TM_MAX_SYNC_DIFF : Z := 0x3fff.

Definition mlx5_cqe_app_op_tm_is_complete (op : Z) : bool := negb (op =? TM_CONSUMED) && negb (op =? TM_CONSUMED_SW_RDNV).

Definition tm_sync_req : M unit := mod_lazy (fun l => set_flags l (Z.lor (cq_flags l) MLX5_CQ_FLAGS_TM_SYNC_REQ)).

(** A tag matched by a message. *)
Definition tm_consumed (cqe64 srq op : Z) : M Z :=
  r <~ srq_at srq ;;
  let '(x, n, o) := r in
  tag <~ app_info cqe64 ;;
  e <~ lift ((tm_list (so_tm o)).[tag]) ;;
  if tg_expect e =? 0 then mod_lazy (fun l => set_ex_status l IBV_WC_GENERAL_ERR) ;;; ret CQ_OK else
  mod_lazy (fun l => set_ex_id l (tg_id e)) ;;;
  (if mlx5_cqe_app_op_tm_is_complete op
   then t <~ lift (mlx5_tm_release_tag (so_tm o) tag) ;; set_rsc srq (RSrq x n (with_tm o t)) else ret tt) ;;;
  own <~ op_own cqe64 ;;
  cnt <~ byte_cnt cqe64 ;;
  (if has own MLX5_INLINE_SCATTER_64 then
     if tg_size e <? cnt then mod_lazy (fun l => set_ex_status l IBV_WC_LOC_LEN_ERR)
     else m <~ get w_mem ;; set_mem (memcpy m (tg_ptr e) (cqe64 - 64) cnt)
   else ret tt) ;;;
  ret CQ_OK.

(** An operation of [mlx5_post_srq_ops] done; its queue pair advances. *)
Definition tm_op_done (cqe64 srq op : Z) : M Z :=
  r <~ srq_at srq ;;
  let '(x, n, o) := r in
  let t := so_tm o in
  q <~ qp_at (cmd_qp t) ;;
  let '(qn, qp, qs) := q in
  e <~ lift ((tm_op t).[Z.land (u32 (op_head t)) (u32 (wqe_cnt (sq qp) - 1))]) ;;
  let t := with_ops t (tm_op t) (i32 (op_head t + 1)) (op_tail t) in
  cq <~ the_cq ;;
  t <~ (if negb (op_tag e =? -1) then
          t <~ lift (mlx5_tm_release_tag t (op_tag e)) ;;
          t <~ (if (op =? TM_REMOVE) && (ex_status (lazy_st cq) =? IBV_WC_SUCCESS)
                then lift (mlx5_tm_release_tag t (op_tag e)) else ret t) ;;
          ph <~ hw_phase_cnt cqe64 ;;
          tag <~ lift ((tm_list t).[op_tag e]) ;;
          (if negb (ph =? tg_phase tag) then tm_sync_req else ret tt) ;;;
          ret t
        else ret t) ;;
  set_rsc srq (RSrq x n (with_tm o t)) ;;;
  set_rsc (cmd_qp t) (RQp qn (with_sq qp (with_tail (sq qp) (u32 (op_wqe_head e + 1)))) qs) ;;;
  mod_lazy (fun l => set_ex_id l (op_id e)) ;;;
  ret CQ_OK.

Definition handle_tag_matching (cqe64 srq : Z) : M Z :=
  mod_lazy (fun l => set_ex_status l IBV_WC_SUCCESS) ;;;
  op <~ app_op cqe64 ;;
  if (op =? TM_CONSUMED_MSG_SW_RDNV) || (op =? TM_CONSUMED_SW_RDNV) || (op =? TM_MSG_COMPLETION_CANCELED) then
    mod_lazy (fun l => set_ex_status l IBV_WC_TM_RNDV_INCOMPLETE) ;;; tm_consumed cqe64 srq op
  else if (op =? TM_CONSUMED_MSG) || (op =? TM_CONSUMED) || (op =? TM_EXPECTED) then tm_consumed cqe64 srq op
  else if op =? TM_REMOVE then
    s <~ tm_success cqe64 ;;
    (if negb (has s 0x80000000) then mod_lazy (fun l => set_ex_status l IBV_WC_TM_ERR) else ret tt) ;;;
    tm_op_done cqe64 srq op
  else if (op =? TM_APPEND) || (op =? TM_NOOP) then tm_op_done cqe64 srq op
  else if (op =? TM_UNEXPECTED) || (op =? TM_NO_TAG) then
    (if op =? TM_UNEXPECTED then
       r <~ srq_at srq ;;
       let '(x, n, o) := r in
       let t := with_unexp (so_tm o) (i32 (unexp_in (so_tm o) + 1)) (unexp_out (so_tm o)) in
       set_rsc srq (RSrq x n (with_tm o t)) ;;;
       (if MLX5_TM_MAX_SYNC_DIFF <? unexp_in t - unexp_out t then tm_sync_req else ret tt)
     else ret tt) ;;;
    wqe_ctr <~ wqe_counter cqe64 ;;
    len <~ byte_cnt cqe64 ;;
    id <~ take_srq_wqe srq wqe_ctr ;;
    mod_lazy (fun l => set_ex_id l id) ;;;
    scatter_srq srq wqe_ctr cqe64 len
  else ret CQ_OK.

(** ** Parsing a completion *)

(** The result with [*cur_rsc], [*cur_srq] and [*wc]. *)
Record parsed := Parsed { pr_rc : Z; pr_rsc : Z; pr_srq : Z; pr_wc : ibv_wc }.

(** The data of a completed read or atomic, for the gather list of its WQE:
    at [cqe] or one byte before it. *)
Definition scatter_sq (qp : mlx5_qp) (cqe64 cqe wqe_ctr len : Z) : M Z :=
  own <~ op_own cqe64 ;;
  m <~ get w_mem ;;
  fill <~ get w_fill ;;
  if has own MLX5_INLINE_SCATTER_32 then
    let '(err, m) := mlx5_copy_to_send_wqe fill qp m wqe_ctr cqe len in set_mem m ;;; ret err
  else if has own MLX5_INLINE_SCATTER_64 then
    let '(err, m) := mlx5_copy_to_send_wqe fill qp m wqe_ctr (cqe - 1) len in set_mem m ;;; ret err
  else ret 0.

(** The send queue advances past the WQE with index [idx]. *)
Definition retire_sq (rsc idx : Z) : M unit :=
  r <~ qp_at rsc ;;
  let '(n, qp, s) := r in
  h <~ lift ((wqe_head (sq qp)).[idx]) ;;
  set_rsc rsc (RQp n (with_sq qp (with_tail (sq qp) (u32 (h + 1)))) s).

(** [MLX5_CQE_REQ]; [lazy] selects the second interface. *)
Definition parse_req (cqe64 cqe rsc srq : Z) (wc : ibv_wc) (cqe_ver lazy : bool) (qpn wqe_ctr : Z) : M parsed :=
  su <~ srqn_uidx cqe64 ;;
  rsc <~ get_req_context rsc (if cqe_ver then Z.land su 0xffffff else qpn) cqe_ver ;;
  if rsc =? 0 then ret (Parsed CQ_POLL_ERR rsc srq wc) else
  r <~ qp_at rsc ;;
  let '(_, qp, _) := r in
  let idx := Z.land wqe_ctr (u32 (wqe_cnt (sq qp) - 1)) in
  wc <~ (if (lazy : bool) then
           sop <~ sop_drop_qpn cqe64 ;;
           cnt <~ byte_cnt cqe64 ;;
           let op := Z.shiftr sop 24 in
           err <~ (if driver_opcode op then
                     d <~ lift ((wr_data (sq qp)).[idx]) ;; mod_lazy (fun l => set_cached l d) ;;; ret 0
                   else if op =? MLX5_OPCODE_RDMA_READ then scatter_sq qp cqe64 cqe wqe_ctr cnt
                   else if (op =? MLX5_OPCODE_ATOMIC_CS) || (op =? MLX5_OPCODE_ATOMIC_FA) then scatter_sq qp cqe64 cqe wqe_ctr 8
                   else ret 0) ;;
           id <~ lift ((wrid (sq qp)).[idx]) ;;
           mod_lazy (fun l => set_ex_status (set_ex_id l id) err) ;;;
           d <~ lift ((wr_data (sq qp)).[idx]) ;;
           (if d =? IBV_WC_DRIVER2 then mod_lazy (fun l => set_flags l (Z.lor (cq_flags l) MLX5_CQ_FLAGS_RAW_WQE)) else ret tt) ;;;
           ret wc
         else
           wc <~ handle_good_req wc cqe64 (sq qp) idx ;;
           err <~ scatter_sq qp cqe64 cqe wqe_ctr (wc_byte_len wc) ;;
           id <~ lift ((wrid (sq qp)).[idx]) ;;
           ret (wc_set_status (wc_set_id wc id) err)) ;;
  retire_sq rsc idx ;;;
  ret (Parsed CQ_OK rsc srq wc).

(** [MLX5_CQE_RESP_*]. *)
Definition parse_resp (cqe64 rsc srq : Z) (wc : ibv_wc) (cqe_ver lazy : bool) (qpn : Z) : M parsed :=
  su <~ srqn_uidx cqe64 ;;
  r <~ get_cur_rsc cqe_ver qpn (Z.land su 0xffffff) rsc srq ;;
  let '(err, rsc, srq, is_srq) := r in
  if negb (err =? 0) then ret (Parsed CQ_POLL_ERR rsc srq wc) else
  let the_srq := if (is_srq : bool) then srq else 0 in
  if (lazy : bool) then
    a <~ app cqe64 ;;
    if negb (a =? MLX5_CQE_APP_TAG_MATCHING) then
      st <~ handle_responder_lazy cqe64 rsc the_srq ;;
      mod_lazy (fun l => set_ex_status l st) ;;;
      ret (Parsed CQ_OK rsc srq wc)
    else if negb is_srq then ret (Parsed CQ_POLL_ERR rsc srq wc) else
      err <~ handle_tag_matching cqe64 srq ;;
      ret (Parsed (if negb (err =? 0) then CQ_POLL_ERR else CQ_OK) rsc srq wc)
  else
    r <~ handle_responder wc cqe64 rsc the_srq ;;
    let '(st, wc) := r in
    ret (Parsed CQ_OK rsc srq (wc_set_status wc st)).

(** [MLX5_CQE_NO_PACKET]. *)
Definition parse_no_packet (cqe64 rsc srq : Z) (wc : ibv_wc) (cqe_ver : bool) (qpn : Z) : M parsed :=
  a <~ app cqe64 ;;
  if negb (a =? MLX5_CQE_APP_TAG_MATCHING) then ret (Parsed CQ_POLL_ERR rsc srq wc) else
  su <~ srqn_uidx cqe64 ;;
  r <~ get_cur_rsc cqe_ver qpn (Z.land su 0xffffff) rsc srq ;;
  let '(err, rsc, srq, is_srq) := r in
  if negb (err =? 0) || negb is_srq then ret (Parsed CQ_POLL_ERR rsc srq wc) else
  err <~ handle_tag_matching cqe64 srq ;;
  ret (Parsed (if negb (err =? 0) then CQ_POLL_ERR else CQ_OK) rsc srq wc).

(** What a completion leads to: a result, or the next completion ([again]). *)
Inductive outcome := Done (p : parsed) | Again (cqe64 cqe rsc srq : Z) (wc : ibv_wc).

Definition next_or_nodata (rsc srq : Z) (wc : ibv_wc) : M outcome :=
  r <~ mlx5_get_next_cqe ;;
  let '(err, cqe64, cqe) := r in
  ret (if err =? CQ_EMPTY then Done (Parsed CQ_POLL_NODATA rsc srq wc) else Again cqe64 cqe rsc srq wc).

(** [MLX5_CQE_SIG_ERR]: the error is kept in the memory key. *)
Definition parse_sig_err (cqe64 rsc srq : Z) (wc : ibv_wc) : M outcome :=
  k <~ be 4 (cqe64 + 36) ;;
  t <~ get mkey_table ;;
  mkey <~ lift (mlx5_find_mkey t (Z.shiftr k 8)) ;;
  if mkey =? 0 then ret (Done (Parsed CQ_POLL_ERR rsc srq wc)) else
  s <~ get (fun w => w_sigs w !! mkey) ;;
  s <~ lift s ;;
  info <~ get_sig_err_info cqe64 ;;
  upd (fun w => with_sigs w (<[mkey := SigCtx info (u32 (err_count s + 1)) true true]> (w_sigs w))) ;;;
  next_or_nodata rsc srq wc.

(** [wr_id] in either interface. *)
Definition report_id (lazy : bool) (wc : ibv_wc) (id : Z) : M ibv_wc :=
  if lazy then mod_lazy (fun l => set_ex_id l id) ;;; ret wc else ret (wc_set_id wc id).

(** [MLX5_CQE_REQ_ERR] and [MLX5_CQE_RESP_ERR]; messages are not modelled.  With
    [mlx5_freeze_on_error_cqe] set, an error other than a flushed request, an
    exhausted retry or a page fault is never left: the thread sleeps for ever
    (no result). *)
Definition parse_err (cqe64 rsc srq : Z) (wc : ibv_wc) (cqe_ver lazy req : bool) (qpn wqe_ctr : Z) : M outcome :=
  su <~ srqn_uidx cqe64 ;;
  let su := Z.land su 0xffffff in
  sy <~ syndrome cqe64 ;;
  v <~ vendor_err_synd cqe64 ;;
  let st := mlx5_handle_error_cqe sy in
  (if (lazy : bool) then mod_lazy (fun l => set_ex_status l st) else ret tt) ;;;
  let wc := if (lazy : bool) then wc else wc_set_vendor (wc_set_status wc st) v in
  pfault <~ is_odp_pfault_err cqe64 ;;
  freeze <~ get w_freeze ;;
  if negb (sy =? MLX5_CQE_SYNDROME_WR_FLUSH_ERR) && negb (sy =? MLX5_CQE_SYNDROME_TRANSPORT_RETRY_EXC_ERR) &&
     negb pfault && freeze then ub else
  if (req : bool) then
    rsc <~ get_req_context rsc (if cqe_ver then su else qpn) cqe_ver ;;
    if rsc =? 0 then ret (Done (Parsed CQ_POLL_ERR rsc srq wc)) else
    r <~ qp_at rsc ;;
    let '(_, qp, _) := r in
    let idx := Z.land wqe_ctr (u32 (wqe_cnt (sq qp) - 1)) in
    id <~ lift ((wrid (sq qp)).[idx]) ;;
    wc <~ report_id lazy wc id ;;
    retire_sq rsc idx ;;;
    ret (Done (Parsed CQ_OK rsc srq wc))
  else
    r <~ get_cur_rsc cqe_ver qpn su rsc srq ;;
    let '(err, rsc, srq, is_srq) := r in
    if negb (err =? 0) then ret (Done (Parsed CQ_POLL_ERR rsc srq wc)) else
    if (is_srq : bool) then
      pf <~ is_odp_pfault_err cqe64 ;;
      if (pf : bool) then
        r <~ srq_at srq ;;
        let '(x, n, o) := r in
        m <~ get w_mem ;;
        r <~ lift (mlx5_complete_odp_fault (so_srq o) m wqe_ctr) ;;
        let '(s, m) := r in
        set_rsc srq (RSrq x n (with_srq o s)) ;;;
        set_mem m ;;;
        next_or_nodata rsc srq wc
      else
        id <~ take_srq_wqe srq wqe_ctr ;;
        wc <~ report_id lazy wc id ;;
        ret (Done (Parsed CQ_OK rsc srq wc))
    else
      r <~ take_rq_wqe rsc wqe_ctr ;;
      let '(id, _) := r in
      wc <~ report_id lazy wc id ;;
      ret (Done (Parsed CQ_OK rsc srq wc)).

(** One turn from the label [again] on. *)
Definition parse_turn (cqe64 cqe rsc srq : Z) (wc : ibv_wc) (cqe_ver lazy : bool) : M outcome :=
  sop <~ sop_drop_qpn cqe64 ;;
  let qpn := Z.land sop 0xffffff in
  (if (lazy : bool) then mod_lazy (fun l => set_flags (set_cqe64 l cqe64) (Z.land (cq_flags l) (notu 32 MLX5_CQ_LAZY_FLAGS)))
   else ret tt) ;;;
  let wc := if (lazy : bool) then wc else wc_set_qp_num (wc_set_flags wc 0) qpn in
  opcode <~ mlx5dv_get_cqe_opcode cqe64 ;;
  wqe_ctr <~ wqe_counter cqe64 ;;
  if opcode =? MLX5_CQE_REQ then p <~ parse_req cqe64 cqe rsc srq wc cqe_ver lazy qpn wqe_ctr ;; ret (Done p)
  else if (opcode =? MLX5_CQE_RESP_WR_IMM) || (opcode =? MLX5_CQE_RESP_SEND) || (opcode =? MLX5_CQE_RESP_SEND_IMM) ||
          (opcode =? MLX5_CQE_RESP_SEND_INV) then p <~ parse_resp cqe64 rsc srq wc cqe_ver lazy qpn ;; ret (Done p)
  else if opcode =? MLX5_CQE_NO_PACKET then p <~ parse_no_packet cqe64 rsc srq wc cqe_ver qpn ;; ret (Done p)
  else if opcode =? MLX5_CQE_SIG_ERR then parse_sig_err cqe64 rsc srq wc
  else if (opcode =? MLX5_CQE_REQ_ERR) || (opcode =? MLX5_CQE_RESP_ERR) then
    parse_err cqe64 rsc srq wc cqe_ver lazy (opcode =? MLX5_CQE_REQ_ERR) qpn wqe_ctr
  else ret (Done (Parsed CQ_OK rsc srq wc)).

(** The turns from [again] on, at most [fuel] of them.  There is no result when a
    turn has none (undefined behaviour, or a frozen thread); that the turns do
    not run out is [parse_cqe_terminates]. *)
Fixpoint parse_loop (fuel : nat) (cqe64 cqe rsc srq : Z) (wc : ibv_wc) (cqe_ver lazy : bool) : M parsed :=
  match fuel with
  | O => ub
  | S fuel =>
    o <~ parse_turn cqe64 cqe rsc srq wc cqe_ver lazy ;;
    match o with
    | Done p => ret p
    | Again cqe64 cqe rsc srq wc => parse_loop fuel cqe64 cqe rsc srq wc cqe_ver lazy
    end
  end.

(** Each turn but the first takes a completion off the ring: there are at most
    as many as the ring has entries. *)
Definition mlx5_parse_cqe (cqe64 cqe rsc srq : Z) (wc : ibv_wc) (cqe_ver lazy : bool) : M parsed :=
  cq <~ the_cq ;;
  parse_loop (Z.to_nat (cqe_mask cq + 2)) cqe64 cqe rsc srq wc cqe_ver lazy.

(** The lazy interface has no [ibv_wc]. *)
Definition no_wc : ibv_wc := Wc 0 0 0 0 0 0 0 0 0 0 0 0 0.

Definition mlx5_parse_lazy_cqe (cqe64 cqe : Z) (cqe_ver : bool) : M Z :=
  cq <~ the_cq ;;
  p <~ mlx5_parse_cqe cqe64 cqe (cur_rsc (lazy_st cq)) (cur_srq (lazy_st cq)) no_wc cqe_ver true ;;
  mod_lazy (fun l => set_curs l (pr_rsc p) (pr_srq p)) ;;;
  ret (pr_rc p).

(** ** [ibv_poll_cq] *)

Definition mlx5_poll_one (rsc srq : Z) (wc : ibv_wc) (cqe_ver : bool) : M parsed :=
  r <~ mlx5_get_next_cqe ;;
  let '(err, cqe64, cqe) := r in
  if err =? CQ_EMPTY then ret (Parsed err rsc srq wc)
  else mlx5_parse_cqe cqe64 cqe rsc srq wc cqe_ver false.

(** The loop: the last error, the number polled and the array. *)
Fixpoint poll_loop (ne : nat) (npolled : Z) (rsc srq err : Z) (wcs : list ibv_wc) (cqe_ver : bool) : M (Z * Z * list ibv_wc) :=
  match ne with
  | O => ret (err, npolled, wcs)
  | S ne =>
    wc <~ lift (wcs.[npolled]) ;;
    p <~ mlx5_poll_one rsc srq wc cqe_ver ;;
    wcs <~ lift (aset wcs npolled (pr_wc p)) ;;
    if negb (pr_rc p =? CQ_OK) then ret (pr_rc p, npolled, wcs)
    else poll_loop ne (npolled + 1) (pr_rsc p) (pr_srq p) (pr_rc p) wcs cqe_ver
  end.

Definition mlx5_stall_cq_poll_min : Z := 60.
Definition mlx5_stall_cq_poll_max : Z := 100000.
Definition mlx5_stall_cq_inc_step : Z := 100.
Definition mlx5_stall_cq_dec_step : Z := 10.

Definition set_next_poll (s : cq_stall) (x : Z) : cq_stall :=
  Stall (stall_enable s) (stall_adaptive_enable s) x (stall_cycles s) (stall_last_count s).
Definition set_cycles (s : cq_stall) (c l : Z) : cq_stall :=
  Stall (stall_enable s) (stall_adaptive_enable s) (stall_next_poll s) c l.
Definition slower (s : cq_stall) : Z := Z.max (stall_cycles s - mlx5_stall_cq_dec_step) mlx5_stall_cq_poll_min.
Definition faster (s : cq_stall) : Z := Z.min (stall_cycles s + mlx5_stall_cq_inc_step) mlx5_stall_cq_poll_max.
Definition mod_stall (f : cq_stall -> cq_stall) : M unit := upd (fun w => with_wcq w (with_stall (w_cq w) (f (stall_st (w_cq w))))).

(** Waiting itself changes nothing. *)
Definition poll_stall_before : M unit :=
  mod_stall (fun s => if stall_enable s && negb (stall_adaptive_enable s) && negb (stall_next_poll s =? 0) then set_next_poll s 0 else s).

Definition poll_stall_after (npolled ne err : Z) : M unit :=
  now <~ get w_now ;;
  mod_stall (fun s =>
    if negb (stall_enable s) then s
    else if stall_adaptive_enable s then
      if npolled =? 0 then set_cycles s (slower s) now
      else if npolled <? ne then set_cycles s (faster s) now
      else set_cycles s (slower s) 0
    else if err =? CQ_EMPTY then set_next_poll s 1 else s).

Definition poll_cq (ne : Z) (wcs : list ibv_wc) (cqe_ver : bool) : M (Z * list ibv_wc) :=
  poll_stall_before ;;;
  r <~ poll_loop (Z.to_nat ne) 0 0 0 CQ_OK wcs cqe_ver ;;
  let '(err, npolled, wcs) := r in
  update_cons_index ;;;
  poll_stall_after npolled ne err ;;;
  ret (if err =? CQ_POLL_ERR then err else npolled, wcs).

Definition mlx5_poll_cq (ne : Z) (wcs : list ibv_wc) : M (Z * list ibv_wc) := poll_cq ne wcs false.
Definition mlx5_poll_cq_v1 (ne : Z) (wcs : list ibv_wc) : M (Z * list ibv_wc) := poll_cq ne wcs true.

(** ** The lazy interface *)

Inductive polling_mode := POLLING_MODE_NO_STALL | POLLING_MODE_STALL | POLLING_MODE_STALL_ADAPTIVE.

Definition ENOENT : Z := 2.

Definition mlx5_end_poll (stall : polling_mode) : M unit :=
  update_cons_index ;;;
  now <~ get w_now ;;
  cq <~ the_cq ;;
  let found := has (cq_flags (lazy_st cq)) MLX5_CQ_FLAGS_FOUND_CQES in
  let empty := has (cq_flags (lazy_st cq)) MLX5_CQ_FLAGS_EMPTY_DURING_POLL in
  match stall with
  | POLLING_MODE_NO_STALL => ret tt
  | _ =>
    mod_stall (fun s =>
      match stall with
      | POLLING_MODE_STALL_ADAPTIVE =>
        if negb found then set_cycles s (slower s) now
        else if empty then set_cycles s (faster s) now
        else set_cycles s (slower s) 0
      | _ => if negb found then set_next_poll s 1 else s
      end) ;;;
    mod_lazy (fun l => set_flags l (Z.land (cq_flags l)
      (notu 32 (Z.lor MLX5_CQ_FLAGS_FOUND_CQES MLX5_CQ_FLAGS_EMPTY_DURING_POLL))))
  end.

(** [comp_mask] of the attributes; [clock] is the result of
    [mlx5dv_get_clock_info] when the variant calls it. *)
Definition mlx5_start_poll (comp_mask : Z) (stall : polling_mode) (cqe_ver : bool) (clock : option Z) : M Z :=
  if negb (comp_mask =? 0) then ret EINVAL else
  (match stall with
   | POLLING_MODE_STALL => mod_stall (fun s => if negb (stall_next_poll s =? 0) then set_next_poll s 0 else s)
   | _ => ret tt
   end) ;;;
  mod_lazy (fun l => set_curs l 0 0) ;;;
  now <~ get w_now ;;
  r <~ mlx5_get_next_cqe ;;
  let '(err, cqe64, cqe) := r in
  if err =? CQ_EMPTY then
    (match stall with
     | POLLING_MODE_STALL_ADAPTIVE => mod_stall (fun s => set_cycles s (slower s) now)
     | POLLING_MODE_STALL => mod_stall (fun s => set_next_poll s 1)
     | POLLING_MODE_NO_STALL => ret tt
     end) ;;;
    ret ENOENT
  else
    (match stall with
     | POLLING_MODE_NO_STALL => ret tt
     | _ => mod_lazy (fun l => set_flags l (Z.lor (cq_flags l) MLX5_CQ_FLAGS_FOUND_CQES))
     end) ;;;
    err <~ mlx5_parse_lazy_cqe cqe64 cqe cqe_ver ;;
    match stall, err =? CQ_POLL_ERR with
    | (POLLING_MODE_STALL | POLLING_MODE_STALL_ADAPTIVE), true =>
      mod_stall (fun s => match stall with POLLING_MODE_STALL_ADAPTIVE => set_cycles s (slower s) 0 | _ => s end) ;;;
      mod_lazy (fun l => set_flags l (Z.land (cq_flags l) (notu 32 MLX5_CQ_FLAGS_FOUND_CQES))) ;;;
      ret err
    | _, _ =>
      match clock with
      | Some c => ret (if err =? 0 then c else err)
      | None => ret err
      end
    end.

Definition mlx5_next_poll (stall : polling_mode) (cqe_ver : bool) : M Z :=
  r <~ mlx5_get_next_cqe ;;
  let '(err, cqe64, cqe) := r in
  if err =? CQ_EMPTY then
    (match stall with
     | POLLING_MODE_STALL_ADAPTIVE => mod_lazy (fun l => set_flags l (Z.lor (cq_flags l) MLX5_CQ_FLAGS_EMPTY_DURING_POLL))
     | _ => ret tt
     end) ;;;
    ret ENOENT
  else mlx5_parse_lazy_cqe cqe64 cqe cqe_ver.

(** ** Reading a completion *)

Definition lazy_cqe : M Z := cq <~ the_cq ;; ret (cq_cqe64 (lazy_st cq)).

Definition mlx5_cq_read_wc_opcode : M Z :=
  c <~ lazy_cqe ;;
  cq <~ the_cq ;;
  op <~ mlx5dv_get_cqe_opcode c ;;
  a <~ app c ;;
  tm <~ app_op c ;;
  sop <~ sop_drop_qpn c ;;
  let o := Z.shiftr sop 24 in
  ret (if op =? MLX5_CQE_RESP_WR_IMM then IBV_WC_RECV_RDMA_WITH_IMM
       else if (op =? MLX5_CQE_RESP_SEND) || (op =? MLX5_CQE_RESP_SEND_IMM) || (op =? MLX5_CQE_RESP_SEND_INV) then
         if a =? MLX5_CQE_APP_TAG_MATCHING then
           if (tm =? TM_CONSUMED_MSG_SW_RDNV) || (tm =? TM_CONSUMED_MSG) || (tm =? TM_CONSUMED_SW_RDNV) || (tm =? TM_EXPECTED) ||
              (tm =? TM_UNEXPECTED) then IBV_WC_TM_RECV
           else if tm =? TM_NO_TAG then IBV_WC_TM_NO_TAG
           else IBV_WC_RECV
         else IBV_WC_RECV
       else if op =? MLX5_CQE_NO_PACKET then
         if tm =? TM_REMOVE then IBV_WC_TM_DEL
         else if tm =? TM_APPEND then IBV_WC_TM_ADD
         else if tm =? TM_NOOP then IBV_WC_TM_SYNC
         else if tm =? TM_CONSUMED then IBV_WC_TM_RECV
         else 0
       else if op =? MLX5_CQE_REQ then
         if has (cq_flags (lazy_st cq)) MLX5_CQ_FLAGS_RAW_WQE then IBV_WC_DRIVER2
         else if (o =? MLX5_OPCODE_RDMA_WRITE_IMM) || (o =? MLX5_OPCODE_RDMA_WRITE) then IBV_WC_RDMA_WRITE
         else if (o =? MLX5_OPCODE_SEND_IMM) || (o =? MLX5_OPCODE_SEND) || (o =? MLX5_OPCODE_SEND_INVAL) then IBV_WC_SEND
         else if o =? MLX5_OPCODE_RDMA_READ then IBV_WC_RDMA_READ
         else if o =? MLX5_OPCODE_ATOMIC_CS then IBV_WC_COMP_SWAP
         else if o =? MLX5_OPCODE_ATOMIC_FA then IBV_WC_FETCH_ADD
         else if driver_opcode o then cached_opcode (lazy_st cq)
         else if o =? MLX5_OPCODE_TSO then IBV_WC_TSO
         else 0
       else 0).

Definition mlx5_cq_read_wc_qp_num : M Z := c <~ lazy_cqe ;; s <~ sop_drop_qpn c ;; ret (Z.land s 0xffffff).

Definition mlx5_cq_read_wc_flags : M Z :=
  c <~ lazy_cqe ;;
  cq <~ the_cq ;;
  let fl := cq_flags (lazy_st cq) in
  cs <~ get_csum_ok c ;;
  op <~ mlx5dv_get_cqe_opcode c ;;
  a <~ app c ;;
  tm <~ app_op c ;;
  fr <~ flags_rqpn c ;;
  let f := if has fl MLX5_CQ_FLAGS_RX_CSUM_VALID then cs else 0 in
  let f := if (op =? MLX5_CQE_RESP_WR_IMM) || (op =? MLX5_CQE_RESP_SEND_IMM) then Z.lor f IBV_WC_WITH_IMM
           else if op =? MLX5_CQE_RESP_SEND_INV then Z.lor f IBV_WC_WITH_INV else f in
  let f := if has fl MLX5_CQ_FLAGS_TM_SYNC_REQ then Z.lor f IBV_WC_TM_SYNC_REQ else f in
  let f := if a =? MLX5_CQE_APP_TAG_MATCHING then
             if (tm =? TM_CONSUMED_MSG_SW_RDNV) || (tm =? TM_CONSUMED_MSG) || (tm =? TM_MSG_COMPLETION_CANCELED)
             then Z.lor f (Z.lor IBV_WC_TM_MATCH IBV_WC_TM_DATA_VALID)
             else if (tm =? TM_CONSUMED_SW_RDNV) || (tm =? TM_CONSUMED) then Z.lor f IBV_WC_TM_MATCH
             else if tm =? TM_EXPECTED then Z.lor f IBV_WC_TM_DATA_VALID else f
           else f in
  ret (Z.lor f (if negb (Z.land (Z.shiftr fr 28) 3 =? 0) then IBV_WC_GRH else 0)).

Definition mlx5_cq_read_wc_byte_len : M Z := c <~ lazy_cqe ;; byte_cnt c.
Definition mlx5_cq_read_wc_vendor_err : M Z := c <~ lazy_cqe ;; vendor_err_synd c.
Definition mlx5_cq_read_wc_imm_data : M Z :=
  c <~ lazy_cqe ;;
  op <~ mlx5dv_get_cqe_opcode c ;;
  i <~ imm_inval_pkey c ;;
  ret (if op =? MLX5_CQE_RESP_SEND_INV then bswap32 i else i).
Definition mlx5_cq_read_wc_slid : M Z := c <~ lazy_cqe ;; slid c.
Definition mlx5_cq_read_wc_sl : M Z := c <~ lazy_cqe ;; f <~ flags_rqpn c ;; ret (Z.land (Z.shiftr f 24) 0xf).
Definition mlx5_cq_read_wc_src_qp : M Z := c <~ lazy_cqe ;; f <~ flags_rqpn c ;; ret (Z.land f 0xffffff).
Definition mlx5_cq_read_wc_dlid_path_bits : M Z := c <~ lazy_cqe ;; p <~ ml_path c ;; ret (Z.land p 0x7f).
Definition mlx5_cq_read_wc_completion_ts : M Z := c <~ lazy_cqe ;; timestamp c.
Definition mlx5_cq_read_wc_cvlan : M Z := c <~ lazy_cqe ;; vlan_info c.
Definition mlx5_cq_read_flow_tag : M Z := c <~ lazy_cqe ;; s <~ sop_drop_qpn c ;; ret (Z.land s 0x00ffffff).
Definition mlx5_cq_read_wc_tm_info : M (Z * Z) := c <~ lazy_cqe ;; t <~ be 8 (c + 8) ;; p <~ be 4 (c + 4) ;; ret (t, p).

(** ** Arming *)

Definition MLX5_CQ_DB_REQ_NOT_SOL : Z := Z.shiftl 1 24.
Definition MLX5_CQ_DB_REQ_NOT : Z := 0.
Definition MLX5_CQ_DOORBELL : Z := 0x20.

(** The write to the doorbell register at [uar]. *)
Definition mlx5_arm_cq (uar : Z) (solicited : bool) : M mmio_event :=
  cq <~ the_cq ;;
  let sn := Z.land (arm_sn cq) 3 in
  let ci := Z.land (cons_index cq) 0xffffff in
  let cmd := if (solicited : bool) then MLX5_CQ_DB_REQ_NOT_SOL else MLX5_CQ_DB_REQ_NOT in
  let lo := Z.lor (Z.lor (Z.shiftl sn 28) cmd) ci in
  m <~ get w_mem ;;
  set_mem (st_be 4 m (dbrec cq + 4) lo) ;;;
  ret (MmioWrite (uar + MLX5_CQ_DOORBELL) (reverse (le_bytes 8 (Z.lor (Z.shiftl lo 32) (cqn cq))))).

Definition mlx5_cq_event : M unit :=
  upd (fun w => let c := w_cq w in
    with_wcq w (Cq (cq_buf c) (cqe_mask c) (cqe_sz c) (cons_index c) (dbrec c) (cqn c) (i32 (arm_sn c + 1)) (active_cqes c)
      (resize_buf c) (resize_cqes c) (resize_cqe_sz c) (lazy_st c) (stall_st c))).

(** ** Removing the completions of a queue *)

Definition is_equal_rsn (cqe64 rsn : Z) : M bool := s <~ sop_drop_qpn cqe64 ;; ret (rsn =? Z.land s 0xffffff).
Definition is_equal_uidx (cqe64 uidx : Z) : M bool := s <~ srqn_uidx cqe64 ;; ret (uidx =? Z.land s 0xffffff).
Definition is_responder (op : Z) : bool :=
  (op =? MLX5_CQE_RESP_WR_IMM) || (op =? MLX5_CQE_RESP_SEND) || (op =? MLX5_CQE_RESP_SEND_IMM) ||
  (op =? MLX5_CQE_RESP_SEND_INV) || (op =? MLX5_CQE_RESP_ERR).

(** A WQE of shared receive queue [srq] (0 for none) is freed. *)
Definition free_wqe_of (srq cqe64 : Z) : M unit :=
  ctr <~ wqe_counter cqe64 ;;
  r <~ srq_at srq ;;
  let '(x, n, o) := r in
  s <~ lift (mlx5_free_srq_wqe (so_srq o) ctr) ;;
  set_rsc srq (RSrq x n (with_srq o s)).

Definition free_res_cqe (cqe64 rsn srq : Z) (cqe_version : bool) : M bool :=
  if (cqe_version : bool) then
    eq <~ is_equal_uidx cqe64 rsn ;;
    if (eq : bool) then
      op <~ mlx5dv_get_cqe_opcode cqe64 ;;
      (if negb (srq =? 0) && is_responder op then free_wqe_of srq cqe64 else ret tt) ;;; ret true
    else ret false
  else
    eq <~ is_equal_rsn cqe64 rsn ;;
    if (eq : bool) then
      su <~ srqn_uidx cqe64 ;;
      (if negb (srq =? 0) && negb (Z.land su 0xffffff =? 0) then free_wqe_of srq cqe64 else ret tt) ;;; ret true
    else ret false.

(** The search for the producer index. *)
Fixpoint find_prod (fuel : nat) (prod : Z) : M Z :=
  cqe <~ get_sw_cqe prod ;;
  if cqe =? 0 then ret prod else
  cq <~ the_cq ;;
  if prod =? u32 (cons_index cq + cqe_mask cq) then ret prod else
  match fuel with O => ub | S fuel => find_prod fuel (u32 (prod + 1)) end.

(** A completion moves [nfreed] entries up; the owner bit stays. *)
Definition move_cqe (prod nfreed cqe : Z) : M unit :=
  cq <~ the_cq ;;
  let dest := get_cqe cq (Z.land (u32 (prod + nfreed)) (cqe_mask cq)) in
  let dest64 := cqe64_of cq dest in
  own <~ op_own dest64 ;;
  let owner_bit := Z.land own MLX5_CQE_OWNER_MASK in
  m <~ get w_mem ;;
  set_mem (memcpy m dest cqe (cqe_sz cq)) ;;;
  own <~ op_own dest64 ;;
  m <~ get w_mem ;;
  set_mem (st8 m (dest64 + 63) (Z.lor owner_bit (Z.land own (notu 8 MLX5_CQE_OWNER_MASK)))).

(** The sweep from [prod] (exclusive) down to [cons_index]. *)
Fixpoint clean_loop (fuel : nat) (prod nfreed rsn srq : Z) (cqe_version : bool) : M Z :=
  cq <~ the_cq ;;
  let prod := u32 (prod - 1) in
  if i32 (i32 prod - i32 (cons_index cq)) <? 0 then ret nfreed else
  match fuel with
  | O => ub
  | S fuel =>
    let cqe := get_cqe cq (Z.land prod (cqe_mask cq)) in
    let cqe64 := cqe64_of cq cqe in
    mine <~ free_res_cqe cqe64 rsn srq cqe_version ;;
    if (mine : bool) then clean_loop fuel prod (nfreed + 1) rsn srq cqe_version
    else (if negb (nfreed =? 0) then move_cqe prod nfreed cqe else ret tt) ;;;
         clean_loop fuel prod nfreed rsn srq cqe_version
  end.

Definition __mlx5_cq_clean (rsn srq : Z) (cqe_version : bool) : M unit :=
  cq <~ the_cq ;;
  if has (cq_flags (lazy_st cq)) MLX5_CQ_FLAGS_DV_OWNED then ret tt else
  let cur := cur_rsc (lazy_st cq) in
  same <~ (if cur =? 0 then ret false else r <~ rsc_at cur ;; ret (rsn =? rsn_of r)) ;;
  (if (same : bool) then mod_lazy (fun l => set_curs l 0 (cur_srq l)) else ret tt) ;;;
  prod <~ find_prod (Z.to_nat (cqe_mask cq + 1)) (cons_index cq) ;;
  nfreed <~ clean_loop (Z.to_nat (cqe_mask cq + 1)) prod 0 rsn srq cqe_version ;;
  if negb (nfreed =? 0) then
    upd (fun w => with_wcq w (with_cons (w_cq w) (u32 (cons_index (w_cq w) + nfreed)))) ;;;
    update_cons_index
  else ret tt.

Definition mlx5_cq_clean (qpn srq : Z) (cqe_version : bool) : M unit := __mlx5_cq_clean qpn srq cqe_version.

(** ** Resizing *)

Definition sw_ownership_bit (n nent : Z) : Z := if negb (Z.land n nent =? 0) then 1 else 0.
Definition is_hw (own n mask : Z) : bool :=
  negb (Z.lxor (Z.land own MLX5_CQE_OWNER_MASK) (b2z (negb (Z.land n (mask + 1) =? 0))) =? 0).

Definition get_buf_cqe (buf n sz : Z) : Z := buf + n * sz.
Definition cqe64_sz (sz cqe : Z) : Z := if sz =? 64 then cqe else cqe + 64.

(** The loop, with [i] and the address of entry [i]; [true] when it found the
    entry that ends it. *)
Fixpoint resize_loop (fuel : nat) (i scqe start_cqe : Z) : M bool :=
  cq <~ the_cq ;;
  let ssize := cqe_sz cq in
  let dsize := resize_cqe_sz cq in
  own <~ op_own (cqe64_sz ssize scqe) ;;
  if Z.shiftr own 4 =? MLX5_CQE_RESIZE_CQ then ret true else
  match fuel with
  | O => ub
  | S fuel =>
    let dcqe := get_buf_cqe (resize_buf cq) (Z.land (i + 1) (resize_cqes cq - 1)) dsize in
    let dcqe64 := cqe64_sz dsize dcqe in
    let sw_own := sw_ownership_bit (i + 1) (resize_cqes cq) in
    m <~ get w_mem ;;
    set_mem (memcpy m dcqe scqe ssize) ;;;
    own <~ op_own dcqe64 ;;
    m <~ get w_mem ;;
    set_mem (st8 m (dcqe64 + 63) (Z.lor (Z.land own (notu 8 MLX5_CQE_OWNER_MASK)) sw_own)) ;;;
    let i := i32 (i + 1) in
    let scqe := get_buf_cqe (cq_buf cq) (Z.land i (active_cqes cq)) ssize in
    own <~ op_own (cqe64_sz ssize scqe) ;;
    if is_hw own i (active_cqes cq) then ret false
    else if scqe =? start_cqe then ret false
    else resize_loop fuel i scqe start_cqe
  end.

Definition mlx5_cq_resize_copy_cqes : M unit :=
  cq <~ the_cq ;;
  let i := i32 (cons_index cq) in
  let scqe := get_buf_cqe (cq_buf cq) (Z.land i (active_cqes cq)) (cqe_sz cq) in
  own <~ op_own (cqe64_sz (cqe_sz cq) scqe) ;;
  if is_hw own i (active_cqes cq) then ret tt else
  ok <~ resize_loop (Z.to_nat (active_cqes cq + 1)) i scqe scqe ;;
  if (ok : bool) then upd (fun w => with_wcq w (with_cons (w_cq w) (u32 (cons_index (w_cq w) + 1)))) else ret tt.

(** The end of [mlx5_alloc_cq_buf]: every entry of the new buffer is invalid;
    [custom] is the type of the buffer. *)
Definition init_one (buf cqe_sz i : Z) (m : mem) : mem :=
  st8 m (buf + i * cqe_sz + (if cqe_sz =? 128 then 64 else 0) + 63) (Z.shiftl MLX5_CQE_INVALID 4).

Definition mlx5_alloc_cq_buf (alloc_ok custom : bool) (m : mem) (buf nent cqe_sz : Z) : option (Z * mem) :=
  if negb alloc_ok then Some (-1, m) else
  let m := if custom then m else memset m buf 0 (nent * cqe_sz) in
  m ← for_from (Z.to_nat nent) 0 (fun i m => Some (init_one buf cqe_sz i m)) m;
  Some (0, m).
