(* ===== verification/CqSpec.v ===== *)
(** Correctness of providers/mlx5/cq.c.

    Polling: the completions of the requests of a posted chain report the ids
    and opcodes of these requests, in the order of the ring, and give their
    slots of the send queue back.  Termination of the parser's jump back to
    [again].  The data of a 64-byte inline scatter.  Cleaning is in CqClean.v. *)

From stdpp Require Import gmap.
From S2P Require Import Prelude Bitmap Mem Wqe PostSend PostSendSpec PostRecv Srq Tables Tm Cq.

(** ** The ring *)

(** A ring of a power of two entries of 64 or 128 bytes. *)
Record cq_ok (cq : mlx5_cq) : Prop := {
  co_pow2 : exists k, 0 <= k <= 22 /\ cqe_mask cq + 1 = 2 ^ k;
  co_sz : cqe_sz cq = 64 \/ cqe_sz cq = 128;
  co_buf : 0 < cq_buf cq;
  co_cons : in_width 32 (cons_index cq) }.

(** The address of entry [i] of the sequence of all completions and of its
    [mlx5_cqe64]. *)
Definition entry (cq : mlx5_cq) (i : Z) : Z := get_cqe cq (Z.land i (cqe_mask cq)).
Definition entry64 (cq : mlx5_cq) (i : Z) : Z := cqe64_of cq (entry cq i).

(** The owner bit of the generation of entry [i]. *)
Definition generation (cq : mlx5_cq) (i : Z) : Z := b2z (negb (Z.land i (cqe_mask cq + 1) =? 0)).

Definition sw_owned (cq : mlx5_cq) (m : mem) (i : Z) : bool :=
  let own := ld8 m (entry64 cq i + 63) in
  negb (Z.shiftr own 4 =? MLX5_CQE_INVALID) && (Z.lxor (Z.land own MLX5_CQE_OWNER_MASK) (generation cq i) =? 0).

(** ** Completed requests *)

(** The number by which a completion names its queue. *)
Definition cqe_key (cqe_ver : bool) (m : mem) (c : Z) : Z :=
  Z.land (ld_be 4 m (if cqe_ver then c + 32 else c + 56)) 0xffffff.

(** Entry [i] reports the request at slot counter [ctr] of queue [n], without
    inline data. *)
Record req_cqe (cq : mlx5_cq) (m : mem) (cqe_ver : bool) (i n ctr op : Z) : Prop := {
  rc_own : Z.land (ld8 m (entry64 cq i + 63)) MLX5_CQE_OWNER_MASK = generation cq i;
  rc_opcode : Z.shiftr (ld8 m (entry64 cq i + 63)) 4 = MLX5_CQE_REQ;
  rc_inline : Z.land (ld8 m (entry64 cq i + 63)) (MLX5_INLINE_SCATTER_32 + MLX5_INLINE_SCATTER_64) = 0;
  rc_ctr : ld_be 2 m (entry64 cq i + 60) = ctr;
  rc_wire : Z.shiftr (ld_be 4 m (entry64 cq i + 56)) 24 = op;
  rc_key : cqe_key cqe_ver m (entry64 cq i) = n }.

(** The table of the driver maps [n] to the object at [a]. *)
Definition finds (w : world) (cqe_ver : bool) (n a : Z) : Prop :=
  (if cqe_ver then mlx5_find_uidx (uidx_table w) n else mlx5_find_qp (qp_table w) n) = Some a.

(** The completion opcode of a request. *)
Definition completes_as (op : Z) : Z :=
  if (op =? IBV_WR_RDMA_WRITE) || (op =? IBV_WR_RDMA_WRITE_WITH_IMM) then IBV_WC_RDMA_WRITE
  else if op =? IBV_WR_RDMA_READ then IBV_WC_RDMA_READ
  else if op =? IBV_WR_ATOMIC_CMP_AND_SWP then IBV_WC_COMP_SWAP
  else if op =? IBV_WR_ATOMIC_FETCH_AND_ADD then IBV_WC_FETCH_ADD
  else IBV_WC_SEND.

(** The first slot of request [k] of a chain. *)
Definition slot_of (wrs : list ibv_send_wr) (k : nat) : Z := total_slots (take k wrs).

(** The ring holds a completion for each of the requests [ks] of the chain,
    in this order, from [cons_index] on. *)
Definition ring_reports (w : world) (cqe_ver : bool) (n cur : Z) (wrs : list ibv_send_wr) (ks : list nat) : Prop :=
  forall j k, ks !! j = Some k -> exists wr op,
    wrs !! k = Some wr /\ mlx5_ib_opcode.[opcode wr] = Some op /\
    req_cqe (w_cq w) (w_mem w) cqe_ver (u32 (cons_index (w_cq w) + Z.of_nat j)) n (u16 (cur + slot_of wrs k)) op.

(** A completion of request [wr]. *)
Definition reports (wc : ibv_wc) (wr : ibv_send_wr) : Prop :=
  wc_id wc = wr_id wr /\ wc_status wc = IBV_WC_SUCCESS /\ wc_opcode wc = completes_as (opcode wr).

(** ** Bits *)

Lemma land_pow2_eqb x k : 0 <= k -> (Z.land x (2 ^ k) =? 0) = negb (Z.testbit x k).
Proof.
  intros Hk. assert (Hb : forall i, 0 <= i -> Z.testbit (Z.land x (2 ^ k)) i = (k =? i) && Z.testbit x k).
  { intros i Hi. rewrite Z.land_spec, Z.pow2_bits_eqb, andb_comm by lia. destruct (Z.eqb_spec k i) as [->|]; done. }
  destruct (Z.testbit x k) eqn:E; cbn.
  - apply Z.eqb_neq. intros H. specialize (Hb k Hk). by rewrite H, Z.bits_0, Z.eqb_refl in Hb.
  - apply Z.eqb_eq, Z.bits_inj'. intros i Hi. by rewrite Hb, Z.bits_0, andb_false_r.
Qed.

(** ** Running the monad *)

Lemma bind_run {A B} (e : M A) (k : A -> M B) w a w' : e w = Some (a, w') -> bindM e k w = k a w'.
Proof. intros H. unfold bindM. by rewrite H. Qed.

Ltac runM := repeat (cbn [bindM ret get upd lift the_cq be byte set_mem mod_lazy]; cbv beta zeta).
Ltac run E := rewrite (bind_run _ _ _ _ _ E).

Section Ring.
Context (cq : mlx5_cq) (Hok : cq_ok cq).

Lemma entry_pos i : entry cq i <> 0.
Proof.
  destruct Hok as [(k & Hk & Hm) Hs Hb _]. unfold entry, get_cqe. replace (cqe_mask cq) with (2 ^ k - 1) by lia.
  rewrite land_mod by lia. pose proof (Z.mod_pos_bound i (2 ^ k) ltac:(apply Z.pow_pos_nonneg; lia)). nia.
Qed.

Lemma get_sw_cqe_run w i : w_cq w = cq ->
  get_sw_cqe i w = Some (if sw_owned cq (w_mem w) i then entry cq i else 0, w).
Proof. intros <-. done. Qed.

Lemma next_cqe_full w : w_cq w = cq -> sw_owned cq (w_mem w) (cons_index cq) = true ->
  mlx5_get_next_cqe w = Some ((CQ_OK, entry64 cq (cons_index cq), entry cq (cons_index cq)),
                              with_wcq w (with_cons cq (u32 (cons_index cq + 1)))).
Proof.
  intros Hw E. unfold mlx5_get_next_cqe. erewrite bind_run.
  2: { unfold next_cqe_sw, bindM, the_cq, get. rewrite Hw. by apply get_sw_cqe_run. }
  rewrite E, (proj2 (Z.eqb_neq _ _)) by apply entry_pos. unfold bindM, the_cq, get, upd, ret. by rewrite Hw.
Qed.

Lemma next_cqe_empty w : w_cq w = cq -> sw_owned cq (w_mem w) (cons_index cq) = false ->
  mlx5_get_next_cqe w = Some ((CQ_EMPTY, 0, 0), w).
Proof.
  intros Hw E. unfold mlx5_get_next_cqe. erewrite bind_run.
  2: { unfold next_cqe_sw, bindM, the_cq, get. rewrite Hw. by apply get_sw_cqe_run. }
  by rewrite E.
Qed.

End Ring.

(** ** One completed request *)

(** The world after the completion of a request that is number [h] of the
    queue pair at [a]. *)
Definition after_req (w : world) (a n : Z) (qp : mlx5_qp) (s h : Z) : world :=
  with_rscs (with_wcq w (with_cons (w_cq w) (u32 (cons_index (w_cq w) + 1))))
    (<[a := RQp n (with_sq qp (with_tail (sq qp) (u32 (h + 1)))) s]> (w_rscs w)).

Lemma good_req_opcode wr op wc c q idx w :
  (0 <= opcode wr <= 6 \/ opcode wr = 9) -> mlx5_ib_opcode.[opcode wr] = Some op ->
  (wr_data q).[idx] = Some 0 -> Z.shiftr (ld_be 4 (w_mem w) (c + 56)) 24 = op ->
  exists wc', handle_good_req wc c q idx w = Some (wc', w) /\ wc_opcode wc' = completes_as (opcode wr).
Proof.
  intros Hr Ho Hd Hop. unfold handle_good_req, sop_drop_qpn, byte_cnt, be, bindM, get, lift, ret. rewrite Hop, Hd.
  eexists. split; [done|].
  assert (opcode wr = 0 \/ opcode wr = 1 \/ opcode wr = 2 \/ opcode wr = 3 \/ opcode wr = 4 \/ opcode wr = 5 \/
          opcode wr = 6 \/ opcode wr = 9) as Hc by lia.
  repeat (destruct Hc as [Hc|Hc]); rewrite Hc in *; vm_compute in Ho; injection Ho as <-; done.
Qed.

Lemma req_context_run w cqe_ver cur n a r :
  (cur = 0 \/ cur = a) -> finds w cqe_ver n a -> w_rscs w !! a = Some r -> rsn_of r = n ->
  get_req_context cur n cqe_ver w = Some (a, w).
Proof.
  intros Hc Hf Ha Hn. unfold get_req_context, stale_rsc. destruct Hc as [->| ->].
  - cbn [Z.eqb]. unfold bindM, ret, get, lift. destruct cqe_ver; by rewrite Hf.
  - unfold bindM, rsc_at, get, ret, lift. destruct (Z.eqb_spec a 0) as [->|].
    + destruct cqe_ver; by rewrite Hf.
    + unfold bindM. rewrite Ha, Hn, Z.eqb_refl. done.
Qed.

Lemma scatter_sq_none w qp c cqe ctr len :
  Z.land (ld8 (w_mem w) (c + 63)) (MLX5_INLINE_SCATTER_32 + MLX5_INLINE_SCATTER_64) = 0 ->
  scatter_sq qp c cqe ctr len w = Some (0, w).
Proof.
  intros H. unfold scatter_sq, op_own, byte, bindM, get. set (own := ld8 _ _) in *.
  assert (forall f i, 0 <= i -> f = 2 ^ i -> Z.testbit (MLX5_INLINE_SCATTER_32 + MLX5_INLINE_SCATTER_64) i = true -> has own f = false) as Hx.
  { intros f i Hi -> Ht. unfold has. rewrite land_pow2_eqb, negb_involutive by done. pose proof (Z.land_spec own (MLX5_INLINE_SCATTER_32 + MLX5_INLINE_SCATTER_64) i) as E.
    rewrite H, Z.bits_0, Ht, andb_true_r in E. done. }
  rewrite (Hx MLX5_INLINE_SCATTER_32 2), (Hx MLX5_INLINE_SCATTER_64 3) by done. done.
Qed.

Lemma parse_req_run w cqe_ver c cqe n a qp s cur srq wc wr op id h ctr :
  a <> 0 -> w_rscs w !! a = Some (RQp n qp s) -> finds w cqe_ver n a -> (cur = 0 \/ cur = a) ->
  (0 <= opcode wr <= 6 \/ opcode wr = 9) -> mlx5_ib_opcode.[opcode wr] = Some op ->
  Z.land (ld8 (w_mem w) (c + 63)) (MLX5_INLINE_SCATTER_32 + MLX5_INLINE_SCATTER_64) = 0 ->
  Z.shiftr (ld_be 4 (w_mem w) (c + 56)) 24 = op -> cqe_key cqe_ver (w_mem w) c = n ->
  (wrid (sq qp)).[Z.land ctr (u32 (wqe_cnt (sq qp) - 1))] = Some id ->
  (wqe_head (sq qp)).[Z.land ctr (u32 (wqe_cnt (sq qp) - 1))] = Some h ->
  (wr_data (sq qp)).[Z.land ctr (u32 (wqe_cnt (sq qp) - 1))] = Some 0 ->
  exists wc', parse_req c cqe cur srq wc cqe_ver false (Z.land (ld_be 4 (w_mem w) (c + 56)) 0xffffff) ctr w =
      Some (Parsed CQ_OK a srq wc',
            with_rscs w (<[a := RQp n (with_sq qp (with_tail (sq qp) (u32 (h + 1)))) s]> (w_rscs w))) /\
    wc_id wc' = id /\ wc_status wc' = IBV_WC_SUCCESS /\ wc_opcode wc' = completes_as (opcode wr).
Proof.
  intros Ha Hr Hf Hcur Hor Hop Hin Hwire Hkey Hid Hh Hd. unfold parse_req. erewrite bind_run by done. cbv beta.
  erewrite bind_run.
  2: { replace (if cqe_ver then _ else _) with n; [by eapply req_context_run|]. rewrite <- Hkey. by destruct cqe_ver. }
  rewrite (proj2 (Z.eqb_neq _ _) Ha).
  assert (Hq : qp_at a w = Some ((n, qp, s), w)) by (unfold qp_at, rsc_at, bindM, get, lift; by rewrite Hr).
  run Hq. destruct (good_req_opcode wr op wc c (sq qp) (Z.land ctr (u32 (wqe_cnt (sq qp) - 1))) w) as (wc1 & E1 & Ho1); try done.
  erewrite bind_run.
  2: { run E1. run (scatter_sq_none w qp c cqe ctr (wc_byte_len wc1) Hin). unfold bindM, lift. rewrite Hid. done. }
  unfold retire_sq. erewrite bind_run.
  2: { run Hq. unfold bindM, lift, set_rsc, upd. rewrite Hh. done. }
  eexists. split; [done|]. done.
Qed.

Lemma req_cqe_owned cq m ver i n ctr op : req_cqe cq m ver i n ctr op -> sw_owned cq m i = true.
Proof. intros [Ho Hp _ _ _ _]. unfold sw_owned. rewrite Ho, Hp, Z.lxor_nilpotent. done. Qed.

Lemma poll_one_req w cqe_ver n a qp s cur srq wc wr op id h :
  cq_ok (w_cq w) -> a <> 0 -> w_rscs w !! a = Some (RQp n qp s) -> finds w cqe_ver n a -> (cur = 0 \/ cur = a) ->
  (0 <= opcode wr <= 6 \/ opcode wr = 9) -> mlx5_ib_opcode.[opcode wr] = Some op ->
  forall ctr, req_cqe (w_cq w) (w_mem w) cqe_ver (cons_index (w_cq w)) n ctr op ->
  (wrid (sq qp)).[Z.land ctr (u32 (wqe_cnt (sq qp) - 1))] = Some id ->
  (wqe_head (sq qp)).[Z.land ctr (u32 (wqe_cnt (sq qp) - 1))] = Some h ->
  (wr_data (sq qp)).[Z.land ctr (u32 (wqe_cnt (sq qp) - 1))] = Some 0 ->
  exists wc', mlx5_poll_one cur srq wc cqe_ver w = Some (Parsed CQ_OK a srq wc', after_req w a n qp s h) /\
    wc_id wc' = id /\ wc_status wc' = IBV_WC_SUCCESS /\ wc_opcode wc' = completes_as (opcode wr).
Proof.
  intros Hok Ha Hr Hf Hcur Hor Hop ctr Hc Hid Hh Hd. unfold mlx5_poll_one.
  run (next_cqe_full _ Hok w eq_refl (req_cqe_owned _ _ _ _ _ _ _ Hc)).
  destruct Hc as [_ Hopc Hin Hctr Hwire Hkey]. set (c := entry64 _ _) in *. set (w1 := with_wcq w _).
  destruct (parse_req_run w1 cqe_ver c (entry (w_cq w) (cons_index (w_cq w))) n a qp s cur srq
    (wc_set_qp_num (wc_set_flags wc 0) (Z.land (ld_be 4 (w_mem w) (c + 56)) 0xffffff)) wr op id h ctr)
    as (wc' & E & Hp); try done.
  assert (T : parse_turn c (entry (w_cq w) (cons_index (w_cq w))) cur srq wc cqe_ver false w1 =
              Some (Done (Parsed CQ_OK a srq wc'), after_req w a n qp s h)).
  { unfold parse_turn. erewrite bind_run by done. erewrite bind_run by done. erewrite bind_run by done. cbv beta.
    change (ld8 (w_mem w1) _) with (ld8 (w_mem w) (c + 63)). rewrite Hopc.
    erewrite bind_run by done. cbn [Z.eqb MLX5_CQE_REQ].
    change (ld_be 2 (w_mem w1) (c + 60)) with (ld_be 2 (w_mem w) (c + 60)). rewrite Hctr. by run E. }
  exists wc'. split; [|done]. change (CQ_OK =? CQ_EMPTY) with false. cbv iota. unfold mlx5_parse_cqe. erewrite bind_run by done.
  destruct (Z.to_nat _) eqn:Ef.
  { destruct (co_pow2 _ Hok) as (k & Hk & Hm). pose proof (Z.pow_pos_nonneg 2 k). cbn in Ef. lia. }
  cbn [parse_loop]. by run T.
Qed.

(** ** A ring of completed requests *)

Lemma chain_recorded_lookup q wrs : forall p h k wr,
  chain_recorded q p h wrs -> wrs !! k = Some wr ->
  (wrid q).[(p + slot_of wrs k) mod wqe_cnt q] = Some (wr_id wr) /\
  (wqe_head q).[(p + slot_of wrs k) mod wqe_cnt q] = Some (u32 (h + Z.of_nat k)) /\
  (wr_data q).[(p + slot_of wrs k) mod wqe_cnt q] = Some 0.
Proof.
  induction wrs as [|w wrs IH]; intros p h k wr Hr Hk; [done|]. destruct Hr as [Hw Hr]. destruct k as [|k]; cbn [lookup] in Hk.
  - injection Hk as <-. unfold slot_of. cbn [take total_slots]. by rewrite !Z.add_0_r.
  - destruct (IH _ _ k wr Hr Hk) as (H1 & H2 & H3). unfold slot_of in *. cbn [take total_slots].
    rewrite Z.add_assoc. replace (h + Z.of_nat (S k)) with (h + 1 + Z.of_nat k) by lia. done.
Qed.

Lemma chain_recorded_tail q x wrs : forall p h, chain_recorded q p h wrs -> chain_recorded (with_tail q x) p h wrs.
Proof. induction wrs as [|w wrs IH]; intros p h; [done|]. intros [H Hr]. split; [exact H|by apply IH]. Qed.

(** The 16-bit counter of a completion selects the slot. *)
Lemma counter_slot p k : 0 <= k <= 16 -> Z.land (u16 p) (u32 (2 ^ k - 1)) = p mod 2 ^ k.
Proof.
  intros Hk. pose proof (Z.pow_pos_nonneg 2 k). pose proof (Z.pow_le_mono_r 2 k 16 ltac:(lia) ltac:(lia)).
  rewrite (wrapu_small 32) by lia. rewrite land_mod by lia. unfold wrapu. apply Z.mod_mod_divide.
  exists (2 ^ (16 - k)). rewrite <- Z.pow_add_r by lia. f_equal. lia.
Qed.

(** The world after [c] completions, the last of them leaving [t]. *)
Definition polled (w : world) (a n : Z) (qp : mlx5_qp) (s c t : Z) : world :=
  with_rscs (with_wcq w (with_cons (w_cq w) (u32 (cons_index (w_cq w) + c))))
    (<[a := RQp n (with_sq qp (with_tail (sq qp) t)) s]> (w_rscs w)).

Definition tail_after (h t : Z) (ks : list nat) : Z :=
  match last ks with None => t | Some k => u32 (u32 (h + Z.of_nat k) + 1) end.

Lemma polled_0 w a n qp s : in_width 32 (cons_index (w_cq w)) -> w_rscs w !! a = Some (RQp n qp s) ->
  polled w a n qp s 0 (tail (sq qp)) = w.
Proof.
  intros Hc Ha. unfold polled. rewrite Z.add_0_r, wrapu_small by done.
  replace (with_sq qp (with_tail (sq qp) (tail (sq qp)))) with qp by (by destruct qp as [????????? [] ???????]).
  rewrite insert_id by done. by destruct w as [? [] ????????].
Qed.

Lemma polled_polled w a n qp s t c t' :
  polled (polled w a n qp s 1 t) a n (with_sq qp (with_tail (sq qp) t)) s c t' = polled w a n qp s (1 + c) t'.
Proof.
  unfold polled, with_rscs, with_wcq, with_cons. cbn. rewrite wrapu_add_l, Z.add_assoc, insert_insert, decide_True by done. done.
Qed.

Section Poll.
Context (cqe_ver : bool) (a n s p h : Z) (wrs : list ibv_send_wr).
Context (Hops : Forall (fun w => 0 <= opcode w <= 6 \/ opcode w = 9) wrs) (Ha : a <> 0).

(** What polling needs of the world and the queue pair. *)
Record pollable (w : world) (qp : mlx5_qp) : Prop := {
  pl_cq : cq_ok (w_cq w);
  pl_rsc : w_rscs w !! a = Some (RQp n qp s);
  pl_finds : finds w cqe_ver n a;
  pl_cnt : exists k, 0 <= k <= 16 /\ wqe_cnt (sq qp) = 2 ^ k;
  pl_rec : chain_recorded (sq qp) p h wrs }.

Lemma pollable_step w qp t :
  pollable w qp -> pollable (polled w a n qp s 1 t) (with_sq qp (with_tail (sq qp) t)).
Proof.
  intros [Hc Hr Hf Hn Hrec]. constructor; try done.
  - destruct Hc. constructor; try done. apply wrapu_range. lia.
  - cbn. by rewrite lookup_insert_eq.
  - by apply chain_recorded_tail.
Qed.

Lemma ring_reports_cons w k ks qp t :
  ring_reports w cqe_ver n p wrs (k :: ks) -> ring_reports (polled w a n qp s 1 t) cqe_ver n p wrs ks.
Proof.
  intros H j k' Hj. destruct (H (S j) k' Hj) as (wr & op & Hk & Ho & Hq). exists wr, op. split_and!; try done.
  assert (forall i, req_cqe (w_cq w) (w_mem w) cqe_ver i n (u16 (p + slot_of wrs k')) op ->
    req_cqe (w_cq (polled w a n qp s 1 t)) (w_mem w) cqe_ver i n (u16 (p + slot_of wrs k')) op) as Hc by (intros i []; by constructor).
  apply Hc. change (cons_index (w_cq (polled _ _ _ _ _ _ _))) with (u32 (cons_index (w_cq w) + 1)). rewrite wrapu_add_l, <- Z.add_assoc. by replace (1 + Z.of_nat j) with (Z.of_nat (S j)) by lia.
Qed.

(** The array: the first completions are those of [ks], from [np] on. *)
Definition array_reports (np : Z) (ks : list nat) (wcs : list ibv_wc) : Prop :=
  forall j k, ks !! j = Some k -> exists wr wc, wrs !! k = Some wr /\ wcs.[np + Z.of_nat j] = Some wc /\ reports wc wr.

Lemma poll_loop_reqs e : forall ks w qp cur srq err np wcs,
  pollable w qp -> ring_reports w cqe_ver n p wrs ks -> (cur = 0 \/ cur = a) -> 0 <= np -> np + alen ks <= alen wcs -> err = CQ_OK ->
  exists cur' wcs',
    poll_loop (length ks + e) np cur srq err wcs cqe_ver w =
      poll_loop e (np + alen ks) cur' srq CQ_OK wcs' cqe_ver
        (polled w a n qp s (alen ks) (tail_after h (tail (sq qp)) ks)) /\
    (cur' = 0 \/ cur' = a) /\ alen wcs' = alen wcs /\ array_reports np ks wcs' /\
    (forall i, 0 <= i < np -> wcs'.[i] = wcs.[i]).
Proof.
  induction ks as [|k ks IH]; intros w qp cur srq err np wcs Hp Hring Hcur Hnp Hlen ->.
  { exists cur, wcs. cbn [length Nat.add]. unfold tail_after. cbn. rewrite polled_0, Z.add_0_r by (apply Hp). done. }
  assert (alen (k :: ks) = 1 + alen ks) as Hl by (unfold alen; cbn; lia). rewrite Hl in *. pose proof (alen_nonneg ks).
  destruct (Hring 0%nat k eq_refl) as (wr & op & Hk & Hop & Hq). rewrite Z.add_0_r, wrapu_small in Hq by apply Hp.
  destruct (aget_is_Some wcs np ltac:(lia)) as (wc & Ewc).
  destruct (pl_cnt _ _ Hp) as (b & Hb & Hcnt). destruct (chain_recorded_lookup _ _ _ _ _ _ (pl_rec _ _ Hp) Hk) as (R1 & R2 & R3).
  destruct (poll_one_req w cqe_ver n a qp s cur srq wc wr op (wr_id wr) (u32 (h + Z.of_nat k)) (pl_cq _ _ Hp) Ha
    (pl_rsc _ _ Hp) (pl_finds _ _ Hp) Hcur (proj1 (Forall_lookup _ _) Hops _ _ Hk) Hop _ Hq) as (wc' & E & Hw');
    [by rewrite Hcnt, counter_slot, <- Hcnt..|].
  pose proof (aset_Some wcs np wc' ltac:(lia)) as Es. set (wcs1 := <[_ := _]> wcs) in Es.
  destruct (IH _ _ a srq CQ_OK (np + 1) wcs1 (pollable_step w qp (u32 (u32 (h + Z.of_nat k) + 1)) Hp)
    (ring_reports_cons _ _ _ _ _ Hring)) as (cur' & wcs' & El & Hc' & Hlen' & Harr & Hfr); try tauto; try lia.
  { apply aset_alen in Es. lia. }
  exists cur', wcs'. split_and!; try done.
  - cbn [length Nat.add poll_loop]. erewrite bind_run by (unfold lift; by rewrite Ewc). run E. cbn [pr_wc pr_rc pr_rsc pr_srq].
    erewrite bind_run by (unfold lift; by rewrite Es). cbn [negb Z.eqb CQ_OK].
    change (after_req w a n qp s (u32 (h + Z.of_nat k))) with (polled w a n qp s 1 (u32 (u32 (h + Z.of_nat k) + 1))).
    etransitivity; [exact El|]. rewrite polled_polled, <- Z.add_assoc. f_equal. f_equal. unfold tail_after. rewrite last_cons. by destruct (last ks).
  - apply aset_alen in Es. lia.
  - intros [|j] k' Hj; cbn [lookup] in Hj.
    + injection Hj as <-. exists wr, wc'. rewrite Z.add_0_r, Hfr by lia. split_and!; try done. by apply aget_aset_eq in Es.
    + destruct (Harr j k' Hj) as (wr' & wc'' & ? & Hw & ?). exists wr', wc''.
      by replace (np + Z.of_nat (S j)) with (np + 1 + Z.of_nat j) by lia.
  - intros i Hi. rewrite Hfr by lia. apply (aget_aset_ne _ _ _ _ _ Es). lia.
Qed.

End Poll.

Lemma cq_ok_stall w f :
  let w' := with_wcq w (with_stall (w_cq w) f) in cq_ok (w_cq w) -> cq_ok (w_cq w').
Proof. intros w' []. by constructor. Qed.

Lemma ring_reports_stall w ver n p wrs ks f :
  ring_reports w ver n p wrs ks -> ring_reports (with_wcq w (with_stall (w_cq w) f)) ver n p wrs ks.
Proof.
  intros H j k Hj. destruct (H j k Hj) as (wr & op & ? & ? & []). exists wr, op. by split_and!.
Qed.

(** Requests completed up to number [k] leave the later ones outstanding. *)
Lemma outstanding_retired hd t n k :
  0 <= k < n -> n < 2 ^ 32 -> t = u32 (u32 (hd + k) + 1) -> u32 (u32 (hd + n) - t) = n - 1 - k.
Proof.
  intros Hk Hn ->. rewrite wrapu_add_l. rewrite <- (wrapu_small 32 (n - 1 - k)) by lia. unfold wrapu.
  rewrite <- Zminus_mod. f_equal. lia.
Qed.

(** The end of the poll loop: no room in the array, or an empty ring. *)
Lemma poll_loop_end e np cur srq wcs ver w :
  cq_ok (w_cq w) -> 0 <= np -> np + Z.of_nat e <= alen wcs ->
  (e = 0%nat \/ sw_owned (w_cq w) (w_mem w) (cons_index (w_cq w)) = false) ->
  exists err wcs', poll_loop e np cur srq CQ_OK wcs ver w = Some ((err, np, wcs'), w) /\ err <> CQ_POLL_ERR /\
    forall i, wcs'.[i] = wcs.[i].
Proof.
  intros Hok Hnp Hlen [->|Hh]; [by exists CQ_OK, wcs|]. destruct e as [|e]; [by exists CQ_OK, wcs|].
  destruct (aget_is_Some wcs np ltac:(lia)) as (wc & Ewc). pose proof (aset_Some wcs np wc ltac:(lia)) as Es.
  set (wcs1 := <[_ := _]> wcs) in Es. exists CQ_EMPTY, wcs1. split_and!; [|done|].
  - cbn [poll_loop]. erewrite bind_run by (unfold lift; by rewrite Ewc). unfold mlx5_poll_one.
    erewrite bind_run; [|erewrite bind_run by (by apply (next_cqe_empty (w_cq w))); done]. cbn [pr_wc].
    erewrite bind_run by (unfold lift; by rewrite Es). done.
  - intros i. rewrite (aget_aset _ _ _ _ _ Es). destruct (Z.eqb_spec np i) as [<-|]; done.
Qed.

(** C13: After a chain of requests is posted on an RC queue pair, polling its
    completion queue reports the completions the device has written, in the
    order of the ring: each with the id of its request, the opcode the request
    completes as and the status of success.  The send queue gives back all
    slots up to the last completed request: exactly the requests after it are
    outstanding.  The consumer index advances by the number of completions and
    the doorbell record holds its low 24 bits. *)
Theorem poll_after_post ctx qp m wrs r w cqe_ver a n s ks ne wcs :
  chain_fits qp wrs -> wrs <> [] -> _mlx5_post_send ctx qp m wrs = Some r ->
  cq_ok (w_cq w) -> a <> 0 -> w_rscs w !! a = Some (RQp n (sr_qp r) s) -> finds w cqe_ver n a ->
  ring_reports w cqe_ver n (cur_post (sq qp)) wrs ks -> alen ks <= ne <= alen wcs ->
  (ne = alen ks \/ sw_owned (w_cq w) (w_mem w) (u32 (cons_index (w_cq w) + alen ks)) = false) ->
  exists wcs' w' qp', poll_cq ne wcs cqe_ver w = Some ((alen ks, wcs'), w') /\
    array_reports wrs 0 ks wcs' /\
    w_rscs w' = <[a := RQp n qp' s]> (w_rscs w) /\
    (forall k, last ks = Some k -> outstanding qp' = alen wrs - 1 - Z.of_nat k) /\
    cons_index (w_cq w') = u32 (cons_index (w_cq w) + alen ks) /\
    ld_be 4 (w_mem w') (dbrec (w_cq w)) = (cons_index (w_cq w) + alen ks) mod 2 ^ 24.
Proof.
  intros Hfit Hne Hpost Hcq Ha Hr Hf Hring Hlen Hend.
  destruct (post_chain_ok ctx qp m wrs Hfit Hne) as (r' & E & _ & _ & _ & _ & _ & Hout & _ & Hrec & data & ids & heads & Hsq).
  rewrite Hpost in E. injection E as <-. pose proof (alen_nonneg ks).
  unfold poll_cq. erewrite bind_run by done. cbv beta. set (w1 := with_wcq w _).
  assert (Hp : pollable cqe_ver a n s (cur_post (sq qp)) (head (sq qp)) wrs w1 (sr_qp r)).
  { constructor; try done; [by apply cq_ok_stall|]. rewrite Hsq. apply (cf_sq _ _ Hfit). }
  assert (Hops : Forall (fun w => 0 <= opcode w <= 6 \/ opcode w = 9) wrs).
  { eapply Forall_impl; [apply (cf_reqs _ _ Hfit)|]. intros wr Hw. by apply (PostSendSpec.rc_opcode _ _ Hw). }
  destruct (poll_loop_reqs cqe_ver a n s _ _ wrs Hops Ha (Z.to_nat (ne - alen ks)) ks w1 (sr_qp r) 0 0 CQ_OK 0 wcs Hp)
    as (cur' & wcs1 & El & Hc' & Hl' & Harr & _); try tauto; try lia.
  { by apply ring_reports_stall. }
  replace (length ks + Z.to_nat (ne - alen ks))%nat with (Z.to_nat ne) in El by (unfold alen in *; lia).
  set (w2 := polled _ _ _ _ _ _ _) in El.
  destruct (poll_loop_end (Z.to_nat (ne - alen ks)) (0 + alen ks) cur' 0 wcs1 cqe_ver w2) as (err & wcs2 & Ee & Herr & Hsame); try lia.
  { destruct Hcq. constructor; try done. apply wrapu_range. lia. }
  { destruct Hend as [->|Hh]; [left; lia|by right]. }
  erewrite bind_run by (by rewrite El, Ee). cbv beta iota zeta. erewrite bind_run by done. erewrite bind_run by done.
  rewrite (proj2 (Z.eqb_neq _ _) Herr). unfold ret. do 3 eexists. split; [done|]. split_and!.
  - intros j k Hj. destruct (Harr j k Hj) as (wr & wc & ? & ? & ?). exists wr, wc. by rewrite Hsame.
  - done.
  - intros k Hk. unfold outstanding. cbn. rewrite Hsq. cbn. unfold tail_after. rewrite Hk.
    assert (Z.of_nat k < alen wrs).
    { rewrite last_lookup in Hk. destruct (Hring _ _ Hk) as (wr & _ & Hwr & _). apply lookup_lt_Some in Hwr. unfold alen. lia. }
    pose proof (cf_max _ _ Hfit). pose proof (cf_post _ _ Hfit). unfold outstanding, in_width in *.
    pose proof (wrapu_range 32 (head (sq qp) - tail (sq qp)) ltac:(lia)). apply outstanding_retired; (lia || done).
  - done.
  - etransitivity; [apply ld_be_st_be|]. rewrite (land_mod _ 24) by lia.
    change (cons_index (w_cq w2)) with (u32 (cons_index (w_cq w) + alen ks)). unfold wrapu.
    rewrite (Z.mod_mod_divide _ (2 ^ 32)) by (by exists (2 ^ 8)). apply Z.mod_small.
    pose proof (Z.mod_pos_bound (cons_index (w_cq w) + alen ks) (2 ^ 24)). lia.
Qed.

(** A ring of four entries with the completions of both requests of the
    sample chain, at entries 3 and 4; the queue pair is number 7. *)
Definition sample_cq : mlx5_cq :=
  Cq 0x9000 3 64 3 0xa000 5 0 3 0 0 0 (Lazy 0 0 0 0 0 0 0) (Stall false false 0 0 0).
Definition sample_ring (op0 op1 : Z) : mem :=
  store_bytes (store_bytes ∅ (0x9000 + 3 * 64 + 56) [op0; 0; 0; 7; 0; 3; 0; 0]) (0x9000 + 56) [op1; 0; 0; 7; 0; 5; 0; 1].
Definition sample_world (qp : mlx5_qp) (m : mem) : world :=
  World m sample_cq {[0xe000 := RQp 7 qp 0]} ∅ [Page 1 [0; 0; 0; 0; 0; 0; 0; 0xe000]] [] [] [] 0 0 false.

Lemma sample_cq_ok : cq_ok sample_cq.
Proof. constructor; try done; [by exists 2|by left]. Qed.

Lemma sample_reports qp :
  let w := sample_world qp (sample_ring MLX5_OPCODE_ATOMIC_CS MLX5_OPCODE_RDMA_WRITE) in
  ring_reports w false 7 3 sample_chain [0%nat; 1%nat] /\ sw_owned (w_cq w) (w_mem w) (u32 (cons_index (w_cq w) + 2)) = false.
Proof.
  split; [|vm_compute; reflexivity].
  intros [|[|j]] k Hj; [..|done]; injection Hj as <-; do 2 eexists;
    (split; [reflexivity|split; [vm_compute; reflexivity|constructor; vm_compute; reflexivity]]).
Qed.

Lemma poll_after_post_witness :
  let qp := sample_qp IBV_QPT_RC 3 0 true in
  let wc := no_wc in
  exists r wcs' w' qp', _mlx5_post_send sample_ctx qp ∅ sample_chain = Some r /\
    poll_cq 3 [wc; wc; wc] false (sample_world (sr_qp r) (sample_ring MLX5_OPCODE_ATOMIC_CS MLX5_OPCODE_RDMA_WRITE)) = Some ((2, wcs'), w') /\
    array_reports sample_chain 0 [0%nat; 1%nat] wcs' /\ w_rscs w' !! 0xe000 = Some (RQp 7 qp' 0) /\ outstanding qp' = 0.
Proof.
  intros qp wc. destruct (post_chain_ok sample_ctx qp ∅ sample_chain sample_chain_fits ltac:(done)) as (r & E & _).
  exists r. destruct (poll_after_post sample_ctx qp ∅ sample_chain r
    (sample_world (sr_qp r) (sample_ring MLX5_OPCODE_ATOMIC_CS MLX5_OPCODE_RDMA_WRITE)) false 0xe000 7 0 [0%nat; 1%nat] 3 [wc; wc; wc]
    sample_chain_fits ltac:(done) E sample_cq_ok) as (wcs' & w' & qp' & Ep & Harr & Hr & Ho & _).
  - discriminate.
  - apply lookup_singleton_eq.
  - reflexivity.
  - apply sample_reports.
  - split; discriminate.
  - right. apply sample_reports.
  - exists wcs', w', qp'. split; [exact E|]. split; [exact Ep|]. split; [exact Harr|]. rewrite Hr. split; [apply lookup_insert_eq|].
    rewrite (Ho 1%nat eq_refl). reflexivity.
Defined.

(** ** Termination of the jump back to [again] *)

Lemma bindM_inv {A B} (e : M A) (k : A -> M B) w b w' :
  bindM e k w = Some (b, w') -> exists a w1, e w = Some (a, w1) /\ k a w1 = Some (b, w').
Proof. unfold bindM. destruct (e w) as [[a w1]|]; [|done]. intros H. by exists a, w1. Qed.

(** Computations that change nothing. *)
Definition reads {A} (e : M A) : Prop := forall w a w', e w = Some (a, w') -> w' = w.

Lemma reads_ret {A} (a : A) : reads (ret a).
Proof. by intros w b w' [= _ <-]. Qed.
Lemma reads_get {A} (f : world -> A) : reads (get f).
Proof. by intros w b w' [= _ <-]. Qed.
Lemma reads_lift {A} (o : option A) : reads (lift o).
Proof. intros w b w'. unfold lift. destruct o; [by intros [= _ <-]|done]. Qed.
Lemma reads_ub {A} : reads (@ub A).
Proof. done. Qed.
Lemma reads_bind {A B} (e : M A) (k : A -> M B) : reads e -> (forall a, reads (k a)) -> reads (bindM e k).
Proof. intros He Hk w b w' (a & w1 & E1 & E2)%bindM_inv. apply He in E1 as ->. by apply Hk in E2. Qed.

Create HintDb cq_reads.
#[export] Hint Resolve reads_ret reads_get reads_lift reads_ub : cq_reads.
Ltac reads_tac := repeat (first [apply reads_bind; [|intros ?] | progress eauto with cq_reads | case_match]).

Lemma reads_rsc_at a : reads (rsc_at a).
Proof. unfold rsc_at. reads_tac. Qed.
#[export] Hint Resolve reads_rsc_at : cq_reads.
Lemma reads_srq_at a : reads (srq_at a).
Proof. unfold srq_at. reads_tac. Qed.
#[export] Hint Resolve reads_srq_at : cq_reads.
Lemma reads_stale_rsc cur n : reads (stale_rsc cur n).
Proof. unfold stale_rsc. reads_tac. Qed.
#[export] Hint Resolve reads_stale_rsc : cq_reads.

Lemma reads_get_cur_rsc ver qpn su cur srq : reads (get_cur_rsc ver qpn su cur srq).
Proof. unfold get_cur_rsc, get_resp_ctx_v1, get_srq_ctx, get_qp_ctx. reads_tac. Qed.
Lemma reads_is_odp_pfault_err c : reads (is_odp_pfault_err c).
Proof. unfold is_odp_pfault_err, syndrome, vendor_err_synd, byte. reads_tac. Qed.
Lemma reads_get_sig_err_info c : reads (get_sig_err_info c).
Proof. unfold get_sig_err_info, be, byte. reads_tac. Qed.

(** Where [mlx5_parse_cqe] stands at the label [again]. *)
Record at_again := AtAgain { a_cqe64 : Z; a_cqe : Z; a_rsc : Z; a_srq : Z; a_wc : ibv_wc; a_world : world }.

Definition turn_at (ver lazy : bool) (p : at_again) : option (outcome * world) :=
  parse_turn (a_cqe64 p) (a_cqe p) (a_rsc p) (a_srq p) (a_wc p) ver lazy (a_world p).

Definition loop_at (fuel : nat) (ver lazy : bool) (p : at_again) : option (parsed * world) :=
  parse_loop fuel (a_cqe64 p) (a_cqe p) (a_rsc p) (a_srq p) (a_wc p) ver lazy (a_world p).

(** [n] jumps back to [again]. *)
Inductive jumped (ver lazy : bool) : nat -> at_again -> at_again -> Prop :=
| jumped_none p : jumped ver lazy 0 p p
| jumped_step n p c cqe rsc srq wc w q :
    turn_at ver lazy p = Some (Again c cqe rsc srq wc, w) -> jumped ver lazy n (AtAgain c cqe rsc srq wc w) q -> jumped ver lazy (S n) p q.

Section Again.
Context (cq0 : mlx5_cq) (Hok0 : cq_ok cq0) (P : mlx5_srq -> Prop).

Definition in_ring (a : Z) : Prop := cq_buf cq0 <= a < cq_buf cq0 + (cqe_mask cq0 + 1) * cqe_sz cq0.

(** Handling a page fault of a receive queue with [P] writes outside the ring. *)
Definition faults_apart : Prop := forall s m i s' m',
  P s -> mlx5_complete_odp_fault s m i = Some (s', m') -> P s' /\ forall a, in_ring a -> ld8 m' a = ld8 m a.

(** The ring is the one of [cq0]; the shared receive queues have [P]. *)
Record calm (w : world) : Prop := {
  cl_geo : exists i f, w_cq w = with_cons (with_lazy cq0 f) i /\ in_width 32 i;
  cl_srq : forall a x n o, w_rscs w !! a = Some (RSrq x n o) -> P (so_srq o) }.

(** [w'] has [d] completions fewer. *)
Record quiet (d : Z) (w w' : world) : Prop := {
  qt_calm : calm w';
  qt_cons : cons_index (w_cq w') = u32 (cons_index (w_cq w) + d);
  qt_ring : forall a, in_ring a -> ld8 (w_mem w') a = ld8 (w_mem w) a }.

Lemma calm_ok w : calm w -> cq_ok (w_cq w).
Proof. intros [(i & f & -> & Hi) _]. destruct Hok0. by constructor. Qed.

Lemma calm_owned w m i : calm w -> sw_owned (w_cq w) m i = sw_owned cq0 m i.
Proof. intros [(? & ? & -> & _) _]. done. Qed.

Lemma quiet_refl w : calm w -> quiet 0 w w.
Proof. intros H. constructor; try done. rewrite Z.add_0_r. symmetry. apply wrapu_small, (calm_ok _ H). Qed.

Lemma quiet_trans d e w1 w2 w3 : quiet d w1 w2 -> quiet e w2 w3 -> quiet (d + e) w1 w3.
Proof.
  intros [_ H1 R1] [H2 H3 R2]. constructor; [done| |].
  - by rewrite H3, H1, wrapu_add_l, Z.add_assoc.
  - intros a Ha. by rewrite R2, R1.
Qed.

Lemma quiet_lazy w f : calm w -> quiet 0 w (with_wcq w (with_lazy (w_cq w) f)).
Proof.
  intros H. pose proof (calm_ok _ H) as Hok. destruct H as [(i & g & E & Hi) Hs]. constructor; [constructor; [|done]| |done].
  - exists i, f. cbn. by rewrite E.
  - cbn. rewrite Z.add_0_r. symmetry. apply wrapu_small, Hok.
Qed.

Lemma next_again w rsc srq wc c cqe r s wc' w' : calm w ->
  next_or_nodata rsc srq wc w = Some (Again c cqe r s wc', w') ->
  quiet 1 w w' /\ sw_owned cq0 (w_mem w') (cons_index (w_cq w)) = true.
Proof.
  intros Hc (x & w1 & E1 & E2)%bindM_inv. pose proof (calm_ok _ Hc) as Hok.
  destruct (sw_owned (w_cq w) (w_mem w) (cons_index (w_cq w))) eqn:Ho.
  - rewrite (next_cqe_full _ Hok w eq_refl Ho) in E1. injection E1 as <- <-. injection E2 as _ _ _ _ _ <-.
    split; [|by rewrite <- (calm_owned w)]. destruct Hc as [(i & g & E & Hi) Hs]. constructor; [constructor; [|done]|done|done].
    exists (u32 (cons_index (w_cq w) + 1)), g. cbn. rewrite E. split; [done|]. apply wrapu_range. lia.
  - rewrite (next_cqe_empty _ Hok w eq_refl Ho) in E1. by injection E1 as <- <-.
Qed.

(** What a turn that jumps back leaves: the ring, one completion further. *)
Definition jumps (e : M outcome) : Prop := forall w c cqe r s wc w',
  calm w -> e w = Some (Again c cqe r s wc, w') -> quiet 1 w w' /\ sw_owned cq0 (w_mem w') (cons_index (w_cq w)) = true.

Lemma jumps_done {A} (e : M A) (f : A -> parsed) : jumps (x <~ e ;; ret (Done (f x)))%cq.
Proof. by intros w c cqe r s wc w' _ (x & w1 & _ & [=])%bindM_inv. Qed.
Lemma jumps_ret p : jumps (ret (Done p)).
Proof. done. Qed.
Lemma jumps_next rsc srq wc : jumps (next_or_nodata rsc srq wc).
Proof. intros w c cqe r s wc' w' Hc E. by eapply next_again. Qed.
Lemma jumps_reads {A} (e : M A) k : reads e -> (forall a, jumps (k a)) -> jumps (bindM e k).
Proof. intros He Hk w c cqe r s wc w' Hc (a & w1 & E1 & E2)%bindM_inv. apply He in E1 as ->. by eapply Hk. Qed.

(** Steps that leave the ring alone. *)
Definition settles {A} (e : M A) : Prop := forall w a w', calm w -> e w = Some (a, w') -> quiet 0 w w'.

Lemma jumps_settles {A} (e : M A) k : settles e -> (forall a, jumps (k a)) -> jumps (bindM e k).
Proof.
  intros He Hk w c cqe r s wc w' Hc (a & w1 & E1 & E2)%bindM_inv. pose proof (He _ _ _ Hc E1) as H1.
  destruct (Hk a w1 c cqe r s wc w' (qt_calm _ _ _ H1) E2) as [H2 Ho]. split; [exact (quiet_trans _ _ _ _ _ H1 H2)|].
  rewrite (qt_cons _ _ _ H1), Z.add_0_r, wrapu_small in Ho by apply (calm_ok _ Hc). done.
Qed.

Lemma settles_lazy f : settles (mod_lazy f).
Proof. intros w a w' Hc [= _ <-]. by apply quiet_lazy. Qed.

Lemma settles_reads {A} (e : M A) : reads e -> settles e.
Proof. intros He w a w' Hc E. apply He in E as ->. by apply quiet_refl. Qed.

Lemma settles_sigs f : settles (upd (fun w => with_sigs w (f w))).
Proof.
  intros w a w' Hc [= _ <-]. destruct Hc as [Hg Hs]. constructor; [by constructor|cbn|done].
  rewrite Z.add_0_r. symmetry. apply wrapu_small. destruct Hg as (i & g & -> & Hi). done.
Qed.

(** The page fault of a shared receive queue. *)
Lemma settles_fault srq ctr : faults_apart ->
  settles (r <~ srq_at srq ;; let '(x, n, o) := r in m <~ get w_mem ;;
           r <~ lift (mlx5_complete_odp_fault (so_srq o) m ctr) ;; let '(s, m) := r in
           set_rsc srq (RSrq x n (with_srq o s)) ;;; set_mem m)%cq.
Proof.
  intros HP w u w' Hc (((x & k) & o) & w1 & E1 & E2)%bindM_inv. pose proof (reads_srq_at _ _ _ _ E1) as ->.
  assert (Hr : w_rscs w !! srq = Some (RSrq x k o)).
  { unfold srq_at, rsc_at, bindM, get, lift in E1. destruct (w_rscs w !! srq) as [[]|]; try done. by injection E1 as -> -> ->. }
  apply bindM_inv in E2 as (m & w1 & [= <- <-] & E2). apply bindM_inv in E2 as ((s & m') & w1 & E3 & E2). unfold lift in E3.
  destruct (mlx5_complete_odp_fault _ _ _) as [[s1 m1]|] eqn:Ef; [|done]. injection E3 as -> -> <-.
  destruct (HP _ _ _ _ _ (cl_srq _ Hc _ _ _ _ Hr) Ef) as [Hs Hm]. injection E2 as E2. subst w'.
  pose proof (calm_ok _ Hc) as Hok. constructor; [constructor|cbn|exact Hm].
  - apply Hc.
  - intros a y j o' Ha. cbn in Ha. destruct (decide (a = srq)) as [->|]; [rewrite lookup_insert_eq in Ha; by injection Ha as <- <- <-|].
    rewrite lookup_insert_ne in Ha by done. by eapply (cl_srq _ Hc).
  - rewrite Z.add_0_r. symmetry. apply wrapu_small, Hok.
Qed.

Lemma jumps_fault srq ctr k : faults_apart -> jumps k ->
  jumps (r <~ srq_at srq ;; let '(x, n, o) := r in m <~ get w_mem ;;
         r <~ lift (mlx5_complete_odp_fault (so_srq o) m ctr) ;; let '(s, m) := r in
         set_rsc srq (RSrq x n (with_srq o s)) ;;; set_mem m ;;; k)%cq.
Proof.
  intros HP Hk w c cqe r s wc w' Hc E. refine (jumps_settles _ (fun _ => k) (settles_fault srq ctr HP) (fun _ => Hk) w c cqe r s wc w' Hc _).
  rewrite <- E. unfold bindM, get, lift. destruct (srq_at srq w) as [[[[x n] o] w1]|]; [|done]. cbn.
  by destruct (mlx5_complete_odp_fault _ _ _) as [[]|].
Qed.

Lemma parse_sig_err_jumps c rsc srq wc : jumps (parse_sig_err c rsc srq wc).
Proof.
  unfold parse_sig_err, be. do 3 (apply jumps_reads; [auto with cq_reads|intros ?]). case_match; [apply jumps_ret|].
  do 2 (apply jumps_reads; [auto with cq_reads|intros ?]). apply jumps_reads; [apply reads_get_sig_err_info|intros ?].
  apply jumps_settles; [apply (settles_sigs _)|intros ?]. apply jumps_next.
Qed.

Lemma parse_err_jumps c rsc srq wc ver lazy req qpn ctr : faults_apart -> jumps (parse_err c rsc srq wc ver lazy req qpn ctr).
Proof.
  intros HP. unfold parse_err, srqn_uidx, syndrome, vendor_err_synd, be, byte. do 3 (apply jumps_reads; [auto with cq_reads|intros ?]).
  apply jumps_settles; [destruct lazy; [apply settles_lazy|apply settles_reads; auto with cq_reads]|intros ?].
  apply jumps_reads; [apply reads_is_odp_pfault_err|intros ?]. apply jumps_reads; [auto with cq_reads|intros ?]. case_match; [done|].
  destruct req.
  - intros w c' cqe r s wc' w' Hc E. exfalso. unfold bindM, ret in E. repeat (case_match; try done).
  - apply jumps_reads; [apply reads_get_cur_rsc|intros [[[err rsc'] srq'] is_srq]]. case_match; [apply jumps_ret|].
    destruct is_srq.
    + apply jumps_reads; [apply reads_is_odp_pfault_err|intros pf]. destruct pf; [by apply jumps_fault, jumps_next|].
      intros w c' cqe r s wc' w' Hc E. exfalso. unfold bindM, ret in E. repeat (case_match; try done).
    + intros w c' cqe r s wc' w' Hc E. exfalso. unfold bindM, ret in E. repeat (case_match; try done).
Qed.

Lemma parse_turn_jumps c cqe rsc srq wc ver lazy : faults_apart -> jumps (parse_turn c cqe rsc srq wc ver lazy).
Proof.
  intros HP. unfold parse_turn, sop_drop_qpn, mlx5dv_get_cqe_opcode, op_own, wqe_counter, be, byte.
  apply jumps_reads; [auto with cq_reads|intros ?].
  apply jumps_settles; [destruct lazy; [apply settles_lazy|apply settles_reads; auto with cq_reads]|intros ?].
  apply jumps_reads; [reads_tac|intros op]. apply jumps_reads; [auto with cq_reads|intros ctr].
  repeat case_match; first [apply (jumps_done _ id) | apply parse_sig_err_jumps | by apply parse_err_jumps | apply jumps_ret].
Qed.

Lemma owner_in_ring i : in_ring (entry64 cq0 i + 63).
Proof.
  destruct (co_pow2 _ Hok0) as (k & Hk & Hm). unfold in_ring, entry64, cqe64_of, entry, get_cqe.
  replace (Z.land i (cqe_mask cq0)) with (i mod 2 ^ k) by (rewrite <- land_mod by lia; f_equal; lia). rewrite Hm.
  pose proof (Z.mod_pos_bound i (2 ^ k) ltac:(apply Z.pow_pos_nonneg; lia)).
  destruct (co_sz _ Hok0) as [->| ->]; cbn [Z.eqb Pos.eqb]; nia.
Qed.

Lemma owned_ext m m' i : (forall a, in_ring a -> ld8 m' a = ld8 m a) -> sw_owned cq0 m' i = sw_owned cq0 m i.
Proof. intros H. unfold sw_owned. by rewrite (H _ (owner_in_ring i)). Qed.

(** The owner bit changes with every round of the ring. *)
Lemma generation_flips i :
  generation cq0 (u32 (i + (cqe_mask cq0 + 1))) = 1 - generation cq0 (u32 i) /\
  entry64 cq0 (u32 (i + (cqe_mask cq0 + 1))) = entry64 cq0 (u32 i).
Proof.
  destruct (co_pow2 _ Hok0) as (k & Hk & Hm).
  assert (Hg : forall x, generation cq0 (u32 x) = b2z (Z.testbit x k)).
  { intros x. unfold generation. rewrite Hm, land_pow2_eqb, negb_involutive, testbit_wrapu by lia.
    destruct (Z.ltb_spec k 32); [done|lia]. }
  rewrite !Hg, Hm. split.
  - pose proof (Z.pow_pos_nonneg 2 k). assert ((i + 2 ^ k) / 2 ^ k = i / 2 ^ k + 1) as Hd by (rewrite <- (Z.mul_1_l (2 ^ k)) at 1; rewrite Z.div_add by lia; done).
    rewrite !Z.testbit_odd, !Z.shiftr_div_pow2, Hd, Z.odd_add by lia. by destruct (Z.odd (i / 2 ^ k)).
  - unfold entry64, entry. do 2 f_equal. replace (cqe_mask cq0) with (2 ^ k - 1) by lia. rewrite !land_mod by lia. unfold wrapu.
    assert (Hx : forall x, (x mod 2 ^ 32) mod 2 ^ k = x mod 2 ^ k).
    { intros x. apply Z.mod_mod_divide. exists (2 ^ (32 - k)). rewrite <- Z.pow_add_r by lia. f_equal. lia. }
    rewrite !Hx, <- (Z.mul_1_l (2 ^ k)) at 1. rewrite Z.mod_add; [done|]. pose proof (Z.pow_pos_nonneg 2 k). lia.
Qed.

Lemma round_owned m i : sw_owned cq0 m (u32 i) = true -> sw_owned cq0 m (u32 (i + (cqe_mask cq0 + 1))) = true -> False.
Proof.
  destruct (generation_flips i) as [Hg He]. unfold sw_owned. rewrite He, Hg. intros [_ H1%Z.eqb_eq%Z.lxor_eq]%andb_prop [_ H2%Z.eqb_eq%Z.lxor_eq]%andb_prop.
  unfold generation, b2z in *. destruct (negb _); lia.
Qed.

(** After [t] turns, each with a completion from consumer index [i] on. *)
Record turned (i : Z) (t : nat) (w : world) : Prop := {
  tn_calm : calm w;
  tn_cons : cons_index (w_cq w) = u32 (i + Z.of_nat t);
  tn_owned : forall j, (j < t)%nat -> sw_owned cq0 (w_mem w) (u32 (i + Z.of_nat j)) = true }.

Lemma turned_bound i t w : turned i t w -> Z.of_nat t <= cqe_mask cq0 + 1.
Proof.
  intros Ht. destruct (Z.le_gt_cases (Z.of_nat t) (cqe_mask cq0 + 1)) as [|Hgt]; [done|exfalso].
  destruct (co_pow2 _ Hok0) as (k & Hk & Hm). pose proof (Z.pow_pos_nonneg 2 k).
  apply (round_owned (w_mem w) i).
  - rewrite <- (Z.add_0_r i). apply (tn_owned _ _ _ Ht 0%nat). lia.
  - replace (cqe_mask cq0 + 1) with (Z.of_nat (Z.to_nat (cqe_mask cq0 + 1))) by lia. apply (tn_owned _ _ _ Ht). lia.
Qed.

Lemma turned_step i t w w' : turned i t w -> quiet 1 w w' -> sw_owned cq0 (w_mem w') (cons_index (w_cq w)) = true -> turned i (S t) w'.
Proof.
  intros [Hc Hi Ho] [Hc' Hi' Hr] Hn. constructor; [done| |].
  - rewrite Hi', Hi, wrapu_add_l. f_equal. lia.
  - intros j Hj. destruct (decide (j = t)) as [->|]; [by rewrite <- Hi|]. rewrite (owned_ext (w_mem w)) by done. apply Ho. lia.
Qed.

(** The turns from [t] on: they jump back, at most until the ring is empty, and
    the turn that does not jump gives the result of the loop. *)
Lemma parse_loop_ends i ver lazy : faults_apart -> forall fuel t p,
  turned i t (a_world p) -> cqe_mask cq0 + 2 <= Z.of_nat (fuel + t) ->
  exists n q, jumped ver lazy n p q /\ turned i (t + n) (a_world q) /\
    match turn_at ver lazy q with
    | Some (Done r, w') => loop_at fuel ver lazy p = Some (r, w')
    | Some (Again _ _ _ _ _, _) => False
    | None => loop_at fuel ver lazy p = None
    end.
Proof.
  intros HP. induction fuel as [|fuel IH]; intros t p Ht Hf.
  { pose proof (turned_bound _ _ _ Ht). lia. }
  destruct (turn_at ver lazy p) as [[[r|c' cqe' rsc' srq' wc'] w']|] eqn:E.
  - exists 0%nat, p. split; [constructor|]. rewrite Nat.add_0_r, E. split; [done|]. unfold loop_at. cbn [parse_loop].
    unfold turn_at in E. by erewrite bind_run by exact E.
  - destruct (parse_turn_jumps _ _ _ _ _ ver lazy HP _ _ _ _ _ _ _ (tn_calm _ _ _ Ht) E) as [Hq Ho].
    destruct (IH (S t) (AtAgain c' cqe' rsc' srq' wc' w')) as (n & q & Hj & Ht' & Hr); [by eapply turned_step|lia|].
    exists (S n), q. split; [by eapply jumped_step|]. rewrite Nat.add_succ_r. split; [exact Ht'|].
    replace (loop_at (S fuel) ver lazy p) with (loop_at fuel ver lazy (AtAgain c' cqe' rsc' srq' wc' w')); [done|].
    unfold loop_at. cbn [parse_loop]. unfold turn_at in E. by erewrite bind_run by exact E.
  - exists 0%nat, p. split; [constructor|]. rewrite Nat.add_0_r, E. split; [done|]. unfold loop_at. cbn [parse_loop].
    unfold bindM. unfold turn_at in E. by rewrite E.
Qed.

End Again.

(** C34: The jumps of [mlx5_parse_cqe] back to [again] end.  From a completion,
    the function jumps back at most [cqe_mask + 1] times, taking one completion
    off the ring each time (the owner bit changes with every round, so a ring
    whose entries are not written meanwhile has no more of them), and reaches a
    turn that does not jump; what that turn gives is the result: its value and
    state, or none where the turn itself has none (undefined behaviour, or the
    thread freezes on an error).  Receive queues that repost a faulted receive
    must not write into the ring. *)
Theorem parse_cqe_terminates P c cqe rsc srq wc cqe_ver lazy w :
  cq_ok (w_cq w) -> faults_apart (w_cq w) P ->
  (forall a x n o, w_rscs w !! a = Some (RSrq x n o) -> P (so_srq o)) ->
  exists n q, jumped cqe_ver lazy n (AtAgain c cqe rsc srq wc w) q /\ Z.of_nat n <= cqe_mask (w_cq w) + 1 /\
    cons_index (w_cq (a_world q)) = u32 (cons_index (w_cq w) + Z.of_nat n) /\
    match turn_at cqe_ver lazy q with
    | Some (Done r, w') => mlx5_parse_cqe c cqe rsc srq wc cqe_ver lazy w = Some (r, w')
    | Some (Again _ _ _ _ _, _) => False
    | None => mlx5_parse_cqe c cqe rsc srq wc cqe_ver lazy w = None
    end.
Proof.
  intros Hok HP Hs. unfold mlx5_parse_cqe. erewrite bind_run by done.
  assert (Ht : turned (w_cq w) P (cons_index (w_cq w)) 0 w).
  { constructor; [constructor; [|done]| |intros; lia].
    - exists (cons_index (w_cq w)), (lazy_st (w_cq w)). split; [by destruct (w_cq w)|apply Hok].
    - rewrite Z.add_0_r. symmetry. apply wrapu_small, Hok. }
  destruct (co_pow2 _ Hok) as (k & Hk & Hm). pose proof (Z.pow_pos_nonneg 2 k).
  destruct (parse_loop_ends (w_cq w) Hok P (cons_index (w_cq w)) cqe_ver lazy HP (Z.to_nat (cqe_mask (w_cq w) + 2)) 0 (AtAgain c cqe rsc srq wc w))
    as (n & q & Hj & Hn & Hr); [done|lia|].
  exists n, q. split; [done|]. split; [exact (turned_bound _ Hok _ _ _ _ Hn)|]. split; [exact (tn_cons _ _ _ _ _ Hn)|exact Hr].
Qed.

(** A signature error of memory key 2 in entry 3, then a completed request:
    two turns. *)
Definition sample_sig_ring : mem :=
  store_bytes (store_bytes (sample_ring MLX5_OPCODE_RDMA_WRITE MLX5_OPCODE_RDMA_WRITE) (0x9000 + 3 * 64 + 63) [12 * 16])
    (0x9000 + 3 * 64 + 36) [0; 0; 2; 0].
Definition sample_sig_world : world :=
  World sample_sig_ring (with_cons sample_cq 4) {[0xe000 := RQp 7 (sample_qp IBV_QPT_RC 3 0 true) 0]}
    {[0xd000 := SigCtx (SigErr 0 0 0 0 0 0) 0 false false]} [Page 1 [0; 0; 0; 0; 0; 0; 0; 0xe000]] [] [] [Page 1 [0; 0; 0xd000]] 0 0 false.

Lemma parse_cqe_terminates_witness :
  (exists n q p w', jumped false false n (AtAgain (0x9000 + 3 * 64) (0x9000 + 3 * 64) 0 0 no_wc sample_sig_world) q /\ Z.of_nat n <= 4 /\
     mlx5_parse_cqe (0x9000 + 3 * 64) (0x9000 + 3 * 64) 0 0 no_wc false false sample_sig_world = Some (p, w') /\
     turn_at false false q = Some (Done p, w') /\ pr_rc p = CQ_OK /\ cons_index (w_cq w') = 5).
Proof.
  destruct (parse_cqe_terminates (fun _ => False) (0x9000 + 3 * 64) (0x9000 + 3 * 64) 0 0 no_wc false false sample_sig_world)
    as (n & q & Hj & Hn & _ & Hr).
  - constructor; [exists 2; split; [split; discriminate|reflexivity]|left; reflexivity|reflexivity|split; [discriminate|reflexivity]].
  - intros s m i s' m' [].
  - intros a x n o H. unfold sample_sig_world in H. cbn [w_rscs] in H. apply lookup_singleton_Some in H as [_ H]. discriminate.
  - assert (exists p w', mlx5_parse_cqe (0x9000 + 3 * 64) (0x9000 + 3 * 64) 0 0 no_wc false false sample_sig_world = Some (p, w') /\
      pr_rc p = CQ_OK /\ cons_index (w_cq w') = 5) as (p & w' & E & H1 & H2) by (do 2 eexists; split; [vm_compute; reflexivity|split; reflexivity]).
    exists n, q, p, w'. rewrite E in Hr. destruct (turn_at false false q) as [[[p2|] w2]|] eqn:Et; [|done|done].
    injection Hr as <- <-. done.
Defined.

(** ** Inline data of 64 bytes *)

(** An atomic posted by the queue pair has returned its eight bytes inside a
    128-byte completion: they are the first bytes of the entry.  The pointer
    [mlx5_parse_cqe] passes on is one byte before them, for [cqe - 1] is
    computed on a [void] pointer: the buffer of the request gets the last byte
    of the entry before and seven of the eight bytes. *)
Definition sample_cq128 : mlx5_cq :=
  Cq 0x9000 3 128 1 0xa000 5 0 3 0 0 0 (Lazy 0 0 0 0 0 0 0) (Stall false false 0 0 0).
Definition sample_inline (m : mem) : mem :=
  store_bytes (store_bytes m (0x9080 - 1) [0xee; 1; 2; 3; 4; 5; 6; 7; 8])
    (0x9080 + 64 + 56) [MLX5_OPCODE_ATOMIC_CS; 0; 0; 7; 0; 3; 0; MLX5_INLINE_SCATTER_64].
Definition sample_atomic : ibv_send_wr := sample_wr IBV_WR_ATOMIC_CMP_AND_SWP [Sge 0x3000 8 1].

Theorem inline_scatter_64_shifted :
  (r ← _mlx5_post_send sample_ctx (sample_qp IBV_QPT_RC 3 0 true) ∅ [sample_atomic];
   p ← poll_cq 1 [no_wc] false
     (World (sample_inline (sr_mem r)) sample_cq128 {[0xe000 := RQp 7 (sr_qp r) 0]} ∅ [Page 1 [0; 0; 0; 0; 0; 0; 0; 0xe000]]
        [] [] [] 0 0x100 false);
   let '((n, wcs), w') := p in
   Some (n, map wc_status wcs, load_bytes (w_mem w') 0x3000 8)) =
  Some (1, [IBV_WC_SUCCESS], [0xee; 1; 2; 3; 4; 5; 6; 7]).
Proof. vm_compute. reflexivity. Qed.
