(* ===== verification/CqClean.v ===== *)
(** Correctness of [mlx5_cq_clean]: the completions of one queue leave the
    ring, the others move up to the producer index in their order and keep
    the owner bits of the entries they move to.

    Entries are named by their offset from the consumer index. *)

From stdpp Require Import gmap list_numbers.
From S2P Require Import Prelude Bitmap Mem Wqe PostSend PostSendSpec PostRecv Srq Tables Tm Cq CqSpec.

(** ** Specification *)

(** A completion without its owner bit. *)
Definition cqe_data (cq : mlx5_cq) (m : mem) (i : Z) : list Z * Z :=
  (load_bytes m (entry cq i) (Z.to_nat (cqe_sz cq - 1)), Z.land (ld8 m (entry64 cq i + 63)) (notu 8 MLX5_CQE_OWNER_MASK)).

(** The entry at offset [o] from consumer index [c]. *)
Definition at_off (c o : Z) : Z := u32 (c + o).

(** The completions at some offsets. *)
Definition view (cq : mlx5_cq) (m : mem) (c : Z) (os : list Z) : list (list Z * Z) := map (fun o => cqe_data cq m (at_off c o)) os.

(** The completion is about queue [rsn]. *)
Definition mine (cq : mlx5_cq) (cqe_ver : bool) (m : mem) (rsn c o : Z) : bool := rsn =? cqe_key cqe_ver m (entry64 cq (at_off c o)).

(** It is a receive of the shared receive queue. *)
Definition from_srq (cq : mlx5_cq) (cqe_ver : bool) (m : mem) (srq c o : Z) : bool :=
  let a := entry64 cq (at_off c o) in
  negb (srq =? 0) &&
  (if cqe_ver then is_responder (Z.shiftr (ld8 m (a + 63)) 4) else negb (Z.land (ld_be 4 m (a + 32)) 0xffffff =? 0)).

(** The WQEs of a shared receive queue freed in turn. *)
Fixpoint free_all (srq : Z) (ctrs : list Z) (rscs : gmap Z resource) : option (gmap Z resource) :=
  match ctrs with
  | [] => Some rscs
  | ctr :: ctrs =>
    match rscs !! srq with
    | Some (RSrq x n o) => s ← mlx5_free_srq_wqe (so_srq o) ctr; free_all srq ctrs (<[srq := RSrq x n (with_srq o s)]> rscs)
    | _ => None
    end
  end.

Section Clean.
Context (cq : mlx5_cq) (Hok : cq_ok cq) (cqe_ver : bool) (rsn srq : Z) (m0 : mem) (n : Z).
Context (Hn : 0 <= n <= cqe_mask cq).
Abbreviation c := (cons_index cq).

(** The offsets from [j] on that stay, and the WQEs freed from [j] down. *)
Definition kept (j : Z) : list Z := filter (fun o => mine cq cqe_ver m0 rsn c o = false) (seqZ j (n - j)).
Definition freed_ctrs (j : Z) : list Z :=
  map (fun o => ld_be 2 m0 (entry64 cq (at_off c o) + 60))
    (filter (fun o => mine cq cqe_ver m0 rsn c o && from_srq cq cqe_ver m0 srq c o = true) (reverse (seqZ 0 j))).

(** ** Entries *)

Lemma entry_eq o : entry cq (at_off c o) = cq_buf cq + ((c + o) mod (cqe_mask cq + 1)) * cqe_sz cq.
Proof.
  destruct (co_pow2 _ Hok) as (k & Hk & Hm). unfold entry, get_cqe, at_off. replace (cqe_mask cq) with (2 ^ k - 1) by lia.
  rewrite land_mod by lia. replace (2 ^ k - 1 + 1) with (2 ^ k) by lia. do 2 f_equal. unfold wrapu.
  apply Z.mod_mod_divide. exists (2 ^ (32 - k)). rewrite <- Z.pow_add_r by lia. f_equal. lia.
Qed.

Lemma entry64_eq o : entry64 cq (at_off c o) = entry cq (at_off c o) + cqe_sz cq - 64.
Proof. unfold entry64, cqe64_of. destruct (co_sz _ Hok) as [->| ->]; simpl; lia. Qed.

Lemma mask_pos : 0 <= cqe_mask cq < 2 ^ 22.
Proof.
  destruct (co_pow2 _ Hok) as (k & Hk & Hm). pose proof (Z.pow_pos_nonneg 2 k). pose proof (Z.pow_le_mono_r 2 k 22). lia.
Qed.

Lemma entry_range o : cq_buf cq <= entry cq (at_off c o) /\
  entry cq (at_off c o) + cqe_sz cq <= cq_buf cq + (cqe_mask cq + 1) * cqe_sz cq.
Proof.
  pose proof mask_pos. rewrite entry_eq. pose proof (Z.mod_pos_bound (c + o) (cqe_mask cq + 1)).
  destruct (co_sz _ Hok) as [->| ->]; nia.
Qed.

Lemma entry_apart o o' : 0 <= o <= cqe_mask cq -> 0 <= o' <= cqe_mask cq -> o <> o' ->
  entry cq (at_off c o) + cqe_sz cq <= entry cq (at_off c o') \/ entry cq (at_off c o') + cqe_sz cq <= entry cq (at_off c o).
Proof.
  intros Ho Ho' Hne. pose proof mask_pos. rewrite !entry_eq.
  assert ((c + o) mod (cqe_mask cq + 1) <> (c + o') mod (cqe_mask cq + 1)) as Hm.
  { intros E. assert ((o - o') mod (cqe_mask cq + 1) = 0) as H0.
    { replace (o - o') with ((c + o) - (c + o')) by lia. rewrite Zminus_mod, E, Z.sub_diag. apply Zmod_0_l. }
    apply Z.mod_divide in H0 as [q Hq]; [|lia].
    assert (q = 0) by (destruct (Z.lt_trichotomy q 0) as [?|[?|?]]; [nia|done|nia]). nia. }
  destruct (co_sz _ Hok) as [->| ->]; nia.
Qed.

Lemma at_off_off o f : u32 (at_off c o + f) = at_off c (o + f).
Proof. unfold at_off. rewrite wrapu_add_l. f_equal. lia. Qed.

Lemma at_off_pred o : u32 (at_off c o - 1) = at_off c (o - 1).
Proof. rewrite <- Z.add_opp_r, at_off_off. done. Qed.

(** The signed distance of the loop condition. *)
Lemma distance o : -1 <= o <= cqe_mask cq -> i32 (i32 (at_off c o) - i32 c) = o.
Proof.
  intros Ho. pose proof mask_pos. rewrite <- (i32_small o) at 2 by lia. unfold at_off, wrapu, i32.
  replace (((c + o) mod 2 ^ 32 + 2 ^ 31) mod 2 ^ 32 - 2 ^ 31 - ((c + 2 ^ 31) mod 2 ^ 32 - 2 ^ 31) + 2 ^ 31)
    with (((c + o) mod 2 ^ 32 + 2 ^ 31) mod 2 ^ 32 - (c + 2 ^ 31) mod 2 ^ 32 + 2 ^ 31) by lia.
  f_equal. rewrite Zplus_mod_idemp_l, <- Zplus_mod_idemp_l, <- Zminus_mod, Zplus_mod_idemp_l. f_equal. lia.
Qed.

Lemma at_off_inj o o' : 0 <= o <= cqe_mask cq -> 0 <= o' <= cqe_mask cq -> at_off c o = at_off c o' -> o = o'.
Proof. intros Ho Ho' E. rewrite <- (distance o), <- (distance o'), E by lia. done. Qed.

(** ** The sweep *)

(** Offsets from [j] on are done, [f] completions removed, with memory [m]. *)
Record sweep (j f : Z) (m : mem) : Prop := {
  sw_cnt : 0 <= j /\ 0 <= f /\ j + f <= n;
  sw_mem : mem_ok m;
  sw_todo : forall o b, 0 <= o < j \/ n <= o <= cqe_mask cq -> 0 <= b < cqe_sz cq ->
    ld8 m (entry cq (at_off c o) + b) = ld8 m0 (entry cq (at_off c o) + b);
  sw_own : forall o, 0 <= o <= cqe_mask cq ->
    Z.land (ld8 m (entry64 cq (at_off c o) + 63)) MLX5_CQE_OWNER_MASK = Z.land (ld8 m0 (entry64 cq (at_off c o) + 63)) MLX5_CQE_OWNER_MASK;
  sw_kept : view cq m c (seqZ (j + f) (n - (j + f))) = view cq m0 c (kept j);
  sw_frame : same_outside (cq_buf cq) (cq_buf cq + (cqe_mask cq + 1) * cqe_sz cq) m0 m }.

Lemma own_addr o : entry64 cq (at_off c o) + 63 = entry cq (at_off c o) + (cqe_sz cq - 1).
Proof. rewrite entry64_eq. lia. Qed.

(** A completion is determined by the bytes of its entry. *)
Lemma cqe_data_move m m' o o' :
  (forall b, 0 <= b < cqe_sz cq - 1 -> ld8 m' (entry cq (at_off c o') + b) = ld8 m (entry cq (at_off c o) + b)) ->
  Z.land (ld8 m' (entry64 cq (at_off c o') + 63)) (notu 8 MLX5_CQE_OWNER_MASK) =
    Z.land (ld8 m (entry64 cq (at_off c o) + 63)) (notu 8 MLX5_CQE_OWNER_MASK) ->
  cqe_data cq m' (at_off c o') = cqe_data cq m (at_off c o).
Proof.
  intros H Ho. unfold cqe_data. f_equal; [|exact Ho].
  assert (forall k a a', (forall b, 0 <= b < Z.of_nat k -> ld8 m' (a' + b) = ld8 m (a + b)) -> load_bytes m' a' k = load_bytes m a k) as L.
  { induction k as [|k IH]; intros a a' Hb; simpl; [done|]. f_equal.
    - specialize (Hb 0 ltac:(lia)). by rewrite !Z.add_0_r in Hb.
    - apply IH. intros b Hb'. rewrite <- !Z.add_assoc. apply Hb. lia. }
  apply L. intros b Hb. apply H. lia.
Qed.

Lemma key_move m m' o : (forall b, 0 <= b < cqe_sz cq -> ld8 m' (entry cq (at_off c o) + b) = ld8 m (entry cq (at_off c o) + b)) ->
  forall a k, 0 <= a -> a + Z.of_nat k <= 64 -> ld_be k m' (entry64 cq (at_off c o) + a) = ld_be k m (entry64 cq (at_off c o) + a).
Proof.
  intros H a k Ha Hk. apply ld_be_move. intros b Hb. rewrite entry64_eq.
  replace (entry cq (at_off c o) + cqe_sz cq - 64 + a + b) with (entry cq (at_off c o) + (cqe_sz cq - 64 + a + b)) by lia.
  apply H. destruct (co_sz _ Hok) as [E|E]; lia.
Qed.

Lemma kept_cons j : 0 <= j < n ->
  kept j = if mine cq cqe_ver m0 rsn c j then kept (j + 1) else j :: kept (j + 1).
Proof.
  intros Hj. unfold kept. rewrite (seqZ_cons j) by lia. rewrite filter_cons.
  replace (Z.pred (n - j)) with (n - (j + 1)) by lia. change (Z.succ j) with (j + 1).
  destruct (mine _ _ _ _ _ _); by case_decide.
Qed.

Lemma freed_cons j : 0 <= j ->
  freed_ctrs (j + 1) = if mine cq cqe_ver m0 rsn c j && from_srq cq cqe_ver m0 srq c j
                       then ld_be 2 m0 (entry64 cq (at_off c j) + 60) :: freed_ctrs j else freed_ctrs j.
Proof.
  intros Hj. unfold freed_ctrs. rewrite seqZ_app by lia. change (seqZ (0 + j) 1) with [0 + j]. rewrite reverse_app, Z.add_0_l.
  change (reverse [j] ++ reverse (seqZ 0 j)) with (j :: reverse (seqZ 0 j)). rewrite filter_cons. destruct (_ && _); by case_decide.
Qed.

Lemma sweep_drop j f m : sweep (j + 1) f m -> 0 <= j -> mine cq cqe_ver m0 rsn c j = true -> sweep j (f + 1) m.
Proof.
  intros [Hc Hm Ht Ho Hk Hf] Hj Hmine. constructor; try done; try lia.
  - intros o b Ho'. apply Ht. lia.
  - rewrite kept_cons, Hmine by lia. by replace (j + (f + 1)) with (j + 1 + f) by lia.
Qed.

Lemma sweep_keep j m : sweep (j + 1) 0 m -> 0 <= j -> mine cq cqe_ver m0 rsn c j = false -> sweep j 0 m.
Proof.
  intros [Hc Hm Ht Ho Hk Hf] Hj Hmine. constructor; try done; try lia.
  - intros o b Ho'. apply Ht. lia.
  - rewrite kept_cons, Hmine by lia. rewrite (seqZ_cons (j + 0)) by lia. unfold view in *. cbn [map]. f_equal.
    + rewrite Z.add_0_r. apply cqe_data_move; [intros b Hb; apply Ht; lia|]. rewrite own_addr, Ht; [done|lia|].
      destruct (co_sz _ Hok) as [->| ->]; lia.
    + rewrite <- Hk. f_equal. f_equal; lia.
Qed.

(** The byte [move_cqe] writes: the owner bit of the entry, the rest of the
    completion. *)
Lemma own_merge own ob : byte_ok own -> 0 <= ob < 2 ->
  let v := u8 (Z.lor ob (Z.land own (notu 8 MLX5_CQE_OWNER_MASK))) in
  Z.land v (notu 8 MLX5_CQE_OWNER_MASK) = Z.land own (notu 8 MLX5_CQE_OWNER_MASK) /\ Z.land v MLX5_CQE_OWNER_MASK = ob.
Proof.
  intros Ho Hb.
  assert (forallb (fun x => forallb (fun y =>
    let v := u8 (Z.lor y (Z.land x (notu 8 MLX5_CQE_OWNER_MASK))) in
    (Z.land v (notu 8 MLX5_CQE_OWNER_MASK) =? Z.land x (notu 8 MLX5_CQE_OWNER_MASK)) && (Z.land v MLX5_CQE_OWNER_MASK =? y))
    (seqZ 0 2)) (seqZ 0 256) = true) as H by (vm_compute; reflexivity).
  rewrite forallb_forall in H. specialize (H own). rewrite <- list_elem_of_In, elem_of_seqZ in H.
  specialize (H ltac:(unfold byte_ok in Ho; lia)). rewrite forallb_forall in H. specialize (H ob).
  rewrite <- list_elem_of_In, elem_of_seqZ in H. specialize (H ltac:(lia)). apply andb_prop in H as [H1%Z.eqb_eq H2%Z.eqb_eq]. split; [exact H1|exact H2].
Qed.

(** The memory after [move_cqe] from offset [j] to offset [d]. *)
Definition moved (m : mem) (j d : Z) : mem :=
  let m1 := memcpy m (entry cq (at_off c d)) (entry cq (at_off c j)) (cqe_sz cq) in
  st8 m1 (entry64 cq (at_off c d) + 63)
    (Z.lor (Z.land (ld8 m (entry64 cq (at_off c d) + 63)) MLX5_CQE_OWNER_MASK)
       (Z.land (ld8 m1 (entry64 cq (at_off c d) + 63)) (notu 8 MLX5_CQE_OWNER_MASK))).

Lemma moved_out m j d a :
  a < entry cq (at_off c d) \/ entry cq (at_off c d) + cqe_sz cq <= a -> ld8 (moved m j d) a = ld8 m a.
Proof.
  intros Ha. unfold moved. rewrite own_addr. assert (64 <= cqe_sz cq) by (destruct (co_sz _ Hok) as [->| ->]; lia). rewrite ld8_st8_out by lia. apply memcpy_frame; [|lia]. destruct (co_sz _ Hok) as [->| ->]; lia.
Qed.

Lemma moved_data m j d : mem_ok m ->
  cqe_data cq (moved m j d) (at_off c d) = cqe_data cq m (at_off c j) /\
  Z.land (ld8 (moved m j d) (entry64 cq (at_off c d) + 63)) MLX5_CQE_OWNER_MASK =
    Z.land (ld8 m (entry64 cq (at_off c d) + 63)) MLX5_CQE_OWNER_MASK.
Proof.
  intros Hm. assert (64 <= cqe_sz cq) as Hs by (destruct (co_sz _ Hok); lia). unfold moved. cbv zeta.
  set (m1 := memcpy _ _ _ _). set (ob := Z.land (ld8 m _) _).
  assert (0 <= ob < 2) as Hob by (unfold ob; rewrite (land_mod _ 1) by lia; apply Z.mod_pos_bound; lia).
  assert (Hown : ld8 m1 (entry64 cq (at_off c d) + 63) = ld8 m (entry64 cq (at_off c j) + 63)).
  { rewrite !own_addr. apply memcpy_at; [done|lia]. }
  rewrite Hown. destruct (own_merge (ld8 m (entry64 cq (at_off c j) + 63)) ob (Hm _)) as [M1 M2]; [done|].
  rewrite ld8_st8. split; [|exact M2]. apply cqe_data_move.
  - intros b Hb. rewrite own_addr, ld8_st8_out by lia. apply memcpy_at; [done|lia].
  - by rewrite ld8_st8.
Qed.

Lemma sz_range : 64 <= cqe_sz cq.
Proof. destruct (co_sz _ Hok) as [->| ->]; lia. Qed.

Lemma sweep_move j f m : sweep (j + 1) f m -> 0 <= j -> 0 < f -> mine cq cqe_ver m0 rsn c j = false ->
  sweep j f (moved m j (j + f)).
Proof.
  intros [Hc Hm Ht Ho Hk Hf] Hj Hf0 Hmine. pose proof sz_range as Hs.
  assert (Hfar : forall o b, 0 <= o <= cqe_mask cq -> o <> j + f -> 0 <= b < cqe_sz cq ->
    ld8 (moved m j (j + f)) (entry cq (at_off c o) + b) = ld8 m (entry cq (at_off c o) + b)).
  { intros o b Ho' Hne Hb. apply moved_out. pose proof (entry_apart o (j + f)). lia. }
  destruct (moved_data m j (j + f) Hm) as [Hdata Hown]. constructor; try done; try lia.
  - unfold moved. rewrite st8_store. by do 2 apply store_bytes_mem_ok.
  - intros o b Ho' Hb. rewrite Hfar by lia. apply Ht; lia.
  - intros o Ho'. rewrite <- Ho by done. destruct (Z.eq_dec o (j + f)) as [->|Hne]; [done|].
    rewrite own_addr, Hfar by lia. done.
  - rewrite kept_cons, Hmine by lia. rewrite seqZ_cons by lia. unfold view in *. cbn [map]. f_equal.
    + rewrite Hdata. apply cqe_data_move; [intros b Hb; apply Ht; lia|]. rewrite own_addr, Ht by lia. done.
    + rewrite <- Hk. replace (Z.pred (n - (j + f))) with (n - (j + 1 + f)) by lia.
      replace (Z.succ (j + f)) with (j + 1 + f) by lia. apply map_ext_in. intros o Hin%list_elem_of_In%elem_of_seqZ.
      apply cqe_data_move; [intros b Hb; apply Hfar; lia|]. rewrite own_addr, Hfar by lia. done.
  - etrans; [exact Hf|]. intros a Ha. apply moved_out. pose proof (entry_range (j + f)). lia.
Qed.

(** ** The functions *)

Lemma move_cqe_run w j f : w_cq w = cq ->
  move_cqe (at_off c j) f (entry cq (at_off c j)) w = Some (tt, with_wmem w (moved (w_mem w) j (j + f))).
Proof. intros Hw. unfold move_cqe, bindM, the_cq, get, set_mem, upd, op_own, byte. rewrite Hw, at_off_off. done. Qed.

(** What [free_res_cqe] says and frees, in terms of the original memory. *)
Lemma free_res_run w j f ctrs rscs' : w_cq w = cq -> sweep (j + 1) f (w_mem w) -> 0 <= j ->
  (if mine cq cqe_ver m0 rsn c j && from_srq cq cqe_ver m0 srq c j
   then free_all srq (ld_be 2 m0 (entry64 cq (at_off c j) + 60) :: ctrs) (w_rscs w) else free_all srq ctrs (w_rscs w)) = Some rscs' ->
  exists rscs, free_res_cqe (entry64 cq (at_off c j)) rsn srq cqe_ver w = Some (mine cq cqe_ver m0 rsn c j, with_rscs w rscs) /\
    free_all srq ctrs rscs = Some rscs'.
Proof.
  intros Hw Hs Hj Hfree. pose proof sz_range.
  assert (Hsame : forall b, 0 <= b < cqe_sz cq -> ld8 (w_mem w) (entry cq (at_off c j) + b) = ld8 m0 (entry cq (at_off c j) + b)).
  { intros b Hb. apply (sw_todo _ _ _ Hs); lia. }
  assert (Hown : ld8 (w_mem w) (entry64 cq (at_off c j) + 63) = ld8 m0 (entry64 cq (at_off c j) + 63)).
  { rewrite own_addr. apply Hsame. lia. }
  pose proof (key_move _ _ _ Hsame 32 4) as K1. pose proof (key_move _ _ _ Hsame 56 4) as K2. pose proof (key_move _ _ _ Hsame 60 2) as K3.
  specialize (K1 ltac:(lia) ltac:(lia)). specialize (K2 ltac:(lia) ltac:(lia)). specialize (K3 ltac:(lia) ltac:(lia)).
  assert (Hrun : free_res_cqe (entry64 cq (at_off c j)) rsn srq cqe_ver w =
    if mine cq cqe_ver m0 rsn c j
    then ((if from_srq cq cqe_ver m0 srq c j then free_wqe_of srq (entry64 cq (at_off c j)) else ret tt) ;;; ret true)%cq w
    else Some (false, w)).
  { unfold free_res_cqe, is_equal_uidx, is_equal_rsn, srqn_uidx, sop_drop_qpn, mlx5dv_get_cqe_opcode, op_own, be, byte, mine, from_srq, cqe_key, bindM, get, ret.
    destruct cqe_ver; rewrite ?K1, ?K2; destruct (rsn =? _); rewrite ?Hown, ?K1; done. }
  assert (Hid : with_rscs w (w_rscs w) = w) by (by destruct w). rewrite Hrun. destruct (mine _ _ _ _ _ _); cbn [andb] in Hfree.
  2: { exists (w_rscs w). by rewrite Hid. }
  destruct (from_srq _ _ _ _ _ _); [|exists (w_rscs w); by rewrite Hid]. cbn [free_all] in Hfree.
  destruct (w_rscs w !! srq) as [[| x k o|]|] eqn:Er; try done. apply bind_Some in Hfree as (s & Es & Hfree).
  eexists. split; [|exact Hfree]. unfold free_wqe_of.
  erewrite bind_run; [done|]. unfold wqe_counter. erewrite bind_run by done. cbv beta.
  erewrite bind_run by (unfold srq_at, rsc_at, bindM, get, lift; by rewrite Er). cbv beta iota zeta. rewrite K3.
  by erewrite bind_run by (unfold lift; by rewrite Es).
Qed.

Lemma clean_loop_run : forall j fuel w f rscs',
  (j <= fuel)%nat -> w_cq w = cq -> sweep (Z.of_nat j) f (w_mem w) -> free_all srq (freed_ctrs (Z.of_nat j)) (w_rscs w) = Some rscs' ->
  exists f' m', clean_loop fuel (at_off c (Z.of_nat j)) f rsn srq cqe_ver w = Some (f', with_rscs (with_wmem w m') rscs') /\
    sweep 0 f' m'.
Proof.
  induction j as [|j IH]; intros fuel w f rscs' Hfuel Hw Hs Hfree; pose proof mask_pos.
  { injection Hfree as <-. exists f, (w_mem w). split; [|done]. destruct fuel; cbn [clean_loop]; unfold bindM, the_cq, get;
      rewrite Hw, at_off_pred, distance by lia; cbn; by destruct w. }
  destruct fuel as [|fuel]; [lia|]. pose proof (sw_cnt _ _ _ Hs).
  replace (Z.of_nat (S j)) with (Z.of_nat j + 1) in * by lia. rewrite freed_cons in Hfree by lia.
  destruct (free_res_run w (Z.of_nat j) f (freed_ctrs (Z.of_nat j)) rscs') as (rscs & Er & Hfree'); try done; try lia.
  { by destruct (_ && _). }
  cbn [clean_loop]. erewrite bind_run by done. cbv beta zeta.
  rewrite Hw, at_off_pred, distance by lia. replace (Z.of_nat j + 1 - 1) with (Z.of_nat j) by lia.
  destruct (Z.ltb_spec (Z.of_nat j) 0); [lia|].
  change (cqe64_of cq (get_cqe cq (Z.land (at_off c (Z.of_nat j)) (cqe_mask cq)))) with (entry64 cq (at_off c (Z.of_nat j))).
  run Er. destruct (mine _ _ _ _ _ _) eqn:Em.
  - destruct (IH fuel (with_rscs w rscs) (f + 1) rscs') as (f' & m' & E & Hs'); try done; try lia.
    { by apply sweep_drop; [|lia|]. }
    exists f', m'. split; [exact E|done].
  - destruct (Z.eqb_spec f 0) as [->|Hf0]; cbn [negb].
    + erewrite bind_run by done. destruct (IH fuel (with_rscs w rscs) 0 rscs') as (f' & m' & E & Hs'); try done; try lia.
      { by apply sweep_keep; [|lia|]. }
      exists f', m'. split; [exact E|done].
    + erewrite bind_run by (by apply move_cqe_run).
      destruct (IH fuel (with_wmem (with_rscs w rscs) (moved (w_mem w) (Z.of_nat j) (Z.of_nat j + f))) f rscs')
        as (f' & m' & E & Hs'); try done; try lia.
      { apply sweep_move; try done; lia. }
      exists f', m'. split; [exact E|done].
Qed.

(** The search for the producer index, from offset [n - k] on. *)
Lemma find_prod_run w : w_cq w = cq ->
  (forall o, 0 <= o < n -> sw_owned cq (w_mem w) (at_off c o) = true) -> sw_owned cq (w_mem w) (at_off c n) = false ->
  forall k fuel, (k <= fuel)%nat -> Z.of_nat k <= n -> find_prod fuel (at_off c (n - Z.of_nat k)) w = Some (at_off c n, w).
Proof.
  intros Hw Hsw Hhw. induction k as [|k IH]; intros fuel Hfuel Hk.
  - rewrite Z.sub_0_r. destruct fuel; cbn [find_prod]; (erewrite bind_run by (by apply (get_sw_cqe_run cq))); by rewrite Hhw.
  - destruct fuel as [|fuel]; [lia|]. cbn [find_prod]. erewrite bind_run by (by apply (get_sw_cqe_run cq)).
    rewrite Hsw, (proj2 (Z.eqb_neq _ _)) by (lia || apply entry_pos, Hok). erewrite bind_run by done. rewrite Hw.
    change (u32 (c + cqe_mask cq)) with (at_off c (cqe_mask cq)).
    destruct (Z.eqb_spec (at_off c (n - Z.of_nat (S k))) (at_off c (cqe_mask cq))) as [E|_].
    { apply at_off_inj in E; lia. }
    rewrite at_off_off. replace (n - Z.of_nat (S k) + 1) with (n - Z.of_nat k) by lia. apply IH; lia.
Qed.

(** ** The result of a sweep *)

Lemma view_shift m f l : view cq m (at_off c f) (seqZ 0 l) = view cq m c (seqZ f l).
Proof.
  unfold view. replace (seqZ f l) with (Z.add f <$> seqZ 0 l) by (rewrite fmap_add_seqZ; f_equal; lia). generalize (seqZ 0 l). intros os.
  induction os as [|o os IH]; [done|]. cbn. f_equal; [|exact IH]. f_equal. apply at_off_off.
Qed.

Lemma sweep_left f m : sweep 0 f m -> f = n - alen (kept 0).
Proof.
  intros Hs. pose proof (sw_cnt _ _ _ Hs). pose proof (f_equal length (sw_kept _ _ _ Hs)) as H1. unfold view in H1.
  rewrite !length_map, length_seqZ in H1. unfold alen. lia.
Qed.

Lemma opcode_data x : byte_ok x -> Z.shiftr (Z.land x (notu 8 MLX5_CQE_OWNER_MASK)) 4 = Z.shiftr x 4.
Proof.
  intros Hx. rewrite Z.shiftr_land. change (Z.shiftr (notu 8 MLX5_CQE_OWNER_MASK) 4) with (2 ^ 4 - 1). rewrite land_mod by lia.
  apply Z.mod_small. rewrite Z.shiftr_div_pow2 by lia. unfold byte_ok in Hx. split; [apply Z.div_pos; lia|].
  apply Z.div_lt_upper_bound; lia.
Qed.

Lemma sweep_owned f m : mem_ok m0 -> sweep 0 f m ->
  (forall o, 0 <= o < n -> sw_owned cq m0 (at_off c o) = true) -> sw_owned cq m0 (at_off c n) = false ->
  (forall o, f <= o < n -> sw_owned cq m (at_off c o) = true) /\ sw_owned cq m (at_off c n) = false.
Proof.
  intros Hm0 Hs Hsw Hhw. pose proof (sw_cnt _ _ _ Hs). split.
  - intros o Ho. assert (Hin : In (cqe_data cq m (at_off c o)) (view cq m0 c (kept 0))).
    { rewrite <- (sw_kept _ _ _ Hs). apply (in_map (fun o => cqe_data cq m (at_off c o))). apply list_elem_of_In, elem_of_seqZ. lia. }
    apply in_map_iff in Hin as (k & E & Hk). apply list_elem_of_In in Hk. unfold kept in Hk. apply list_elem_of_filter in Hk as [_ Hk].
    apply elem_of_seqZ in Hk. pose proof (Hsw k ltac:(lia)) as H1. pose proof (Hsw o ltac:(lia)) as H2.
    injection E as _ E. apply (f_equal (fun x => Z.shiftr x 4)) in E. rewrite !opcode_data in E by (apply Hm0 || apply Hs).
    unfold sw_owned in *. rewrite (sw_own _ _ _ Hs) by lia. rewrite <- E. apply andb_prop in H1 as [-> _]. by apply andb_prop in H2 as [_ ->].
  - rewrite <- Hhw. unfold sw_owned. rewrite own_addr, (sw_todo _ _ _ Hs); [done|lia|]. pose proof sz_range. lia.
Qed.

Lemma sweep_start : mem_ok m0 -> sweep n 0 m0.
Proof.
  intros Hm. constructor; try done; try lia. unfold kept. rewrite Z.add_0_r, Z.sub_diag. done.
Qed.

(** Memory that agrees on the ring shows the same ring. *)
Lemma ring_ext m m' :
  (forall a, cq_buf cq <= a < cq_buf cq + (cqe_mask cq + 1) * cqe_sz cq -> ld8 m' a = ld8 m a) ->
  (forall os, view cq m' c os = view cq m c os) /\ (forall o, sw_owned cq m' (at_off c o) = sw_owned cq m (at_off c o)).
Proof.
  intros H. pose proof sz_range as Hs.
  assert (He : forall o b, 0 <= b < cqe_sz cq -> ld8 m' (entry cq (at_off c o) + b) = ld8 m (entry cq (at_off c o) + b)).
  { intros o b Hb. apply H. pose proof (entry_range o). lia. }
  split.
  - intros os. apply map_ext. intros o. apply cqe_data_move; [intros b Hb; apply He; lia|]. rewrite own_addr, He by lia. done.
  - intros o. unfold sw_owned. rewrite own_addr, He by lia. done.
Qed.

Lemma clean_rest_run w rscs' : w_cq w = cq -> w_mem w = m0 -> mem_ok m0 ->
  (forall o, 0 <= o < n -> sw_owned cq m0 (at_off c o) = true) -> sw_owned cq m0 (at_off c n) = false ->
  free_all srq (freed_ctrs n) (w_rscs w) = Some rscs' ->
  exists f m', sweep 0 f m' /\
    (prod <~ find_prod (Z.to_nat (cqe_mask cq + 1)) c ;;
     nfreed <~ clean_loop (Z.to_nat (cqe_mask cq + 1)) prod 0 rsn srq cqe_ver ;;
     if negb (nfreed =? 0) then
       upd (fun w => with_wcq w (with_cons (w_cq w) (u32 (cons_index (w_cq w) + nfreed)))) ;;; update_cons_index
     else ret tt)%cq w =
    Some (tt, with_rscs (with_wmem (with_wcq w (with_cons cq (at_off c f)))
                           (if f =? 0 then m' else st_be 4 m' (dbrec cq) (Z.land (at_off c f) 0xffffff))) rscs').
Proof.
  intros Hw Hm Hm0 Hsw Hhw Hfree. rewrite <- Hm in Hsw, Hhw.
  pose proof (find_prod_run w Hw Hsw Hhw (Z.to_nat n) (Z.to_nat (cqe_mask cq + 1)) ltac:(lia) ltac:(lia)) as Ef.
  rewrite Z2Nat.id, Z.sub_diag in Ef by lia.
  assert (Hc0 : at_off c 0 = c) by (unfold at_off; rewrite Z.add_0_r; apply wrapu_small, Hok). rewrite Hc0 in Ef.
  destruct (clean_loop_run (Z.to_nat n) (Z.to_nat (cqe_mask cq + 1)) w 0 rscs') as (f & m' & E & Hs);
    [lia|done|rewrite Z2Nat.id, Hm by lia; by apply sweep_start|by rewrite Z2Nat.id by lia|].
  rewrite Z2Nat.id in E by lia. exists f, m'. split; [done|]. run Ef. run E.
  destruct (Z.eqb_spec f 0) as [->|]; cbn [negb].
  - rewrite Hc0. replace (with_cons cq c) with (w_cq w) by (rewrite Hw; by destruct cq). by destruct w.
  - erewrite bind_run by done. unfold update_cons_index, bindM, the_cq, get, set_mem, upd. cbn. by rewrite Hw.
Qed.

End Clean.

(** The cached queue is forgotten when it is the one cleaned. *)
Lemma forget_cached w rsn : let cur := cur_rsc (lazy_st (w_cq w)) in
  (cur = 0 \/ is_Some (w_rscs w !! cur)) ->
  exists same l, (if cur =? 0 then ret false else r <~ rsc_at cur ;; ret (rsn =? rsn_of r))%cq w = Some (same, w) /\
    (if (same : bool) then mod_lazy (fun l => set_curs l 0 (cur_srq l)) else ret tt) w = Some (tt, with_wcq w (with_lazy (w_cq w) l)) /\
    (forall r, cur_rsc l <> 0 -> w_rscs w !! cur_rsc l = Some r -> rsn_of r <> rsn).
Proof.
  intros cur Hcur. assert (Hid : with_wcq w (with_lazy (w_cq w) (lazy_st (w_cq w))) = w) by (by destruct w as [? [] ????????]).
  destruct (Z.eqb_spec cur 0) as [E|Hne].
  - exists false, (lazy_st (w_cq w)). rewrite Hid. done.
  - destruct Hcur as [?|[r Hr]]; [done|]. unfold bindM, rsc_at, get, lift, bindM. rewrite Hr. cbn.
    destruct (Z.eqb_spec rsn (rsn_of r)) as [E|Hr'].
    + exists true, (set_curs (lazy_st (w_cq w)) 0 (cur_srq (lazy_st (w_cq w)))). done.
    + exists false, (lazy_st (w_cq w)). rewrite Hid. split_and!; try done. intros r' _ Hr''. fold cur in Hr''. congruence.
Qed.

(** C12: [mlx5_cq_clean] on a ring with [n] unread completions, at most one
    less than it has entries: exactly the completions of queue [rsn] are gone;
    the others are the unread completions afterwards, in their order and with
    the owner bits that make them the next ones, and no further entry becomes
    readable.  The consumer index advances by the number of completions
    removed and the doorbell record follows it; the receives of the shared
    receive queue among them are given back; the cached queue is not [rsn];
    and no memory but the ring and the doorbell record changes. *)
Theorem cq_clean_removes w cqe_ver rsn srq n rscs' :
  let cq := w_cq w in
  let ring_end := cq_buf cq + (cqe_mask cq + 1) * cqe_sz cq in
  let ks := kept cq cqe_ver rsn (w_mem w) n 0 in
  cq_ok cq -> mem_ok (w_mem w) -> has (cq_flags (lazy_st cq)) MLX5_CQ_FLAGS_DV_OWNED = false ->
  (cur_rsc (lazy_st cq) = 0 \/ is_Some (w_rscs w !! cur_rsc (lazy_st cq))) -> 0 <= n <= cqe_mask cq ->
  (forall o, 0 <= o < n -> sw_owned cq (w_mem w) (at_off (cons_index cq) o) = true) ->
  sw_owned cq (w_mem w) (at_off (cons_index cq) n) = false ->
  (dbrec cq + 4 <= cq_buf cq \/ ring_end <= dbrec cq) ->
  free_all srq (freed_ctrs cq cqe_ver rsn srq (w_mem w) n) (w_rscs w) = Some rscs' ->
  exists w', mlx5_cq_clean rsn srq cqe_ver w = Some (tt, w') /\ w_rscs w' = rscs' /\
    let cq' := w_cq w' in
    cons_index cq' = at_off (cons_index cq) (n - alen ks) /\
    view cq' (w_mem w') (cons_index cq') (seqZ 0 (alen ks)) = view cq (w_mem w) (cons_index cq) ks /\
    (forall o, 0 <= o < alen ks -> sw_owned cq' (w_mem w') (at_off (cons_index cq') o) = true) /\
    sw_owned cq' (w_mem w') (at_off (cons_index cq') (alen ks)) = false /\
    (alen ks < n -> ld_be 4 (w_mem w') (dbrec cq) = cons_index cq' mod 2 ^ 24) /\
    (forall r, cur_rsc (lazy_st cq') <> 0 -> w_rscs w !! cur_rsc (lazy_st cq') = Some r -> rsn_of r <> rsn) /\
    (forall a, (a < cq_buf cq \/ ring_end <= a) -> (a < dbrec cq \/ dbrec cq + 4 <= a) -> ld8 (w_mem w') a = ld8 (w_mem w) a).
Proof.
  intros cq ring_end ks Hok Hm Hdv Hcur Hn Hsw Hhw Hdb Hfree.
  destruct (forget_cached w rsn Hcur) as (same & l & Esame & El & Hl).
  set (cq1 := with_lazy (w_cq w) l) in *. assert (Hok1 : cq_ok cq1) by (destruct Hok; by constructor).
  destruct (clean_rest_run cq1 Hok1 cqe_ver rsn srq (w_mem w) n Hn (with_wcq w cq1) rscs' eq_refl eq_refl Hm Hsw Hhw Hfree)
    as (f & m' & Hs & Erest).
  pose proof (sweep_left _ _ _ _ _ _ _ Hs : f = n - alen ks) as ->. pose proof (alen_nonneg ks).
  destruct (sweep_owned cq1 Hok1 cqe_ver rsn (w_mem w) n Hn _ _ Hm Hs Hsw Hhw) as [Ho1 Ho2].
  set (m2 := if _ =? 0 then _ else _) in Erest.
  assert (Hm2 : forall a, a < dbrec cq \/ dbrec cq + 4 <= a -> ld8 m2 a = ld8 m' a).
  { intros a Ha. unfold m2. destruct (n - alen ks =? 0); [reflexivity|]. apply ld8_st_be_out. change (dbrec cq1) with (dbrec cq). lia. }
  destruct (ring_ext cq1 Hok1 m' m2) as [Hv Hsw2]; [intros a Ha; change (cq_buf cq <= a < ring_end) in Ha; apply Hm2; lia|].
  eexists. split.
  { unfold mlx5_cq_clean, __mlx5_cq_clean. erewrite bind_run by done. fold cq. rewrite Hdv. run Esame. run El. exact Erest. }
  split; [reflexivity|].
  cbn [w_cq w_mem with_rscs with_wmem with_wcq]. cbv zeta.
  assert (Hoff : forall o, at_off (at_off (cons_index cq) (n - alen ks)) o = at_off (cons_index cq) (n - alen ks + o)).
  { intros o. apply (at_off_off cq1). }
  split_and!.
  - done.
  - etransitivity; [apply (view_shift cq1)|]. rewrite Hv. etransitivity; [|exact (sw_kept _ _ _ _ _ _ _ _ Hs)].
    by replace (n - (0 + (n - alen ks))) with (alen ks) by lia.
  - intros o Ho. change (cons_index (with_cons _ _)) with (at_off (cons_index cq) (n - alen ks)). rewrite Hoff.
    etransitivity; [apply Hsw2|]. apply Ho1. lia.
  - change (cons_index (with_cons _ _)) with (at_off (cons_index cq) (n - alen ks)). rewrite Hoff, Z.sub_add.
    etransitivity; [apply Hsw2|]. exact Ho2.
  - intros Hlt. unfold m2. rewrite (proj2 (Z.eqb_neq _ _)) by lia. etransitivity; [apply ld_be_st_be|].
    rewrite (land_mod _ 24) by lia. apply Z.mod_small.
    match goal with |- 0 <= ?x mod _ < _ => pose proof (Z.mod_pos_bound x (2 ^ 24)) end. lia.
  - exact Hl.
  - intros a Ha Hd. rewrite Hm2 by done. by apply (sw_frame _ _ _ _ _ _ _ _ Hs).
Qed.

(** Completions of queue pairs 9 and 7; those of 7 are removed. *)
Definition sample_mixed : mem :=
  store_bytes (store_bytes ∅ (0x9000 + 3 * 64 + 56) [10; 0; 0; 9; 0; 3; 0; 0]) (0x9000 + 56) [8; 0; 0; 7; 0; 5; 0; 1].

Lemma cq_clean_removes_witness :
  let w := sample_world (sample_qp IBV_QPT_RC 3 0 true) sample_mixed in
  exists w', mlx5_cq_clean 7 0 false w = Some (tt, w') /\ cons_index (w_cq w') = 4 /\
    view (w_cq w') (w_mem w') 4 [0] = view (w_cq w) (w_mem w) 3 [0] /\ sw_owned (w_cq w') (w_mem w') 4 = true.
Proof.
  intros w. destruct (cq_clean_removes w false 7 0 2 (w_rscs w)) as (w' & E & _ & Hc & Hv & Ho & _).
  - exact sample_cq_ok.
  - do 2 apply store_bytes_mem_ok. apply empty_mem_ok.
  - reflexivity.
  - left. reflexivity.
  - split; discriminate.
  - intros o Hr. assert (o = 0 \/ o = 1) as [->| ->] by lia; vm_compute; reflexivity.
  - vm_compute. reflexivity.
  - right. vm_compute. discriminate.
  - vm_compute. reflexivity.
  - replace (kept _ _ _ _ _ _) with [0] in * by (vm_compute; reflexivity).
    change (at_off _ (2 - alen [0])) with 4 in Hc. rewrite Hc in *. exists w'. split; [exact E|]. split; [exact Hc|].
    split; [exact Hv|]. apply (Ho 0). split; reflexivity || discriminate.
Defined.
