(* ===== verification/Crc32.v ===== *)
(** providers/mlx5/dr_crc32.c: the checksum of software steering.

    [dr_crc32_init_table] fills eight tables, [dr_crc32_slice8_calc] uses them
    to take eight bytes at once.  The reference is the definition of the
    reflected CRC with polynomial 0xEDB88320, bit by bit; the theorem says that
    both give the same checksum for every input. *)

From Stdlib Require Import Btauto.
From S2P Require Import Prelude Mem.

Definition DR_STE_CRC_POLY : Z := 0xEDB88320.

(** ** The code *)

Definition tab_get (tbl : list (list Z)) (i j : Z) : option Z := row ← tbl.[i]; row.[j].
Definition tab_set (tbl : list (list Z)) (i j v : Z) : option (list (list Z)) :=
  row ← tbl.[i]; row ← aset row j v; aset tbl i row.

Definition dr_crc32_calc_lookup_entry (i j : Z) (tbl : list (list Z)) : option (list (list Z)) :=
  prev ← tab_get tbl (i - 1) j;
  e ← tab_get tbl 0 (Z.land prev 0xff);
  tab_set tbl i j (Z.lxor (Z.shiftr prev 8) e).

(** The inner loop of the first table, and its body. *)
Definition crc_bit (crc : Z) : Z :=
  if negb (Z.land crc 1 =? 0) then Z.lxor (Z.shiftr crc 1) DR_STE_CRC_POLY else Z.shiftr crc 1.

Definition init_first (i : Z) (tbl : list (list Z)) : option (list (list Z)) :=
  crc ← for_from 8 0 (fun _ crc => Some (crc_bit crc)) i;
  tab_set tbl 0 i crc.

Definition init_others (i : Z) (tbl : list (list Z)) : option (list (list Z)) :=
  for_from 7 1 (fun k tbl => dr_crc32_calc_lookup_entry k i tbl) tbl.

Definition dr_crc32_init_table (tbl : list (list Z)) : option (list (list Z)) :=
  tbl ← for_from 256 0 init_first tbl;
  for_from 256 0 init_others tbl.

(** A 32-bit word of the input, little-endian. *)
Definition read_word (data : list Z) (a : Z) : option Z :=
  b0 ← data.[a]; b1 ← data.[a + 1]; b2 ← data.[a + 2]; b3 ← data.[a + 3];
  Some (Z.lor (Z.lor b0 (Z.shiftl b1 8)) (Z.lor (Z.shiftl b2 16) (Z.shiftl b3 24))).

Definition slice8_step (tbl : list (list Z)) (one two : Z) : option Z :=
  t0 ← tab_get tbl 0 (Z.land (Z.shiftr two 24) 0xff);
  t1 ← tab_get tbl 1 (Z.land (Z.shiftr two 16) 0xff);
  t2 ← tab_get tbl 2 (Z.land (Z.shiftr two 8) 0xff);
  t3 ← tab_get tbl 3 (Z.land two 0xff);
  t4 ← tab_get tbl 4 (Z.land (Z.shiftr one 24) 0xff);
  t5 ← tab_get tbl 5 (Z.land (Z.shiftr one 16) 0xff);
  t6 ← tab_get tbl 6 (Z.land (Z.shiftr one 8) 0xff);
  t7 ← tab_get tbl 7 (Z.land one 0xff);
  Some (Z.lxor (Z.lxor (Z.lxor (Z.lxor (Z.lxor (Z.lxor (Z.lxor t0 t1) t2) t3) t4) t5) t6) t7).

(** The two loops, at address [a] of the input with [length] bytes to go. *)
Fixpoint slice8_loop (fuel : nat) (tbl : list (list Z)) (data : list Z) (a length crc : Z) : option (Z * Z * Z) :=
  if negb (8 <=? length) then Some (a, length, crc) else
  match fuel with
  | O => None
  | S fuel =>
    w1 ← read_word data a;
    w2 ← read_word data (a + 4);
    crc ← slice8_step tbl (Z.lxor w1 crc) w2;
    slice8_loop fuel tbl data (a + 8) (length - 8) crc
  end.

Fixpoint bytes_loop (fuel : nat) (tbl : list (list Z)) (data : list Z) (a length crc : Z) : option Z :=
  if length =? 0 then Some crc else
  match fuel with
  | O => None
  | S fuel =>
    b ← data.[a];
    e ← tab_get tbl 0 (Z.lxor (Z.land crc 0xff) b);
    bytes_loop fuel tbl data (a + 1) (length - 1) (Z.lxor (Z.shiftr crc 8) e)
  end.

(** [None] as input is a null pointer. *)
Definition dr_crc32_slice8_calc (tbl : list (list Z)) (input_data : option (list Z)) (length : Z) : option Z :=
  match input_data with
  | None => Some 0
  | Some data =>
    r ← slice8_loop (Z.to_nat length) tbl data 0 length 0;
    let '(a, length, crc) := r in
    crc ← bytes_loop (Z.to_nat length) tbl data a length crc;
    Some (Z.lor (Z.lor (Z.lor (Z.land (Z.shiftr crc 24) 0xff) (Z.land (shlu 32 crc 8) 0xff0000))
                 (Z.land (Z.shiftr crc 8) 0xff00)) (Z.land (shlu 32 crc 24) 0xff000000))
  end.

(** ** The reference *)

(** The register after eight bits, and after the bytes of a message. *)
Definition crc8 (crc : Z) : Z := Nat.iter 8 crc_bit crc.
Definition crc_byte (crc b : Z) : Z := crc8 (Z.lxor crc b).
Definition crc_fold (data : list Z) (crc : Z) : Z := fold_left crc_byte data crc.
Definition crc_spec (data : list Z) : Z := crc_fold data 0.

(** The bytes of a word in reverse. *)
Definition swap_bytes (x : Z) : Z :=
  (x mod 2 ^ 8) * 2 ^ 24 + (x / 2 ^ 8 mod 2 ^ 8) * 2 ^ 16 + (x / 2 ^ 16 mod 2 ^ 8) * 2 ^ 8 + x / 2 ^ 24.

(** ** Linearity *)

Lemma crc_bit_alt c : crc_bit c = Z.lxor (Z.shiftr c 1) (if Z.odd c then DR_STE_CRC_POLY else 0).
Proof.
  unfold crc_bit. change 1 with (Z.ones 1) at 1. rewrite Z.land_ones by lia. change (2 ^ 1) with 2. rewrite Zmod_odd.
  destruct (Z.odd c); simpl; [done|by rewrite Z.lxor_0_r].
Qed.

Lemma odd_lxor a b : Z.odd (Z.lxor a b) = xorb (Z.odd a) (Z.odd b).
Proof. by rewrite <- !Z.bit0_odd, Z.lxor_spec. Qed.

Lemma lxor_4 a b c d : Z.lxor (Z.lxor a b) (Z.lxor c d) = Z.lxor (Z.lxor a c) (Z.lxor b d).
Proof. apply Z.bits_inj'. intros i _. rewrite !Z.lxor_spec. btauto. Qed.

Lemma crc_bit_lxor a b : crc_bit (Z.lxor a b) = Z.lxor (crc_bit a) (crc_bit b).
Proof.
  rewrite !crc_bit_alt, Z.shiftr_lxor, odd_lxor, lxor_4. f_equal. by destruct (Z.odd a), (Z.odd b).
Qed.

Lemma iter_lxor n a b : Nat.iter n crc_bit (Z.lxor a b) = Z.lxor (Nat.iter n crc_bit a) (Nat.iter n crc_bit b).
Proof. induction n as [|n IH]; [done|]. simpl. by rewrite IH, crc_bit_lxor. Qed.

Lemma crc8_lxor a b : crc8 (Z.lxor a b) = Z.lxor (crc8 a) (crc8 b).
Proof. apply iter_lxor. Qed.

Lemma crc_bit_even x n : 0 <= n -> crc_bit (Z.shiftl x (n + 1)) = Z.shiftl x n.
Proof.
  intros Hn. rewrite crc_bit_alt. rewrite <- Z.bit0_odd, Z.shiftl_spec_low by lia. rewrite Z.lxor_0_r.
  rewrite Z.shiftr_shiftl_l by lia. f_equal. lia.
Qed.

Lemma iter_shift x n : forall k, 0 <= k -> Nat.iter n crc_bit (Z.shiftl x (k + Z.of_nat n)) = Z.shiftl x k.
Proof.
  induction n as [|n IH]; intros k Hk; [simpl; by rewrite Z.add_0_r|]. cbn [Nat.iter nat_rect].
  replace (k + Z.of_nat (S n)) with (k + 1 + Z.of_nat n) by lia. unfold Nat.iter in IH. rewrite IH by lia. by apply crc_bit_even.
Qed.

Lemma crc8_shift x : crc8 (Z.shiftl x 8) = x.
Proof. etrans; [apply (iter_shift x 8 0); lia|apply Z.shiftl_0_r]. Qed.

(** A value as its low byte and the rest. *)
Lemma low_byte_split c : c = Z.lxor (Z.shiftl (Z.shiftr c 8) 8) (Z.land c 0xff).
Proof.
  apply Z.bits_inj'. intros i Hi. change 0xff with (Z.ones 8). rewrite Z.lxor_spec, Z.land_spec.
  destruct (Z.lt_ge_cases i 8).
  - rewrite Z.shiftl_spec_low, Z.ones_spec_low by lia. by rewrite andb_true_r, xorb_false_l.
  - rewrite Z.shiftl_spec, Z.shiftr_spec, Z.ones_spec_high by lia. rewrite andb_false_r, xorb_false_r. f_equal. lia.
Qed.

Lemma crc8_table c : crc8 c = Z.lxor (Z.shiftr c 8) (crc8 (Z.land c 0xff)).
Proof. rewrite (low_byte_split c) at 1. by rewrite crc8_lxor, crc8_shift. Qed.

(** ** Tables *)

(** Entry [j] of table [i] is the register after [i + 1] bytes from [j] on. *)
Definition crc8s (n : nat) (c : Z) : Z := Nat.iter n crc8 c.

Definition table_ok (tbl : list (list Z)) : Prop :=
  forall i j, 0 <= i < 8 -> 0 <= j < 256 -> tab_get tbl i j = Some (crc8s (S (Z.to_nat i)) j).

Definition table_check (tbl : list (list Z)) : bool :=
  forallb (fun i => forallb (fun j => bool_decide (tab_get tbl i j = Some (crc8s (S (Z.to_nat i)) j))) (seqZ 0 256)) (seqZ 0 8).

Lemma table_check_ok tbl : table_check tbl = true -> table_ok tbl.
Proof.
  unfold table_check. rewrite forallb_forall. intros H i j Hi Hj. specialize (H i). rewrite forallb_forall in H.
  eapply bool_decide_eq_true, H; apply list_elem_of_In, elem_of_seqZ; lia.
Qed.

Definition zero_table : list (list Z) := replicate 8 (replicate 256 0).

Definition opt_check (o : option (list (list Z))) : bool := match o with Some tbl => table_check tbl | None => false end.

Lemma opt_check_ok o : opt_check o = true -> exists tbl, o = Some tbl /\ table_ok tbl.
Proof. destruct o as [tbl|]; [|done]. intros H. exists tbl. split; [done|]. by apply table_check_ok. Qed.

Lemma init_checked : opt_check (dr_crc32_init_table zero_table) = true.
Proof. vm_compute. reflexivity. Qed.

Lemma init_table_ok : exists tbl, dr_crc32_init_table zero_table = Some tbl /\ table_ok tbl.
Proof. exact (opt_check_ok _ init_checked). Qed.

(** ** Words *)

Lemma crc8s_lxor n a b : crc8s n (Z.lxor a b) = Z.lxor (crc8s n a) (crc8s n b).
Proof. induction n as [|n IH]; [done|]. unfold crc8s in *. simpl. by rewrite IH, crc8_lxor. Qed.

Lemma crc8s_shift n x : crc8s (S n) (Z.shiftl x 8) = crc8s n x.
Proof. unfold crc8s. rewrite Nat.iter_succ_r. by rewrite crc8_shift. Qed.

(** A word from its bytes, with exclusive ors. *)
Definition word (b0 b1 b2 b3 : Z) : Z := Z.lxor b0 (Z.shiftl (Z.lxor b1 (Z.shiftl (Z.lxor b2 (Z.shiftl b3 8)) 8)) 8).

Lemma lor_byte a b : 0 <= a < 2 ^ 8 -> Z.lor a (Z.shiftl b 8) = Z.lxor a (Z.shiftl b 8).
Proof.
  intros Ha. symmetry. apply Z.lxor_lor. apply Z.bits_inj'. intros i Hi. rewrite Z.land_spec, Z.bits_0.
  destruct (Z.lt_ge_cases i 8); [by rewrite Z.shiftl_spec_low, andb_false_r by lia|]. by rewrite (testbit_high 8 a) by lia.
Qed.

Lemma read_word_spec b0 b1 b2 b3 :
  byte_ok b0 -> byte_ok b1 -> byte_ok b2 ->
  Z.lor (Z.lor b0 (Z.shiftl b1 8)) (Z.lor (Z.shiftl b2 16) (Z.shiftl b3 24)) = word b0 b1 b2 b3.
Proof.
  intros H0 H1 H2. unfold word. rewrite <- !lor_byte by done.
  apply Z.bits_inj'. intros i Hi. rewrite !Z.lor_spec, !Z.shiftl_lor, !Z.lor_spec, !Z.shiftl_shiftl by lia.
  change (8 + (8 + 8)) with 24. change (8 + 16) with 24. change (8 + 8) with 16. change (8 + 16) with 24. btauto.
Qed.

Lemma word_range b0 b1 b2 b3 : byte_ok b0 -> byte_ok b1 -> byte_ok b2 -> byte_ok b3 -> 0 <= word b0 b1 b2 b3 < 2 ^ 32.
Proof.
  assert (H : forall a b w, 0 <= w -> byte_ok a -> 0 <= b < 2 ^ w -> 0 <= Z.lxor a (Z.shiftl b 8) < 2 ^ (w + 8)).
  { intros a b w Hw Ha Hb. apply lxor_range; [lia| |].
    - split; [apply Ha|]. eapply Z.lt_le_trans; [apply Ha|]. change 256 with (2 ^ 8). apply Z.pow_le_mono_r; lia.
    - rewrite Z.shiftl_mul_pow2, Z.pow_add_r by lia. nia. }
  intros H0 H1 H2 H3. apply (H _ _ 24); [lia|done|]. apply (H _ _ 16); [lia|done|]. by apply (H _ _ 8).
Qed.

(** A word taken apart again. *)
Lemma word_split x : 0 <= x < 2 ^ 32 ->
  x = word (Z.land x 0xff) (Z.land (Z.shiftr x 8) 0xff) (Z.land (Z.shiftr x 16) 0xff) (Z.land (Z.shiftr x 24) 0xff).
Proof.
  intros Hx. unfold word. rewrite (low_byte_split x) at 1. rewrite Z.lxor_comm. f_equal. f_equal.
  rewrite (low_byte_split (Z.shiftr x 8)) at 1. rewrite Z.lxor_comm. f_equal. f_equal. rewrite Z.shiftr_shiftr by lia.
  rewrite (low_byte_split (Z.shiftr x (8 + 8))) at 1. rewrite Z.lxor_comm. f_equal. f_equal. rewrite Z.shiftr_shiftr by lia.
  change 0xff with (Z.ones 8). rewrite Z.land_ones by lia. symmetry. apply Z.mod_small.
  change (8 + 8 + 8) with 24. rewrite Z.shiftr_div_pow2 by lia. split; [apply Z.div_pos; lia|]. apply Z.div_lt_upper_bound; lia.
Qed.

(** The register after a word whose first bytes are followed by [n] more. *)
Lemma crc_word n b0 b1 b2 b3 :
  crc8s (4 + n) (word b0 b1 b2 b3) =
  Z.lxor (crc8s (4 + n) b0) (Z.lxor (crc8s (3 + n) b1) (Z.lxor (crc8s (2 + n) b2) (crc8s (1 + n) b3))).
Proof. unfold word. cbn [Nat.add]. by rewrite crc8s_lxor, crc8s_shift, crc8s_lxor, crc8s_shift, crc8s_lxor, crc8s_shift. Qed.

Lemma crc_four c b0 b1 b2 b3 :
  crc_fold [b0; b1; b2; b3] c = crc8s 4 (Z.lxor c (word b0 b1 b2 b3)).
Proof.
  rewrite crc8s_lxor, (crc_word 0). unfold crc_fold. cbn [fold_left]. unfold crc_byte. rewrite !crc8_lxor. unfold crc8s. cbn [Nat.iter nat_rect Nat.add].
  apply Z.bits_inj'. intros i _. rewrite !Z.lxor_spec. btauto.
Qed.

(** ** Loops *)

Lemma crc8_range c : 0 <= c < 2 ^ 32 -> 0 <= crc8 c < 2 ^ 32.
Proof.
  intros Hc. unfold crc8. generalize 8%nat. intros n. induction n as [|n IH]; [done|]. simpl. rewrite crc_bit_alt. apply lxor_range; [lia| |].
  - apply shiftr_range; (done || lia).
  - destruct (Z.odd _); unfold DR_STE_CRC_POLY; lia.
Qed.

Lemma crc_fold_app l1 l2 c : crc_fold (l1 ++ l2) c = crc_fold l2 (crc_fold l1 c).
Proof. apply fold_left_app. Qed.

Lemma crc_fold_range l : forall c, Forall byte_ok l -> 0 <= c < 2 ^ 32 -> 0 <= crc_fold l c < 2 ^ 32.
Proof.
  induction l as [|b l IH]; intros c Hl Hc; [done|]. inv Hl. cbn [crc_fold fold_left]. apply IH; [done|]. apply crc8_range, lxor_range; unfold byte_ok in *; lia.
Qed.

Lemma low_byte_range x : 0 <= Z.land x 0xff < 256.
Proof. change 0xff with (Z.ones 8). rewrite Z.land_ones by lia. apply Z.mod_pos_bound. lia. Qed.

Section Loops.
Context (tbl : list (list Z)) (Ht : table_ok tbl).

Lemma slice8_step_spec one two :
  0 <= one < 2 ^ 32 -> 0 <= two < 2 ^ 32 -> slice8_step tbl one two = Some (crc8s 4 (Z.lxor (crc8s 4 one) two)).
Proof.
  intros H1 H2. unfold slice8_step. rewrite !Ht by (lia || apply low_byte_range). cbn [mbind option_bind]. f_equal.
  rewrite crc8s_lxor. assert (crc8s 4 (crc8s 4 one) = crc8s (4 + 4) one) as -> by (symmetry; apply Nat.iter_add).
  rewrite (word_split one H1) at 5. rewrite (word_split two H2) at 5. rewrite (crc_word 4), (crc_word 0).
  cbn [Nat.add]. repeat match goal with |- context [S (Z.to_nat ?z)] =>
    let n := eval vm_compute in (S (Z.to_nat z)) in change (S (Z.to_nat z)) with n end.
  apply Z.bits_inj'. intros i _. rewrite !Z.lxor_spec.
  by repeat match goal with |- context [Z.testbit (crc8s ?n ?x) i] => destruct (Z.testbit (crc8s n x) i) end.
Qed.

Lemma aget_at (pre : list Z) k b0 rest : 0 <= k -> rest !! Z.to_nat k = Some b0 -> (pre ++ rest).[alen pre + k] = Some b0.
Proof.
  intros Hk Hb. pose proof (alen_nonneg pre). rewrite aget_lookup by lia. unfold alen. rewrite lookup_app_r by lia. rewrite <- Hb. f_equal. lia.
Qed.

Lemma read_word_at pre k b0 b1 b2 b3 rest :
  0 <= k -> Forall byte_ok [b0; b1; b2; b3] -> take 4 (drop (Z.to_nat k) rest) = [b0; b1; b2; b3] ->
  read_word (pre ++ rest) (alen pre + k) = Some (word b0 b1 b2 b3).
Proof.
  intros Hk Hb Hd. assert (Hn : forall j b, [b0; b1; b2; b3] !! j = Some b -> rest !! Z.to_nat (k + Z.of_nat j) = Some b).
  { intros j b Hj. rewrite <- Hd in Hj. apply lookup_take_Some in Hj as [Hj _]. rewrite lookup_drop in Hj. rewrite <- Hj. f_equal. lia. }
  unfold read_word. rewrite <- !Z.add_assoc.
  rewrite (aget_at pre k b0 rest) by (try done; specialize (Hn 0%nat b0 eq_refl); by rewrite Z.add_0_r in Hn).
  rewrite (aget_at pre (k + 1) b1 rest) by (try lia; exact (Hn 1%nat b1 eq_refl)).
  rewrite (aget_at pre (k + 2) b2 rest) by (try lia; exact (Hn 2%nat b2 eq_refl)).
  rewrite (aget_at pre (k + 3) b3 rest) by (try lia; exact (Hn 3%nat b3 eq_refl)).
  cbn [mbind option_bind]. inv Hb. inv H2. inv H4. by rewrite read_word_spec.
Qed.

Lemma slice8_loop_spec n : forall pre rest crc,
  (length rest <= n)%nat -> Forall byte_ok rest -> 0 <= crc < 2 ^ 32 ->
  exists rest1 rest2, rest = rest1 ++ rest2 /\
    slice8_loop n tbl (pre ++ rest) (alen pre) (alen rest) crc = Some (alen (pre ++ rest1), alen rest2, crc_fold rest1 crc).
Proof.
  induction n as [|n IH]; intros pre rest crc Hl Hb Hc; cbn [slice8_loop]; destruct (Z.leb_spec 8 (alen rest)) as [H8|H8]; cbn [negb];
    try (exists [], rest; by rewrite app_nil_r).
  { unfold alen in H8. lia. }
  destruct rest as [|b0 [|b1 [|b2 [|b3 [|b4 [|b5 [|b6 [|b7 rest]]]]]]]]; try (unfold alen in H8; simpl in H8; lia).
  assert (Forall byte_ok [b0; b1; b2; b3] /\ Forall byte_ok [b4; b5; b6; b7] /\ Forall byte_ok rest) as (Hb1 & Hb2 & Hb3).
  { change (Forall byte_ok ([b0; b1; b2; b3] ++ [b4; b5; b6; b7] ++ rest)) in Hb. by rewrite !Forall_app in Hb. }
  set (l := b0 :: _). pose proof (read_word_at pre 0 b0 b1 b2 b3 l ltac:(lia) Hb1 eq_refl) as E1. rewrite Z.add_0_r in E1.
  pose proof (read_word_at pre 4 b4 b5 b6 b7 l ltac:(lia) Hb2 eq_refl) as E2.
  assert (0 <= word b0 b1 b2 b3 < 2 ^ 32 /\ 0 <= word b4 b5 b6 b7 < 2 ^ 32) as [W1 W2].
  { rewrite !Forall_cons in Hb1, Hb2. destruct Hb1 as (? & ? & ? & ? & _), Hb2 as (? & ? & ? & ? & _). split; by apply word_range. }
  destruct (IH (pre ++ [b0; b1; b2; b3; b4; b5; b6; b7]) rest (crc_fold [b4; b5; b6; b7] (crc_fold [b0; b1; b2; b3] crc)))
    as (r1 & r2 & Hr & E); [simpl in Hl; lia|done|by do 2 (apply crc_fold_range; [done|])|].
  exists ([b0; b1; b2; b3; b4; b5; b6; b7] ++ r1), r2. split; [by rewrite <- app_assoc, <- Hr|].
  rewrite E1. cbn [mbind option_bind]. rewrite E2. cbn [mbind option_bind].
  rewrite slice8_step_spec by (try done; by apply lxor_range). cbn [mbind option_bind].
  rewrite (Z.lxor_comm (word b0 b1 b2 b3)), <- !crc_four.
  rewrite <- app_assoc in E. change ([b0; b1; b2; b3; b4; b5; b6; b7] ++ rest) with l in E.
  replace (alen pre + 8) with (alen (pre ++ [b0; b1; b2; b3; b4; b5; b6; b7])) by (unfold alen; rewrite length_app; simpl; lia).
  replace (alen l - 8) with (alen rest) by (unfold l, alen; simpl; lia).
  by rewrite E, <- app_assoc, (crc_fold_app _ r1), (crc_fold_app [b0; b1; b2; b3] [b4; b5; b6; b7]).
Qed.

Lemma bytes_loop_spec rest : forall pre crc n,
  (length rest <= n)%nat -> Forall byte_ok rest -> 0 <= crc < 2 ^ 32 ->
  bytes_loop n tbl (pre ++ rest) (alen pre) (alen rest) crc = Some (crc_fold rest crc).
Proof.
  induction rest as [|b rest IH]; intros pre crc n Hl Hb Hc.
  { by destruct n. }
  destruct n as [|n]; [simpl in Hl; lia|]. cbn [bytes_loop]. inv Hb.
  assert (alen (b :: rest) = alen rest + 1) as Hlen by (unfold alen; cbn [length]; lia). pose proof (alen_nonneg rest).
  rewrite (proj2 (Z.eqb_neq _ 0)) by lia. rewrite <- (Z.add_0_r (alen pre)) at 1. rewrite (aget_at pre 0 b) by done.
  cbn [mbind option_bind]. set (j := Z.lxor (Z.land crc 0xff) b).
  assert (0 <= j < 256) as Hj. { apply (lxor_range 8); [lia|apply low_byte_range|done]. }
  rewrite Ht by lia. cbn [mbind option_bind]. change (crc8s (S (Z.to_nat 0)) j) with (crc8 j).
  assert (Z.lxor (Z.shiftr crc 8) (crc8 j) = crc8 (Z.lxor crc b)) as ->.
  { rewrite (crc8_table (Z.lxor crc b)), Z.shiftr_lxor. unfold byte_ok in *.
    assert (Z.shiftr b 8 = 0) as -> by (rewrite Z.shiftr_div_pow2 by lia; apply Z.div_small; lia).
    rewrite Z.lxor_0_r. do 2 f_equal. unfold j. apply Z.bits_inj'. intros i Hi. change 0xff with (Z.ones 8).
    rewrite !Z.lxor_spec, !Z.land_spec, Z.lxor_spec. destruct (Z.lt_ge_cases i 8).
    - rewrite Z.ones_spec_low by lia. btauto.
    - rewrite Z.ones_spec_high, (testbit_high 8 b) by lia. btauto. }
  rewrite Hlen. replace (alen rest + 1 - 1) with (alen rest) by lia.
  replace (alen pre + 1) with (alen (pre ++ [b])) by (unfold alen; rewrite length_app; simpl; lia).
  replace (pre ++ b :: rest) with ((pre ++ [b]) ++ rest) by (by rewrite <- app_assoc). apply IH; [simpl in Hl; lia|done|].
  apply crc8_range, lxor_range; unfold byte_ok in *; lia.
Qed.
End Loops.

(** ** The result *)

Lemma land_field x k w :
  0 <= k -> 0 <= w -> Z.land x (Z.shiftl (Z.ones w) k) = Z.shiftl (x / 2 ^ k mod 2 ^ w) k.
Proof.
  intros Hk Hw. apply Z.bits_inj'. intros i Hi. rewrite Z.land_spec. destruct (Z.lt_ge_cases i k).
  - by rewrite !Z.shiftl_spec_low, andb_false_r by lia.
  - rewrite !Z.shiftl_spec by lia. rewrite <- Z.land_ones, Z.land_spec, <- Z.shiftr_div_pow2, Z.shiftr_spec by lia. do 2 f_equal. lia.
Qed.

Lemma swap_spec x : 0 <= x < 2 ^ 32 ->
  Z.lor (Z.lor (Z.lor (Z.land (Z.shiftr x 24) 0xff) (Z.land (shlu 32 x 8) 0xff0000))
         (Z.land (Z.shiftr x 8) 0xff00)) (Z.land (shlu 32 x 24) 0xff000000) = swap_bytes x.
Proof.
  intros Hx. unfold shlu, wrapu. rewrite !Z.shiftl_mul_pow2 by lia. rewrite !Z.shiftr_div_pow2 by lia.
  change 0xff0000 with (Z.shiftl (Z.ones 8) 16). change 0xff00 with (Z.shiftl (Z.ones 8) 8).
  change 0xff000000 with (Z.shiftl (Z.ones 8) 24). change 0xff with (Z.shiftl (Z.ones 8) 0). rewrite !land_field by lia.
  rewrite Z.shiftl_0_r. change (2 ^ 0) with 1. rewrite Z.div_1_r.
  assert (x * 2 ^ 8 mod 2 ^ 32 / 2 ^ 16 mod 2 ^ 8 = x / 2 ^ 8 mod 2 ^ 8) as -> by dlia.
  assert (x / 2 ^ 8 / 2 ^ 8 mod 2 ^ 8 = x / 2 ^ 16 mod 2 ^ 8) as -> by dlia.
  assert (x * 2 ^ 24 mod 2 ^ 32 / 2 ^ 24 mod 2 ^ 8 = x mod 2 ^ 8) as -> by dlia.
  assert (x / 2 ^ 24 mod 2 ^ 8 = x / 2 ^ 24) as -> by dlia.
  set (a := x / 2 ^ 24). set (b := x / 2 ^ 8 mod 2 ^ 8). set (c := x / 2 ^ 16 mod 2 ^ 8). set (d := x mod 2 ^ 8).
  assert (0 <= a < 2 ^ 8 /\ 0 <= b < 2 ^ 8 /\ 0 <= c < 2 ^ 8) as (Ha & Hb & Hc) by (unfold a, b, c; split_and!; dlia).
  transitivity (Z.lor (Z.shiftl d 24) (Z.lor (Z.shiftl b 16) (Z.lor (Z.shiftl c 8) a))).
  { apply Z.bits_inj'. intros i Hi. rewrite !Z.lor_spec. btauto. }
  rewrite (lor_shift_add c a 8), (lor_shift_add b _ 16), (lor_shift_add d _ 24) by lia. unfold swap_bytes. fold a b c d. lia.
Qed.

(** C38: With the tables of [dr_crc32_init_table], [dr_crc32_slice8_calc] is the
    bitwise checksum: on every input, of any length, it returns the CRC-32
    register of its bytes (polynomial 0xEDB88320, initial value 0), its bytes
    in reverse order. *)
Theorem crc32_slice8_equiv :
  exists tbl, dr_crc32_init_table zero_table = Some tbl /\
  forall data, Forall byte_ok data ->
    dr_crc32_slice8_calc tbl (Some data) (alen data) = Some (swap_bytes (crc_spec data)).
Proof.
  destruct init_table_ok as (tbl & E & Ht). exists tbl. split; [exact E|]. clear E. intros data Hd. unfold dr_crc32_slice8_calc.
  destruct (slice8_loop_spec tbl Ht (Z.to_nat (alen data)) [] data 0) as (r1 & r2 & Hr & El); [unfold alen; lia|done|lia|].
  change (alen []) with 0 in El. cbn [app] in El. rewrite El. cbn [mbind option_bind]. rewrite Hr in *. apply Forall_app in Hd as [H1 H2].
  assert (0 <= crc_fold r1 0 < 2 ^ 32) by (apply crc_fold_range; [done|lia]).
  rewrite (bytes_loop_spec tbl Ht r2 r1) by (try done; unfold alen; lia). cbn [mbind option_bind]. f_equal.
  unfold crc_spec. rewrite crc_fold_app. apply swap_spec. by apply crc_fold_range.
Qed.

(** The check value of the reflected polynomial for the usual test string,
    with initial value 0. *)
Lemma crc_spec_check : crc_spec [49; 50; 51; 52; 53; 54; 55; 56; 57] = 0x2DFD2D88.
Proof. by vm_compute. Qed.
