(* ===== verification/Fusa.v ===== *)
(** providers/mlx5/qp.c: [mlx5_post_send] with the Fusa hook, in the
    configuration recorder.h selects (__FUSIONCAS and HERD_RPC).

    An atomic request on an address whose slot has credit is turned into a
    64-byte RPC message that is written to the server's memory; without credit
    it goes to the device.  The hook works on the shared region (recorder.h),
    on the caller's work request, which it rewrites in place, on the registered
    RPC buffers and, through [ibv_post_recv] and [_mlx5_post_send], on the
    queue pair.  The message is [rpc_op]; [rpc_slot] and the buffer addresses
    are the hook's address arithmetic. *)

From S2P Require Import Prelude Mem Recorder Wqe PostSend PostSendSpec PostRecv.

(** ** The steps on the shared region *)

Definition with_credit (r : sh_local_region) (v : list Z) : sh_local_region :=
  Region v (records r) (rmeta_ r) (lmeta_ r) (remote_off r) (local_off r) (running r)
    (epoch r) (inflight r) (hotness_bloom r) (local_lock_table r).
Definition with_offs (r : sh_local_region) (ro lo : list Z) : sh_local_region :=
  Region (credit r) (records r) (rmeta_ r) (lmeta_ r) ro lo (running r)
    (epoch r) (inflight r) (hotness_bloom r) (local_lock_table r).
Definition with_running (r : sh_local_region) (v : list Z) : sh_local_region :=
  Region (credit r) (records r) (rmeta_ r) (lmeta_ r) (remote_off r) (local_off r) v
    (epoch r) (inflight r) (hotness_bloom r) (local_lock_table r).
Definition with_epoch (r : sh_local_region) (v : list Z) : sh_local_region :=
  Region (credit r) (records r) (rmeta_ r) (lmeta_ r) (remote_off r) (local_off r) (running r)
    v (inflight r) (hotness_bloom r) (local_lock_table r).

(** [CAS (&cell, &cmp, v)] and [FAA (&cell, 1)] of 64-bit cells. *)
Definition cas (c cmp v : Z) : Z := if c =? cmp then v else c.
Definition faa1 (c : Z) : Z := u64 (c + 1).

Definition mark_running (r : sh_local_region) (idx : Z) : option sh_local_region :=
  v ← amod (running r) idx (fun c => cas c 0 1); Some (with_running r v).
Definition clear_running (r : sh_local_region) (idx : Z) : option sh_local_region :=
  v ← amod (running r) idx (fun c => cas c 1 0); Some (with_running r v).
Definition bump_epoch (r : sh_local_region) (idx : Z) : option sh_local_region :=
  v ← amod (epoch r) idx faa1; Some (with_epoch r v).

(** The counters of the device path and of the RPC path. *)
Definition count_nic (r : sh_local_region) (idx slot : Z) : option sh_local_region :=
  rec ← (records r).[idx];
  cs ← amod (counters rec) slot faa1;
  recs ← aset (records r) idx (Recorder (qpn rec) cs (c_counters rec));
  Some (with_records r recs).
Definition count_rpc (r : sh_local_region) (idx slot : Z) : option sh_local_region :=
  rec ← (records r).[idx];
  cs ← amod (c_counters rec) slot faa1;
  recs ← aset (records r) idx (Recorder (qpn rec) (counters rec) cs);
  Some (with_records r recs).

(** The slot of an address in the strategy and in the counters. *)
Definition counter_idx (remote_addr : Z) : Z :=
  remote_addr mod (MAX_COUNTER_NUM * SLOT_GRANULARITY * 8) / 8.

(** ** RPC buffers *)

Definition sizeof_rpc_op : Z := 64.

(** [x / y] and [x % y] on unsigned integers trap on 0. *)
Definition udiv (x y : Z) : option Z := if y =? 0 then None else Some (x / y).
Definition umod (x y : Z) : option Z := if y =? 0 then None else Some (x mod y).

(** What the hook computes of a slot: the region of a queue pair in the
    server's memory, its capacity, and the pointers of this call. *)
Record rpc_slot := RpcSlot { s_remote : Z; s_recv : Z; s_send : Z }.

Definition rpc_chunk_of (rm : rpc_meta) : option Z :=
  udiv (rm_length rm) (u64 (machine_num rm * MAX_RECORDER_NUM)).
Definition buf_chunk_of (lm : local_rpc_meta) : Z := r_buf_length lm / MAX_RECORDER_NUM.

(** The part of the hook that takes the next slot of the queue pair's remote
    and local rings. *)
Definition take_slot (r : sh_local_region) (idx : Z) : option (rpc_slot * sh_local_region) :=
  let rpc_off := u64 (machine_id (lmeta_ r) * MAX_RECORDER_NUM + idx) in
  rpc_chunk ← rpc_chunk_of (rmeta_ r);
  let max_rpc_num := rpc_chunk / sizeof_rpc_op in
  thread_off ← (remote_off r).[idx];
  next ← umod (u32 (thread_off + 1)) max_rpc_num;
  ro ← aset (remote_off r) idx (u32 next);
  let remote_addr := u64 (rm_rpc_addr (rmeta_ r) + rpc_chunk * rpc_off + sizeof_rpc_op * thread_off) in
  let buf_chunk := buf_chunk_of (lmeta_ r) in
  let max_rpc_num := buf_chunk / sizeof_rpc_op in
  thread_off ← (local_off r).[idx];
  next ← umod (u32 (thread_off + 1)) max_rpc_num;
  lo ← aset (local_off r) idx (u32 next);
  let recv_buf := u64 (rpc_addr (lmeta_ r) + s_buf_length (lmeta_ r) + buf_chunk * idx + sizeof_rpc_op * thread_off) in
  let send_buf := u64 (rpc_addr (lmeta_ r) + buf_chunk * idx + sizeof_rpc_op * thread_off) in
  Some (RpcSlot remote_addr recv_buf send_buf, with_offs r ro lo).

(** The stores into [*send_buf] (an [rpc_op]): offsets 0, 8 and 16 are
    [wr.atomic.remote_addr], [swap] and [cmp], 24 [resp_addr], 32 [qpn], 40
    [opcode], 48 [comp], 56 [crc]. *)
Definition write_rpc_op (m : mem) (send_buf recv_buf qpn machine_id : Z) (w : ibv_send_wr) : mem :=
  let m := if opcode w =? IBV_WR_ATOMIC_CMP_AND_SWP then st_le 8 m (send_buf + 40) CAS_OP_CODE
           else if opcode w =? IBV_WR_ATOMIC_FETCH_AND_ADD then st_le 8 m (send_buf + 40) FAA_OP_CODE
           else m in
  let m := st_le 8 m (send_buf + 16) (atomic_compare_add w) in
  let m := st_le 8 m (send_buf + 8) (atomic_swap w) in
  let m := st_le 8 m (send_buf + 32) (qpn + machine_id * QP_OFF) in
  let m := st_le 8 m send_buf (atomic_remote_addr w) in
  let m := st_le 8 m (send_buf + 24) recv_buf in
  st_le 8 m (send_buf + 56) CRC_CHECK_MAGIC.

(** The caller's request after the rewriting: the first gather entry is the
    message, the union holds the RDMA address and key (the key in the low half
    of the second word), and the request is an unsignaled RDMA write. *)
Definition rpc_wr (w : ibv_send_wr) (sges : list ibv_sge) (remote_addr rkey : Z) : ibv_send_wr :=
  SendWr (wr_id w) sges (num_sge w) IBV_WR_RDMA_WRITE 0 (imm w) remote_addr
    (Z.lor (Z.land (w1 w) (notu 64 (2 ^ 32 - 1))) (u32 rkey)) (w2 w) (w3 w) (remote_srqn w)
    (mw_type w) (mw_rkey w) (bind_rkey w) (bind_info w) (tso_hdr w) (tso_hdr_sz w) (tso_mss w).

(** ** [mlx5_post_send] *)

Record hook_result := HookResult {
  hr_shm : sh_local_region;            (* the shared region *)
  hr_wrs : list ibv_send_wr;           (* the caller's list, rewritten *)
  hr_send : send_result }.             (* error, queue pair, memory, registers *)

Definition to_device (ctx : mlx5_context) (shm : sh_local_region) (qp : mlx5_qp) (m : mem) (wrs : list ibv_send_wr)
  : option hook_result :=
  r ← _mlx5_post_send ctx qp m wrs; Some (HookResult shm wrs r).

(** The RPC branch, entered with the queue pair marked running. *)
Definition to_rpc (ctx : mlx5_context) (shm : sh_local_region) (qp : mlx5_qp) (m : mem)
    (w : ibv_send_wr) (rest : list ibv_send_wr) (idx slot : Z) : option hook_result :=
  sg0 ← (sg_list w).[0];
  shm ← count_rpc shm idx slot;
  r ← take_slot shm idx;
  let '(s, shm) := r in
  (* HERD_RPC: a receive for the answer into the caller's buffer *)
  r ← mlx5_post_recv qp m [RecvWr (wr_id w) [Sge (sg_addr sg0) (sg_length sg0) (sg_lkey sg0)] 1];
  let '(_, _, qp, m) := r in
  let m := write_rpc_op m (s_send s) (s_recv s) (qp_num qp) (machine_id (lmeta_ shm)) w in
  sges ← aset (sg_list w) 0 (Sge (s_send s) sizeof_rpc_op (u32 (lkey (lmeta_ shm))));
  let wrs := rpc_wr w sges (s_remote s) (rkey (rmeta_ shm)) :: rest in
  r ← _mlx5_post_send ctx qp m wrs;
  shm ← clear_running shm idx;
  Some (HookResult shm wrs r).

Definition mlx5_post_send (ctx : mlx5_context) (shm : sh_local_region) (qp : mlx5_qp) (m : mem)
    (wrs : list ibv_send_wr) : option hook_result :=
  match wrs with
  | [] => None
  | w :: rest =>
    if (opcode w =? IBV_WR_ATOMIC_CMP_AND_SWP) || (opcode w =? IBV_WR_ATOMIC_FETCH_AND_ADD) then
      idx ← map_qpn_to_idx (records shm) (qp_num qp) 0;
      shm ← mark_running shm idx;
      shm ← bump_epoch shm idx;
      let slot := counter_idx (atomic_remote_addr w) in
      c ← (credit shm).[slot];
      if c =? 0 then
        shm ← count_nic shm idx slot;
        to_device ctx shm qp m wrs
      else to_rpc ctx shm qp m w rest idx slot
    else to_device ctx shm qp m wrs
  end.

(** ** Vocabulary of the theorems *)

Definition nic_count (r : sh_local_region) (i s : Z) : option Z := rec ← (records r).[i]; (counters rec).[s].
Definition rpc_count (r : sh_local_region) (i s : Z) : option Z := rec ← (records r).[i]; (c_counters rec).[s].

(** Cell [(i, s)] of a table of counters was incremented, every other is as
    before. *)
Definition bumped (f f' : Z -> Z -> option Z) (i s : Z) : Prop :=
  f' i s = faa1 <$> f i s /\ forall i' s', (i', s') <> (i, s) -> f' i' s' = f i' s'.

(** Region metadata under which the RPC path can run: as the agent fills it
    in, with the server's region and the client's buffers large enough for one
    message per queue pair, inside the address space, and ring offsets in
    range. *)
Record rpc_ready (r : sh_local_region) : Prop := {
  rr_ok : region_ok r;
  rr_machine : 0 <= machine_id (lmeta_ r) < machine_num (rmeta_ r);
  rr_num : machine_num (rmeta_ r) * MAX_RECORDER_NUM < 2 ^ 64;
  rr_remote : 0 <= rm_rpc_addr (rmeta_ r) /\ 0 <= rm_length (rmeta_ r) /\
              rm_rpc_addr (rmeta_ r) + rm_length (rmeta_ r) < 2 ^ 64;
  rr_local : 0 <= rpc_addr (lmeta_ r) /\ 0 <= r_buf_length (lmeta_ r) <= s_buf_length (lmeta_ r) /\
             rpc_addr (lmeta_ r) + s_buf_length (lmeta_ r) + r_buf_length (lmeta_ r) < 2 ^ 64;
  rr_chunk : exists chunk, rpc_chunk_of (rmeta_ r) = Some chunk /\ 0 < chunk / sizeof_rpc_op <= 2 ^ 32;
  rr_buf : 0 < buf_chunk_of (lmeta_ r) / sizeof_rpc_op <= 2 ^ 32;
  rr_roff : forall i off chunk, (remote_off r).[i] = Some off -> rpc_chunk_of (rmeta_ r) = Some chunk ->
            0 <= off < chunk / sizeof_rpc_op;
  rr_loff : forall i off, (local_off r).[i] = Some off -> 0 <= off < buf_chunk_of (lmeta_ r) / sizeof_rpc_op }.

(** What the server announces to every client alike. *)
Definition same_server (m1 m2 : rpc_meta) : Prop :=
  rm_rpc_addr m1 = rm_rpc_addr m2 /\ rm_length m1 = rm_length m2 /\ machine_num m1 = machine_num m2.

(** The slots of the rings of queue pair [idx] at offset [off]. *)
Definition remote_slot (r : sh_local_region) (chunk idx off : Z) : Z :=
  rm_rpc_addr (rmeta_ r) + chunk * (machine_id (lmeta_ r) * MAX_RECORDER_NUM + idx) + sizeof_rpc_op * off.
Definition local_slot (r : sh_local_region) (idx off : Z) : Z :=
  rpc_addr (lmeta_ r) + buf_chunk_of (lmeta_ r) * idx + sizeof_rpc_op * off.

(** Taking [n] slots in a row. *)
Fixpoint take_slots (n : nat) (r : sh_local_region) (idx : Z) : option (list rpc_slot * sh_local_region) :=
  match n with
  | O => Some ([], r)
  | S n' =>
    x ← take_slot r idx;
    y ← take_slots n' (snd x) idx;
    Some (fst x :: fst y, snd y)
  end.

(** An [rpc_op] as the server reads it. *)
Record rpc_op := RpcOp {
  op_remote_addr : Z; op_swap : Z; op_cmp : Z; op_resp_addr : Z; op_qpn : Z; op_opcode : Z; op_crc : Z }.

Definition read_rpc_op (m : mem) (a : Z) : rpc_op :=
  RpcOp (ld_le 8 m a) (ld_le 8 m (a + 8)) (ld_le 8 m (a + 16)) (ld_le 8 m (a + 24)) (ld_le 8 m (a + 32))
    (ld_le 8 m (a + 40)) (ld_le 8 m (a + 56)).

(** ** Slots *)

Lemma amod_lookup {A} (l l' : list A) i f j :
  amod l i f = Some l' -> l'.[j] = if i =? j then f <$> l.[i] else l.[j].
Proof.
  unfold amod. intros H. apply bind_Some in H as (x & Hx & H). rewrite (aget_aset _ _ _ j _ H).
  destruct (i =? j); [|done]. by rewrite Hx.
Qed.

(** Stepping a 32-bit ring offset. *)
Lemma next_off off n : 0 <= off < n -> n <= 2 ^ 32 ->
  umod (u32 (off + 1)) n = Some ((off + 1) mod n) /\ u32 ((off + 1) mod n) = (off + 1) mod n.
Proof.
  intros Ho Hn. unfold umod. rewrite (proj2 (Z.eqb_neq n 0)) by lia.
  pose proof (Z.mod_pos_bound (off + 1) n). split; [|apply wrapu_small; lia]. f_equal.
  destruct (Z.eq_dec (off + 1) (2 ^ 32)) as [E|].
  - assert (n = 2 ^ 32) as -> by lia. unfold wrapu. by rewrite Z.mod_mod by lia.
  - by rewrite wrapu_small by lia.
Qed.

(** The product bound behind the slot arithmetic: slot [off] of ring [i] of
    [n] rings of [c] bytes. *)
Lemma slot_in c i n off len :
  0 <= c -> 0 <= i < n -> c * n <= len -> 0 <= off < c / sizeof_rpc_op ->
  0 <= c * i + sizeof_rpc_op * off /\ c * i + sizeof_rpc_op * off + sizeof_rpc_op <= len.
Proof.
  unfold sizeof_rpc_op. intros Hc Hi Hl Ho. pose proof (Z.mul_div_le c 64 ltac:(lia)).
  assert (c * (i + 1) <= c * n) by (apply Z.mul_le_mono_nonneg_l; lia). split; [|nia].
  apply Z.add_nonneg_nonneg; [apply Z.mul_nonneg_nonneg; lia|lia].
Qed.

Section Slot.
Context (r : sh_local_region) (Hr : rpc_ready r) (idx : Z) (Hidx : 0 <= idx < MAX_RECORDER_NUM).

Lemma chunk_room chunk :
  rpc_chunk_of (rmeta_ r) = Some chunk ->
  0 <= chunk /\ chunk * (machine_num (rmeta_ r) * MAX_RECORDER_NUM) <= rm_length (rmeta_ r).
Proof.
  unfold rpc_chunk_of, udiv. pose proof (rr_num _ Hr). pose proof (rr_machine _ Hr). destruct (rr_remote _ Hr) as (_ & ? & _).
  rewrite wrapu_small by (unfold MAX_RECORDER_NUM in *; lia).
  rewrite (proj2 (Z.eqb_neq _ 0)) by (unfold MAX_RECORDER_NUM; lia). intros [= <-].
  assert (0 < machine_num (rmeta_ r) * MAX_RECORDER_NUM) by (unfold MAX_RECORDER_NUM; lia). split.
  - by apply Z.div_pos.
  - rewrite Z.mul_comm. by apply Z.mul_div_le.
Qed.

(** Every remote slot lies in the server's region. *)
Lemma remote_slot_in chunk off :
  rpc_chunk_of (rmeta_ r) = Some chunk -> 0 <= off < chunk / sizeof_rpc_op ->
  rm_rpc_addr (rmeta_ r) <= remote_slot r chunk idx off /\
  remote_slot r chunk idx off + sizeof_rpc_op <= rm_rpc_addr (rmeta_ r) + rm_length (rmeta_ r).
Proof.
  intros Ec Ho. destruct (chunk_room _ Ec) as [Hc Hl]. pose proof (rr_machine _ Hr).
  unfold MAX_RECORDER_NUM in *.
  destruct (slot_in chunk (machine_id (lmeta_ r) * 32 + idx) (machine_num (rmeta_ r) * 32) off (rm_length (rmeta_ r)));
    try done; try lia. unfold remote_slot, MAX_RECORDER_NUM. lia.
Qed.

(** Every local slot lies in the first [r_buf_length] bytes of its buffer. *)
Lemma local_slot_in off :
  0 <= off < buf_chunk_of (lmeta_ r) / sizeof_rpc_op ->
  rpc_addr (lmeta_ r) <= local_slot r idx off /\
  local_slot r idx off + sizeof_rpc_op <= rpc_addr (lmeta_ r) + r_buf_length (lmeta_ r).
Proof.
  intros Ho. destruct (rr_local _ Hr) as (_ & Hl & _). unfold local_slot.
  destruct (slot_in (buf_chunk_of (lmeta_ r)) idx MAX_RECORDER_NUM off (r_buf_length (lmeta_ r))); try done; try lia.
  - unfold buf_chunk_of. apply Z.div_pos; [lia|done].
  - unfold buf_chunk_of. rewrite Z.mul_comm. by apply Z.mul_div_le.
Qed.

Lemma take_slot_spec :
  exists chunk off off' ro lo,
    rpc_chunk_of (rmeta_ r) = Some chunk /\
    (remote_off r).[idx] = Some off /\ 0 <= off < chunk / sizeof_rpc_op /\
    (local_off r).[idx] = Some off' /\ 0 <= off' < buf_chunk_of (lmeta_ r) / sizeof_rpc_op /\
    aset (remote_off r) idx ((off + 1) mod (chunk / sizeof_rpc_op)) = Some ro /\
    aset (local_off r) idx ((off' + 1) mod (buf_chunk_of (lmeta_ r) / sizeof_rpc_op)) = Some lo /\
    take_slot r idx =
      Some (RpcSlot (remote_slot r chunk idx off) (local_slot r idx off' + s_buf_length (lmeta_ r)) (local_slot r idx off'),
            with_offs r ro lo).
Proof.
  destruct (rr_chunk _ Hr) as (chunk & Ec & Hm). pose proof (rr_ok _ Hr) as Hok. pose proof (rr_buf _ Hr) as Hm'.
  destruct (aget_is_Some (remote_off r) idx) as [off Eo]; [by rewrite (remote_off_len _ Hok)|].
  destruct (aget_is_Some (local_off r) idx) as [off' Eo']; [by rewrite (local_off_len _ Hok)|].
  pose proof (rr_roff _ Hr _ _ _ Eo Ec) as Ho. pose proof (rr_loff _ Hr _ _ Eo') as Ho'.
  pose proof (remote_slot_in chunk off Ec Ho) as [Hs1 Hs2]. pose proof (local_slot_in off' Ho') as [Hl1 Hl2].
  destruct (next_off off (chunk / sizeof_rpc_op) Ho ltac:(lia)) as [N1 N2].
  destruct (next_off off' (buf_chunk_of (lmeta_ r) / sizeof_rpc_op) Ho' ltac:(lia)) as [N1' N2'].
  pose proof (rr_remote _ Hr) as (? & ? & ?). pose proof (rr_local _ Hr) as (? & ? & ?).
  pose proof (rr_machine _ Hr). pose proof (rr_num _ Hr).
  eexists chunk, off, off', _, _. split_and!; try done; try lia.
  1,2: apply aset_Some; by rewrite ?(remote_off_len _ Hok), ?(local_off_len _ Hok).
  unfold take_slot. rewrite Ec. cbn [mbind option_bind]. rewrite Eo. cbn [mbind option_bind]. rewrite N1.
  cbn [mbind option_bind]. rewrite N2. rewrite aset_Some by (by rewrite (remote_off_len _ Hok)).
  cbn [mbind option_bind]. rewrite Eo'. cbn [mbind option_bind]. rewrite N1'. cbn [mbind option_bind]. rewrite N2'.
  rewrite aset_Some by (by rewrite (local_off_len _ Hok)). cbn [mbind option_bind].
  unfold remote_slot, local_slot, sizeof_rpc_op, MAX_RECORDER_NUM in *.
  rewrite (wrapu_small 64 (machine_id (lmeta_ r) * 32 + idx)) by lia.
  rewrite !wrapu_small by lia. do 3 f_equal. lia.
Qed.
End Slot.

Lemma with_offs_ready r idx n n' ro lo :
  rpc_ready r -> aset (remote_off r) idx n = Some ro -> aset (local_off r) idx n' = Some lo ->
  (forall chunk, rpc_chunk_of (rmeta_ r) = Some chunk -> 0 <= n < chunk / sizeof_rpc_op) ->
  0 <= n' < buf_chunk_of (lmeta_ r) / sizeof_rpc_op -> rpc_ready (with_offs r ro lo).
Proof.
  intros Hr Er El Hn Hn'. destruct Hr as [Hok ? ? ? ? ? ? Hro Hlo]. constructor; try done.
  - destruct Hok. constructor; try done; cbn; by rewrite ?(aset_alen _ _ _ _ Er), ?(aset_alen _ _ _ _ El).
  - cbn. intros i off chunk Hi Hc. rewrite (aget_aset _ _ _ i _ Er) in Hi. destruct (idx =? i); [inv Hi|]; eauto.
  - cbn. intros i off Hi. rewrite (aget_aset _ _ _ i _ El) in Hi. destruct (idx =? i); [inv Hi; done|]; eauto.
Qed.

Lemma take_slot_ready r idx s r' :
  rpc_ready r -> 0 <= idx < MAX_RECORDER_NUM -> take_slot r idx = Some (s, r') -> rpc_ready r'.
Proof.
  intros Hr Hi H. destruct (take_slot_spec r Hr idx Hi) as (chunk & off & off' & ro & lo & Ec & _ & Ho & _ & Ho' & Er & El & E).
  rewrite E in H. inv H. eapply with_offs_ready; try done.
  - intros chunk' Ec'. rewrite Ec in Ec'. inv Ec'. apply Z.mod_pos_bound. lia.
  - apply Z.mod_pos_bound. lia.
Qed.

Lemma mod_succ_add a k n : 0 < n -> ((a + 1) mod n + k) mod n = (a + (1 + k)) mod n.
Proof. intros. rewrite Z.add_mod_idemp_l by lia. f_equal. lia. Qed.

(** The slots of [n] calls in a row. *)
Lemma take_slots_spec n idx : forall r chunk off off',
  rpc_ready r -> 0 <= idx < MAX_RECORDER_NUM -> rpc_chunk_of (rmeta_ r) = Some chunk ->
  (remote_off r).[idx] = Some off -> (local_off r).[idx] = Some off' ->
  exists ss r', take_slots n r idx = Some (ss, r') /\ length ss = n /\
    forall k s, ss !! k = Some s ->
      s_remote s = remote_slot r chunk idx ((off + Z.of_nat k) mod (chunk / sizeof_rpc_op)) /\
      s_send s = local_slot r idx ((off' + Z.of_nat k) mod (buf_chunk_of (lmeta_ r) / sizeof_rpc_op)).
Proof.
  induction n as [|n IH]; intros r chunk off off' Hr Hi Hc Ho Ho'; [by exists [], r|].
  destruct (take_slot_spec r Hr idx Hi) as (c1 & o1 & o1' & ro & lo & Ec & Eo & Hlt & Eo' & Hlt' & Er & El & E).
  assert (c1 = chunk) as -> by congruence. assert (o1 = off) as -> by congruence.
  assert (o1' = off') as -> by congruence.
  pose proof (take_slot_ready _ _ _ _ Hr Hi E) as Hr1.
  destruct (IH (with_offs r ro lo) chunk ((off + 1) mod (chunk / sizeof_rpc_op))
              ((off' + 1) mod (buf_chunk_of (lmeta_ r) / sizeof_rpc_op))) as (ss & r' & E' & Hl & Hs); try done.
  { by eapply aget_aset_eq. }
  { by eapply aget_aset_eq. }
  eexists _, r'. cbn [take_slots]. rewrite E. cbn [mbind option_bind snd fst]. rewrite E'. cbn [mbind option_bind snd fst].
  split; [done|]. split; [by rewrite <- Hl|]. intros [|k] s Hk; cbn in Hk.
  - inv Hk. cbn [s_remote s_send]. by rewrite !Z.add_0_r, !Z.mod_small by lia.
  - destruct (Hs _ _ Hk) as [-> ->]. change (lmeta_ (with_offs r ro lo)) with (lmeta_ r).
    rewrite !mod_succ_add by lia. by replace (Z.of_nat (S k)) with (1 + Z.of_nat k) by lia.
Qed.

Lemma ring_ne off i j n :
  Z.of_nat i < n -> Z.of_nat j < n -> i <> j -> (off + Z.of_nat i) mod n <> (off + Z.of_nat j) mod n.
Proof.
  intros Hi Hj Hij. destruct (Nat.lt_total i j) as [Hlt|[?|Hlt]]; [|done|].
  - replace (off + Z.of_nat j) with (off + Z.of_nat i + Z.of_nat (j - i)) by lia. apply not_eq_sym, mod_ne. lia.
  - replace (off + Z.of_nat i) with (off + Z.of_nat j + Z.of_nat (i - j)) by lia. apply mod_ne. lia.
Qed.

(** Slots of different rings, or of one ring at different offsets, are 64 bytes
    apart. *)
Lemma slots_apart c x y off off' :
  0 <= c -> 0 <= off < c / sizeof_rpc_op -> 0 <= off' < c / sizeof_rpc_op -> (x, off) <> (y, off') ->
  c * x + sizeof_rpc_op * off + sizeof_rpc_op <= c * y + sizeof_rpc_op * off' \/
  c * y + sizeof_rpc_op * off' + sizeof_rpc_op <= c * x + sizeof_rpc_op * off.
Proof.
  unfold sizeof_rpc_op. intros Hc Ho Ho' Hne. pose proof (Z.mul_div_le c 64 ltac:(lia)).
  destruct (Z.lt_trichotomy x y) as [Hl|[->|Hl]].
  - left. assert (c * (x + 1) <= c * y) by (apply Z.mul_le_mono_nonneg_l; lia). lia.
  - assert (off <> off') by congruence. lia.
  - right. assert (c * (y + 1) <= c * x) by (apply Z.mul_le_mono_nonneg_l; lia). lia.
Qed.

(** ** The steps of the hook on the region *)

Lemma mark_running_spec r idx :
  region_ok r -> 0 <= idx < MAX_RECORDER_NUM ->
  exists c v, (running r).[idx] = Some c /\ aset (running r) idx (cas c 0 1) = Some v /\
    mark_running r idx = Some (with_running r v) /\ region_ok (with_running r v).
Proof.
  intros Hok Hi. destruct (amod_Some (running r) idx (fun c => cas c 0 1)) as (c & v & Ec & Ev & Em).
  { by rewrite (running_len _ Hok). }
  exists c, v. unfold mark_running. rewrite Em. split_and!; try done.
  destruct Hok; constructor; try done. cbn. by rewrite (aset_alen _ _ _ _ Ev).
Qed.

Lemma clear_running_spec r idx :
  region_ok r -> 0 <= idx < MAX_RECORDER_NUM ->
  exists c v, (running r).[idx] = Some c /\ aset (running r) idx (cas c 1 0) = Some v /\
    clear_running r idx = Some (with_running r v) /\ region_ok (with_running r v).
Proof.
  intros Hok Hi. destruct (amod_Some (running r) idx (fun c => cas c 1 0)) as (c & v & Ec & Ev & Em).
  { by rewrite (running_len _ Hok). }
  exists c, v. unfold clear_running. rewrite Em. split_and!; try done.
  destruct Hok; constructor; try done. cbn. by rewrite (aset_alen _ _ _ _ Ev).
Qed.

Lemma bump_epoch_spec r idx :
  region_ok r -> 0 <= idx < MAX_RECORDER_NUM ->
  exists c v, (epoch r).[idx] = Some c /\ aset (epoch r) idx (faa1 c) = Some v /\
    bump_epoch r idx = Some (with_epoch r v) /\ region_ok (with_epoch r v).
Proof.
  intros Hok Hi. destruct (amod_Some (epoch r) idx faa1) as (c & v & Ec & Ev & Em).
  { by rewrite (epoch_len _ Hok). }
  exists c, v. unfold bump_epoch. rewrite Em. split_and!; try done.
  destruct Hok; constructor; try done. cbn. by rewrite (aset_alen _ _ _ _ Ev).
Qed.

Lemma record_at r idx :
  region_ok r -> 0 <= idx < MAX_RECORDER_NUM -> exists rec, (records r).[idx] = Some rec /\ recorder_ok rec.
Proof.
  intros Hok Hi. destruct (aget_is_Some (records r) idx) as [rec Er]; [by rewrite (records_len _ Hok)|].
  exists rec. split; [done|]. by eapply aget_Forall; [apply Hok|].
Qed.

(** Replacing a recorder by one of the same queue pair keeps the shape. *)
Lemma with_record_ok r recs idx rec :
  region_ok r -> aset (records r) idx rec = Some recs -> recorder_ok rec -> region_ok (with_records r recs).
Proof.
  intros Hok E Hrec. destruct Hok; constructor; try done; cbn.
  - by rewrite (aset_alen _ _ _ _ E).
  - by eapply aset_Forall.
Qed.

Lemma count_nic_spec r idx s :
  region_ok r -> 0 <= idx < MAX_RECORDER_NUM -> 0 <= s < NR_SLOTS ->
  exists recs, count_nic r idx s = Some (with_records r recs) /\ region_ok (with_records r recs) /\
    bumped (nic_count r) (nic_count (with_records r recs)) idx s /\
    (forall i j, rpc_count (with_records r recs) i j = rpc_count r i j) /\
    (forall i, qpn_at recs i = qpn_at (records r) i).
Proof.
  intros Hok Hi Hs. destruct (record_at r idx Hok Hi) as (rec & Er & Hrec & Hrec').
  destruct (amod_Some (counters rec) s faa1) as (c & cs & Ec & Ecs & Em); [by rewrite Hrec|].
  assert (exists recs, aset (records r) idx (Recorder (qpn rec) cs (c_counters rec)) = Some recs) as [recs Es].
  { eexists. apply aset_Some. by rewrite (records_len _ Hok). }
  exists recs. unfold count_nic. rewrite Er. cbn [mbind option_bind]. rewrite Em. cbn [mbind option_bind]. rewrite Es.
  split_and!; [done| | | |].
  - eapply with_record_ok; [done|done|]. split; [cbn; by rewrite (aset_alen _ _ _ _ Ecs)|done].
  - split.
    + unfold nic_count. cbn. rewrite (aget_aset_eq _ _ _ _ Es), Er. cbn. by rewrite (aget_aset_eq _ _ _ _ Ecs), Ec.
    + intros i j Hne. unfold nic_count. cbn. rewrite (aget_aset _ _ _ i _ Es).
      destruct (Z.eqb_spec idx i) as [<-|]; [|done]. rewrite Er. cbn. eapply aget_aset_ne; [done|congruence].
  - intros i j. unfold rpc_count. cbn. rewrite (aget_aset _ _ _ i _ Es).
    destruct (Z.eqb_spec idx i) as [<-|]; [|done]. by rewrite Er.
  - intros i. unfold qpn_at. rewrite (aget_aset _ _ _ i _ Es).
    destruct (Z.eqb_spec idx i) as [<-|]; [|done]. by rewrite Er.
Qed.

Lemma count_rpc_spec r idx s :
  region_ok r -> 0 <= idx < MAX_RECORDER_NUM -> 0 <= s < NR_SLOTS ->
  exists recs, count_rpc r idx s = Some (with_records r recs) /\ region_ok (with_records r recs) /\
    bumped (rpc_count r) (rpc_count (with_records r recs)) idx s /\
    (forall i j, nic_count (with_records r recs) i j = nic_count r i j) /\
    (forall i, qpn_at recs i = qpn_at (records r) i).
Proof.
  intros Hok Hi Hs. destruct (record_at r idx Hok Hi) as (rec & Er & Hrec & Hrec').
  destruct (amod_Some (c_counters rec) s faa1) as (c & cs & Ec & Ecs & Em); [by rewrite Hrec'|].
  assert (exists recs, aset (records r) idx (Recorder (qpn rec) (counters rec) cs) = Some recs) as [recs Es].
  { eexists. apply aset_Some. by rewrite (records_len _ Hok). }
  exists recs. unfold count_rpc. rewrite Er. cbn [mbind option_bind]. rewrite Em. cbn [mbind option_bind]. rewrite Es.
  split_and!; [done| | | |].
  - eapply with_record_ok; [done|done|]. split; [done|cbn; by rewrite (aset_alen _ _ _ _ Ecs)].
  - split.
    + unfold rpc_count. cbn. rewrite (aget_aset_eq _ _ _ _ Es), Er. cbn. by rewrite (aget_aset_eq _ _ _ _ Ecs), Ec.
    + intros i j Hne. unfold rpc_count. cbn. rewrite (aget_aset _ _ _ i _ Es).
      destruct (Z.eqb_spec idx i) as [<-|]; [|done]. rewrite Er. cbn. eapply aget_aset_ne; [done|congruence].
  - intros i j. unfold nic_count. cbn. rewrite (aget_aset _ _ _ i _ Es).
    destruct (Z.eqb_spec idx i) as [<-|]; [|done]. by rewrite Er.
  - intros i. unfold qpn_at. rewrite (aget_aset _ _ _ i _ Es).
    destruct (Z.eqb_spec idx i) as [<-|]; [|done]. by rewrite Er.
Qed.

Lemma counter_idx_range a : 0 <= counter_idx a < NR_SLOTS.
Proof. unfold counter_idx, NR_SLOTS, MAX_COUNTER_NUM, SLOT_GRANULARITY. dlia. Qed.

(** Taking a slot depends on the metadata and the offsets only. *)
Lemma take_slot_frame r r1 idx s r' :
  rmeta_ r1 = rmeta_ r -> lmeta_ r1 = lmeta_ r -> remote_off r1 = remote_off r -> local_off r1 = local_off r ->
  take_slot r idx = Some (s, r') -> take_slot r1 idx = Some (s, with_offs r1 (remote_off r') (local_off r')).
Proof.
  intros E1 E2 E3 E4. unfold take_slot. rewrite E1, E2, E3, E4.
  destruct (rpc_chunk_of _); cbn [mbind option_bind]; [|done]. destruct ((remote_off r).[idx]); cbn [mbind option_bind]; [|done].
  destruct (umod _ _); cbn [mbind option_bind]; [|done]. destruct (aset (remote_off r) _ _); cbn [mbind option_bind]; [|done].
  destruct ((local_off r).[idx]); cbn [mbind option_bind]; [|done]. destruct (umod _ _); cbn [mbind option_bind]; [|done].
  destruct (aset (local_off r) _ _); cbn [mbind option_bind]; [|done]. intros [= <- <-]. done.
Qed.

Lemma post_recv_rq qp m wrs e bad qp1 m1 :
  mlx5_post_recv qp m wrs = Some (e, bad, qp1, m1) -> exists q, qp1 = with_rq qp q.
Proof.
  unfold mlx5_post_recv. intros H. apply bind_Some in H as ([[[[err nreq] b] m'] ids] & _ & H).
  destruct (nreq =? 0); inv H; by eexists.
Qed.

Lemma map_lookup_range recs q j :
  alen recs = MAX_RECORDER_NUM -> map_qpn_to_idx recs q 0 = Some j -> 0 <= j < MAX_RECORDER_NUM.
Proof.
  intros Hl H. unfold map_qpn_to_idx in H. apply bind_Some in H as (cur & _ & H).
  change (0 =? 1) with false in H. cbv iota in H.
  apply search_qpn_spec in H as (_ & H & _); [|apply Z.mod_pos_bound; done].
  unfold qpn_at in H. apply fmap_Some in H as (rec & H & _). apply aget_Some_lt in H. lia.
Qed.

(** The message in the buffer, as the server reads it. *)
Lemma write_rpc_op_read m a b q id w :
  in_width 64 (w0 w) -> in_width 64 (w1 w) -> in_width 64 (w2 w) -> in_width 64 b -> is_atomic w = true ->
  read_rpc_op (write_rpc_op m a b q id w) a =
  RpcOp (atomic_remote_addr w) (atomic_swap w) (atomic_compare_add w) b (u64 (q + id * QP_OFF))
    (if opcode w =? IBV_WR_ATOMIC_CMP_AND_SWP then CAS_OP_CODE else FAA_OP_CODE) CRC_CHECK_MAGIC.
Proof.
  unfold in_width. intros H0 H1 H2 Hb Ha. unfold is_atomic in Ha. unfold read_rpc_op, write_rpc_op.
  destruct (opcode w =? IBV_WR_ATOMIC_CMP_AND_SWP); [|cbn in Ha; rewrite Ha];
    f_equal; mem_load; try done; try (apply Z.mod_small; simpl; unfold atomic_remote_addr, atomic_swap, atomic_compare_add; lia).
Qed.

(** The message depends on its 64 bytes only. *)
Lemma read_rpc_op_ext m m' a :
  (forall b, a <= b < a + 64 -> ld8 m' b = ld8 m b) -> read_rpc_op m' a = read_rpc_op m a.
Proof. intros H. unfold read_rpc_op. f_equal; apply ld_le_ext; intros; apply H; lia. Qed.

Lemma rpc_wr_rkey w sges ra k : in_width 64 (w1 w) -> rdma_rkey (rpc_wr w sges ra k) = u32 k.
Proof.
  intros Hw. unfold rdma_rkey. cbn. apply Z.bits_inj'. intros i Hi. unfold wrapu at 1.
  rewrite <- (Z.land_ones _ 32) by lia. rewrite Z.land_spec, Z.lor_spec, Z.land_spec, testbit_notu by lia.
  rewrite Z.testbit_ones_nonneg by lia. destruct (Z.ltb_spec i 32).
  - replace (i <? 64) with true by (symmetry; apply Z.ltb_lt; lia).
    change (2 ^ 32 - 1) with (Z.ones 32). rewrite Z.testbit_ones_nonneg by lia.
    rewrite (proj2 (Z.ltb_lt i 32)) by lia. cbn. by rewrite andb_false_r, andb_true_r.
  - rewrite andb_false_r. symmetry. apply (testbit_high 32); [apply wrapu_range; lia|done].
Qed.

Lemma with_offs_frame r r1 idx s r' :
  rpc_ready r -> 0 <= idx < MAX_RECORDER_NUM -> take_slot r idx = Some (s, r') -> region_ok r1 ->
  region_ok (with_offs r1 (remote_off r') (local_off r')).
Proof.
  intros Hr Hi H Hok. pose proof (rr_ok _ (take_slot_ready _ _ _ _ Hr Hi H)) as Hok'.
  destruct Hok, Hok'. constructor; done.
Qed.

Lemma take_slot_recv r idx s r' :
  rpc_ready r -> 0 <= idx < MAX_RECORDER_NUM -> take_slot r idx = Some (s, r') -> in_width 64 (s_recv s).
Proof.
  intros Hr Hi H. destruct (take_slot_spec r Hr idx Hi) as (? & ? & off' & ? & ? & _ & _ & _ & _ & Ho & _ & _ & E).
  rewrite E in H. inv H. cbn. pose proof (local_slot_in r Hr idx Hi off' Ho). destruct (rr_local _ Hr) as (? & ? & ?).
  unfold in_width, sizeof_rpc_op in *. lia.
Qed.

(** The receive queue has no part in an encoding. *)
Lemma chain_encoded_rq qp q m wrs : forall p f, chain_encoded (with_rq qp q) m p f wrs -> chain_encoded qp m p f wrs.
Proof.
  induction wrs as [|w wrs IH]; intros p f; [done|]. intros [E C]. split; [|by apply IH]. by destruct E; constructor.
Qed.

(** ** The hook *)

(** What both paths do first: find the recorder, mark it and count an epoch. *)
Definition entered (shm shm1 : sh_local_region) (idx : Z) : Prop :=
  exists v e, shm1 = with_epoch (with_running shm v) e /\ region_ok shm1 /\
    (running shm1).[idx] = (fun c => cas c 0 1) <$> (running shm).[idx] /\
    (epoch shm1).[idx] = faa1 <$> (epoch shm).[idx].

Lemma hook_enter ctx shm qp m w rest idx :
  region_ok shm -> is_atomic w = true -> map_qpn_to_idx (records shm) (qp_num qp) 0 = Some idx ->
  exists shm1, entered shm shm1 idx /\
    mlx5_post_send ctx shm qp m (w :: rest) =
    (c ← (credit shm).[counter_idx (atomic_remote_addr w)];
     if c =? 0 then shm2 ← count_nic shm1 idx (counter_idx (atomic_remote_addr w)); to_device ctx shm2 qp m (w :: rest)
     else to_rpc ctx shm1 qp m w rest idx (counter_idx (atomic_remote_addr w))).
Proof.
  intros Hok Ha Hmap. pose proof (map_lookup_range _ _ _ (records_len _ Hok) Hmap) as Hi.
  destruct (mark_running_spec shm idx Hok Hi) as (c & v & Ec & Ev & Em & Hok1).
  destruct (bump_epoch_spec _ idx Hok1 Hi) as (c' & e & Ec' & Ee & Eb & Hok2).
  exists (with_epoch (with_running shm v) e). split.
  - exists v, e. split; [done|]. split; [done|]. cbn [running epoch with_epoch with_running] in *.
    rewrite (aget_aset_eq _ _ _ _ Ev), (aget_aset_eq _ _ _ _ Ee), Ec, Ec'. done.
  - unfold mlx5_post_send. fold (is_atomic w). rewrite Ha, Hmap. cbn [mbind option_bind]. rewrite Em.
    cbn [mbind option_bind]. rewrite Eb. done.
Qed.

(** C2: an atomic on a slot without credit goes to the device as it is: the
    posted list and the result are those of [_mlx5_post_send], the device
    counter of the queue pair and slot grows by one and no other counter
    changes, the epoch grows by one, and the queue pair is left marked as
    running. *)
Theorem hook_to_device ctx shm qp m w rest idx r :
  region_ok shm -> is_atomic w = true -> map_qpn_to_idx (records shm) (qp_num qp) 0 = Some idx ->
  (credit shm).[counter_idx (atomic_remote_addr w)] = Some 0 ->
  _mlx5_post_send ctx qp m (w :: rest) = Some r ->
  exists shm', mlx5_post_send ctx shm qp m (w :: rest) = Some (HookResult shm' (w :: rest) r) /\ region_ok shm' /\
    bumped (nic_count shm) (nic_count shm') idx (counter_idx (atomic_remote_addr w)) /\
    (forall i s, rpc_count shm' i s = rpc_count shm i s) /\
    (epoch shm').[idx] = faa1 <$> (epoch shm).[idx] /\
    (running shm').[idx] = (fun c => cas c 0 1) <$> (running shm).[idx].
Proof.
  intros Hok Ha Hmap Hc Hs. pose proof (map_lookup_range _ _ _ (records_len _ Hok) Hmap) as Hi.
  destruct (hook_enter ctx shm qp m w rest idx Hok Ha Hmap) as (shm1 & (v & e & -> & Hok1 & Hr & He) & ->).
  rewrite Hc. cbn [mbind option_bind Z.eqb].
  destruct (count_nic_spec _ idx (counter_idx (atomic_remote_addr w)) Hok1 Hi (counter_idx_range _))
    as (recs & -> & Hok2 & Hb & Hrpc & _).
  cbn [mbind option_bind]. unfold to_device. rewrite Hs. cbn [mbind option_bind]. eexists. split_and!; try done.
Qed.

(** C1: an atomic on a slot with credit becomes an RPC.  The caller's request
    is rewritten into an unsignaled RDMA write of the 64-byte message buffer to
    the queue pair's next slot of the server's memory, under the server's key;
    the send ring holds that write as the device reads it, followed by the rest
    of the list; the message the device will fetch carries the operation code,
    address, operands, the client's queue pair number and the check value; the
    RPC counter of the queue pair and slot grows by one and no other counter
    changes; the queue pair's mark is cleared. *)
Theorem hook_to_rpc ctx shm qp m w rest idx c g s shm_t e bad qp1 m1 :
  let w' := rpc_wr w [Sge (s_send s) sizeof_rpc_op (u32 (lkey (lmeta_ shm)))] (s_remote s) (rkey (rmeta_ shm)) in
  rpc_ready shm -> is_atomic w = true -> map_qpn_to_idx (records shm) (qp_num qp) 0 = Some idx ->
  (credit shm).[counter_idx (atomic_remote_addr w)] = Some c -> c <> 0 ->
  (running shm).[idx] = Some 0 ->
  sg_list w = [g] -> in_width 64 (w0 w) -> in_width 64 (w1 w) -> in_width 64 (w2 w) ->
  take_slot shm idx = Some (s, shm_t) ->
  mlx5_post_recv qp m [RecvWr (wr_id w) [g] 1] = Some (e, bad, qp1, m1) ->
  chain_fits qp1 (w' :: rest) ->
  (s_send s + sizeof_rpc_op <= sq_start qp \/ qend (sq qp) <= s_send s) ->
  (s_send s + sizeof_rpc_op <= db qp \/ db qp + 8 <= s_send s) ->
  exists h, mlx5_post_send ctx shm qp m (w :: rest) = Some h /\
    sr_err (hr_send h) = 0 /\ hr_wrs h = w' :: rest /\ rdma_rkey w' = u32 (rkey (rmeta_ shm)) /\
    chain_encoded qp (sr_mem (hr_send h)) (cur_post (sq qp)) (fm_cache qp) (w' :: rest) /\
    read_rpc_op (sr_mem (hr_send h)) (s_send s) =
      RpcOp (atomic_remote_addr w) (atomic_swap w) (atomic_compare_add w) (s_recv s)
        (u64 (qp_num qp + machine_id (lmeta_ shm) * QP_OFF))
        (if opcode w =? IBV_WR_ATOMIC_CMP_AND_SWP then CAS_OP_CODE else FAA_OP_CODE) CRC_CHECK_MAGIC /\
    bumped (rpc_count shm) (rpc_count (hr_shm h)) idx (counter_idx (atomic_remote_addr w)) /\
    (forall i j, nic_count (hr_shm h) i j = nic_count shm i j) /\
    (epoch (hr_shm h)).[idx] = faa1 <$> (epoch shm).[idx] /\ (running (hr_shm h)).[idx] = Some 0.
Proof.
  intros w' Hrr Ha Hmap Hc Hc0 Hrun Hsg H0 H1 H2 Hslot Hrecv Hfit Hd1 Hd2. pose proof (rr_ok _ Hrr) as Hok.
  pose proof (map_lookup_range _ _ _ (records_len _ Hok) Hmap) as Hi.
  destruct (hook_enter ctx shm qp m w rest idx Hok Ha Hmap) as (shm1 & (v & ep & -> & Hok1 & Hr & He) & ->).
  rewrite Hc. cbn [mbind option_bind]. rewrite (proj2 (Z.eqb_neq _ _) Hc0).
  destruct (count_rpc_spec _ idx (counter_idx (atomic_remote_addr w)) Hok1 Hi (counter_idx_range _))
    as (recs & Hcount & Hok2 & Hb & Hnic & _).
  unfold to_rpc. rewrite Hsg. cbn [aget]. change ([g].[0]) with (Some g). cbn [mbind option_bind].
  rewrite Hcount. cbn [mbind option_bind].
  rewrite (take_slot_frame shm _ idx s shm_t) by done. cbn [mbind option_bind].
  replace (Sge (sg_addr g) (sg_length g) (sg_lkey g)) with g by (by destruct g).
  rewrite Hrecv. cbn [mbind option_bind].
  change (aset [g] 0 _) with (Some [Sge (s_send s) sizeof_rpc_op (u32 (lkey (lmeta_ shm)))]). cbn [mbind option_bind].
  set (shm3 := with_offs _ _ _). set (m2 := write_rpc_op _ _ _ _ _ _).
  destruct (post_chain_ok ctx qp1 m2 (w' :: rest) Hfit ltac:(done)) as (r & E & Herr & _ & C & _ & _ & _ & F & _).
  replace (_mlx5_post_send _ _ _ _) with (Some r) by (symmetry; exact E). cbn [mbind option_bind].
  assert (Hok3 : region_ok shm3) by (by eapply with_offs_frame).
  destruct (clear_running_spec shm3 idx Hok3 Hi) as (c3 & v3 & Ec3 & Ev3 & -> & _). cbn [mbind option_bind].
  destruct (post_recv_rq _ _ _ _ _ _ _ Hrecv) as [q ->].
  eexists. split; [done|]. cbn [hr_send hr_wrs hr_shm]. split_and!; try done.
  - by apply rpc_wr_rkey.
  - exact (chain_encoded_rq _ _ _ _ _ _ C).
  - rewrite (read_rpc_op_ext m2).
    + apply write_rpc_op_read; try done. by eapply take_slot_recv.
    + intros b Hb'. apply F; unfold sizeof_rpc_op in *; cbn; lia.
  - cbn. rewrite (aget_aset_eq _ _ _ _ Ev3). change (running shm3) with (running (with_epoch (with_running shm v) ep)) in Ec3.
    rewrite Hr, Hrun in Ec3. by inv Ec3.
Qed.

(** ** Sample region

    A client of two, queue pair 7 in slot 7, rings of ten messages per queue
    pair, credit on the slot of address 0xa000. *)

Definition sample_client (id cr : Z) : sh_local_region :=
  let per_qp := replicate 32 0 in
  let table := replicate 256 (replicate 256 0) in
  Region (<[Z.to_nat 5120 := cr]> (replicate (Z.to_nat NR_SLOTS) 0))
    (<[7%nat := Recorder 7 (replicate (Z.to_nat NR_SLOTS) 0) (replicate (Z.to_nat NR_SLOTS) 0)]>
       (replicate 32 recorder_zero))
    (RpcMeta 2 id 99 0x100000 (64 * 640) 88888) (LocalRpcMeta 2 id 3 0x20000 (32 * 640) (32 * 640))
    per_qp per_qp per_qp per_qp per_qp table table.
Definition sample_shm (cr : Z) : sh_local_region := sample_client 1 cr.

Lemma zero_table_ok w : 0 <= w -> table_ok w (replicate 256 (replicate 256 0)).
Proof.
  intros. split; [by rewrite alen_replicate|]. apply Forall_replicate. split; [by rewrite alen_replicate|].
  apply Forall_replicate. split; [done|]. by apply Z.pow_pos_nonneg.
Qed.

Lemma client_region_ok id cr : region_ok (sample_client id cr).
Proof.
  constructor; cbn [credit records remote_off local_off running epoch inflight hotness_bloom local_lock_table sample_client];
    try (by rewrite alen_replicate); try (by apply zero_table_ok).
  - unfold alen. by rewrite length_insert, length_replicate.
  - unfold alen. by rewrite length_insert, length_replicate.
  - apply Forall_insert; [apply Forall_replicate|]; unfold recorder_zero; split; cbn [counters c_counters]; by rewrite alen_replicate, Z2Nat.id.
Qed.

Lemma sample_region_ok cr : region_ok (sample_shm cr).
Proof. apply client_region_ok. Qed.

Lemma aget_replicate_inv {A} n (x y : A) i : (replicate n x).[i] = Some y -> y = x.
Proof. unfold aget. zcase; [|done]. intros Hl. apply lookup_replicate in Hl. by destruct Hl. Qed.

Lemma client_ready id cr : 0 <= id < 2 -> rpc_ready (sample_client id cr).
Proof.
  intros Hid. constructor; [apply client_region_ok|exact Hid|vm_compute; repeat split; done..| | | |].
  - exists 640. split; [reflexivity|]. split; [done|vm_compute; done].
  - vm_compute; split; done.
  - intros i off chunk H Hc. apply aget_replicate_inv in H as ->. vm_compute in Hc. inv Hc. vm_compute. split; done.
  - intros i off H. apply aget_replicate_inv in H as ->. vm_compute. split; done.
Qed.

Lemma sample_ready cr : rpc_ready (sample_shm cr).
Proof. by apply client_ready. Qed.

(** The request of the samples, a CAS on 0xa000, its queue pair and its slot. *)
Definition sample_cas : ibv_send_wr := sample_wr IBV_WR_ATOMIC_CMP_AND_SWP [Sge 0x3000 8 1].
Definition sample_fqp : mlx5_qp := sample_rq (sample_qp IBV_QPT_RC 3 0 true).

Lemma sample_registered cr : map_qpn_to_idx (records (sample_shm cr)) 7 0 = Some 7.
Proof. vm_compute. reflexivity. Qed.

Lemma sample_credit cr : (credit (sample_shm cr)).[counter_idx (atomic_remote_addr sample_cas)] = Some cr.
Proof.
  unfold aget. change (0 <=? counter_idx (atomic_remote_addr sample_cas)) with true. cbn [credit sample_shm sample_client].
  change (counter_idx (atomic_remote_addr sample_cas)) with 5120. apply list_lookup_insert_eq.
  rewrite length_replicate. unfold NR_SLOTS, MAX_COUNTER_NUM, SLOT_GRANULARITY. lia.
Qed.

Lemma hook_to_device_witness :
  exists r shm', _mlx5_post_send sample_ctx sample_fqp ∅ [sample_cas] = Some r /\
    mlx5_post_send sample_ctx (sample_shm 0) sample_fqp ∅ [sample_cas] = Some (HookResult shm' [sample_cas] r) /\
    (running shm').[7] = Some 1.
Proof.
  destruct (run_err (_mlx5_post_send sample_ctx sample_fqp ∅ [sample_cas]) 0) as (r & E & _); [vm_compute; reflexivity|].
  destruct (hook_to_device sample_ctx (sample_shm 0) sample_fqp ∅ sample_cas [] 7 r (sample_region_ok 0) eq_refl
    (sample_registered 0) (sample_credit 0) E) as (shm' & H & _ & _ & _ & _ & Hr).
  exists r, shm'. split; [exact E|]. split; [exact H|]. rewrite Hr. reflexivity.
Defined.

Lemma sample_recv_posts :
  exists e bad qp1 m1, mlx5_post_recv sample_fqp ∅ [RecvWr 77 [Sge 0x3000 8 1] 1] = Some (e, bad, qp1, m1).
Proof.
  destruct (mlx5_post_recv sample_fqp ∅ [RecvWr 77 [Sge 0x3000 8 1] 1]) as [[[[e bad] qp1] m1]|] eqn:E.
  - by exists e, bad, qp1, m1.
  - assert (is_Some (mlx5_post_recv sample_fqp ∅ [RecvWr 77 [Sge 0x3000 8 1] 1])) as [? H] by (vm_compute; eauto).
    by rewrite E in H.
Qed.

Definition sample_rpc_wr : ibv_send_wr :=
  rpc_wr sample_cas [Sge 135552 sizeof_rpc_op 3] 0x106180 99.

Lemma sample_rpc_fits q : chain_fits (with_rq sample_fqp q) [sample_rpc_wr].
Proof.
  constructor; try done; [ | |by right].
  - constructor; try done. by exists 2.
  - repeat constructor; vm_compute; done.
Qed.

Lemma sample_slot : exists r, take_slot (sample_shm 1) 7 = Some (RpcSlot 0x106180 (135552 + 20480) 135552, r).
Proof.
  assert (fst <$> take_slot (sample_shm 1) 7 = Some (RpcSlot 0x106180 (135552 + 20480) 135552)) as H
    by (vm_compute; reflexivity).
  apply fmap_Some in H as ([s r] & -> & ->). by exists r.
Qed.

Lemma hook_to_rpc_witness :
  exists h, mlx5_post_send sample_ctx (sample_shm 1) sample_fqp ∅ [sample_cas] = Some h /\
    op_opcode (read_rpc_op (sr_mem (hr_send h)) 135552) = CAS_OP_CODE /\
    op_qpn (read_rpc_op (sr_mem (hr_send h)) 135552) = 100007.
Proof.
  destruct sample_recv_posts as (e & bad & qp1 & m1 & Hr). destruct (post_recv_rq _ _ _ _ _ _ _ Hr) as [q Eq].
  destruct sample_slot as [r Es]. subst qp1.
  destruct (hook_to_rpc sample_ctx (sample_shm 1) sample_fqp ∅ sample_cas [] 7 1 (Sge 0x3000 8 1) _ r e bad _ m1
    (sample_ready 1) eq_refl (sample_registered 1) (sample_credit 1) ltac:(done) eq_refl eq_refl
    ltac:(split; [done|reflexivity]) ltac:(split; [done|reflexivity]) ltac:(split; [done|reflexivity]) Es Hr (sample_rpc_fits q)
    ltac:(right; vm_compute; discriminate) ltac:(right; vm_compute; discriminate)) as (h & H & _ & _ & _ & _ & Hm & _).
  exists h. split; [exact H|]. cbn [s_send] in Hm. rewrite Hm. split; reflexivity.
Defined.

(** C17: the address arithmetic of the RPC path stays in the buffers the agent
    announced: taking a slot succeeds and keeps the region ready, the remote
    slot lies in the server's RPC memory, the message buffer in the send half
    and the answer buffer in the receive half of the client's memory. *)
Theorem rpc_slot_bounds r idx :
  rpc_ready r -> 0 <= idx < MAX_RECORDER_NUM ->
  exists s r', take_slot r idx = Some (s, r') /\ rpc_ready r' /\
    rm_rpc_addr (rmeta_ r) <= s_remote s /\
    s_remote s + sizeof_rpc_op <= rm_rpc_addr (rmeta_ r) + rm_length (rmeta_ r) /\
    rpc_addr (lmeta_ r) <= s_send s /\ s_send s + sizeof_rpc_op <= rpc_addr (lmeta_ r) + s_buf_length (lmeta_ r) /\
    rpc_addr (lmeta_ r) + s_buf_length (lmeta_ r) <= s_recv s /\
    s_recv s + sizeof_rpc_op <= rpc_addr (lmeta_ r) + s_buf_length (lmeta_ r) + r_buf_length (lmeta_ r).
Proof.
  intros Hr Hi. destruct (take_slot_spec r Hr idx Hi) as (chunk & off & off' & ro & lo & Ec & _ & Ho & _ & Ho' & _ & _ & E).
  pose proof (remote_slot_in r Hr idx Hi chunk off Ec Ho). pose proof (local_slot_in r Hr idx Hi off' Ho').
  destruct (rr_local _ Hr) as (? & ? & ?).
  eexists _, _. split; [exact E|]. split; [by eapply take_slot_ready|]. cbn [s_remote s_send s_recv]. lia.
Qed.

Lemma rpc_slot_bounds_witness :
  exists s r', take_slot (sample_shm 1) 7 = Some (s, r') /\ 0x100000 <= s_remote s.
Proof.
  destruct (rpc_slot_bounds (sample_shm 1) 7 (sample_ready 1) ltac:(split; [done|reflexivity])) as (s & r' & E & _ & H & _).
  exists s, r'. split; [exact E|exact H].
Defined.

(** A queue pair's messages use its ring in order: the [k]-th of [n] calls
    takes the slots [k] positions behind the offsets, modulo the capacity, so
    that up to a whole ring of consecutive messages do not share a byte, in the
    server's memory or in the client's send buffer. *)
Theorem rpc_ring_order n r idx chunk off off' :
  rpc_ready r -> 0 <= idx < MAX_RECORDER_NUM -> rpc_chunk_of (rmeta_ r) = Some chunk ->
  (remote_off r).[idx] = Some off -> (local_off r).[idx] = Some off' ->
  exists ss r', take_slots n r idx = Some (ss, r') /\ length ss = n /\
    (forall k s, ss !! k = Some s ->
       s_remote s = remote_slot r chunk idx ((off + Z.of_nat k) mod (chunk / sizeof_rpc_op)) /\
       s_send s = local_slot r idx ((off' + Z.of_nat k) mod (buf_chunk_of (lmeta_ r) / sizeof_rpc_op))) /\
    (forall i j s s', ss !! i = Some s -> ss !! j = Some s' -> i <> j ->
       (Z.of_nat n <= chunk / sizeof_rpc_op ->
        s_remote s + sizeof_rpc_op <= s_remote s' \/ s_remote s' + sizeof_rpc_op <= s_remote s) /\
       (Z.of_nat n <= buf_chunk_of (lmeta_ r) / sizeof_rpc_op ->
        s_send s + sizeof_rpc_op <= s_send s' \/ s_send s' + sizeof_rpc_op <= s_send s)).
Proof.
  intros Hr Hi Hc Ho Ho'. destruct (take_slots_spec n idx r chunk off off' Hr Hi Hc Ho Ho') as (ss & r' & E & Hl & Hs).
  exists ss, r'. split_and!; try done. intros i j s s' Hsi Hsj Hij.
  destruct (Hs _ _ Hsi) as [-> ->]. destruct (Hs _ _ Hsj) as [-> ->].
  apply lookup_lt_Some in Hsi, Hsj. destruct (rr_chunk _ Hr) as (chunk' & Hc' & Hm).
  assert (chunk' = chunk) as -> by congruence. pose proof (rr_buf _ Hr) as Hm'.
  unfold remote_slot, local_slot. split; intros Hn.
  - destruct (chunk_room r Hr chunk Hc) as [Hpos _].
    destruct (slots_apart chunk (machine_id (lmeta_ r) * MAX_RECORDER_NUM + idx)
      (machine_id (lmeta_ r) * MAX_RECORDER_NUM + idx) ((off + Z.of_nat i) mod (chunk / sizeof_rpc_op))
      ((off + Z.of_nat j) mod (chunk / sizeof_rpc_op))); try (apply Z.mod_pos_bound); try lia.
    intros [= Heq]. apply (ring_ne off i j (chunk / sizeof_rpc_op)) in Heq; lia || done.
  - destruct (slots_apart (buf_chunk_of (lmeta_ r)) idx idx ((off' + Z.of_nat i) mod (buf_chunk_of (lmeta_ r) / sizeof_rpc_op))
      ((off' + Z.of_nat j) mod (buf_chunk_of (lmeta_ r) / sizeof_rpc_op))); try (apply Z.mod_pos_bound); try lia.
    + unfold buf_chunk_of. apply Z.div_pos; [apply Hr|done].
    + intros [= Heq]. apply (ring_ne off' i j (buf_chunk_of (lmeta_ r) / sizeof_rpc_op)) in Heq; lia || done.
Qed.

Lemma rpc_ring_order_witness :
  exists ss r', take_slots 3 (sample_shm 1) 7 = Some (ss, r') /\ length ss = 3%nat.
Proof.
  destruct (rpc_ring_order 3 (sample_shm 1) 7 640 0 0 (sample_ready 1) ltac:(split; [done|reflexivity]) eq_refl eq_refl eq_refl)
    as (ss & r' & E & H & _).
  exists ss, r'. split; [exact E|exact H].
Defined.

(** C14: no two queue pairs write into each other's messages: for clients that
    share a server's region (the server announces the same address, length and
    number of clients to all of them, with an identifier of its own to each), the
    slots of different (client, queue pair) pairs never overlap, whatever their
    offsets, in the server's memory. *)
Theorem rpc_slots_disjoint r1 r2 i1 i2 s1 s2 r1' r2' :
  rpc_ready r1 -> rpc_ready r2 -> same_server (rmeta_ r1) (rmeta_ r2) ->
  0 <= i1 < MAX_RECORDER_NUM -> 0 <= i2 < MAX_RECORDER_NUM ->
  (machine_id (lmeta_ r1), i1) <> (machine_id (lmeta_ r2), i2) ->
  take_slot r1 i1 = Some (s1, r1') -> take_slot r2 i2 = Some (s2, r2') ->
  s_remote s1 + sizeof_rpc_op <= s_remote s2 \/ s_remote s2 + sizeof_rpc_op <= s_remote s1.
Proof.
  intros H1 H2 (Ha & Hl & Hn) Hi1 Hi2 Hne E1 E2.
  destruct (take_slot_spec r1 H1 i1 Hi1) as (c1 & o1 & ? & ? & ? & Ec1 & _ & Ho1 & _ & _ & _ & _ & T1).
  destruct (take_slot_spec r2 H2 i2 Hi2) as (c2 & o2 & ? & ? & ? & Ec2 & _ & Ho2 & _ & _ & _ & _ & T2).
  rewrite T1 in E1. rewrite T2 in E2. injection E1 as <- _. injection E2 as <- _. cbn [s_remote]. unfold remote_slot. rewrite Ha in *.
  assert (c2 = c1) as -> by (unfold rpc_chunk_of in *; rewrite Hl, Hn in Ec1; congruence). destruct (chunk_room r2 H2 c1 Ec2) as [Hpos _].
  unfold MAX_RECORDER_NUM in *.
  destruct (slots_apart c1 (machine_id (lmeta_ r1) * 32 + i1) (machine_id (lmeta_ r2) * 32 + i2) o1 o2); try done; try lia.
  intros [= Heq _]. apply Hne. f_equal; lia.
Qed.

(** Queue pair 7 of both clients. *)
Lemma rpc_slots_disjoint_witness :
  exists s1 s2 r1 r2, take_slot (sample_client 0 1) 7 = Some (s1, r1) /\ take_slot (sample_client 1 1) 7 = Some (s2, r2) /\
    rmeta_ (sample_client 0 1) <> rmeta_ (sample_client 1 1) /\
    (s_remote s1 + 64 <= s_remote s2 \/ s_remote s2 + 64 <= s_remote s1).
Proof.
  destruct (take_slot_spec _ (client_ready 0 1 ltac:(lia)) 7 ltac:(split; [done|reflexivity])) as (? & ? & ? & ? & ? & _ & _ & _ & _ & _ & _ & _ & T1).
  destruct (take_slot_spec _ (client_ready 1 1 ltac:(lia)) 7 ltac:(split; [done|reflexivity])) as (? & ? & ? & ? & ? & _ & _ & _ & _ & _ & _ & _ & T2).
  eexists _, _, _, _. split; [exact T1|]. split; [exact T2|]. split; [intros H; discriminate (f_equal rm_machine_id H)|].
  apply (rpc_slots_disjoint _ _ 7 7 _ _ _ _ (client_ready 0 1 ltac:(lia)) (client_ready 1 1 ltac:(lia))
    (conj eq_refl (conj eq_refl eq_refl)) ltac:(split; [done|reflexivity]) ltac:(split; [done|reflexivity]) ltac:(done) T1 T2).
Defined.

(** The RPC branch does not undo its rewriting when posting fails (a full
    send queue, say): the caller gets the error with its request turned into an
    RDMA write, so that posting the same list again goes to the device as a
    plain write of the message and is not counted or marked, whatever the region
    then holds. *)
Theorem hook_rpc_retry ctx shm qp m w rest h c :
  is_atomic w = true -> (credit shm).[counter_idx (atomic_remote_addr w)] = Some c -> c <> 0 ->
  region_ok shm -> mlx5_post_send ctx shm qp m (w :: rest) = Some h ->
  opcode <$> hd_error (hr_wrs h) = Some IBV_WR_RDMA_WRITE /\
  forall shm2 qp2 m2, mlx5_post_send ctx shm2 qp2 m2 (hr_wrs h) = to_device ctx shm2 qp2 m2 (hr_wrs h).
Proof.
  intros Ha Hc Hc0 Hok H. destruct (map_qpn_to_idx (records shm) (qp_num qp) 0) as [idx|] eqn:Em.
  2: { unfold mlx5_post_send in H. fold (is_atomic w) in H. rewrite Ha, Em in H. done. }
  destruct (hook_enter ctx shm qp m w rest idx Hok Ha Em) as (shm1 & _ & E). rewrite E, Hc in H. cbn [mbind option_bind] in H.
  rewrite (proj2 (Z.eqb_neq _ _) Hc0) in H. unfold to_rpc in H.
  apply bind_Some in H as (sg0 & _ & H). apply bind_Some in H as (shm3 & _ & H).
  apply bind_Some in H as ([s shm4] & _ & H). apply bind_Some in H as ([[[e bad] qp1] m1] & _ & H).
  apply bind_Some in H as (sges & _ & H). apply bind_Some in H as (r & _ & H). apply bind_Some in H as (shm5 & _ & H).
  inv H. done.
Qed.

(** A send queue without room. *)
Definition sample_full : mlx5_qp := with_sq sample_fqp (with_head (sq sample_fqp) 4).

Lemma sample_full_fails :
  exists h, mlx5_post_send sample_ctx (sample_shm 1) sample_full ∅ [sample_cas] = Some h /\ sr_err (hr_send h) = ENOMEM.
Proof.
  assert ((fun h => sr_err (hr_send h)) <$> mlx5_post_send sample_ctx (sample_shm 1) sample_full ∅ [sample_cas] = Some ENOMEM)
    as H by (vm_compute; reflexivity).
  apply fmap_Some in H as (h & -> & H). by exists h.
Qed.

Lemma hook_rpc_retry_witness :
  exists h, mlx5_post_send sample_ctx (sample_shm 1) sample_full ∅ [sample_cas] = Some h /\
    sr_err (hr_send h) = ENOMEM /\ opcode <$> hd_error (hr_wrs h) = Some IBV_WR_RDMA_WRITE.
Proof.
  destruct sample_full_fails as (h & E & He).
  destruct (hook_rpc_retry sample_ctx (sample_shm 1) sample_full ∅ sample_cas [] h 1 eq_refl (sample_credit 1) ltac:(done)
    (sample_region_ok 1) E) as [H _].
  exists h. split; [exact E|]. split; [exact He|exact H].
Defined.
