(* ===== verification/RpcServer.v ===== *)
(** fusioncas/test/server.cpp and include/smart/rpc_common.h: the server that
    executes the RPC messages of the Fusa hook.

    A thread of the server scans the slots of the queue pairs it is
    responsible for.  A slot with the check value holds a message: the thread
    decides from the strategy (which the agent server keeps in shared memory)
    whether it may execute it, performs the compare-and-swap with the CPU,
    writes the result to the response slot, clears the check value and sends
    the result to the client's queue pair, in batches and with one signaled
    reply in [unsignal_batch].  The configuration is HERD_RPC, as the file
    selects.

    Before it sends the first reply of a batch of [unsignal_batch] the thread
    polls for the completion of the signaled reply of the batch before.  The
    device completes what is posted, so that the wait ends when a signaled reply
    of the queue pair is posted and not yet polled, and never otherwise
    ([uncompleted]).

    Outside the model: the index [t_local_id], which is computed (modulo the
    number of the machine's queue pairs) and never used, what a completion
    holds, completion queues shared by threads, and the setup.

    The memory is shared with the device and with the other threads: [env] is
    what they do between the two accesses of the thread to the target of an
    operation.  [None] is undefined behaviour, or a wait without an end. *)

From stdpp Require Import gmap.
From S2P Require Import Prelude Mem Recorder Wqe Fusa.

(** ** The data the agent and the server share *)

Record resp := Resp { r_phase : Z; r_credit : list Z }.
Record mesg_unit := MesgUnit { m_counters : list Z; m_crc : Z }.
Record machine_unit := MachineUnit { mesg_arr : list mesg_unit; c_mesg_arr : list mesg_unit; mu_phase : Z }.
Record server_layout := Layout {
  l_strategies : resp; machine_arr : list machine_unit; uniform_strag : resp; old_strategies : resp; consensus : Z }.

(** ** The server *)

(** The fields of [Server] and of [rpc_param] the RPC threads read. *)
Record server := Server {
  sv_machine_num : Z; sv_rpc_addr : Z; sv_region_size : Z; rpc_thread_num : Z; unsignal_batch : Z; thread_qp_batch : Z }.

(** A reply: a send of the eight bytes at [rp_addr]. *)
Record reply := Reply { rp_wr_id : Z; rp_flags : Z; rp_rkey : Z; rp_addr : Z }.

(** Waiting for one completion of a queue pair, and posting replies. *)
Inductive rpc_event := EvPoll (gid : Z) | EvPost (gid : Z) (wrs : list reply).

(** The variables of [rpc_func_impl], per queue pair slot; [rs_events] is what
    the thread has done since it started. *)
Record rpc_st := RpcSt {
  rs_mem : mem; send_tx : list Z; last_signaled : list Z; thread_batch_cnt : list Z; rs_wr : list (list reply);
  reject_cnt : Z; rs_events : list rpc_event }.

Definition with_rmem (s : rpc_st) (m : mem) : rpc_st :=
  RpcSt m (send_tx s) (last_signaled s) (thread_batch_cnt s) (rs_wr s) (reject_cnt s) (rs_events s).
Definition with_reject (s : rpc_st) (n : Z) : rpc_st :=
  RpcSt (rs_mem s) (send_tx s) (last_signaled s) (thread_batch_cnt s) (rs_wr s) n (rs_events s).

(** [qpn_table]: from the numbers the clients send to the server's queue
    pairs; [emplace] keeps an entry that is there.  [dest] has the client's
    queue pair numbers per machine. *)
Definition emplace (t : gmap Z Z) (k v : Z) : gmap Z Z := match t !! k with Some _ => t | None => <[k := v]> t end.

Fixpoint add_qps (t : gmap Z Z) (i gid : Z) (qpns : list Z) : gmap Z Z :=
  match qpns with [] => t | q :: qpns => add_qps (emplace t (q + i * QP_OFF) gid) i (gid + 1) qpns end.

Fixpoint qpn_table_from (t : gmap Z Z) (i gid : Z) (dest : list (list Z)) : gmap Z Z :=
  match dest with [] => t | l :: dest => qpn_table_from (add_qps t i gid l) (i + 1) (gid + alen l) dest end.
Definition qpn_table (dest : list (list Z)) : gmap Z Z := qpn_table_from ∅ 0 0 dest.

(** ** Slots *)

Definition tt_thread_num (sv : server) : Z := u64 (MAX_RECORDER_NUM * sv_machine_num sv).
Definition window_size (sv : server) : option Z := udiv (sv_region_size sv) (u64 (u64 (2 * tt_thread_num sv) * sizeof_rpc_op)).
Definition resp_buf (sv : server) : Z := u64 (sv_rpc_addr sv + sv_region_size sv / 2).

(** The message and the response of slot [j] of [cur_idx]. *)
Definition slot_off (window cur_idx j : Z) : Z := u64 (u64 (cur_idx * window) + j).
Definition req_slot (sv : server) (off : Z) : Z := u64 (sv_rpc_addr sv + sizeof_rpc_op * off).
Definition resp_slot (sv : server) (off : Z) : Z := u64 (resp_buf sv + sizeof_rpc_op * off).

(** ** One message *)

(** The strategy: without credit the message is rejected; after a change from
    the device to the server, until every machine has acknowledged it. *)
Definition reject_of (new old consensus machine_num : Z) : option bool :=
  let r := new =? 0 in
  if Z.lxor new old =? 1 then
    if new =? 1 then c ← umod consensus machine_num; Some (negb (c =? 0)) else Some r
  else Some r.

(** The compare-and-swap: a test of the target, then either the atomic
    instruction, which stores what it found into the message when it fails,
    or a second read of the target. *)
Definition handle_cas (env : mem -> mem) (m : mem) (req rsp : Z) : mem :=
  let addr := ld_le 8 m req in
  let v := ld_le 8 m addr in
  let eq := v =? ld_le 8 m (req + 16) in
  let m := env m in
  let m :=
    if eq then
      let v := ld_le 8 m addr in
      let m := if v =? ld_le 8 m (req + 16) then st_le 8 m addr (ld_le 8 m (req + 8)) else st_le 8 m (req + 16) v in
      st_le 8 m (rsp + 48) (ld_le 8 m (req + 16))
    else st_le 8 m (rsp + 48) (ld_le 8 m addr) in
  st_le 8 m (rsp + 56) CRC_CHECK_MAGIC.

Definition handle_op (env : mem -> mem) (m : mem) (req rsp : Z) (reject : bool) : mem :=
  let op := ld_le 8 m (req + 40) in
  if (op =? CAS_OP_CODE) && negb reject then handle_cas env m req rsp
  else if op =? FAA_OP_CODE then m
  else if reject then st_le 8 (st_le 8 m (rsp + 48) (ld_le 8 m (req + 8))) (rsp + 56) CRC_CHECK_MAGIC
  else m.

(** The signaled replies posted to [gid] whose completion has not been taken.
    The device completes every request that is posted; every queue pair has a
    completion queue of its own ([shared_cq] is off), on which nothing else is
    polled for. *)
Definition signaled_in (wrs : list reply) : Z := alen (filter (fun w => rp_flags w = IBV_SEND_SIGNALED) wrs).
Definition uncompleted (gid : Z) (evs : list rpc_event) : Z :=
  foldr (fun e n => match e with
    | EvPoll g => if g =? gid then n - 1 else n
    | EvPost g wrs => if g =? gid then n + signaled_in wrs else n end) 0 evs.

(** The reply to [gid]: the next work request of the batch is filled in, the
    last signaled one is waited for, a full batch is posted.  The wait polls
    until there is a completion: with none to come it does not return, and the
    result is [None]. *)
Definition send_reply (sv : server) (s : rpc_st) (cur_idx gid rkey rsp : Z) : option rpc_st :=
  tx ← (send_tx s).[cur_idx];
  cnt ← (thread_batch_cnt s).[cur_idx];
  last ← (last_signaled s).[cur_idx];
  row ← (rs_wr s).[cur_idx];
  let signaled := Z.land tx (u64 (unsignal_batch sv - 1)) =? 0 in
  row ← aset row cnt (Reply tx (if signaled then IBV_SEND_SIGNALED else 0) rkey (rsp + 48));
  rows ← aset (rs_wr s) cur_idx row;
  let wait := signaled && negb (last =? tx) in
  let ev := if wait then [EvPoll gid] else [] in
  _ ← (if wait && (uncompleted gid (rs_events s) <=? 0) then None else Some tt);
  lasts ← (if signaled then aset (last_signaled s) cur_idx tx else Some (last_signaled s));
  let full := Z.land cnt (u64 (thread_qp_batch sv - 1)) =? u64 (thread_qp_batch sv - 1) in
  let ev := if full then ev ++ [EvPost gid row] else ev in
  next ← umod (u64 (cnt + 1)) (thread_qp_batch sv);
  cnts ← aset (thread_batch_cnt s) cur_idx next;
  txs ← aset (send_tx s) cur_idx (u64 (tx + 1));
  Some (RpcSt (rs_mem s) txs lasts cnts rows (reject_cnt s) (rs_events s ++ ev)).

(** The body of the innermost loop. *)
Definition serve_slot (env : mem -> mem) (sv : server) (ly : server_layout) (table : gmap Z Z) (rkey k i j : Z) (s : rpc_st)
  : option rpc_st :=
  window ← window_size sv;
  let cur_idx := u64 (k * MAX_RECORDER_NUM + i) in
  let req := req_slot sv (slot_off window cur_idx j) in
  let rsp := resp_slot sv (slot_off window cur_idx j) in
  let m := rs_mem s in
  if negb (ld_le 8 m (req + 56) =? CRC_CHECK_MAGIC) then Some s else
  new ← (r_credit (l_strategies ly)).[counter_idx (ld_le 8 m req)];
  old ← (r_credit (old_strategies ly)).[counter_idx (ld_le 8 m req)];
  reject ← reject_of new old (consensus ly) (sv_machine_num sv);
  let s := if (reject : bool) then with_reject s (u64 (reject_cnt s + 1)) else s in
  gid ← table !! ld_le 8 m (req + 32);
  let m := handle_op env m req rsp reject in
  let m := st_le 8 m (req + 56) 0 in
  send_reply sv (with_rmem s m) cur_idx gid rkey rsp.

(** ** One pass over the slots *)

(** The queue pair slots of thread [id], the same on every machine. *)
Definition scan_from (sv : server) (id : Z) : option Z := n ← udiv MAX_RECORDER_NUM (rpc_thread_num sv); Some (n * id).

Definition rpc_pass (env : mem -> mem) (sv : server) (ly : server_layout) (table : gmap Z Z) (rkeys : list Z) (id : Z) (s : rpc_st)
  : option rpc_st :=
  window ← window_size sv;
  lo ← scan_from sv id;
  hi ← scan_from sv (id + 1);
  for_from (Z.to_nat (sv_machine_num sv)) 0 (fun k s =>
    rkey ← rkeys.[k];
    for_from (Z.to_nat (hi - lo)) lo (fun i s =>
      for_from (Z.to_nat window) 0 (fun j s => serve_slot env sv ly table rkey k i j s) s) s) s.

(** What [run_rpc] publishes for the agents, and what an agent client copies
    into the region of its machine. *)
Definition CRC_COMPLETE : Z := 88888.
Definition publish (sv : server) (rkey id : Z) : rpc_meta :=
  RpcMeta (sv_machine_num sv) id rkey (sv_rpc_addr sv) (sv_region_size sv / 2) CRC_COMPLETE.

(** ** Invariant and specification *)

(** The RPC region is inside the address space. *)
Record server_ok (sv : server) : Prop := {
  so_machines : 0 < sv_machine_num sv < 2 ^ 48;
  so_addr : 0 <= sv_rpc_addr sv;
  so_size : 0 <= sv_region_size sv /\ sv_rpc_addr sv + sv_region_size sv < 2 ^ 64;
  so_batch : 0 < thread_qp_batch sv < 2 ^ 64 }.

(** The completions are waited for in turn: signals are a power of two apart,
    and a batch of replies is posted at least as often. *)
Record batches_ok (sv : server) : Prop := {
  bo_signal : exists u, 0 <= u < 64 /\ unsignal_batch sv = 2 ^ u;
  bo_often : thread_qp_batch sv <= unsignal_batch sv }.

(** How the replies of a queue pair slot stand: [tx] replies so far, the last
    signaled one [last], the last [cnt] of them in the row and not posted, and
    [open] completions to come.  Between 1 and [unsignal_batch] replies ago one
    was signaled; it is in the row, or it is posted and its completion is the
    only one to come. *)
Record replies_ok (sv : server) (tx last cnt : Z) (row : list reply) (open : Z) : Prop := {
  re_tx : in_width 64 tx;
  re_last : in_width 64 last;
  re_mult : last mod unsignal_batch sv = 0;
  re_since : u64 (tx - last) <= unsignal_batch sv;
  re_fresh : u64 (tx - last) = 0 -> cnt = 0;
  re_row : signaled_in (take (Z.to_nat cnt) row) = if (1 <=? u64 (tx - last)) && (u64 (tx - last) <=? cnt) then 1 else 0;
  re_open : open = if cnt <? u64 (tx - last) then 1 else 0 }.

(** The arrays of a thread have an entry per queue pair slot, and its replies
    to the queue pair [route cur] of a slot are in order. *)
Record threads_ok (sv : server) (route : Z -> Z) (s : rpc_st) : Prop := {
  to_tx : alen (send_tx s) = MAX_RECORDER_NUM * sv_machine_num sv;
  to_last : alen (last_signaled s) = MAX_RECORDER_NUM * sv_machine_num sv;
  to_cnt : alen (thread_batch_cnt s) = MAX_RECORDER_NUM * sv_machine_num sv;
  to_wr : alen (rs_wr s) = MAX_RECORDER_NUM * sv_machine_num sv;
  to_rows : Forall (fun row => alen row = thread_qp_batch sv) (rs_wr s);
  to_cnts : Forall (fun c => 0 <= c < thread_qp_batch sv) (thread_batch_cnt s);
  to_replies : forall cur tx last cnt row, (send_tx s).[cur] = Some tx -> (last_signaled s).[cur] = Some last ->
    (thread_batch_cnt s).[cur] = Some cnt -> (rs_wr s).[cur] = Some row ->
    replies_ok sv tx last cnt row (uncompleted (route cur) (rs_events s)) }.

(** The atomic operation a message stands for: the value it returns and the
    value it leaves. *)
Definition cas_spec (old cmp swap : Z) : Z * Z := (old, if old =? cmp then swap else old).

Section Server.
Context (sv : server) (Hsv : server_ok sv).

Definition chunk : Z := sv_region_size sv / 2 / (sv_machine_num sv * MAX_RECORDER_NUM).

Lemma window_chunk : window_size sv = Some (chunk / sizeof_rpc_op).
Proof.
destruct (so_machines _ Hsv). unfold window_size, tt_thread_num, udiv, chunk, sizeof_rpc_op, MAX_RECORDER_NUM.
rewrite (wrapu_small 64 (32 * sv_machine_num sv)) by lia. rewrite (wrapu_small 64 (2 * (32 * sv_machine_num sv))) by lia.
rewrite wrapu_small by lia.
destruct (Z.eqb_spec (2 * (32 * sv_machine_num sv) * 64) 0); [lia|]. rewrite !Z.div_div by lia. do 2 f_equal. lia.
Qed.

(** The slots of the requests lie in the first half of the region, those of the
  responses in the second half. *)
Lemma slots_spec cur j : 0 <= cur < MAX_RECORDER_NUM * sv_machine_num sv -> 0 <= j < chunk / sizeof_rpc_op ->
let o := cur * (chunk / sizeof_rpc_op) + j in
slot_off (chunk / sizeof_rpc_op) cur j = o /\ 0 <= o /\ sizeof_rpc_op * o + sizeof_rpc_op <= sv_region_size sv / 2 /\
req_slot sv o = sv_rpc_addr sv + sizeof_rpc_op * o /\
resp_slot sv o = sv_rpc_addr sv + sv_region_size sv / 2 + sizeof_rpc_op * o.
Proof.
intros Hc Hj o. destruct (so_machines _ Hsv), (so_size _ Hsv) as [Hs Hs']. pose proof (so_addr _ Hsv).
unfold MAX_RECORDER_NUM, sizeof_rpc_op in *. set (w := chunk / 64) in *.
assert (Hw : 64 * w * (32 * sv_machine_num sv) <= sv_region_size sv / 2).
{ assert (64 * w <= chunk) by (apply Z.mul_div_le; lia). assert (chunk * (sv_machine_num sv * 32) <= sv_region_size sv / 2).
  { unfold chunk, MAX_RECORDER_NUM. rewrite Z.mul_comm. apply Z.mul_div_le. lia. }
  nia. }
assert (sv_region_size sv / 2 + sv_region_size sv / 2 <= sv_region_size sv).
{ pose proof (Z.mul_div_le (sv_region_size sv) 2 ltac:(lia)). lia. }
assert (0 <= sv_region_size sv / 2) by (apply Z.div_pos; lia).
assert (Ho : 0 <= o /\ 64 * o + 64 <= sv_region_size sv / 2) by (unfold o; nia).
assert (0 <= cur * w <= o) by (unfold o; nia).
unfold slot_off, req_slot, resp_slot, resp_buf, sizeof_rpc_op. rewrite (wrapu_small 64 (cur * w)) by lia. fold o.
rewrite (wrapu_small 64 o), (wrapu_small 64 (sv_rpc_addr sv + sv_region_size sv / 2)) by lia.
rewrite !wrapu_small by lia. split_and!; lia.
Qed.

(** *** Replies *)

Lemma uncompleted_app gid a b : uncompleted gid (a ++ b) = uncompleted gid a + uncompleted gid b.
Proof. unfold uncompleted. induction a as [|[g|g wrs] a IH]; cbn [foldr app]; [done|destruct (g =? gid); lia|destruct (g =? gid); lia]. Qed.

Lemma signaled_in_app a b : signaled_in (a ++ b) = signaled_in a + signaled_in b.
Proof. unfold signaled_in, alen. rewrite filter_app, length_app. lia. Qed.

(** The next reply is the [n]-th of its row. *)
Lemma signaled_in_next n row tx (sg : bool) rkey a : (n < length row)%nat ->
signaled_in (take (S n) (<[n := Reply tx (if sg then IBV_SEND_SIGNALED else 0) rkey a]> row)) = signaled_in (take n row) + (if sg then 1 else 0).
Proof.
intros Hn. erewrite take_S_r by (by apply list_lookup_insert_eq). rewrite take_insert_ge by lia. rewrite signaled_in_app. f_equal.
unfold signaled_in. rewrite filter_cons. cbn [rp_flags]. by destruct sg.
Qed.

Lemma batch_full cnt b : 0 <= cnt < b -> b < 2 ^ 64 -> (Z.land cnt (u64 (b - 1)) =? u64 (b - 1)) = (cnt =? b - 1).
Proof.
intros Hc Hb. rewrite wrapu_small by lia. destruct (Z.eqb_spec cnt (b - 1)) as [->|Hne]; [by rewrite Z.land_diag, Z.eqb_refl|].
apply Z.eqb_neq. intros E. assert (0 <= b - 1 <= cnt); [|lia]. apply Z.ldiff_le; [lia|]. rewrite <- E, Z.land_comm. apply Z.bits_inj'. intros i _.
rewrite Z.ldiff_spec, Z.land_spec, Z.bits_0. by destruct (Z.testbit (b - 1) i), (Z.testbit cnt i).
Qed.

Lemma signal_due u tx last : 0 <= u < 64 -> in_width 64 tx -> in_width 64 last -> last mod 2 ^ u = 0 -> u64 (tx - last) <= 2 ^ u ->
(Z.land tx (u64 (2 ^ u - 1)) =? 0) = (u64 (tx - last) =? 0) || (u64 (tx - last) =? 2 ^ u).
Proof.
intros Hu Ht Hl Hm Hd. assert (2 ^ u < 2 ^ 64) by (apply Z.pow_lt_mono_r; lia). pose proof (Z.pow_pos_nonneg 2 u ltac:(lia) ltac:(lia)).
rewrite (wrapu_small 64 (2 ^ u - 1)), land_mod by lia.
assert (tx mod 2 ^ u = u64 (tx - last) mod 2 ^ u) as ->.
{ unfold wrapu. assert (2 ^ 64 = 2 ^ (64 - u) * 2 ^ u) as E by (rewrite <- Z.pow_add_r by lia; f_equal; lia).
  rewrite (Z.mod_mod_divide _ (2 ^ 64) (2 ^ u)) by (exists (2 ^ (64 - u)); exact E). rewrite Zminus_mod, Hm, Z.sub_0_r, Z.mod_mod by lia. done. }
pose proof (wrapu_range 64 (tx - last) ltac:(lia)). set (d := u64 (tx - last)) in *.
destruct (Z.eqb_spec d 0) as [->|]; [by rewrite Z.mod_0_l by lia|]. destruct (Z.eqb_spec d (2 ^ u)) as [->|]; [by rewrite Z.mod_same by lia|].
rewrite Z.mod_small by lia. by apply Z.eqb_neq.
Qed.

(** Replies to slot [cur] go to the server's queue pair [route cur], which no
  other slot is connected to. *)
Context (Hbt : batches_ok sv) (route : Z -> Z)
(Hroute : forall a b, 0 <= a < MAX_RECORDER_NUM * sv_machine_num sv -> 0 <= b < MAX_RECORDER_NUM * sv_machine_num sv -> route a = route b -> a = b).

(** Another reply: where it waits, the completion it waits for is to come. *)
Lemma replies_step tx last cnt row open rkey a :
let signaled := Z.land tx (u64 (unsignal_batch sv - 1)) =? 0 in let wait := signaled && negb (last =? tx) in
let row' := <[Z.to_nat cnt := Reply tx (if signaled then IBV_SEND_SIGNALED else 0) rkey a]> row in
replies_ok sv tx last cnt row open -> 0 <= cnt < thread_qp_batch sv -> alen row = thread_qp_batch sv ->
(wait = true -> open = 1) /\
replies_ok sv (u64 (tx + 1)) (if signaled then tx else last) (u64 (cnt + 1) mod thread_qp_batch sv) row'
  (open - (if wait then 1 else 0) + (if cnt =? thread_qp_batch sv - 1 then signaled_in row' else 0)).
Proof using Hsv Hbt.
intros signaled wait row' [T1 T2 T3 T4 T5 T6 T7] Hc Hrow. destruct Hbt as [(u & Hu & EU) HBU]. pose proof (so_batch _ Hsv) as HB.
assert (2 ^ u < 2 ^ 64) by (apply Z.pow_lt_mono_r; lia). pose proof (Z.pow_pos_nonneg 2 u ltac:(lia) ltac:(lia)).
assert (signaled = (u64 (tx - last) =? 0) || (u64 (tx - last) =? 2 ^ u)) as Esg by (unfold signaled; rewrite EU in *; by apply signal_due).
assert (signaled = true -> tx mod 2 ^ u = 0) as Emod.
{ unfold signaled. rewrite EU, (wrapu_small 64), land_mod by lia. apply Z.eqb_eq. }
assert ((last =? tx) = (u64 (tx - last) =? 0)) as Elt by (unfold in_width, wrapu in *; destruct (Z.eqb_spec last tx); symmetry; [apply Z.eqb_eq|apply Z.eqb_neq]; dlia).
assert (signaled_in (take (S (Z.to_nat cnt)) row') = signaled_in (take (Z.to_nat cnt) row) + (if signaled then 1 else 0)) as Enx
  by (apply signaled_in_next; unfold alen in Hrow; lia).
assert (u64 (u64 (tx + 1) - (if signaled then tx else last)) = if signaled then 1 else u64 (tx - last) + 1) as Ed.
{ pose proof (wrapu_range 64 (tx - last) ltac:(lia)). rewrite Esg. destruct (Z.eqb_spec (u64 (tx - last)) 0); [cbn [orb]|destruct (Z.eqb_spec (u64 (tx - last)) (2 ^ u)); cbn [orb]];
  unfold wrapu, in_width in *; dlia. }
assert (u64 (cnt + 1) mod thread_qp_batch sv = if cnt =? thread_qp_batch sv - 1 then 0 else cnt + 1) as Ecn.
{ rewrite wrapu_small by lia. destruct (Z.eqb_spec cnt (thread_qp_batch sv - 1)) as [->|]; [by rewrite Z.sub_add, Z.mod_same by lia|by apply Z.mod_small; lia]. }
assert (cnt = thread_qp_batch sv - 1 -> signaled_in row' = signaled_in (take (S (Z.to_nat cnt)) row')) as Efull.
{ intros E. rewrite take_ge; [done|]. unfold row'. rewrite length_insert. unfold alen in Hrow. lia. }
pose proof (wrapu_range 64 (tx - last) ltac:(lia)) as Hd. unfold wait. rewrite Elt. set (d := u64 (tx - last)) in *. clearbody d row' signaled. rewrite EU in *. split.
{ rewrite Esg, T7. destruct (Z.eqb_spec d 0), (Z.eqb_spec d (2 ^ u)); cbn; try done. intros _. by rewrite (proj2 (Z.ltb_lt _ _)) by lia. }
assert (d <= cnt -> d < 2 ^ u) as Hlt by lia.
constructor; rewrite ?Ed, ?EU, ?Ecn.
- unfold in_width. apply wrapu_range. lia.
- by destruct signaled.
- destruct signaled; [by apply Emod|done].
- destruct signaled; [lia|]. symmetry in Esg. apply orb_false_iff in Esg as [?%Z.eqb_neq ?%Z.eqb_neq]. lia.
- destruct signaled; lia.
- destruct (Z.eqb_spec cnt (thread_qp_batch sv - 1)).
  { change (signaled_in (take (Z.to_nat 0) row')) with 0. by destruct signaled; rewrite (proj2 (Z.leb_gt _ 0)), andb_false_r by lia. }
  replace (Z.to_nat (cnt + 1)) with (S (Z.to_nat cnt)) by lia. rewrite Enx, T6, Esg. destruct (Z.eqb_spec d 0), (Z.eqb_spec d (2 ^ u)); cbn [andb orb negb]; repeat (zcase; cbn [andb orb negb]; try lia).
- destruct (Z.eqb_spec cnt (thread_qp_batch sv - 1)) as [E|].
  { rewrite (Efull E), Enx, T6, T7, Esg. destruct (Z.eqb_spec d 0), (Z.eqb_spec d (2 ^ u)); cbn [andb orb negb]; repeat (zcase; cbn [andb orb negb]; try lia). }
  rewrite T7, Esg. destruct (Z.eqb_spec d 0), (Z.eqb_spec d (2 ^ u)); cbn [andb orb negb]; repeat (zcase; cbn [andb orb negb]; try lia).
Qed.
Lemma send_reply_ok s cur rkey rsp :
threads_ok sv route s -> 0 <= cur < MAX_RECORDER_NUM * sv_machine_num sv ->
exists s' ev, send_reply sv s cur (route cur) rkey rsp = Some s' /\ threads_ok sv route s' /\
  rs_mem s' = rs_mem s /\ rs_events s' = rs_events s ++ ev /\ reject_cnt s' = reject_cnt s.
Proof using Hsv Hbt Hroute.
intros [H1 H2 H3 H4 Hrows Hcnts Hrep] Hc. pose proof (so_batch _ Hsv) as HB.
destruct (aget_is_Some (send_tx s) cur ltac:(lia)) as (tx & Et). destruct (aget_is_Some (thread_batch_cnt s) cur ltac:(lia)) as (cnt & Ec).
destruct (aget_is_Some (last_signaled s) cur ltac:(lia)) as (last & El). destruct (aget_is_Some (rs_wr s) cur ltac:(lia)) as (row & Er).
pose proof (aget_Forall _ _ _ _ Hcnts Ec) as Hcnt. pose proof (aget_Forall _ _ _ _ Hrows Er) as Hrow. cbn beta in *.
destruct (replies_step tx last cnt row _ rkey (rsp + 48) (Hrep _ _ _ _ _ Et El Ec Er) Hcnt Hrow) as [Hwait Hnext].
unfold send_reply. rewrite Et, Ec, El, Er. cbn [mbind option_bind]. rewrite (aset_Some row) by lia. cbn [mbind option_bind].
rewrite (aset_Some (rs_wr s)) by lia. cbn [mbind option_bind]. rewrite batch_full by lia. set (sg := Z.land tx _ =? 0) in *. set (wt := sg && negb (last =? tx)) in *.
set (row' := <[Z.to_nat cnt := _]> row) in *.
assert ((if wt && (uncompleted (route cur) (rs_events s) <=? 0) then None else Some tt) = Some tt) as ->.
{ destruct wt; cbn [andb]; [|done]. by rewrite (Hwait eq_refl). }
assert ((if sg then aset (last_signaled s) cur tx else Some (last_signaled s)) = Some (if sg then <[Z.to_nat cur := tx]> (last_signaled s) else last_signaled s)) as ->
  by (destruct sg; [by rewrite aset_Some by lia|done]).
cbn [mbind option_bind]. unfold umod. destruct (Z.eqb_spec (thread_qp_batch sv) 0); [lia|]. cbn [mbind option_bind].
rewrite (aset_Some (thread_batch_cnt s)), (aset_Some (send_tx s)) by lia. cbn [mbind option_bind].
do 2 eexists. split; [reflexivity|]. split; [|done]. constructor; cbn [send_tx last_signaled thread_batch_cnt rs_wr rs_events]; try (unfold alen in *; rewrite ?length_insert; destruct sg; rewrite ?length_insert; lia).
- apply Forall_insert; [done|]. unfold row', alen in *. by rewrite length_insert.
- apply Forall_insert; [done|]. apply Z.mod_pos_bound. lia.
- intros c t l n' r Gt Gl Gn Gr. rewrite uncompleted_app.
  assert (0 <= c < MAX_RECORDER_NUM * sv_machine_num sv) as Hcr by (apply aget_Some_lt in Gt; unfold alen in *; rewrite length_insert in Gt; lia).
  destruct (Z.eq_dec c cur) as [->|Hne].
  + rewrite aget_insert_eq in Gt by lia. rewrite aget_insert_eq in Gn by lia. rewrite aget_insert_eq in Gr by lia. injection Gt as <-. injection Gn as <-. injection Gr as <-.
    replace l with (if sg then tx else last) by (destruct sg; [rewrite aget_insert_eq in Gl by lia|]; congruence).
    replace (uncompleted (route cur) (rs_events s) + _) with
      (uncompleted (route cur) (rs_events s) - (if wt then 1 else 0) + (if cnt =? thread_qp_batch sv - 1 then signaled_in row' else 0)); [exact Hnext|].
    destruct wt, (cnt =? _); cbn; rewrite ?Z.eqb_refl; lia.
  + rewrite aget_insert_ne in Gt by lia. rewrite aget_insert_ne in Gn by lia. rewrite aget_insert_ne in Gr by lia.
    assert ((last_signaled s).[c] = Some l) by (destruct sg; [by rewrite aget_insert_ne in Gl by lia|done]).
    replace (uncompleted (route c) (rs_events s) + _) with (uncompleted (route c) (rs_events s)); [by apply Hrep|].
    assert ((route cur =? route c) = false) as Hr by (apply Z.eqb_neq; intros E; apply Hne; symmetry; by apply Hroute).
    destruct wt, (cnt =? _); cbn; rewrite ?Hr; lia.
Qed.

(** *** One message *)

(** The addresses of slot [j] of [cur]. *)
Definition req_at (cur j : Z) : Z := sv_rpc_addr sv + sizeof_rpc_op * (cur * (chunk / sizeof_rpc_op) + j).
Definition rsp_at (cur j : Z) : Z := req_at cur j + sv_region_size sv / 2.

(** The target of a message is outside the RPC region. *)
Definition outside (addr : Z) : Prop := addr + 8 <= sv_rpc_addr sv \/ sv_rpc_addr sv + sv_region_size sv <= addr.

(** What happens between the accesses of the thread: anything but to the RPC
  region. *)
Context (env : mem -> mem) (Henv_ok : forall m, mem_ok m -> mem_ok (env m))
(Henv : forall m a, sv_rpc_addr sv <= a < sv_rpc_addr sv + sv_region_size sv -> ld8 (env m) a = ld8 m a).

(** A request slot [req] and its response slot, in the two halves. *)
Definition slot_pair (req : Z) : Prop :=
sv_rpc_addr sv <= req /\ req + sizeof_rpc_op <= sv_rpc_addr sv + sv_region_size sv / 2.

Lemma halves : 0 <= sv_region_size sv / 2 /\ sv_region_size sv / 2 + sv_region_size sv / 2 <= sv_region_size sv.
Proof. pose proof (so_size _ Hsv). pose proof (Z.mul_div_le (sv_region_size sv) 2 ltac:(lia)). split; [apply Z.div_pos; lia|lia]. Qed.

(** The compare-and-swap of the thread: it answers what the target holds at
  its second access, and swaps if the target holds the expected value at
  both. *)
Lemma handle_cas_spec m req addr swap cmp : let rsp := req + sv_region_size sv / 2 in
let old := ld_le 8 (env m) addr in let m' := handle_cas env m req rsp in
mem_ok m -> slot_pair req -> ld_le 8 m req = addr -> ld_le 8 m (req + 8) = swap -> ld_le 8 m (req + 16) = cmp -> outside addr ->
ld_le 8 m' (rsp + 48) = old /\ ld_le 8 m' (rsp + 56) = CRC_CHECK_MAGIC /\
ld_le 8 m' addr = (if ld_le 8 m addr =? cmp then snd (cas_spec old cmp swap) else old) /\
mem_ok m' /\
forall a, (a < addr \/ addr + 8 <= a) -> (a < req + 16 \/ req + 24 <= a) -> (a < rsp + 48 \/ rsp + 64 <= a) ->
  ld8 m' a = ld8 (env m) a.
Proof.
intros rsp old m' Hm [P1 P2] Ha Hs Hc Ho. pose proof halves. unfold sizeof_rpc_op, outside in *.
assert (K : forall k, 0 <= k <= 56 -> ld_le 8 (env m) (req + k) = ld_le 8 m (req + k)).
{ intros k Hk. apply ld_le_ext. intros. apply Henv. lia. }
assert (R : forall m a, mem_ok m -> 0 <= ld_le 8 m a < 2 ^ 64).
{ intros m0 a H0. apply ld_le_range. exact H0. }
pose proof (R _ addr (Henv_ok _ Hm)). pose proof (R _ (req + 8) Hm). pose proof (R _ (req + 16) Hm).
unfold m', handle_cas. rewrite Ha, Hc, (K 8), (K 16), Hs, Hc by lia. fold old. unfold cas_spec. subst rsp. cbn [snd].
destruct (ld_le 8 m addr =? cmp); [destruct (Z.eqb_spec old cmp)|].
all: mem_load; rewrite ?(K 16), ?Hc by lia; change (256 ^ Z.of_nat 8) with (2 ^ 64);
  rewrite ?Z.mod_small by (unfold old, CRC_CHECK_MAGIC in *; lia); split_and!; try done; try lia.
all: try (by repeat apply store_bytes_mem_ok; apply Henv_ok).
all: try (intros a A1 A2 A3; by mem_load). rewrite Z.mod_mod by lia. apply Z.mod_small. unfold old. lia.
Qed.

(** A message the server can handle: its queue pair is the one [gid] of the
  slot, and a CAS is on memory outside the region. *)
Record msg_ok (table : gmap Z Z) (gid : Z) (m : mem) (req : Z) : Prop := {
mk_qpn : table !! ld_le 8 m (req + 32) = Some gid;
mk_target : ld_le 8 m (req + 40) = CAS_OP_CODE -> outside (ld_le 8 m req) }.

Definition layout_ok (ly : server_layout) : Prop :=
alen (r_credit (l_strategies ly)) = NR_SLOTS /\ alen (r_credit (old_strategies ly)) = NR_SLOTS.

(** The verdict of the strategy on the message at [req]. *)
Definition verdict (ly : server_layout) (m : mem) (req : Z) : option bool :=
new ← (r_credit (l_strategies ly)).[counter_idx (ld_le 8 m req)];
old ← (r_credit (old_strategies ly)).[counter_idx (ld_le 8 m req)];
reject_of new old (consensus ly) (sv_machine_num sv).

Lemma verdict_total ly m req : layout_ok ly -> exists b, verdict ly m req = Some b.
Proof.
intros [H1 H2]. unfold verdict. pose proof (counter_idx_range (ld_le 8 m req)).
destruct (aget_is_Some (r_credit (l_strategies ly)) (counter_idx (ld_le 8 m req)) ltac:(lia)) as [new ->].
destruct (aget_is_Some (r_credit (old_strategies ly)) (counter_idx (ld_le 8 m req)) ltac:(lia)) as [old ->].
cbn [mbind option_bind]. pose proof (so_machines _ Hsv). unfold reject_of, umod.
rewrite (proj2 (Z.eqb_neq (sv_machine_num sv) 0)) by lia.
destruct (_ =? 1); [|eauto]. destruct (new =? 1); eauto.
Qed.

(** The handling of a message keeps the request half of the region but for the
  message, and the memory outside the region but for the target. *)
Lemma handle_op_frame m req reject : let rsp := req + sv_region_size sv / 2 in let m' := handle_op env m req rsp reject in
mem_ok m -> slot_pair req -> (ld_le 8 m (req + 40) = CAS_OP_CODE -> outside (ld_le 8 m req)) ->
mem_ok m' /\
forall a, sv_rpc_addr sv <= a < sv_rpc_addr sv + sv_region_size sv / 2 -> a < req \/ req + 64 <= a -> ld8 m' a = ld8 m a.
Proof.
intros rsp m' Hm Hp Ht. pose proof halves. subst rsp. unfold m', handle_op.
destruct (Z.eqb_spec (ld_le 8 m (req + 40)) CAS_OP_CODE) as [E|]; [specialize (Ht E)|]; destruct reject; cbn [andb negb].
all: try (destruct (_ =? FAA_OP_CODE)); try (by split).
all: try (split; [by repeat apply store_bytes_mem_ok|intros a A1 A2; unfold slot_pair, sizeof_rpc_op in Hp; by mem_load]).
destruct (handle_cas_spec m req _ _ _ Hm Hp eq_refl eq_refl eq_refl Ht) as (_ & _ & _ & Hok & F). split; [exact Hok|].
intros a A1 A2. unfold slot_pair, sizeof_rpc_op, outside in *. rewrite F, Henv by lia. done.
Qed.

(** *** The slots of a pass *)

Context (ly : server_layout) (Hly : layout_ok ly) (table : gmap Z Z).

Definition in_scan (k i j : Z) : Prop :=
0 <= k < sv_machine_num sv /\ 0 <= i < MAX_RECORDER_NUM /\ 0 <= j < chunk / sizeof_rpc_op.
Definition cur_of (k i : Z) : Z := k * MAX_RECORDER_NUM + i.
Definition pending (m : mem) (req : Z) : Prop := ld_le 8 m (req + 56) = CRC_CHECK_MAGIC.
#[local] Instance pending_dec m req : Decision (pending m req) := Z.eq_dec _ _.

Lemma scan_slot k i j : in_scan k i j ->
u64 (cur_of k i) = cur_of k i /\ 0 <= cur_of k i < MAX_RECORDER_NUM * sv_machine_num sv /\
req_slot sv (slot_off (chunk / sizeof_rpc_op) (cur_of k i) j) = req_at (cur_of k i) j /\
resp_slot sv (slot_off (chunk / sizeof_rpc_op) (cur_of k i) j) = rsp_at (cur_of k i) j /\
slot_pair (req_at (cur_of k i) j).
Proof.
intros (Hk & Hi & Hj). pose proof (so_machines _ Hsv).
assert (Hc : 0 <= cur_of k i < MAX_RECORDER_NUM * sv_machine_num sv) by (unfold cur_of, MAX_RECORDER_NUM in *; lia).
destruct (slots_spec _ _ Hc Hj) as (E & ? & ? & E1 & E2). rewrite E, E1, E2. unfold slot_pair, rsp_at, req_at, sizeof_rpc_op in *.
split_and!; try lia. apply wrapu_small. unfold MAX_RECORDER_NUM in *. lia.
Qed.

(** Different slots do not overlap. *)
Lemma req_apart k i j k' i' j' : in_scan k i j -> in_scan k' i' j' -> (k, i, j) <> (k', i', j') ->
req_at (cur_of k i) j + 64 <= req_at (cur_of k' i') j' \/ req_at (cur_of k' i') j' + 64 <= req_at (cur_of k i) j.
Proof.
intros (Hk & Hi & Hj) (Hk' & Hi' & Hj') Hne. unfold req_at, sizeof_rpc_op in *. set (w := chunk / 64) in *.
assert (cur_of k i * w + j <> cur_of k' i' * w + j') as Hd; [|lia].
intros E. assert (cur_of k i = cur_of k' i' /\ j = j') as [Ec ->].
{ destruct (Z.lt_trichotomy (cur_of k i) (cur_of k' i')) as [|[|]]; [exfalso; nia|split; [done|nia]|exfalso; nia]. }
unfold cur_of, MAX_RECORDER_NUM in *. assert (k = k' /\ i = i') as [-> ->] by lia. by apply Hne.
Qed.

Lemma serve_slot_idle rkey k i j s :
in_scan k i j -> ~ pending (rs_mem s) (req_at (cur_of k i) j) -> serve_slot env sv ly table rkey k i j s = Some s.
Proof.
intros Hs Hp. destruct (scan_slot _ _ _ Hs) as (E1 & _ & E2 & E3 & _). unfold serve_slot. rewrite window_chunk.
cbn [mbind option_bind]. fold (cur_of k i). rewrite E1, E2, E3. unfold pending in Hp. by rewrite (proj2 (Z.eqb_neq _ _) Hp).
Qed.

Lemma serve_slot_busy rkey k i j s : let req := req_at (cur_of k i) j in
in_scan k i j -> threads_ok sv route s -> pending (rs_mem s) req -> table !! ld_le 8 (rs_mem s) (req + 32) = Some (route (cur_of k i)) ->
exists reject s', verdict ly (rs_mem s) req = Some reject /\ serve_slot env sv ly table rkey k i j s = Some s' /\
  threads_ok sv route s' /\
  rs_mem s' = st_le 8 (handle_op env (rs_mem s) req (req + sv_region_size sv / 2) reject) (req + 56) 0.
Proof.
intros req Hs Ht Hp Hg. destruct (scan_slot _ _ _ Hs) as (E1 & Hc & E2 & E3 & _).
destruct (verdict_total ly (rs_mem s) req Hly) as [b Hb]. exists b.
set (s1 := if b then with_reject s (u64 (reject_cnt s + 1)) else s).
set (m' := st_le 8 (handle_op env (rs_mem s) req (rsp_at (cur_of k i) j) b) (req + 56) 0).
assert (Ht1 : threads_ok sv route (with_rmem s1 m')) by (unfold s1; destruct Ht; destruct b; by constructor).
destruct (send_reply_ok _ (cur_of k i) rkey (rsp_at (cur_of k i) j) Ht1 Hc) as (s' & ev & E & Ht' & Hm & _).
exists s'. split_and!; try done. unfold serve_slot. rewrite window_chunk. cbn [mbind option_bind].
fold (cur_of k i). rewrite E1, E2, E3. fold req. unfold pending in Hp. rewrite Hp. cbn [negb]. rewrite Z.eqb_refl. cbn [negb].
unfold verdict in Hb. apply bind_Some in Hb as (new & -> & Hb). apply bind_Some in Hb as (old & -> & Hb).
cbn [mbind option_bind]. rewrite Hb. cbn [mbind option_bind]. rewrite Hg. cbn [mbind option_bind]. exact E.
Qed.

(** Every pending message can be handled. *)
Definition msgs_ok (m : mem) : Prop :=
forall k i j, in_scan k i j -> pending m (req_at (cur_of k i) j) -> msg_ok table (route (cur_of k i)) m (req_at (cur_of k i) j).

(** Slot [(k, i, j)] comes before [(k', i', j')] in a pass. *)
Definition before (k i j k' i' j' : Z) : Prop := k < k' \/ k = k' /\ (i < i' \/ i = i' /\ j < j').

Record scanned (lo hi k i j : Z) (s : rpc_st) : Prop := {
sc_threads : threads_ok sv route s;
sc_mem : mem_ok (rs_mem s);
sc_msgs : msgs_ok (rs_mem s);
sc_done : forall k' i' j', in_scan k' i' j' -> lo <= i' < hi -> before k' i' j' k i j ->
          ~ pending (rs_mem s) (req_at (cur_of k' i') j') }.

Lemma before_step k i j k' i' j' : before k' i' j' k i (j + 1) -> (k', i', j') <> (k, i, j) -> before k' i' j' k i j.
Proof.
unfold before. intros Hb Hne. assert (k' <> k \/ i' <> i \/ j' <> j); [|lia].
destruct (decide (k' = k)) as [->|]; [|tauto]. destruct (decide (i' = i)) as [->|]; [|tauto].
destruct (decide (j' = j)) as [->|]; [done|tauto].
Qed.

(** The loads of another slot are kept. *)
Lemma slot_kept m m' req req' n d : slot_pair req' ->
(forall a, sv_rpc_addr sv <= a < sv_rpc_addr sv + sv_region_size sv / 2 -> a < req \/ req + 64 <= a -> ld8 m' a = ld8 m a) ->
req' + 64 <= req \/ req + 64 <= req' -> 0 <= d -> d + Z.of_nat n <= 64 -> ld_le n m' (req' + d) = ld_le n m (req' + d).
Proof. intros [P1 P2] F Hr Hd Hn. unfold sizeof_rpc_op in *. apply ld_le_ext. intros b Hb. apply F; lia. Qed.

Lemma scan_step rkey lo hi k i j s : in_scan k i j -> scanned lo hi k i j s ->
exists s', serve_slot env sv ly table rkey k i j s = Some s' /\ scanned lo hi k i (j + 1) s'.
Proof.
intros Hs [Ht Hm Hok Hd]. pose proof (scan_slot _ _ _ Hs) as (_ & _ & _ & _ & Hp).
destruct (decide (pending (rs_mem s) (req_at (cur_of k i) j))) as [Hpe|Hpe].
2: { exists s. split; [by apply serve_slot_idle|]. constructor; try done. intros k' i' j' Hs' Hi' Hb.
     destruct (decide ((k', i', j') = (k, i, j))) as [E|]; [by inv E|]. apply Hd; try done. by apply before_step. }
destruct (Hok _ _ _ Hs Hpe) as [Hq Htgt].
destruct (serve_slot_busy rkey k i j s Hs Ht Hpe Hq) as (b & s' & _ & E & Ht' & Em).
destruct (handle_op_frame (rs_mem s) (req_at (cur_of k i) j) b Hm Hp Htgt) as [Hm' F].
set (mh := handle_op _ _ _ _ _) in *. set (req := req_at (cur_of k i) j) in *.
assert (Fs : forall a, sv_rpc_addr sv <= a < sv_rpc_addr sv + sv_region_size sv / 2 -> a < req \/ req + 64 <= a ->
  ld8 (rs_mem s') a = ld8 (rs_mem s) a) by (intros a A1 A2; rewrite Em, <- F by done; apply ld8_st_le_out; lia).
assert (Hne : ~ pending (rs_mem s') req) by (unfold pending; rewrite Em, ld_le_st_le; done).
assert (Ho : forall k' i' j', in_scan k' i' j' -> (k', i', j') <> (k, i, j) -> forall n d, 0 <= d -> d + Z.of_nat n <= 64 ->
  ld_le n (rs_mem s') (req_at (cur_of k' i') j' + d) = ld_le n (rs_mem s) (req_at (cur_of k' i') j' + d)).
{ intros k' i' j' Hs' Hne' n d Hd0 Hd1. eapply slot_kept; [by apply scan_slot|exact Fs|by apply req_apart|done..]. }
exists s'. split; [done|]. constructor; [done|by rewrite Em; apply store_bytes_mem_ok| |].
- intros k' i' j' Hs' Hpe'. destruct (decide ((k', i', j') = (k, i, j))) as [E'|N]; [by inv E'|].
  specialize (Ho _ _ _ Hs' N). unfold pending in Hpe'. rewrite Ho in Hpe' by lia. destruct (Hok _ _ _ Hs' Hpe') as [K1 K2].
  pose proof (Ho 8%nat 0 ltac:(lia) ltac:(lia)) as H0. rewrite Z.add_0_r in H0.
  constructor; [by rewrite Ho by lia|by rewrite Ho, H0 by lia].
- intros k' i' j' Hs' Hi' Hb. destruct (decide ((k', i', j') = (k, i, j))) as [E'|N]; [by inv E'|].
  unfold pending. rewrite (Ho _ _ _ Hs' N) by lia. apply Hd; try done. by apply before_step.
Qed.

(** *** A pass *)

Definition per_thread : Z := MAX_RECORDER_NUM / rpc_thread_num sv.

Lemma pass_bounds id : 0 <= id < rpc_thread_num sv ->
scan_from sv id = Some (per_thread * id) /\ scan_from sv (id + 1) = Some (per_thread * (id + 1)) /\
0 <= per_thread * id <= per_thread * (id + 1) /\ per_thread * (id + 1) <= MAX_RECORDER_NUM.
Proof.
intros Hi. unfold scan_from, udiv. rewrite (proj2 (Z.eqb_neq (rpc_thread_num sv) 0)) by lia. fold per_thread.
assert (0 <= per_thread) by (apply Z.div_pos; [done|lia]).
pose proof (Z.mul_div_le MAX_RECORDER_NUM (rpc_thread_num sv) ltac:(lia)). fold per_thread in *.
split_and!; try done; nia.
Qed.

Lemma scanned_advance lo hi k i j k' i' j' s :
scanned lo hi k i j s -> (forall a b c, in_scan a b c -> lo <= b < hi -> before a b c k' i' j' -> before a b c k i j) ->
scanned lo hi k' i' j' s.
Proof. intros [] H. constructor; eauto. Qed.

Lemma scan_row rkey lo hi k i s : 0 <= k < sv_machine_num sv -> 0 <= i < MAX_RECORDER_NUM -> scanned lo hi k i 0 s ->
exists s', for_from (Z.to_nat (chunk / sizeof_rpc_op)) 0 (fun j s => serve_slot env sv ly table rkey k i j s) s = Some s' /\
  scanned lo hi k (i + 1) 0 s'.
Proof.
intros Hk Hi H0. destruct (for_from_inv (fun j s => scanned lo hi k i j s) (Z.to_nat (chunk / sizeof_rpc_op)) 0
  (fun j s => serve_slot env sv ly table rkey k i j s) s H0) as (s' & E & Hs').
{ intros j u Hj Hu. apply scan_step; [|done]. unfold in_scan. lia. }
exists s'. split; [done|]. eapply scanned_advance; [exact Hs'|]. intros a b c (Ha & Hb & Hc) _. unfold before. lia.
Qed.

Lemma scan_machine rkey lo hi k s : 0 <= k < sv_machine_num sv -> 0 <= lo <= hi -> hi <= MAX_RECORDER_NUM ->
scanned lo hi k lo 0 s ->
exists s', for_from (Z.to_nat (hi - lo)) lo (fun i s =>
    for_from (Z.to_nat (chunk / sizeof_rpc_op)) 0 (fun j s => serve_slot env sv ly table rkey k i j s) s) s = Some s' /\
  scanned lo hi (k + 1) lo 0 s'.
Proof.
intros Hk Hlo Hhi H0. destruct (for_from_inv (fun i s => scanned lo hi k i 0 s) (Z.to_nat (hi - lo)) lo (fun i s =>
    for_from (Z.to_nat (chunk / sizeof_rpc_op)) 0 (fun j s => serve_slot env sv ly table rkey k i j s) s) s H0) as (s' & E & Hs').
{ intros i u Hi Hu. apply scan_row; [done|lia|done]. }
exists s'. split; [done|]. eapply scanned_advance; [exact Hs'|]. intros a b c (Ha & Hb & Hc) Hab. unfold before. lia.
Qed.

(** C29: a pass of a server thread terminates and handles every message in the
  slots of the thread: when every pending message is of the queue pair of its
  slot and every CAS is on memory outside the RPC region, the pass returns,
  none of the thread's slots holds a pending message afterwards, the replies
  are in order for the next pass, and the remaining messages are still well
  formed; whatever other threads and the device do to the memory outside the
  region in between.  The waits for completions return because a reply that is
  signaled has been posted when the next one is ([batches_ok]: replies are
  posted at least as often as they are signaled) and the device completes what
  is posted. *)
Theorem rpc_pass_serves_all rkeys id s :
0 <= id < rpc_thread_num sv -> alen rkeys = sv_machine_num sv ->
threads_ok sv route s -> mem_ok (rs_mem s) -> msgs_ok (rs_mem s) ->
exists s', rpc_pass env sv ly table rkeys id s = Some s' /\ threads_ok sv route s' /\ mem_ok (rs_mem s') /\ msgs_ok (rs_mem s') /\
  forall k i j, in_scan k i j -> per_thread * id <= i < per_thread * (id + 1) -> ~ pending (rs_mem s') (req_at (cur_of k i) j).
Proof.
intros Hid Hr Ht Hm Hok. destruct (pass_bounds id Hid) as (E1 & E2 & B1 & B2). unfold rpc_pass.
rewrite window_chunk, E1, E2. cbn [mbind option_bind]. set (lo := per_thread * id) in *. set (hi := per_thread * (id + 1)) in *.
pose proof (so_machines _ Hsv). destruct (for_from_inv (fun k s => scanned lo hi k lo 0 s) (Z.to_nat (sv_machine_num sv)) 0 (fun k s =>
  rkey ← rkeys.[k]; for_from (Z.to_nat (hi - lo)) lo (fun i s =>
    for_from (Z.to_nat (chunk / sizeof_rpc_op)) 0 (fun j s => serve_slot env sv ly table rkey k i j s) s) s) s) as (s' & E & Hs').
- constructor; try done. intros k i j (? & ? & ?) ?. unfold before. lia.
- intros k u Hk Hu. destruct (aget_is_Some rkeys k ltac:(lia)) as [rkey ->]. cbn [mbind option_bind].
  apply scan_machine; lia || done.
- destruct Hs' as [F1 F2 F3 F4]. exists s'. split_and!; try done. intros k i j Hs Hi. apply F4; try done.
  destruct Hs. unfold before. lia.
Qed.

(** *** The client's slots *)

Lemma published_chunk r rk id : rmeta_ r = publish sv rk id -> rpc_chunk_of (rmeta_ r) = Some chunk.
Proof.
intros ->. pose proof (so_machines _ Hsv). unfold rpc_chunk_of, publish, udiv, chunk, MAX_RECORDER_NUM. cbn [machine_num rm_length].
rewrite wrapu_small by lia. by rewrite (proj2 (Z.eqb_neq _ _)) by lia.
Qed.

(** Where the hook of machine [machine_id] puts the message. *)
Lemma hook_slot r rk id idx sl r' :
rpc_ready r -> rmeta_ r = publish sv rk id -> 0 <= idx < MAX_RECORDER_NUM -> take_slot r idx = Some (sl, r') ->
exists off, (remote_off r).[idx] = Some off /\ in_scan (machine_id (lmeta_ r)) idx off /\
  s_remote sl = sv_rpc_addr sv + chunk * cur_of (machine_id (lmeta_ r)) idx + sizeof_rpc_op * off.
Proof.
intros Hr Hp Hi Hs. destruct (take_slot_spec r Hr idx Hi) as (c & off & ? & ? & ? & Ec & Eo & Ho & _ & _ & _ & _ & E).
rewrite (published_chunk _ _ _ Hp) in Ec. injection Ec as <-. rewrite E in Hs. injection Hs as <- _. exists off.
pose proof (rr_machine _ Hr) as Hm. rewrite Hp in Hm. cbn [machine_num publish] in Hm.
split_and!; try done. cbn [s_remote]. unfold remote_slot. rewrite Hp. done.
Qed.

Lemma hook_slot_aligned r rk id idx sl r' :
rpc_ready r -> rmeta_ r = publish sv rk id -> 0 <= idx < MAX_RECORDER_NUM -> take_slot r idx = Some (sl, r') ->
chunk mod sizeof_rpc_op = 0 ->
exists off, in_scan (machine_id (lmeta_ r)) idx off /\ s_remote sl = req_at (cur_of (machine_id (lmeta_ r)) idx) off.
Proof.
intros Hr Hp Hi Hs Ha. destruct (hook_slot _ _ _ _ _ _ Hr Hp Hi Hs) as (off & _ & Ho & ->). exists off. split; [done|].
unfold req_at. rewrite (Z.div_mod chunk sizeof_rpc_op) at 1 by done. rewrite Ha. lia.
Qed.

(** C30: the client's hook and the server agree on the slots when the part of
  the region of a queue pair is a multiple of the message size: then
  the slot the hook takes is the one the server scans for this machine and
  queue pair.  Otherwise a queue pair whose part does not start at a multiple
  of the message size writes its messages where the server never looks. *)
Theorem rpc_slots_agree r rk id idx sl r' :
rpc_ready r -> rmeta_ r = publish sv rk id -> 0 <= idx < MAX_RECORDER_NUM -> take_slot r idx = Some (sl, r') ->
(chunk mod sizeof_rpc_op = 0 ->
 exists off, in_scan (machine_id (lmeta_ r)) idx off /\ s_remote sl = req_at (cur_of (machine_id (lmeta_ r)) idx) off) /\
((chunk * cur_of (machine_id (lmeta_ r)) idx) mod sizeof_rpc_op <> 0 ->
 forall k i j, in_scan k i j -> s_remote sl <> req_at (cur_of k i) j).
Proof.
intros Hr Hp Hi Hs. split; [by eapply hook_slot_aligned|]. intros Hc k i j _.
destruct (hook_slot _ _ _ _ _ _ Hr Hp Hi Hs) as (off & _ & _ & ->). unfold req_at. intros E. apply Hc.
apply Z.mod_divide; [done|]. exists (cur_of k i * (chunk / sizeof_rpc_op) + j - off). lia.
Qed.

(** The device copies the 64 bytes of the message. *)
Lemma read_written_op ms mc ra sa : mem_ok mc -> read_rpc_op (store_bytes ms ra (load_bytes mc sa 64)) ra = read_rpc_op mc sa.
Proof.
intros Hm. unfold read_rpc_op.
assert (H : forall d, 0 <= d <= 56 -> ld_le 8 (store_bytes ms ra (load_bytes mc sa 64)) (ra + d) = ld_le 8 mc (sa + d)).
{ intros d Hd. apply ld_le_move. intros k Hk. rewrite <- !Z.add_assoc. by apply store_load_at; [|simpl; lia]. }
pose proof (H 0 ltac:(lia)) as H0. rewrite !Z.add_0_r in H0. rewrite !H by lia. by rewrite H0.
Qed.

(** *** The only message of a pass *)

(** Slot [(k, i, j)] holds the only message. *)
Definition only (m : mem) (k i j : Z) : Prop :=
forall k' i' j', in_scan k' i' j' -> (k', i', j') <> (k, i, j) -> ~ pending m (req_at (cur_of k' i') j').

Lemma pass_of_one rkeys id k i j s s' rkey :
0 <= id < rpc_thread_num sv -> alen rkeys = sv_machine_num sv -> rkeys.[k] = Some rkey ->
in_scan k i j -> per_thread * id <= i < per_thread * (id + 1) ->
only (rs_mem s) k i j -> only (rs_mem s') k i j ->
serve_slot env sv ly table rkey k i j s = Some s' -> rpc_pass env sv ly table rkeys id s = Some s'.
Proof.
intros Hid Hl Hrk Hs Hi Ho Ho' E. destruct (pass_bounds id Hid) as (E1 & E2 & B1 & B2). unfold rpc_pass.
rewrite window_chunk, E1, E2. cbn [mbind option_bind]. pose proof (so_machines _ Hsv). destruct Hs as (Hk & Hi' & Hj).
assert (Id : forall (t : rpc_st) k' i' j' rk, only (rs_mem t) k i j -> in_scan k' i' j' -> (k', i', j') <> (k, i, j) ->
  serve_slot env sv ly table rk k' i' j' t = Some t) by (intros; apply serve_slot_idle; auto).
assert (Row : forall t k' i' rk, only (rs_mem t) k i j -> 0 <= k' < sv_machine_num sv -> 0 <= i' < MAX_RECORDER_NUM -> (k', i') <> (k, i) ->
  for_from (Z.to_nat (chunk / sizeof_rpc_op)) 0 (fun j s => serve_slot env sv ly table rk k' i' j s) t = Some t).
{ intros t k' i' rk Ht Hk' Hi1 Hne. apply for_from_idle. intros j' Hj'. apply Id; [done|unfold in_scan; lia|congruence]. }
assert (Mach : forall t k', only (rs_mem t) k i j -> 0 <= k' < sv_machine_num sv -> k' <> k ->
  (rkey ← rkeys.[k']; for_from (Z.to_nat (per_thread * (id + 1) - per_thread * id)) (per_thread * id) (fun i s =>
    for_from (Z.to_nat (chunk / sizeof_rpc_op)) 0 (fun j s => serve_slot env sv ly table rkey k' i j s) s) t) = Some t).
{ intros t k' Ht Hk' Hne. destruct (aget_is_Some rkeys k' ltac:(lia)) as [rk ->]. cbn [mbind option_bind].
  apply for_from_idle. intros i' Hi1. apply Row; [done|lia|lia|congruence]. }
apply (for_from_single _ _ _ _ _ k); [lia| |intros; apply Mach; lia || done..].
rewrite Hrk. cbn [mbind option_bind].
apply (for_from_single _ _ _ _ _ i); [lia| |intros; apply Row; lia || (intros [=]; lia) || done..].
apply (for_from_single _ _ _ _ _ j); [lia|exact E|intros; apply Id; first [done|unfold in_scan; lia|intros [=]; lia]..].
Qed.

(** A CAS message, served. *)
Lemma serve_cas rkey k i j s addr swap cmp resp q : let req := req_at (cur_of k i) j in
in_scan k i j -> threads_ok sv route s -> mem_ok (rs_mem s) ->
read_rpc_op (rs_mem s) req = RpcOp addr swap cmp resp q CAS_OP_CODE CRC_CHECK_MAGIC ->
outside addr -> table !! q = Some (route (cur_of k i)) -> verdict ly (rs_mem s) req = Some false ->
exists s', serve_slot env sv ly table rkey k i j s = Some s' /\ threads_ok sv route s' /\
  rs_mem s' = st_le 8 (handle_cas env (rs_mem s) req (req + sv_region_size sv / 2)) (req + 56) 0.
Proof.
intros req Hs Ht Hm Hop Ho Hq Hv. unfold read_rpc_op in Hop. injection Hop as Ha Hsw Hc Hre Hqn Hopc Hcrc.
destruct (serve_slot_busy rkey k i j s Hs Ht Hcrc) as (b & s' & Hb & E & Ht' & Em).
{ fold req. by rewrite Hqn. }
fold req in Hb, Em. rewrite Hv in Hb. injection Hb as <-. exists s'. split_and!; try done. rewrite Em. unfold handle_op.
by rewrite Hopc.
Qed.

Lemma served_only m k i j : let req := req_at (cur_of k i) j in
in_scan k i j -> mem_ok m -> outside (ld_le 8 m req) -> only m k i j ->
only (st_le 8 (handle_cas env m req (req + sv_region_size sv / 2)) (req + 56) 0) k i j.
Proof.
intros req Hs Hm Ho Hon k' i' j' Hs' Hne. destruct (scan_slot _ _ _ Hs) as (_ & _ & _ & _ & Hp).
destruct (scan_slot _ _ _ Hs') as (_ & _ & _ & _ & Hp'). pose proof (req_apart _ _ _ _ _ _ Hs' Hs Hne) as Hap. fold req in Hap, Hp.
destruct (handle_cas_spec m req _ _ _ Hm Hp eq_refl eq_refl eq_refl Ho) as (_ & _ & _ & _ & F). pose proof halves.
unfold pending. rewrite (slot_kept m _ req); [by apply Hon|exact Hp'| |exact Hap|lia|lia].
intros a A1 A2. rewrite ld8_st_le_out by lia. unfold slot_pair, outside, sizeof_rpc_op in *. rewrite F, Henv by lia. done.
Qed.

(** C9: a CAS that the hook turned into a message is executed by the server.
  The client's hook took slot [sl] and wrote the message into its send
  buffer, and the device copied it to the server; when it is the only pending
  message, the queue pairs' parts are multiples of the message size and the
  strategy lets the server execute it, a pass of the thread that scans the
  queue pair's slots returns with the slot free, the answer holding the value
  [old] of the target at the second access, and the target swapped if it had
  the expected value at both accesses, and otherwise as it was: the effect of
  an atomic CAS unless the expected value appeared in between.  If the reply
  is one that waits for the completion of an earlier one, that one comes. *)
Theorem rpc_cas_served r rk id idx sl r' rkeys tid s ms mc addr swap cmp resp q :
let old := ld_le 8 (env (rs_mem s)) addr in
rpc_ready r -> rmeta_ r = publish sv rk id -> 0 <= idx < MAX_RECORDER_NUM -> take_slot r idx = Some (sl, r') ->
chunk mod sizeof_rpc_op = 0 ->
read_rpc_op mc (s_send sl) = RpcOp addr swap cmp resp q CAS_OP_CODE CRC_CHECK_MAGIC -> mem_ok mc ->
rs_mem s = store_bytes ms (s_remote sl) (load_bytes mc (s_send sl) 64) -> mem_ok ms ->
(forall k i j, in_scan k i j -> s_remote sl <> req_at (cur_of k i) j -> ~ pending (rs_mem s) (req_at (cur_of k i) j)) ->
threads_ok sv route s -> outside addr -> table !! q = Some (route (cur_of (machine_id (lmeta_ r)) idx)) -> verdict ly (rs_mem s) (s_remote sl) = Some false ->
alen rkeys = sv_machine_num sv -> 0 <= tid < rpc_thread_num sv -> per_thread * tid <= idx < per_thread * (tid + 1) ->
exists s', rpc_pass env sv ly table rkeys tid s = Some s' /\ threads_ok sv route s' /\ ~ pending (rs_mem s') (s_remote sl) /\
  ld_le 8 (rs_mem s') (s_remote sl + sv_region_size sv / 2 + 48) = old /\
  ld_le 8 (rs_mem s') addr = (if ld_le 8 (rs_mem s) addr =? cmp then snd (cas_spec old cmp swap) else old) /\
  (ld_le 8 (rs_mem s) addr = cmp \/ old <> cmp ->
   (ld_le 8 (rs_mem s') (s_remote sl + sv_region_size sv / 2 + 48), ld_le 8 (rs_mem s') addr) = cas_spec old cmp swap).
Proof.
intros old Hr Hp Hi Hsl Hal Hop Hmc Hms Hms' Hon Ht Ho Hq Hv Hrk Htid Hpart.
destruct (hook_slot_aligned _ _ _ _ _ _ Hr Hp Hi Hsl Hal) as (off & Hs & Er). set (k := machine_id (lmeta_ r)) in *.
rewrite <- (read_written_op ms mc (s_remote sl)), <- Hms in Hop by done.
assert (Hm : mem_ok (rs_mem s)) by (rewrite Hms; by apply store_bytes_mem_ok). rewrite Er in *. set (req := req_at (cur_of k idx) off) in *.
destruct (aget_is_Some rkeys k) as [rkey Ek]; [rewrite Hrk; apply Hs|].
destruct (serve_cas rkey k idx off s addr swap cmp resp q Hs Ht Hm Hop Ho Hq Hv) as (s' & E & Ht' & Em). fold req in Em.
assert (Ha : ld_le 8 (rs_mem s) req = addr) by (by injection Hop). rewrite <- Ha in Ho.
assert (Hon0 : only (rs_mem s) k idx off).
{ intros k' i' j' Hs' Hne. apply Hon; [done|]. pose proof (req_apart _ _ _ _ _ _ Hs' Hs Hne). unfold req. lia. }
pose proof (served_only _ _ _ _ Hs Hm Ho Hon0) as Hon1. fold req in Hon1. rewrite <- Em in Hon1.
destruct (scan_slot _ _ _ Hs) as (_ & _ & _ & _ & Hsp). fold req in Hsp.
destruct (handle_cas_spec (rs_mem s) req addr swap cmp Hm Hsp Ha ltac:(by injection Hop) ltac:(by injection Hop) ltac:(by rewrite <- Ha))
  as (C1 & _ & C2 & _ & _). fold old in C1, C2. pose proof halves. unfold slot_pair, outside, sizeof_rpc_op in *.
assert (R1 : ld_le 8 (rs_mem s') (req + sv_region_size sv / 2 + 48) = old) by (rewrite Em, ld_le_st_le_out by lia; exact C1).
assert (R2 : ld_le 8 (rs_mem s') addr = (if ld_le 8 (rs_mem s) addr =? cmp then snd (cas_spec old cmp swap) else old))
  by (rewrite Em, ld_le_st_le_out by (rewrite Ha in Ho; lia); exact C2).
exists s'. split; [by eapply (pass_of_one rkeys tid k idx off)|]. split; [done|]. split.
{ unfold pending. rewrite Em, ld_le_st_le. done. }
split; [done|]. split; [done|]. intros Hcmp. rewrite R1, R2. unfold cas_spec. cbn [snd]. f_equal.
destruct (Z.eqb_spec (ld_le 8 (rs_mem s) addr) cmp); [done|]. destruct (Z.eqb_spec old cmp); [by destruct Hcmp|done].
Qed.

(** A fetch-and-add message is answered with whatever the response slot holds:
  the memory is as before but for the check value of the message. *)
Theorem faa_not_executed rkey k i j s : let req := req_at (cur_of k i) j in
in_scan k i j -> threads_ok sv route s -> pending (rs_mem s) req -> table !! ld_le 8 (rs_mem s) (req + 32) = Some (route (cur_of k i)) ->
ld_le 8 (rs_mem s) (req + 40) = FAA_OP_CODE ->
exists s', serve_slot env sv ly table rkey k i j s = Some s' /\ rs_mem s' = st_le 8 (rs_mem s) (req + 56) 0.
Proof.
intros req Hs Ht Hp Hq Hf. destruct (serve_slot_busy rkey k i j s Hs Ht Hp Hq) as (b & s' & _ & E & _ & Em).
exists s'. split; [done|]. rewrite Em. fold req. unfold handle_op. rewrite Hf. done.
Qed.

(** A rejected CAS is answered with the new value of the request, which the
  target need not have held. *)
Theorem rejected_answer rkey k i j s : let req := req_at (cur_of k i) j in
in_scan k i j -> threads_ok sv route s -> mem_ok (rs_mem s) -> pending (rs_mem s) req ->
table !! ld_le 8 (rs_mem s) (req + 32) = Some (route (cur_of k i)) ->
ld_le 8 (rs_mem s) (req + 40) = CAS_OP_CODE -> verdict ly (rs_mem s) req = Some true ->
exists s', serve_slot env sv ly table rkey k i j s = Some s' /\
  ld_le 8 (rs_mem s') (req + sv_region_size sv / 2 + 48) = ld_le 8 (rs_mem s) (req + 8) /\
  forall a, outside a -> ld_le 8 (rs_mem s') a = ld_le 8 (rs_mem s) a.
Proof.
intros req Hs Ht Hm Hp Hq Hc Hv. destruct (serve_slot_busy rkey k i j s Hs Ht Hp Hq) as (b & s' & Hb & E & _ & Em).
fold req in Hb, Em. rewrite Hv in Hb. injection Hb as <-. exists s'. split; [done|]. rewrite Em. unfold handle_op. rewrite Hc. cbn [negb andb].
change (CAS_OP_CODE =? CAS_OP_CODE) with true. change (CAS_OP_CODE =? FAA_OP_CODE) with false. cbn [andb].
destruct (scan_slot _ _ _ Hs) as (_ & _ & _ & _ & Hsp). fold req in Hsp. pose proof halves.
unfold slot_pair, outside, sizeof_rpc_op in *. split.
- mem_load. apply Z.mod_small. apply (ld_le_range _ _ 8 Hm).
- intros a Ha. by mem_load.
Qed.

(** The threads share the slots of a machine out completely exactly when their
  number divides the number of slots; no two threads have the same slot. *)
Theorem scan_partition : 0 < rpc_thread_num sv ->
((forall i, 0 <= i < MAX_RECORDER_NUM -> exists id, 0 <= id < rpc_thread_num sv /\ per_thread * id <= i < per_thread * (id + 1)) <->
 (rpc_thread_num sv | MAX_RECORDER_NUM)) /\
forall i id id', per_thread * id <= i < per_thread * (id + 1) -> per_thread * id' <= i < per_thread * (id' + 1) -> id = id'.
Proof.
intros Hn. assert (0 <= per_thread) by (apply Z.div_pos; [done|lia]).
pose proof (Z.mul_div_le MAX_RECORDER_NUM (rpc_thread_num sv) Hn) as Hle. fold per_thread in Hle.
split; [split|intros i id id' H1 H2; nia].
- intros H1. destruct (H1 (MAX_RECORDER_NUM - 1) ltac:(done)) as (id & Hid & Hlo). exists per_thread. nia.
- intros [d Hd]. assert (per_thread = d) as Hp by (unfold per_thread; rewrite Hd; apply Z.div_mul; lia).
  intros i Hi. assert (0 < d) by (unfold MAX_RECORDER_NUM in *; nia). exists (i / d). rewrite Hp.
  pose proof (Z.div_mod i d ltac:(lia)). pose proof (Z.mod_pos_bound i d ltac:(lia)).
  assert (0 <= i / d) by (apply Z.div_pos; lia). split; [|lia]. split; [done|]. apply Z.div_lt_upper_bound; lia.
Qed.

End Server.

(** ** Sample server

    Two machines, four threads, a region of twice 64 times 640 bytes. *)

Definition sample_sv : server := Server 2 0x100000 (2 * (64 * 640)) 4 64 1.
Definition sample_credits : list Z := replicate (Z.to_nat NR_SLOTS) 1.
Definition sample_ly : server_layout := Layout (Resp 0 sample_credits) [] (Resp 0 []) (Resp 0 sample_credits) 0.
Definition sample_threads (m : mem) : rpc_st :=
  RpcSt m (replicate 64 0) (replicate 64 0) (replicate 64 0) (replicate 64 [Reply 0 0 0 0]) 0 [].
Definition sample_table : gmap Z Z := qpn_table [[7]; [7]].

(** The client's buffer with the message, and the server's memory with the
    expected value at the target. *)
Definition sample_mc : mem := write_rpc_op ∅ 135552 (135552 + 20480) 7 1 sample_cas.
Definition sample_ms (v : Z) : mem := st_le 8 ∅ 0xa000 v.
Definition sample_arrived (v : Z) : rpc_st :=
  sample_threads (store_bytes (sample_ms v) 0x106180 (load_bytes sample_mc 135552 64)).

Lemma sample_server_ok : server_ok sample_sv.
Proof. by constructor. Qed.

Lemma sample_batches_ok : batches_ok sample_sv.
Proof. split; [by exists 6|done]. Qed.

(** Queue pair 7 of machine 1 is connected to queue pair 1. *)
Definition sample_route (cur : Z) : Z := if cur =? 39 then 1 else cur + 100.

Lemma sample_route_inj a b : 0 <= a < MAX_RECORDER_NUM * 2 -> 0 <= b < MAX_RECORDER_NUM * 2 -> sample_route a = sample_route b -> a = b.
Proof. intros Ha Hb. unfold sample_route. repeat zcase; lia. Qed.

Lemma sample_threads_ok m : threads_ok sample_sv sample_route (sample_threads m).
Proof.
  constructor; try done; cbn [send_tx last_signaled thread_batch_cnt rs_wr rs_events sample_threads]; try (by apply Forall_replicate).
  intros cur tx last cnt row ->%aget_replicate_inv ->%aget_replicate_inv ->%aget_replicate_inv ->%aget_replicate_inv. by split.
Qed.

Lemma sample_layout_ok : layout_ok sample_ly.
Proof. by split; cbn; unfold sample_credits; rewrite alen_replicate, Z2Nat.id. Qed.

Lemma sample_mc_ok : mem_ok sample_mc.
Proof. unfold sample_mc, write_rpc_op. repeat first [apply store_bytes_mem_ok | apply empty_mem_ok | case_match]. Qed.

Lemma sample_message :
  read_rpc_op sample_mc 135552 = RpcOp 0xa000 6 5 (135552 + 20480) 100007 CAS_OP_CODE CRC_CHECK_MAGIC.
Proof. vm_compute. reflexivity. Qed.

Lemma ld_le_empty n a : ld_le n ∅ a = 0.
Proof. unfold ld_le. revert a. induction n as [|n IH]; intros a; [done|]. cbn [load_bytes le_val]. rewrite IH. done. Qed.

Lemma sample_only v k i j : in_scan sample_sv k i j -> 0x106180 <> req_at sample_sv (cur_of k i) j ->
  ~ pending (rs_mem (sample_arrived v)) (req_at sample_sv (cur_of k i) j).
Proof.
  intros (? & ? & ?) Hne. unfold pending, sample_arrived, sample_threads, req_at in *. cbn [rs_mem sv_rpc_addr sample_sv] in *.
  change (chunk sample_sv / sizeof_rpc_op) with 10 in *. unfold sizeof_rpc_op, cur_of, MAX_RECORDER_NUM in *.
  rewrite (ld_le_ext ∅).
  - rewrite ld_le_empty. done.
  - intros b Hb. rewrite ld8_store_bytes_out by (rewrite length_load_bytes; lia). unfold sample_ms. by rewrite ld8_st_le_out by lia.
Qed.

Lemma sample_verdict v : verdict sample_sv sample_ly (rs_mem (sample_arrived v)) 0x106180 = Some false.
Proof.
  unfold verdict. assert (ld_le 8 (rs_mem (sample_arrived v)) 0x106180 = 0xa000) as ->.
  { pose proof (read_written_op (sample_ms v) sample_mc 0x106180 135552 sample_mc_ok) as H. rewrite sample_message in H. exact (f_equal op_remote_addr H). }
  unfold sample_ly, sample_credits. cbn [l_strategies old_strategies r_credit]. rewrite !aget_replicate by done. done.
Qed.

Lemma rpc_cas_served_witness :
  exists s', rpc_pass id sample_sv sample_ly sample_table [1; 2] 0 (sample_arrived 5) = Some s' /\
    ld_le 8 (rs_mem s') 0xa000 = 6 /\ ld_le 8 (rs_mem s') (0x106180 + 40960 + 48) = 5.
Proof.
  destruct sample_slot as [r Es].
  assert (E0 : ld_le 8 (rs_mem (sample_arrived 5)) 0xa000 = 5) by (vm_compute; reflexivity).
  destruct (rpc_cas_served sample_sv sample_server_ok sample_batches_ok sample_route sample_route_inj id (fun m H => H) (fun m a H => eq_refl) sample_ly sample_layout_ok sample_table
    (sample_shm 1) 99 1 7 _ r [1; 2] 0 (sample_arrived 5) (sample_ms 5) sample_mc 0xa000 6 5 (135552 + 20480) 100007
    (sample_ready 1) eq_refl ltac:(split; [done|reflexivity]) Es eq_refl sample_message sample_mc_ok eq_refl
    ltac:(apply store_bytes_mem_ok, empty_mem_ok) (sample_only 5) (sample_threads_ok _) ltac:(left; done)
    ltac:(vm_compute; eauto) (sample_verdict 5) eq_refl ltac:(split; [done|reflexivity]) ltac:(split; [done|reflexivity]))
    as (s' & E & _ & _ & R1 & R2 & _).
  exists s'. unfold id in R1, R2. rewrite E0 in R1, R2. split; [exact E|]. split; [exact R2|exact R1].
Defined.

Lemma sample_mem_ok v : mem_ok (rs_mem (sample_arrived v)).
Proof. apply store_bytes_mem_ok, store_bytes_mem_ok, empty_mem_ok. Qed.

Lemma sample_msgs_ok v : msgs_ok sample_sv sample_route sample_table (rs_mem (sample_arrived v)).
Proof.
  intros k i j Hs Hp. destruct (Z.eq_dec 0x106180 (req_at sample_sv (cur_of k i) j)) as [E|N]; [|by destruct (sample_only v k i j Hs N)].
  rewrite <- E. pose proof (read_written_op (sample_ms v) sample_mc 0x106180 135552 sample_mc_ok) as H.
  rewrite sample_message in H. pose proof (f_equal op_remote_addr H) as Ha. pose proof (f_equal op_qpn H) as Hq.
  unfold read_rpc_op in Ha, Hq. cbn [op_remote_addr op_qpn] in Ha, Hq.
  constructor; cbn [rs_mem sample_arrived sample_threads].
  - rewrite Hq. assert (cur_of k i = 39) as ->; [|vm_compute; reflexivity]. destruct Hs as (_ & _ & Hj). unfold req_at in E.
    change (chunk sample_sv / sizeof_rpc_op) with 10 in *. cbn [sv_rpc_addr sample_sv] in E. unfold sizeof_rpc_op in E. lia.
  - intros _. rewrite Ha. by left.
Qed.

Lemma rpc_pass_serves_all_witness :
  exists s', rpc_pass id sample_sv sample_ly sample_table [1; 2] 0 (sample_arrived 5) = Some s' /\
    ~ pending (rs_mem s') (req_at sample_sv (cur_of 1 7) 0).
Proof.
  destruct (rpc_pass_serves_all sample_sv sample_server_ok sample_batches_ok sample_route sample_route_inj id (fun m H => H) (fun m a H => eq_refl) sample_ly sample_layout_ok sample_table
    [1; 2] 0 (sample_arrived 5) ltac:(split; [done|reflexivity]) eq_refl (sample_threads_ok _) (sample_mem_ok 5) (sample_msgs_ok 5))
    as (s' & E & _ & _ & _ & H).
  exists s'. split; [exact E|]. apply H; repeat split; done.
Defined.

Lemma rpc_slots_agree_witness :
  exists sl r', take_slot (sample_shm 1) 7 = Some (sl, r') /\
    exists off, in_scan sample_sv 1 7 off /\ s_remote sl = req_at sample_sv (cur_of 1 7) off.
Proof.
  destruct sample_slot as [r Es]. eexists _, r. split; [exact Es|].
  destruct (rpc_slots_agree sample_sv sample_server_ok (sample_shm 1) 99 1 7 _ r (sample_ready 1) eq_refl ltac:(split; [done|reflexivity]) Es)
    as [H _]. exact (H eq_refl).
Defined.

(** The expected value may appear between the two accesses to the target: the
    answer is then that of a CAS that succeeded, and nothing was swapped. *)
Theorem cas_reports_success_without_swap :
  (s ← rpc_pass (fun m => st_le 8 m 0xa000 5) sample_sv sample_ly sample_table [1; 2] 0 (sample_arrived 4);
   Some (ld_le 8 (rs_mem s) (0x106180 + 40960 + 48), ld_le 8 (rs_mem s) 0xa000)) = Some (5, 5).
Proof. vm_compute. reflexivity. Qed.

(** Replies that are signaled more often than they are posted: the second reply
    to a queue pair waits for the completion of the first, which is still in the
    row, and the thread never returns.  Nothing checks the configuration. *)
Theorem signaled_before_posted :
  let sv := Server 2 0x100000 (2 * (64 * 640)) 4 1 2 in
  let s := RpcSt ∅ (replicate 64 0) (replicate 64 0) (replicate 64 0) (replicate 64 (replicate 2 (Reply 0 0 0 0))) 0 [] in
  is_Some (send_reply sv s 39 1 5 0x10a180) /\ (s ← send_reply sv s 39 1 5 0x10a180; send_reply sv s 39 1 5 0x10a1c0) = None.
Proof. split; [eexists|]; vm_compute; reflexivity. Qed.

(** With three machines and a region of 128 KB, the messages of queue pair 1 of
    machine 0 are not in a slot the server scans. *)
Theorem three_machines_misaligned :
  let sv := Server 3 0x100000 (128 * 1024) 4 64 1 in
  chunk sv = 682 /\ (chunk sv * cur_of 0 1) mod sizeof_rpc_op <> 0.
Proof. by vm_compute. Qed.

(** While the machines acknowledge a strategy ([a] of [n] have, after [k]
    complete rounds), the server rejects a request for a slot that moves to the
    CPU if some machine has acknowledged and others have not; before the first
    acknowledgement it executes the request, although every machine may still
    use the device. *)
Theorem accepted_before_first_ack n k a : 0 < n -> 0 <= a < n -> reject_of 1 0 (k * n + a) n = Some (negb (a =? 0)).
Proof.
  intros Hn Ha. unfold reject_of, umod. cbn. rewrite (proj2 (Z.eqb_neq n 0)) by lia. cbn.
  by rewrite Z.add_comm, Z.mod_add, Z.mod_small by lia.
Qed.

(** ** The table of queue pairs *)

(** The keys of the table, in the order they are entered. *)
Fixpoint table_keys (i : Z) (dest : list (list Z)) : list Z :=
  match dest with [] => [] | l :: dest => map (fun q => q + i * QP_OFF) l ++ table_keys (i + 1) dest end.

(** The key at position [p] of [keys] is mapped to [gid + p], if it is not at
    an earlier position nor in the table before. *)
Lemma add_qps_lookup t i qpns : forall gid k,
  add_qps t i gid qpns !! k =
  match t !! k with Some v => Some v | None => (fun p => gid + Z.of_nat (fst p)) <$> list_find (k =.) (map (fun q => q + i * QP_OFF) qpns) end.
Proof.
  revert t. induction qpns as [|q qpns IH]; intros t gid k; cbn [add_qps map list_find fmap option_fmap option_map]; [by destruct (t !! k)|].
  rewrite IH. unfold emplace. destruct (decide (k = q + i * QP_OFF)) as [->|N].
  - destruct (t !! (q + i * QP_OFF)) eqn:E; [by rewrite E|]. rewrite lookup_insert_eq. cbn. f_equal. lia.
  - assert (forall t' : gmap Z Z, (match t !! (q + i * QP_OFF) with Some _ => t | None => <[q + i * QP_OFF := gid]> t end) = t' -> t' !! k = t !! k) as H.
    { intros t' <-. destruct (t !! (q + i * QP_OFF)); [done|]. by rewrite lookup_insert_ne. }
    rewrite (H _ eq_refl). destruct (t !! k); [done|]. destruct (list_find _ _) as [[p ?]|]; [|done]. cbn. f_equal. lia.
Qed.

Lemma qpn_table_from_lookup dest : forall t i gid k,
  qpn_table_from t i gid dest !! k =
  match t !! k with Some v => Some v | None => (fun p => gid + Z.of_nat (fst p)) <$> list_find (k =.) (table_keys i dest) end.
Proof.
  induction dest as [|l dest IH]; intros t i gid k; cbn [qpn_table_from table_keys]; [by destruct (t !! k)|].
  rewrite IH, add_qps_lookup. destruct (t !! k); [done|].
  destruct (list_find (k =.) (map (fun q => q + i * QP_OFF) l)) as [[p x]|] eqn:E.
  - by rewrite (list_find_app_l _ _ _ _ _ E).
  - cbn. rewrite (list_find_app_r _ _ _ E). destruct (list_find _ (table_keys _ _)) as [[p x]|]; [|done]. cbn. f_equal.
    rewrite length_map. unfold alen. lia.
Qed.

Lemma table_keys_range dest : forall i k, Forall (Forall (fun q => 0 <= q < QP_OFF)) dest -> In k (table_keys i dest) -> i * QP_OFF <= k.
Proof.
  induction dest as [|l dest IH]; intros i k Hd Hk; [done|]. inv Hd. cbn in Hk. apply in_app_or in Hk as [Hk|Hk].
  - apply in_map_iff in Hk as (q & <- & Hq). eapply List.Forall_forall in Hq; [|done]. cbn in Hq. lia.
  - specialize (IH _ _ ltac:(done) Hk). unfold QP_OFF in *. lia.
Qed.

Lemma table_keys_nodup dest : forall i,
  Forall (fun l => base.NoDup l) dest -> Forall (Forall (fun q => 0 <= q < QP_OFF)) dest -> base.NoDup (table_keys i dest).
Proof.
  induction dest as [|l dest IH]; intros i Hn Hd; cbn; [constructor|]. inv Hn. inv Hd. apply NoDup_app. split_and!; [| |by apply IH].
  - apply NoDup_fmap_2; [|done]. intros x y. lia.
  - intros k Hk Hk'. apply list_elem_of_In, in_map_iff in Hk as (q & <- & Hq). apply list_elem_of_In, table_keys_range in Hk'; [|done].
    match goal with H : Forall _ l |- _ => eapply List.Forall_forall in Hq; [|exact H] end. cbn in Hq. unfold QP_OFF in *. lia.
Qed.

(** The key of queue pair [j] of machine [i] is behind those of the machines
    before. *)
Lemma table_keys_at dest : forall b i l j q, dest !! i = Some l -> l !! j = Some q ->
  table_keys b dest !! (length (concat (take i dest)) + j)%nat = Some (q + (b + Z.of_nat i) * QP_OFF).
Proof.
  induction dest as [|l0 dest IH]; intros b i l j q Hi Hj; [done|]. destruct i as [|i]; cbn [table_keys take concat lookup list_lookup] in *.
  - injection Hi as ->. cbn. rewrite Z.add_0_r. rewrite lookup_app_l by (rewrite length_map; by eapply lookup_lt_Some).
    by rewrite list_lookup_fmap, Hj.
  - rewrite length_app, <- Nat.add_assoc, lookup_app_r by (rewrite length_map; lia). rewrite length_map.
    replace (length l0 + (length (concat (take i dest)) + j) - length l0)%nat with (length (concat (take i dest)) + j)%nat by lia.
    rewrite (IH (b + 1) i l j q Hi Hj). do 3 f_equal. lia.
Qed.

Lemma list_find_NoDup_at (l : list Z) p k : base.NoDup l -> l !! p = Some k -> list_find (k =.) l = Some (p, k).
Proof.
  intros Hn Hp. apply list_find_Some. split_and!; try done. intros j y Hj Hlt ->. assert (j = p) by (by eapply NoDup_lookup). lia.
Qed.

(** The server's table finds the queue pair a message came from: for
    clients whose queue pair numbers are below the offset between machines, the
    key the hook of machine [i] sends for its [j]-th queue pair is mapped to the
    server's queue pair connected to it, at position [j] behind those of the
    machines before; and in general a key is mapped to the first queue pair
    that has it. *)
Theorem qpn_table_routes dest :
  (forall k, qpn_table dest !! k = (fun p => Z.of_nat (fst p)) <$> list_find (k =.) (table_keys 0 dest)) /\
  (Forall (fun l => base.NoDup l) dest -> Forall (Forall (fun q => 0 <= q < QP_OFF)) dest ->
   forall i l j q, dest !! i = Some l -> l !! j = Some q ->
     qpn_table dest !! (q + Z.of_nat i * QP_OFF) = Some (Z.of_nat (length (concat (take i dest)) + j))).
Proof.
  assert (G : forall k, qpn_table dest !! k = (fun p => Z.of_nat (fst p)) <$> list_find (k =.) (table_keys 0 dest)).
  { intros k. unfold qpn_table. rewrite qpn_table_from_lookup. done. }
  split; [exact G|]. intros Hn Hd i l j q Hi Hj. rewrite G. pose proof (table_keys_nodup dest 0 Hn Hd) as Hnd.
  erewrite list_find_NoDup_at; [done|done|]. by erewrite (table_keys_at dest 0 i l j q).
Qed.

Lemma qpn_table_routes_witness : qpn_table [[7; 9]; [7]] !! (7 + 1 * QP_OFF) = Some 2.
Proof.
  destruct (qpn_table_routes [[7; 9]; [7]]) as [_ H]. apply (H ltac:(repeat constructor; set_solver) ltac:(repeat constructor; done) 1%nat [7] 0%nat 7 eq_refl eq_refl).
Defined.

(** Queue pair numbers have 24 bits: the keys of two machines can coincide, and
    the answers for the second go to the first. *)
Theorem qpn_table_collides : qpn_table [[200000]; [100000]] !! (100000 + 1 * QP_OFF) = Some 0.
Proof. reflexivity. Qed.
