(* ===== verification/Agent.v ===== *)
(** fusioncas/agent/agent.cpp: the agents, in the configuration agent.h selects
    (neither __SEQUENCER nor __FULL_ONLOAD).

    In every phase the agent of a client machine collects the counters of the
    machine's queue pairs from the shared region into messages, which the device
    writes to the agent server ([collect]).  The server adds up the counters of
    all machines ([scan_counter], [scan_pass]), decides which slots of the
    strategy the CPU serves ([decide]), and sends each machine the strategy
    ([sent]).  The client copies it into the shared region and acknowledges it,
    which is the subject of Consensus.v.

    Modelled apart from the printing and from what is only printed
    ([hot_req], [tt_over_count], [tt_thres_count], [factor]); [check_server_meta]
    and [send_server_meta] are the distribution of the RPC server's metadata.
    The RDMA transfers between the agents are the values they carry.  [top] is
    the element [std::priority_queue] has on top, about which the standard says
    only that it is a largest one.  [None] is undefined behaviour. *)

From Stdlib Require Import SpecFloat.
From stdpp Require Import list.
From S2P Require Import Prelude Sums Mem Recorder Wqe Fusa RpcServer.

(** ** Messages of counters *)

Definition COUNTER_PER_MESG : Z := (64 - 8) / 8.
Definition MESG_UNIT_NUM : Z := (MAX_COUNTER_NUM * SLOT_GRANULARITY + COUNTER_PER_MESG - 1) / COUNTER_PER_MESG.

Record client_layout := ClientLayout {
  cl_strategies : resp; cl_mesg_arr : list mesg_unit; cl_c_mesg_arr : list mesg_unit; s_meta_ : rpc_meta }.

(** Counter [j] of an array of messages, and its message's check value. *)
Definition mesg_get (ms : list mesg_unit) (j : Z) : option Z := u ← ms.[j / COUNTER_PER_MESG]; (m_counters u).[j mod COUNTER_PER_MESG].
Definition mesg_mod (ms : list mesg_unit) (j : Z) (f : Z -> Z) : option (list mesg_unit) :=
  u ← ms.[j / COUNTER_PER_MESG];
  cs ← amod (m_counters u) (j mod COUNTER_PER_MESG) f;
  aset ms (j / COUNTER_PER_MESG) (MesgUnit cs (m_crc u)).
Definition mesg_crc (ms : list mesg_unit) (j v : Z) : option (list mesg_unit) :=
  amod ms (j / COUNTER_PER_MESG) (fun u => MesgUnit (m_counters u) v).

(** ** [Agent::collect] *)

Record collecting := Collecting { co_records : list recorder; co_mesg : list mesg_unit; co_c_mesg : list mesg_unit; tt_count : Z }.

(** One counter of recorder [i].  The hook adds [add] and [c_add] to the two
    counters between the agent's read and its decrement. *)
Definition collect_counter (add c_add i j : Z) (first : bool) (s : collecting) : option collecting :=
  ms ← mesg_crc (co_mesg s) j CRC_COMPLETE;
  rec ← (co_records s).[i];
  incre ← (counters rec).[j];
  c_incre ← (c_counters rec).[j];
  ms ← mesg_mod ms j (fun x => if first then incre else u64 (x + incre));
  cms ← mesg_mod (co_c_mesg s) j (fun x => if first then c_incre else u64 (x + c_incre));
  cs ← amod (counters rec) j (fun c => u64 (u64 (c + add) + u64 (0 - incre)));
  ccs ← amod (c_counters rec) j (fun c => u64 (u64 (c + c_add) + u64 (0 - c_incre)));
  recs ← aset (co_records s) i (Recorder (qpn rec) cs ccs);
  Some (Collecting recs ms cms (u64 (tt_count s + incre))).

(** One recorder; [recorder_cnt] counts the registered ones. *)
Definition collect_recorder (add c_add : Z -> Z -> Z) (i : Z) (x : collecting * Z) : option (collecting * Z) :=
  let '(s, recorder_cnt) := x in
  rec ← (co_records s).[i];
  if qpn rec =? 0 then Some x else
  s ← for_from (Z.to_nat NR_SLOTS) 0 (fun j s => collect_counter (add i j) (c_add i j) i j (recorder_cnt =? 0) s) s;
  Some (s, recorder_cnt + 1).

Definition collect (add c_add : Z -> Z -> Z) (r : sh_local_region) (cl : client_layout) (tt : Z)
  : option (sh_local_region * client_layout * Z) :=
  x ← for_from (Z.to_nat MAX_RECORDER_NUM) 0 (collect_recorder add c_add)
        (Collecting (records r) (cl_mesg_arr cl) (cl_c_mesg_arr cl) tt, 0);
  let '(s, _) := x in
  Some (with_records r (co_records s), ClientLayout (cl_strategies cl) (co_mesg s) (co_c_mesg s) (s_meta_ cl), tt_count s).

(** ** Metadata of the RPC server *)

(** [Agent::check_server_meta]: the region gets the metadata that arrived, if
    the address is new. *)
Definition with_rmeta (r : sh_local_region) (v : rpc_meta) : sh_local_region :=
  Region (credit r) (records r) v (lmeta_ r) (remote_off r) (local_off r) (running r)
    (epoch r) (inflight r) (hotness_bloom r) (local_lock_table r).

Definition check_server_meta (r : sh_local_region) (cl : client_layout) : bool * sh_local_region :=
  if negb (rm_length (s_meta_ cl) =? 0) && negb (rm_rpc_addr (s_meta_ cl) =? rm_rpc_addr (rmeta_ r))
  then (true, with_rmeta r (s_meta_ cl)) else (false, r).

(** [Agent::send_server_meta], once the server has published [shm_meta]: what
    is written to each machine, and the agent's copy. *)
Definition send_server_meta (nr_machine : nat) (cur_meta shm_meta : rpc_meta) : list rpc_meta * rpc_meta :=
  if rm_rpc_addr cur_meta =? rm_rpc_addr shm_meta then ([], cur_meta) else
  (map (fun i => RpcMeta (machine_num shm_meta) (Z.of_nat i) (rkey shm_meta) (rm_rpc_addr shm_meta) (rm_length shm_meta) (rm_crc shm_meta))
     (seq 0 nr_machine),
   RpcMeta (machine_num cur_meta) (rm_machine_id cur_meta) (rkey shm_meta) (rm_rpc_addr shm_meta) (rm_length shm_meta) (rm_crc cur_meta)).

(** ** [Agent::server_func]: the scan *)

(** The sums over the machines, and of the machine being scanned: requests,
    requests served by the CPU, largest slot, current slot, its messages. *)
Record scan := Scan {
  sc_counters : list Z; sc_c_counters : list Z; real_counters : list Z; real_c_counters : list Z;
  tt_rnic_req : Z; tt_cpu_req : Z;
  m_req : Z; m_onload : Z; m_max : Z; tmp_slot_req : Z; m_mesg : list mesg_unit }.

(** The body of the loop over the counters; [cms] are the machine's messages
    of CPU counters, [first] is [scanned_cnt == 0]. *)
Definition scan_counter (first : bool) (cms : list mesg_unit) (j : Z) (s : scan) : option scan :=
  v ← mesg_get (m_mesg s) j;
  cv ← mesg_get cms j;
  let slot := u64 (tmp_slot_req s + v) in
  let boundary := negb (j =? 0) && (j mod SLOT_GRANULARITY =? 0) in
  ms ← mesg_crc (m_mesg s) j 0;
  cs ← amod (sc_counters s) j (fun x => if first then v else u64 (x + v));
  ccs ← amod (sc_c_counters s) j (fun x => if first then cv else u64 (x + cv));
  rc ← amod (real_counters s) (j mod MAX_COUNTER_NUM) (fun x => u64 (x + v));
  rcc ← amod (real_c_counters s) (j mod MAX_COUNTER_NUM) (fun x => u64 (x + cv));
  Some (Scan cs ccs rc rcc (u64 (tt_rnic_req s + v)) (u64 (tt_cpu_req s + cv))
          (u64 (m_req s + v)) (u64 (m_onload s + cv))
          (if boundary && (m_max s <? slot) then slot else m_max s) (if boundary then 0 else slot) ms).

(** One machine.  The loop around the loop over the counters runs once: its
    body counts all of them. *)
Definition scan_unit (first : bool) (mu : machine_unit) (s : scan) : option scan :=
  let clear l := if first then replicate (Z.to_nat MAX_COUNTER_NUM) 0 else l in
  for_from (Z.to_nat NR_SLOTS) 0 (scan_counter first (c_mesg_arr mu))
    (Scan (sc_counters s) (sc_c_counters s) (clear (real_counters s)) (clear (real_c_counters s))
       (tt_rnic_req s) (tt_cpu_req s) 0 0 0 0 (mesg_arr mu)).

(** The variables of a round; the lists are per machine. *)
Record round := Round {
  rd_scan : scan; rd_units : list machine_unit; scanned : list bool; scanned_cnt : Z;
  machine_req_per_slot : list Z; machine_onload_req : list Z; machine_max_req : list Z }.

(** The body of the loop over the machines: [phase] is the server's. *)
Definition scan_one (phase i : Z) (rd : round) : option round :=
  mu ← (rd_units rd).[i];
  b ← (scanned rd).[i];
  if (mu_phase mu =? phase) && negb b then
    s ← scan_unit (scanned_cnt rd =? 0) mu (rd_scan rd);
    us ← aset (rd_units rd) i (MachineUnit (m_mesg s) (c_mesg_arr mu) (mu_phase mu));
    bs ← aset (scanned rd) i true;
    rq ← aset (machine_req_per_slot rd) i (m_req s);
    on ← aset (machine_onload_req rd) i (m_onload s);
    mx ← aset (machine_max_req rd) i (m_max s);
    Some (Round s us bs (scanned_cnt rd + 1) rq on mx)
  else Some rd.

Definition scan_pass (phase nr_machine : Z) (rd : round) : option round :=
  for_from (Z.to_nat nr_machine) 0 (scan_one phase) rd.

(** ** [Agent::server_func]: the decision *)

(** IEEE doubles: conversion from [uint64_t], the literal 0.9, the comparison
    [req > c * 0.9], and [std::round] of a number that is not negative, converted
    to [uint64_t]. *)
Definition of_u64 (x : Z) : spec_float := binary_normalize 53 1024 x 0 false.
Definition dbl_0_9 : spec_float := S754_finite false 8106479329266893 (-53).
Definition above_0_9 (req c : Z) : bool := SFltb (SFmul 53 1024 (of_u64 c) dbl_0_9) (of_u64 req).
Definition round_u64 (x : spec_float) : option Z :=
  match x with
  | S754_zero _ => Some 0
  | S754_finite false m e =>
    let r := if 0 <=? e then Z.pos m * 2 ^ e else (Z.pos m + 2 ^ (- e - 1)) / 2 ^ (- e) in
    if r <? 2 ^ 64 then Some r else None
  | _ => None
  end.

Record agent_cfg := AgentCfg {
  agent_enabled : bool; threshold : Z; pa_enabled : bool; core_num : Z; nr_machine : Z }.

Definition CPU_CAPACITY : Z := 2500000.
Definition RNIC_THRESHOLD : Z := 10000000.
Definition RNIC_CAP_W_PA : Z := 14000000 / 2.
Definition TOTAL_CPU_CAP (cfg : agent_cfg) : Z := u64 (CPU_CAPACITY * core_num cfg).

Record cpu_task := CpuTask { req_cnt : Z; idx_ : Z; inner_idx : Z }.

(** What the decision changes: the strategy, the one before, the requests to
    move per slot, the queue of tasks and the load assigned so far. *)
Record decision := Decision {
  d_credit : list Z; d_old : list Z; onload_nums : list Z; cpu_tasks : list cpu_task; attempts : Z }.

(** Position [j] of slot [i] in the counters and in the strategy. *)
Definition sub_slot (i j : Z) : Z := i + j * MAX_COUNTER_NUM.

Section Decide.
Context (top : list cpu_task -> nat) (cfg : agent_cfg) (cs ccs real real_c : list Z) (req_per_slot : Z).

Definition pop (l : list cpu_task) : option (cpu_task * list cpu_task) := t ← l !! top l; Some (t, delete (top l) l).

(** A hot slot: its counters that are not zero become tasks. *)
Definition push_tasks (i : Z) (d : decision) : option decision :=
l ← for_from (Z.to_nat SLOT_GRANULARITY) 0 (fun j l =>
      c ← cs.[sub_slot i j]; Some (if 0 <? c then l ++ [CpuTask c i j] else l)) (cpu_tasks d);
r ← real.[i];
ons ← aset (onload_nums d) i (u64 (r - req_per_slot));
Some (Decision (d_credit d) (d_old d) ons l (attempts d)).

(** A slot the device has capacity for: the parts that fit go back to it.
  Without PCIe atomics ([keep]) the old strategy is kept. *)
Definition give_back (keep : bool) (overThres i : Z) (d : decision) : option decision :=
r ← real.[i];
x ← for_from (Z.to_nat SLOT_GRANULARITY) 0 (fun j x =>
      let '(cur, old, slot_reset_cnt) := x in
      c ← ccs.[sub_slot i j];
      if u64 (u64 (c + slot_reset_cnt) + r) <? overThres then
        was ← cur.[sub_slot i j];
        old' ← (if keep then aset old (sub_slot i j) was else Some old);
        cur' ← aset cur (sub_slot i j) 0;
        Some (cur', old', u64 (slot_reset_cnt + c))
      else Some x) (d_credit d, d_old d, 0);
let '(cur, old, _) := x in
Some (Decision cur old (onload_nums d) (cpu_tasks d) (attempts d)).

Definition classify_slot (keep : bool) (overThres i : Z) (d : decision) : option decision :=
r ← real.[i];
if overThres <=? r then push_tasks i d else give_back keep overThres i d.

(** One task: the CPU gets it while the slot has requests to move. *)
Definition assign_one (keep : bool) (t : cpu_task) (rest : list cpu_task) (d : decision) : option (bool * decision) :=
let s := sub_slot (idx_ t) (inner_idx t) in
on ← (onload_nums d).[idx_ t];
c0 ← cs.[idx_ t];
was ← (d_credit d).[s];
old ← (if keep then aset (d_old d) s was else Some (d_old d));
if (req_cnt t <? on) || above_0_9 (req_cnt t) c0 then
  ons ← aset (onload_nums d) (idx_ t) (u64 (on - req_cnt t));
  cur ← aset (d_credit d) s 1;
  c ← cs.[s];
  Some (true, Decision cur old ons rest (u64 (attempts d + c)))
else
  cur ← aset (d_credit d) s 0;
  Some (false, Decision cur old (onload_nums d) rest (attempts d)).

(** The loop over the tasks, [i] its index; without PCIe atomics it ends behind
  the task that exceeds the capacity, with them in the next turn. *)
Fixpoint assign (fuel : nat) (i : Z) (d : decision) : option decision :=
match fuel with
| O => None
| S fuel' =>
  if negb (i <? alen (cpu_tasks d)) then Some d else
  if pa_enabled cfg && (TOTAL_CPU_CAP cfg <? attempts d) then Some d else
  x ← pop (cpu_tasks d);
  let '(t, rest) := x in
  y ← assign_one (negb (pa_enabled cfg)) t rest d;
  let '(moved, d) := y in
  if negb (pa_enabled cfg) && moved && (TOTAL_CPU_CAP cfg <? attempts d) then Some d
  else assign fuel' (i + 1) d
end.

(** The skewed load. *)
Definition decide_skewed (overThres : Z) (cur old onload : list Z) : option decision :=
d ← for_from (Z.to_nat MAX_COUNTER_NUM) 0 (classify_slot (negb (pa_enabled cfg)) overThres) (Decision cur old onload [] 0);
assign (S (length (cpu_tasks d))) 0 d.

(** The uniform load with PCIe atomics: a share of every slot. *)
Definition onload_sub_slot : option Z :=
let cap := TOTAL_CPU_CAP cfg in
n ← round_u64 (SFmul 53 1024 (SFdiv 53 1024 (of_u64 cap) (of_u64 (u64 (cap + RNIC_CAP_W_PA)))) (of_u64 SLOT_GRANULARITY));
Some (if SLOT_GRANULARITY <? n then 0 else n).

Definition decide_uniform (cur : list Z) : option (list Z) :=
n ← onload_sub_slot;
for_from (Z.to_nat (MAX_COUNTER_NUM * n)) 0 (fun i cur => aset cur i 1) cur.

(** The load of all machines is uniform if no slot has twice the average. *)
Definition is_uniform : bool :=
forallb (fun x => u64 (fst x + snd x) <? u64 (req_per_slot * 2)) (zip real real_c).
End Decide.

(** The load of a machine. *)
Definition machine_is_uniform (cfg : agent_cfg) (req onload max : Z) : bool :=
  let avg := req / (MAX_COUNTER_NUM * SLOT_GRANULARITY) in
  if u64 (avg * 2) <? max then false
  else if (0 <? onload) && negb (pa_enabled cfg) then false
  else true.

(** The decision from the sums of a round: the server's layout, [onload_nums],
    and the flags that choose what each machine is sent. *)
Record outcome := Outcome { o_layout : server_layout; o_onload : list Z; o_uniform : bool; o_machines : list bool }.

Definition decide (top : list cpu_task -> nat) (cfg : agent_cfg) (rd : round) (ly : server_layout) (onload : list Z) : option outcome :=
  let s := rd_scan rd in
  let strag := l_strategies ly in
  let req_per_slot := u64 (tt_rnic_req s + tt_cpu_req s) / MAX_COUNTER_NUM in
  let overThres := if threshold cfg <? req_per_slot then req_per_slot else threshold cfg in
  let all v := Layout (Resp (u64 (r_phase strag + 1)) (replicate (Z.to_nat NR_SLOTS) v)) (rd_units rd) (uniform_strag ly)
                 (old_strategies ly) (consensus ly) in
  let flags := map (fun _ => true) (machine_max_req rd) in
  if negb (agent_enabled cfg) || (threshold cfg =? RNIC_THRESHOLD) then Some (Outcome (all 0) onload true flags)
  else if threshold cfg =? 0 then Some (Outcome (all 1) onload true flags)
  else
    let flags := zip_with (fun '(req, on) mx => machine_is_uniform cfg req on mx)
                   (zip (machine_req_per_slot rd) (machine_onload_req rd)) (machine_max_req rd) in
    let uniform := is_uniform (real_counters s) (real_c_counters s) req_per_slot in
    let phase := u64 (r_phase strag + 1) in
    let finish old_phase d :=
      Outcome (Layout (Resp phase (d_credit d)) (rd_units rd) (Resp phase (r_credit (uniform_strag ly)))
                 (Resp old_phase (d_old d)) (consensus ly)) (onload_nums d) uniform flags in
    if pa_enabled cfg then
      if uniform then
        cur ← decide_uniform cfg (r_credit strag);
        Some (finish (r_phase (old_strategies ly)) (Decision cur (r_credit (old_strategies ly)) onload [] 0))
      else
        let overThres := if threshold cfg / 2 <? req_per_slot then req_per_slot else threshold cfg in
        d ← decide_skewed top cfg (sc_counters s) (sc_c_counters s) (real_counters s) req_per_slot overThres
              (r_credit strag) (r_credit (old_strategies ly)) onload;
        Some (finish (r_phase (old_strategies ly)) d)
    else
      d ← decide_skewed top cfg (sc_counters s) (sc_c_counters s) (real_counters s) req_per_slot overThres
            (r_credit strag) (r_credit (old_strategies ly)) onload;
      Some (finish (u64 (r_phase (old_strategies ly) + 1)) d).

(** What machine [i] is sent. *)
Definition sent (cfg : agent_cfg) (o : outcome) (i : Z) : option resp :=
  u ← (o_machines o).[i];
  Some (if negb (o_uniform o) && u && negb (pa_enabled cfg) then uniform_strag (o_layout o) else l_strategies (o_layout o)).

(** ** Vocabulary of the theorems *)

Definition mesgs_ok (ms : list mesg_unit) : Prop :=
  alen ms = MESG_UNIT_NUM /\ Forall (fun u => alen (m_counters u) = COUNTER_PER_MESG) ms.
Definition recs_ok (recs : list recorder) : Prop := alen recs = MAX_RECORDER_NUM /\ Forall recorder_ok recs.

(** The counters of a recorder and of an array of messages; every array has
    them all. *)
Definition ctr (recs : list recorder) (i j : Z) : Z := default 0 (rec ← recs.[i]; (counters rec).[j]).
Definition c_ctr (recs : list recorder) (i j : Z) : Z := default 0 (rec ← recs.[i]; (c_counters rec).[j]).
Definition mv (ms : list mesg_unit) (j : Z) : Z := default 0 (mesg_get ms j).
Definition registered (recs : list recorder) (i : Z) : bool := negb (default 0 (qpn <$> recs.[i]) =? 0).

(** ** Messages *)

Lemma mesg_index j : 0 <= j < NR_SLOTS ->
  0 <= j / COUNTER_PER_MESG < MESG_UNIT_NUM /\ 0 <= j mod COUNTER_PER_MESG < COUNTER_PER_MESG.
Proof.
  intros Hj. change COUNTER_PER_MESG with 7. change MESG_UNIT_NUM with 1171. change NR_SLOTS with 8192 in Hj.
  pose proof (Z.mod_pos_bound j 7). split; [|lia]. split; [apply Z.div_pos; lia|]. apply Z.div_lt_upper_bound; lia.
Qed.

Lemma mesg_get_ok ms j : mesgs_ok ms -> 0 <= j < NR_SLOTS -> mesg_get ms j = Some (mv ms j).
Proof.
  intros [Hl Hf] Hj. destruct (mesg_index j Hj) as [H1 H2]. unfold mv, mesg_get.
  destruct (aget_is_Some ms (j / COUNTER_PER_MESG) ltac:(lia)) as [u Hu]. rewrite Hu. cbn [mbind option_bind].
  pose proof (aget_Forall _ _ _ _ Hf Hu) as Hc. cbn beta in Hc.
  destruct (aget_is_Some (m_counters u) (j mod COUNTER_PER_MESG) ltac:(lia)) as [v ->]. done.
Qed.

Lemma mesg_mod_spec ms j f : mesgs_ok ms -> 0 <= j < NR_SLOTS ->
  exists ms', mesg_mod ms j f = Some ms' /\ mesgs_ok ms' /\
    forall j', 0 <= j' < NR_SLOTS -> mv ms' j' = if j =? j' then f (mv ms j) else mv ms j'.
Proof.
  intros Hok Hj. pose proof Hok as [Hl Hf]. destruct (mesg_index j Hj) as [H1 H2].
  destruct (aget_is_Some ms (j / COUNTER_PER_MESG) ltac:(lia)) as [u Hu].
  pose proof (aget_Forall _ _ _ _ Hf Hu) as Hc. cbn beta in Hc.
  destruct (amod_Some (m_counters u) (j mod COUNTER_PER_MESG) f ltac:(lia)) as (v & cs & Ev & Es & Em).
  unfold mesg_mod. rewrite Hu. cbn [mbind option_bind]. rewrite Em. cbn [mbind option_bind]. rewrite aset_Some by lia.
  eexists. split; [done|].
  assert (E : aset ms (j / COUNTER_PER_MESG) (MesgUnit cs (m_crc u)) = Some (<[Z.to_nat (j / COUNTER_PER_MESG) := MesgUnit cs (m_crc u)]> ms))
    by (apply aset_Some; lia). split.
  - split; [by rewrite (aset_alen _ _ _ _ E)|]. eapply (aset_Forall _ _ _ _ _ E); [exact Hf|]. cbn. by rewrite (aset_alen _ _ _ _ Es).
  - intros j' Hj'. destruct (mesg_index j' Hj') as [H1' H2']. unfold mv, mesg_get. rewrite (aget_aset _ _ _ (j' / COUNTER_PER_MESG) _ E), Hu.
    destruct (Z.eqb_spec (j / COUNTER_PER_MESG) (j' / COUNTER_PER_MESG)) as [Ed|Nd]; cbn [mbind option_bind m_counters].
    + rewrite (aget_aset _ _ _ (j' mod COUNTER_PER_MESG) _ Es), Ev. rewrite <- Ed, Hu. cbn [mbind option_bind].
      destruct (Z.eqb_spec (j mod COUNTER_PER_MESG) (j' mod COUNTER_PER_MESG)) as [Em'|Nm]; cbn [default].
      * assert (j = j') as ->. { rewrite (Z.div_mod j COUNTER_PER_MESG), (Z.div_mod j' COUNTER_PER_MESG) by done. by rewrite Ed, Em'. }
        by rewrite Z.eqb_refl.
      * destruct (Z.eqb_spec j j') as [->|]; done.
    + destruct (Z.eqb_spec j j') as [->|]; done.
Qed.

Lemma mesg_crc_spec ms j v : mesgs_ok ms -> 0 <= j < NR_SLOTS ->
  exists ms', mesg_crc ms j v = Some ms' /\ mesgs_ok ms' /\ forall j', mv ms' j' = mv ms j'.
Proof.
  intros [Hl Hf] Hj. destruct (mesg_index j Hj) as [H1 H2].
  destruct (amod_Some ms (j / COUNTER_PER_MESG) (fun u => MesgUnit (m_counters u) v) ltac:(lia)) as (u & ms' & Eu & Es & Em).
  exists ms'. unfold mesg_crc. split; [done|]. split.
  - split; [by rewrite (aset_alen _ _ _ _ Es)|]. eapply (aset_Forall _ _ _ _ _ Es); [exact Hf|]. cbn. exact (aget_Forall _ _ _ _ Hf Eu).
  - intros j'. unfold mv, mesg_get. rewrite (aget_aset _ _ _ (j' / COUNTER_PER_MESG) _ Es).
    destruct (Z.eqb_spec (j / COUNTER_PER_MESG) (j' / COUNTER_PER_MESG)) as [Ed|]; [|done]. rewrite <- Ed, Eu. done.
Qed.

(** ** Collecting *)

Record collecting_ok (s : collecting) : Prop := {
  ok_recs : recs_ok (co_records s); ok_mesg : mesgs_ok (co_mesg s); ok_c_mesg : mesgs_ok (co_c_mesg s) }.

Lemma ctr_get recs i j : recs_ok recs -> 0 <= i < MAX_RECORDER_NUM -> 0 <= j < NR_SLOTS ->
  exists rec, recs.[i] = Some rec /\ recorder_ok rec /\ (counters rec).[j] = Some (ctr recs i j) /\
    (c_counters rec).[j] = Some (c_ctr recs i j).
Proof.
  intros [Hl Hf] Hi Hj. destruct (aget_is_Some recs i ltac:(lia)) as [rec Hr]. exists rec.
  pose proof (aget_Forall _ _ _ _ Hf Hr) as [H1 H2]. unfold ctr, c_ctr. rewrite Hr. cbn [mbind option_bind].
  destruct (aget_is_Some (counters rec) j ltac:(lia)) as [v ->]. destruct (aget_is_Some (c_counters rec) j ltac:(lia)) as [cv ->]. done.
Qed.

(** What the agent leaves in a counter is what the hook added meanwhile. *)
Lemma leave_added c add : u64 (u64 (c + add) + u64 (0 - c)) = u64 add.
Proof. rewrite wrapu_add_l, wrapu_add_r. f_equal. lia. Qed.

Lemma collect_counter_spec add c_add i j first s :
  collecting_ok s -> 0 <= i < MAX_RECORDER_NUM -> 0 <= j < NR_SLOTS ->
  exists s', collect_counter add c_add i j first s = Some s' /\ collecting_ok s' /\
    (forall i', registered (co_records s') i' = registered (co_records s) i') /\
    (forall i' j', ctr (co_records s') i' j' = if (i =? i') && (j =? j') then u64 add else ctr (co_records s) i' j') /\
    (forall i' j', c_ctr (co_records s') i' j' = if (i =? i') && (j =? j') then u64 c_add else c_ctr (co_records s) i' j') /\
    (forall j', 0 <= j' < NR_SLOTS -> mv (co_mesg s') j' = if j =? j'
       then (if first then ctr (co_records s) i j else u64 (mv (co_mesg s) j + ctr (co_records s) i j)) else mv (co_mesg s) j') /\
    (forall j', 0 <= j' < NR_SLOTS -> mv (co_c_mesg s') j' = if j =? j'
       then (if first then c_ctr (co_records s) i j else u64 (mv (co_c_mesg s) j + c_ctr (co_records s) i j)) else mv (co_c_mesg s) j').
Proof.
  intros [Hr Hm Hc] Hi Hj. destruct (mesg_crc_spec _ j CRC_COMPLETE Hm Hj) as (ms & E1 & Hm1 & V1).
  destruct (ctr_get _ _ _ Hr Hi Hj) as (rec & Er & [L1 L2] & Ec & Ecc).
  unfold collect_counter. rewrite E1. cbn [mbind option_bind]. rewrite Er. cbn [mbind option_bind]. rewrite Ec. cbn [mbind option_bind].
  rewrite Ecc. cbn [mbind option_bind]. set (c := ctr _ i j) in *. set (cc := c_ctr _ i j) in *.
  destruct (mesg_mod_spec ms j (fun x => if first then c else u64 (x + c)) Hm1 Hj) as (ms' & -> & Hm2 & V2). cbn [mbind option_bind].
  destruct (mesg_mod_spec (co_c_mesg s) j (fun x => if first then cc else u64 (x + cc)) Hc Hj) as (cms' & -> & Hc2 & V3).
  cbn [mbind option_bind].
  destruct (amod_Some (counters rec) j (fun x => u64 (u64 (x + add) + u64 (0 - c))) ltac:(lia)) as (x & cs & Ex & Es & ->).
  destruct (amod_Some (c_counters rec) j (fun x => u64 (u64 (x + c_add) + u64 (0 - cc))) ltac:(lia)) as (y & ccs & Ey & Esc & ->).
  cbn [mbind option_bind]. rewrite Ec in Ex. rewrite Ecc in Ey. injection Ex as <-. injection Ey as <-. rewrite leave_added in Es, Esc.
  destruct Hr as [Hrl Hrf].
  assert (Ea : aset (co_records s) i (Recorder (qpn rec) cs ccs) = Some (<[Z.to_nat i := Recorder (qpn rec) cs ccs]> (co_records s)))
    by (apply aset_Some; lia). rewrite Ea. cbn [mbind option_bind]. eexists. split; [done|]. cbn [co_records co_mesg co_c_mesg].
  split_and!.
  - constructor; cbn; try done. split; [by rewrite (aset_alen _ _ _ _ Ea)|]. apply (aset_Forall _ _ _ _ _ Ea); [done|].
    split; cbn; by rewrite ?(aset_alen _ _ _ _ Es), ?(aset_alen _ _ _ _ Esc).
  - intros i'. unfold registered. rewrite (aget_aset _ _ _ i' _ Ea). destruct (Z.eqb_spec i i') as [<-|]; [by rewrite Er|done].
  - intros i' j'. unfold ctr. rewrite (aget_aset _ _ _ i' _ Ea). destruct (Z.eqb_spec i i') as [<-|]; [|done].
    rewrite Er. cbn [mbind option_bind counters andb]. rewrite (aget_aset _ _ _ j' _ Es). by destruct (j =? j').
  - intros i' j'. unfold c_ctr. rewrite (aget_aset _ _ _ i' _ Ea). destruct (Z.eqb_spec i i') as [<-|]; [|done].
    rewrite Er. cbn [mbind option_bind c_counters andb]. rewrite (aget_aset _ _ _ j' _ Esc). by destruct (j =? j').
  - intros j' Hj'. rewrite V2 by done. rewrite V1. by destruct (j =? j').
  - intros j' Hj'. rewrite V3 by done. by destruct (j =? j').
Qed.

(** A recorder: every message gets its counter. *)
Definition taken (first : bool) (m c : Z) : Z := if first then c else u64 (m + c).

Record row_done (add c_add : Z -> Z -> Z) (i : Z) (first : bool) (s0 : collecting) (j : Z) (s : collecting) : Prop := {
  rw_ok : collecting_ok s;
  rw_reg : forall i', registered (co_records s) i' = registered (co_records s0) i';
  rw_ctr : forall i' j', 0 <= j' < NR_SLOTS ->
    ctr (co_records s) i' j' = if (i =? i') && (j' <? j) then u64 (add i j') else ctr (co_records s0) i' j';
  rw_c_ctr : forall i' j', 0 <= j' < NR_SLOTS ->
    c_ctr (co_records s) i' j' = if (i =? i') && (j' <? j) then u64 (c_add i j') else c_ctr (co_records s0) i' j';
  rw_mesg : forall j', 0 <= j' < NR_SLOTS ->
    mv (co_mesg s) j' = if j' <? j then taken first (mv (co_mesg s0) j') (ctr (co_records s0) i j') else mv (co_mesg s0) j';
  rw_c_mesg : forall j', 0 <= j' < NR_SLOTS ->
    mv (co_c_mesg s) j' = if j' <? j then taken first (mv (co_c_mesg s0) j') (c_ctr (co_records s0) i j') else mv (co_c_mesg s0) j' }.

Lemma collect_row add c_add i first s0 : collecting_ok s0 -> 0 <= i < MAX_RECORDER_NUM ->
  exists s, for_from (Z.to_nat NR_SLOTS) 0 (fun j s => collect_counter (add i j) (c_add i j) i j first s) s0 = Some s /\
    row_done add c_add i first s0 NR_SLOTS s.
Proof.
  intros H0 Hi. destruct (for_from_inv (row_done add c_add i first s0) (Z.to_nat NR_SLOTS) 0
    (fun j s => collect_counter (add i j) (c_add i j) i j first s) s0) as (s & E & Hs).
  - constructor; try done; intros *; intros; try (by rewrite (proj2 (Z.ltb_ge _ _)) by lia; rewrite ?andb_false_r).
  - intros j t Hj [Hok Hreg Hc Hcc Hm Hcm]. destruct (collect_counter_spec (add i j) (c_add i j) i j first t Hok Hi ltac:(lia))
      as (t' & -> & Hok' & Hreg' & Hc' & Hcc' & Hm' & Hcm'). exists t'. split; [done|].
    assert (L : forall j', (j' <? j + 1) = (j =? j') || (j' <? j)) by (intros j'; lia).
    assert (Hj0 : (j <? j) = false) by lia.
    constructor; [done|by intros; rewrite Hreg', Hreg|..].
    + intros i' j' Hj'. rewrite Hc', Hc, L by done. destruct (Z.eqb_spec j j') as [->|]; destruct (i =? i'); done.
    + intros i' j' Hj'. rewrite Hcc', Hcc, L by done. destruct (Z.eqb_spec j j') as [->|]; destruct (i =? i'); done.
    + intros j' Hj'. rewrite Hm', L by done. rewrite !Hm, Hc, Hj0, andb_false_r by lia. destruct (Z.eqb_spec j j') as [->|]; done.
    + intros j' Hj'. rewrite Hcm', L by done. rewrite !Hcm, Hcc, Hj0, andb_false_r by lia. destruct (Z.eqb_spec j j') as [->|]; done.
  - exists s. split; [done|]. by rewrite Z2Nat.id in Hs by done.
Qed.

(** The recorders below [i] are collected. *)
Definition upto (recs : list recorder) (f : Z -> Z -> Z) (i j : Z) : Z :=
  zsum (Z.to_nat i) (fun i' => if registered recs i' then f i' j else 0).
Definition nr_registered (recs : list recorder) (i : Z) : Z := zsum (Z.to_nat i) (fun i' => if registered recs i' then 1 else 0).

Record collected (add c_add : Z -> Z -> Z) (s0 : collecting) (i : Z) (x : collecting * Z) : Prop := {
  cd_ok : collecting_ok (fst x);
  cd_cnt : snd x = nr_registered (co_records s0) i;
  cd_reg : forall i', registered (co_records (fst x)) i' = registered (co_records s0) i';
  cd_ctr : forall i' j, 0 <= j < NR_SLOTS -> 0 <= i' ->
    ctr (co_records (fst x)) i' j = if (i' <? i) && registered (co_records s0) i' then u64 (add i' j) else ctr (co_records s0) i' j;
  cd_c_ctr : forall i' j, 0 <= j < NR_SLOTS -> 0 <= i' ->
    c_ctr (co_records (fst x)) i' j = if (i' <? i) && registered (co_records s0) i' then u64 (c_add i' j) else c_ctr (co_records s0) i' j;
  cd_mesg : forall j, 0 <= j < NR_SLOTS ->
    mv (co_mesg (fst x)) j = if snd x =? 0 then mv (co_mesg s0) j else u64 (upto (co_records s0) (ctr (co_records s0)) i j);
  cd_c_mesg : forall j, 0 <= j < NR_SLOTS ->
    mv (co_c_mesg (fst x)) j = if snd x =? 0 then mv (co_c_mesg s0) j else u64 (upto (co_records s0) (c_ctr (co_records s0)) i j) }.

Lemma nr_registered_nonneg recs i : 0 <= nr_registered recs i.
Proof. unfold nr_registered. induction (Z.to_nat i) as [|n IH]; [done|]. cbn. case_match; lia. Qed.

Lemma nr_registered_0 recs i f j : nr_registered recs i = 0 -> upto recs f i j = 0.
Proof.
  unfold nr_registered, upto. induction (Z.to_nat i) as [|n IH]; [done|]. cbn.
  pose proof (nr_registered_nonneg recs (Z.of_nat n)) as H. unfold nr_registered in H. rewrite Nat2Z.id in H.
  destruct (registered recs (Z.of_nat n)); intros Hs; [lia|]. rewrite IH by lia. done.
Qed.

(** Adding one recorder's counter to a message. *)
Lemma taken_step recs f i j m cnt : 0 <= i -> in_width 64 (f i j) -> cnt = nr_registered recs i -> registered recs i = true ->
  m = (if cnt =? 0 then m else u64 (upto recs f i j)) -> taken (cnt =? 0) m (f i j) = u64 (upto recs f (i + 1) j).
Proof.
  intros Hi Hw Hc Hreg Hm. unfold upto. rewrite zsum_succ, Hreg by done. fold (upto recs f i j). unfold taken.
  destruct (Z.eqb_spec cnt 0) as [E|].
  - rewrite nr_registered_0 by lia. rewrite Z.add_0_l, wrapu_small; [done|apply Hw].
  - rewrite Hm. apply wrapu_add_l.
Qed.

Lemma collect_step add c_add s0 i x :
  (forall i j, in_width 64 (ctr (co_records s0) i j) /\ in_width 64 (c_ctr (co_records s0) i j)) ->
  0 <= i < MAX_RECORDER_NUM -> collected add c_add s0 i x ->
  exists x', collect_recorder add c_add i x = Some x' /\ collected add c_add s0 (i + 1) x'.
Proof.
  destruct x as [s cnt]. intros Hw Hi [Hok Hcnt Hreg Hc Hcc Hm Hcm]. cbn [fst snd] in *.
  destruct (ctr_get _ i 0 (ok_recs _ Hok) Hi ltac:(done)) as (rec & Er & _).
  assert (L : forall i', (i' <? i + 1) = (i =? i') || (i' <? i)) by (intros; lia).
  assert (Hq : registered (co_records s0) i = negb (qpn rec =? 0)) by (rewrite <- Hreg; unfold registered; by rewrite Er).
  unfold collect_recorder. rewrite Er. cbn [mbind option_bind]. destruct (qpn rec =? 0); cbn [negb] in Hq.
  - exists (s, cnt). split; [done|].
    assert (U : forall f j, upto (co_records s0) f (i + 1) j = upto (co_records s0) f i j).
    { intros f j. unfold upto. rewrite zsum_succ by lia. rewrite Hq. lia. }
    constructor; cbn [fst snd]; try done.
    + rewrite Hcnt. unfold nr_registered. rewrite zsum_succ, Hq by lia. lia.
    + intros i' j Hj Hi'. rewrite Hc, L by done. destruct (Z.eqb_spec i i') as [<-|]; [|done]. by rewrite Hq, !andb_false_r.
    + intros i' j Hj Hi'. rewrite Hcc, L by done. destruct (Z.eqb_spec i i') as [<-|]; [|done]. by rewrite Hq, !andb_false_r.
    + intros j Hj. rewrite Hm, U by done. done.
    + intros j Hj. rewrite Hcm, U by done. done.
  - destruct (collect_row add c_add i (cnt =? 0) s Hok Hi) as (s' & -> & [Rok Rreg Rc Rcc Rm Rcm]). cbn [mbind option_bind].
    eexists. split; [done|]. pose proof (nr_registered_nonneg (co_records s0) i).
    assert (Hsame : forall j, 0 <= j < NR_SLOTS -> ctr (co_records s) i j = ctr (co_records s0) i j /\
      c_ctr (co_records s) i j = c_ctr (co_records s0) i j).
    { intros j Hj. rewrite Hc, Hcc by (done || lia). by rewrite (proj2 (Z.ltb_ge i i)) by lia. }
    constructor; cbn [fst snd]; [done| |by intros; rewrite Rreg, Hreg|..].
    + rewrite Hcnt. unfold nr_registered. rewrite zsum_succ, Hq by lia. lia.
    + intros i' j Hj Hi'. rewrite Rc, Hc, L by done. rewrite (proj2 (Z.ltb_lt j NR_SLOTS)) by lia.
      destruct (Z.eqb_spec i i') as [<-|]; [|done]. by rewrite Hq.
    + intros i' j Hj Hi'. rewrite Rcc, Hcc, L by done. rewrite (proj2 (Z.ltb_lt j NR_SLOTS)) by lia.
      destruct (Z.eqb_spec i i') as [<-|]; [|done]. by rewrite Hq.
    + intros j Hj. rewrite Rm by done. rewrite (proj2 (Z.ltb_lt j NR_SLOTS)), (proj2 (Z.eqb_neq (cnt + 1) 0)) by lia.
      rewrite (proj1 (Hsame j Hj)). apply taken_step; [lia|apply Hw|done|done|]. rewrite Hm by done. by destruct (cnt =? 0).
    + intros j Hj. rewrite Rcm by done. rewrite (proj2 (Z.ltb_lt j NR_SLOTS)), (proj2 (Z.eqb_neq (cnt + 1) 0)) by lia.
      rewrite (proj2 (Hsame j Hj)). apply taken_step; [lia|apply Hw|done|done|]. rewrite Hcm by done. by destruct (cnt =? 0).
Qed.

(** C11: the agent's collection loses no count and takes none twice, although
    the hooks keep counting: when a queue pair is registered, message [j] is the
    sum of the counters the registered recorders held, for the requests to the
    device and for those to the CPU, and afterwards each counter holds exactly
    what the hook added between the agent's read and its decrement.  Other
    recorders are untouched.  Without a registered queue pair nothing changes,
    the messages of the last phase included. *)
Theorem collect_counts add c_add r cl tt :
  region_ok r -> mesgs_ok (cl_mesg_arr cl) -> mesgs_ok (cl_c_mesg_arr cl) ->
  (forall i j, in_width 64 (ctr (records r) i j) /\ in_width 64 (c_ctr (records r) i j)) ->
  let n := nr_registered (records r) MAX_RECORDER_NUM in
  exists r' cl' tt', collect add c_add r cl tt = Some (r', cl', tt') /\ region_ok r' /\
    (forall i j, 0 <= i < MAX_RECORDER_NUM -> 0 <= j < NR_SLOTS ->
       registered (records r') i = registered (records r) i /\
       ctr (records r') i j = (if registered (records r) i then u64 (add i j) else ctr (records r) i j) /\
       c_ctr (records r') i j = (if registered (records r) i then u64 (c_add i j) else c_ctr (records r) i j)) /\
    (forall j, 0 <= j < NR_SLOTS ->
       mv (cl_mesg_arr cl') j = (if n =? 0 then mv (cl_mesg_arr cl) j else u64 (upto (records r) (ctr (records r)) MAX_RECORDER_NUM j)) /\
       mv (cl_c_mesg_arr cl') j = (if n =? 0 then mv (cl_c_mesg_arr cl) j else u64 (upto (records r) (c_ctr (records r)) MAX_RECORDER_NUM j))).
Proof.
  intros Hr Hm Hcm Hw n. set (s0 := Collecting (records r) (cl_mesg_arr cl) (cl_c_mesg_arr cl) tt).
  destruct (for_from_inv (collected add c_add s0) (Z.to_nat MAX_RECORDER_NUM) 0 (collect_recorder add c_add) (s0, 0)) as ([s cnt] & E & Hs).
  - constructor; cbn [fst snd]; try done.
    + constructor; try done. split; [apply Hr|apply Hr].
    + intros i j _ Hi. by rewrite (proj2 (Z.ltb_ge i 0)) by lia.
    + intros i j _ Hi. by rewrite (proj2 (Z.ltb_ge i 0)) by lia.
  - intros i x Hi Hx. apply collect_step; try done.
  - rewrite Z2Nat.id, Z.add_0_l in Hs by done. destruct Hs as [Hok Hcnt Hreg Hc Hcc Hms Hcms]. cbn [fst snd] in *.
    unfold collect. fold s0. rewrite E. cbn [mbind option_bind]. do 3 eexists. split; [done|].
    cbn [records with_records cl_mesg_arr cl_c_mesg_arr]. split; [|split].
    + destruct (ok_recs _ Hok) as [H1 H2]. destruct Hr. by constructor.
    + intros i j Hi Hj. rewrite Hreg, Hc, Hcc by (done || lia). by rewrite (proj2 (Z.ltb_lt i MAX_RECORDER_NUM)) by lia.
    + intros j Hj. rewrite Hms, Hcms, Hcnt by done. done.
Qed.

(** The counters of slot [k] are [MAX_COUNTER_NUM] apart. *)
Lemma slot_sum a k f : 0 <= k < MAX_COUNTER_NUM ->
  zsum (a * Z.to_nat MAX_COUNTER_NUM) (fun j => if j mod MAX_COUNTER_NUM =? k then f j else 0) = zsum a (fun t => f (sub_slot k t)).
Proof.
  intros Hk. induction a as [|a IH]; [done|]. rewrite Nat.mul_succ_l, zsum_app, IH. cbn [zsum]. f_equal.
  rewrite <- (zsum_single (Z.to_nat MAX_COUNTER_NUM) k (fun i => f (sub_slot i (Z.of_nat a)))) by (rewrite Z2Nat.id; done).
  apply zsum_ext. intros i Hi. rewrite Nat2Z.inj_mul, !Z2Nat.id in * by done. unfold sub_slot.
  rewrite Z.add_comm, Z.mod_add, Z.mod_small by (done || lia). done.
Qed.

#[local] Opaque zsum.

(** ** The scan *)

Definition lv (l : list Z) (j : Z) : Z := default 0 (l.[j]).

Record scan_ok (s : scan) : Prop := {
  so_counters : alen (sc_counters s) = NR_SLOTS; so_c_counters : alen (sc_c_counters s) = NR_SLOTS;
  so_real : alen (real_counters s) = MAX_COUNTER_NUM; so_real_c : alen (real_c_counters s) = MAX_COUNTER_NUM;
  so_width : forall k, in_width 64 (lv (real_counters s) k) /\ in_width 64 (lv (real_c_counters s) k) }.

Lemma amod_lv l i f : 0 <= i < alen l ->
  exists l', amod l i f = Some l' /\ alen l' = alen l /\ forall j, lv l' j = if i =? j then f (lv l i) else lv l j.
Proof.
  intros Hi. destruct (amod_Some l i f Hi) as (x & l' & Ex & Es & Em). exists l'. split; [done|]. split; [by apply aset_alen in Es|].
  intros j. unfold lv. rewrite (aget_aset _ _ _ j _ Es), Ex. by destruct (i =? j).
Qed.

(** The counters of slot [k] below [j]. *)
Definition slot_upto (v : Z -> Z) (j k : Z) : Z := zsum (Z.to_nat j) (fun j' => if j' mod MAX_COUNTER_NUM =? k then v j' else 0).

(** The counters below [j] of a machine with counters [v] and [cv] are added to
    [s0]. *)
Record scanning (first : bool) (v cv : Z -> Z) (s0 : scan) (j : Z) (s : scan) : Prop := {
  sg_ok : scan_ok s;
  sg_mesg : mesgs_ok (m_mesg s) /\ forall j', 0 <= j' < NR_SLOTS -> mv (m_mesg s) j' = v j';
  sg_counters : forall j', 0 <= j' < NR_SLOTS ->
    lv (sc_counters s) j' = if j' <? j then taken first (lv (sc_counters s0) j') (v j') else lv (sc_counters s0) j';
  sg_c_counters : forall j', 0 <= j' < NR_SLOTS ->
    lv (sc_c_counters s) j' = if j' <? j then taken first (lv (sc_c_counters s0) j') (cv j') else lv (sc_c_counters s0) j';
  sg_real : forall k, 0 <= k < MAX_COUNTER_NUM -> lv (real_counters s) k = u64 (lv (real_counters s0) k + slot_upto v j k);
  sg_real_c : forall k, 0 <= k < MAX_COUNTER_NUM -> lv (real_c_counters s) k = u64 (lv (real_c_counters s0) k + slot_upto cv j k);
  sg_tt : tt_rnic_req s = u64 (tt_rnic_req s0 + zsum (Z.to_nat j) v) /\ tt_cpu_req s = u64 (tt_cpu_req s0 + zsum (Z.to_nat j) cv);
  sg_req : m_req s = u64 (zsum (Z.to_nat j) v) /\ m_onload s = u64 (zsum (Z.to_nat j) cv) }.

Lemma scan_step_counter first v cv cms s0 j s :
  mesgs_ok cms -> (forall j, 0 <= j < NR_SLOTS -> mv cms j = cv j) -> 0 <= j < NR_SLOTS -> scanning first v cv s0 j s ->
  exists s', scan_counter first cms j s = Some s' /\ scanning first v cv s0 (j + 1) s'.
Proof.
  intros Hcm Hcv Hj [Hok [Hm Hv] Hc Hcc Hr Hrc [T1 T2] [R1 R2]]. destruct Hok as [L1 L2 L3 L4 Hw].
  assert (Hk : 0 <= j mod MAX_COUNTER_NUM < MAX_COUNTER_NUM) by (apply Z.mod_pos_bound; done).
  unfold scan_counter. rewrite !mesg_get_ok, Hv, Hcv by done. cbn [mbind option_bind].
  destruct (mesg_crc_spec _ j 0 Hm Hj) as (ms & -> & Hms & Vms). cbn [mbind option_bind].
  destruct (amod_lv (sc_counters s) j (fun x => if first then v j else u64 (x + v j)) ltac:(lia)) as (c1 & -> & A1 & V1).
  destruct (amod_lv (sc_c_counters s) j (fun x => if first then cv j else u64 (x + cv j)) ltac:(lia)) as (c2 & -> & A2 & V2).
  destruct (amod_lv (real_counters s) (j mod MAX_COUNTER_NUM) (fun x => u64 (x + v j)) ltac:(lia)) as (c3 & -> & A3 & V3).
  destruct (amod_lv (real_c_counters s) (j mod MAX_COUNTER_NUM) (fun x => u64 (x + cv j)) ltac:(lia)) as (c4 & -> & A4 & V4).
  cbn [mbind option_bind]. eexists. split; [done|].
  assert (L : forall j', (j' <? j + 1) = (j =? j') || (j' <? j)) by (intros j'; lia). assert (Hj0 : (j <? j) = false) by lia.
  constructor; cbn [sc_counters sc_c_counters real_counters real_c_counters tt_rnic_req tt_cpu_req m_req m_onload m_mesg].
  - constructor; cbn [sc_counters sc_c_counters real_counters real_c_counters]; try lia. intros k. rewrite V3, V4.
    destruct (j mod MAX_COUNTER_NUM =? k); [|apply Hw]. split; apply wrapu_range; done.
  - split; [done|]. intros j' Hj'. rewrite Vms. auto.
  - intros j' Hj'. rewrite V1, L, !Hc, Hj0 by done. destruct (Z.eqb_spec j j') as [->|]; done.
  - intros j' Hj'. rewrite V2, L, !Hcc, Hj0 by done. destruct (Z.eqb_spec j j') as [->|]; done.
  - intros k Hk'. rewrite V3, !Hr by done. unfold slot_upto. rewrite zsum_succ by lia.
    destruct (Z.eqb_spec (j mod MAX_COUNTER_NUM) k) as [->|]; [rewrite wrapu_add_l; f_equal; lia|f_equal; lia].
  - intros k Hk'. rewrite V4, !Hrc by done. unfold slot_upto. rewrite zsum_succ by lia.
    destruct (Z.eqb_spec (j mod MAX_COUNTER_NUM) k) as [->|]; [rewrite wrapu_add_l; f_equal; lia|f_equal; lia].
  - rewrite T1, T2, !wrapu_add_l, !zsum_succ by lia. split; f_equal; lia.
  - rewrite R1, R2, !wrapu_add_l, !zsum_succ by lia. done.
Qed.

Lemma scanning_start first v cv s0 :
  scan_ok s0 -> mesgs_ok (m_mesg s0) -> (forall j, 0 <= j < NR_SLOTS -> mv (m_mesg s0) j = v j) ->
  in_width 64 (tt_rnic_req s0) -> in_width 64 (tt_cpu_req s0) -> m_req s0 = 0 -> m_onload s0 = 0 -> scanning first v cv s0 0 s0.
Proof.
  intros Hok Hm Hv W1 W2 H1 H2. constructor; try done.
  - intros j' Hj'. by rewrite (proj2 (Z.ltb_ge j' 0)) by lia.
  - intros j' Hj'. by rewrite (proj2 (Z.ltb_ge j' 0)) by lia.
  - intros k Hk. unfold slot_upto. change (zsum _ _) with 0. rewrite Z.add_0_r, wrapu_small; [done|apply (so_width _ Hok)].
  - intros k Hk. unfold slot_upto. change (zsum _ _) with 0. rewrite Z.add_0_r, wrapu_small; [done|apply (so_width _ Hok)].
  - change (zsum _ v) with 0. change (zsum _ cv) with 0. by rewrite !Z.add_0_r, !wrapu_small.
Qed.

(** A machine. *)
Definition unit_ok (mu : machine_unit) : Prop := mesgs_ok (mesg_arr mu) /\ mesgs_ok (c_mesg_arr mu).
Definition cleared (first : bool) (x : Z) : Z := if first then 0 else x.

Lemma scan_unit_spec first mu s : let v := mv (mesg_arr mu) in let cv := mv (c_mesg_arr mu) in
  scan_ok s -> unit_ok mu -> in_width 64 (tt_rnic_req s) -> in_width 64 (tt_cpu_req s) ->
  exists s', scan_unit first mu s = Some s' /\ scan_ok s' /\
    mesgs_ok (m_mesg s') /\ (forall j, 0 <= j < NR_SLOTS -> mv (m_mesg s') j = v j) /\
    (forall j, 0 <= j < NR_SLOTS -> lv (sc_counters s') j = taken first (lv (sc_counters s) j) (v j) /\
       lv (sc_c_counters s') j = taken first (lv (sc_c_counters s) j) (cv j)) /\
    (forall k, 0 <= k < MAX_COUNTER_NUM ->
       lv (real_counters s') k = u64 (cleared first (lv (real_counters s) k) + zsum (Z.to_nat SLOT_GRANULARITY) (fun t => v (sub_slot k t))) /\
       lv (real_c_counters s') k = u64 (cleared first (lv (real_c_counters s) k) + zsum (Z.to_nat SLOT_GRANULARITY) (fun t => cv (sub_slot k t)))) /\
    tt_rnic_req s' = u64 (tt_rnic_req s + zsum (Z.to_nat NR_SLOTS) v) /\
    tt_cpu_req s' = u64 (tt_cpu_req s + zsum (Z.to_nat NR_SLOTS) cv) /\
    m_req s' = u64 (zsum (Z.to_nat NR_SLOTS) v) /\ m_onload s' = u64 (zsum (Z.to_nat NR_SLOTS) cv).
Proof.
  intros v cv Hok [Hm Hcm] W1 W2. unfold scan_unit.
  set (clear := fun l : list Z => if first then replicate (Z.to_nat MAX_COUNTER_NUM) 0 else l). set (s0 := Scan _ _ _ _ _ _ _ _ _ _ _).
  assert (Hcl : forall l k, 0 <= k < MAX_COUNTER_NUM -> lv (clear l) k = cleared first (lv l k)).
  { intros l k Hk. unfold clear, cleared, lv. destruct first; [|done]. by rewrite aget_replicate by (rewrite Z2Nat.id; done). }
  destruct Hok as [L1 L2 L3 L4 Hw].
  assert (Hclw : forall l k, in_width 64 (lv l k) -> in_width 64 (lv (clear l) k)).
  { intros l k H. unfold clear. destruct first; [|done]. unfold lv. destruct (_ .[k]) eqn:E; [|done]. apply aget_replicate_inv in E as ->. done. }
  destruct (for_from_inv (scanning first v cv s0) (Z.to_nat NR_SLOTS) 0 (scan_counter first (c_mesg_arr mu)) s0) as (s' & E & Hs).
  - assert (Hok0 : scan_ok s0).
    { constructor; cbn; try done; [unfold clear; destruct first..|]; try (rewrite alen_replicate, Z2Nat.id; done); try done.
      intros k. split; apply Hclw, Hw. }
    by apply scanning_start.
  - intros j t Hj Ht. eapply scan_step_counter; [done|done| |done]. rewrite Z2Nat.id in Hj by done. lia.
  - rewrite Z2Nat.id, Z.add_0_l in Hs by done. destruct Hs as [Hok' [Hm' Hv'] Hc Hcc Hr Hrc [T1 T2] [R1 R2]]. exists s'.
    split; [exact E|]. split; [done|]. split; [done|]. split; [done|]. split; [|split; [|split_and!; [exact T1|exact T2|exact R1|exact R2]]].
    + intros j Hj. rewrite Hc, Hcc by done. rewrite (proj2 (Z.ltb_lt j NR_SLOTS)) by lia. split; reflexivity.
    + intros k Hk. rewrite Hr, Hrc by done. unfold slot_upto.
      assert (Z.to_nat NR_SLOTS = Z.to_nat SLOT_GRANULARITY * Z.to_nat MAX_COUNTER_NUM)%nat as ->.
      { unfold NR_SLOTS. rewrite Z2Nat.inj_mul by done. apply Nat.mul_comm. }
      rewrite !slot_sum by done. 
      change (real_counters s0) with (clear (real_counters s)). change (real_c_counters s0) with (clear (real_c_counters s)).
      rewrite !Hcl by done. split; reflexivity.
Qed.

(** *** A round *)

Definition sc (rd : round) (i : Z) : bool := default false ((scanned rd).[i]).

Section Round.
Context (phase n : Z) (Hn : 0 < n) (data : list machine_unit) (Hdata_ok : Forall unit_ok data)
(Hwidth : forall mu j, In mu data -> in_width 64 (mv (mesg_arr mu) j) /\ in_width 64 (mv (c_mesg_arr mu) j)).

(** Machine [i]'s counters: its agent writes them, then the phase. *)
Definition dat (i j : Z) : Z := default 0 ((fun mu => mv (mesg_arr mu) j) <$> data.[i]).
Definition c_dat (i j : Z) : Z := default 0 ((fun mu => mv (c_mesg_arr mu) j) <$> data.[i]).

(** The sums over the machines that were scanned. *)
Definition total (rd : round) (f : Z -> Z) : Z := zsum (Z.to_nat n) (fun i => if sc rd i then f i else 0).
Definition slot_of (f : Z -> Z -> Z) (k i : Z) : Z := zsum (Z.to_nat SLOT_GRANULARITY) (fun t => f i (sub_slot k t)).
Definition all_of (f : Z -> Z -> Z) (i : Z) : Z := zsum (Z.to_nat NR_SLOTS) (f i).

Record round_inv (rd : round) : Prop := {
ri_scan : scan_ok (rd_scan rd);
ri_units : alen (rd_units rd) = n /\ Forall unit_ok (rd_units rd);
ri_lens : alen (scanned rd) = n /\ alen (machine_req_per_slot rd) = n /\ alen (machine_onload_req rd) = n /\ alen (machine_max_req rd) = n;
ri_arrived : forall i mu, (rd_units rd).[i] = Some mu -> sc rd i = false -> mu_phase mu = phase -> data.[i] = Some mu;
ri_cnt : scanned_cnt rd = total rd (fun _ => 1);
ri_counters : scanned_cnt rd <> 0 -> forall j, 0 <= j < NR_SLOTS ->
  lv (sc_counters (rd_scan rd)) j = u64 (total rd (fun i => dat i j)) /\
  lv (sc_c_counters (rd_scan rd)) j = u64 (total rd (fun i => c_dat i j));
ri_real : scanned_cnt rd <> 0 -> forall k, 0 <= k < MAX_COUNTER_NUM ->
  lv (real_counters (rd_scan rd)) k = u64 (total rd (slot_of dat k)) /\
  lv (real_c_counters (rd_scan rd)) k = u64 (total rd (slot_of c_dat k));
ri_tt : tt_rnic_req (rd_scan rd) = u64 (total rd (all_of dat)) /\ tt_cpu_req (rd_scan rd) = u64 (total rd (all_of c_dat));
ri_req : forall i, 0 <= i < n -> sc rd i = true ->
  lv (machine_req_per_slot rd) i = u64 (all_of dat i) /\ lv (machine_onload_req rd) i = u64 (all_of c_dat i) }.

Lemma total_nonneg rd : 0 <= total rd (fun _ => 1).
Proof. unfold total. induction (Z.to_nat n) as [|m IH]; [done|]. rewrite zsum_S. case_match; lia. Qed.

Lemma total_none rd f : total rd (fun _ => 1) = 0 -> total rd f = 0.
Proof.
unfold total. intros H. apply zsum_zero. intros i Hi. destruct (sc rd i) eqn:E; [|done]. exfalso.
assert (forall m, 0 <= zsum m (fun i => if sc rd i then 1 else 0)) as Hp
  by (intros m; induction m as [|m IH]; [done|]; rewrite zsum_S; case_match; lia).
replace (Z.to_nat n) with (Z.to_nat i + S (Z.to_nat n - S (Z.to_nat i)))%nat in H by lia. rewrite zsum_app in H.
change (S (Z.to_nat n - S (Z.to_nat i))) with (1 + (Z.to_nat n - S (Z.to_nat i)))%nat in H. rewrite zsum_app, zsum_S in H. change (zsum 0 _) with 0 in H.
rewrite Z2Nat.id, Z.add_0_r, E in H by lia. pose proof (Hp (Z.to_nat i)).
assert (forall m g, 0 <= zsum m (fun i => if sc rd (g i) then 1 else 0)) as Hq
  by (intros m g; induction m as [|m IH]; [done|]; rewrite zsum_S; case_match; lia).
pose proof (Hq (Z.to_nat n - S (Z.to_nat i))%nat (fun x => Z.of_nat (Z.to_nat i) + (Z.of_nat 1 + x))) as Hq'.
rewrite Z2Nat.id in Hq' by lia. lia.
Qed.

(** Scanning machine [i] adds its part to every sum. *)
Lemma total_add rd rd' f i : 0 <= i < n -> sc rd i = false ->
(forall i', sc rd' i' = if i =? i' then true else sc rd i') -> total rd' f = total rd f + f i.
Proof.
intros Hi Hs Hs'. unfold total. rewrite <- (zsum_single (Z.to_nat n) i f) by (rewrite Z2Nat.id; lia). rewrite <- zsum_plus.
apply zsum_ext. intros i' Hi'. rewrite Hs'. destruct (Z.eqb_spec i i') as [<-|].
- rewrite Z.eqb_refl, Hs. lia.
- rewrite (proj2 (Z.eqb_neq i' i)) by done. lia.
Qed.
(** The sums after one more machine. *)
Lemma taken_total rd rd' (f : Z -> Z) i x cnt : 0 <= i < n -> sc rd i = false ->
(forall i', sc rd' i' = if i =? i' then true else sc rd i') -> cnt = total rd (fun _ => 1) -> in_width 64 (f i) ->
(cnt <> 0 -> x = u64 (total rd f)) -> taken (cnt =? 0) x (f i) = u64 (total rd' f).
Proof.
intros Hi Hs Hs' Hc Hw Hx. rewrite (total_add rd rd' f i) by done. unfold taken. destruct (Z.eqb_spec cnt 0) as [E|E].
- rewrite total_none by lia. rewrite Z.add_0_l, wrapu_small; [done|apply Hw].
- rewrite Hx by done. apply wrapu_add_l.
Qed.

Lemma cleared_total rd rd' (f : Z -> Z) i x cnt : 0 <= i < n -> sc rd i = false ->
(forall i', sc rd' i' = if i =? i' then true else sc rd i') -> cnt = total rd (fun _ => 1) ->
(cnt <> 0 -> x = u64 (total rd f)) -> u64 (cleared (cnt =? 0) x + f i) = u64 (total rd' f).
Proof.
intros Hi Hs Hs' Hc Hx. rewrite (total_add rd rd' f i) by done. unfold cleared. destruct (Z.eqb_spec cnt 0) as [E|E].
- by rewrite total_none by lia.
- rewrite Hx by done. apply wrapu_add_l.
Qed.

Lemma lv_aset l l' i x j : aset l i x = Some l' -> lv l' j = if i =? j then x else lv l j.
Proof. intros E. unfold lv. rewrite (aget_aset _ _ _ j _ E). by destruct (i =? j). Qed.

(** The sums of [s] are those of the machines scanned in [rd]. *)
Definition sums (rd : round) (s : scan) : Prop :=
(forall j, 0 <= j < NR_SLOTS -> lv (sc_counters s) j = u64 (total rd (fun i => dat i j)) /\
   lv (sc_c_counters s) j = u64 (total rd (fun i => c_dat i j))) /\
(forall k, 0 <= k < MAX_COUNTER_NUM -> lv (real_counters s) k = u64 (total rd (slot_of dat k)) /\
   lv (real_c_counters s) k = u64 (total rd (slot_of c_dat k))) /\
tt_rnic_req s = u64 (total rd (all_of dat)) /\ tt_cpu_req s = u64 (total rd (all_of c_dat)).

Lemma scan_adds i mu rd rd' : 0 <= i < n -> round_inv rd -> sc rd i = false -> data.[i] = Some mu -> unit_ok mu ->
(forall i', sc rd' i' = if i =? i' then true else sc rd i') ->
exists s, scan_unit (scanned_cnt rd =? 0) mu (rd_scan rd) = Some s /\ scan_ok s /\ mesgs_ok (m_mesg s) /\ sums rd' s /\
  m_req s = u64 (all_of dat i) /\ m_onload s = u64 (all_of c_dat i).
Proof.
intros Hi [Hs _ _ _ Hcnt Hc Hr [T1 T2] _] Hb Hd Hmu Hsc.
assert (Hv : forall j, dat i j = mv (mesg_arr mu) j /\ c_dat i j = mv (c_mesg_arr mu) j) by (intros j; unfold dat, c_dat; by rewrite Hd).
assert (Hw : forall j, in_width 64 (dat i j) /\ in_width 64 (c_dat i j)).
{ intros j. destruct (Hv j) as [-> ->]. apply Hwidth. unfold aget in Hd. case_match; [|done]. apply list_elem_of_In. by eapply list_elem_of_lookup_2. }
destruct (scan_unit_spec (scanned_cnt rd =? 0) mu (rd_scan rd) Hs Hmu) as (s & E & Hs' & Hm' & _ & Hc' & Hr' & T1' & T2' & R1 & R2).
{ rewrite T1. apply wrapu_range. done. } { rewrite T2. apply wrapu_range. done. }
assert (A1 : zsum (Z.to_nat NR_SLOTS) (mv (mesg_arr mu)) = all_of dat i) by (apply zsum_ext; intros j _; by destruct (Hv j)).
assert (A2 : zsum (Z.to_nat NR_SLOTS) (mv (c_mesg_arr mu)) = all_of c_dat i) by (apply zsum_ext; intros j _; by destruct (Hv j)).
exists s. split; [done|]. split; [done|]. split; [done|]. split; [|rewrite <- A1, <- A2; split; [exact R1|exact R2]]. split; [|split].
- intros j Hj. destruct (Hc' j Hj) as [-> ->]. destruct (Hv j) as [V1 V2]. rewrite <- V1, <- V2. split.
  + eapply (taken_total rd rd' (fun i => dat i j)); [exact Hi|exact Hb|exact Hsc|exact Hcnt|apply Hw|]. intros Hne. apply (Hc Hne j Hj).
  + eapply (taken_total rd rd' (fun i => c_dat i j)); [exact Hi|exact Hb|exact Hsc|exact Hcnt|apply Hw|]. intros Hne. apply (Hc Hne j Hj).
- intros k Hk. destruct (Hr' k Hk) as [-> ->].
  rewrite (zsum_ext _ _ (fun t => dat i (sub_slot k t))) by (intros t _; by destruct (Hv (sub_slot k t))).
  rewrite (zsum_ext _ (fun t => mv (c_mesg_arr mu) _) (fun t => c_dat i (sub_slot k t))) by (intros t _; by destruct (Hv (sub_slot k t))).
  split.
  + apply (cleared_total rd rd' (slot_of dat k) i _ _ Hi Hb Hsc Hcnt). intros Hne. apply (Hr Hne k Hk).
  + apply (cleared_total rd rd' (slot_of c_dat k) i _ _ Hi Hb Hsc Hcnt). intros Hne. apply (Hr Hne k Hk).
- rewrite T1', T2', T1, T2. rewrite (total_add rd rd' (all_of dat) i Hi Hb Hsc), (total_add rd rd' (all_of c_dat) i Hi Hb Hsc).
  rewrite <- A1, <- A2. split; apply wrapu_add_l.
Qed.

Lemma aset_ex {A} (l : list A) i x : 0 <= i < alen l -> exists l', aset l i x = Some l'.
Proof. intros. rewrite aset_Some by done. eauto. Qed.

Lemma scan_one_spec i rd : 0 <= i < n -> round_inv rd ->
exists rd', scan_one phase i rd = Some rd' /\ round_inv rd' /\
  (forall i', sc rd i' = true -> sc rd' i' = true) /\
  (forall i', mu_phase <$> (rd_units rd').[i'] = mu_phase <$> (rd_units rd).[i']) /\
  (mu_phase <$> (rd_units rd).[i] = Some phase -> sc rd' i = true).
Proof.
intros Hi Hinv. pose proof Hinv as [_ [Hu1 Hu2] (L1 & L2 & L3 & L4) Harr Hcnt _ _ _ Hreq].
destruct (aget_is_Some (rd_units rd) i ltac:(lia)) as [mu Emu]. destruct (aget_is_Some (scanned rd) i ltac:(lia)) as [b Eb].
assert (Hb : sc rd i = b) by (unfold sc; by rewrite Eb). unfold scan_one. rewrite Emu. cbn [mbind option_bind]. rewrite Eb. cbn [mbind option_bind].
destruct ((mu_phase mu =? phase) && negb b) eqn:Ec.
2: { exists rd. split_and!; try done. intros [= Hp]. apply andb_false_iff in Ec as [Ec|Ec]; [lia|]. rewrite Hb. by destruct b. }
apply andb_true_iff in Ec as [Hp Hnb]. apply Z.eqb_eq in Hp. destruct b; [done|].
pose proof (aget_Forall _ _ _ _ Hu2 Emu) as Hmu. destruct (aset_ex (scanned rd) i true ltac:(lia)) as [bs Ebs].
set (rd1 := Round (rd_scan rd) (rd_units rd) bs 0 [] [] []).
assert (Hsc : forall i', sc rd1 i' = if i =? i' then true else sc rd i').
{ intros i'. unfold sc. cbn [scanned rd1]. rewrite (aget_aset _ _ _ i' _ Ebs). by destruct (i =? i'). }
destruct (scan_adds i mu rd rd1 Hi Hinv Hb (Harr i mu Emu Hb Hp) Hmu Hsc) as (s' & -> & Hs' & Hm' & (S1 & S2 & S3) & R1 & R2).
cbn [mbind option_bind]. rewrite Ebs.
destruct (aset_ex (rd_units rd) i (MachineUnit (m_mesg s') (c_mesg_arr mu) (mu_phase mu)) ltac:(lia)) as [us Eus].
destruct (aset_ex (machine_req_per_slot rd) i (m_req s') ltac:(lia)) as [rq Erq].
destruct (aset_ex (machine_onload_req rd) i (m_onload s') ltac:(lia)) as [on Eon].
destruct (aset_ex (machine_max_req rd) i (m_max s') ltac:(lia)) as [mx Emx].
rewrite Eus, Erq, Eon, Emx. cbn [mbind option_bind]. eexists. split; [done|]. split; [|split_and!].
- constructor; cbn [rd_scan rd_units scanned scanned_cnt machine_req_per_slot machine_onload_req machine_max_req].
  + exact Hs'.
  + split; [by rewrite (aset_alen _ _ _ _ Eus)|]. apply (aset_Forall _ _ _ _ _ Eus); [done|]. split; [done|apply Hmu].
  + rewrite (aset_alen _ _ _ _ Ebs), (aset_alen _ _ _ _ Erq), (aset_alen _ _ _ _ Eon), (aset_alen _ _ _ _ Emx).
    exact (conj L1 (conj L2 (conj L3 L4))).
  + intros i' mu' E' Hsc' Hph. change (sc rd1 i' = false) in Hsc'. rewrite Hsc in Hsc'. rewrite (aget_aset _ _ _ i' _ Eus) in E'.
    destruct (i =? i'); [discriminate Hsc'|]. exact (Harr i' mu' E' Hsc' Hph).
  + rewrite Hcnt. symmetry. exact (total_add rd rd1 (fun _ => 1) i Hi Hb Hsc).
  + intros _. exact S1.
  + intros _. exact S2.
  + exact S3.
  + intros i' Hi' Hsc'. change (sc rd1 i' = true) in Hsc'. rewrite Hsc in Hsc'.
    rewrite (lv_aset _ _ _ _ i' Erq), (lv_aset _ _ _ _ i' Eon). destruct (Z.eqb_spec i i') as [<-|]; [exact (conj R1 R2)|exact (Hreq i' Hi' Hsc')].
- intros i' H'. change (sc rd1 i' = true). rewrite Hsc. by destruct (i =? i').
- intros i'. cbn [rd_units]. rewrite (aget_aset _ _ _ i' _ Eus). destruct (Z.eqb_spec i i') as [<-|]; [by rewrite Emu|done].
- intros _. change (sc rd1 i = true). rewrite Hsc. by rewrite Z.eqb_refl.
Qed.

(** A pass scans every machine that has arrived. *)
Lemma scan_pass_spec rd : round_inv rd ->
exists rd', scan_pass phase n rd = Some rd' /\ round_inv rd' /\
  (forall i, 0 <= i < n -> mu_phase <$> (rd_units rd).[i] = Some phase -> sc rd' i = true).
Proof.
intros Hinv. destruct (for_from_inv (fun i t => round_inv t /\
  (forall i', mu_phase <$> (rd_units t).[i'] = mu_phase <$> (rd_units rd).[i']) /\
  (forall i', 0 <= i' < i -> mu_phase <$> (rd_units rd).[i'] = Some phase -> sc t i' = true)) (Z.to_nat n) 0 (scan_one phase) rd)
  as (rd' & E & H1 & _ & H3).
- split; [exact Hinv|]. split; [reflexivity|]. intros i' Hi'. lia.
- intros i t Hi (I1 & I2 & I3). destruct (scan_one_spec i t ltac:(lia) I1) as (t' & E & J1 & J2 & J3 & J4).
  exists t'. split; [exact E|]. split; [exact J1|]. split; [intros i'; rewrite J3; apply I2|].
  intros i' Hi' Hp. destruct (Z.eq_dec i' i) as [->|]; [apply J4; rewrite I2; exact Hp|apply J2, I3; [lia|exact Hp]].
- exists rd'. split; [exact E|]. split; [exact H1|]. intros i Hi. apply H3. lia.
Qed.

(** What happens while the server waits: it scans, and the agents of machines
  that were not scanned yet write their counters and the phase. *)
Inductive wait_step : round -> round -> Prop :=
| wait_pass rd rd' : scan_pass phase n rd = Some rd' -> wait_step rd rd'
| wait_arrive rd i mu us : (scanned rd).[i] = Some false -> data.[i] = Some mu -> aset (rd_units rd) i mu = Some us ->
  wait_step rd (Round (rd_scan rd) us (scanned rd) (scanned_cnt rd) (machine_req_per_slot rd) (machine_onload_req rd) (machine_max_req rd)).

Lemma wait_step_inv rd rd' : wait_step rd rd' -> round_inv rd -> round_inv rd'.
Proof.
intros Hs Hinv. destruct Hs as [rd rd' E|rd i mu us Eb Ed Es].
- destruct (scan_pass_spec rd Hinv) as (rd1 & E1 & H1 & _). rewrite E in E1. injection E1 as ->. exact H1.
- destruct Hinv as [Hs [Hu1 Hu2] Hl Harr Hcnt Hc Hr Ht Hreq]. constructor; try assumption; cbn [rd_units].
  + split; [by rewrite (aset_alen _ _ _ _ Es)|]. apply (aset_Forall _ _ _ _ _ Es); [exact Hu2|exact (aget_Forall _ _ _ _ Hdata_ok Ed)].
  + intros i' mu' E' Hs' Hp. rewrite (aget_aset _ _ _ i' _ Es) in E'. destruct (Z.eqb_spec i i') as [<-|]; [|exact (Harr i' mu' E' Hs' Hp)].
    injection E' as <-. exact Ed.
Qed.

(** The start of a round: no machine has been scanned or has arrived. *)
Record round_start (rd : round) : Prop := {
rs_scan : scan_ok (rd_scan rd);
rs_tt : tt_rnic_req (rd_scan rd) = 0 /\ tt_cpu_req (rd_scan rd) = 0;
rs_units : alen (rd_units rd) = n /\ Forall unit_ok (rd_units rd) /\ Forall (fun mu => mu_phase mu <> phase) (rd_units rd);
rs_scanned : scanned rd = replicate (Z.to_nat n) false /\ scanned_cnt rd = 0;
rs_lens : alen (machine_req_per_slot rd) = n /\ alen (machine_onload_req rd) = n /\ alen (machine_max_req rd) = n }.

Lemma round_start_inv rd : round_start rd -> round_inv rd.
Proof.
intros [Hs [T1 T2] (Hu1 & Hu2 & Hu3) [Hb Hc] (L1 & L2 & L3)].
assert (Hsc : forall i, sc rd i = false).
{ intros i. unfold sc. rewrite Hb. destruct (_ .[i]) as [b|] eqn:E; [|reflexivity]. apply aget_replicate_inv in E. by rewrite E. }
assert (Hz : forall f, total rd f = 0) by (intros f; apply zsum_zero; intros i _; by rewrite Hsc).
constructor; try assumption.
- by split.
- rewrite Hb, alen_replicate, Z2Nat.id by lia. by split_and!.
- intros i mu E _ Hp. destruct (aget_Forall _ _ _ _ Hu3 E Hp).
- by rewrite Hc, Hz.
- intros Hne. destruct (Hne Hc).
- intros Hne. destruct (Hne Hc).
- rewrite T1, T2, !Hz. split; reflexivity.
- intros i _ Hi. rewrite Hsc in Hi. discriminate Hi.
Qed.

Lemma total_full rd f : total rd (fun _ => 1) = n -> total rd f = zsum (Z.to_nat n) f.
Proof.
intros Hn1. apply zsum_ext. intros i Hi. destruct (sc rd i) eqn:E; [reflexivity|exfalso].
assert (Hle : forall m, zsum m (fun i => if sc rd i then 1 else 0) <= Z.of_nat m)
  by (intros m; induction m as [|m IH]; [done|]; rewrite zsum_S; case_match; lia).
assert (Hlt : forall m, i < Z.of_nat m -> zsum m (fun i => if sc rd i then 1 else 0) < Z.of_nat m).
{ intros m. induction m as [|m IH]; intros Hm; [lia|]. rewrite zsum_S. pose proof (Hle m).
  destruct (Z.eq_dec i (Z.of_nat m)) as [<-|]; [rewrite E; lia|]. specialize (IH ltac:(lia)). case_match; lia. }
specialize (Hlt (Z.to_nat n) ltac:(lia)). unfold total in Hn1. lia.
Qed.

Lemma rtc_wait_inv rd0 rd : rtc wait_step rd0 rd -> round_inv rd0 -> round_inv rd.
Proof. induction 1 as [|x y z Hs _ IH]; [done|]. intros Hi. apply IH. exact (wait_step_inv _ _ Hs Hi). Qed.

(** C31: the server's scan adds up the counters of all machines exactly once,
  in whatever order and in however many passes the machines arrive: no pass is
  undefined behaviour, a pass that finds all machines arrived completes the
  round, and in a completed round every counter, every slot (the sum of its
  16 counters) and the totals are the sums over the machines, modulo 2^64. *)
Theorem scan_totals rd0 rd :
round_start rd0 -> rtc wait_step rd0 rd ->
(exists rd', scan_pass phase n rd = Some rd' /\
   ((forall i, 0 <= i < n -> mu_phase <$> (rd_units rd).[i] = Some phase) -> scanned_cnt rd' = n)) /\
(scanned_cnt rd = n ->
 (forall j, 0 <= j < NR_SLOTS ->
    lv (sc_counters (rd_scan rd)) j = u64 (zsum (Z.to_nat n) (fun i => dat i j)) /\
    lv (sc_c_counters (rd_scan rd)) j = u64 (zsum (Z.to_nat n) (fun i => c_dat i j))) /\
 (forall k, 0 <= k < MAX_COUNTER_NUM ->
    lv (real_counters (rd_scan rd)) k = u64 (zsum (Z.to_nat n) (slot_of dat k)) /\
    lv (real_c_counters (rd_scan rd)) k = u64 (zsum (Z.to_nat n) (slot_of c_dat k))) /\
 tt_rnic_req (rd_scan rd) = u64 (zsum (Z.to_nat n) (all_of dat)) /\
 tt_cpu_req (rd_scan rd) = u64 (zsum (Z.to_nat n) (all_of c_dat))).
Proof.
intros H0 Hs. pose proof (rtc_wait_inv _ _ Hs (round_start_inv _ H0)) as Hinv. split.
- destruct (scan_pass_spec rd Hinv) as (rd' & E & Hinv' & Hsc). exists rd'. split; [exact E|]. intros Hall.
  rewrite (ri_cnt _ Hinv'). unfold total. rewrite (zsum_ext _ _ (fun _ => 1)).
  + rewrite zsum_const. lia.
  + intros i Hi. rewrite Hsc; [reflexivity|lia|apply Hall; lia].
- intros Hc. rewrite (ri_cnt _ Hinv) in Hc. assert (Hne : scanned_cnt rd <> 0) by (rewrite (ri_cnt _ Hinv); lia).
  pose proof (fun f => total_full rd f Hc) as Ht. split; [|split].
  + intros j Hj. rewrite <- !Ht. exact (ri_counters _ Hinv Hne j Hj).
  + intros k Hk. rewrite <- !Ht. exact (ri_real _ Hinv Hne k Hk).
  + rewrite <- !Ht. exact (ri_tt _ Hinv).
Qed.
End Round.

(** ** Samples of the collection and of the scan *)

Definition sample_mesgs (v : Z) : list mesg_unit := replicate (Z.to_nat MESG_UNIT_NUM) (MesgUnit (replicate 7 v) 0).
Definition sample_unit (phase v cv : Z) : machine_unit := MachineUnit (sample_mesgs v) (sample_mesgs cv) phase.
Definition sample_layout : client_layout := ClientLayout (Resp 0 []) (sample_mesgs 0) (sample_mesgs 0) (RpcMeta 0 0 0 0 0 0).

Lemma sample_mesgs_ok v : mesgs_ok (sample_mesgs v).
Proof. split; [unfold sample_mesgs; by rewrite alen_replicate, Z2Nat.id|]. by apply Forall_replicate. Qed.

Lemma sample_mesgs_mv v j : 0 <= j < NR_SLOTS -> mv (sample_mesgs v) j = v.
Proof.
  intros Hj. destruct (mesg_index j Hj) as [H1 H2]. unfold mv, mesg_get, sample_mesgs.
  rewrite aget_replicate by (rewrite Z2Nat.id by done; lia). cbn [mbind option_bind m_counters].
  rewrite aget_replicate by (change COUNTER_PER_MESG with 7 in *; lia). reflexivity.
Qed.

Lemma sample_mesgs_width v j : in_width 64 v -> in_width 64 (mv (sample_mesgs v) j).
Proof.
  intros Hv. unfold mv, mesg_get, sample_mesgs. destruct (_ .[j / _]) as [u|] eqn:E; [|done]. apply aget_replicate_inv in E as ->.
  cbn [mbind option_bind m_counters]. destruct (_ .[j mod _]) as [x|] eqn:E; [|done]. apply aget_replicate_inv in E as ->. exact Hv.
Qed.

Lemma sample_ctr_width cr i j : in_width 64 (ctr (records (sample_shm cr)) i j) /\ in_width 64 (c_ctr (records (sample_shm cr)) i j).
Proof.
  unfold ctr, c_ctr. destruct ((records (sample_shm cr)).[i]) as [rec|] eqn:E; [|done]. cbn [mbind option_bind].
  assert (H : counters rec = replicate (Z.to_nat NR_SLOTS) 0 /\ c_counters rec = replicate (Z.to_nat NR_SLOTS) 0).
  { unfold aget in E. case_match; [|done]. cbn [records sample_shm sample_client] in E.
    apply list_lookup_insert_Some in E as [(_ & <- & _)|(_ & E)]; [by split|]. apply lookup_replicate in E as [-> _]. by split. }
  destruct H as [-> ->]. destruct (_ .[j]) as [x|] eqn:Ex; [|done]. apply aget_replicate_inv in Ex as ->. done.
Qed.

Lemma collect_counts_witness :
  exists r' cl' tt', collect (fun _ _ => 3) (fun _ _ => 4) (sample_shm 1) sample_layout 0 = Some (r', cl', tt') /\
    ctr (records r') 7 5 = 3 /\ c_ctr (records r') 7 5 = 4.
Proof.
  destruct (collect_counts (fun _ _ => 3) (fun _ _ => 4) (sample_shm 1) sample_layout 0 (sample_region_ok 1) (sample_mesgs_ok 0)
    (sample_mesgs_ok 0) (sample_ctr_width 1)) as (r' & cl' & tt' & E & _ & H & _).
  destruct (H 7 5 ltac:(split; [done|reflexivity]) ltac:(split; [done|reflexivity])) as (_ & H1 & H2).
  exists r', cl', tt'. split; [exact E|]. split; [exact H1|exact H2].
Defined.

(** Two machines, whose counters are all 3 and all 4. *)
Definition sample_data : list machine_unit := [sample_unit 1 3 0; sample_unit 1 4 0].
Definition sample_round (us : list machine_unit) : round :=
  Round (Scan (replicate (Z.to_nat NR_SLOTS) 0) (replicate (Z.to_nat NR_SLOTS) 0) (replicate (Z.to_nat MAX_COUNTER_NUM) 0)
           (replicate (Z.to_nat MAX_COUNTER_NUM) 0) 0 0 0 0 0 0 [])
    us [false; false] 0 [0; 0] [0; 0] [0; 0].

Lemma sample_unit_ok p v cv : unit_ok (sample_unit p v cv).
Proof. split; apply sample_mesgs_ok. Qed.

Lemma sample_data_width mu j : In mu sample_data -> in_width 64 (mv (mesg_arr mu) j) /\ in_width 64 (mv (c_mesg_arr mu) j).
Proof. intros [<-|[<-|[]]]; split; by apply sample_mesgs_width. Qed.

Lemma sample_data_ok : Forall unit_ok sample_data.
Proof. constructor; [apply sample_unit_ok|constructor; [apply sample_unit_ok|constructor]]. Qed.

Lemma sample_round_start : round_start 1 2 (sample_round [sample_unit 0 0 0; sample_unit 0 0 0]).
Proof.
  constructor.
  - constructor; cbn [sc_counters sc_c_counters real_counters real_c_counters rd_scan sample_round]; try (by rewrite alen_replicate, Z2Nat.id).
    intros k. unfold lv. destruct (_ .[k]) as [x|] eqn:E; [|done]. apply aget_replicate_inv in E as ->. done.
  - by split.
  - split; [done|]. split; [constructor; [apply sample_unit_ok|constructor; [apply sample_unit_ok|constructor]]|].
    constructor; [done|constructor; [done|constructor]].
  - by split.
  - done.
Qed.

(** Both machines have arrived. *)
Lemma sample_arrivals : rtc (wait_step 1 2 sample_data) (sample_round [sample_unit 0 0 0; sample_unit 0 0 0]) (sample_round sample_data).
Proof.
  eapply rtc_l; [exact (wait_arrive 1 2 sample_data (sample_round [sample_unit 0 0 0; sample_unit 0 0 0]) 0 (sample_unit 1 3 0)
    [sample_unit 1 3 0; sample_unit 0 0 0] eq_refl eq_refl eq_refl)|].
  eapply rtc_l; [exact (wait_arrive 1 2 sample_data (sample_round [sample_unit 1 3 0; sample_unit 0 0 0]) 1 (sample_unit 1 4 0)
    sample_data eq_refl eq_refl eq_refl)|].
  apply rtc_refl.
Qed.

Lemma scan_totals_witness :
  exists rd, scan_pass 1 2 (sample_round sample_data) = Some rd /\ scanned_cnt rd = 2 /\ lv (sc_counters (rd_scan rd)) 5 = 7.
Proof.
  destruct (scan_totals 1 2 eq_refl sample_data sample_data_ok sample_data_width _ _ sample_round_start sample_arrivals)
    as [(rd & E & Hc) _].
  assert (H2 : scanned_cnt rd = 2).
  { apply Hc. intros i Hi. assert (i = 0 \/ i = 1) as [->| ->] by lia; reflexivity. }
  exists rd. split; [exact E|]. split; [exact H2|].
  destruct (scan_totals 1 2 eq_refl sample_data sample_data_ok sample_data_width _ rd sample_round_start) as [_ H].
  { eapply rtc_r; [exact sample_arrivals|]. exact (wait_pass 1 2 sample_data _ _ E). }
  destruct (H H2) as [Hj _]. destruct (Hj 5 ltac:(split; [done|reflexivity])) as [-> _].
  change (Z.to_nat 2) with 2%nat. rewrite !zsum_S. change (zsum 0 _) with 0. unfold dat.
  change (sample_data.[Z.of_nat 0]) with (Some (sample_unit 1 3 0)). change (sample_data.[Z.of_nat 1]) with (Some (sample_unit 1 4 0)).
  cbn [fmap option_fmap option_map default mesg_arr sample_unit]. rewrite !sample_mesgs_mv by (split; [done|reflexivity]). reflexivity.
Defined.

(** ** Metadata *)

(** What the RPC server publishes reaches the region of every machine, with the
    machine's number, whenever its address is new to the agents. *)
Theorem meta_distributed sv rk id0 n cur r cl i :
  rm_rpc_addr cur <> sv_rpc_addr sv -> sv_region_size sv / 2 <> 0 -> rm_rpc_addr (rmeta_ r) <> sv_rpc_addr sv -> (i < n)%nat ->
  exists m, fst (send_server_meta n cur (publish sv rk id0)) !! i = Some m /\
    check_server_meta r (ClientLayout (cl_strategies cl) (cl_mesg_arr cl) (cl_c_mesg_arr cl) m) = (true, with_rmeta r (publish sv rk (Z.of_nat i))).
Proof.
  intros Hcur Hlen Hr Hi. unfold send_server_meta. cbn [rm_rpc_addr publish]. rewrite (proj2 (Z.eqb_neq _ _) Hcur). cbn [fst].
  rewrite list_lookup_fmap, lookup_seq_lt by done. eexists. split; [done|]. unfold check_server_meta. cbn [s_meta_ rm_length rm_rpc_addr publish].
  rewrite (proj2 (Z.eqb_neq _ _) Hlen), (proj2 (Z.eqb_neq (sv_rpc_addr sv) _)) by done. reflexivity.
Qed.

(** The clients are told of the same region, and of different machines: what
    [rpc_slots_disjoint] of Fusa.v assumes. *)
Lemma distributed_same_server n cur shm_meta i j m m' :
  fst (send_server_meta n cur shm_meta) !! i = Some m -> fst (send_server_meta n cur shm_meta) !! j = Some m' ->
  same_server m m' /\ (i <> j -> rm_machine_id m <> rm_machine_id m').
Proof.
  unfold send_server_meta. destruct (_ =? _); cbn [fst]; [done|]. rewrite !list_lookup_fmap.
  intros (x & [-> _]%lookup_seq & ->)%fmap_Some (y & [-> _]%lookup_seq & ->)%fmap_Some. cbn. split; [done|lia].
Qed.

(** The address alone decides: a server that restarts at the same address with
    another key is not announced, and the clients keep the old key. *)
Theorem meta_key_not_refreshed n cur shm_meta r cl :
  rm_rpc_addr cur = rm_rpc_addr shm_meta -> rm_rpc_addr (rmeta_ r) = rm_rpc_addr (s_meta_ cl) ->
  send_server_meta n cur shm_meta = ([], cur) /\ check_server_meta r cl = (false, r).
Proof.
  intros H1 H2. unfold send_server_meta, check_server_meta. rewrite H1, H2, !Z.eqb_refl. by rewrite andb_false_r.
Qed.
