(* ===== verification/AgentDecide.v ===== *)
(** fusioncas/agent/agent.cpp: the theorems on the decision of the agent server
    (the definitions are in Agent.v).

    The strategy stays an array of zeros and ones whatever the counters are,
    slots the device has capacity for go back to it, and the load moved to the
    CPU in a round is at most its capacity and one task. *)

From stdpp Require Import list sorting.
From S2P Require Import Prelude Sums Mem Recorder Wqe Fusa RpcServer Agent.

(** ** Vocabulary *)

(** A strategy: zeros and ones. *)
Definition bit (c : Z) : Prop := c = 0 \/ c = 1.
Definition strategy_ok (l : list Z) : Prop := alen l = NR_SLOTS /\ Forall bit l.

(** [std::priority_queue::top] is a largest element. *)
Definition is_top (top : list cpu_task -> nat) : Prop :=
  forall l, l <> [] -> exists t, l !! top l = Some t /\ Forall (fun t' => req_cnt t' <= req_cnt t) l.

Lemma sub_slot_range i j : 0 <= i < MAX_COUNTER_NUM -> 0 <= j < SLOT_GRANULARITY -> 0 <= sub_slot i j < NR_SLOTS.
Proof. unfold sub_slot, NR_SLOTS, MAX_COUNTER_NUM, SLOT_GRANULARITY. lia. Qed.

Lemma sub_slot_inj i j i' j' : 0 <= i < MAX_COUNTER_NUM -> 0 <= i' < MAX_COUNTER_NUM -> sub_slot i j = sub_slot i' j' -> i = i' /\ j = j'.
Proof. unfold sub_slot, MAX_COUNTER_NUM. lia. Qed.

Lemma aget_lv l i : 0 <= i < alen l -> l.[i] = Some (lv l i).
Proof. intros Hi. unfold lv. destruct (aget_is_Some l i Hi) as [x ->]. done. Qed.

Lemma aset_lv l i x : 0 <= i < alen l ->
  exists l', aset l i x = Some l' /\ alen l' = alen l /\ forall j, lv l' j = if i =? j then x else lv l j.
Proof.
  intros Hi. rewrite aset_Some by done. eexists. split; [done|].
  assert (E : aset l i x = Some (<[Z.to_nat i := x]> l)) by by apply aset_Some.
  split; [by apply aset_alen in E|]. intros j. by apply lv_aset.
Qed.

Lemma aset_strategy l l' i x : strategy_ok l -> bit x -> aset l i x = Some l' -> strategy_ok l'.
Proof. intros [H1 H2] Hx E. split; [by rewrite (aset_alen _ _ _ _ E)|by eapply aset_Forall]. Qed.

Lemma strategy_bit l i : strategy_ok l -> 0 <= i < NR_SLOTS -> bit (lv l i).
Proof. intros [H1 H2] Hi. apply (aget_Forall _ _ _ _ H2 (aget_lv l i ltac:(lia))). Qed.

Lemma sublist_all {A} (P : A -> Prop) l k : sublist l k -> Forall P k -> Forall P l.
Proof. induction 1; intros Hk; [done| |]; inv Hk; auto. Qed.

Lemma sublist_nodup {A B} (f : A -> B) l k : sublist l k -> base.NoDup (map f k) -> base.NoDup (map f l).
Proof.
  induction 1 as [|x l k Hs IH|x l k Hs IH]; intros Hk; [done| |]; cbn in Hk; apply NoDup_cons in Hk as [Hx Hk]; [|by apply IH].
  cbn. apply NoDup_cons. split; [|by apply IH]. intros Hin. apply Hx. apply list_elem_of_In, in_map_iff in Hin as (y & E & Hy).
  rewrite <- E. apply list_elem_of_In, in_map. apply list_elem_of_In. eapply sublist_subseteq; [exact Hs|]. by apply list_elem_of_In.
Qed.

Section Decide.
Context (top : list cpu_task -> nat) (Htop : is_top top) (cfg : agent_cfg) (cs ccs real : list Z) (req_per_slot overThres : Z)
(Hcs : alen cs = NR_SLOTS) (Hccs : alen ccs = NR_SLOTS) (Hreal : alen real = MAX_COUNTER_NUM).

(** A task is a counter of a hot slot. *)
Record task_ok (t : cpu_task) : Prop := {
tk_idx : 0 <= idx_ t < MAX_COUNTER_NUM; tk_inner : 0 <= inner_idx t < SLOT_GRANULARITY;
tk_cnt : req_cnt t = lv cs (sub_slot (idx_ t) (inner_idx t)); tk_hot : overThres <= lv real (idx_ t) }.

Definition slot_of_task (t : cpu_task) : Z := sub_slot (idx_ t) (inner_idx t).

Record decision_ok (d : decision) : Prop := {
dk_credit : strategy_ok (d_credit d); dk_old : strategy_ok (d_old d); dk_onload : alen (onload_nums d) = MAX_COUNTER_NUM;
dk_tasks : Forall task_ok (cpu_tasks d) }.

Lemma push_tasks_spec i d : 0 <= i < MAX_COUNTER_NUM -> overThres <= lv real i -> decision_ok d ->
exists d', push_tasks cs real req_per_slot i d = Some d' /\ decision_ok d' /\ d_credit d' = d_credit d /\ d_old d' = d_old d /\
  attempts d' = attempts d /\ exists l, cpu_tasks d' = cpu_tasks d ++ l /\ base.NoDup (map slot_of_task l) /\ Forall (fun t => idx_ t = i) l.
Proof.
intros Hi Hhot [H1 H2 H3 H4]. unfold push_tasks.
destruct (for_from_inv (fun j x => exists l, x = cpu_tasks d ++ l /\ base.NoDup (map slot_of_task l) /\
    Forall (fun t => task_ok t /\ idx_ t = i /\ inner_idx t < j) l) (Z.to_nat SLOT_GRANULARITY) 0
  (fun j l => c ← cs.[sub_slot i j]; Some (if 0 <? c then l ++ [CpuTask c i j] else l)) (cpu_tasks d)) as (x & -> & l & -> & Hn & Hl).
- exists []. rewrite app_nil_r. split; [done|]. split; constructor.
- intros j x Hj (l & -> & Hn & Hl). pose proof (sub_slot_range i j Hi ltac:(unfold SLOT_GRANULARITY in *; lia)) as Hr.
  rewrite aget_lv by lia. cbn [mbind option_bind]. eexists. split; [done|].
  assert (Hl' : Forall (fun t => task_ok t /\ idx_ t = i /\ inner_idx t < j + 1) l)
    by (eapply Forall_impl; [exact Hl|]; intros t (? & ? & ?); split_and!; [done|done|lia]).
  destruct (0 <? lv cs (sub_slot i j)); [|by exists l].
  exists (l ++ [CpuTask (lv cs (sub_slot i j)) i j]). rewrite app_assoc. split; [done|]. split.
  + rewrite map_app. apply NoDup_app. split; [done|]. split; [|apply NoDup_singleton]. intros s Hs Hs'.
    apply list_elem_of_singleton in Hs'. apply list_elem_of_In, in_map_iff in Hs as (t & Et & Ht).
    eapply List.Forall_forall in Hl; [|exact Ht]. destruct Hl as (Hok & Hti & Htj). rewrite Hs' in Et. unfold slot_of_task in Et. cbn in Et.
    apply sub_slot_inj in Et as [_ Et]; [lia|apply Hok|done].
  + apply Forall_app. split; [done|]. constructor; [|constructor]. split; [|cbn; lia]. by constructor.
- cbn [mbind option_bind]. rewrite aget_lv by lia. cbn [mbind option_bind].
  destruct (aset_lv (onload_nums d) i (u64 (lv real i - req_per_slot)) ltac:(lia)) as (ons & -> & Ha & _). cbn [mbind option_bind].
  eexists. split; [done|]. split_and!; try done.
  + constructor; cbn; try done; [lia|]. apply Forall_app. split; [done|]. eapply Forall_impl; [exact Hl|]. by intros t [? _].
  + exists l. split_and!; try done. eapply Forall_impl; [exact Hl|]. by intros t (_ & ? & _).
Qed.

(** A slot below the threshold: credits of the slot can only become 0, and all
  of them do if the slot's requests are below the threshold together. *)
Definition cold (i : Z) : Prop :=
lv real i + zsum (Z.to_nat SLOT_GRANULARITY) (fun j => lv ccs (sub_slot i j)) < overThres.

Definition lowered (i : Z) (l l' : list Z) : Prop :=
forall s, lv l' s = lv l s \/ lv l' s = 0 /\ exists j, 0 <= j < SLOT_GRANULARITY /\ s = sub_slot i j.

Context (Hover : overThres <= 2 ^ 64) (Hpos : forall s, 0 <= lv ccs s) (Hpos_r : forall i, 0 <= lv real i).

Lemma zsum_mono n m f : (forall i, 0 <= f i) -> (n <= m)%nat -> zsum n f <= zsum m f.
Proof.
intros Hf. induction 1 as [|m _ IH]; [lia|]. rewrite zsum_S. specialize (Hf (Z.of_nat m)). lia.
Qed.

(** The state of the loop of [give_back] before part [j]. *)
Record giving (i j : Z) (cur0 : list Z) (x : list Z * list Z * Z) : Prop := {
gv_cur : strategy_ok (fst (fst x)); gv_old : strategy_ok (snd (fst x)); gv_low : lowered i cur0 (fst (fst x));
gv_cold : cold i -> snd x = zsum (Z.to_nat j) (fun j => lv ccs (sub_slot i j)) /\
          forall j', 0 <= j' < j -> lv (fst (fst x)) (sub_slot i j') = 0 }.

Lemma give_back_step keep i j cur0 x : 0 <= i < MAX_COUNTER_NUM -> 0 <= j < SLOT_GRANULARITY -> giving i j cur0 x ->
exists x', (let '(cur, old, slot_reset_cnt) := x in
      c ← ccs.[sub_slot i j];
      if u64 (u64 (c + slot_reset_cnt) + lv real i) <? overThres then
        was ← cur.[sub_slot i j];
        old' ← (if (keep : bool) then aset old (sub_slot i j) was else Some old);
        cur' ← aset cur (sub_slot i j) 0;
        Some (cur', old', u64 (slot_reset_cnt + c))
      else Some x) = Some x' /\ giving i (j + 1) cur0 x'.
Proof.
intros Hi Hj [Hcur Hold Hlow Hcold]. destruct x as [[cur old] cnt]. cbn [fst snd] in *.
pose proof (sub_slot_range i j Hi Hj) as Hs. pose proof (strategy_bit _ _ Hcur Hs) as Hbit. destruct Hcur as [Lc Fc].
rewrite (aget_lv ccs) by lia. cbn [mbind option_bind].
assert (Hsum : cold i -> cnt + lv ccs (sub_slot i j) = zsum (Z.to_nat (j + 1)) (fun j => lv ccs (sub_slot i j)) /\
  lv ccs (sub_slot i j) + cnt + lv real i < overThres /\ 0 <= cnt).
{ intros Hc. destruct (Hcold Hc) as [-> _]. rewrite zsum_succ by lia. split; [done|]. unfold cold in Hc.
  pose proof (zsum_mono (Z.to_nat (j + 1)) (Z.to_nat SLOT_GRANULARITY) (fun j => lv ccs (sub_slot i j)) (fun j => Hpos _) ltac:(unfold SLOT_GRANULARITY in *; lia)) as Hm.
  rewrite zsum_succ in Hm by lia. pose proof (zsum_mono 0 (Z.to_nat j) (fun j => lv ccs (sub_slot i j)) (fun j => Hpos _) ltac:(lia)) as H0.
  change (zsum 0 _) with 0 in H0. lia. }
destruct (u64 (u64 (lv ccs (sub_slot i j) + cnt) + lv real i) <? overThres) eqn:Ec.
- rewrite (aget_lv cur) by lia. cbn [mbind option_bind]. destruct (aset_lv old (sub_slot i j) (lv cur (sub_slot i j))) as (old' & Eo & _); [rewrite (proj1 Hold); lia|].
  destruct (aset_lv cur (sub_slot i j) 0 ltac:(lia)) as (cur' & Ecur & _ & Vc).
  assert (exists o, (if keep then aset old (sub_slot i j) (lv cur (sub_slot i j)) else Some old) = Some o /\ strategy_ok o) as (o & -> & Ho)
    by (destruct keep; [exists old'; split; [done|by eapply aset_strategy]|by exists old]).
  cbn [mbind option_bind]. rewrite Ecur. cbn [mbind option_bind]. eexists. split; [done|]. constructor; cbn [fst snd].
  + eapply aset_strategy; [by split| |exact Ecur]. by left.
  + done.
  + intros s. rewrite Vc. destruct (Z.eqb_spec (sub_slot i j) s) as [<-|]; [right; eauto|apply Hlow].
  + intros Hc. destruct (Hsum Hc) as (H1 & H2 & H3). destruct (Hcold Hc) as [_ Hz].
    split; [rewrite wrapu_small; [lia|]; pose proof (Hpos (sub_slot i j)); pose proof (Hpos_r i); lia|].
    intros j' Hj'. rewrite Vc. destruct (Z.eqb_spec (sub_slot i j) (sub_slot i j')); [done|]. apply Hz. destruct (Z.eq_dec j j') as [->|]; [congruence|lia].
- eexists. split; [done|]. constructor; cbn [fst snd]; try done. intros Hc. exfalso. destruct (Hsum Hc) as (H1 & H2 & H3).
  pose proof (Hpos (sub_slot i j)). pose proof (Hpos_r i). rewrite (wrapu_small 64 (lv ccs (sub_slot i j) + cnt)) in Ec by lia.
  rewrite wrapu_small in Ec by lia. apply Z.ltb_ge in Ec. lia.
Qed.

Lemma give_back_spec keep i d : 0 <= i < MAX_COUNTER_NUM -> decision_ok d ->
exists d', give_back ccs real keep overThres i d = Some d' /\ decision_ok d' /\ lowered i (d_credit d) (d_credit d') /\
  cpu_tasks d' = cpu_tasks d /\ attempts d' = attempts d /\
  (cold i -> forall j, 0 <= j < SLOT_GRANULARITY -> lv (d_credit d') (sub_slot i j) = 0).
Proof.
intros Hi [H1 H2 H3 H4]. unfold give_back. rewrite aget_lv by lia. cbn [mbind option_bind].
edestruct (for_from_inv (fun j => giving i j (d_credit d)) (Z.to_nat SLOT_GRANULARITY) 0) as (x & E & Hx);
  [|intros j x Hj Hx; eapply (give_back_step keep); [exact Hi| |exact Hx]; unfold SLOT_GRANULARITY in *; lia|].
2: { rewrite E. cbn [mbind option_bind]. destruct x as [[cur old] cnt]. destruct Hx as [G1 G2 G3 G4]. cbn [fst snd] in *.
     eexists. split; [done|]. split; [by constructor|]. split_and!; try done. intros Hc. destruct (G4 Hc) as [_ Hz].
     intros j Hj. apply Hz. unfold SLOT_GRANULARITY in *. lia. }
constructor; cbn [fst snd]; try done. { intros s. by left. } intros Hc. split; [done|]. intros j' Hj'. lia.
Qed.

(** *** The slots *)

(** The slots below [i] are classified: no credit was raised, the tasks are
  those of hot slots, each at most once. *)
Record classified (d0 : decision) (i : Z) (d : decision) : Prop := {
cf_ok : decision_ok d; cf_attempts : attempts d = attempts d0;
cf_low : forall s, lv (d_credit d) s = lv (d_credit d0) s \/ lv (d_credit d) s = 0;
cf_nodup : base.NoDup (map slot_of_task (cpu_tasks d)); cf_idx : Forall (fun t => idx_ t < i) (cpu_tasks d);
cf_cold : forall i' j, 0 <= i' < i -> 0 <= j < SLOT_GRANULARITY -> cold i' -> lv (d_credit d) (sub_slot i' j) = 0 }.

Lemma cold_below i : cold i -> lv real i < overThres.
Proof.
unfold cold. intros H. pose proof (zsum_mono 0 (Z.to_nat SLOT_GRANULARITY) (fun j => lv ccs (sub_slot i j)) (fun j => Hpos _) ltac:(lia)) as H0.
change (zsum 0 _) with 0 in H0. lia.
Qed.

Lemma classify_step keep d0 i d : 0 <= i < MAX_COUNTER_NUM -> classified d0 i d ->
exists d', classify_slot cs ccs real req_per_slot keep overThres i d = Some d' /\ classified d0 (i + 1) d'.
Proof.
intros Hi [Hok Ha Hlow Hn Hx Hc]. unfold classify_slot. rewrite aget_lv by lia. cbn [mbind option_bind].
destruct (Z.leb_spec overThres (lv real i)) as [Hhot|Hlt].
- destruct (push_tasks_spec i d Hi Hhot Hok) as (d' & -> & Hok' & Ec & _ & Ea & l & El & Hnl & Hil). exists d'. split; [done|].
  constructor; try done; rewrite ?Ec, ?Ea; try done.
  + rewrite El, map_app. apply NoDup_app. split; [done|]. split; [|done]. intros s Hs Hs'.
    apply list_elem_of_In, in_map_iff in Hs as (t1 & E1 & H1). apply list_elem_of_In, in_map_iff in Hs' as (t2 & E2 & H2).
    pose proof (proj1 (List.Forall_forall _ _) Hx t1 H1). pose proof (proj1 (List.Forall_forall _ _) Hil t2 H2) as Ei. cbn in *.
    pose proof (proj1 (List.Forall_forall _ _) (dk_tasks _ Hok) t1 H1) as K1. rewrite <- E1 in E2. unfold slot_of_task in E2.
    apply sub_slot_inj in E2 as [E2 _]; [lia|by rewrite Ei|apply K1].
  + rewrite El. apply Forall_app. split; [eapply Forall_impl; [exact Hx|]|eapply Forall_impl; [exact Hil|]]; intros t; cbn; lia.
  + intros i' j Hi' Hj Hcold. destruct (Z.eq_dec i' i) as [->|]; [apply cold_below in Hcold; lia|]. apply Hc; [lia|done|done].
- destruct (give_back_spec keep i d Hi Hok) as (d' & -> & Hok' & Hl & Et & Ea & Hcold). exists d'. split; [done|].
  constructor; try done; rewrite ?Et, ?Ea; try done.
  + intros s. destruct (Hl s) as [->|[-> _]]; [apply Hlow|by right].
  + eapply Forall_impl; [exact Hx|]. intros t; cbn; lia.
  + intros i' j Hi' Hj Hci. destruct (Z.eq_dec i' i) as [->|]; [by apply Hcold|].
    destruct (Hl (sub_slot i' j)) as [->|[-> _]]; [apply Hc; [lia|done|done]|done].
Qed.

Lemma classify_all keep d0 : decision_ok d0 -> cpu_tasks d0 = [] ->
exists d, for_from (Z.to_nat MAX_COUNTER_NUM) 0 (classify_slot cs ccs real req_per_slot keep overThres) d0 = Some d /\
  classified d0 MAX_COUNTER_NUM d.
Proof.
intros Hok Ht. destruct (for_from_inv (classified d0) (Z.to_nat MAX_COUNTER_NUM) 0
  (classify_slot cs ccs real req_per_slot keep overThres) d0) as (d & E & Hd).
- constructor; rewrite ?Ht; try done; [by left|constructor..|]. intros; lia.
- intros i d Hi Hd. apply classify_step; [|done]. unfold MAX_COUNTER_NUM in *. lia.
- exists d. split; [done|]. by rewrite Z2Nat.id in Hd.
Qed.

(** *** The tasks *)

Lemma assign_one_spec keep t rest d : task_ok t -> Forall task_ok rest -> decision_ok d ->
exists moved d', assign_one cs keep t rest d = Some (moved, d') /\ decision_ok d' /\ cpu_tasks d' = rest /\
  (forall s, lv (d_credit d') s = if slot_of_task t =? s then (if (moved : bool) then 1 else 0) else lv (d_credit d) s) /\
  attempts d' = if moved then u64 (attempts d + req_cnt t) else attempts d.
Proof.
intros Ht Hrest [H1 H2 H3 H4]. pose proof (tk_idx _ Ht) as Hi. pose proof (sub_slot_range _ _ Hi (tk_inner _ Ht)) as Hs.
unfold assign_one. fold (slot_of_task t) in *. assert (0 <= idx_ t < NR_SLOTS) by (unfold NR_SLOTS, MAX_COUNTER_NUM, SLOT_GRANULARITY in *; lia).
destruct H1 as [Lc Fc]. rewrite (aget_lv (onload_nums d)), (aget_lv cs (idx_ t)), (aget_lv (d_credit d)) by lia. cbn [mbind option_bind].
set (s := slot_of_task t) in *.
destruct (aset_lv (d_old d) s (lv (d_credit d) s)) as (old' & Eo & _); [rewrite (proj1 H2); done|].
assert (exists o, (if keep then aset (d_old d) s (lv (d_credit d) s) else Some (d_old d)) = Some o /\ strategy_ok o) as (o & -> & Ho).
{ destruct keep; [exists old'|by exists (d_old d)]. split; [done|]. eapply aset_strategy; [done| |exact Eo]. apply strategy_bit; [by split|done]. }
cbn [mbind option_bind]. destruct ((req_cnt t <? lv (onload_nums d) (idx_ t)) || above_0_9 (req_cnt t) (lv cs (idx_ t))).
- destruct (aset_lv (onload_nums d) (idx_ t) (u64 (lv (onload_nums d) (idx_ t) - req_cnt t)) ltac:(lia)) as (ons & -> & Lo & _).
  cbn [mbind option_bind]. destruct (aset_lv (d_credit d) s 1 ltac:(lia)) as (cur & Ec & _ & Vc). rewrite Ec. cbn [mbind option_bind].
  rewrite (aget_lv cs s) by lia. cbn [mbind option_bind]. exists true. eexists. split; [done|]. split; [|split; [done|split; [exact Vc|]]].
  + constructor; cbn; try done; [|lia]. eapply aset_strategy; [by split| |exact Ec]. by right.
  + cbn. by rewrite (tk_cnt _ Ht).
- destruct (aset_lv (d_credit d) s 0 ltac:(lia)) as (cur & Ec & _ & Vc). rewrite Ec. cbn [mbind option_bind].
  exists false. eexists. split; [done|]. split; [|split; [done|split; [exact Vc|done]]].
  constructor; cbn; try done. eapply aset_strategy; [by split| |exact Ec]. by left.
Qed.

(** The requests of the tasks [l]. *)
Fixpoint load (l : list cpu_task) : Z := match l with [] => 0 | t :: l => req_cnt t + load l end.
Definition in_slots (l : list cpu_task) (s : Z) : bool := existsb (fun t => slot_of_task t =? s) l.

(** What the loop over the tasks does to [d]: the tasks [popped] were handled,
  largest first, and [moved] of them given to the CPU. *)
Record assigned (d d' : decision) (popped moved : list cpu_task) : Prop := {
as_ok : decision_ok d';
as_perm : Permutation (cpu_tasks d) (popped ++ cpu_tasks d');
as_moved : sublist moved popped;
as_largest : forall t t', In t popped -> In t' (cpu_tasks d') -> req_cnt t' <= req_cnt t;
as_credit : forall s, lv (d_credit d') s = if in_slots moved s then 1 else if in_slots popped s then 0 else lv (d_credit d) s;
as_load : attempts d' = attempts d + load moved }.

Context (M : Z) (HM : forall s, 0 <= lv cs s <= M) (Hcap : TOTAL_CPU_CAP cfg + M < 2 ^ 64).

Lemma in_slots_perm l l' s : Permutation l l' -> in_slots l s = in_slots l' s.
Proof.
unfold in_slots. induction 1 as [|x l l' _ IH|x y l|]; cbn [existsb]; [done|by rewrite IH| |congruence].
by destruct (slot_of_task x =? s), (slot_of_task y =? s).
Qed.

Lemma nodup_head t l s : base.NoDup (map slot_of_task (t :: l)) -> slot_of_task t = s -> in_slots l s = false.
Proof.
cbn. intros Hn <-. apply NoDup_cons in Hn as [Hn _]. apply not_true_is_false. intros H. apply Hn. unfold in_slots in H.
apply existsb_exists in H as (t' & Hin & E). apply Z.eqb_eq in E. rewrite <- E. apply list_elem_of_In. by apply in_map.
Qed.

Lemma pop_spec l : l <> [] -> exists t rest, pop top l = Some (t, rest) /\ Permutation l (t :: rest) /\
forall t', In t' rest -> req_cnt t' <= req_cnt t.
Proof.
intros Hl. destruct (Htop l Hl) as (t & E & Hmax). exists t, (delete (top l) l). unfold pop. rewrite E. split; [done|].
pose proof (delete_Permutation _ _ _ E) as Hp. split; [done|]. intros t' Ht'. eapply List.Forall_forall in Hmax; [exact Hmax|].
eapply Permutation_in; [symmetry; exact Hp|by right].
Qed.

(** One turn of the loop in front of the others. *)
Lemma assigned_cons d d1 d' t rest popped moved (mv1 : bool) :
Permutation (cpu_tasks d) (t :: rest) -> (forall t', In t' rest -> req_cnt t' <= req_cnt t) ->
base.NoDup (map slot_of_task (cpu_tasks d)) -> cpu_tasks d1 = rest ->
(forall s, lv (d_credit d1) s = if slot_of_task t =? s then (if mv1 then 1 else 0) else lv (d_credit d) s) ->
attempts d1 = attempts d + (if mv1 then req_cnt t else 0) ->
assigned d1 d' popped moved -> assigned d d' (t :: popped) (if mv1 then t :: moved else moved).
Proof.
intros Hp Hmax Hn E1 Hcr Ha [Hok Hperm Hsub Hlar Hc Hld]. rewrite E1 in Hperm. constructor.
- done.
- rewrite Hp, Hperm. done.
- destruct mv1; [by apply sublist_skip|by apply sublist_cons].
- intros t1 t2 [<-|H1] H2; [|by apply Hlar]. apply Hmax. eapply Permutation_in; [symmetry; exact Hperm|]. apply in_or_app. by right.
- intros s. rewrite Hc, Hcr. assert (Hin : slot_of_task t = s -> in_slots popped s = false /\ in_slots moved s = false).
  { intros Es. assert (Hn' : base.NoDup (map slot_of_task (t :: popped ++ cpu_tasks d'))).
    { rewrite <- Hperm. rewrite <- Hp. exact Hn. }
    pose proof (nodup_head t _ s Hn' Es) as H0. unfold in_slots in *. rewrite existsb_app in H0. apply orb_false_iff in H0 as [H0 _].
    split; [done|]. apply not_true_is_false. intros Hm. apply existsb_exists in Hm as (t1 & Hin & Et).
    assert (existsb (fun t => slot_of_task t =? s) popped = true) as Hx; [|by rewrite H0 in Hx].
    apply existsb_exists. exists t1. split; [|done]. apply list_elem_of_In. eapply sublist_subseteq; [exact Hsub|]. by apply list_elem_of_In. }
  destruct (Z.eqb_spec (slot_of_task t) s) as [Es|Ne].
  + destruct (Hin Es) as [-> ->]. destruct mv1; cbn; rewrite (proj2 (Z.eqb_eq _ _) Es); done || by destruct (Hin Es) as [_ ->].
  + destruct mv1; cbn; rewrite (proj2 (Z.eqb_neq _ _) Ne); done.
- rewrite Hld, Ha. destruct mv1; cbn; lia.
Qed.

Lemma assigned_nil d : decision_ok d -> assigned d d [] [].
Proof. intros Hd. constructor; cbn; try done. lia. Qed.

(** The loop ends with a result, and pops half of the tasks at most: its bound
  is the size of the queue it pops from. *)
Lemma assign_spec fuel : forall i d,
(length (cpu_tasks d) < fuel)%nat -> decision_ok d -> base.NoDup (map slot_of_task (cpu_tasks d)) ->
0 <= i <= alen (cpu_tasks d) + 1 -> 0 <= attempts d <= TOTAL_CPU_CAP cfg + M -> (pa_enabled cfg = false -> attempts d <= TOTAL_CPU_CAP cfg) ->
exists d' popped moved, assign top cfg cs fuel i d = Some d' /\ assigned d d' popped moved /\
  attempts d' <= TOTAL_CPU_CAP cfg + M /\ (i + alen (cpu_tasks d)) / 2 <= alen (cpu_tasks d').
Proof.
induction fuel as [|fuel IH]; intros i d Hf Hok Hn Hi Ha Hb; [lia|]. cbn [assign].
assert (Stop : (i + alen (cpu_tasks d)) / 2 <= alen (cpu_tasks d) -> exists d' popped moved, Some d = Some d' /\ assigned d d' popped moved /\
  attempts d' <= TOTAL_CPU_CAP cfg + M /\ (i + alen (cpu_tasks d)) / 2 <= alen (cpu_tasks d')).
{ intros Hh. exists d, [], []. split_and!; [done|by apply assigned_nil|lia|done]. }
destruct (Z.ltb_spec i (alen (cpu_tasks d))) as [Hlt|Hge]; cbn [negb].
2: { apply Stop, Z.lt_succ_r, Z.div_lt_upper_bound; lia. }
destruct (pa_enabled cfg && (TOTAL_CPU_CAP cfg <? attempts d)) eqn:Epa.
{ apply Stop, Z.lt_succ_r, Z.div_lt_upper_bound; lia. }
assert (Hcap0 : attempts d <= TOTAL_CPU_CAP cfg).
{ destruct (pa_enabled cfg); [|by apply Hb]. cbn in Epa. by apply Z.ltb_ge in Epa. }
destruct (pop_spec (cpu_tasks d)) as (t & rest & -> & Hp & Hmax); [intros E; rewrite E in Hlt; change (alen []) with 0 in Hlt; lia|]. cbn [mbind option_bind].
assert (Htr : Forall task_ok (t :: rest)) by (rewrite <- Hp; apply Hok). apply Forall_cons in Htr as [Ht Hrest].
destruct (assign_one_spec (negb (pa_enabled cfg)) t rest d Ht Hrest Hok) as (m & d1 & -> & Hok1 & E1 & Hcr & Ha1). cbn [mbind option_bind].
assert (Hreq : 0 <= req_cnt t <= M) by (rewrite (tk_cnt _ Ht); apply HM).
assert (Ha1' : attempts d1 = attempts d + (if m then req_cnt t else 0)) by (rewrite Ha1; destruct m; [rewrite wrapu_small; lia|lia]).
assert (Hlen : alen (cpu_tasks d) = alen rest + 1) by (unfold alen; rewrite Hp; cbn; lia).
assert (Hn1 : base.NoDup (map slot_of_task rest)) by (rewrite Hp in Hn; by apply NoDup_cons in Hn as [_ ?]).
pose proof (fun d' popped moved => assigned_cons d d1 d' t rest popped moved m Hp Hmax Hn E1 Hcr Ha1') as Hcons.
destruct (negb (pa_enabled cfg) && m && (TOTAL_CPU_CAP cfg <? attempts d1)) eqn:Eb.
- exists d1, [t], (if m then [t] else []). split; [done|]. split; [exact (Hcons d1 [] [] (assigned_nil _ Hok1))|].
  split; [destruct m; lia|]. rewrite E1. apply Z.lt_succ_r, Z.div_lt_upper_bound; lia.
- destruct (IH (i + 1) d1) as (d' & popped & moved & E & Has & Hle & Hh); rewrite ?E1; try done; try lia.
  + unfold alen in Hlen. lia.
  + destruct m; lia.
  + intros Hpa. rewrite Hpa in Eb. cbn in Eb. destruct m; [|lia]. cbn in Eb. by apply Z.ltb_ge in Eb.
  + exists d', (t :: popped), (if m then t :: moved else moved). split_and!; [done|by apply Hcons|done|]. rewrite E1 in Hh.
    replace (i + alen (cpu_tasks d)) with (i + 1 + alen rest) by lia. done.
Qed.

(** *** The skewed load *)

Lemma hot_not_cold t s i j : task_ok t -> cold i -> 0 <= i < MAX_COUNTER_NUM -> s = sub_slot i j -> slot_of_task t <> s.
Proof.
intros Ht Hc Hi -> E. apply sub_slot_inj in E as [E _]; [|apply Ht|done]. pose proof (tk_hot _ Ht) as Hh. rewrite E in Hh. apply cold_below in Hc. lia.
Qed.

Lemma not_in_slots l s : (forall t, In t l -> slot_of_task t <> s) -> in_slots l s = false.
Proof.
intros H. apply not_true_is_false. intros E. unfold in_slots in E. apply existsb_exists in E as (t & Hin & E). apply Z.eqb_eq in E. by destruct (H t Hin).
Qed.

(** The decision on a skewed load, in terms of the tasks the loop handled. *)
Record skewed (cur : list Z) (d : decision) (popped moved : list cpu_task) : Prop := {
sk_credit : strategy_ok (d_credit d); sk_old : strategy_ok (d_old d); sk_onload : alen (onload_nums d) = MAX_COUNTER_NUM;
sk_tasks : Forall task_ok (popped ++ cpu_tasks d); sk_nodup : base.NoDup (map slot_of_task (popped ++ cpu_tasks d));
sk_moved : sublist moved popped;
sk_largest : forall t t', In t popped -> In t' (cpu_tasks d) -> req_cnt t' <= req_cnt t;
sk_half : alen popped <= (alen (popped ++ cpu_tasks d) + 1) / 2;
sk_load : load moved <= TOTAL_CPU_CAP cfg + M;
sk_raised : forall s, lv (d_credit d) s = 1 -> lv cur s = 1 \/ in_slots moved s = true;
sk_cold : forall i j, 0 <= i < MAX_COUNTER_NUM -> 0 <= j < SLOT_GRANULARITY -> cold i -> lv (d_credit d) (sub_slot i j) = 0 }.

Lemma decide_skewed_spec cur old onload :
strategy_ok cur -> strategy_ok old -> alen onload = MAX_COUNTER_NUM -> 0 <= TOTAL_CPU_CAP cfg -> 0 <= M ->
exists d popped moved, decide_skewed top cfg cs ccs real req_per_slot overThres cur old onload = Some d /\ skewed cur d popped moved.
Proof.
intros Hcur Hold Hon Hc0 HM0. unfold decide_skewed.
assert (Hok0 : decision_ok (Decision cur old onload [] 0)) by (by constructor).
destruct (classify_all (negb (pa_enabled cfg)) _ Hok0 eq_refl) as (d0 & -> & [Hok Ha Hlow Hn _ Hcold]). cbn [mbind option_bind]. cbn in Ha, Hlow.
destruct (assign_spec (S (length (cpu_tasks d0))) 0 d0) as (d & popped & moved & E & [Aok Aperm Asub Alar Acr Ald] & Hle & Hh);
  try done; try lia; [pose proof (alen_nonneg (cpu_tasks d0)); lia|].
exists d, popped, moved. split; [exact E|].
assert (Htk : Forall task_ok (popped ++ cpu_tasks d)) by (rewrite <- Aperm; apply Hok).
assert (Hin : forall t, In t popped -> task_ok t).
{ intros t Ht. eapply List.Forall_forall in Htk; [exact Htk|]. apply in_or_app. by left. }
constructor; try apply Aok; try done.
- rewrite <- Aperm. done.
- assert (El : alen (cpu_tasks d0) = alen popped + alen (cpu_tasks d)) by (unfold alen; rewrite Aperm, length_app; lia).
  rewrite Z.add_0_l, El in Hh. unfold alen at 2. rewrite length_app, Nat2Z.inj_add. fold (alen popped). fold (alen (cpu_tasks d)).
  pose proof (Z.div_mod (alen popped + alen (cpu_tasks d)) 2 ltac:(lia)). pose proof (Z.mod_pos_bound (alen popped + alen (cpu_tasks d)) 2 ltac:(lia)).
  apply Z.div_le_lower_bound; lia.
- rewrite Ha in Ald. lia.
- intros s. rewrite Acr. destruct (in_slots moved s); [by right|]. destruct (in_slots popped s); [done|]. destruct (Hlow s) as [->| ->]; [by left|done].
- intros i j Hi Hj Hc. rewrite Acr.
  rewrite (not_in_slots popped), (not_in_slots moved); [by apply Hcold| |].
  + intros t Ht. eapply hot_not_cold; [|exact Hc|exact Hi|done]. apply Hin. apply list_elem_of_In. eapply sublist_subseteq; [exact Asub|]. by apply list_elem_of_In.
  + intros t Ht. eapply hot_not_cold; [by apply Hin|exact Hc|exact Hi|done].
Qed.
End Decide.

(** ** The decision *)

(** The averages and thresholds of [decide]. *)
Definition average (rd : round) : Z := u64 (tt_rnic_req (rd_scan rd) + tt_cpu_req (rd_scan rd)) / MAX_COUNTER_NUM.
Definition over_thres (cfg : agent_cfg) (rd : round) : Z :=
  if pa_enabled cfg then (if threshold cfg / 2 <? average rd then average rd else threshold cfg)
  else if threshold cfg <? average rd then average rd else threshold cfg.
Definition uniform_load (rd : round) : bool := is_uniform (real_counters (rd_scan rd)) (real_c_counters (rd_scan rd)) (average rd).

Section Total.
Context (top : list cpu_task -> nat) (Htop : is_top top) (cfg : agent_cfg) (rd : round) (ly : server_layout) (onload : list Z) (M : Z).

Record inputs_ok : Prop := {
in_scan_ok : scan_ok (rd_scan rd);
in_counters : forall s, 0 <= lv (sc_counters (rd_scan rd)) s <= M;
in_c_counters : forall s, 0 <= lv (sc_c_counters (rd_scan rd)) s;
in_cap : 0 <= M /\ TOTAL_CPU_CAP cfg + M < 2 ^ 64;
in_credit : strategy_ok (r_credit (l_strategies ly)); in_old : strategy_ok (r_credit (old_strategies ly));
in_onload : alen onload = MAX_COUNTER_NUM; in_threshold : 0 <= threshold cfg < 2 ^ 64;
in_share : onload_sub_slot cfg <> None }.

Context (Hin : inputs_ok).

Lemma over_thres_small : over_thres cfg rd <= 2 ^ 64.
Proof.
pose proof (in_threshold Hin). assert (average rd <= 2 ^ 64).
{ unfold average. pose proof (wrapu_range 64 (tt_rnic_req (rd_scan rd) + tt_cpu_req (rd_scan rd)) ltac:(done)) as [H0 H1].
  apply Z.div_le_upper_bound; [done|]. unfold MAX_COUNTER_NUM. lia. }
unfold over_thres. destruct (pa_enabled cfg); case_match; lia.
Qed.

Lemma run_skewed :
exists d popped moved, decide_skewed top cfg (sc_counters (rd_scan rd)) (sc_c_counters (rd_scan rd)) (real_counters (rd_scan rd))
    (average rd) (over_thres cfg rd) (r_credit (l_strategies ly)) (r_credit (old_strategies ly)) onload = Some d /\
  skewed cfg (sc_counters (rd_scan rd)) (sc_c_counters (rd_scan rd)) (real_counters (rd_scan rd)) (over_thres cfg rd) M
    (r_credit (l_strategies ly)) d popped moved.
Proof.
pose proof Hin as [[L1 L2 L3 L4 Hw] H1 H2 [H3 H3'] H4 H5 H6 H7 _].
apply decide_skewed_spec; try done; [apply over_thres_small|intros i; apply Hw|]. apply (wrapu_range 64). done.
Qed.

Lemma run_uniform : exists cur, decide_uniform cfg (r_credit (l_strategies ly)) = Some cur /\ strategy_ok cur.
Proof.
pose proof (in_share Hin) as Hs. unfold decide_uniform. unfold onload_sub_slot in *.
destruct (round_u64 _) as [n|]; [|done]. cbn [mbind option_bind]. set (k := if SLOT_GRANULARITY <? n then 0 else n).
assert (k <= SLOT_GRANULARITY) by (unfold k; destruct (Z.ltb_spec SLOT_GRANULARITY n); [done|lia]).
destruct (for_from_inv (fun _ l => strategy_ok l) (Z.to_nat (MAX_COUNTER_NUM * k)) 0 (fun i cur => aset cur i 1)
  (r_credit (l_strategies ly)) (in_credit Hin)) as (cur & E & H'); [|by exists cur].
intros i l Hi Hl. destruct (aset_ex l i 1) as [l' El]; [rewrite (proj1 Hl); unfold NR_SLOTS, MAX_COUNTER_NUM, SLOT_GRANULARITY in *; lia|].
exists l'. split; [done|]. eapply aset_strategy; [done| |exact El]. by right.
Qed.

Lemma all_strategy v : bit v -> strategy_ok (replicate (Z.to_nat NR_SLOTS) v).
Proof. intros Hv. split; [by rewrite alen_replicate, Z2Nat.id|by apply Forall_replicate]. Qed.

(** The two ways the decision is made. *)
Lemma decide_cases :
(exists v, bit v /\ exists o, decide top cfg rd ly onload = Some o /\
   r_credit (l_strategies (o_layout o)) = replicate (Z.to_nat NR_SLOTS) v /\ old_strategies (o_layout o) = old_strategies ly /\
   r_phase (l_strategies (o_layout o)) = u64 (r_phase (l_strategies ly) + 1) /\ o_onload o = onload /\
   consensus (o_layout o) = consensus ly /\ r_credit (uniform_strag (o_layout o)) = r_credit (uniform_strag ly)) \/
(exists d o, decide top cfg rd ly onload = Some o /\
   r_credit (l_strategies (o_layout o)) = d_credit d /\ r_credit (old_strategies (o_layout o)) = d_old d /\
   r_phase (l_strategies (o_layout o)) = u64 (r_phase (l_strategies ly) + 1) /\ o_onload o = onload_nums d /\
   consensus (o_layout o) = consensus ly /\ r_credit (uniform_strag (o_layout o)) = r_credit (uniform_strag ly) /\
   ((exists popped moved, skewed cfg (sc_counters (rd_scan rd)) (sc_c_counters (rd_scan rd)) (real_counters (rd_scan rd))
       (over_thres cfg rd) M (r_credit (l_strategies ly)) d popped moved) \/
    pa_enabled cfg = true /\ uniform_load rd = true /\ strategy_ok (d_credit d) /\ d_old d = r_credit (old_strategies ly) /\ onload_nums d = onload)).
Proof.
pose proof run_skewed as (d & popped & moved & E & Hd). pose proof run_uniform as (cur & Eu & Hu).
unfold decide. destruct (negb (agent_enabled cfg) || (threshold cfg =? RNIC_THRESHOLD)).
{ left. exists 0. split; [by left|]. by eexists. }
destruct (threshold cfg =? 0). { left. exists 1. split; [by right|]. by eexists. }
right. fold (average rd). fold (uniform_load rd). unfold over_thres in E, Hd. destruct (pa_enabled cfg) eqn:Epa.
- destruct (uniform_load rd) eqn:Eun.
  + rewrite Eu. cbn [mbind option_bind]. eexists (Decision cur (r_credit (old_strategies ly)) onload [] 0), _. split; [done|].
    split_and!; try done. by right.
  + rewrite E. cbn [mbind option_bind]. exists d. eexists. split; [done|]. split_and!; try done. left. unfold over_thres. rewrite Epa. eauto.
- rewrite E. cbn [mbind option_bind]. exists d. eexists. split; [done|]. split_and!; try done. left. unfold over_thres. rewrite Epa. eauto.
Qed.

(** C32: the server's decision always has a result, whatever the counters, the
  load and the order in which the queue returns equal tasks: no array is left,
  the strategy and the one it keeps for comparison are arrays of zeros and
  ones, the phase is the next one, and the acknowledgement counter and the
  strategy of uniform machines are untouched. *)
Theorem decide_total :
exists o, decide top cfg rd ly onload = Some o /\
  strategy_ok (r_credit (l_strategies (o_layout o))) /\ strategy_ok (r_credit (old_strategies (o_layout o))) /\
  alen (o_onload o) = MAX_COUNTER_NUM /\
  r_phase (l_strategies (o_layout o)) = u64 (r_phase (l_strategies ly) + 1) /\ consensus (o_layout o) = consensus ly /\
  r_credit (uniform_strag (o_layout o)) = r_credit (uniform_strag ly).
Proof.
destruct decide_cases as [(v & Hv & o & E & E1 & E2 & E3 & E4 & E5 & E6)|(d & o & E & E1 & E2 & E3 & E4 & E5 & E6 & Hd)]; exists o; split; try done.
- rewrite E1, E2, E4. split; [by apply all_strategy|]. split; [apply Hin|]. split; [apply Hin|]. done.
- rewrite E1, E2, E4. destruct Hd as [(popped & moved & Hd)|(_ & _ & Hs & -> & ->)].
  + split; [apply Hd|]. split; [apply Hd|]. split; [apply Hd|]. done.
  + split; [done|]. split; [apply Hin|]. split; [apply Hin|]. done.
Qed.

(** C33: on a skewed load the decision respects the capacities: the parts of a
  slot whose requests are below the threshold together go back to the device,
  and every part newly given to the CPU is a counter of a slot above the
  threshold, the requests of all of them together being at most the CPU's
  capacity and one counter. *)
Theorem decide_capacity :
agent_enabled cfg = true -> threshold cfg <> 0 -> threshold cfg <> RNIC_THRESHOLD ->
(pa_enabled cfg && uniform_load rd) = false ->
exists o moved, decide top cfg rd ly onload = Some o /\
  (forall i j, 0 <= i < MAX_COUNTER_NUM -> 0 <= j < SLOT_GRANULARITY ->
     cold (sc_c_counters (rd_scan rd)) (real_counters (rd_scan rd)) (over_thres cfg rd) i ->
     lv (r_credit (l_strategies (o_layout o))) (sub_slot i j) = 0) /\
  (forall s, lv (r_credit (l_strategies (o_layout o))) s = 1 ->
     lv (r_credit (l_strategies ly)) s = 1 \/ in_slots moved s = true) /\
  Forall (task_ok (sc_counters (rd_scan rd)) (real_counters (rd_scan rd)) (over_thres cfg rd)) moved /\
  base.NoDup (map slot_of_task moved) /\ load moved <= TOTAL_CPU_CAP cfg + M.
Proof.
intros He H0 Hr Hpu. destruct run_skewed as (d & popped & moved & E & Hd).
assert (exists o, decide top cfg rd ly onload = Some o /\ r_credit (l_strategies (o_layout o)) = d_credit d) as (o & Eo & Ec).
{ unfold decide. rewrite He, (proj2 (Z.eqb_neq _ _) H0), (proj2 (Z.eqb_neq _ _) Hr). cbn [negb orb].
  fold (average rd). fold (uniform_load rd). unfold over_thres in E. destruct (pa_enabled cfg); cbn [andb] in Hpu; [rewrite Hpu|]; rewrite E; by eexists. }
exists o, moved. rewrite Eo, Ec. split; [done|]. destruct Hd as [_ _ _ T1 T2 T3 _ _ T6 T7 T8]. split_and!; try done.
- apply Forall_app in T1 as [T1 _]. exact (sublist_all _ _ _ T3 T1).
- rewrite map_app in T2. apply NoDup_app in T2 as [T2 _]. exact (sublist_nodup _ _ _ T3 T2).
Qed.
End Total.

(** ** Uniform machines *)

Lemma scan_counter_max first cms j s s' v : scan_counter first cms j s = Some s' -> mesg_get (m_mesg s) j = Some v ->
  let slot := u64 (tmp_slot_req s + v) in let boundary := negb (j =? 0) && (j mod SLOT_GRANULARITY =? 0) in
  tmp_slot_req s' = (if boundary then 0 else slot) /\ m_max s' = (if boundary && (m_max s <? slot) then slot else m_max s).
Proof. intros E Hv. unfold scan_counter in E. rewrite Hv in E. inv_bind. done. Qed.

Lemma uniform_test cfg req onload max c :
  0 < c -> c < 2 ^ 50 -> req = u64 (c * NR_SLOTS) -> 17 * c <= max -> machine_is_uniform cfg req onload max = false.
Proof.
  intros H0 H1 -> Hm. unfold machine_is_uniform. rewrite (wrapu_small 64 (c * NR_SLOTS)) by (unfold NR_SLOTS, MAX_COUNTER_NUM, SLOT_GRANULARITY; lia).
  fold NR_SLOTS. rewrite Z.div_mul by done. rewrite wrapu_small by lia. by rewrite (proj2 (Z.ltb_lt _ _)) by lia.
Qed.

(** Equal counters [c] make the largest slot at least 17 of them. *)
Definition grows (c j : Z) (t : scan) : Prop := (j <= 16 -> tmp_slot_req t = j * c) /\ (16 < j -> 17 * c <= m_max t).

Lemma grows_step first cms c j t t' : 0 < c < 2 ^ 50 -> 0 <= j -> scan_counter first cms j t = Some t' -> mesg_get (m_mesg t) j = Some c ->
  grows c j t -> grows c (j + 1) t'.
Proof.
  intros Hc Hj Et Hv [Ht1 Ht2]. unfold grows. destruct (scan_counter_max _ _ _ _ _ c Et Hv) as [-> ->].
  destruct (Z.le_gt_cases j 15) as [Hlo|Hhi].
  - assert ((negb (j =? 0) && (j mod SLOT_GRANULARITY =? 0)) = false) as ->.
    { destruct (Z.eqb_spec j 0); [done|]. cbn. unfold SLOT_GRANULARITY. rewrite Z.mod_small by lia. apply Z.eqb_neq. lia. }
    cbn [andb]. split; [|lia]. intros _. rewrite (Ht1 ltac:(lia)), wrapu_small by nia. lia.
  - split; [lia|]. intros _. destruct (Z.eq_dec j 16) as [->|].
    + change (negb (16 =? 0) && (16 mod SLOT_GRANULARITY =? 0)) with true. cbn [andb].
      rewrite (Ht1 ltac:(lia)), wrapu_small by lia. destruct (Z.ltb_spec (m_max t) (16 * c + c)); lia.
    + specialize (Ht2 ltac:(lia)). destruct (_ && _) eqn:Eb; [|done]. apply andb_true_iff in Eb as [_ Eb]. apply Z.ltb_lt in Eb. lia.
Qed.

Lemma uniform_max mu s s1 c :
  scan_ok s -> unit_ok mu -> in_width 64 (tt_rnic_req s) -> in_width 64 (tt_cpu_req s) ->
  0 < c < 2 ^ 50 -> (forall j, 0 <= j < NR_SLOTS -> mv (mesg_arr mu) j = c) -> scan_unit false mu s = Some s1 -> 17 * c <= m_max s1.
Proof.
  intros Hs Hmu W1 W2 Hc Hall E1.
  set (s0 := Scan (sc_counters s) (sc_c_counters s) (real_counters s) (real_c_counters s) (tt_rnic_req s) (tt_cpu_req s) 0 0 0 0 (mesg_arr mu)).
  destruct (for_from_inv (fun j t => scanning false (mv (mesg_arr mu)) (mv (c_mesg_arr mu)) s0 j t /\ grows c j t)
    (Z.to_nat NR_SLOTS) 0 (scan_counter false (c_mesg_arr mu)) s0) as (s2 & E2 & _ & _ & H2).
  - split; [apply scanning_start; try done; [by destruct Hs|apply Hmu]|]. split; [done|lia].
  - intros j t Hj (Hsc & Hg). rewrite Z2Nat.id in Hj by done.
    destruct (scan_step_counter false _ _ (c_mesg_arr mu) s0 j t (proj2 Hmu) (fun j _ => eq_refl) ltac:(lia) Hsc) as (t' & Et & Hsc').
    exists t'. split; [exact Et|]. split; [exact Hsc'|]. destruct (sg_mesg _ _ _ _ _ _ Hsc) as [Hmo Hmv].
    eapply grows_step; [exact Hc| |exact Et| |exact Hg]; [lia|]. rewrite mesg_get_ok, Hmv, Hall by (exact Hmo || lia). reflexivity.
  - assert (scan_unit false mu s = Some s2) as E3 by exact E2. rewrite E1 in E3. injection E3 as ->. apply H2. reflexivity.
Qed.

(** The test for a uniform load compares the requests of 17 neighbouring
    counters with twice the average of one counter: a machine that uses all
    counters equally is taken for a skewed one. *)
Theorem uniform_machine_called_skewed cfg mu s c :
  scan_ok s -> unit_ok mu -> in_width 64 (tt_rnic_req s) -> in_width 64 (tt_cpu_req s) ->
  0 < c < 2 ^ 50 -> (forall j, 0 <= j < NR_SLOTS -> mv (mesg_arr mu) j = c) ->
  exists s', scan_unit false mu s = Some s' /\ machine_is_uniform cfg (m_req s') (m_onload s') (m_max s') = false.
Proof.
  intros Hs Hmu W1 W2 Hc Hall.
  destruct (scan_unit_spec false mu s Hs Hmu W1 W2) as (s1 & E1 & _ & _ & _ & _ & _ & _ & _ & Hreq & _). exists s1. split; [exact E1|].
  pose proof (uniform_max mu s s1 c Hs Hmu W1 W2 Hc Hall E1) as Hmax.
  apply (uniform_test cfg (m_req s1) (m_onload s1) (m_max s1) c (proj1 Hc) (proj2 Hc)); [|exact Hmax].
  rewrite Hreq. f_equal. rewrite (zsum_ext _ _ (fun _ => c)); [by rewrite zsum_const, Z2Nat.id|]. intros j Hj. apply Hall. by rewrite Z2Nat.id in Hj.
Qed.

(** ** Samples

    Two machines, four cores, one hot counter. *)

(** The first largest task. *)
Fixpoint first_max (l : list cpu_task) : nat :=
  match l with
  | [] => 0%nat
  | t :: l' => match l' !! first_max l' with
               | Some t' => if req_cnt t <? req_cnt t' then S (first_max l') else 0%nat
               | None => 0%nat
               end
  end.

Lemma first_max_top : is_top first_max.
Proof.
  intros l. induction l as [|t l IH]; intros Hl; [done|]. cbn [first_max]. destruct l as [|u l].
  - exists t. split; [done|]. constructor; [lia|constructor].
  - destruct (IH ltac:(done)) as (m & Em & Hm). rewrite Em. destruct (Z.ltb_spec (req_cnt t) (req_cnt m)).
    + exists m. split; [exact Em|]. constructor; [lia|exact Hm].
    + exists t. split; [done|]. constructor; [lia|]. eapply Forall_impl; [exact Hm|]. cbn. lia.
Qed.

Definition sample_cfg : agent_cfg := AgentCfg true 10000 false 4 2.
Definition zeros (n : Z) : list Z := replicate (Z.to_nat n) 0.
Definition sample_sums : round :=
  Round (Scan (<[5%nat := 20000]> (zeros NR_SLOTS)) (zeros NR_SLOTS) (<[5%nat := 20000]> (zeros MAX_COUNTER_NUM)) (zeros MAX_COUNTER_NUM)
           20000 0 0 0 0 0 [])
    [] [true; true] 2 [20000; 0] [0; 0] [20000; 0].
Definition sample_server : server_layout :=
  Layout (Resp 1 (zeros NR_SLOTS)) [] (Resp 1 (zeros NR_SLOTS)) (Resp 1 (zeros NR_SLOTS)) 0.

Lemma lv_zeros n k : lv (zeros n) k = 0.
Proof. unfold lv. destruct (_ .[k]) as [x|] eqn:E; [|done]. by apply aget_replicate_inv in E as ->. Qed.

Lemma lv_hot n k : lv (<[5%nat := 20000]> (zeros n)) k = 0 \/ lv (<[5%nat := 20000]> (zeros n)) k = 20000.
Proof.
  unfold lv, aget. case_match; [|by left]. destruct (<[5%nat := 20000]> (zeros n) !! Z.to_nat k) as [x|] eqn:E; [|by left].
  apply list_lookup_insert_Some in E as [(_ & <- & _)|(_ & E)]; [by right|]. apply lookup_replicate in E as [-> _]. by left.
Qed.

Lemma alen_zeros n : 0 <= n -> alen (zeros n) = n.
Proof. intros. unfold zeros. rewrite alen_replicate. lia. Qed.

Lemma alen_hot n : 0 <= n -> alen (<[5%nat := 20000]> (zeros n)) = n.
Proof. intros. unfold alen. rewrite length_insert. by apply alen_zeros. Qed.

Lemma zeros_strategy : strategy_ok (zeros NR_SLOTS).
Proof. apply all_strategy. by left. Qed.

Lemma sample_inputs : inputs_ok sample_cfg sample_sums sample_server (zeros MAX_COUNTER_NUM) 20000.
Proof.
  constructor; cbn [rd_scan sample_sums sc_counters sc_c_counters l_strategies old_strategies r_credit sample_server].
  - constructor; cbn [sc_counters sc_c_counters real_counters real_c_counters].
    + by apply alen_hot.
    + by apply alen_zeros.
    + by apply alen_hot.
    + by apply alen_zeros.
    + intros k. rewrite lv_zeros. split; [|done]. destruct (lv_hot MAX_COUNTER_NUM k) as [-> | ->]; done.
  - intros s. destruct (lv_hot NR_SLOTS s) as [-> | ->]; done.
  - intros s. by rewrite lv_zeros.
  - done.
  - apply zeros_strategy.
  - apply zeros_strategy.
  - by apply alen_zeros.
  - done.
  - by vm_compute.
Qed.

Lemma decide_total_witness :
  exists o, decide first_max sample_cfg sample_sums sample_server (zeros MAX_COUNTER_NUM) = Some o /\
    r_phase (l_strategies (o_layout o)) = 2 /\ strategy_ok (r_credit (l_strategies (o_layout o))).
Proof.
  destruct (decide_total first_max first_max_top sample_cfg sample_sums sample_server (zeros MAX_COUNTER_NUM) 20000 sample_inputs)
    as (o & E & H1 & _ & _ & H2 & _).
  exists o. split; [exact E|]. split; [exact H2|exact H1].
Defined.

Lemma sample_cold i : 0 <= i -> i <> 5 -> cold (zeros NR_SLOTS) (<[5%nat := 20000]> (zeros MAX_COUNTER_NUM)) 10000 i.
Proof.
  intros H0 Hi. unfold cold. rewrite zsum_zero by (intros; apply lv_zeros). unfold lv, aget. case_match; [|done].
  rewrite list_lookup_insert_ne by lia. destruct (zeros MAX_COUNTER_NUM !! Z.to_nat i) as [x|] eqn:E; [|done].
  apply lookup_replicate in E as [-> _]. done.
Qed.

Lemma decide_capacity_witness :
  exists o moved, decide first_max sample_cfg sample_sums sample_server (zeros MAX_COUNTER_NUM) = Some o /\
    lv (r_credit (l_strategies (o_layout o))) (sub_slot 6 3) = 0 /\ load moved <= 10000000 + 20000.
Proof.
  destruct (decide_capacity first_max first_max_top sample_cfg sample_sums sample_server (zeros MAX_COUNTER_NUM) 20000 sample_inputs
    eq_refl ltac:(done) ltac:(done) eq_refl) as (o & moved & E & Hc & _ & _ & _ & Hl).
  exists o, moved. split; [exact E|]. split; [|exact Hl]. apply Hc; [split; [done|reflexivity]|split; [done|reflexivity]|].
  exact (sample_cold 6 ltac:(done) ltac:(done)).
Defined.

(** The loop over the tasks compares its index with the size of the queue it
    shortens: of four tasks that fit, two are left. *)
Theorem half_of_the_tasks :
  let d := Decision [0; 0; 0; 0] [0; 0; 0; 0] [100; 100; 100; 100] [CpuTask 9 0 0; CpuTask 9 1 0; CpuTask 9 2 0; CpuTask 9 3 0] 0 in
  (d' ← assign first_max sample_cfg [9; 9; 9; 9] 5 0 d; Some (d_credit d', length (cpu_tasks d'))) = Some ([1; 1; 0; 0], 2%nat).
Proof. reflexivity. Qed.

(** A counter above 90% of the slot's first one is moved whatever is left to
    move: the remaining number then wraps around, and everything else of the
    slot is moved, too. *)
Theorem onload_wraps :
  let d := Decision [0; 0] [0; 0] [5; 0] [CpuTask 100 0 0; CpuTask 100 0 0] 0 in
  (x ← assign_one [100; 0] true (CpuTask 100 0 0) [] d; Some (onload_nums (snd x))) = Some [2 ^ 64 - 95; 0].
Proof. vm_compute. reflexivity. Qed.

(** Without PCIe atomics a machine judged uniform is sent a strategy of zeros
    while another is sent credits: after the round the device serves the first
    machine's operations on the slot, and the CPU the second's. *)
Theorem machines_disagree cfg o i j s :
  o_uniform o = false -> pa_enabled cfg = false -> (o_machines o).[i] = Some true -> (o_machines o).[j] = Some false ->
  lv (r_credit (uniform_strag (o_layout o))) s = 0 -> lv (r_credit (l_strategies (o_layout o))) s = 1 ->
  exists ri rj, sent cfg o i = Some ri /\ sent cfg o j = Some rj /\ lv (r_credit ri) s = 0 /\ lv (r_credit rj) s = 1.
Proof. intros Hu Hp Hi Hj H0 H1. unfold sent. rewrite Hi, Hj, Hu, Hp. cbn. by do 2 eexists. Qed.
