(* ===== verification/Consensus.v ===== *)
(** The change of strategy: the agent (fusioncas/agent/agent.cpp) against the
    queue pairs (the hook of qp.c).

    The agent copies the server's strategy into the shared region word by word
    and then waits ([Agent::wait_sync]): it takes a snapshot of the epochs of
    the registered queue pairs and leaves a queue pair when its epoch has moved
    or its running flag is clear.  A queue pair executes the steps of
    [Fusa.mlx5_post_send] on the region one by one: mark, epoch, read of the
    credit, post.  [cstep] interleaves them; every step is one access to the
    shared memory (the region's cells are updated by atomic instructions, and
    x86 stores become visible in order). *)

From S2P Require Import Prelude Mem Recorder Fusa.

(** ** The agent *)

(** The 64-bit words of the strategy: four 16-bit credits each. *)
Definition NR_WORDS : Z := NR_SLOTS / 4.

(** [*(shm_strategies + k) = *(new_strategies + k)]. *)
Definition copy_word (new cr : list Z) (k : Z) : list Z :=
  take (Z.to_nat (4 * k)) cr ++ take 4 (drop (Z.to_nat (4 * k)) new) ++ drop (Z.to_nat (4 * k + 4)) cr.

(** Where the agent is: copying word [k]; taking the snapshot at index [i]
    with the queue so far; waiting for the head of the queue, before the read
    of its epoch and, when that is unchanged, before the read of its flag; done. *)
Inductive agent_pc :=
| ACopy (k : Z)
| ASnap (i : Z) (q : list (Z * Z))
| AWaitEpoch (q : list (Z * Z))
| AWaitFlag (q : list (Z * Z))
| ADone.

(** ** A queue pair in [mlx5_post_send] *)

Inductive qp_pc :=
| PIdle
| PMarked (slot : Z)              (* running set *)
| PCounted (slot : Z)             (* epoch counted *)
| PDecided (slot c : Z).          (* credit read *)

Record cstate := CState {
  reg_ : sh_local_region;
  pcs : list qp_pc;
  posted : list (Z * Z * Z);       (* queue pair, slot and credit of requests in flight *)
  ag : agent_pc }.

Definition registered (r : sh_local_region) (i : Z) : Prop := exists q, qpn_at (records r) i = Some q /\ q <> 0.

(** Who takes a step. *)
Inductive actor := Qp_ (i : Z) | Agent | Other.

Inductive cstep (new : list Z) : actor -> cstate -> cstate -> Prop :=
| c_mark i slot r r' ps ps' fl a :
    ps.[i] = Some PIdle -> registered r i -> 0 <= slot < NR_SLOTS ->
    mark_running r i = Some r' -> aset ps i (PMarked slot) = Some ps' ->
    cstep new (Qp_ i) (CState r ps fl a) (CState r' ps' fl a)
| c_epoch i slot r r' ps ps' fl a :
    ps.[i] = Some (PMarked slot) -> bump_epoch r i = Some r' -> aset ps i (PCounted slot) = Some ps' ->
    cstep new (Qp_ i) (CState r ps fl a) (CState r' ps' fl a)
| c_read i slot c r ps ps' fl a :
    ps.[i] = Some (PCounted slot) -> (credit r).[slot] = Some c -> aset ps i (PDecided slot c) = Some ps' ->
    cstep new (Qp_ i) (CState r ps fl a) (CState r ps' fl a)
| c_device i slot r r' ps ps' fl a :
    ps.[i] = Some (PDecided slot 0) -> count_nic r i slot = Some r' -> aset ps i PIdle = Some ps' ->
    cstep new (Qp_ i) (CState r ps fl a) (CState r' ps' ((i, slot, 0) :: fl) a)
| c_rpc i slot c r r' ps ps' fl a :
    ps.[i] = Some (PDecided slot c) -> c <> 0 -> clear_running r i = Some r' -> aset ps i PIdle = Some ps' ->
    cstep new (Qp_ i) (CState r ps fl a) (CState r' ps' ((i, slot, c) :: fl) a)
| c_complete r ps fl1 x fl2 a :
    cstep new Other (CState r ps (fl1 ++ x :: fl2) a) (CState r ps (fl1 ++ fl2) a)
| c_register i q rec r recs ps fl a :
    (records r).[i] = Some rec -> qpn rec = 0 -> q <> 0 ->
    aset (records r) i (Recorder q (counters rec) (c_counters rec)) = Some recs ->
    cstep new Other (CState r ps fl a) (CState (with_records r recs) ps fl a)
| c_copy k r ps fl :
    0 <= k < NR_WORDS ->
    cstep new Agent (CState r ps fl (ACopy k)) (CState (with_credit r (copy_word new (credit r) k)) ps fl (ACopy (k + 1)))
| c_copied r ps fl :
    cstep new Agent (CState r ps fl (ACopy NR_WORDS)) (CState r ps fl (ASnap 0 []))
| c_snap i q r ps fl e qn :
    0 <= i < MAX_RECORDER_NUM -> qpn_at (records r) i = Some qn -> (epoch r).[i] = Some e ->
    cstep new Agent (CState r ps fl (ASnap i q))
      (CState r ps fl (ASnap (i + 1) (if qn =? 0 then q else q ++ [(i, e)])))
| c_snapped q r ps fl :
    cstep new Agent (CState r ps fl (ASnap MAX_RECORDER_NUM q)) (CState r ps fl (AWaitEpoch q))
| c_wait_epoch i ep e q r ps fl :
    (epoch r).[i] = Some e ->
    cstep new Agent (CState r ps fl (AWaitEpoch ((i, ep) :: q)))
      (CState r ps fl (if negb (ep =? e) then AWaitEpoch q else AWaitFlag ((i, ep) :: q)))
| c_wait_flag i ep v q r ps fl :
    (running r).[i] = Some v ->
    cstep new Agent (CState r ps fl (AWaitFlag ((i, ep) :: q)))
      (CState r ps fl (if v =? 0 then AWaitEpoch q else AWaitEpoch ((i, ep) :: q)))
| c_done r ps fl :
    cstep new Agent (CState r ps fl (AWaitEpoch [])) (CState r ps fl ADone).

Definition step_any (new : list Z) (s s' : cstate) : Prop := exists who, cstep new who s s'.

(** The queue pair is between its mark and the end of its call. *)
Definition busy (p : qp_pc) : bool := match p with PIdle => false | _ => true end.

(** A state the agent may start from: queue pairs anywhere in their calls. *)
Record start (new : list Z) (s : cstate) : Prop := {
  st_ok : region_ok (reg_ s);
  st_new : alen new = NR_SLOTS;
  st_pcs : alen (pcs s) = MAX_RECORDER_NUM;
  st_busy : forall i p, (pcs s).[i] = Some p -> busy p = true ->
            registered (reg_ s) i /\ exists v, (running (reg_ s)).[i] = Some v /\ v <> 0;
  st_ag : ag s = ACopy 0 }.

(** ** The invariant *)

(** Queue pair [i] has decided on a credit that is not the new one. *)
Definition stale (new : list Z) (s : cstate) (i : Z) : Prop :=
  exists slot c, (pcs s).[i] = Some (PDecided slot c) /\ new.[slot] <> Some c.

Definition queued (q : list (Z * Z)) (s : cstate) (i : Z) : Prop :=
  exists ep, (i, ep) ∈ q /\ (epoch (reg_ s)).[i] = Some ep.

(** What the agent knows of a stale queue pair. *)
Definition covered (s : cstate) (i : Z) : Prop :=
  match ag s with
  | ACopy _ => True
  | ASnap j q => i < j -> queued q s i
  | AWaitEpoch q | AWaitFlag q => queued q s i
  | ADone => False
  end.

(** How much of the strategy is copied. *)
Definition copied (new : list Z) (s : cstate) : Prop :=
  match ag s with
  | ACopy k => forall x, 0 <= x < 4 * k -> (credit (reg_ s)).[x] = new.[x]
  | _ => forall x, 0 <= x < NR_SLOTS -> (credit (reg_ s)).[x] = new.[x]
  end.

Record inv (new : list Z) (s : cstate) : Prop := {
  iv_ok : region_ok (reg_ s);
  iv_new : alen new = NR_SLOTS;
  iv_busy : forall i p, (pcs s).[i] = Some p -> busy p = true ->
            registered (reg_ s) i /\ exists v, (running (reg_ s)).[i] = Some v /\ v <> 0;
  iv_copied : copied new s;
  iv_covered : forall i, stale new s i -> covered s i }.

Lemma copy_word_length new cr k :
  alen new = NR_SLOTS -> alen cr = NR_SLOTS -> 0 <= k < NR_WORDS -> alen (copy_word new cr k) = NR_SLOTS.
Proof.
  unfold NR_WORDS, NR_SLOTS, MAX_COUNTER_NUM, SLOT_GRANULARITY, alen, copy_word. intros Hn Hc Hk.
  change (512 * 16) with 8192 in *. change (8192 / 4) with 2048 in *.
  rewrite !length_app, !length_take, !length_drop. lia.
Qed.

Lemma copy_word_get new cr k x :
  alen new = NR_SLOTS -> alen cr = NR_SLOTS -> 0 <= k < NR_WORDS -> 0 <= x ->
  (copy_word new cr k).[x] = if (4 * k <=? x) && (x <? 4 * k + 4) then new.[x] else cr.[x].
Proof.
  unfold NR_WORDS, NR_SLOTS, MAX_COUNTER_NUM, SLOT_GRANULARITY. intros Hn Hc Hk Hx.
  change (512 * 16) with 8192 in *. change (8192 / 4) with 2048 in *. unfold alen in *.
  rewrite !aget_lookup by done. unfold copy_word.
  destruct (Z.leb_spec (4 * k) x), (Z.ltb_spec x (4 * k + 4)); cbn [andb]; try lia.
  - rewrite lookup_app_r by (rewrite length_take; lia). rewrite length_take.
    rewrite lookup_app_l by (rewrite length_take, length_drop; lia). rewrite lookup_take_lt by lia.
    rewrite lookup_drop. f_equal. lia.
  - rewrite lookup_app_r by (rewrite length_take; lia). rewrite length_take.
    rewrite lookup_app_r by (rewrite length_take, length_drop; lia). rewrite length_take, length_drop, lookup_drop.
    f_equal. lia.
  - rewrite lookup_app_l by (rewrite length_take; lia). rewrite lookup_take_lt by lia. done.
Qed.

Lemma stale_range new s i : inv new s -> stale new s i -> 0 <= i < MAX_RECORDER_NUM.
Proof.
  intros Hi (slot & c & Hp & _). destruct (iv_busy _ _ Hi _ _ Hp eq_refl) as [_ (v & Hv & _)].
  apply aget_Some_lt in Hv. by rewrite (running_len _ (iv_ok _ _ Hi)) in Hv.
Qed.

(** A step of queue pair [i] changes its own cells only. *)
Lemma inv_local new i p' r r' ps ps' fl fl' a :
  inv new (CState r ps fl a) -> aset ps i p' = Some ps' -> region_ok r' -> credit r' = credit r ->
  (forall j, qpn_at (records r') j = qpn_at (records r) j) ->
  (forall j, j <> i -> (running r').[j] = (running r).[j]) ->
  (forall j, j <> i -> (epoch r').[j] = (epoch r).[j]) ->
  (busy p' = true -> registered r i /\ exists v, (running r').[i] = Some v /\ v <> 0) ->
  (stale new (CState r' ps' fl' a) i -> covered (CState r' ps' fl' a) i) ->
  inv new (CState r' ps' fl' a).
Proof.
  intros Hi Hps Hok Hcr Hq Hrun Hep Hbusy Hst.
  assert (Hreg : forall j, registered r j -> registered r' j) by (intros j (q & E & ?); exists q; by rewrite Hq).
  constructor; cbn [reg_ pcs]; try done.
  - apply Hi.
  - intros j p Hp Hb. rewrite (aget_aset _ _ _ j _ Hps) in Hp. destruct (Z.eqb_spec i j) as [<-|Hne].
    + inv Hp. destruct (Hbusy Hb) as [? ?]. auto.
    + destruct (iv_busy _ _ Hi j p Hp Hb) as [? (v & ? & ?)]. split; [auto|]. exists v. rewrite Hrun by done. done.
  - pose proof (iv_copied _ _ Hi) as C. unfold copied in *. cbn [ag reg_] in *. by rewrite Hcr.
  - intros j Hs. destruct (Z.eq_dec j i) as [->|Hne]; [auto|].
    assert (stale new (CState r ps fl a) j) as Hs'.
    { destruct Hs as (sl & c & Hp & Hn). exists sl, c. split; [|done]. cbn [pcs] in *.
      by rewrite (aget_aset_ne _ _ _ _ _ Hps) in Hp by done. }
    pose proof (iv_covered _ _ Hi _ Hs') as C. unfold covered, queued in *. cbn [ag reg_] in *.
    rewrite Hep by done. exact C.
Qed.

Lemma pc_range new r ps fl a i p :
  inv new (CState r ps fl a) -> ps.[i] = Some p -> busy p = true -> 0 <= i < MAX_RECORDER_NUM.
Proof.
  intros Hi Hp Hb. destruct (iv_busy _ _ Hi _ _ Hp Hb) as [_ (v & Hv & _)].
  apply aget_Some_lt in Hv. by rewrite (running_len _ (iv_ok _ _ Hi)) in Hv.
Qed.

(** A queue pair that has not read a credit is not stale. *)
Lemma fresh_pc new r ps ps' fl a i p :
  aset ps i p = Some ps' -> (forall sl c, p <> PDecided sl c) -> ~ stale new (CState r ps' fl a) i.
Proof.
  intros Hps Hp (sl & c & H & _). cbn in H. rewrite (aget_aset_eq _ _ _ _ Hps) in H. inv H. by eapply Hp.
Qed.

Lemma inv_mark new i slot r r' ps ps' fl a :
  inv new (CState r ps fl a) -> registered r i -> mark_running r i = Some r' ->
  aset ps i (PMarked slot) = Some ps' -> inv new (CState r' ps' fl a).
Proof.
  intros Hi Hreg Hm Hps. pose proof (iv_ok _ _ Hi) as Hok. cbn [reg_] in Hok.
  assert (Hr : 0 <= i < MAX_RECORDER_NUM).
  { destruct Hreg as (q & Hq & _). unfold qpn_at in Hq. apply fmap_Some in Hq as (rec & Hq & _).
    apply aget_Some_lt in Hq. by rewrite (records_len _ Hok) in Hq. }
  destruct (mark_running_spec r i Hok Hr) as (c & v & Ec & Ev & Em & Hok'). rewrite Em in Hm. inv Hm.
  eapply inv_local; try done.
  - intros j Hj. cbn. eapply aget_aset_ne; [done|congruence].
  - intros _. split; [done|]. exists (cas c 0 1). cbn. rewrite (aget_aset_eq _ _ _ _ Ev). split; [done|].
    unfold cas. by destruct (Z.eqb_spec c 0).
  - intros Hs. exfalso. by eapply fresh_pc in Hs.
Qed.

Lemma inv_epoch new i slot r r' ps ps' fl a :
  inv new (CState r ps fl a) -> ps.[i] = Some (PMarked slot) -> bump_epoch r i = Some r' ->
  aset ps i (PCounted slot) = Some ps' -> inv new (CState r' ps' fl a).
Proof.
  intros Hi Hp Hm Hps. pose proof (iv_ok _ _ Hi) as Hok. cbn [reg_] in Hok.
  pose proof (pc_range _ _ _ _ _ _ _ Hi Hp eq_refl) as Hr.
  destruct (bump_epoch_spec r i Hok Hr) as (c & v & Ec & Ev & Em & Hok'). rewrite Em in Hm. inv Hm.
  eapply inv_local; try done.
  - intros j Hj. cbn. eapply aget_aset_ne; [done|congruence].
  - intros _. exact (iv_busy _ _ Hi _ _ Hp eq_refl).
  - intros Hs. exfalso. by eapply fresh_pc in Hs.
Qed.

Lemma inv_read new i slot c r ps ps' fl a :
  inv new (CState r ps fl a) -> ps.[i] = Some (PCounted slot) -> (credit r).[slot] = Some c ->
  aset ps i (PDecided slot c) = Some ps' -> inv new (CState r ps' fl a).
Proof.
  intros Hi Hp Hc Hps. pose proof (iv_ok _ _ Hi) as Hok. cbn [reg_] in Hok. eapply inv_local; try done.
  - intros _. exact (iv_busy _ _ Hi _ _ Hp eq_refl).
  - intros (sl & c' & Hp' & Hn). cbn in Hp'. rewrite (aget_aset_eq _ _ _ _ Hps) in Hp'. inv Hp'.
    pose proof (iv_copied _ _ Hi) as C. unfold copied, covered in *. cbn [ag reg_] in *.
    assert (0 <= sl < NR_SLOTS) by (apply aget_Some_lt in Hc; by rewrite (credit_len _ Hok) in Hc).
    destruct a; try done; rewrite <- C in Hn by done; done.
Qed.

Lemma inv_device new i slot r r' ps ps' fl fl' a :
  inv new (CState r ps fl a) -> ps.[i] = Some (PDecided slot 0) -> count_nic r i slot = Some r' ->
  aset ps i PIdle = Some ps' -> inv new (CState r' ps' fl' a).
Proof.
  intros Hi Hp Hm Hps. pose proof (iv_ok _ _ Hi) as Hok. cbn [reg_] in Hok.
  pose proof (pc_range _ _ _ _ _ _ _ Hi Hp eq_refl) as Hr.
  assert (Hsl : 0 <= slot < NR_SLOTS).
  { destruct (record_at r i Hok Hr) as (rec & Er & Hrec & _). unfold count_nic in Hm. rewrite Er in Hm.
    cbn [mbind option_bind] in Hm. apply bind_Some in Hm as (cs & Hcs & _). unfold amod in Hcs.
    apply bind_Some in Hcs as (x & Hx & _). apply aget_Some_lt in Hx. by rewrite Hrec in Hx. }
  destruct (count_nic_spec r i slot Hok Hr Hsl) as (recs & Em & Hok' & _ & _ & Hq). rewrite Em in Hm. inv Hm.
  eapply inv_local; try done. intros Hs. exfalso. by eapply fresh_pc in Hs.
Qed.

Lemma inv_rpc new i slot c r r' ps ps' fl fl' a :
  inv new (CState r ps fl a) -> ps.[i] = Some (PDecided slot c) -> clear_running r i = Some r' ->
  aset ps i PIdle = Some ps' -> inv new (CState r' ps' fl' a).
Proof.
  intros Hi Hp Hm Hps. pose proof (iv_ok _ _ Hi) as Hok. cbn [reg_] in Hok.
  pose proof (pc_range _ _ _ _ _ _ _ Hi Hp eq_refl) as Hr.
  destruct (clear_running_spec r i Hok Hr) as (c' & v & Ec & Ev & Em & Hok'). rewrite Em in Hm. inv Hm.
  eapply inv_local; try done.
  - intros j Hj. cbn. eapply aget_aset_ne; [done|congruence].
  - intros Hs. exfalso. by eapply fresh_pc in Hs.
Qed.

(** A step of the agent that leaves the region and the queue pairs alone. *)
Lemma inv_agent new r ps fl a a' :
  inv new (CState r ps fl a) -> copied new (CState r ps fl a') ->
  (forall i, stale new (CState r ps fl a) i -> covered (CState r ps fl a) i -> covered (CState r ps fl a') i) ->
  inv new (CState r ps fl a').
Proof.
  intros Hi Hc Hcov. constructor; try apply Hi; try done. intros i Hs. apply Hcov; [done|]. by apply (iv_covered _ _ Hi).
Qed.

Lemma queued_tail i ep q s j : queued ((i, ep) :: q) s j -> (j = i -> (epoch (reg_ s)).[i] <> Some ep) -> queued q s j.
Proof.
  intros (e & Hin & He) Hne. exists e. split; [|done]. apply elem_of_cons in Hin as [[= -> ->]|Hin]; [|done].
  by destruct (Hne eq_refl).
Qed.

Lemma inv_snap new i q r ps fl e qn :
  inv new (CState r ps fl (ASnap i q)) -> qpn_at (records r) i = Some qn -> (epoch r).[i] = Some e ->
  inv new (CState r ps fl (ASnap (i + 1) (if qn =? 0 then q else q ++ [(i, e)]))).
Proof.
  intros Hi Hq He. apply (inv_agent _ _ _ _ _ _ Hi); [exact (iv_copied _ _ Hi)|].
  intros j Hs Hc. unfold covered in *. cbn [ag] in *. intros Hj. destruct (Z.eq_dec j i) as [->|Hne].
  - destruct Hs as (sl & c & Hp & _). destruct (iv_busy _ _ Hi _ _ Hp eq_refl) as [(q' & Hq' & Hn) _].
    cbn in Hq'. rewrite Hq in Hq'. inv Hq'. rewrite (proj2 (Z.eqb_neq _ _) Hn). exists e. split; [set_solver|done].
  - destruct (Hc ltac:(lia)) as (ep & Hin & Hep). exists ep. split; [|done]. destruct (qn =? 0); set_solver.
Qed.

Lemma inv_register new i q rec r recs ps fl a :
  inv new (CState r ps fl a) -> (records r).[i] = Some rec -> q <> 0 ->
  aset (records r) i (Recorder q (counters rec) (c_counters rec)) = Some recs ->
  inv new (CState (with_records r recs) ps fl a).
Proof.
  intros Hi Hrec Hq Hs. pose proof (iv_ok _ _ Hi) as Hok. cbn [reg_] in Hok.
  assert (recorder_ok rec) as Hro by (eapply aget_Forall; [apply Hok|exact Hrec]).
  constructor; cbn [reg_ pcs]; try apply Hi.
  - eapply with_record_ok; [done|done|]. exact Hro.
  - intros j p Hp Hb. destruct (iv_busy _ _ Hi j p Hp Hb) as [(q' & Hq' & Hn) Hv]. split; [|exact Hv].
    unfold registered, qpn_at in *. cbn in *. rewrite (aget_aset _ _ _ j _ Hs). destruct (i =? j); [by exists q|by exists q'].
Qed.

Lemma inv_copy new k r ps fl :
  inv new (CState r ps fl (ACopy k)) -> 0 <= k < NR_WORDS ->
  inv new (CState (with_credit r (copy_word new (credit r) k)) ps fl (ACopy (k + 1))).
Proof.
  intros Hi Hk. pose proof (iv_ok _ _ Hi) as Hok. cbn [reg_] in Hok. constructor; cbn [reg_ pcs]; try apply Hi; try done.
  - pose proof (copy_word_length new (credit r) k (iv_new _ _ Hi) (credit_len _ Hok) Hk). destruct Hok. by constructor.
  - unfold copied. cbn [ag reg_ credit with_credit]. intros x Hx.
    rewrite (copy_word_get new (credit r) k x (iv_new _ _ Hi) (credit_len _ Hok) Hk) by lia.
    destruct (Z.leb_spec (4 * k) x), (Z.ltb_spec x (4 * k + 4)); cbn [andb]; try done; try lia.
    apply (iv_copied _ _ Hi). lia.
Qed.

Lemma inv_step new who s s' : cstep new who s s' -> inv new s -> inv new s'.
Proof.
  intros Hst Hi. destruct Hst as
    [ i slot r r' ps ps' fl a _ Hreg _ Hm Hps | i slot r r' ps ps' fl a Hp Hm Hps | i slot c r ps ps' fl a Hp Hc Hps
    | i slot r r' ps ps' fl a Hp Hm Hps | i slot c r r' ps ps' fl a Hp _ Hm Hps | r ps fl1 x fl2 a
    | i q rec r recs ps fl a Hrec Hz Hq Hs | k r ps fl Hk | r ps fl | i q r ps fl e qn Hr Hq He | q r ps fl
    | i ep e q r ps fl He | i ep v q r ps fl Hv | r ps fl ].
  - by eapply inv_mark.
  - by eapply inv_epoch.
  - by eapply inv_read.
  - by eapply inv_device.
  - by eapply inv_rpc.
  - destruct Hi. by constructor.
  - by eapply inv_register.
  - by apply inv_copy.
  - apply (inv_agent _ _ _ _ _ _ Hi).
    + pose proof (iv_copied _ _ Hi) as C. exact C.
    + intros i Hs _. pose proof (stale_range _ _ _ Hi Hs). cbn. lia.
  - by apply inv_snap.
  - apply (inv_agent _ _ _ _ _ _ Hi); [exact (iv_copied _ _ Hi)|].
    intros i Hs Hc. apply Hc. by apply (stale_range _ _ _ Hi Hs).
  - apply (inv_agent _ _ _ _ _ _ Hi); [destruct (negb _); exact (iv_copied _ _ Hi)|].
    intros j Hs Hc. unfold covered in *. cbn [ag] in *. destruct (Z.eqb_spec ep e) as [->|Hne]; cbn [negb]; [done|].
    eapply queued_tail; [done|]. intros ->. cbn. rewrite He. congruence.
  - apply (inv_agent _ _ _ _ _ _ Hi); [destruct (_ =? _); exact (iv_copied _ _ Hi)|].
    intros j Hs Hc. unfold covered in *. cbn [ag] in *. destruct (Z.eqb_spec v 0) as [->|Hne]; [|done].
    eapply queued_tail; [done|]. intros ->. destruct Hs as (sl & c & Hp & _).
    destruct (iv_busy _ _ Hi _ _ Hp eq_refl) as [_ (v & Hv' & Hn)]. cbn in Hv'. rewrite Hv in Hv'. by inv Hv'.
  - apply (inv_agent _ _ _ _ _ _ Hi); [exact (iv_copied _ _ Hi)|].
    intros j Hs (ep & Hin & _). by apply elem_of_nil in Hin.
Qed.

Lemma start_inv new s : start new s -> inv new s.
Proof.
  intros [Hok Hn Hl Hb Ha]. constructor; try done.
  - unfold copied. rewrite Ha. lia.
  - intros i _. unfold covered. by rewrite Ha.
Qed.

Lemma reach_inv new s s' : rtc (step_any new) s s' -> inv new s -> inv new s'.
Proof. induction 1 as [|s s1 s2 [who Hst] _ IH]; [done|]. intros Hi. by eapply IH, inv_step. Qed.

(** ** The agent alone *)

Definition agent_runs (new : list Z) : cstate -> cstate -> Prop := rtc (cstep new Agent).

Lemma agent_copies new r ps fl n : forall cr k,
  alen cr = NR_SLOTS -> alen new = NR_SLOTS -> 0 <= k -> k + Z.of_nat n = NR_WORDS ->
  exists cr', agent_runs new (CState (with_credit r cr) ps fl (ACopy k)) (CState (with_credit r cr') ps fl (ACopy NR_WORDS)) /\
    alen cr' = NR_SLOTS.
Proof.
  induction n as [|n IH]; intros cr k Hcr Hnew Hk Hn.
  - exists cr. replace k with NR_WORDS by lia. by split; [apply rtc_refl|].
  - destruct (IH (copy_word new cr k) (k + 1)) as (cr' & Hr & Hl); try done; try lia.
    { by apply copy_word_length; [| |lia]. }
    exists cr'. split; [|done]. eapply rtc_l; [|exact Hr]. apply (c_copy new k (with_credit r cr)). lia.
Qed.

Lemma agent_snaps new r ps fl n : forall i q,
  region_ok r -> 0 <= i -> i + Z.of_nat n = MAX_RECORDER_NUM -> Forall (fun x => 0 <= fst x < MAX_RECORDER_NUM) q ->
  exists q', agent_runs new (CState r ps fl (ASnap i q)) (CState r ps fl (AWaitEpoch q')) /\
    Forall (fun x => 0 <= fst x < MAX_RECORDER_NUM) q'.
Proof.
  induction n as [|n IH]; intros i q Hok Hi Hn Hq.
  - exists q. replace i with MAX_RECORDER_NUM by lia. split; [|done]. apply rtc_once, c_snapped.
  - destruct (record_at r i Hok ltac:(lia)) as (rec & Er & _).
    destruct (aget_is_Some (epoch r) i) as [e Ee]; [rewrite (epoch_len _ Hok); lia|].
    destruct (IH (i + 1) (if qpn rec =? 0 then q else q ++ [(i, e)])) as (q' & Hr & Hf); try done; try lia.
    { destruct (_ =? _); [done|]. apply Forall_app. split; [done|]. repeat constructor; cbn; lia. }
    exists q'. split; [|done]. eapply rtc_l; [|exact Hr]. apply c_snap; [lia| |done]. unfold qpn_at. by rewrite Er.
Qed.

Lemma agent_waits new r ps fl q :
  region_ok r -> Forall (fun x => 0 <= fst x < MAX_RECORDER_NUM) q ->
  (forall i, 0 <= i < MAX_RECORDER_NUM -> (running r).[i] = Some 0) ->
  agent_runs new (CState r ps fl (AWaitEpoch q)) (CState r ps fl ADone).
Proof.
  intros Hok Hq Hz. induction Hq as [|[i ep] q Hi Hq IH]; [apply rtc_once, c_done|]. cbn in Hi.
  destruct (aget_is_Some (epoch r) i) as [e Ee]; [rewrite (epoch_len _ Hok); lia|].
  eapply rtc_l; [by apply (c_wait_epoch new i ep e)|]. destruct (negb (ep =? e)); [done|].
  eapply rtc_l; [by apply (c_wait_flag new i ep 0); apply Hz|]. done.
Qed.

(** With every flag clear the agent finishes on its own. *)
Lemma agent_finishes new r ps fl :
  region_ok r -> alen new = NR_SLOTS -> (forall i, 0 <= i < MAX_RECORDER_NUM -> (running r).[i] = Some 0) ->
  exists cr, agent_runs new (CState r ps fl (ACopy 0)) (CState (with_credit r cr) ps fl ADone).
Proof.
  intros Hok Hn Hz.
  destruct (agent_copies new r ps fl (Z.to_nat NR_WORDS) (credit r) 0) as (cr & Hr & Hl); try done; [apply Hok|].
  assert (Hok' : region_ok (with_credit r cr)) by (by destruct Hok; constructor).
  destruct (agent_snaps new (with_credit r cr) ps fl (Z.to_nat MAX_RECORDER_NUM) 0 []) as (q & Hs & Hq); try done.
  exists cr. replace (with_credit r (credit r)) with r in Hr by (by destruct r).
  etransitivity; [exact Hr|]. eapply rtc_l; [apply c_copied|]. etransitivity; [exact Hs|]. by apply agent_waits.
Qed.

Lemma agent_any new s s' : agent_runs new s s' -> rtc (step_any new) s s'.
Proof. induction 1; [apply rtc_refl|]. eapply rtc_l; [|done]. by exists Agent. Qed.

(** ** The agent among the queue pairs *)

(** The agent reads a flag that does not let it pass. *)
Definition vain_read (s : cstate) : bool :=
  match ag s with
  | AWaitFlag ((i, _) :: _) => match (running (reg_ s)).[i] with Some 0 => false | _ => true end
  | _ => false
  end.

(** [runs new n v s s']: a run from [s] to [s'], in any interleaving, in which
    the agent takes [n] steps, [v] of them vain. *)
Inductive runs (new : list Z) : Z -> Z -> cstate -> cstate -> Prop :=
| run_refl s : runs new 0 0 s s
| run_other who n v s1 s2 s3 : who <> Agent -> cstep new who s1 s2 -> runs new n v s2 s3 -> runs new n v s1 s3
| run_agent n v s1 s2 s3 : cstep new Agent s1 s2 -> runs new n v s2 s3 -> runs new (n + 1) (v + if vain_read s1 then 1 else 0) s1 s3.

(** The steps the agent has left if none is vain: a word, a snapshot entry and
    two reads per queue pair, and the three changes of phase. *)
Definition agent_left (a : agent_pc) : Z :=
  match a with
  | ACopy k => NR_WORDS - k + 1 + MAX_RECORDER_NUM + 1 + 2 * MAX_RECORDER_NUM + 1
  | ASnap i q => MAX_RECORDER_NUM - i + 1 + 2 * (alen q + (MAX_RECORDER_NUM - i)) + 1
  | AWaitEpoch q => 2 * alen q + 1
  | AWaitFlag q => 2 * alen q
  | ADone => 0
  end.

(** The steps of a change of strategy without vain reads. *)
Definition AGENT_STEPS : Z := agent_left (ACopy 0).

(** Where the agent can be. *)
Definition agent_ok (a : agent_pc) : Prop :=
  let in_range q := Forall (fun x : Z * Z => 0 <= fst x < MAX_RECORDER_NUM) q in
  match a with
  | ACopy k => 0 <= k <= NR_WORDS
  | ASnap i q => 0 <= i <= MAX_RECORDER_NUM /\ in_range q
  | AWaitEpoch q => in_range q
  | AWaitFlag q => in_range q /\ q <> []
  | ADone => True
  end.

(** Only the agent moves the agent. *)
Lemma other_step new who s s' : cstep new who s s' -> who <> Agent -> ag s' = ag s.
Proof. by destruct 1. Qed.

(** Every step of the agent that is not vain brings it nearer to the end. *)
Lemma agent_step new s s' : cstep new Agent s s' -> agent_ok (ag s) ->
  agent_ok (ag s') /\ agent_left (ag s') + 1 <= agent_left (ag s) + (if vain_read s then 2 else 0).
Proof.
  intros Hst. remember Agent as who eqn:Ew. destruct Hst; try discriminate Ew; cbn [ag]; unfold vain_read; cbn [ag reg_ agent_ok agent_left].
  - split; lia.
  - intros _. split; [split; [unfold MAX_RECORDER_NUM; lia|constructor]|]. change (alen []) with 0. lia.
  - intros [Hi Hq]. destruct (qn =? 0); (split; [split; [lia|]|]); try done; try lia.
    + apply Forall_app. split; [done|]. repeat constructor; cbn; lia.
    + unfold alen. rewrite length_app. cbn [length]. lia.
  - intros [_ Hq]. split; [done|]. lia.
  - intros [Hi Hq]%Forall_cons. unfold alen. destruct (negb _); cbn [agent_ok agent_left length]; [split; [done|unfold alen; lia]|].
    split; [|unfold alen; cbn [length]; lia]. split; [by constructor|done].
  - intros [[Hi Hq]%Forall_cons _]. rewrite H. destruct (Z.eqb_spec v 0) as [->|Hv]; cbn [agent_ok agent_left]; unfold alen; cbn [length]; [split; [done|lia]|].
    split; [by constructor|]. destruct v; [done|lia|lia].
  - intros _. split; [done|]. change (alen []) with 0. lia.
Qed.

Lemma runs_left new n v s s' : runs new n v s s' -> agent_ok (ag s) ->
  agent_ok (ag s') /\ n + agent_left (ag s') <= agent_left (ag s) + 2 * v.
Proof.
  induction 1 as [s|who n v s1 s2 s3 Hw Hst _ IH|n v s1 s2 s3 Hst _ IH]; intros Hok; [split; [done|lia]| |].
  - rewrite <- (other_step _ _ _ _ Hst Hw) in *. by apply IH.
  - destruct (agent_step _ _ _ Hst Hok) as [Hok2 Hl]. destruct (IH Hok2) as [Hok3 Hl3]. split; [done|]. destruct (vain_read s1); lia.
Qed.

Lemma agent_left_done a : agent_ok a -> agent_left a <= 0 -> a = ADone.
Proof.
  destruct a as [k|i q|q|q|]; cbn [agent_ok agent_left]; try done.
  - intros Hk. unfold MAX_RECORDER_NUM. lia.
  - intros [Hi _]. pose proof (alen_nonneg q). lia.
  - intros _. pose proof (alen_nonneg q). lia.
  - intros [_ Hq]. destruct q; [done|]. unfold alen. cbn [length]. lia.
Qed.

(** The agent can always take its next step. *)
Lemma agent_can_step new s : inv new s -> agent_ok (ag s) -> ag s <> ADone -> exists s', cstep new Agent s s'.
Proof.
  intros Hi. pose proof (iv_ok _ _ Hi) as Hok. destruct s as [r ps fl a]. cbn [ag reg_] in *.
  destruct a as [k|i q|[|[i ep] q]|[|[i ep] q]|]; cbn [agent_ok]; try done.
  - intros Hk _. destruct (Z.eq_dec k NR_WORDS) as [->|]; eexists; [apply c_copied|apply c_copy; lia].
  - intros [Hr _] _. destruct (Z.eq_dec i MAX_RECORDER_NUM) as [->|]; [eexists; apply c_snapped|].
    destruct (record_at r i Hok ltac:(lia)) as (rec & Er & _).
    destruct (aget_is_Some (epoch r) i) as [e Ee]; [rewrite (epoch_len _ Hok); lia|].
    eexists. apply c_snap; [lia| |exact Ee]. unfold qpn_at. by rewrite Er.
  - intros _ _. eexists. apply c_done.
  - intros [Hr _]%Forall_cons _. cbn in Hr. destruct (aget_is_Some (epoch r) i) as [e Ee]; [rewrite (epoch_len _ Hok); lia|].
    eexists. by apply c_wait_epoch.
  - intros [_ ?] _. done.
  - intros [[Hr _]%Forall_cons _] _. cbn in Hr. destruct (aget_is_Some (running r) i) as [v Ev]; [rewrite (running_len _ Hok); lia|].
    eexists. by apply c_wait_flag.
Qed.

Lemma runs_inv new n v s s' : runs new n v s s' -> inv new s -> inv new s'.
Proof. induction 1; intros Hi; [done|..]; apply IHruns; by eapply inv_step. Qed.

Lemma agent_runs_count new s s' : agent_runs new s s' -> exists n v, runs new n v s s'.
Proof. induction 1 as [s|s1 s2 s3 Hst _ (n & v & IH)]; [exists 0, 0; constructor|]. eexists _, _. by eapply run_agent. Qed.

(** The agent is at queue pair [i], whose epoch and flag do not let it pass. *)
Definition stuck_at (i ep : Z) (q : list (Z * Z)) (s : cstate) : Prop :=
  (ag s = AWaitEpoch ((i, ep) :: q) \/ ag s = AWaitFlag ((i, ep) :: q)) /\
  (epoch (reg_ s)).[i] = Some ep /\ (running (reg_ s)).[i] = Some 1.

Lemma amod_other {A} (l l' : list A) j f i : amod l j f = Some l' -> i <> j -> l'.[i] = l.[i].
Proof. intros H Hne. rewrite (amod_lookup _ _ _ _ i H). by destruct (Z.eqb_spec j i). Qed.

Lemma stuck_step new i ep q who s s' :
  cstep new who s s' -> who <> Qp_ i -> stuck_at i ep q s -> stuck_at i ep q s'.
Proof.
  intros Hst Hw (Ha & He & Hr). destruct Hst as
    [ j slot r r' ps ps' fl a _ _ _ Hm _ | j slot r r' ps ps' fl a _ Hm _ | j slot c r ps ps' fl a _ _ _
    | j slot r r' ps ps' fl a _ Hm _ | j slot c r r' ps ps' fl a _ _ Hm _ | r ps fl1 x fl2 a
    | j n rec r recs ps fl a _ _ _ _ | k r ps fl _ | r ps fl | j q' r ps fl e qn _ _ _ | q' r ps fl
    | j ep' e q' r ps fl He' | j ep' v q' r ps fl Hv | r ps fl ]; unfold stuck_at; cbn [ag reg_] in *;
    try (destruct Ha; done); try (split_and!; done).
  - unfold mark_running in Hm. apply bind_Some in Hm as (v & Hv & [= <-]).
    split_and!; try done. cbn. rewrite (amod_other _ _ _ _ i Hv); [done|congruence].
  - unfold bump_epoch in Hm. apply bind_Some in Hm as (v & Hv & [= <-]).
    split_and!; try done. cbn. rewrite (amod_other _ _ _ _ i Hv); [done|congruence].
  - unfold count_nic in Hm. apply bind_Some in Hm as (rec & _ & Hm). apply bind_Some in Hm as (cs & _ & Hm).
    apply bind_Some in Hm as (recs & _ & [= <-]). by split_and!.
  - unfold clear_running in Hm. apply bind_Some in Hm as (v & Hv & [= <-]).
    split_and!; try done. cbn. rewrite (amod_other _ _ _ _ i Hv); [done|congruence].
  - destruct Ha as [[= -> -> ->]|Ha]; [|done]. rewrite He in He'. inv He'. rewrite Z.eqb_refl. cbn. auto.
  - destruct Ha as [Ha|[= -> -> ->]]; [done|]. rewrite Hr in Hv. inv Hv. auto.
Qed.

(** ** Consensus *)

(** C3: when [wait_sync] has returned, no queue pair is still acting on the
    old strategy: in every interleaving of the agent with the queue pairs, from
    queue pairs anywhere in their calls, a queue pair that has read a credit
    and has not posted yet has read the new credit of its slot. *)
Theorem consensus_safe new s s' i slot c :
  start new s -> rtc (step_any new) s s' -> ag s' = ADone ->
  (pcs s').[i] = Some (PDecided slot c) -> new.[slot] = Some c.
Proof.
  intros Hs Hr Ha Hp. pose proof (reach_inv _ _ _ Hr (start_inv _ _ Hs)) as Hi.
  destruct (decide (new.[slot] = Some c)) as [|Hn]; [done|exfalso].
  pose proof (iv_covered _ _ Hi i ltac:(by exists slot, c)) as Hc. unfold covered in Hc. by rewrite Ha in Hc.
Qed.

(** C40: the change of strategy comes to an end among queue pairs that keep
    posting.  In every interleaving, from queue pairs anywhere in their calls,
    the agent is never stuck: until it is done it has a next step.  It takes at
    most [AGENT_STEPS] steps and two for each time it finds the flag of a queue
    pair set whose epoch has not moved; with that many it is done, and the region
    then holds the new strategy, every credit of it.  (A queue pair that goes
    idle after an operation on the device leaves its flag set: see
    [consensus_stuck].) *)
Theorem consensus_terminates new s n v s' :
  start new s -> runs new n v s s' ->
  n <= AGENT_STEPS + 2 * v /\
  (ag s' <> ADone -> exists s'', cstep new Agent s' s'') /\
  (AGENT_STEPS + 2 * v <= n -> ag s' = ADone) /\
  (ag s' = ADone -> credit (reg_ s') = new).
Proof.
  intros Hs Hr. pose proof (runs_inv _ _ _ _ _ Hr (start_inv _ _ Hs)) as Hi. destruct (runs_left _ _ _ _ _ Hr) as [Hok Hl].
  { rewrite (st_ag _ _ Hs). by vm_compute. }
  rewrite (st_ag _ _ Hs) in Hl. fold AGENT_STEPS in Hl. assert (0 <= agent_left (ag s')) as Hp.
  { destruct (Z.le_gt_cases 0 (agent_left (ag s'))) as [|Hn]; [done|]. by rewrite (agent_left_done _ Hok ltac:(lia)). }
  split; [lia|]. split; [by apply agent_can_step|]. split; [intros ?; apply agent_left_done; [done|lia]|].
  intros Hd. pose proof (iv_copied _ _ Hi) as Hc. unfold copied in Hc. rewrite Hd in Hc.
  apply alist_eq; [by rewrite (credit_len _ (iv_ok _ _ Hi)), (st_new _ _ Hs)|]. intros x Hx. apply Hc. by rewrite <- (credit_len _ (iv_ok _ _ Hi)).
Qed.

(** The device path leaves the running flag set, so that the agent waits
    for a queue pair that has nothing left to do: while a queue pair at the head
    of the agent's queue stays idle with its flag set and its epoch unchanged,
    no run of the agent and of every other queue pair lets the agent finish. *)
Theorem consensus_stuck new i ep q s s' :
  (ag s = AWaitEpoch ((i, ep) :: q) \/ ag s = AWaitFlag ((i, ep) :: q)) ->
  (epoch (reg_ s)).[i] = Some ep -> (running (reg_ s)).[i] = Some 1 ->
  rtc (fun a b => exists who, who <> Qp_ i /\ cstep new who a b) s s' ->
  ag s' <> ADone.
Proof.
  intros Ha He Hr Hrun. assert (stuck_at i ep q s') as [[E|E] _]; [|by rewrite E|by rewrite E].
  assert (stuck_at i ep q s) as Hs by done. clear Ha He Hr.
  induction Hrun as [|s s1 s2 (who & Hw & Hst) _ IH]; [done|]. by eapply IH, stuck_step.
Qed.

(** Consensus does not cover requests in flight: an RPC clears the running
    flag when it is posted, not when it is answered, so that the agent can
    finish the change of strategy while a request sent under the old strategy
    is still unanswered.  From any state with idle queue pairs and clear flags,
    a registered queue pair and a slot whose credit changes, such a run exists. *)
Theorem consensus_misses_rpc_in_flight new r ps i slot c :
  region_ok r -> alen new = NR_SLOTS -> (forall j, 0 <= j < MAX_RECORDER_NUM -> (running r).[j] = Some 0) ->
  alen ps = MAX_RECORDER_NUM -> ps.[i] = Some PIdle -> registered r i -> 0 <= i < MAX_RECORDER_NUM ->
  (credit r).[slot] = Some c -> c <> 0 -> new.[slot] <> Some c ->
  exists r' ps', rtc (step_any new) (CState r ps [] (ACopy 0)) (CState r' ps' [(i, slot, c)] ADone).
Proof.
  intros Hok Hnew Hz Hps Hpi Hreg Hi Hc Hc0 Hn.
  destruct (mark_running_spec r i Hok Hi) as (c1 & v1 & Ec1 & Ev1 & Em & Hok1).
  destruct (bump_epoch_spec _ i Hok1 Hi) as (c2 & v2 & Ec2 & Ev2 & Eb & Hok2).
  destruct (clear_running_spec _ i Hok2 Hi) as (c3 & v3 & Ec3 & Ev3 & Ecl & Hok3).
  assert (Hset : forall (l : list qp_pc) p, alen l = MAX_RECORDER_NUM -> exists l', aset l i p = Some l' /\ alen l' = MAX_RECORDER_NUM /\ l'.[i] = Some p).
  { intros l p Hl. eexists. split; [apply aset_Some; lia|].
    pose proof (aset_Some l i p ltac:(lia)) as E. split; [by rewrite (aset_alen _ _ _ _ E)|by eapply aget_aset_eq]. }
  destruct (Hset ps (PMarked slot) Hps) as (ps1 & E1 & L1 & G1). destruct (Hset ps1 (PCounted slot) L1) as (ps2 & E2 & L2 & G2).
  destruct (Hset ps2 (PDecided slot c) L2) as (ps3 & E3 & L3 & G3). destruct (Hset ps3 PIdle L3) as (ps4 & E4 & _ & _).
  assert (Hsl : 0 <= slot < NR_SLOTS) by (apply aget_Some_lt in Hc; by rewrite (credit_len _ Hok) in Hc).
  edestruct (agent_finishes new _ ps4 [(i, slot, c)] Hok3 Hnew) as [r' Hrun].
  { intros j Hj. cbn. rewrite (aget_aset _ _ _ j _ Ev3). destruct (Z.eqb_spec i j) as [<-|Hne].
    - cbn in Ec3. rewrite (aget_aset_eq _ _ _ _ Ev1) in Ec3. rewrite Hz in Ec1 by done.
      injection Ec1 as <-. injection Ec3 as <-. done.
    - cbn. rewrite (aget_aset_ne _ _ _ _ _ Ev1) by done. by apply Hz. }
  eexists _, ps4.
  eapply rtc_l; [exists (Qp_ i); exact (c_mark new i slot r _ ps ps1 [] (ACopy 0) Hpi Hreg Hsl Em E1)|].
  eapply rtc_l; [exists (Qp_ i); exact (c_epoch new i slot _ _ ps1 ps2 [] (ACopy 0) G1 Eb E2)|].
  eapply rtc_l; [exists (Qp_ i); exact (c_read new i slot c (with_epoch (with_running r v1) v2) ps2 ps3 [] (ACopy 0) G2 Hc E3)|].
  eapply rtc_l; [exists (Qp_ i); exact (c_rpc new i slot c _ _ ps3 ps4 [] (ACopy 0) G3 Hc0 Ecl E4)|].
  exact (agent_any _ _ _ Hrun).
Qed.

(** ** Witnesses *)

Definition sample_new : list Z := replicate (Z.to_nat NR_SLOTS) 0.
Definition sample_pcs : list qp_pc := replicate 32 PIdle.
Definition sample_start : cstate := CState (sample_shm 1) sample_pcs [] (ACopy 0).

Lemma sample_new_len : alen sample_new = NR_SLOTS.
Proof. unfold sample_new. by rewrite alen_replicate, Z2Nat.id. Qed.

Lemma sample_starts : start sample_new sample_start.
Proof.
  constructor; [apply sample_region_ok|apply sample_new_len|done| |done].
  - intros i p Hp Hb. change (sample_pcs.[i] = Some p) in Hp. apply aget_replicate_inv in Hp. by rewrite Hp in Hb.
Qed.

Lemma sample_flags i : 0 <= i < MAX_RECORDER_NUM -> (running (sample_shm 1)).[i] = Some 0.
Proof. intros Hi. cbn [running sample_shm sample_client]. by apply aget_replicate. Qed.

Lemma sample_reg : registered (sample_shm 1) 7.
Proof. exists 7. split; [vm_compute; reflexivity|done]. Qed.

(** A queue pair that decides once the agent has finished. *)
Lemma decides_late new r :
  region_ok r -> registered r 7 -> (credit r).[5120] = Some 0 ->
  exists s', rtc (step_any new) (CState r sample_pcs [] ADone) s' /\ ag s' = ADone /\ (pcs s').[7] = Some (PDecided 5120 0).
Proof.
  intros Hok Hreg Hc. assert (H7 : 0 <= 7 < MAX_RECORDER_NUM) by (split; [discriminate|reflexivity]).
  assert (H5 : 0 <= 5120 < NR_SLOTS) by (split; [discriminate|reflexivity]).
  destruct (mark_running_spec r 7 Hok H7) as (c1 & v1 & Ec1 & Ev1 & Em & Hok1).
  destruct (bump_epoch_spec (with_running r v1) 7 Hok1 H7) as (c2 & v2 & Ec2 & Ev2 & Eb & Hok2).
  set (ps1 := <[7%nat := PMarked 5120]> sample_pcs). set (ps2 := <[7%nat := PCounted 5120]> ps1).
  eexists. split; [|split].
  - eapply rtc_l; [exists (Qp_ 7); exact (c_mark new 7 5120 r _ sample_pcs ps1 [] ADone eq_refl Hreg H5 Em eq_refl)|].
    eapply rtc_l; [exists (Qp_ 7); exact (c_epoch new 7 5120 _ _ ps1 ps2 [] ADone eq_refl Eb eq_refl)|].
    eapply rtc_once. exists (Qp_ 7).
    exact (c_read new 7 5120 0 (with_epoch (with_running r v1) v2) ps2
      (<[7%nat := PDecided 5120 0]> ps2) [] ADone eq_refl Hc eq_refl).
  - reflexivity.
  - reflexivity.
Qed.

Lemma sample_late :
  exists s', rtc (step_any sample_new) sample_start s' /\ ag s' = ADone /\ (pcs s').[7] = Some (PDecided 5120 0).
Proof.
  destruct (agent_finishes sample_new (sample_shm 1) sample_pcs [] (sample_region_ok 1) sample_new_len sample_flags) as [cr Hr].
  apply agent_any in Hr. pose proof (reach_inv _ _ _ Hr (start_inv _ _ sample_starts)) as Hi.
  assert (H5 : 0 <= 5120 < NR_SLOTS) by (split; [discriminate|reflexivity]).
  assert (Hc : sample_new.[5120] = Some 0) by (apply aget_replicate; rewrite Z2Nat.id; [exact H5|discriminate]).
  destruct (decides_late sample_new (with_credit (sample_shm 1) cr)) as (s' & Hs & Ha).
  - exact (iv_ok _ _ Hi).
  - exact sample_reg.
  - rewrite <- Hc. exact (iv_copied _ _ Hi 5120 H5).
  - exists s'. split; [|exact Ha]. etransitivity; [exact Hr|exact Hs].
Qed.

Lemma consensus_safe_witness :
  exists s', rtc (step_any sample_new) sample_start s' /\ ag s' = ADone /\ sample_new.[5120] = Some 0.
Proof.
  destruct sample_late as (s' & Hr & Ha & Hp). exists s'. split; [exact Hr|]. split; [exact Ha|].
  exact (consensus_safe sample_new sample_start s' 7 5120 0 sample_starts Hr Ha Hp).
Defined.

(** The run of the agent alone, from the start to the end. *)
Lemma consensus_terminates_witness :
  exists n v s', runs sample_new n v sample_start s' /\ ag s' = ADone /\ credit (reg_ s') = sample_new /\ n <= AGENT_STEPS + 2 * v.
Proof.
  destruct (agent_finishes sample_new (sample_shm 1) sample_pcs [] (sample_region_ok 1) sample_new_len sample_flags) as [cr Hr].
  destruct (agent_runs_count _ _ _ Hr) as (n & v & Hn). eexists n, v, _. split; [exact Hn|]. split; [reflexivity|].
  destruct (consensus_terminates sample_new sample_start n v _ sample_starts Hn) as (H1 & _ & _ & H2). split; [by apply H2|exact H1].
Defined.

(** The region after a device-path atomic of queue pair 7, idle since. *)
Definition sample_held : cstate :=
  CState (with_epoch (with_running (sample_shm 0) (<[7%nat := 1]> (replicate 32 0))) (<[7%nat := 1]> (replicate 32 0)))
    sample_pcs [] (AWaitEpoch [(7, 1)]).

Lemma consensus_stuck_witness :
  exists s', rtc (fun a b => exists who, who <> Qp_ 7 /\ cstep sample_new who a b) sample_held s' /\
    ag s' = AWaitFlag [(7, 1)] /\ ag s' <> ADone.
Proof.
  set (s' := CState (reg_ sample_held) sample_pcs [] (AWaitFlag [(7, 1)])).
  assert (Hr : rtc (fun a b => exists who, who <> Qp_ 7 /\ cstep sample_new who a b) sample_held s').
  { apply rtc_once. exists Agent. split; [done|]. exact (c_wait_epoch sample_new 7 1 1 [] (reg_ sample_held) sample_pcs [] eq_refl). }
  exists s'. split; [exact Hr|]. split; [reflexivity|].
  exact (consensus_stuck sample_new 7 1 [] sample_held s' (or_introl eq_refl) eq_refl eq_refl Hr).
Defined.

Lemma consensus_misses_rpc_in_flight_witness :
  exists r' ps', rtc (step_any sample_new) sample_start (CState r' ps' [(7, 5120, 1)] ADone).
Proof.
  assert (Hc : (credit (sample_shm 1)).[5120] = Some 1) by exact (sample_credit 1).
  assert (Hn : sample_new.[5120] <> Some 1) by (intros H; apply aget_replicate_inv in H; discriminate H).
  exact (consensus_misses_rpc_in_flight sample_new (sample_shm 1) sample_pcs 7 5120 1 (sample_region_ok 1) sample_new_len
    sample_flags eq_refl eq_refl sample_reg ltac:(split; [done|reflexivity]) Hc ltac:(done) Hn).
Defined.
