(* ===== verification/QpSize.v ===== *)
(** The sizes of the work queues: the part of providers/mlx5/verbs.c that
    turns the capabilities an application asks for into the size of a work
    request in the send queue, the number of 64-byte slots of the ring, the
    number of requests that may be outstanding, and the same for receive queues
    of queue pairs and for work queues.

    C's mixed-sign integer arithmetic is written out: a [size_t] computation
    stored in an [int] is [i32 (u64 _)], a comparison of an [int] with an
    unsigned value is made on [u32].  [None] is undefined behaviour: a division
    by zero, a shift by the width ([roundup_pow_of_two(0)], [1 << ilog32(-1)]),
    a failed assertion, or a signed overflow. *)

From S2P Require Import Prelude Util Mem Wqe PostSend PostSendSpec PostRecv NewSend.

(** ** Constants *)

Definition IBV_QPT_XRC_RECV : Z := 10.
Definition MLX5DV_QP_EX_WITH_MR_INTERLEAVED : Z := 2 ^ 0.
Definition MLX5DV_QP_EX_WITH_MR_LIST : Z := 2 ^ 1.
Definition MLX5DV_QP_EX_WITH_MKEY_CONFIGURE : Z := 2 ^ 2.
Definition IBV_QP_INIT_ATTR_MAX_TSO_HEADER : Z := 2 ^ 3.
Definition IBV_QP_INIT_ATTR_SEND_OPS_FLAGS : Z := 2 ^ 6.
Definition MLX5DV_QP_CREATE_OOO_DP : Z := 2 ^ 7.
Definition MLX5DV_WQ_INIT_ATTR_MASK_STRIDING_RQ : Z := 1.

Definition sizeof_inl_data : Z := 4.
Definition sizeof_umr_klm : Z := 16.
Definition sizeof_rwqe_sig : Z := 16.
Definition sizeof_srq_next : Z := 16.

(** ** Requests and limits *)

(** The limits of the device that the sizes depend on. *)
Record mlx5_caps := Caps {
  max_sq_desc_sz : Z; max_rq_desc_sz : Z; max_send_wqebb : Z; ctx_max_recv_wr : Z;
  ooo_max_rc : Z; ooo_max_ud : Z; ooo_max_uc : Z }.

Record ibv_qp_cap := Cap {
  cap_send_wr : Z; cap_recv_wr : Z; cap_send_sge : Z; cap_recv_sge : Z; cap_inline : Z }.

(** The part of [ibv_qp_init_attr_ex] the sizes depend on; [ia_srq] is whether the queue pair has a shared receive queue. *)
Record init_attr := InitAttr {
  ia_type : Z; ia_comp_mask : Z; ia_cap : ibv_qp_cap; ia_srq : bool; ia_send_ops : Z; ia_max_tso_header : Z }.

Definition with_cap_inline (a : init_attr) (v : Z) : init_attr :=
  let c := ia_cap a in
  InitAttr (ia_type a) (ia_comp_mask a)
    (Cap (cap_send_wr c) (cap_recv_wr c) (cap_send_sge c) (cap_recv_sge c) v)
    (ia_srq a) (ia_send_ops a) (ia_max_tso_header a).

Definition with_max_inline (qp : mlx5_qp) (v : Z) : mlx5_qp :=
  Qp (qp_type qp) (qp_num qp) (qp_state qp) (qp_buf qp) v (bf qp) (fm_cache qp)
    (sq_signal_bits qp) (sq_start qp) (sq qp) (db qp) (rq qp) (wq_sig qp) (qp_cap_cache qp)
    (atomics_enabled qp) (max_tso qp) (max_tso_header qp) (qp_flags qp).

Definition with_tso_header (qp : mlx5_qp) (v : Z) : mlx5_qp :=
  Qp (qp_type qp) (qp_num qp) (qp_state qp) (qp_buf qp) (max_inline_data qp) (bf qp) (fm_cache qp)
    (sq_signal_bits qp) (sq_start qp) (sq qp) (db qp) (rq qp) (wq_sig qp) (qp_cap_cache qp)
    (atomics_enabled qp) (max_tso qp) v (qp_flags qp).

Definition with_geometry (q : mlx5_wq) (cnt shift gs post : Z) : mlx5_wq :=
  Wq (wrid q) (wqe_head q) cnt post (head q) (tail q) (cur_post q)
    gs (qp_state_max_gs q) shift (wq_offset q) (qend q) (wr_data q).

Definition with_wqe_cnt (q : mlx5_wq) (cnt : Z) : mlx5_wq :=
  with_geometry q cnt (wqe_shift q) (max_gs q) (max_post q).

Definition with_wq_offset (q : mlx5_wq) (o : Z) : mlx5_wq :=
  Wq (wrid q) (wqe_head q) (wqe_cnt q) (max_post q) (head q) (tail q) (cur_post q)
    (max_gs q) (qp_state_max_gs q) (wqe_shift q) o (qend q) (wr_data q).

(** ** The overhead of a send request *)

Definition _sq_overhead (qp : mlx5_qp) (dc_type type ops mlx5_ops : Z) : Z :=
  let rdma_size :=
    if has ops (flags_or [IBV_QP_EX_WITH_RDMA_WRITE; IBV_QP_EX_WITH_RDMA_WRITE_WITH_IMM; IBV_QP_EX_WITH_RDMA_READ])
    then sizeof_ctrl + sizeof_raddr else 0 in
  let atomic_size :=
    if has ops (flags_or [IBV_QP_EX_WITH_ATOMIC_CMP_AND_SWP; IBV_QP_EX_WITH_ATOMIC_FETCH_AND_ADD])
    then sizeof_ctrl + sizeof_raddr + sizeof_atomic else 0 in
  let mw_size :=
    if has ops (flags_or [IBV_QP_EX_WITH_BIND_MW; IBV_QP_EX_WITH_LOCAL_INV]) ||
       has mlx5_ops (flags_or [MLX5DV_QP_EX_WITH_MR_INTERLEAVED; MLX5DV_QP_EX_WITH_MR_LIST; MLX5DV_QP_EX_WITH_MKEY_CONFIGURE])
    then sizeof_ctrl + sizeof_umr_ctrl + sizeof_mkey_ctx + Z.max sizeof_umr_klm 64 else 0 in
  let size := Z.max (Z.max (Z.max sizeof_ctrl rdma_size) atomic_size) mw_size in
  if (type =? IBV_QPT_DRIVER) && negb (dc_type =? MLX5DV_DCTYPE_DCI) then - EINVAL
  else if (type =? IBV_QPT_DRIVER) || (type =? IBV_QPT_UD) then
    size + sizeof_datagram + (if has (qp_flags qp) MLX5_QP_FLAGS_USE_UNDERLAY then sizeof_eth + sizeof_eth_pad else 0)
  else if (type =? IBV_QPT_XRC_RECV) || (type =? IBV_QPT_XRC_SEND) then size + sizeof_xrc
  else if type =? IBV_QPT_RAW_PACKET then size + sizeof_eth
  else if (type =? IBV_QPT_RC) || (type =? IBV_QPT_UC) then size
  else - EINVAL.

(** The operations of a queue pair that does not say which it needs. *)
Definition default_ops (type : Z) : option Z :=
  if (type =? IBV_QPT_RC) || (type =? IBV_QPT_UC) || (type =? IBV_QPT_DRIVER) ||
     (type =? IBV_QPT_XRC_RECV) || (type =? IBV_QPT_XRC_SEND)
  then Some (flags_or [IBV_QP_EX_WITH_SEND; IBV_QP_EX_WITH_SEND_WITH_INV; IBV_QP_EX_WITH_SEND_WITH_IMM;
    IBV_QP_EX_WITH_RDMA_WRITE; IBV_QP_EX_WITH_RDMA_WRITE_WITH_IMM; IBV_QP_EX_WITH_RDMA_READ;
    IBV_QP_EX_WITH_ATOMIC_CMP_AND_SWP; IBV_QP_EX_WITH_ATOMIC_FETCH_AND_ADD;
    IBV_QP_EX_WITH_LOCAL_INV; IBV_QP_EX_WITH_BIND_MW])
  else if type =? IBV_QPT_UD then Some (flags_or [IBV_QP_EX_WITH_SEND; IBV_QP_EX_WITH_SEND_WITH_IMM; IBV_QP_EX_WITH_TSO])
  else if type =? IBV_QPT_RAW_PACKET then Some (flags_or [IBV_QP_EX_WITH_SEND; IBV_QP_EX_WITH_TSO])
  else None.

Definition sq_overhead (qp : mlx5_qp) (dc_type : Z) (a : init_attr) (dv : option dv_attr) : Z :=
  let ops := if has (ia_comp_mask a) IBV_QP_INIT_ATTR_SEND_OPS_FLAGS then Some (ia_send_ops a)
             else default_ops (ia_type a) in
  match ops with
  | None => - EINVAL
  | Some ops =>
    let mlx5_ops := match dv with
      | Some d => if has (dv_comp_mask d) MLX5DV_QP_INIT_ATTR_MASK_SEND_OPS_FLAGS then dv_send_ops_flags d else 0
      | None => 0 end in
    _sq_overhead qp dc_type (ia_type a) ops mlx5_ops
  end.

(** ** The send queue *)

Definition mlx5_calc_send_wqe (c : mlx5_caps) (dc_type : Z) (a : init_attr) (dv : option dv_attr) (qp : mlx5_qp)
  : Z * mlx5_qp :=
  let size := sq_overhead qp dc_type a dv in
  if size <? 0 then (size, qp) else
  let inl_size :=
    if negb (cap_inline (ia_cap a) =? 0)
    then i32 (u64 (size + align (sizeof_inl_data + cap_inline (ia_cap a)) 16)) else 0 in
  let '(size, qp) :=
    if has (ia_comp_mask a) IBV_QP_INIT_ATTR_MAX_TSO_HEADER
    then (i32 (u64 (size + align (ia_max_tso_header a) 16)), with_tso_header qp (ia_max_tso_header a))
    else (size, qp) in
  let max_gather := i32 (u64 (max_sq_desc_sz c - size) / sizeof_data) in
  if u32 max_gather <? cap_send_sge (ia_cap a) then (- EINVAL, qp) else
  let size := i32 (u64 (size + cap_send_sge (ia_cap a) * sizeof_data)) in
  let tot_size := Z.max size inl_size in
  if max_sq_desc_sz c <? tot_size then (- EINVAL, qp) else
  (i32 (align (u64 tot_size) MLX5_SEND_WQE_BB), qp).

Definition mlx5_calc_sq_size (c : mlx5_caps) (dc_type : Z) (a : init_attr) (dv : option dv_attr) (qp : mlx5_qp)
  : option (Z * init_attr * mlx5_qp) :=
  if cap_send_wr (ia_cap a) =? 0 then Some (0, a, qp) else
  let '(wqe_size, qp) := mlx5_calc_send_wqe c dc_type a dv qp in
  if wqe_size <? 0 then Some (wqe_size, a, qp) else
  if max_sq_desc_sz c <? wqe_size then Some (- EINVAL, a, qp) else
  let inl := i32 (u64 (wqe_size - sq_overhead qp dc_type a dv - sizeof_inl_data)) in
  let qp := with_max_inline qp inl in
  let a := with_cap_inline a (u32 inl) in
  if max_sq_desc_sz c =? 0 then None else
  if u32 (Z.quot 0x7fffffff (max_sq_desc_sz c)) <? cap_send_wr (ia_cap a) then Some (- EINVAL, a, qp) else
  let bytes := u32 (cap_send_wr (ia_cap a) * wqe_size) in
  if bytes =? 0 then None else
  let wq_size := i32 (roundup_pow_of_two bytes) in
  let cnt := u32 (Z.quot wq_size MLX5_SEND_WQE_BB) in
  let qp := with_sq qp (with_wqe_cnt (sq qp) cnt) in
  if u32 (max_send_wqebb c) <? cnt then Some (- EINVAL, a, qp) else
  if wqe_size =? 0 then None else
  let qp := with_sq qp (with_geometry (sq qp) cnt (ilog MLX5_SEND_WQE_BB - 1)
    (i32 (cap_send_sge (ia_cap a))) (u32 (Z.quot wq_size wqe_size))) in
  Some (wq_size, a, qp).

(** ** Receive queues *)

Definition mlx5_calc_rcv_wqe (c : mlx5_caps) (a : init_attr) (qp : mlx5_qp) : option Z :=
  if ia_srq a then Some 0 else
  let num_scatter := i32 (Z.max (cap_recv_sge (ia_cap a)) 1) in
  let size := u32 (sizeof_data * num_scatter) in
  let size := if wq_sig qp then u32 (size + sizeof_rwqe_sig) else size in
  if u32 (max_rq_desc_sz c) <? size then Some (- EINVAL) else
  if size =? 0 then None else
  Some (i32 (roundup_pow_of_two size)).

Definition mlx5_get_max_recv_wr (c : mlx5_caps) (a : init_attr) (dv : option dv_attr) : Z * Z :=
  let wr := cap_recv_wr (ia_cap a) in
  let cap := match dv with
    | Some d =>
      if has (dv_create_flags d) MLX5DV_QP_CREATE_OOO_DP && (1 <? wr) then
        if ia_type a =? IBV_QPT_RC then ooo_max_rc c
        else if ia_type a =? IBV_QPT_UC then ooo_max_uc c
        else if ia_type a =? IBV_QPT_UD then ooo_max_ud c else 0
      else 0
    | None => 0 end in
  if negb (cap =? 0) then
    if cap <? wr then (- EINVAL, 0) else (0, shlu 32 wr 1)
  else if u32 (ctx_max_recv_wr c) <? wr then (- EINVAL, 0) else (0, wr).

Definition mlx5_calc_rq_size (c : mlx5_caps) (a : init_attr) (dv : option dv_attr) (qp : mlx5_qp)
  : option (Z * mlx5_qp) :=
  if cap_recv_wr (ia_cap a) =? 0 then Some (0, qp) else
  let '(ret, max_recv_wr) := mlx5_get_max_recv_wr c a dv in
  if ret <? 0 then Some (ret, qp) else
  wqe_size ← mlx5_calc_rcv_wqe c a qp;
  if (wqe_size <? 0) || (max_rq_desc_sz c <? wqe_size) then Some (- EINVAL, qp) else
  if max_recv_wr =? 0 then None else
  let wq_size := i32 (u64 (roundup_pow_of_two max_recv_wr * wqe_size)) in
  if negb (wqe_size =? 0) then
    let wq_size := Z.max wq_size MLX5_SEND_WQE_BB in
    let cnt := u32 (Z.quot wq_size wqe_size) in
    let shift := ilog (u32 (wqe_size - 1)) in
    post ← (if negb (max_recv_wr =? cap_recv_wr (ia_cap a)) then
              if 1 <? cnt then Some (Z.shiftl 1 (ilog (u32 (cnt - 1)) - 1)) else None
            else if 0 <? cnt then Some (Z.shiftl 1 (ilog (u32 (cnt - 1)))) else None);
    let scat_spc := i32 (u64 (wqe_size - (if wq_sig qp then sizeof_rwqe_sig else 0))) in
    let gs := i32 (u64 scat_spc / sizeof_data) in
    Some (wq_size, with_rq qp (with_geometry (rq qp) cnt shift gs (u32 post)))
  else Some (wq_size, with_rq qp (with_geometry (rq qp) 0 0 0 0)).

Definition mlx5_calc_wq_size (c : mlx5_caps) (dc_type : Z) (a : init_attr) (dv : option dv_attr) (qp : mlx5_qp)
  : option (Z * init_attr * mlx5_qp) :=
  r ← mlx5_calc_sq_size c dc_type a dv qp;
  let '(ret, a, qp) := r in
  if ret <? 0 then Some (ret, a, qp) else
  let result := ret in
  r ← mlx5_calc_rq_size c a dv qp;
  let '(ret, qp) := r in
  if ret <? 0 then Some (ret, a, qp) else
  if 2 ^ 31 <=? result + ret then None else
  let qp := with_sq qp (with_wq_offset (sq qp) ret) in
  let qp := with_rq qp (with_wq_offset (rq qp) 0) in
  Some (result + ret, a, qp).

(** The work queue of [ibv_create_wq]; [mask] is the mask of the optional
    vendor attributes, and the queue's new geometry is the second result. *)
Definition mlx5_calc_rwq_size (c : mlx5_caps) (q : mlx5_wq) (sig : bool) (max_wr max_sge : Z) (mask : option Z)
  : option (Z * mlx5_wq) :=
  if max_wr =? 0 then Some (- EINVAL, q) else
  let bad_mask := match mask with Some m => has m (notu 64 MLX5DV_WQ_INIT_ATTR_MASK_STRIDING_RQ) | None => false end in
  if bad_mask then Some (- EINVAL, q) else
  let is_mprq := match mask with Some m => b2z (has m MLX5DV_WQ_INIT_ATTR_MASK_STRIDING_RQ) | None => 0 end in
  let num_scatter := Z.max max_sge 1 in
  let wqe_size := u64 (sizeof_data * num_scatter + sizeof_srq_next * is_mprq) in
  let wqe_size := if sig then u64 (wqe_size + sizeof_rwqe_sig) else wqe_size in
  if (wqe_size <=? 0) || (u64 (max_rq_desc_sz c) <? wqe_size) then Some (- EINVAL, q) else
  let wqe_size := roundup_pow_of_two wqe_size in
  let wq_size := i32 (u64 (roundup_pow_of_two max_wr * wqe_size)) in
  let wq_size := Z.max wq_size MLX5_SEND_WQE_BB in
  let cnt := wq_size / wqe_size in
  if cnt =? 0 then None else
  let scat_spc := i32 (u64 (wqe_size - (if sig then sizeof_rwqe_sig else 0) - is_mprq * sizeof_srq_next)) in
  Some (wq_size, with_geometry q (u32 cnt) (ilog (u32 (wqe_size - 1)))
    (i32 (u64 scat_spc / sizeof_data)) (u32 (Z.shiftl 1 (ilog (u32 (cnt - 1)))))).

(** ** What the send queue's size is *)

(** The bytes before the data segments: the overhead of the operations and the
    TSO header. *)
Definition hdr_bytes (o : Z) (a : init_attr) : Z :=
  o + (if has (ia_comp_mask a) IBV_QP_INIT_ATTR_MAX_TSO_HEADER then 16 * ((ia_max_tso_header a + 15) / 16) else 0).

(** The bytes of the largest request: with all its data segments, or with all
    its inline data. *)
Definition inl_bytes (o : Z) (a : init_attr) : Z :=
  if cap_inline (ia_cap a) =? 0 then 0 else o + 16 * ((cap_inline (ia_cap a) + 19) / 16).
Definition wqe_demand (o : Z) (a : init_attr) : Z := Z.max (hdr_bytes o a + 16 * cap_send_sge (ia_cap a)) (inl_bytes o a).

(** The same in whole slots. *)
Definition wqe_stride (o : Z) (a : init_attr) : Z := 64 * ((wqe_demand o a + 63) / 64).

(** Limits as devices have them. *)
Record caps_ok (c : mlx5_caps) : Prop := {
  co_sq : 0 < max_sq_desc_sz c < 2 ^ 24;
  co_bb : 0 <= max_send_wqebb c < 2 ^ 25;
  co_rq : 0 < max_rq_desc_sz c <= 2 ^ 12;
  co_rwr : 0 <= ctx_max_recv_wr c <= 2 ^ 16;
  co_rc : 0 <= ooo_max_rc c <= 2 ^ 16;
  co_uc : 0 <= ooo_max_uc c <= 2 ^ 16;
  co_ud : 0 <= ooo_max_ud c <= 2 ^ 16 }.

(** The fields are of their C types. *)
Record attr_typed (a : init_attr) : Prop := {
  at_swr : in_width 32 (cap_send_wr (ia_cap a));
  at_ssge : in_width 32 (cap_send_sge (ia_cap a));
  at_inl : in_width 32 (cap_inline (ia_cap a));
  at_tso : in_width 16 (ia_max_tso_header a) }.

(** The sizes in bytes that are computed in an [int] fit it; a number of data
    segments too large for what the header leaves is refused before. *)
Definition int_sized (c : mlx5_caps) (o : Z) (a : init_attr) : Prop :=
  inl_bytes o a < 2 ^ 31 /\ (hdr_bytes o a <= max_sq_desc_sz c \/ hdr_bytes o a + 16 * cap_send_sge (ia_cap a) < 2 ^ 31).

(** The fields are of their C types, and the inline size one that [int] holds. *)
Record attr_ok (a : init_attr) : Prop := {
  ao_swr : in_width 32 (cap_send_wr (ia_cap a));
  ao_rwr : in_width 32 (cap_recv_wr (ia_cap a));
  ao_ssge : in_width 32 (cap_send_sge (ia_cap a));
  ao_rsge : in_width 32 (cap_recv_sge (ia_cap a));
  ao_inl : 0 <= cap_inline (ia_cap a) < 2 ^ 30;
  ao_tso : in_width 16 (ia_max_tso_header a) }.

Lemma attr_ok_typed a : attr_ok a -> attr_typed a.
Proof. intros [? ? ? ? Hi ?]. constructor; try done. unfold in_width. lia. Qed.

Lemma sq_overhead_range qp dc a dv : let o := sq_overhead qp dc a dv in o = - EINVAL \/ (16 <= o <= 288 /\ o mod 16 = 0).
Proof.
  cbv zeta. unfold sq_overhead. destruct (if has _ _ then _ else _) as [ops|]; [|by left].
  unfold _sq_overhead. cbv zeta. repeat match goal with |- context [if ?b then _ else _] => destruct b end;
  (by left) || (right; vm_compute; done).
Qed.

Lemma align16 v : 0 <= v < 2 ^ 63 -> align v 16 = 16 * ((v + 15) / 16).
Proof. intros. change 16 with (2 ^ 4) at 1. rewrite align_up by lia. change (2 ^ 4) with 16. by replace (v + 16 - 1) with (v + 15) by lia. Qed.

Lemma align64 v : 0 <= v < 2 ^ 63 -> align v 64 = 64 * ((v + 63) / 64).
Proof. intros. change 64 with (2 ^ 6) at 1. rewrite align_up by lia. change (2 ^ 6) with 64. by replace (v + 64 - 1) with (v + 63) by lia. Qed.

Lemma i32_u64 x : 0 <= x < 2 ^ 31 -> i32 (u64 x) = x.
Proof. intros. rewrite wrapu_small by lia. apply i32_small. lia. Qed.

(** [qp] with the TSO header size the attributes ask for. *)
Definition with_attr_tso (a : init_attr) (qp : mlx5_qp) : mlx5_qp :=
  if has (ia_comp_mask a) IBV_QP_INIT_ATTR_MAX_TSO_HEADER then with_tso_header qp (ia_max_tso_header a) else qp.

Lemma send_wqe_spec c dc a dv qp o :
  caps_ok c -> attr_typed a -> o = sq_overhead qp dc a dv -> 0 <= o -> int_sized c o a ->
  mlx5_calc_send_wqe c dc a dv qp =
    (if wqe_demand o a <=? max_sq_desc_sz c then wqe_stride o a else - EINVAL, with_attr_tso a qp).
Proof.
  intros Hc Ha Ho Hpos [Hil Hh]. pose proof (sq_overhead_range qp dc a dv) as Hr. cbv zeta in Hr. rewrite <- Ho in Hr.
  destruct Hr as [->|[Hr _]]; [discriminate (proj2 (Z.ltb_ge (-22) 0) Hpos)|].
  destruct Hc as [Hsq _ _ _ _ _ _], Ha as [_ Hs Hi Ht]. unfold in_width in *.
  unfold mlx5_calc_send_wqe, wqe_stride, wqe_demand, with_attr_tso. rewrite <- Ho. rewrite (proj2 (Z.ltb_ge o 0)) by lia.
  replace (if negb (cap_inline (ia_cap a) =? 0) then _ else _) with (inl_bytes o a).
  2:{ unfold inl_bytes, sizeof_inl_data in *. destruct (_ =? 0); [done|]. cbn [negb]. rewrite align16 by lia.
      replace (4 + cap_inline (ia_cap a) + 15) with (cap_inline (ia_cap a) + 19) by lia. rewrite i32_u64; dlia. }
  assert (0 <= inl_bytes o a) by (unfold inl_bytes; destruct (_ =? 0); dlia). generalize dependent (inl_bytes o a). intros inl Hil Hi0.
  set (h := hdr_bytes o a) in *. assert (0 < h < 2 ^ 17) by (unfold h, hdr_bytes; destruct (has _ _); dlia).
  assert ((if has (ia_comp_mask a) IBV_QP_INIT_ATTR_MAX_TSO_HEADER
    then (i32 (u64 (o + align (ia_max_tso_header a) 16)), with_tso_header qp (ia_max_tso_header a)) else (o, qp)) =
    (h, if has (ia_comp_mask a) IBV_QP_INIT_ATTR_MAX_TSO_HEADER then with_tso_header qp (ia_max_tso_header a) else qp)) as ->.
  { unfold h, hdr_bytes in *. destruct (has _ _); [|by rewrite Z.add_0_r]. rewrite align16, i32_u64 by dlia. done. }
  clearbody h. unfold sizeof_data. destruct (Z.le_gt_cases h (max_sq_desc_sz c)) as [Hle|Hgt].
  2:{ rewrite (proj2 (Z.leb_gt (Z.max _ _) _)) by lia. destruct (_ <? cap_send_sge (ia_cap a)); [done|].
      rewrite (proj2 (Z.ltb_lt (max_sq_desc_sz c) (Z.max _ inl))) by (rewrite i32_u64 by lia; lia). done. }
  rewrite (wrapu_small 64 (_ - h)) by lia. rewrite (i32_small ((_ - h) / 16)) by dlia. rewrite (wrapu_small 32) by dlia.
  destruct (Z.ltb_spec ((max_sq_desc_sz c - h) / 16) (cap_send_sge (ia_cap a))).
  { rewrite (proj2 (Z.leb_gt _ _)) by dlia. done. }
  rewrite (Z.mul_comm _ 16), (i32_u64 (h + _)) by dlia.
  destruct (Z.ltb_spec (max_sq_desc_sz c) (Z.max (h + 16 * cap_send_sge (ia_cap a)) inl)).
  { rewrite (proj2 (Z.leb_gt _ _)) by lia. done. }
  rewrite (proj2 (Z.leb_le _ _)) by lia. unfold MLX5_SEND_WQE_BB.
  rewrite (wrapu_small 64), align64, i32_small by dlia. done.
Qed.

(** When a send queue of these capabilities can be had. *)
Definition sq_accepts (c : mlx5_caps) (o : Z) (a : init_attr) : bool :=
  (wqe_stride o a <=? max_sq_desc_sz c) &&
  (cap_send_wr (ia_cap a) <=? 0x7fffffff / max_sq_desc_sz c) &&
  (roundup_pow_of_two (cap_send_wr (ia_cap a) * wqe_stride o a) <=? 64 * max_send_wqebb c).

(** A send queue of [size] bytes for the capabilities of [a]. *)
Record sq_sized (c : mlx5_caps) (o : Z) (a : init_attr) (size : Z) (a' : init_attr) (qp : mlx5_qp) : Prop := {
  ss_pow : exists k, 0 <= k < 25 /\ wqe_cnt (sq qp) = 2 ^ k;
  ss_size : size = 64 * wqe_cnt (sq qp);
  ss_limit : wqe_cnt (sq qp) <= max_send_wqebb c;
  ss_room : cap_send_wr (ia_cap a) * wqe_stride o a <= size < 2 * (cap_send_wr (ia_cap a) * wqe_stride o a);
  ss_post : max_post (sq qp) = size / wqe_stride o a;
  ss_gs : max_gs (sq qp) = cap_send_sge (ia_cap a);
  ss_shift : wqe_shift (sq qp) = 6;
  ss_inl : max_inline_data qp = wqe_stride o a - o - 4;
  ss_attr : a' = with_cap_inline a (u32 (max_inline_data qp)) }.

Lemma wqe_stride_pos o a : 16 <= o -> attr_typed a -> 64 <= wqe_stride o a /\ wqe_demand o a <= wqe_stride o a.
Proof.
  intros Ho Ha. destruct Ha as [_ Hs Hi Ht]. unfold in_width in *.
  assert (16 <= wqe_demand o a). { unfold wqe_demand, hdr_bytes. destruct (has _ _); dlia. }
  unfold wqe_stride. dlia.
Qed.

Lemma sq_overhead_flags qp qp' dc a dv : qp_flags qp = qp_flags qp' -> sq_overhead qp dc a dv = sq_overhead qp' dc a dv.
Proof. intros H. unfold sq_overhead, _sq_overhead. by rewrite H. Qed.

Lemma roundup_mult64 n : 0 < n <= 2 ^ 62 -> n mod 64 = 0 -> exists k, 0 <= k <= 57 /\ roundup_pow_of_two n = 64 * 2 ^ k /\ n <= 64 * 2 ^ k < 2 * n.
Proof.
  intros Hn Hm. destruct (roundup_pow n) as (k & Hk & E & Hb); [dlia|].
  assert (6 <= k). { destruct (Z.le_gt_cases 6 k); [done|]. assert (2 ^ k <= 2 ^ 5) by (apply Z.pow_le_mono_r; lia). dlia. }
  assert (2 ^ k = 64 * 2 ^ (k - 6)) as Hk6 by (change 64 with (2 ^ 6); rewrite <- Z.pow_add_r by lia; f_equal; lia).
  assert (2 ^ k = 2 * 2 ^ (k - 1)) by (change 2 with (2 ^ 1) at 2; rewrite <- Z.pow_add_r by lia; f_equal; lia).
  exists (k - 6). split_and!; lia.
Qed.

Lemma sq_accepted_size c o a qp k :
  caps_ok c -> attr_typed a -> 0 < cap_send_wr (ia_cap a) -> 64 <= wqe_stride o a ->
  roundup_pow_of_two (cap_send_wr (ia_cap a) * wqe_stride o a) = 64 * 2 ^ k -> 0 <= k < 25 ->
  64 * 2 ^ k <= 64 * max_send_wqebb c ->
  cap_send_wr (ia_cap a) * wqe_stride o a <= 64 * 2 ^ k < 2 * (cap_send_wr (ia_cap a) * wqe_stride o a) ->
  max_inline_data qp = wqe_stride o a - o - 4 -> cap_send_sge (ia_cap a) < 2 ^ 31 ->
  sq_sized c o a (64 * 2 ^ k) (with_cap_inline a (u32 (max_inline_data qp)))
    (with_sq qp (with_geometry (sq qp) (2 ^ k) 6 (i32 (cap_send_sge (ia_cap a))) (u32 (Z.quot (64 * 2 ^ k) (wqe_stride o a))))).
Proof.
  intros Hc Ha Hw Hs Hr Hk Hbb Hroom Hinl Hg. destruct Ha as [_ Hge _ _]. unfold in_width in *.
  assert (2 ^ k <= 2 ^ 24) by (apply Z.pow_le_mono_r; lia).
  split; cbn [sq with_sq with_geometry wqe_cnt max_post max_gs wqe_shift max_inline_data]; try done; try lia.
  - by exists k.
  - rewrite Z.quot_div_nonneg by lia. apply wrapu_small. split; [apply Z.div_pos; lia|]. apply Z.div_lt_upper_bound; lia.
  - apply i32_small. lia.
Qed.

Lemma i32_u64_neg x : - 2 ^ 31 <= x < 2 ^ 31 -> i32 (u64 x) = x.
Proof. intros. unfold i32, wrapu. dlia. Qed.

(** The checks after the size of a request is known. *)
Lemma calc_sq_size_tail c dc a dv qp o :
  caps_ok c -> attr_typed a -> o = sq_overhead qp dc a dv -> 0 <= o -> int_sized c o a ->
  0 < cap_send_wr (ia_cap a) -> wqe_stride o a <= max_sq_desc_sz c ->
  exists ret a' qp', mlx5_calc_sq_size c dc a dv qp = Some (ret, a', qp') /\
    if sq_accepts c o a then sq_sized c o a ret a' qp' else ret = - EINVAL.
Proof.
  intros Hc Ha Ho Hpos Hh Hw Hst. pose proof (sq_overhead_range qp dc a dv) as Hr. cbv zeta in Hr. rewrite <- Ho in Hr.
  destruct Hr as [->|[Hr _]]; [discriminate (proj2 (Z.ltb_ge (-22) 0) Hpos)|].
  pose proof (wqe_stride_pos o a ltac:(lia) Ha) as [H64 Hd]. pose proof (co_sq _ Hc). pose proof (co_bb _ Hc).
  pose proof (at_swr _ Ha). unfold in_width in *. unfold mlx5_calc_sq_size, sq_accepts.
  rewrite (proj2 (Z.eqb_neq _ 0)), (send_wqe_spec c dc a dv qp o) by lia || done.
  rewrite (proj2 (Z.leb_le (wqe_demand o a) _)), (proj2 (Z.ltb_ge (wqe_stride o a) 0)), (proj2 (Z.ltb_ge _ (wqe_stride o a))) by lia.
  rewrite (sq_overhead_flags (with_attr_tso a qp) qp), <- Ho by (unfold with_attr_tso; by destruct (has _ _)).
  unfold sizeof_inl_data. rewrite i32_u64_neg by lia. set (qp1 := with_max_inline _ _). cbn [with_cap_inline ia_cap cap_send_wr cap_send_sge].
  rewrite (proj2 (Z.eqb_neq (max_sq_desc_sz c) 0)), Z.quot_div_nonneg by lia.
  assert (0 <= 2147483647 / max_sq_desc_sz c <= 2147483647) by (split; [apply Z.div_pos|apply Z.div_le_upper_bound]; nia).
  rewrite (wrapu_small 32) by lia. rewrite (proj2 (Z.leb_le (wqe_stride o a) _)) by lia.
  destruct (Z.ltb_spec (2147483647 / max_sq_desc_sz c) (cap_send_wr (ia_cap a))) as [Hq|Hq].
  { rewrite (proj2 (Z.leb_gt _ _)) by lia. eexists _, _, _. split; [reflexivity|]. done. }
  rewrite (proj2 (Z.leb_le (cap_send_wr (ia_cap a)) _)) by lia. cbn [andb].
  set (b := cap_send_wr (ia_cap a) * wqe_stride o a). assert (0 < b <= 2147483647).
  { split; [unfold b; nia|]. pose proof (Z.mul_div_le 2147483647 (max_sq_desc_sz c) ltac:(lia)). unfold b. nia. }
  rewrite (wrapu_small 32 b), (proj2 (Z.eqb_neq b 0)) by lia.
  destruct (roundup_mult64 b) as (k & Hk & E & Hb); [lia|unfold b, wqe_stride; rewrite Z.mul_assoc, (Z.mul_comm _ 64), <- Z.mul_assoc, Z.mul_comm; apply Z_mod_mult|].
  rewrite E. assert (k <= 25). { destruct (Z.le_gt_cases k 25); [done|]. assert (2 ^ 26 <= 2 ^ k) by (apply Z.pow_le_mono_r; lia). lia. }
  destruct (Z.eq_dec k 25) as [->|].
  { unfold MLX5_SEND_WQE_BB. change (u32 (Z.quot (i32 (64 * 2 ^ 25)) 64)) with 4261412864.
    rewrite (wrapu_small 32 (max_send_wqebb c)) by lia. rewrite (proj2 (Z.ltb_lt _ 4261412864)), (proj2 (Z.leb_gt _ _)) by lia.
    eexists _, _, _. split; [reflexivity|]. done. }
  assert (2 ^ k <= 2 ^ 24) by (apply Z.pow_le_mono_r; lia). assert (0 < 2 ^ k) by lia.
  rewrite (i32_small (64 * _)) by lia. assert (u32 (Z.quot (64 * 2 ^ k) MLX5_SEND_WQE_BB) = 2 ^ k) as ->.
  { unfold MLX5_SEND_WQE_BB. rewrite Z.mul_comm, Z.quot_mul by lia. apply wrapu_small. lia. }
  rewrite (wrapu_small 32 (max_send_wqebb c)) by lia.
  destruct (Z.ltb_spec (max_send_wqebb c) (2 ^ k)).
  { rewrite (proj2 (Z.leb_gt _ _)) by lia. eexists _, _, _. split; [reflexivity|]. done. }
  rewrite (proj2 (Z.eqb_neq (wqe_stride o a) 0)), (proj2 (Z.leb_le _ _)) by lia. eexists _, _, _. split; [reflexivity|].
  assert (cap_send_sge (ia_cap a) < 2 ^ 31) as Hg. { assert (0 <= hdr_bytes o a) by (pose proof (at_tso _ Ha); unfold hdr_bytes, in_width in *; destruct (has _ _); dlia).
    assert (hdr_bytes o a + 16 * cap_send_sge (ia_cap a) <= wqe_demand o a) by apply Z.le_max_l. lia. }
  assert (0 <= k < 25) as Hk25 by lia. assert (64 * 2 ^ k <= 64 * max_send_wqebb c) as Hbb by lia.
  exact (sq_accepted_size c o a qp1 k Hc Ha Hw H64 E Hk25 Hbb Hb eq_refl Hg).
Qed.

Lemma calc_sq_size_total c dc a dv qp o :
  caps_ok c -> attr_typed a -> o = sq_overhead qp dc a dv -> 0 <= o -> int_sized c o a ->
  0 < cap_send_wr (ia_cap a) ->
  exists ret a' qp', mlx5_calc_sq_size c dc a dv qp = Some (ret, a', qp') /\
    if sq_accepts c o a then sq_sized c o a ret a' qp' else ret = - EINVAL.
Proof.
  intros Hc Ha Ho Hpos Hh Hw. destruct (Z.le_gt_cases (wqe_stride o a) (max_sq_desc_sz c)) as [|Hgt]; [by apply calc_sq_size_tail|].
  unfold sq_accepts. rewrite (proj2 (Z.leb_gt (wqe_stride o a) _)) by done. unfold mlx5_calc_sq_size.
  rewrite (proj2 (Z.eqb_neq _ 0)), (send_wqe_spec c dc a dv qp o) by lia || done.
  destruct (_ <=? _); [|by eexists _, _, _].
  pose proof (co_sq _ Hc). rewrite (proj2 (Z.ltb_ge (wqe_stride o a) 0)), (proj2 (Z.ltb_lt _ _)) by lia. by eexists _, _, _.
Qed.

(** C23: The size of a send queue.  For capabilities whose sizes in bytes fit
    the [int] they are computed in, [mlx5_calc_sq_size] always returns: it
    refuses, with [-EINVAL], exactly the operations the queue pair's type does
    not have and the capabilities whose request size, number of requests or ring
    size exceeds the device's limits (the [int] overflow of a two-gigabyte ring
    included); what it accepts is a power-of-two ring, at most twice as large as
    needed, that has room for at least the number of requests asked for, each
    with all its data segments and all its inline data, and [max_post] such
    requests never take more than the ring.  (Beyond, the sizes wrap around:
    [inline_request_wraps], [tso_header_wraps].) *)
Theorem calc_sq_size_spec c dc a dv qp o :
  caps_ok c -> attr_typed a -> o = sq_overhead qp dc a dv -> int_sized c o a -> 0 < cap_send_wr (ia_cap a) ->
  exists ret a' qp', mlx5_calc_sq_size c dc a dv qp = Some (ret, a', qp') /\
    if (0 <=? o) && sq_accepts c o a then sq_sized c o a ret a' qp' else ret = - EINVAL.
Proof.
  intros Hc Ha Ho Hs Hw. destruct (Z.leb_spec 0 o); [by apply calc_sq_size_total|].
  pose proof (sq_overhead_range qp dc a dv) as Hr. cbv zeta in Hr. rewrite <- Ho in Hr. destruct Hr as [Hr|[? _]]; [|lia].
  unfold mlx5_calc_sq_size, mlx5_calc_send_wqe. rewrite (proj2 (Z.eqb_neq _ 0)), <- Ho, Hr by lia. by eexists _, _, _.
Qed.

(** A device with the limits of current hardware, and a queue pair before its
    sizes are known. *)
Definition sample_caps : mlx5_caps := Caps 1024 512 32768 32768 8192 8192 8192.
Definition blank_wq : mlx5_wq := Wq [] [] 0 0 0 0 0 0 0 0 0 0 [].
Definition blank_qp (type : Z) : mlx5_qp :=
  Qp type 0 0 0 0 (Bf 0 0 0 0) 0 0 0 blank_wq 0 blank_wq false 0 true 0 0 0.
Definition sample_attr (type wr sge inl : Z) : init_attr := InitAttr type 1 (Cap wr wr sge sge inl) false 0 0.

Lemma sample_caps_ok : caps_ok sample_caps.
Proof. split; cbn; lia. Qed.

Lemma calc_sq_size_spec_witness :
  exists a' qp', mlx5_calc_sq_size sample_caps 0 (sample_attr IBV_QPT_RC 100 4 0) None (blank_qp IBV_QPT_RC) = Some (32768, a', qp') /\
    sq_sized sample_caps 192 (sample_attr IBV_QPT_RC 100 4 0) 32768 a' qp'.
Proof.
  destruct (calc_sq_size_spec sample_caps 0 (sample_attr IBV_QPT_RC 100 4 0) None (blank_qp IBV_QPT_RC) 192
    sample_caps_ok ltac:(split; cbn; unfold in_width; lia) eq_refl ltac:(split; [vm_compute; reflexivity|left; vm_compute; discriminate]) ltac:(cbn; lia))
    as (ret & a' & qp' & E & H).
  vm_compute in E. injection E as <- <- <-. eexists _, _. split; [vm_compute; reflexivity|exact H].
Defined.

(** ** Reliable connections *)

Lemma rc_overhead qp dc a dv :
  ia_type a = IBV_QPT_RC -> has (ia_comp_mask a) IBV_QP_INIT_ATTR_SEND_OPS_FLAGS = false -> sq_overhead qp dc a dv = 192.
Proof.
  intros Ht Hm. unfold sq_overhead. rewrite Hm, Ht. cbn [default_ops]. vm_compute (IBV_QPT_RC =? _). unfold _sq_overhead.
  change (default_ops IBV_QPT_RC) with (Some 1023). cbv iota. vm_compute (has 1023 _). cbn [orb]. reflexivity.
Qed.

(** Requests that respect the capabilities the application asked for. *)
Definition within_sges (n : Z) (w : ibv_send_wr) : Prop := 0 <= num_sge w <= alen (sg_list w) /\ num_sge w <= n.

Lemma within_units n w : within_sges n w -> 1 <= units w <= 3 + n.
Proof.
  intros [Hn Hm]. unfold units. assert (0 <= alen (gather w) <= num_sge w).
  { split; [apply alen_nonneg|]. unfold gather, alen.
    pose proof (List.filter_length_le nonempty (take (Z.to_nat (num_sge w)) (sg_list w))) as Hf. rewrite length_take in Hf. lia. }
  unfold hdr_units. destruct (is_rdma w), (is_atomic w); lia.
Qed.

Lemma sized_slots c a size a' qp w :
  attr_ok a -> sq_sized c 192 a size a' qp -> within_sges (max_gs (sq qp)) w -> 64 * slots w <= wqe_stride 192 a /\ 16 * units w + 144 <= wqe_stride 192 a.
Proof.
  intros Ha Hs Hw. apply within_units in Hw. rewrite (ss_gs _ _ _ _ _ _ Hs) in Hw.
  pose proof (wqe_stride_pos 192 a ltac:(lia) (attr_ok_typed _ Ha)) as [_ Hd].
  assert (hdr_bytes 192 a + 16 * cap_send_sge (ia_cap a) <= wqe_demand 192 a) by apply Z.le_max_l.
  assert (192 <= hdr_bytes 192 a). { pose proof (ao_tso _ Ha). unfold hdr_bytes, in_width in *. destruct (has _ _); dlia. }
  split; [|lia]. unfold slots. assert (wqe_stride 192 a mod 64 = 0) by (unfold wqe_stride; rewrite Z.mul_comm; apply Z_mod_mult). dlia.
Qed.

(** However many requests are outstanding, up to [max_post], the ring has room
    for them. *)
Lemma sized_ring_holds c a size a' qp wrs :
  attr_ok a -> sq_sized c 192 a size a' qp -> 0 < cap_send_wr (ia_cap a) ->
  Forall (within_sges (max_gs (sq qp))) wrs -> alen wrs <= max_post (sq qp) -> total_slots wrs <= wqe_cnt (sq qp).
Proof.
  intros Ha Hs Hwr Hw Hn. pose proof (wqe_stride_pos 192 a ltac:(lia) (attr_ok_typed _ Ha)) as [H64 _].
  rewrite (ss_post _ _ _ _ _ _ Hs) in Hn. pose proof (ss_size _ _ _ _ _ _ Hs).
  assert (64 * total_slots wrs <= alen wrs * wqe_stride 192 a).
  { clear Hn. unfold alen. induction Hw as [|w wrs' Hw1 Hw2 IH]; cbn [total_slots length]; [lia|].
    destruct (sized_slots _ _ _ _ _ w Ha Hs Hw1). lia. }
  pose proof (Z.mul_div_le size (wqe_stride 192 a) ltac:(lia)). nia.
Qed.

(** ** What the receive queue's size is *)

Definition sig_bytes (sig : bool) : Z := if sig then 16 else 0.

(** The bytes of the largest receive request, and the same rounded up. *)
Definition rcv_demand (a : init_attr) (sig : bool) : Z := 16 * Z.max (cap_recv_sge (ia_cap a)) 1 + sig_bytes sig.

Definition is_ooo (c : mlx5_caps) (a : init_attr) (dv : option dv_attr) : bool :=
  negb (snd (mlx5_get_max_recv_wr c a dv) =? cap_recv_wr (ia_cap a)).

(** A receive queue of [size] bytes for the capabilities of [a]. *)
Record rq_sized (c : mlx5_caps) (a : init_attr) (dv : option dv_attr) (sig : bool) (size : Z) (q : mlx5_wq) : Prop := {
  rs_shift : 4 <= wqe_shift q <= 12;
  rs_demand : rcv_demand a sig <= 2 ^ wqe_shift q <= max_rq_desc_sz c;
  rs_pow : exists k, 0 <= k <= 20 /\ wqe_cnt q = 2 ^ k;
  rs_size : size = wqe_cnt q * 2 ^ wqe_shift q /\ 64 <= size;
  rs_post : cap_recv_wr (ia_cap a) <= max_post q;
  rs_half : if is_ooo c a dv then 2 * max_post q = wqe_cnt q else max_post q = wqe_cnt q;
  rs_gs : cap_recv_sge (ia_cap a) <= max_gs q;
  rs_room : 16 * max_gs q + sig_bytes sig <= 2 ^ wqe_shift q }.

Lemma max_recv_wr_spec c a dv :
  caps_ok c -> attr_ok a -> 0 < cap_recv_wr (ia_cap a) ->
  let r := mlx5_get_max_recv_wr c a dv in
  r = (- EINVAL, 0) \/
  (fst r = 0 /\ cap_recv_wr (ia_cap a) <= 2 ^ 16 /\
   (snd r = cap_recv_wr (ia_cap a) \/ (snd r = 2 * cap_recv_wr (ia_cap a) /\ 1 < cap_recv_wr (ia_cap a)))).
Proof.
  intros Hc Ha Hw. destruct Hc as [_ _ _ Hr H1 H2 H3]. unfold mlx5_get_max_recv_wr.
  set (cap := match dv with Some d => _ | None => 0 end). set (wr := cap_recv_wr (ia_cap a)) in *.
  assert (0 <= cap <= 2 ^ 16 /\ (cap <> 0 -> 1 < wr)) as [Hcap H2w].
  { unfold cap. destruct dv as [d|]; [|lia]. destruct (has _ _); cbn [andb]; [|lia]. destruct (Z.ltb_spec 1 wr); [|lia].
    repeat destruct (_ =? _); lia. }
  clearbody cap. destruct (Z.eqb_spec cap 0); cbn [negb].
  - rewrite wrapu_small by lia. destruct (Z.ltb_spec (ctx_max_recv_wr c) wr); [by left|right]. cbn. lia.
  - destruct (Z.ltb_spec cap wr); [by left|right]. cbn [fst snd]. unfold shlu. rewrite Z.shiftl_mul_pow2, wrapu_small by lia. lia.
Qed.

Lemma rcv_wqe_spec c a qp :
  caps_ok c -> cap_recv_sge (ia_cap a) < 2 ^ 27 -> 0 <= cap_recv_sge (ia_cap a) -> ia_srq a = false ->
  let d := rcv_demand a (wq_sig qp) in
  (max_rq_desc_sz c < roundup_pow_of_two d /\ mlx5_calc_rcv_wqe c a qp = Some (- EINVAL)) \/
  (exists j, 4 <= j <= 12 /\ d <= 2 ^ j /\ mlx5_calc_rcv_wqe c a qp = Some (2 ^ j) /\ roundup_pow_of_two d = 2 ^ j).
Proof.
  intros Hc Hs Hs0 Hsrq. cbv zeta. pose proof (co_rq _ Hc) as Hq. unfold mlx5_calc_rcv_wqe, sizeof_data, sizeof_rwqe_sig. rewrite Hsrq.
  set (d := rcv_demand a (wq_sig qp)). assert (16 <= d < 2 ^ 31 + 32) by (unfold d, rcv_demand, sig_bytes; destruct (wq_sig qp); lia).
  rewrite i32_small by lia. rewrite (wrapu_small 32 (16 * _)) by lia.
  assert ((if wq_sig qp then u32 (16 * Z.max (cap_recv_sge (ia_cap a)) 1 + 16) else 16 * Z.max (cap_recv_sge (ia_cap a)) 1) = d) as ->.
  { unfold d, rcv_demand, sig_bytes. destruct (wq_sig qp); [apply wrapu_small|]; lia. }
  rewrite (wrapu_small 32 (max_rq_desc_sz c)) by lia. clearbody d. destruct (roundup_pow d) as (j & Hj & E & Hb); [lia|]. rewrite E.
  destruct (Z.ltb_spec (max_rq_desc_sz c) d); [left; split; [lia|done]|right].
  rewrite (proj2 (Z.eqb_neq d 0)) by lia.
  assert (2 ^ j = 2 * 2 ^ (j - 1)) by (change 2 with (2 ^ 1) at 2; rewrite <- Z.pow_add_r by lia; f_equal; lia).
  assert (4 <= j). { destruct (Z.le_gt_cases 4 j); [done|]. assert (2 ^ j <= 2 ^ 3) by (apply Z.pow_le_mono_r; lia). lia. }
  assert (j <= 12). { destruct (Z.le_gt_cases j 12); [done|]. assert (2 ^ 12 <= 2 ^ (j - 1)) by (apply Z.pow_le_mono_r; lia). lia. }
  assert (2 ^ j <= 2 ^ 12) by (apply Z.pow_le_mono_r; lia). exists j. rewrite i32_small by lia. split_and!; lia || done.
Qed.

Lemma roundup_from1 n : 1 <= n <= 2 ^ 30 -> exists k, 0 <= k <= 30 /\ roundup_pow_of_two n = 2 ^ k /\ n <= 2 ^ k < 2 * n.
Proof.
  intros Hn. destruct (Z.eq_dec n 1) as [->|]; [by exists 0|]. destruct (roundup_spec n) as (k & Hk & E & Hb); [lia|].
  assert (2 ^ k = 2 * 2 ^ (k - 1)) by (change 2 with (2 ^ 1) at 2; rewrite <- Z.pow_add_r by lia; f_equal; lia).
  exists k. split_and!; lia || done.
Qed.

Lemma ilog_cnt k : 0 <= k <= 30 -> ilog (u32 (2 ^ k - 1)) = k.
Proof.
  intros Hk. assert (2 ^ k <= 2 ^ 30) by (apply Z.pow_le_mono_r; lia). rewrite wrapu_small by lia.
  destruct (Z.eq_dec k 0) as [->|]; [done|]. apply ilog_pred. lia.
Qed.

Definition rq_accepts (c : mlx5_caps) (a : init_attr) (dv : option dv_attr) (sig : bool) : bool :=
  (fst (mlx5_get_max_recv_wr c a dv) =? 0) && (roundup_pow_of_two (rcv_demand a sig) <=? max_rq_desc_sz c).

(** The geometry computed from requests of [2 ^ j] bytes, [2 ^ i] of them. *)
Lemma rq_geometry c a dv sig q i j wr :
  attr_ok a -> 0 < cap_recv_wr (ia_cap a) -> 0 <= i <= 18 -> 4 <= j <= 12 ->
  rcv_demand a sig <= 2 ^ j <= max_rq_desc_sz c -> wr <= 2 ^ i ->
  wr = cap_recv_wr (ia_cap a) \/ (wr = 2 * cap_recv_wr (ia_cap a) /\ 1 < cap_recv_wr (ia_cap a)) ->
  is_ooo c a dv = negb (wr =? cap_recv_wr (ia_cap a)) ->
  let size := Z.max (2 ^ i * 2 ^ j) 64 in
  let cnt := Z.quot size (2 ^ j) in
  1 <= cnt < 2 ^ 32 /\ (wr <> cap_recv_wr (ia_cap a) -> 1 < cnt) /\
  rq_sized c a dv sig size (with_geometry q cnt j (i32 (u64 (2 ^ j - sig_bytes sig) / 16))
    (if negb (wr =? cap_recv_wr (ia_cap a)) then Z.shiftl 1 (ilog (u32 (cnt - 1)) - 1) else Z.shiftl 1 (ilog (u32 (cnt - 1))))).
Proof.
  intros Ha Hp Hi Hj Hd Hwr Hor Hooo. cbv zeta. set (e := Z.max (i + j) 6).
  assert (Z.max (2 ^ i * 2 ^ j) 64 = 2 ^ (e - j) * 2 ^ j) as ->.
  { rewrite <- !Z.pow_add_r by lia. replace (e - j + j) with e by lia. unfold e. change 64 with (2 ^ 6).
    destruct (Z.max_spec (i + j) 6) as [[? ->]|[? ->]]; [apply Z.max_r|apply Z.max_l]; apply Z.pow_le_mono_r; lia. }
  assert (2 ^ 4 <= 2 ^ j <= 2 ^ 12) as Hj2 by (split; apply Z.pow_le_mono_r; lia).
  assert (2 ^ i <= 2 ^ (e - j)) by (apply Z.pow_le_mono_r; lia). assert (2 ^ (e - j) <= 2 ^ 18) by (apply Z.pow_le_mono_r; lia).
  assert (64 <= 2 ^ (e - j) * 2 ^ j) by (rewrite <- Z.pow_add_r by lia; change 64 with (2 ^ 6); apply Z.pow_le_mono_r; lia).
  rewrite Z.quot_mul, !ilog_cnt by lia. split; [lia|].
  assert (wr <> cap_recv_wr (ia_cap a) -> 2 <= e - j /\ 2 ^ (e - j) = 2 * 2 ^ (e - j - 1)) as Hbig.
  { intros Hne. destruct Hor as [?|[Hor Hw1]]; [lia|]. assert (2 <= e - j).
    { destruct (Z.le_gt_cases 2 (e - j)); [done|]. assert (2 ^ (e - j) <= 2 ^ 1) by (apply Z.pow_le_mono_r; lia). lia. }
    split; [done|]. change 2 with (2 ^ 1) at 2. rewrite <- Z.pow_add_r by lia. f_equal. lia. }
  assert (16 * cap_recv_sge (ia_cap a) + sig_bytes sig <= 2 ^ j /\ 0 <= sig_bytes sig <= 16) as [Hg1 Hg2] by (unfold rcv_demand, sig_bytes in *; destruct sig; lia).
  assert (2 ^ j = 16 * 2 ^ (j - 4)) by (change 16 with (2 ^ 4); rewrite <- Z.pow_add_r by lia; f_equal; lia).
  split; [intros Hne; destruct (Hbig Hne); lia|]. rewrite (wrapu_small 64), i32_small by dlia.
  split; cbn [with_geometry wqe_shift wqe_cnt max_post max_gs]; rewrite ?Hooo; try done; try dlia.
  - exists (e - j). lia.
  - destruct (Z.eqb_spec wr (cap_recv_wr (ia_cap a))) as [|Hne]; cbn [negb]; rewrite ?Z.shiftl_1_l; [lia|]. destruct (Hbig Hne). lia.
  - destruct (Z.eqb_spec wr (cap_recv_wr (ia_cap a))) as [|Hne]; cbn [negb]; rewrite ?Z.shiftl_1_l; [lia|]. destruct (Hbig Hne). lia.
Qed.

(** C24: The size of a receive queue without a shared receive queue: the
    capabilities are refused with [-EINVAL] exactly when the number of requests
    or the size of one exceeds the device's limits, and otherwise the ring is a
    power of two of power-of-two strides that hold the data segments asked for,
    with the signature if there is one; as many requests as asked for may be
    outstanding, and at most as many as the ring has, or half of them when the
    device may complete out of order, so that a request is never overwritten
    before it is consumed. *)
Theorem calc_rq_size_spec c a dv qp :
  caps_ok c -> attr_ok a -> 0 < cap_recv_wr (ia_cap a) -> cap_recv_sge (ia_cap a) < 2 ^ 27 -> ia_srq a = false ->
  exists ret qp', mlx5_calc_rq_size c a dv qp = Some (ret, qp') /\
    if rq_accepts c a dv (wq_sig qp) then rq_sized c a dv (wq_sig qp) ret (rq qp') else ret = - EINVAL.
Proof.
  intros Hc Ha Hp Hs Hsrq. pose proof (ao_rsge _ Ha) as Hs0. unfold in_width in Hs0. pose proof (co_rq _ Hc).
  unfold mlx5_calc_rq_size, rq_accepts. rewrite (proj2 (Z.eqb_neq _ 0)) by lia.
  pose proof (max_recv_wr_spec c a dv Hc Ha Hp) as Hm. cbv zeta in Hm. assert (is_ooo c a dv = negb (snd (mlx5_get_max_recv_wr c a dv) =? cap_recv_wr (ia_cap a))) as Hooo by done.
  destruct (mlx5_get_max_recv_wr c a dv) as [r wr]. cbn [fst snd] in *.
  destruct Hm as [Hm|(-> & Hw16 & Hor)]; [injection Hm as -> ->; by eexists _, _|]. cbn [Z.ltb Z.eqb Z.compare andb].
  destruct (rcv_wqe_spec c a qp Hc Hs ltac:(lia) Hsrq) as [[Hd E]|(j & Hj & Hd & E & ->)]; rewrite E; cbn [mbind option_bind].
  { rewrite (proj2 (Z.leb_gt _ _)) by lia. by eexists _, _. }
  assert (2 ^ 4 <= 2 ^ j <= 2 ^ 12) as Hj2 by (split; apply Z.pow_le_mono_r; lia).
  rewrite (proj2 (Z.ltb_ge (2 ^ j) 0)) by lia. cbn [orb]. destruct (Z.ltb_spec (max_rq_desc_sz c) (2 ^ j)) as [Hgt|Hfit].
  { rewrite (proj2 (Z.leb_gt _ _)) by lia. by eexists _, _. }
  rewrite (proj2 (Z.leb_le (2 ^ j) _)), (proj2 (Z.eqb_neq wr 0)), (proj2 (Z.eqb_neq (2 ^ j) 0)) by lia. cbn [negb].
  destruct (roundup_from1 wr) as (i & Hi & -> & Hwr); [lia|].
  assert (i <= 18). { destruct (Z.le_gt_cases i 18); [done|]. assert (2 ^ 19 <= 2 ^ i) by (apply Z.pow_le_mono_r; lia). lia. }
  assert (2 ^ i <= 2 ^ 18) by (apply Z.pow_le_mono_r; lia). rewrite (i32_u64 (2 ^ i * 2 ^ j)) by nia.
  destruct (rq_geometry c a dv (wq_sig qp) (rq qp) i j wr Ha Hp ltac:(lia) Hj ltac:(lia) ltac:(lia) Hor Hooo) as (Hcnt & Hbig & Hsz).
  unfold MLX5_SEND_WQE_BB. set (cnt := Z.quot _ (2 ^ j)) in *. rewrite (wrapu_small 32 cnt) by lia.
  rewrite (ilog_cnt j), (proj2 (Z.ltb_lt 0 cnt)) by lia.
  change (if wq_sig qp then sizeof_rwqe_sig else 0) with (sig_bytes (wq_sig qp)). assert (0 <= sig_bytes (wq_sig qp) <= 16) by (destruct (wq_sig qp); cbn; lia).
  rewrite (i32_u64 (2 ^ j - _)) by lia. set (post := if negb _ then _ else _) in Hsz.
  assert (max_post (with_geometry (rq qp) cnt j (i32 (u64 (2 ^ j - sig_bytes (wq_sig qp)) / 16)) post) = u32 post) as Hpost.
  { pose proof (rs_half _ _ _ _ _ _ Hsz) as Hh. pose proof (rs_post _ _ _ _ _ _ Hsz) as Hq. cbn in Hh, Hq |- *. symmetry. apply wrapu_small.
    destruct (is_ooo c a dv); lia. }
  cbn [with_geometry max_post] in Hpost. rewrite Hpost in Hsz.
  exists (Z.max (2 ^ i * 2 ^ j) 64). destruct (Z.eqb_spec wr (cap_recv_wr (ia_cap a))) as [|Hne]; cbn [negb] in *.
  - eexists. split; [reflexivity|]. exact Hsz.
  - rewrite (proj2 (Z.ltb_lt 1 cnt)) by auto. eexists. split; [reflexivity|]. exact Hsz.
Qed.

Lemma calc_rq_size_spec_witness :
  exists qp', mlx5_calc_rq_size sample_caps (sample_attr IBV_QPT_RC 100 3 0) (Some (DvAttr 0 128 0 0 0 0 0)) (blank_qp IBV_QPT_RC) = Some (16384, qp') /\
    rq_sized sample_caps (sample_attr IBV_QPT_RC 100 3 0) (Some (DvAttr 0 128 0 0 0 0 0)) false 16384 (rq qp') /\
    wqe_cnt (rq qp') = 256 /\ max_post (rq qp') = 128.
Proof.
  destruct (calc_rq_size_spec sample_caps (sample_attr IBV_QPT_RC 100 3 0) (Some (DvAttr 0 128 0 0 0 0 0)) (blank_qp IBV_QPT_RC)
    sample_caps_ok ltac:(split; cbn; unfold in_width; lia) ltac:(cbn; lia) ltac:(cbn; lia) eq_refl) as (ret & qp' & E & H).
  vm_compute in E. injection E as <- <-. eexists. split; [vm_compute; reflexivity|]. split; [exact H|by vm_compute].
Defined.

(** ** Capabilities that wrap around *)

(** An inline size of two gigabytes or more makes [inl_size] negative: the
    queue is created as if no inline data had been asked for. *)
Lemma inline_request_wraps :
  exists a' qp', mlx5_calc_sq_size sample_caps 0 (sample_attr IBV_QPT_RC 1 4 0xfffffff0) None (blank_qp IBV_QPT_RC)
    = Some (256, a', qp') /\ cap_inline (ia_cap a') = 60.
Proof. eexists _, _. split; vm_compute; reflexivity. Qed.

(** Requests that the overhead fills leave [max_inline_data] at -4, which is
    reported to the application as an inline size of four gigabytes. *)
Lemma inline_reported_wraps :
  exists a' qp', mlx5_calc_sq_size sample_caps 0 (sample_attr IBV_QPT_RC 1 0 0) None (blank_qp IBV_QPT_RC)
    = Some (256, a', qp') /\ max_inline_data qp' = -4 /\ cap_inline (ia_cap a') = 0xfffffffc.
Proof. eexists _, _. split_and!; vm_compute; reflexivity. Qed.

(** A TSO header larger than a request makes the gather limit wrap to a huge
    unsigned value, after which a number of data segments can be chosen that
    wraps the request's size to 0: the rounding shifts by the full width and
    the ring's size is divided by zero. *)
Lemma tso_header_wraps :
  mlx5_calc_sq_size sample_caps 0 (InitAttr IBV_QPT_RAW_PACKET 9 (Cap 1 0 268431357 0 0) false 0 65535) None
    (blank_qp IBV_QPT_RAW_PACKET) = None.
Proof. vm_compute. reflexivity. Qed.

(** So does a receive request of [2 ^ 28] data segments. *)
Lemma recv_sge_wraps :
  mlx5_calc_rq_size sample_caps (InitAttr IBV_QPT_RC 1 (Cap 0 1 0 (2 ^ 28) 0) false 0 0) None (blank_qp IBV_QPT_RC) = None.
Proof. vm_compute. reflexivity. Qed.

(** A work queue of [2 ^ 28] requests is created with four of them. *)
Lemma rwq_size_wraps :
  exists q, mlx5_calc_rwq_size sample_caps blank_wq false (2 ^ 28) 1 None = Some (64, q) /\ wqe_cnt q = 4 /\ max_post q = 4.
Proof. eexists. split_and!; vm_compute; reflexivity. Qed.
