(* ===== verification/Dbrec.v ===== *)
(** providers/mlx5/dbrec.c: the doorbell records.

    The records of a context live in pages, one record per cache line; a page
    has the bitmap of its free records and the number in use.  Pages are found
    by the address of their buffer in a map ([cl_qmap] of util/cl_map.c, here a
    finite map), and the pages with a free record are in a list.  The theorems
    show that the allocator is a set of addresses: a record is handed out to
    one user at a time, on a cache line of its own inside a live page, and a
    page is given back with its last record. *)

From S2P Require Import Prelude Util Sums Bitmap.

Record mlx5_db_page := DbPage { pg_buf : Z; num_db : Z; use_cnt : Z; pg_free : list Z }.

(** The map of the pages, and the addresses of the pages in the list. *)
Record dbr := Dbr { dbr_map : gmap Z mlx5_db_page; dbr_available : list Z }.

(** What the allocator of a parent domain returns. *)
Inductive custom_alloc := UseDefault | CustomDb (addr : Z).

(** The memory the allocators give: whether [malloc] succeeds, and the address
    of the page's buffer, [None] for a failure. *)
Record page_mem := PageMem { pm_malloc : bool; pm_buf : option Z }.

(** The first word that is not 0, from word [i] on; the loop has no bound. *)
Fixpoint first_free_word (ws : list Z) (i : Z) : option Z :=
  match ws with
  | [] => None
  | w :: ws' => if w =? 0 then first_free_word ws' (i + 1) else Some i
  end.

Section Allocator.

(** The size of a page, and of a cache line. *)
Context (ps cache_line_size : Z).

Definition __add_page (pm : page_mem) (s : dbr) : option (Z * dbr) :=
  let pp := Z.quot ps cache_line_size in
  let nlong := (pp + 8 * 8 - 1) / (8 * 8) in
  if negb (pm_malloc pm) then None else
  b ← pm_buf pm;
  let page := DbPage b pp 0 (replicate (Z.to_nat nlong) ULONG_MAX) in
  Some (b, Dbr (<[b := page]> (dbr_map s)) (b :: dbr_available s)).

(** Takes a record of the page at [key]. *)
Definition take_record (key : Z) (s : dbr) : option (Z * dbr) :=
  page ← dbr_map s !! key;
  let cnt := use_cnt page + 1 in
  let available := if cnt =? num_db page then filter (fun k => k <> key) (dbr_available s) else dbr_available s in
  i ← first_free_word (pg_free page) 0;
  w ← (pg_free page).[i];
  let j := ffsl w - 1 in
  free ← amod (pg_free page) i (fun w => Z.land w (notu 64 (shlu 64 1 j)));
  let page := DbPage (pg_buf page) (num_db page) cnt free in
  Some (pg_buf page + (i * 8 * 8 + j) * cache_line_size, Dbr (<[key := page]> (dbr_map s)) available).

(** The record (0 is NULL), whether it is a custom one, and the new state. *)
Definition mlx5_alloc_dbrec (custom : option custom_alloc) (pm : page_mem) (s : dbr) : option (Z * bool * dbr) :=
  match custom with
  | Some (CustomDb db) => Some (db, negb (db =? 0), s)
  | _ =>
    match dbr_available s with
    | key :: _ => r ← take_record key s; Some (fst r, false, snd r)
    | [] =>
      match __add_page pm s with
      | None => Some (0, false, s)
      | Some (key, s) => r ← take_record key s; Some (fst r, false, snd r)
      end
    end
  end.

(** A custom record goes back to the allocator of the domain. *)
Definition mlx5_free_db (custom : bool) (db : Z) (s : dbr) : option dbr :=
  if custom then Some s else
  let key := Z.land db (notu 64 (ps - 1)) in
  page ← dbr_map s !! key;
  let i := Z.quot (db - pg_buf page) cache_line_size in
  free ← amod (pg_free page) (i / (8 * 8)) (fun w => Z.lor w (shlu 64 1 (i mod (8 * 8))));
  let available := if use_cnt page =? num_db page then key :: dbr_available s else dbr_available s in
  let cnt := use_cnt page - 1 in
  if cnt =? 0 then Some (Dbr (delete key (dbr_map s)) (filter (fun k => k <> key) available))
  else Some (Dbr (<[key := DbPage (pg_buf page) (num_db page) cnt free]> (dbr_map s)) available).

(** ** The set of records in use *)

(** A page of [ps] bytes holds a whole number of cache lines. *)
Record geometry : Prop := {
  ge_ps : exists e, 0 <= e <= 32 /\ ps = 2 ^ e;
  ge_cl : 0 < cache_line_size;
  ge_div : ps mod cache_line_size = 0 }.

Record page_ok (key : Z) (p : mlx5_db_page) : Prop := {
  po_buf : pg_buf p = key;
  po_key : key mod ps = 0 /\ 0 < key /\ key + ps <= 2 ^ 64;
  po_num : num_db p * cache_line_size = ps;
  po_bits : bitmap_ok (pg_free p) /\ num_db p <= 64 * alen (pg_free p);
  po_use : use_cnt p = zsum (Z.to_nat (num_db p)) (fun i => b2z (negb (bitmap_bit (pg_free p) i))) }.

Record dbr_inv (s : dbr) : Prop := {
  di_pages : forall key p, dbr_map s !! key = Some p -> page_ok key p;
  di_nodup : NoDup (dbr_available s);
  di_avail : forall key, key ∈ dbr_available s <-> exists p, dbr_map s !! key = Some p /\ use_cnt p < num_db p }.

(** Between calls every page has a record in use. *)
Definition dbr_ok (s : dbr) : Prop :=
  dbr_inv s /\ forall key p, dbr_map s !! key = Some p -> 1 <= use_cnt p.

(** The record [i] of the page at [key] is in use. *)
Definition in_use (s : dbr) (key i : Z) : Prop :=
  exists p, dbr_map s !! key = Some p /\ 0 <= i < num_db p /\ bitmap_bit (pg_free p) i = false.

Definition represents (s : dbr) (S : gset Z) : Prop :=
  forall db, db ∈ S <-> exists key i, in_use s key i /\ db = key + i * cache_line_size.

(** A buffer the allocator may return: a page that is not in use. *)
Definition fresh_page (s : dbr) (pm : page_mem) : Prop :=
  forall b, pm_buf pm = Some b -> b mod ps = 0 /\ 0 < b /\ b + ps <= 2 ^ 64 /\ dbr_map s !! b = None.

(** ** Free records *)

Lemma first_free_word_spec ws i0 k :
  0 <= k -> default 0 ws.[k] <> 0 ->
  exists i w, first_free_word ws i0 = Some (i0 + i) /\ 0 <= i <= k /\ ws.[i] = Some w /\ w <> 0.
Proof.
  revert i0 k. induction ws as [|w ws IH]; intros i0 k Hk Hw; [unfold aget in Hw; by destruct (0 <=? k)|].
  cbn [first_free_word]. destruct (Z.eqb_spec w 0) as [->|].
  - destruct (Z.eq_dec k 0) as [->|]; [done|]. destruct (IH (i0 + 1) (k - 1)) as (i & w & E & Hi & Ew & Hw'); [lia| |].
    + rewrite aget_lookup in * by lia. replace (Z.to_nat k) with (S (Z.to_nat (k - 1))) in Hw by lia. done.
    + exists (i + 1), w. rewrite E. split_and!; [f_equal; lia|lia|lia| |done].
      rewrite aget_lookup in * by lia. by replace (Z.to_nat (i + 1)) with (S (Z.to_nat i)) by lia.
  - exists 0, w. rewrite Z.add_0_r. split_and!; done || lia.
Qed.

(** The search finds the first free record. *)
Lemma first_free b m :
  bitmap_ok b -> 0 <= m -> bitmap_bit b m = true ->
  exists i w, first_free_word b 0 = Some i /\ b.[i] = Some w /\ 0 <= i /\ 0 <= ffsl w - 1 < 64 /\
    bitmap_bit b (64 * i + (ffsl w - 1)) = true /\ 64 * i + (ffsl w - 1) <= m.
Proof.
  intros Hb Hm Hbit. unfold bitmap_bit in Hbit. destruct (b.[m / 64]) as [v|] eqn:Ev; [|done].
  destruct (first_free_word_spec b 0 (m / 64)) as (i & w & E & Hi & Ew & Hw); [dlia| |].
  { rewrite Ev. cbn. intros ->. by rewrite Z.testbit_0_l in Hbit. }
  pose proof (bitmap_width b i w Hb Ew) as Hwid. unfold in_width in Hwid.
  destruct (ffsl_spec w) as (Hf1 & Hf2 & Hf3); [lia|].
  assert (ffsl w - 1 < 64). { destruct (Z.lt_ge_cases (ffsl w - 1) 64); [done|]. by rewrite (testbit_high 64 w) in Hf2 by lia. }
  exists i, w. split_and!; try lia; try done.
  - by rewrite (bitmap_bit_word b i w) by (done || lia).
  - destruct (Z.eq_dec i (m / 64)) as [->|]; [|dlia]. rewrite Ev in Ew. injection Ew as ->.
    destruct (Z.le_gt_cases (ffsl w - 1) (m mod 64)); [dlia|]. rewrite Hf3 in Hbit by dlia. done.
Qed.

Context (G : geometry).

(** The address of a record determines its page and its number. *)
Lemma record_address key p i :
  page_ok key p -> 0 <= i < num_db p ->
  (key + i * cache_line_size) mod ps = i * cache_line_size /\
  Z.land (key + i * cache_line_size) (notu 64 (ps - 1)) = key /\ in_width 64 (key + i * cache_line_size).
Proof.
  intros Hp Hi. destruct G as [(e & He & Hps) Hcl _], Hp as [_ (Hk & Hk0 & Hk64) Hn _ _].
  assert (0 < 2 ^ e) by lia. assert (0 <= i * cache_line_size < ps) by nia.
  assert ((key + i * cache_line_size) mod ps = i * cache_line_size) as Hmod by (rewrite Z.add_mod, Hk, Z.add_0_l, Z.mod_mod, Z.mod_small; lia).
  split_and!; try (unfold in_width; lia). rewrite Hps, land_notu_pow by (unfold in_width; lia). rewrite <- Hps. dlia.
Qed.

Lemma record_unique key p i key' p' i' :
  page_ok key p -> page_ok key' p' -> 0 <= i < num_db p -> 0 <= i' < num_db p' ->
  key + i * cache_line_size = key' + i' * cache_line_size -> key = key' /\ i = i'.
Proof.
  intros Hp Hp' Hi Hi' E. destruct (record_address key p i) as (Hm & Hk & _), (record_address key' p' i') as (Hm' & Hk' & _); try done.
  rewrite E in Hm, Hk. pose proof (ge_cl G). split; [congruence|]. nia.
Qed.

(** The number of records in use follows the bitmap. *)
Lemma use_count_update (b b' : list Z) n i (v : bool) :
  0 <= i < n -> bitmap_bit b i = negb v -> (forall j, 0 <= j -> bitmap_bit b' j = if j =? i then v else bitmap_bit b j) ->
  zsum (Z.to_nat n) (fun j => b2z (negb (bitmap_bit b' j))) =
  zsum (Z.to_nat n) (fun j => b2z (negb (bitmap_bit b j))) + (if v then -1 else 1).
Proof.
  intros Hi Hv Hb. rewrite (zsum_update _ i (fun j => b2z (negb (bitmap_bit b j)))).
  - f_equal. rewrite Hb, Z.eqb_refl, Hv by lia. by destruct v.
  - lia.
  - intros j Hj Hne. rewrite Hb by lia. by rewrite (proj2 (Z.eqb_neq j i)).
Qed.

Lemma use_cnt_range key p : page_ok key p -> 0 <= use_cnt p <= num_db p /\ 0 < num_db p.
Proof.
  intros [_ _ Hn _ Hu]. destruct G as [(e & He & Hps) Hcl _]. assert (0 < 2 ^ e) by lia. assert (0 < num_db p) by nia.
  split; [|done]. rewrite Hu. split.
  - apply zsum_nonneg. intros i _. by destruct (bitmap_bit _ _).
  - rewrite <- (Z.mul_1_l (num_db p)) at 2. rewrite <- (Z2Nat.id (num_db p)) at 2 by lia. rewrite <- zsum_const.
    apply zsum_le. intros i _. by destruct (bitmap_bit _ _).
Qed.

Lemma free_record_exists key p :
  page_ok key p -> use_cnt p < num_db p -> exists i, 0 <= i < num_db p /\ bitmap_bit (pg_free p) i = true.
Proof.
  intros Hp Hlt. destruct (use_cnt_range _ _ Hp) as [_ Hpos]. destruct Hp as [_ _ _ _ Hu].
  destruct (zsum_pos_ex (Z.to_nat (num_db p)) (fun i => b2z (bitmap_bit (pg_free p) i))) as (i & Hi & Hb).
  - assert (zsum (Z.to_nat (num_db p)) (fun i => b2z (negb (bitmap_bit (pg_free p) i)) + b2z (bitmap_bit (pg_free p) i)) = num_db p) as Hs.
    { rewrite (zsum_ext _ _ (fun _ => 1)) by (intros i _; by destruct (bitmap_bit _ _)). rewrite zsum_const. lia. }
    rewrite zsum_plus in Hs. lia.
  - exists i. split; [lia|]. by destruct (bitmap_bit _ _).
Qed.

(** The state after a record of the page at [key] changed hands. *)
Definition put_page (s : dbr) (key : Z) (p : mlx5_db_page) (available : list Z) : dbr :=
  Dbr (<[key := p]> (dbr_map s)) available.

Lemma take_record_spec key s p :
  dbr_map s !! key = Some p -> page_ok key p -> use_cnt p < num_db p ->
  exists i free, 0 <= i < num_db p /\ bitmap_bit (pg_free p) i = true /\
    (forall j, 0 <= j -> bitmap_bit free j = if j =? i then false else bitmap_bit (pg_free p) j) /\
    page_ok key (DbPage key (num_db p) (use_cnt p + 1) free) /\
    take_record key s = Some (key + i * cache_line_size,
      put_page s key (DbPage key (num_db p) (use_cnt p + 1) free)
        (if use_cnt p + 1 =? num_db p then filter (fun k => k <> key) (dbr_available s) else dbr_available s)).
Proof.
  intros Hs Hp Hlt. destruct (free_record_exists key p Hp Hlt) as (m & Hm & Hbit).
  destruct Hp as [Hbuf Hkey Hn [Hok Hlen] Hu]. destruct (first_free (pg_free p) m) as (i & w & E & Ew & Hi & Hj & Hfree & Hle); [done|lia|done|].
  destruct (clear_bit_bits (pg_free p) (64 * i + (ffsl w - 1))) as (b & Eb & Hbok & Hblen & Hbits); [done|lia|].
  exists (64 * i + (ffsl w - 1)), b. split_and!; [lia|lia|done|done| |].
  - split; cbn [pg_buf num_db use_cnt pg_free]; try done; [by rewrite Hblen|].
    rewrite (use_count_update (pg_free p) b (num_db p) (64 * i + (ffsl w - 1)) false), Hu by (done || lia). done.
  - unfold take_record. rewrite Hs. cbn [mbind option_bind]. rewrite E. cbn [mbind option_bind]. rewrite Ew. cbn [mbind option_bind].
    unfold bitmap_clear_bit, BITS_PER_LONG in Eb.
    replace ((64 * i + (ffsl w - 1)) / 64) with i in Eb by dlia. replace ((64 * i + (ffsl w - 1)) mod 64) with (ffsl w - 1) in Eb by dlia.
    rewrite Eb. cbn [mbind option_bind pg_buf]. rewrite Hbuf. unfold put_page. by replace (i * 8 * 8) with (64 * i) by lia.
Qed.

(** Changing one page keeps the rest of the state. *)
Lemma put_page_inv s key p p' av :
  dbr_inv s -> dbr_map s !! key = Some p -> page_ok key p' -> NoDup av ->
  (key ∈ av <-> use_cnt p' < num_db p') -> (forall k, k <> key -> k ∈ av <-> k ∈ dbr_available s) ->
  dbr_inv (put_page s key p' av).
Proof.
  intros [Hp Hn Ha] Hs Hp' Hav Hkey Hoth. split; cbn [put_page dbr_map dbr_available]; [|done|].
  - intros k q. destruct (decide (k = key)) as [->|]; [rewrite lookup_insert_eq; naive_solver|]. rewrite lookup_insert_ne by done. apply Hp.
  - intros k. destruct (decide (k = key)) as [->|].
    + rewrite lookup_insert_eq, Hkey. naive_solver.
    + rewrite lookup_insert_ne, Hoth, Ha by done. done.
Qed.

Lemma in_use_put s key p p' av k i :
  dbr_map s !! key = Some p -> num_db p' = num_db p ->
  in_use (put_page s key p' av) k i <->
  if decide (k = key) then 0 <= i < num_db p /\ bitmap_bit (pg_free p') i = false else in_use s k i.
Proof.
  intros Hs Hn. unfold in_use. cbn [put_page dbr_map]. destruct (decide (k = key)) as [->|].
  - rewrite lookup_insert_eq. rewrite <- Hn. naive_solver.
  - by rewrite lookup_insert_ne by done.
Qed.

Lemma take_record_refines key s S p :
  dbr_inv s -> represents s S -> dbr_map s !! key = Some p -> use_cnt p < num_db p ->
  exists db s', take_record key s = Some (db, s') /\ dbr_inv s' /\
    (forall k q, dbr_map s' !! k = Some q -> 1 <= use_cnt q \/ (k <> key /\ dbr_map s !! k = Some q)) /\
    (db ∉ S) /\ represents s' ({[db]} ∪ S) /\ (db mod ps) mod cache_line_size = 0 /\ 0 < db.
Proof.
  intros Hinv Hrep Hs Hlt. pose proof (di_pages _ Hinv _ _ Hs) as Hp.
  destruct (take_record_spec key s p Hs Hp Hlt) as (i & b & Hi & Hfree & Hbits & Hp' & E).
  set (p' := DbPage key (num_db p) (use_cnt p + 1) b) in *. pose proof (use_cnt_range _ _ Hp) as [Hu _].
  eexists _, _. split; [exact E|]. pose proof (record_address _ _ _ Hp Hi) as (Hm & _ & Hr).
  assert (0 < key) by apply (po_key _ _ Hp). pose proof (ge_cl G).
  split_and!; [| | | |rewrite Hm; apply Z_mod_mult|nia].
  - apply (put_page_inv _ _ p); [done..| | |]; destruct (Z.eqb_spec (use_cnt p + 1) (num_db p)); try apply NoDup_filter; try apply Hinv.
    + cbn. rewrite list_elem_of_filter. naive_solver lia.
    + cbn. rewrite (di_avail _ Hinv). split; [lia|]. intros _. by exists p.
    + intros k Hk. rewrite list_elem_of_filter. naive_solver.
    + done.
  - intros k q. cbn [put_page dbr_map]. destruct (decide (k = key)) as [->|].
    + rewrite lookup_insert_eq. intros [= <-]. left. cbn. lia.
    + rewrite lookup_insert_ne by done. by right.
  - intros (key' & i' & (p2 & Hs2 & Hi2 & Hb2) & Eq)%Hrep.
    destruct (record_unique key p i key' p2 i') as [<- <-]; try done; [by apply Hinv|]. rewrite Hs in Hs2. injection Hs2 as <-. congruence.
  - intros db. rewrite elem_of_union, elem_of_singleton, (Hrep db). split.
    + intros [->|(k & j & Hu' & ->)].
      * exists key, i. rewrite (in_use_put _ _ p) by done. rewrite decide_True by done. cbn. rewrite Hbits, Z.eqb_refl by lia. done.
      * exists k, j. rewrite (in_use_put _ _ p) by done. split; [|done]. destruct (decide (k = key)) as [->|]; [|done].
        destruct Hu' as (q & Hq & Hj & Hbj). rewrite Hs in Hq. injection Hq as <-. cbn. rewrite Hbits by lia. destruct (j =? i); done.
    + intros (k & j & Hu' & ->). rewrite (in_use_put _ _ p) in Hu' by done. destruct (decide (k = key)) as [->|]; [|right; by exists k, j].
      destruct Hu' as [Hj Hbj]. cbn in Hbj. rewrite Hbits in Hbj by lia. destruct (Z.eqb_spec j i) as [->|]; [by left|right].
      exists key, j. split; [by exists p|done].
Qed.

(** A new page has all its records free. *)
Lemma add_page_inv pm s S b :
  dbr_inv s -> represents s S -> fresh_page s pm -> pm_malloc pm = true -> pm_buf pm = Some b ->
  exists p s1, __add_page pm s = Some (b, s1) /\ dbr_inv s1 /\ represents s1 S /\
    dbr_map s1 !! b = Some p /\ use_cnt p < num_db p /\ (forall k q, k <> b -> dbr_map s1 !! k = Some q -> dbr_map s !! k = Some q).
Proof.
  intros Hinv Hrep Hf Hm Hb. destruct (Hf b Hb) as (Hb1 & Hb2 & Hb3 & Hnone). destruct G as [(e & He & Hps) Hcl Hdiv].
  unfold __add_page. rewrite Hm, Hb. cbn [negb mbind option_bind]. set (n := Z.quot ps cache_line_size).
  assert (n * cache_line_size = ps /\ 0 < n <= 2 ^ 32) as [Hn Hn32].
  { assert (0 < 2 ^ e <= 2 ^ 32) by (split; [lia|apply Z.pow_le_mono_r; lia]). unfold n. rewrite Z.quot_div_nonneg by lia. dnia. }
  change (8 * 8) with 64. set (len := (n + 64 - 1) / 64). assert (n <= 64 * len < n + 64) by (unfold len; dlia).
  assert (alen (replicate (Z.to_nat len) ULONG_MAX) = len) as Hlen by (unfold alen; rewrite length_replicate; lia).
  assert (forall i, 0 <= i < n -> bitmap_bit (replicate (Z.to_nat len) ULONG_MAX) i = true) as Hall.
  { intros i Hi. unfold bitmap_bit. rewrite aget_replicate by dlia. rewrite testbit_ULONG_MAX by dlia. dlia. }
  eexists _, _. split; [reflexivity|]. split_and!.
  - split; cbn [dbr_map dbr_available].
    + intros k p. destruct (decide (k = b)) as [->|]; [|rewrite lookup_insert_ne by done; apply Hinv].
      rewrite lookup_insert_eq. intros [= <-]. split; cbn; try done.
      * rewrite Hlen. split; [split|lia]; [apply Forall_replicate, ULONG_MAX_width|lia].
      * symmetry. apply zsum_zero. intros i Hi. by rewrite Hall by lia.
    + apply NoDup_cons. split; [|apply Hinv]. rewrite (di_avail _ Hinv), Hnone. naive_solver.
    + intros k. rewrite elem_of_cons, (di_avail _ Hinv). destruct (decide (k = b)) as [->|].
      * rewrite lookup_insert_eq. split; [intros _|by left]. eexists. split; [done|]. cbn. lia.
      * rewrite lookup_insert_ne by done. naive_solver.
  - intros db. rewrite (Hrep db). split; intros (k & i & (p & Hp & Hi & Hbit) & ->); exists k, i; (split; [|done]); exists p; (split; [|done]).
    + cbn. rewrite lookup_insert_ne by congruence. done.
    + cbn in Hp. destruct (decide (k = b)) as [->|]; [|by rewrite lookup_insert_ne in Hp by done].
      rewrite lookup_insert_eq in Hp. injection Hp as <-. cbn in Hi, Hbit. by rewrite Hall in Hbit by lia.
  - cbn. by rewrite lookup_insert_eq.
  - cbn. lia.
  - intros k q Hk. cbn. by rewrite lookup_insert_ne by done.
Qed.

(** What an allocation that is not a custom one does. *)
Definition alloc_outcome (s : dbr) (pm : page_mem) (S : gset Z) (db : Z) (s' : dbr) : Prop :=
  dbr_ok s' /\
  ((db = 0 /\ s' = s /\ dbr_available s = [] /\ (pm_malloc pm = false \/ pm_buf pm = None)) \/
   ((db ∉ S) /\ represents s' ({[db]} ∪ S) /\ (db mod ps) mod cache_line_size = 0 /\ 0 < db)).

Lemma alloc_refines pm s S :
  dbr_ok s -> represents s S -> fresh_page s pm ->
  exists db s', mlx5_alloc_dbrec None pm s = Some (db, false, s') /\ alloc_outcome s pm S db s'.
Proof.
  intros [Hinv Hused] Hrep Hf. unfold mlx5_alloc_dbrec. destruct (dbr_available s) as [|key av] eqn:Eav.
  - destruct (pm_malloc pm) eqn:Em; [|].
    2:{ unfold __add_page. rewrite Em. cbn. exists 0, s. split; [done|]. split; [done|]. left. auto. }
    destruct (pm_buf pm) as [b|] eqn:Eb.
    2:{ unfold __add_page. rewrite Em, Eb. cbn. exists 0, s. split; [done|]. split; [done|]. left. auto. }
    destruct (add_page_inv pm s S b Hinv Hrep Hf Em Eb) as (p & s1 & -> & Hinv1 & Hrep1 & Hs1 & Hlt & Hold).
    destruct (take_record_refines b s1 S p Hinv1 Hrep1 Hs1 Hlt) as (db & s' & E & Hinv' & Hu & Hnew).
    rewrite E. exists db, s'. split; [done|]. split; [split; [done|]|by right].
    intros k q Hq. destruct (Hu k q Hq) as [?|[Hk Hq1]]; [done|]. apply (Hused k q). by apply Hold.
  - assert (key ∈ dbr_available s) as Hin by (rewrite Eav; left). apply (di_avail _ Hinv) in Hin as (p & Hp & Hlt).
    destruct (take_record_refines key s S p Hinv Hrep Hp Hlt) as (db & s' & E & Hinv' & Hu & Hnew).
    rewrite E. exists db, s'. split; [done|]. split; [split; [done|]|by right].
    intros k q Hq. destruct (Hu k q Hq) as [?|[Hk Hq1]]; [done|]. by apply (Hused k q).
Qed.

(** The bitmap of the page after record [i] was given back. *)
Lemma give_back_page key p i :
  page_ok key p -> 0 <= i < num_db p -> bitmap_bit (pg_free p) i = false ->
  exists free, bitmap_set_bit (pg_free p) i = Some free /\
    (forall j, 0 <= j -> bitmap_bit free j = if j =? i then true else bitmap_bit (pg_free p) j) /\
    page_ok key (DbPage key (num_db p) (use_cnt p - 1) free).
Proof.
  intros [Hbuf Hkey Hn [Hok Hlen] Hu] Hi Hb. destruct (set_bit_bits (pg_free p) i) as (b & Eb & Hbok & Hblen & Hbits); [done|lia|].
  exists b. split_and!; [done|done|]. split; cbn [pg_buf num_db use_cnt pg_free]; try done; [by rewrite Hblen|].
  rewrite (use_count_update (pg_free p) b (num_db p) i true), Hu by (done || lia). lia.
Qed.

(** The records in use after record [i] of page [key] was given back. *)
Lemma represents_without s s' S key p i :
  dbr_inv s -> represents s S -> dbr_map s !! key = Some p -> 0 <= i < num_db p ->
  (forall k j, in_use s' k j <-> in_use s k j /\ ~ (k = key /\ j = i)) ->
  represents s' (S ∖ {[key + i * cache_line_size]}).
Proof.
  intros Hinv Hrep Hs Hi H db. rewrite elem_of_difference, elem_of_singleton, (Hrep db). split.
  - intros [(k & j & Hu & ->) Hne]. exists k, j. rewrite H. split; [split; [done|]|done]. by intros [-> ->].
  - intros (k & j & Hu & ->). apply H in Hu as [Hu Hne]. split; [by exists k, j|]. intros Eq. apply Hne.
    destruct Hu as (q & Hq & Hj & _). eapply (record_unique k q j key p i); try done; by apply Hinv.
Qed.

(** The last record of a page takes the page with it. *)
Lemma free_last s S key p i :
  dbr_ok s -> represents s S -> dbr_map s !! key = Some p -> 0 <= i < num_db p -> bitmap_bit (pg_free p) i = false -> use_cnt p = 1 ->
  let s' := Dbr (delete key (dbr_map s)) (filter (fun k => k <> key) (if use_cnt p =? num_db p then key :: dbr_available s else dbr_available s)) in
  dbr_ok s' /\ represents s' (S ∖ {[key + i * cache_line_size]}).
Proof.
  intros [Hinv Hused] Hrep Hs Hi Hb H1. cbv zeta. pose proof (di_pages _ Hinv _ _ Hs) as Hp.
  split; [split; [split|]|]; cbn [dbr_map dbr_available].
  - intros k q [_ Hq]%lookup_delete_Some. by apply Hinv.
  - apply NoDup_filter. destruct (Z.eqb_spec (use_cnt p) (num_db p)); [|apply Hinv]. apply NoDup_cons. split; [|apply Hinv].
    rewrite (di_avail _ Hinv). intros (q & Hq & Hlt). rewrite Hs in Hq. injection Hq as <-. lia.
  - intros k. rewrite list_elem_of_filter. destruct (decide (k = key)) as [->|].
    + rewrite lookup_delete_eq. naive_solver.
    + rewrite lookup_delete_ne by done. destruct (_ =? _); rewrite ?elem_of_cons, (di_avail _ Hinv); naive_solver.
  - intros k q [_ Hq]%lookup_delete_Some. by apply (Hused k).
  - apply (represents_without s _ S key p i); try done. intros k j. unfold in_use. cbn [dbr_map]. destruct (decide (k = key)) as [->|Hk].
    + rewrite lookup_delete_eq. split; [naive_solver|]. intros [(q & Hq & Hj & Hbj) Hne]. exfalso. rewrite Hs in Hq. injection Hq as <-.
      assert (j <> i) by naive_solver. destruct (give_back_page key p i Hp Hi Hb) as (b & _ & Hbits & Hp').
      pose proof (po_use _ _ Hp') as Hz. cbn in Hz. assert (b2z (negb (bitmap_bit b j)) <= zsum (Z.to_nat (num_db p)) (fun i => b2z (negb (bitmap_bit b i)))) as Hge.
      { apply (zsum_ge_one _ j (fun i => b2z (negb (bitmap_bit b i)))); [lia|]. intros x _. by destruct (bitmap_bit b x). }
      rewrite Hbits in Hge by lia. rewrite (proj2 (Z.eqb_neq j i)), Hbj in Hge by done. cbn in Hge. lia.
    + rewrite lookup_delete_ne by done. naive_solver.
Qed.

(** Otherwise the page is available again. *)
Lemma free_some s S key p i b :
  dbr_ok s -> represents s S -> dbr_map s !! key = Some p -> 0 <= i < num_db p -> use_cnt p <> 1 ->
  (forall j, 0 <= j -> bitmap_bit b j = if j =? i then true else bitmap_bit (pg_free p) j) ->
  page_ok key (DbPage key (num_db p) (use_cnt p - 1) b) ->
  let s' := put_page s key (DbPage key (num_db p) (use_cnt p - 1) b) (if use_cnt p =? num_db p then key :: dbr_available s else dbr_available s) in
  dbr_ok s' /\ represents s' (S ∖ {[key + i * cache_line_size]}).
Proof.
  intros [Hinv Hused] Hrep Hs Hi H1 Hbits Hp'. cbv zeta. pose proof (use_cnt_range _ _ (di_pages _ Hinv _ _ Hs)) as [Hur _]. pose proof (Hused _ _ Hs).
  split; [split|].
  - apply (put_page_inv _ _ p); try done; destruct (Z.eqb_spec (use_cnt p) (num_db p)); cbn [use_cnt num_db].
    + apply NoDup_cons. split; [|apply Hinv]. rewrite (di_avail _ Hinv). intros (q & Hq & Hlt). rewrite Hs in Hq. injection Hq as <-. lia.
    + apply Hinv.
    + split; [lia|]. intros _. left.
    + rewrite (di_avail _ Hinv). split; [lia|]. intros _. exists p. split; [done|lia].
    + intros k Hk. rewrite elem_of_cons. naive_solver.
    + done.
  - intros k q. cbn [put_page dbr_map]. destruct (decide (k = key)) as [->|]; [|rewrite lookup_insert_ne by done; apply Hused].
    rewrite lookup_insert_eq. intros [= <-]. cbn. lia.
  - apply (represents_without s _ S key p i); try done. intros k j. rewrite (in_use_put _ _ p) by done. destruct (decide (k = key)) as [->|Hk].
    + cbn [pg_free]. split.
      * intros [Hj Hbj]. rewrite Hbits in Hbj by lia. destruct (Z.eqb_spec j i); [done|]. split; [by exists p|naive_solver].
      * intros [(q & Hq & Hj & Hbj) Hne]. rewrite Hs in Hq. injection Hq as <-. split; [done|]. rewrite Hbits by lia.
        by rewrite (proj2 (Z.eqb_neq j i)) by naive_solver.
    + naive_solver.
Qed.

Lemma free_refines db s S :
  dbr_ok s -> represents s S -> db ∈ S ->
  exists s', mlx5_free_db false db s = Some s' /\ dbr_ok s' /\ represents s' (S ∖ {[db]}).
Proof.
  intros Hok Hrep Hin. pose proof Hin as (key & i & (p & Hs & Hi & Hb) & ->)%Hrep. pose proof (di_pages _ (proj1 Hok) _ _ Hs) as Hp.
  destruct (give_back_page key p i Hp Hi Hb) as (b & Eb & Hbits & Hp'). pose proof (ge_cl G).
  unfold mlx5_free_db. destruct (record_address key p i Hp Hi) as (_ & -> & _). rewrite Hs. cbn [mbind option_bind].
  rewrite (po_buf _ _ Hp). replace (key + i * cache_line_size - key) with (i * cache_line_size) by lia. rewrite Z.quot_mul by lia.
  change (8 * 8) with 64. unfold bitmap_set_bit, BITS_PER_LONG in Eb. rewrite Eb. cbn [mbind option_bind].
  destruct (Z.eqb_spec (use_cnt p - 1) 0); eexists; (split; [reflexivity|]).
  - apply (free_last s S key p i); done || lia.
  - apply (free_some s S key p i b); done || lia.
Qed.

(** Records in use are on cache lines of their own. *)
Lemma records_apart s S db db' :
  dbr_ok s -> represents s S -> db ∈ S -> db' ∈ S -> db <> db' -> db + cache_line_size <= db' \/ db' + cache_line_size <= db.
Proof.
  intros [Hinv _] Hrep (k & i & (p & Hs & Hi & _) & ->)%Hrep (k' & i' & (p' & Hs' & Hi' & _) & ->)%Hrep Hne. pose proof (ge_cl G).
  pose proof (di_pages _ Hinv _ _ Hs) as Hp. pose proof (di_pages _ Hinv _ _ Hs') as Hp'.
  destruct (Z.eq_dec k k') as [<-|Hk]; [destruct (Z.lt_trichotomy i i') as [?|[->|?]]; [nia|done|nia]|].
  pose proof (po_num _ _ Hp). pose proof (po_num _ _ Hp'). pose proof (po_key _ _ Hp) as (Hm & _). pose proof (po_key _ _ Hp') as (Hm' & _).
  assert (0 < ps) by nia. pose proof (Z.div_exact k ps ltac:(lia)) as [_ Hq]. pose proof (Z.div_exact k' ps ltac:(lia)) as [_ Hq'].
  specialize (Hq Hm). specialize (Hq' Hm'). assert (k / ps < k' / ps \/ k' / ps < k / ps) as [|] by (assert (k / ps <> k' / ps) by congruence; lia); nia.
Qed.

End Allocator.

(** ** A run of the allocator *)

(** Requests to the allocator: a record, with what the memory allocators give
    if a page is needed, or giving a record back. *)
Inductive db_op := Alloc (pm : page_mem) | Free (db : Z).

(** Serves the requests in order and keeps the set of the records handed out;
    a program that gives back what it does not have has no run. *)
Fixpoint db_run (ps cl : Z) (ops : list db_op) (s : dbr) (S : gset Z) : option (dbr * gset Z) :=
  match ops with
  | [] => Some (s, S)
  | Alloc pm :: ops =>
    r ← mlx5_alloc_dbrec ps cl None pm s;
    let '(db, _, s) := r in
    db_run ps cl ops s (if db =? 0 then S else {[db]} ∪ S)
  | Free db :: ops =>
    if decide (db ∈ S) then s ← mlx5_free_db ps cl false db s; db_run ps cl ops s (S ∖ {[db]}) else None
  end.

(** The page addresses the requests may get: aligned, and not those of pages
    that are in use at that time. *)
Fixpoint pages_fresh (ps cl : Z) (ops : list db_op) (s : dbr) : Prop :=
  match ops with
  | [] => True
  | Alloc pm :: ops => fresh_page ps s pm /\ forall db c s', mlx5_alloc_dbrec ps cl None pm s = Some (db, c, s') -> pages_fresh ps cl ops s'
  | Free db :: ops => forall s', mlx5_free_db ps cl false db s = Some s' -> pages_fresh ps cl ops s'
  end.

(** The requests give back only what is in use. *)
Fixpoint frees_held (ps cl : Z) (ops : list db_op) (s : dbr) (S : gset Z) : Prop :=
  match ops with
  | [] => True
  | Alloc pm :: ops => forall db c s', mlx5_alloc_dbrec ps cl None pm s = Some (db, c, s') -> frees_held ps cl ops s' (if db =? 0 then S else {[db]} ∪ S)
  | Free db :: ops => (db ∈ S) /\ forall s', mlx5_free_db ps cl false db s = Some s' -> frees_held ps cl ops s' (S ∖ {[db]})
  end.

Definition no_pages : dbr := Dbr ∅ [].

Lemma no_pages_ok ps cl : dbr_ok ps cl no_pages /\ represents cl no_pages ∅.
Proof.
  split; [split; [split|]|]; cbn.
  - intros k p. by rewrite lookup_empty.
  - constructor.
  - intros k. rewrite elem_of_nil. split; [done|]. intros (p & Hp & _). by rewrite lookup_empty in Hp.
  - intros k p. by rewrite lookup_empty.
  - intros db. rewrite elem_of_empty. split; [done|]. intros (k & i & (p & Hp & _) & _). cbn in Hp; by rewrite lookup_empty in Hp.
Qed.

Lemma db_run_refines ps cl ops s S :
  geometry ps cl -> dbr_ok ps cl s -> represents cl s S -> pages_fresh ps cl ops s -> frees_held ps cl ops s S ->
  exists s' S', db_run ps cl ops s S = Some (s', S') /\ dbr_ok ps cl s' /\ represents cl s' S'.
Proof.
  intros G. revert s S. induction ops as [|[pm|db] ops IH]; intros s S Hok Hrep Hf Hh; [by exists s, S|..]; cbn [db_run pages_fresh frees_held] in *.
  - destruct Hf as [Hf Hfs]. destruct (alloc_refines ps cl G pm s S Hok Hrep Hf) as (db & s' & E & Hok' & Hout).
    rewrite E. cbn [mbind option_bind]. specialize (Hfs _ _ _ E). specialize (Hh _ _ _ E). apply IH; try done.
    destruct Hout as [(-> & -> & _)|(_ & Hrep' & _ & Hpos)]; [done|]. by rewrite (proj2 (Z.eqb_neq db 0)) by lia.
  - destruct Hh as [Hin Hh]. rewrite decide_True by done. destruct (free_refines ps cl G db s S Hok Hrep Hin) as (s' & E & Hok' & Hrep').
    rewrite E. cbn [mbind option_bind]. apply IH; auto.
Qed.

(** C22: Doorbell records are handed out to one user at a time: in every run of
    allocations and releases from the empty state, in which releases are of
    records in use and new pages do not overlap live ones, every request is
    served, the records handed out are exactly those whose bit is clear in a
    live page, any two of them are at least a cache line apart, a newly
    allocated record is not in use, and a page is live only as long as one of
    its records is. *)
Theorem dbrec_refines_set ps cl ops :
  geometry ps cl -> pages_fresh ps cl ops no_pages -> frees_held ps cl ops no_pages ∅ ->
  exists s S, db_run ps cl ops no_pages ∅ = Some (s, S) /\ represents cl s S /\
    (forall db db', db ∈ S -> db' ∈ S -> db <> db' -> db + cl <= db' \/ db' + cl <= db) /\
    (forall key p, dbr_map s !! key = Some p -> exists db, (db ∈ S) /\ key <= db < key + ps) /\
    (forall pm, fresh_page ps s pm -> exists db s', mlx5_alloc_dbrec ps cl None pm s = Some (db, false, s') /\ alloc_outcome ps cl s pm S db s') /\
    (forall db, db ∈ S -> exists s', mlx5_free_db ps cl false db s = Some s' /\ represents cl s' (S ∖ {[db]})).
Proof.
  intros G Hf Hh. destruct (no_pages_ok ps cl) as [Hok0 Hrep0]. destruct (db_run_refines ps cl ops no_pages ∅ G Hok0 Hrep0 Hf Hh) as (s & S & E & Hok & Hrep).
  exists s, S. split_and!; [done|done| | | |].
  - intros db db'. by apply (records_apart ps cl G s).
  - intros key p Hp. destruct Hok as [Hinv Hused]. pose proof (Hused _ _ Hp) as H1. pose proof (di_pages _ _ _ Hinv _ _ Hp) as Hpok.
    rewrite (po_use _ _ _ _ Hpok) in H1. destruct (zsum_pos_ex (Z.to_nat (num_db p)) (fun i => b2z (negb (bitmap_bit (pg_free p) i)))) as (i & Hi & Hb); [lia|]. pose proof (use_cnt_range ps cl G _ _ Hpok).
    pose proof (po_num _ _ _ _ Hpok). pose proof (ge_cl _ _ G). exists (key + i * cl). split; [|nia]. apply Hrep. exists key, i. split; [|done].
    exists p. split_and!; [done|lia|lia|]. by destruct (bitmap_bit _ _).
  - intros pm Hpm. by apply alloc_refines.
  - intros db Hdb. destruct (free_refines ps cl G db s S Hok Hrep Hdb) as (s' & E' & _ & Hrep'). by exists s'.
Qed.

(** A page of two records: three allocations, one release. *)
Definition sample_ops : list db_op :=
  [Alloc (PageMem true (Some 0x1000)); Alloc (PageMem true None); Alloc (PageMem true (Some 0x2000)); Free 0x1800].

Lemma dbrec_refines_set_witness :
  exists s S, db_run 0x1000 0x800 sample_ops no_pages ∅ = Some (s, S) /\ represents 0x800 s S /\ dbr_available s = [0x1000; 0x2000].
Proof.
  destruct (dbrec_refines_set 0x1000 0x800 sample_ops) as (s & S & E & Hrep & _).
  - split; [by exists 12|done|done].
  - cbn [pages_fresh sample_ops]. split; [intros b [= <-]; by split_and!|].
    intros db c s1 E1. vm_compute in E1. injection E1 as <- <- <-. split; [intros b [=]|].
    intros db c s2 E2. vm_compute in E2. injection E2 as <- <- <-. split; [intros b [= <-]; by split_and!|]. done.
  - cbn [frees_held sample_ops]. intros db c s1 E1. vm_compute in E1. injection E1 as <- <- <-.
    intros db c s2 E2. vm_compute in E2. injection E2 as <- <- <-.
    intros db c s3 E3. vm_compute in E3. injection E3 as <- <- <-. split; [vm_compute; by left || set_solver|]. done.
  - exists s, S. split_and!; [exact E|exact Hrep|]. vm_compute in E. by injection E as <- <-.
Defined.
