(* ===== verification/CreateQp.v ===== *)
(** The life of a queue pair in providers/mlx5/verbs.c: creation, its failures
    included, the changes of state, and destruction.

    What the functions acquire and release (memory, doorbell records, user
    indices, doorbell registers, the kernel's queue pair, entries of the queue
    pair table, the mutex of that table, references to the parent domain) is a
    trace of events.  The results of the allocators, of the kernel's commands
    and of the functions of other files are inputs.  The theorems show that a
    failed creation gives back everything, that destruction undoes creation
    except for the references to parent domains, and that a queue pair moved to
    the ready-to-send state, new or after a reset, meets what posting assumes. *)

From S2P Require Import Prelude Util Mem Wqe PostSend PostSendSpec PostRecv NewSend QpSize.

(** ** Constants *)

Definition IBV_QP_INIT_ATTR_PD : Z := 2 ^ 0.
Definition IBV_QP_INIT_ATTR_XRCD : Z := 2 ^ 1.
Definition IBV_QP_INIT_ATTR_CREATE_FLAGS : Z := 2 ^ 2.
Definition IBV_QP_INIT_ATTR_IND_TABLE : Z := 2 ^ 4.
Definition IBV_QP_INIT_ATTR_RX_HASH : Z := 2 ^ 5.
Definition IBV_QP_CREATE_SOURCE_QPN : Z := 2 ^ 10.
Definition MLX5DV_QP_INIT_ATTR_MASK_QP_CREATE_FLAGS : Z := 2 ^ 0.
Definition MLX5DV_QP_INIT_ATTR_MASK_DCI_STREAMS : Z := 2 ^ 3.
Definition MLX5DV_DCTYPE_DCT : Z := 1.
Definition MLX5DV_QP_CREATE_TUNNEL_OFFLOADS : Z := 2 ^ 0.
Definition MLX5DV_QP_CREATE_TIR_ALLOW_SELF_LOOPBACK_UC : Z := 2 ^ 1.
Definition MLX5DV_QP_CREATE_TIR_ALLOW_SELF_LOOPBACK_MC : Z := 2 ^ 2.
Definition MLX5DV_QP_CREATE_DISABLE_SCATTER_TO_CQE : Z := 2 ^ 3.
Definition MLX5DV_QP_CREATE_ALLOW_SCATTER_TO_CQE : Z := 2 ^ 4.
Definition MLX5DV_QP_CREATE_PACKET_BASED_CREDIT_MODE : Z := 2 ^ 5.
Definition MLX5DV_QP_CREATE_SIG_PIPELINING : Z := 2 ^ 6.
Definition MLX5_QP_FLAG_SIGNATURE : Z := 2 ^ 0.
Definition MLX5_QP_FLAG_SCATTER_CQE : Z := 2 ^ 1.
Definition MLX5_QP_FLAG_TUNNEL_OFFLOADS : Z := 2 ^ 2.
Definition MLX5_QP_FLAG_BFREG_INDEX : Z := 2 ^ 3.
Definition MLX5_QP_FLAG_TYPE_DCT : Z := 2 ^ 4.
Definition MLX5_QP_FLAG_TYPE_DCI : Z := 2 ^ 5.
Definition MLX5_QP_FLAG_TIR_ALLOW_SELF_LB_UC : Z := 2 ^ 6.
Definition MLX5_QP_FLAG_TIR_ALLOW_SELF_LB_MC : Z := 2 ^ 7.
Definition MLX5_QP_FLAG_ALLOW_SCATTER_CQE : Z := 2 ^ 8.
Definition MLX5_QP_FLAG_PACKET_BASED_CREDIT_MODE : Z := 2 ^ 9.
Definition MLX5_QP_FLAG_UAR_PAGE_INDEX : Z := 2 ^ 10.
Definition MLX5_QP_FLAG_DCI_STREAM : Z := 2 ^ 11.
Definition MLX5_QP_FLAGS_DRAIN_SIGERR : Z := 2.
Definition MLX5_QP_FLAGS_OOO_DP : Z := 4.
Definition MLX5_VENDOR_CAP_FLAGS_SCAT2CQE_DCT : Z := 2 ^ 6.
Definition MLX5_VENDOR_CAP_FLAGS_OOO_DP : Z := 2 ^ 7.
Definition MLX5_CTX_FLAGS_NO_KERN_DYN_UAR : Z := 2 ^ 1.
Definition MLX5_CTX_FLAGS_ECE_SUPPORTED : Z := 2 ^ 2.
Definition MLX5_CTX_FLAGS_SQD2RTS_SUPPORTED : Z := 2 ^ 3.
Definition MLX5_IB_CREATE_QP_RESP_MASK_TIRN : Z := 2 ^ 0.
Definition MLX5_IB_CREATE_QP_RESP_MASK_TISN : Z := 2 ^ 1.
Definition MLX5_IB_CREATE_QP_RESP_MASK_RQN : Z := 2 ^ 2.
Definition MLX5_IB_CREATE_QP_RESP_MASK_SQN : Z := 2 ^ 3.
Definition MLX5_IB_CREATE_QP_RESP_MASK_TIR_ICM_ADDR : Z := 2 ^ 4.

Definition MLX5_CREATE_QP_SUP_COMP_MASK : Z := flags_or
  [IBV_QP_INIT_ATTR_PD; IBV_QP_INIT_ATTR_XRCD; IBV_QP_INIT_ATTR_CREATE_FLAGS; IBV_QP_INIT_ATTR_MAX_TSO_HEADER;
   IBV_QP_INIT_ATTR_IND_TABLE; IBV_QP_INIT_ATTR_RX_HASH; IBV_QP_INIT_ATTR_SEND_OPS_FLAGS].
Definition MLX5_DV_CREATE_QP_SUP_COMP_MASK : Z := flags_or
  [MLX5DV_QP_INIT_ATTR_MASK_QP_CREATE_FLAGS; MLX5DV_QP_INIT_ATTR_MASK_DC; MLX5DV_QP_INIT_ATTR_MASK_SEND_OPS_FLAGS;
   MLX5DV_QP_INIT_ATTR_MASK_DCI_STREAMS].
Definition MLX5_CREATE_QP_EX2_COMP_MASK : Z := flags_or
  [IBV_QP_INIT_ATTR_CREATE_FLAGS; IBV_QP_INIT_ATTR_MAX_TSO_HEADER; IBV_QP_INIT_ATTR_IND_TABLE; IBV_QP_INIT_ATTR_RX_HASH].
Definition MLX5DV_QP_CREATE_SUP_FLAGS : Z := flags_or
  [MLX5DV_QP_CREATE_TUNNEL_OFFLOADS; MLX5DV_QP_CREATE_TIR_ALLOW_SELF_LOOPBACK_UC; MLX5DV_QP_CREATE_TIR_ALLOW_SELF_LOOPBACK_MC;
   MLX5DV_QP_CREATE_DISABLE_SCATTER_TO_CQE; MLX5DV_QP_CREATE_ALLOW_SCATTER_TO_CQE; MLX5DV_QP_CREATE_PACKET_BASED_CREDIT_MODE;
   MLX5DV_QP_CREATE_SIG_PIPELINING; MLX5DV_QP_CREATE_OOO_DP].

(** ** Resources *)

Inductive resource :=
| RQp | RSqWrid | RSqWrData | RSqWqeHead | RRqWrid | RBuf | RSqBuf | RDb | RUidx | RUar
| RKernelQp | RTableQp | RTableMutex | RPdRef.

#[export] Instance resource_eq_dec : EqDecision resource.
Proof. solve_decision. Defined.

Inductive event := Acq (r : resource) | Rel (r : resource).

(** How often [r] is held after the events. *)
Fixpoint held (es : list event) (r : resource) : Z :=
  match es with
  | [] => 0
  | Acq x :: es' => held es' r + b2z (bool_decide (x = r))
  | Rel x :: es' => held es' r - b2z (bool_decide (x = r))
  end.

(** No resource is released that is not held: in every prefix of the trace. *)
Definition never_over_released (es : list event) : Prop := forall n r, 0 <= held (take n es) r.

(** ** Inputs *)

(** A doorbell register, as far as creation looks at it. *)
Record uar := Uar { u_bf : mlx5_bf; u_dyn_alloc : bool; u_page_id : Z; u_dyn_index : Z; u_dedicated : bool; u_shared : bool }.

(** The protection domain: whether it is a parent domain, with the register of
    its thread domain if it has one. *)
Record pd := Pd { pd_parent : bool; pd_mtd_bf : option uar }.

Record create_ctx := CreateCtx {
  cc_caps : mlx5_caps; cc_cqe_version : Z; cc_flags : Z; cc_vendor_flags : Z; cc_atomic_cap : bool;
  cc_ooo_dct : Z; cc_ooo_xrc : Z; cc_dci_concurent : Z; cc_dci_errored : Z; cc_mmo_sq : bool; cc_mmo_qp : bool;
  cc_bfs : list mlx5_bf }.

Record create_attr := CreateAttr {
  ca_init : init_attr; ca_create_flags : Z; ca_sq_sig_all : bool; ca_hash_key_len : Z; ca_pd : pd }.

(** The driver's part of the kernel's answer. *)
Record create_resp := CreateResp {
  cr_comp_mask : Z; cr_tirn : Z; cr_tisn : Z; cr_rqn : Z; cr_sqn : Z; cr_icm : Z; cr_bfreg_index : Z; cr_ece : Z }.

(** The environment: what the allocators, the other functions and the kernel
    return.  [en_buf] and [en_sq_buf] are the buffers [mlx5_alloc_prefered_buf]
    allocates, [en_db] the record of [mlx5_alloc_dbrec] (0 is NULL), [en_junk]
    what [malloc] leaves in an array. *)
Record create_env := CreateEnv {
  en_scatter : bool; en_sig : bool; en_calloc : bool; en_sq_wrid : bool; en_wr_data : bool; en_wqe_head : bool; en_rq_wrid : bool;
  en_buf : option Z; en_sq_buf : option Z; en_locks : bool; en_db : Z; en_custom_db : bool; en_uidx : Z; en_uar : option uar;
  en_junk : Z -> Z; en_opaque : Z; en_cmd : Z; en_resp : create_resp; en_qpn : Z; en_store_qp : Z; en_rss : Z; en_dct : Z }.

(** The command to the kernel. *)
Record create_cmd := CreateCmd {
  cm_flags : Z; cm_buf_addr : Z; cm_sq_buf_addr : Z; cm_db_addr : Z; cm_sq_wqe_count : Z; cm_rq_wqe_count : Z; cm_rq_wqe_shift : Z;
  cm_uidx : Z; cm_bfreg_index : Z; cm_ece : Z; cm_log_concurent : Z; cm_log_errored : Z }.

(** ** The attributes of the vendor interface *)

Definition is_qpt_ooo_sup (c : create_ctx) (type : Z) : bool :=
  if negb (has (cc_vendor_flags c) MLX5_VENDOR_CAP_FLAGS_OOO_DP) then false
  else if type =? IBV_QPT_DRIVER then negb (cc_ooo_dct c =? 0)
  else if type =? IBV_QPT_RC then negb (ooo_max_rc (cc_caps c) =? 0)
  else if (type =? IBV_QPT_XRC_SEND) || (type =? IBV_QPT_XRC_RECV) then negb (cc_ooo_xrc c =? 0)
  else if type =? IBV_QPT_UC then negb (ooo_max_uc (cc_caps c) =? 0)
  else if type =? IBV_QPT_UD then negb (ooo_max_ud (cc_caps c) =? 0)
  else false.

(** [f | x] if the creation flags of [d] have [y]. *)
Definition add_flag (d : dv_attr) (y f x : Z) : Z := if has (dv_create_flags d) y then Z.lor f x else f.

Inductive flags_result := FlagsErr (errno : Z) | Flags (flags qp_flags : Z).

(** The creation flags: an error number, or the flags of the command and of the
    queue pair. *)
Definition dv_create_flags_of (c : create_ctx) (type : Z) (d : dv_attr) (f qf : Z) : flags_result :=
  if beyond (dv_create_flags d) MLX5DV_QP_CREATE_SUP_FLAGS then FlagsErr EINVAL else
  let f := add_flag d MLX5DV_QP_CREATE_TUNNEL_OFFLOADS f MLX5_QP_FLAG_TUNNEL_OFFLOADS in
  let f := add_flag d MLX5DV_QP_CREATE_TIR_ALLOW_SELF_LOOPBACK_UC f MLX5_QP_FLAG_TIR_ALLOW_SELF_LB_UC in
  let f := add_flag d MLX5DV_QP_CREATE_TIR_ALLOW_SELF_LOOPBACK_MC f MLX5_QP_FLAG_TIR_ALLOW_SELF_LB_MC in
  if has (dv_create_flags d) MLX5DV_QP_CREATE_DISABLE_SCATTER_TO_CQE &&
     has (dv_create_flags d) MLX5DV_QP_CREATE_ALLOW_SCATTER_TO_CQE then FlagsErr EINVAL else
  let f := if has (dv_create_flags d) MLX5DV_QP_CREATE_DISABLE_SCATTER_TO_CQE
           then Z.land f (notu 32 MLX5_QP_FLAG_SCATTER_CQE) else f in
  let f := add_flag d MLX5DV_QP_CREATE_ALLOW_SCATTER_TO_CQE f (Z.lor MLX5_QP_FLAG_ALLOW_SCATTER_CQE MLX5_QP_FLAG_SCATTER_CQE) in
  let f := add_flag d MLX5DV_QP_CREATE_PACKET_BASED_CREDIT_MODE f MLX5_QP_FLAG_PACKET_BASED_CREDIT_MODE in
  if has (dv_create_flags d) MLX5DV_QP_CREATE_SIG_PIPELINING && negb (has (cc_flags c) MLX5_CTX_FLAGS_SQD2RTS_SUPPORTED)
  then FlagsErr EOPNOTSUPP else
  let qf := add_flag d MLX5DV_QP_CREATE_SIG_PIPELINING qf MLX5_QP_FLAGS_DRAIN_SIGERR in
  if has (dv_create_flags d) MLX5DV_QP_CREATE_OOO_DP && negb (is_qpt_ooo_sup c type) then FlagsErr EOPNOTSUPP else
  Flags f (add_flag d MLX5DV_QP_CREATE_OOO_DP qf MLX5_QP_FLAGS_OOO_DP).

Inductive dv_result :=
| DvErr (errno : option Z)
| DvDct (flags : Z)
| DvOk (flags qp_flags dc_type log_concurent log_errored : Z).

(** The checks of the attributes; [f] and [qf] are the flags before them. *)
Definition dv_checks (c : create_ctx) (type : Z) (dv : option dv_attr) (f qf : Z) : dv_result :=
  match dv with
  | None => if type =? IBV_QPT_DRIVER then DvErr None else DvOk f qf 0 0 0
  | Some d =>
    if beyond (dv_comp_mask d) MLX5_DV_CREATE_QP_SUP_COMP_MASK then DvErr (Some EINVAL) else
    if has (dv_comp_mask d) MLX5DV_QP_INIT_ATTR_MASK_DC && negb (type =? IBV_QPT_DRIVER) then DvErr (Some EINVAL) else
    match (if has (dv_comp_mask d) MLX5DV_QP_INIT_ATTR_MASK_QP_CREATE_FLAGS then dv_create_flags_of c type d f qf else Flags f qf) with
    | FlagsErr e => DvErr (Some e)
    | Flags f qf =>
      if negb (type =? IBV_QPT_DRIVER) then DvOk f qf 0 0 0
      else if negb (has (dv_comp_mask d) MLX5DV_QP_INIT_ATTR_MASK_DC) then DvErr (Some EINVAL)
      else if dv_dc_type d =? MLX5DV_DCTYPE_DCT then DvDct f
      else if dv_dc_type d =? MLX5DV_DCTYPE_DCI then
        let f := Z.lor f MLX5_QP_FLAG_TYPE_DCI in
        if has (dv_comp_mask d) MLX5DV_QP_INIT_ATTR_MASK_DCI_STREAMS then
          if (cc_dci_concurent c <? dv_log_num_concurent d) || (cc_dci_errored c <? dv_log_num_errored d)
          then DvErr (Some EINVAL)
          else DvOk (Z.lor f MLX5_QP_FLAG_DCI_STREAM) qf MLX5DV_DCTYPE_DCI (dv_log_num_concurent d) (dv_log_num_errored d)
        else DvOk f qf MLX5DV_DCTYPE_DCI 0 0
      else DvErr (Some EINVAL)
    end
  end.

(** ** The two special kinds *)

Definition rx_hash_key_size : Z := 128.

(** What is sent to the kernel. *)
Inductive kernel_cmd :=
| CmdQp (c : create_cmd)
| CmdRss (flags : Z)
| CmdDct (flags access_key uidx ece_options : Z).

(** The ECE option that asks for version 1. *)
Definition ece_trigger (c : create_ctx) : Z := if has (cc_flags c) MLX5_CTX_FLAGS_ECE_SUPPORTED then 0x10000000 else 0.

(** The error number, 0 if the queue pair exists, and the command sent. *)
Definition mlx5_cmd_create_rss_qp (e : create_env) (a : create_attr) (f : Z) : Z * list kernel_cmd * list event :=
  if rx_hash_key_size <? ca_hash_key_len a then (EINVAL, [], [])
  else if negb (en_rss e =? 0) then (en_rss e, [CmdRss f], []) else (0, [CmdRss f], [Acq RKernelQp]).

Definition create_dct (c : create_ctx) (e : create_env) (a : create_attr) (d : dv_attr) (f : Z) : Z * list kernel_cmd * list event :=
  if beyond (ia_comp_mask (ca_init a)) IBV_QP_INIT_ATTR_PD then (EINVAL, [], []) else
  if beyond (dv_comp_mask d) (Z.lor MLX5DV_QP_INIT_ATTR_MASK_DC MLX5DV_QP_INIT_ATTR_MASK_QP_CREATE_FLAGS) then (EINVAL, [], []) else
  if beyond f MLX5_QP_FLAG_SCATTER_CQE then (EINVAL, [], []) else
  let f := if negb (has (cc_vendor_flags c) MLX5_VENDOR_CAP_FLAGS_SCAT2CQE_DCT) then Z.land f (notu 32 MLX5_QP_FLAG_SCATTER_CQE) else f in
  let versioned := negb (cc_cqe_version c =? 0) in
  if versioned && (en_uidx e <? 0) then (ENOMEM, [], []) else
  let es := if versioned then [Acq RUidx] else [] in
  let cmd := CmdDct (Z.lor MLX5_QP_FLAG_TYPE_DCT f) (dv_access_key d) (if versioned then en_uidx e else 0xffffff) (ece_trigger c) in
  if negb (en_dct e =? 0) then (en_dct e, [cmd], es ++ if versioned then [Rel RUidx] else [])
  else (0, [cmd], es ++ [Acq RKernelQp]).

(** ** Buffers *)

(** The arrays and buffers a queue pair has: pointers that are not NULL. *)
Record qp_ptrs := QpPtrs { p_sq_wrid : bool; p_wr_data : bool; p_wqe_head : bool; p_rq_wrid : bool; p_sq_buf : bool }.

Definition junk (e : create_env) (n : Z) : list Z := map (en_junk e) (seqZ 0 n).

Definition with_sq_arrays (e : create_env) (q : mlx5_wq) : mlx5_wq :=
  let n := wqe_cnt q in
  Wq (junk e n) (junk e n) n (max_post q) (head q) (tail q) (cur_post q)
    (max_gs q) (qp_state_max_gs q) (wqe_shift q) (wq_offset q) (qend q) (junk e n).

Definition with_rq_arrays (e : create_env) (q : mlx5_wq) : mlx5_wq :=
  Wq (junk e (wqe_cnt q)) (wqe_head q) (wqe_cnt q) (max_post q) (head q) (tail q) (cur_post q)
    (max_gs q) (qp_state_max_gs q) (wqe_shift q) (wq_offset q) (qend q) (wr_data q).

Definition free_if (b : bool) (r : resource) : list event := if b then [Rel r] else [].

(** The label [ex_wrid]. *)
Definition free_arrays (p : qp_ptrs) : list event :=
  free_if (p_rq_wrid p) RRqWrid ++ free_if (p_wqe_head p) RSqWqeHead ++ free_if (p_wr_data p) RSqWrData ++ free_if (p_sq_wrid p) RSqWrid.

(** Are the send queue's slots in a buffer of their own? *)
Definition own_sq_buf (type qp_flags : Z) : bool :=
  (type =? IBV_QPT_RAW_PACKET) || has qp_flags MLX5_QP_FLAGS_USE_UNDERLAY.

(** Which arrays exist when the allocations are made in order until one fails,
    and whether all succeeded; [sq_wrid] has no clean-up of its own. *)
Definition mlx5_alloc_qp_buf (e : create_env) (type : Z) (qp : mlx5_qp) : option (qp_ptrs * mlx5_qp) * list event :=
  let has_sq := negb (wqe_cnt (sq qp) =? 0) in
  let has_rq := negb (wqe_cnt (rq qp) =? 0) in
  let own := own_sq_buf type (qp_flags qp) in
  if has_sq && negb (en_sq_wrid e) then (None, []) else
  let es := if has_sq then [Acq RSqWrid] else [] in
  if has_sq && negb (en_wr_data e) then (None, es ++ free_arrays (QpPtrs has_sq false false false false)) else
  let es := es ++ if has_sq then [Acq RSqWrData] else [] in
  if has_sq && negb (en_wqe_head e) then (None, es ++ free_arrays (QpPtrs has_sq has_sq false false false)) else
  let es := es ++ if has_sq then [Acq RSqWqeHead] else [] in
  if has_rq && negb (en_rq_wrid e) then (None, es ++ free_arrays (QpPtrs has_sq has_sq has_sq false false)) else
  let es := es ++ if has_rq then [Acq RRqWrid] else [] in
  let ptrs := QpPtrs has_sq has_sq has_sq has_rq own in
  match en_buf e with
  | None => (None, es ++ free_arrays ptrs)
  | Some buf =>
    let es := es ++ [Acq RBuf] in
    let qp := with_sq qp (if has_sq then with_sq_arrays e (sq qp) else sq qp) in
    let qp := with_rq qp (if has_rq then with_rq_arrays e (rq qp) else rq qp) in
    let qp := Qp (qp_type qp) (qp_num qp) (qp_state qp) buf (max_inline_data qp) (bf qp) (fm_cache qp)
      (sq_signal_bits qp) (sq_start qp) (sq qp) (db qp) (rq qp) (wq_sig qp) (qp_cap_cache qp)
      (atomics_enabled qp) (max_tso qp) (max_tso_header qp) (qp_flags qp) in
    if own then
      match en_sq_buf e with
      | None => (None, es ++ [Rel RBuf] ++ free_arrays ptrs)
      | Some _ => (Some (ptrs, qp), es ++ [Acq RSqBuf])
      end
    else (Some (ptrs, qp), es)
  end.

Definition mlx5_free_qp_buf (p : qp_ptrs) : list event :=
  [Rel RBuf] ++ free_if (p_sq_buf p) RSqBuf ++ free_if (p_rq_wrid p) RRqWrid ++ free_if (p_wqe_head p) RSqWqeHead ++
  free_if (p_sq_wrid p) RSqWrid ++ free_if (p_wr_data p) RSqWrData.

(** ** Creation *)

(** The function that ends a batch of the extended interface: the one that
    posts, or the one that reports an error; queue pairs without the interface
    have none. *)
Inductive wr_complete := CompleteReal | CompleteError.

Record created := Created {
  cq : mlx5_qp; cq_dc_type : Z; cq_rss : bool; cq_rsn : Z; cq_need_mmo : bool; cq_buf_size : Z; cq_sq_buf_size : Z;
  cq_custom_db : bool; cq_ece : Z; cq_tirn : Z; cq_tisn : Z; cq_rqn : Z; cq_sqn : Z; cq_icm : Z;
  cq_uar : option uar; cq_ptrs : qp_ptrs; cq_complete : option wr_complete;
  cq_set_ece : Z }.

(** NULL, with the error number if the driver sets one, or a queue pair. *)
Inductive create_result := Null (errno : option Z) | Done (q : created).

Definition no_ptrs : qp_ptrs := QpPtrs false false false false false.

(** A queue pair of a special kind: only the kernel's part exists. *)
Definition kernel_only (type dc_type : Z) (rss : bool) (rsn ece tirn icm : Z) : created :=
  Created (blank_qp type) dc_type rss rsn false 0 0 false ece tirn 0 0 0 icm None no_ptrs None 0.

(** A field of the kernel's answer, if its mask says it is there. *)
Definition resp_field (r : create_resp) (mask v : Z) : Z := if has (cr_comp_mask r) mask then v else 0.

Definition is_xrc_tgt (type : Z) : bool := type =? IBV_QPT_XRC_RECV.

(** A register counts as taken if it is one of the queue pairs' registers. *)
Definition uar_taken (u : option uar) : bool := match u with Some u => u_dedicated u || u_shared u | None => false end.

(** The labels of [create_qp], each falling through to the next. *)
Definition at_err : list event := [Rel RQp].
Definition at_err_free_qp_buf (p : qp_ptrs) : list event := mlx5_free_qp_buf p ++ at_err.
Definition at_err_rq_db (p : qp_ptrs) : list event := [Rel RDb] ++ at_err_free_qp_buf p.
Definition at_err_free_uidx (c : create_ctx) (type : Z) (u : option uar) (p : qp_ptrs) : list event :=
  free_if (uar_taken u) RUar ++
  (if cc_cqe_version c =? 0 then [Rel RTableMutex] else if negb (is_xrc_tgt type) then [Rel RUidx] else []) ++ at_err_rq_db p.
Definition at_err_destroy (c : create_ctx) (type : Z) (u : option uar) (p : qp_ptrs) : list event :=
  [Rel RKernelQp] ++ at_err_free_uidx c type u p.

(** [mlx5_init_qp_indices]. *)
Definition mlx5_init_qp_indices (qp : mlx5_qp) : mlx5_qp :=
  let q := sq qp in
  let qp := with_sq qp (Wq (wrid q) (wqe_head q) (wqe_cnt q) (max_post q) 0 0 0
    (max_gs q) (qp_state_max_gs q) (wqe_shift q) (wq_offset q) (qend q) (wr_data q)) in
  let q := rq qp in
  with_rq qp (Wq (wrid q) (wqe_head q) (wqe_cnt q) (max_post q) 0 0 (cur_post q)
    (max_gs q) (qp_state_max_gs q) (wqe_shift q) (wq_offset q) (qend q) (wr_data q)).

Definition with_state_gs (q : mlx5_wq) (n : Z) : mlx5_wq :=
  Wq (wrid q) (wqe_head q) (wqe_cnt q) (max_post q) (head q) (tail q) (cur_post q)
    (max_gs q) n (wqe_shift q) (wq_offset q) (qend q) (wr_data q).

Definition IBV_QPS_RESET : Z := 0.
Definition IBV_QPS_INIT : Z := 1.
Definition IBV_QPS_RTR : Z := 2.
Definition IBV_QPS_RTS : Z := 3.

Definition with_cq (c : created) (qp : mlx5_qp) (w : option wr_complete) : created :=
  Created qp (cq_dc_type c) (cq_rss c) (cq_rsn c) (cq_need_mmo c) (cq_buf_size c) (cq_sq_buf_size c) (cq_custom_db c)
    (cq_ece c) (cq_tirn c) (cq_tisn c) (cq_rqn c) (cq_sqn c) (cq_icm c) (cq_uar c) (cq_ptrs c) w (cq_set_ece c).

(** [mlx5_qp_fill_wr_complete_error] and [mlx5_qp_fill_wr_complete_real]. *)
Definition fill_wr_complete (w : option wr_complete) (x : wr_complete) : option wr_complete :=
  match w with Some _ => Some x | None => None end.

Definition set_qp_operational_state (c : created) (state : Z) : created :=
  let qp := cq c in
  if state =? IBV_QPS_RESET then
    with_cq c (with_sq (with_rq qp (with_state_gs (rq qp) (-1))) (with_state_gs (sq qp) (-1)))
      (fill_wr_complete (cq_complete c) CompleteError)
  else if state =? IBV_QPS_INIT then with_cq c (with_rq qp (with_state_gs (rq qp) (max_gs (rq qp)))) (cq_complete c)
  else if state =? IBV_QPS_RTS then
    with_cq c (with_sq qp (with_state_gs (sq qp) (max_gs (sq qp)))) (fill_wr_complete (cq_complete c) CompleteReal)
  else c.

(** *** The stages of [create_qp] *)

(** A stage ends the call with a result, or hands a value to the next one. *)
Inductive stage (A : Type) := Stop (r : create_result) (cmds : list kernel_cmd) (es : list event) | Next (x : A).
Arguments Stop {A}.
Arguments Next {A}.

(** The checks before anything is allocated. *)
Definition early_checks (a : create_attr) (dv : option dv_attr) : option create_result :=
  let ia := ca_init a in
  if beyond (ia_comp_mask ia) MLX5_CREATE_QP_SUP_COMP_MASK then Some (Null None) else
  if has (ia_comp_mask ia) IBV_QP_INIT_ATTR_MAX_TSO_HEADER && negb (ia_type ia =? IBV_QPT_RAW_PACKET) then Some (Null None) else
  let dct := match dv with
    | Some d => (ia_type ia =? IBV_QPT_DRIVER) && has (dv_comp_mask d) MLX5DV_QP_INIT_ATTR_MASK_DC && (dv_dc_type d =? MLX5DV_DCTYPE_DCT)
    | None => false end in
  if has (ia_comp_mask ia) IBV_QP_INIT_ATTR_SEND_OPS_FLAGS && (has (ia_comp_mask ia) IBV_QP_INIT_ATTR_RX_HASH || dct)
  then Some (Null (Some EINVAL)) else None.

(** The flags and the special kinds: the command's flags, the queue pair's
    flags, the DC type and the stream limits of an ordinary queue pair. *)
Definition kind_stage (c : create_ctx) (e : create_env) (a : create_attr) (dv : option dv_attr) : stage (Z * Z * Z * Z * Z) :=
  let ia := ca_init a in
  let type := ia_type ia in
  let r := en_resp e in
  let source_qpn := has (ia_comp_mask ia) IBV_QP_INIT_ATTR_CREATE_FLAGS && has (ca_create_flags a) IBV_QP_CREATE_SOURCE_QPN in
  if source_qpn && negb (type =? IBV_QPT_UD) then Stop (Null (Some EINVAL)) [] ([Acq RQp] ++ at_err) else
  let qf := if source_qpn then MLX5_QP_FLAGS_USE_UNDERLAY else 0 in
  let f := if en_scatter e then MLX5_QP_FLAG_SCATTER_CQE else 0 in
  match dv_checks c type dv f qf with
  | DvErr errno => Stop (Null errno) [] ([Acq RQp] ++ at_err)
  | DvDct f =>
    match dv with
    | None => Stop (Null None) [] ([Acq RQp] ++ at_err)
    | Some d =>
      let '(ret, cmds, es) := create_dct c e a d f in
      if negb (ret =? 0) then Stop (Null (match cmds with [] => Some ret | _ => None end)) cmds ([Acq RQp] ++ es ++ at_err)
      else Stop (Done (kernel_only type MLX5DV_DCTYPE_DCT false (if cc_cqe_version c =? 0 then 0 else en_uidx e) (cr_ece (en_resp e)) 0 0)) cmds ([Acq RQp] ++ es)
    end
  | DvOk f qf dc lc le =>
    if has (ia_comp_mask ia) IBV_QP_INIT_ATTR_RX_HASH then
      let '(ret, cmds, es) := mlx5_cmd_create_rss_qp e a (Z.land f (notu 32 MLX5_QP_FLAG_SCATTER_CQE)) in
      if negb (ret =? 0) then Stop (Null (match cmds with [] => Some ret | _ => None end)) cmds ([Acq RQp] ++ es ++ at_err)
      else Stop (Done (kernel_only type dc true 0 0 (resp_field r MLX5_IB_CREATE_QP_RESP_MASK_TIRN (cr_tirn r))
        (resp_field r MLX5_IB_CREATE_QP_RESP_MASK_TIR_ICM_ADDR (cr_icm r)))) cmds ([Acq RQp] ++ es)
    else Next (f, qf, dc, lc, le)
  end.

Definition dv_has (dv : option dv_attr) (m : Z) : bool := match dv with Some d => has (dv_comp_mask d) m | None => false end.

(** [qp_init_wr_memcpy]: the error number, and whether the copy engine of the
    queue pair has to be enabled.  The buffer and memory region that
    [reg_opaque_mr] makes on first use belong to the protection domain, which
    releases them: of them only the error number [en_opaque] is an input here,
    and they are not among the resources of the queue pair. *)
Definition qp_init_wr_memcpy (c : create_ctx) (e : create_env) (a : create_attr) : Z * bool :=
  if negb (has (ia_comp_mask (ca_init a)) IBV_QP_INIT_ATTR_PD) then (EINVAL, false)
  else if negb (cc_mmo_sq c) && negb (cc_mmo_qp c) then (EOPNOTSUPP, false)
  else (en_opaque e, cc_mmo_qp c).

(** The operations: flags of the command, whether the copy engine is needed,
    and how batches end. *)
Definition ops_stage (c : create_ctx) (e : create_env) (a : create_attr) (dv : option dv_attr) (qp : mlx5_qp) (f : Z)
  : option (stage (Z * bool * option wr_complete)) :=
  let ia := ca_init a in
  let fail (errno : option Z) := Some (Stop (Null errno) [] ([Acq RQp] ++ at_err)) in
  if has (ia_comp_mask ia) IBV_QP_INIT_ATTR_SEND_OPS_FLAGS || dv_has dv MLX5DV_QP_INIT_ATTR_MASK_SEND_OPS_FLAGS then
    let f := if dv_has dv MLX5DV_QP_INIT_ATTR_MASK_DC then Z.land f (notu 32 MLX5_QP_FLAG_SCATTER_CQE) else f in
    r ← mlx5_qp_fill_wr_pfns qp (ia_type ia) (ia_send_ops ia) dv;
    match r with
    | FillError err => fail (Some err)
    | Filled _ =>
      let memcpy := match dv with
        | Some d => has (dv_comp_mask d) MLX5DV_QP_INIT_ATTR_MASK_SEND_OPS_FLAGS && has (dv_send_ops_flags d) MLX5DV_QP_EX_WITH_MEMCPY
        | None => false end in
      if memcpy then
        let '(ret, mmo) := qp_init_wr_memcpy c e a in
        if negb (ret =? 0) then fail (Some ret) else Some (Next (f, mmo, Some CompleteReal))
      else Some (Next (f, false, Some CompleteReal))
    end
  else Some (Next (f, false, None)).

(** The sizes and buffers: the queue pair with its rings, and what it has.  The
    spinlocks of the two queues are set up one after the other; they have nothing
    to release, and their failures lead to the same label: one input stands for
    both. *)
Definition buf_stage (c : create_ctx) (e : create_env) (a : create_attr) (dv : option dv_attr) (dc : Z) (qp : mlx5_qp)
  : option (init_attr * stage (mlx5_qp * qp_ptrs * Z * Z * list event)) :=
  let type := ia_type (ca_init a) in
  r ← mlx5_calc_wq_size (cc_caps c) dc (ca_init a) dv qp;
  let '(ret, ia, qp) := r in
  if ret <? 0 then Some (ia, Stop (Null (Some (- ret))) [] ([Acq RQp] ++ at_err)) else
  let own := own_sq_buf type (qp_flags qp) in
  let buf_size := if own then wq_offset (sq qp) else ret in
  let sq_buf_size := if own then ret - wq_offset (sq qp) else 0 in
  let qp := if own then with_sq qp (with_wq_offset (sq qp) 0) else qp in
  match mlx5_alloc_qp_buf e type qp with
  | (None, es) => Some (ia, Stop (Null None) [] ([Acq RQp] ++ es ++ at_err))
  | (Some (ptrs, qp), es) =>
    let start := if own then default 0 (en_sq_buf e) else qp_buf qp + wq_offset (sq qp) in
    let q := sq qp in
    let q := Wq (wrid q) (wqe_head q) (wqe_cnt q) (max_post q) (head q) (tail q) (cur_post q) (max_gs q) (qp_state_max_gs q)
      (wqe_shift q) (wq_offset q) (start + shlu 32 (wqe_cnt q) (wqe_shift q)) (wr_data q) in
    let qp := Qp (qp_type qp) (qp_num qp) (qp_state qp) (qp_buf qp) (max_inline_data qp) (bf qp) (fm_cache qp)
      (sq_signal_bits qp) start q (db qp) (rq qp) (wq_sig qp) (qp_cap_cache qp)
      (atomics_enabled qp) (max_tso qp) (max_tso_header qp) (qp_flags qp) in
    let qp := mlx5_init_qp_indices qp in
    let es := [Acq RQp] ++ es in
    if negb (en_locks e) then Some (ia, Stop (Null None) [] (es ++ at_err_free_qp_buf ptrs)) else
    if en_db e =? 0 then Some (ia, Stop (Null None) [] (es ++ at_err_free_qp_buf ptrs)) else
    Some (ia, Next (qp, ptrs, buf_size, sq_buf_size, es ++ [Acq RDb]))
  end.

(** The register of the queue pair: that of the thread domain, one that
    [mlx5_get_qp_uar] takes, or none; [None] is the failure to get one. *)
Definition choose_uar (c : create_ctx) (e : create_env) (p : pd) : option (option uar * list event) :=
  match (if pd_parent p then pd_mtd_bf p else None) with
  | Some u => Some (Some u, [])
  | None =>
    if negb (has (cc_flags c) MLX5_CTX_FLAGS_NO_KERN_DYN_UAR)
    then match en_uar e with Some u => Some (Some u, if uar_taken (Some u) then [Acq RUar] else []) | None => None end
    else Some (None, [])
  end.

Definition with_cap (a : init_attr) (c : ibv_qp_cap) : init_attr :=
  InitAttr (ia_type a) (ia_comp_mask a) c (ia_srq a) (ia_send_ops a) (ia_max_tso_header a).

(** The queue pair as it is returned: register, signalling, capabilities. *)
Definition finish_qp (e : create_env) (a : create_attr) (qp : mlx5_qp) (b : mlx5_bf) : mlx5_qp :=
  Qp (qp_type qp) (en_qpn e) (qp_state qp) (qp_buf qp) (max_inline_data qp) b (fm_cache qp)
    (if ca_sq_sig_all a then MLX5_WQE_CTRL_CQ_UPDATE else 0) (sq_start qp) (sq qp) (en_db e) (rq qp) (wq_sig qp) (qp_cap_cache qp)
    (atomics_enabled qp) (max_tso qp) (max_tso_header qp) (qp_flags qp).

Definition finish_cap (qp : mlx5_qp) (c : ibv_qp_cap) : ibv_qp_cap :=
  Cap (max_post (sq qp)) (max_post (rq qp)) (cap_send_sge c) (u32 (max_gs (rq qp))) (cap_inline c).

(** From the user index to the end. *)
Definition kernel_stage (c : create_ctx) (e : create_env) (a : create_attr) (ia : init_attr) (qp : mlx5_qp) (ptrs : qp_ptrs)
    (f dc lc le : Z) (mmo : bool) (complete : option wr_complete) (buf_size sq_buf_size : Z) (es : list event)
  : option (create_result * init_attr * list kernel_cmd * list event) :=
  let type := ia_type ia in
  let versioned := negb (cc_cqe_version c =? 0) in
  if versioned && negb (is_xrc_tgt type) && (en_uidx e <? 0) then Some (Null None, ia, [], es ++ at_err_rq_db ptrs) else
  let uidx := if negb versioned then 0xffffff else if negb (is_xrc_tgt type) then en_uidx e else 0 in
  let es := es ++ (if negb versioned then [Acq RTableMutex] else if negb (is_xrc_tgt type) then [Acq RUidx] else []) in
  match choose_uar c e (ca_pd a) with
  | None => Some (Null None, ia, [], es ++ at_err_free_uidx c type None ptrs)
  | Some (u, es_u) =>
    let es := es ++ es_u in
    let '(f, bfreg) := match u with
      | Some u => if u_dyn_alloc u then (Z.lor f MLX5_QP_FLAG_UAR_PAGE_INDEX, u_page_id u) else (Z.lor f MLX5_QP_FLAG_BFREG_INDEX, u_dyn_index u)
      | None => (f, 0) end in
    let cmd := CmdQp (CreateCmd f (qp_buf qp) (if own_sq_buf type (qp_flags qp) then default 0 (en_sq_buf e) else 0) (en_db e)
      (wqe_cnt (sq qp)) (wqe_cnt (rq qp)) (wqe_shift (rq qp)) uidx bfreg (ece_trigger c) lc le) in
    if negb (en_cmd e =? 0) then Some (Null None, ia, [cmd], es ++ at_err_free_uidx c type u ptrs) else
    let es := es ++ [Acq RKernelQp] in
    let rings := negb (wqe_cnt (sq qp) =? 0) || negb (wqe_cnt (rq qp) =? 0) in
    if negb versioned && rings && negb (en_store_qp e =? 0) then Some (Null None, ia, [cmd], es ++ at_err_destroy c type u ptrs) else
    let es := es ++ (if negb versioned then (if rings then [Acq RTableQp] else []) ++ [Rel RTableMutex] else []) in
    let r := en_resp e in
    b ← (match u with Some u => Some (u_bf u) | None => (cc_bfs c).[cr_bfreg_index r] end);
    let q := Created (finish_qp e a qp b) dc false (if versioned && negb (is_xrc_tgt type) then en_uidx e else en_qpn e) mmo
      buf_size sq_buf_size (en_custom_db e) (cr_ece r)
      (resp_field r MLX5_IB_CREATE_QP_RESP_MASK_TIRN (cr_tirn r)) (resp_field r MLX5_IB_CREATE_QP_RESP_MASK_TISN (cr_tisn r))
      (resp_field r MLX5_IB_CREATE_QP_RESP_MASK_RQN (cr_rqn r)) (resp_field r MLX5_IB_CREATE_QP_RESP_MASK_SQN (cr_sqn r))
      (resp_field r MLX5_IB_CREATE_QP_RESP_MASK_TIR_ICM_ADDR (cr_icm r)) u ptrs complete 0 in
    Some (Done (set_qp_operational_state q IBV_QPS_RESET), with_cap ia (finish_cap qp (ia_cap ia)), [cmd],
      es ++ if pd_parent (ca_pd a) then [Acq RPdRef] else [])
  end.

Definition with_kind (qp : mlx5_qp) (atomics sig : bool) (qf : Z) : mlx5_qp :=
  Qp (qp_type qp) (qp_num qp) (qp_state qp) (qp_buf qp) (max_inline_data qp) (bf qp) (fm_cache qp)
    (sq_signal_bits qp) (sq_start qp) (sq qp) (db qp) (rq qp) sig (qp_cap_cache qp) atomics (max_tso qp) (max_tso_header qp) qf.

Definition create_qp (c : create_ctx) (e : create_env) (a : create_attr) (dv : option dv_attr)
  : option (create_result * init_attr * list kernel_cmd * list event) :=
  let ia := ca_init a in
  match early_checks a dv with
  | Some r => Some (r, ia, [], [])
  | None =>
    if negb (en_calloc e) then Some (Null None, ia, [], []) else
    match kind_stage c e a dv with
    | Stop r cmds es => Some (r, ia, cmds, es)
    | Next (f, qf, dc, lc, le) =>
      let qp := with_kind (blank_qp (ia_type ia)) (cc_atomic_cap c) false qf in
      o ← ops_stage c e a dv qp f;
      match o with
      | Stop r cmds es => Some (r, ia, cmds, es)
      | Next (f, mmo, complete) =>
        let qp := with_kind qp (cc_atomic_cap c) (en_sig e) qf in
        let f := if en_sig e then Z.lor f MLX5_QP_FLAG_SIGNATURE else f in
        b ← buf_stage c e a dv dc qp;
        match b with
        | (ia, Stop r cmds es) => Some (r, ia, cmds, es)
        | (ia, Next (qp, ptrs, buf_size, sq_buf_size, es)) =>
          kernel_stage c e a ia qp ptrs f dc lc le mmo complete buf_size sq_buf_size es
        end
      end
    end
  end.

(** ** Destruction *)

(** The calls of [mlx5_cq_clean] for the queues of the queue pair. *)
Inductive clean_call := CleanRecv | CleanSend.

(** The events of [mlx5_destroy_qp] for the queue pair and the state of the
    verbs layer; [ret] is the answer of the kernel. *)
Definition mlx5_destroy_qp (c : create_ctx) (p : pd) (q : created) (state : Z) (same_cq : bool) (ret : Z)
  : Z * list event * list clean_call :=
  let ref := free_if (pd_parent p) RPdRef in
  let free := ref ++ free_if (uar_taken (cq_uar q)) RUar ++ [Rel RQp] in
  if cq_rss q then
    if negb (ret =? 0) then (ret, [], []) else (0, [Rel RKernelQp] ++ free, [])
  else
    let versioned := negb (cc_cqe_version c =? 0) in
    if negb (ret =? 0) then (ret, if versioned then [] else [Acq RTableMutex; Rel RTableMutex], []) else
    let dct := cq_dc_type q =? MLX5DV_DCTYPE_DCT in
    let rings := negb (wqe_cnt (sq (cq q)) =? 0) || negb (wqe_cnt (rq (cq q)) =? 0) in
    let clear := negb versioned && if dct then state =? IBV_QPS_RTR else rings in
    (0, (if versioned then [] else [Acq RTableMutex]) ++ [Rel RKernelQp] ++ free_if clear RTableQp ++
        (if versioned then free_if (negb (is_xrc_tgt (qp_type (cq q)))) RUidx else [Rel RTableMutex]) ++
        (if dct then [] else [Rel RDb] ++ mlx5_free_qp_buf (cq_ptrs q)) ++ free,
     CleanRecv :: if same_cq then [] else [CleanSend]).

(** ** Changes of state *)

Definition IBV_QP_STATE : Z := 2 ^ 0.
Definition IBV_QP_CUR_STATE : Z := 2 ^ 1.
Definition IBV_QP_ACCESS_FLAGS : Z := 2 ^ 3.
Definition IBV_QP_PKEY_INDEX : Z := 2 ^ 4.
Definition IBV_QP_PORT : Z := 2 ^ 5.
Definition IBV_QP_AV : Z := 2 ^ 7.
Definition IBV_QP_PATH_MTU : Z := 2 ^ 8.
Definition IBV_QP_TIMEOUT : Z := 2 ^ 9.
Definition IBV_QP_RETRY_CNT : Z := 2 ^ 10.
Definition IBV_QP_RNR_RETRY : Z := 2 ^ 11.
Definition IBV_QP_RQ_PSN : Z := 2 ^ 12.
Definition IBV_QP_MAX_QP_RD_ATOMIC : Z := 2 ^ 13.
Definition IBV_QP_MIN_RNR_TIMER : Z := 2 ^ 15.
Definition IBV_QP_SQ_PSN : Z := 2 ^ 16.
Definition IBV_QP_MAX_DEST_RD_ATOMIC : Z := 2 ^ 17.
Definition IBV_QP_DEST_QPN : Z := 2 ^ 20.
Definition IBV_DEVICE_UD_IP_CSUM : Z := 2 ^ 18.
Definition IBV_DEVICE_RAW_IP_CSUM : Z := 2 ^ 26.
Definition IBV_LINK_LAYER_ETHERNET : Z := 2.
Definition MLX5_RX_CSUM_VALID : Z := 2 ^ 16.

(** What the context has cached of the device and its ports. *)
Record modify_ctx := ModifyCtx { mc_device_cap_flags : Z; mc_link_layer : list Z; mc_tso_qpts : Z; mc_max_tso : Z }.

Record modify_attr := ModifyAttr { ma_mask : Z; ma_state : Z; ma_port_num : Z }.

(** The answers of the kernel, and whether the queue pair has a receive and a
    send completion queue and whether they are the same. *)
Record modify_env := ModifyEnv {
  me_dct : Z; me_ret : Z; me_ece : Z; me_sigerr : Z; me_mmo : Z; me_recv_cq : bool; me_send_cq : bool; me_same_cq : bool }.

Definition with_caps (qp : mlx5_qp) (cache tso : Z) : mlx5_qp :=
  Qp (qp_type qp) (qp_num qp) (qp_state qp) (qp_buf qp) (max_inline_data qp) (bf qp) (fm_cache qp)
    (sq_signal_bits qp) (sq_start qp) (sq qp) (db qp) (rq qp) (wq_sig qp) cache (atomics_enabled qp) tso (max_tso_header qp) (qp_flags qp).

Definition with_ece (c : created) (set get : Z) : created :=
  Created (cq c) (cq_dc_type c) (cq_rss c) (cq_rsn c) (cq_need_mmo c) (cq_buf_size c) (cq_sq_buf_size c) (cq_custom_db c)
    get (cq_tirn c) (cq_tisn c) (cq_rqn c) (cq_sqn c) (cq_icm c) (cq_uar c) (cq_ptrs c) (cq_complete c) set.

(** The checksum and segmentation capabilities of the port. *)
Definition port_caps (mc : modify_ctx) (ma : modify_attr) (qp : mlx5_qp) : option mlx5_qp :=
  if has (ma_mask ma) IBV_QP_PORT && (qp_type qp =? IBV_QPT_RAW_PACKET) then
    ll ← (mc_link_layer mc).[ma_port_num ma - 1];
    if ll =? IBV_LINK_LAYER_ETHERNET then
      let cache := if has (mc_device_cap_flags mc) IBV_DEVICE_RAW_IP_CSUM
        then Z.lor (qp_cap_cache qp) (Z.lor MLX5_CSUM_SUPPORT_RAW_OVER_ETH MLX5_RX_CSUM_VALID) else qp_cap_cache qp in
      let tso := if has (mc_tso_qpts mc) (2 ^ IBV_QPT_RAW_PACKET) then mc_max_tso mc else max_tso qp in
      Some (with_caps qp cache tso)
    else Some qp
  else Some qp.

(** The queue pair, the memory of its doorbell record, and the completion
    queues cleaned of its completions. *)
Definition mlx5_modify_qp (mc : modify_ctx) (e : modify_env) (ma : modify_attr) (c : created) (m : mem)
  : option (Z * created * mem * list clean_call) :=
  let under := has (qp_flags (cq c)) MLX5_QP_FLAGS_USE_UNDERLAY in
  if cq_dc_type c =? MLX5DV_DCTYPE_DCT then Some (me_dct e, c, m, []) else
  if cq_rss c then Some (EOPNOTSUPP, c, m, []) else
  if under && beyond (ma_mask ma) (Z.lor IBV_QP_STATE IBV_QP_CUR_STATE) then Some (EINVAL, c, m, []) else
  let qp := cq c in
  let qp := if under && has (mc_device_cap_flags mc) IBV_DEVICE_UD_IP_CSUM
    then with_caps qp (Z.lor (qp_cap_cache qp) (Z.lor MLX5_CSUM_SUPPORT_UNDERLAY_UD MLX5_RX_CSUM_VALID)) (max_tso qp) else qp in
  qp ← port_caps mc ma qp;
  let ret := me_ret e in
  let c := with_cq c qp (cq_complete c) in
  let c := if (ret =? 0) && negb (cq_set_ece c =? 0) then with_ece c 0 (me_ece e) else c in
  let state := ma_state ma in
  let goes (s : Z) := (ret =? 0) && has (ma_mask ma) IBV_QP_STATE && (state =? s) in
  let '(c, m, calls) :=
    if goes IBV_QPS_RESET then
      (with_cq c (mlx5_init_qp_indices (cq c)) (cq_complete c),
       st_le 4 (st_le 4 m (db (cq c)) 0) (db (cq c) + 4) 0,
       (if me_recv_cq e then [CleanRecv] else []) ++ (if negb (me_same_cq e) && me_send_cq e then [CleanSend] else []))
    else (c, m, []) in
  let m := if goes IBV_QPS_RTR && own_sq_buf (qp_type (cq c)) (qp_flags (cq c))
    then st_be 4 m (db (cq c)) (Z.land (head (rq (cq c))) 0xffff) else m in
  let ret := if goes IBV_QPS_INIT && has (qp_flags (cq c)) MLX5_QP_FLAGS_DRAIN_SIGERR then me_sigerr e else ret in
  let ret := if (ret =? 0) && has (ma_mask ma) IBV_QP_STATE && (state =? IBV_QPS_INIT) && cq_need_mmo c then me_mmo e else ret in
  let c := if (ret =? 0) && has (ma_mask ma) IBV_QP_STATE then set_qp_operational_state c state else c in
  Some (ret, c, m, calls).

(** ** Traces *)

Definition all_resources : list resource :=
  [RQp; RSqWrid; RSqWrData; RSqWqeHead; RRqWrid; RBuf; RSqBuf; RDb; RUidx; RUar; RKernelQp; RTableQp; RTableMutex; RPdRef].

(** The executable forms of the two properties of traces. *)
Definition traces_to (es : list event) (f : resource -> Z) : bool := forallb (fun r => held es r =? f r) all_resources.
Definition safe_trace (es : list event) : bool :=
  forallb (fun n => forallb (fun r => 0 <=? held (take n es) r) all_resources) (seq 0 (S (length es))).

Lemma all_resources_complete r : In r all_resources.
Proof. destruct r; cbn; tauto. Qed.

Lemma traces_to_spec es f : traces_to es f = true -> forall r, held es r = f r.
Proof. unfold traces_to. rewrite forallb_forall. intros H r. apply Z.eqb_eq, H, all_resources_complete. Qed.

Lemma safe_trace_spec es : safe_trace es = true -> never_over_released es.
Proof.
  unfold safe_trace. rewrite forallb_forall. intros H n r. destruct (decide (n <= length es)%nat) as [Hn|Hn].
  - specialize (H n). rewrite in_seq in H. specialize (H ltac:(lia)). rewrite forallb_forall in H. apply Z.leb_le, H, all_resources_complete.
  - specialize (H (length es)). rewrite in_seq in H. specialize (H ltac:(lia)). rewrite forallb_forall in H.
    rewrite take_ge by lia. rewrite <- (firstn_all es) at 1. apply Z.leb_le, H, all_resources_complete.
Qed.

(** Nothing is held at the end, and nothing was released that was not held. *)
Definition clean (es : list event) : Prop := (forall r, held es r = 0) /\ never_over_released es.

Lemma clean_check es : traces_to es (fun _ => 0) && safe_trace es = true -> clean es.
Proof. intros [H1 H2]%andb_true_iff. split; [by apply (traces_to_spec es (fun _ => 0))|by apply safe_trace_spec]. Qed.

(** What the buffers of a queue pair are acquired with. *)
Definition buf_events (has_sq has_rq own : bool) : list event :=
  (if has_sq then [Acq RSqWrid; Acq RSqWrData; Acq RSqWqeHead] else []) ++ (if has_rq then [Acq RRqWrid] else []) ++
  [Acq RBuf] ++ (if own then [Acq RSqBuf] else []).

Lemma alloc_qp_buf_trace e type qp :
  match mlx5_alloc_qp_buf e type qp with
  | (None, es) => clean es /\ clean ([Acq RQp] ++ es ++ at_err)
  | (Some (ptrs, qp'), es) =>
    let has_sq := negb (wqe_cnt (sq qp) =? 0) in
    let has_rq := negb (wqe_cnt (rq qp) =? 0) in
    let own := own_sq_buf type (qp_flags qp) in
    es = buf_events has_sq has_rq own /\ ptrs = QpPtrs has_sq has_sq has_sq has_rq own
  end.
Proof.
  unfold mlx5_alloc_qp_buf. destruct (negb (wqe_cnt (sq qp) =? 0)), (negb (wqe_cnt (rq qp) =? 0)), (own_sq_buf type (qp_flags qp)),
    (en_sq_wrid e), (en_wr_data e), (en_wqe_head e), (en_rq_wrid e), (en_buf e), (en_sq_buf e); cbn [andb negb];
    (split; apply clean_check; vm_compute; reflexivity) || (split; reflexivity).
Qed.

Ltac clean := apply clean_check; vm_compute; reflexivity.

(** The queue pairs that exist in the kernel only, and what they hold. *)
Definition special (c : create_ctx) (q : created) (es : list event) : Prop :=
  cq_ptrs q = no_ptrs /\ cq_uar q = None /\
  if cq_rss q then es = [Acq RQp; Acq RKernelQp]
  else cq_dc_type q = MLX5DV_DCTYPE_DCT /\ is_xrc_tgt (qp_type (cq q)) = false /\
       es = [Acq RQp] ++ (if negb (cc_cqe_version c =? 0) then [Acq RUidx] else []) ++ [Acq RKernelQp].

Definition result_trace (c : create_ctx) (r : create_result) (es : list event) : Prop :=
  match r with Null _ => clean es | Done q => special c q es end.

Lemma dv_checks_dct c type dv f qf f' : dv_checks c type dv f qf = DvDct f' -> type = IBV_QPT_DRIVER.
Proof.
  unfold dv_checks. destruct dv as [d|]; [|by case_match]. destruct (beyond _ _); [done|]. destruct (_ && _); [done|].
  destruct (if has _ _ then _ else _); [done|]. destruct (Z.eqb_spec type IBV_QPT_DRIVER); [done|]. by cbn [negb].
Qed.

Lemma kind_stage_trace c e a dv :
  match kind_stage c e a dv with Stop r _ es => result_trace c r es | Next _ => True end.
Proof.
  unfold kind_stage, result_trace, special. cbv zeta. destruct (_ && _); [clean|]. destruct (dv_checks _ _ _ _ _) as [errno|f|f qf dc lc le] eqn:E; [clean| |].
  - apply dv_checks_dct in E. destruct dv as [d|]; [|clean]. unfold create_dct. rewrite E.
    repeat (destruct (beyond _ _); [cbn; clean|]).
    destruct (cc_cqe_version c =? 0), (en_uidx e <? 0), (en_dct e =? 0) eqn:Ed; cbn; rewrite ?Ed; cbn; try clean; split_and!; done.
  - destruct (has (ia_comp_mask (ca_init a)) IBV_QP_INIT_ATTR_RX_HASH); [|done]. unfold mlx5_cmd_create_rss_qp. destruct (_ <? _); [cbn; clean|]. destruct (en_rss e =? 0) eqn:Er; cbn; rewrite ?Er; cbn; [|clean].
    by split_and!.
Qed.

Lemma ops_stage_trace c e a dv qp f :
  match ops_stage c e a dv qp f with Some (Stop r _ es) => result_trace c r es /\ exists n, r = Null n | _ => True end.
Proof.
  unfold ops_stage. cbv zeta. destruct (_ || _); [|done]. destruct (mlx5_qp_fill_wr_pfns _ _ _ _) as [[err|p]|]; cbn [mbind option_bind]; [|..|done].
  - split; [clean|by eexists].
  - destruct (match dv with Some d => _ | None => _ end); [|done]. destruct (qp_init_wr_memcpy c e a) as [ret mmo].
    destruct (negb (ret =? 0)); [|done]. split; [clean|by eexists].
Qed.

Lemma calc_sq_size_keeps c dc a dv qp ret a' qp' :
  mlx5_calc_sq_size c dc a dv qp = Some (ret, a', qp') ->
  ia_type a' = ia_type a /\ qp_type qp' = qp_type qp /\ qp_flags qp' = qp_flags qp /\ rq qp' = rq qp /\ wq_sig qp' = wq_sig qp.
Proof.
  unfold mlx5_calc_sq_size. destruct (mlx5_calc_send_wqe c dc a dv qp) as [n qp1] eqn:E1.
  assert (qp_type qp1 = qp_type qp /\ qp_flags qp1 = qp_flags qp /\ rq qp1 = rq qp /\ wq_sig qp1 = wq_sig qp) as (H1 & H2 & H3 & H4).
  { unfold mlx5_calc_send_wqe in E1. repeat case_match; simplify_eq; done. }
  intros E. repeat case_match; simplify_eq; done.
Qed.

Lemma calc_rq_size_keeps c a dv qp ret qp' :
  mlx5_calc_rq_size c a dv qp = Some (ret, qp') -> qp_type qp' = qp_type qp /\ qp_flags qp' = qp_flags qp /\ sq qp' = sq qp.
Proof.
  unfold mlx5_calc_rq_size. intros E. case_match; [by simplify_eq|]. destruct (mlx5_get_max_recv_wr c a dv) as [r wr].
  case_match; [by simplify_eq|]. apply bind_Some in E as (n & _ & E). case_match; [by simplify_eq|]. case_match; [done|].
  destruct (negb (n =? 0)); [|by simplify_eq]. apply bind_Some in E as (post & _ & E). by simplify_eq.
Qed.

Lemma calc_wq_size_inv c dc a dv qp ret a' qp' :
  mlx5_calc_wq_size c dc a dv qp = Some (ret, a', qp') -> 0 <= ret ->
  exists ret1 qp1 ret2 qp2, mlx5_calc_sq_size c dc a dv qp = Some (ret1, a', qp1) /\ mlx5_calc_rq_size c a' dv qp1 = Some (ret2, qp2) /\
    0 <= ret1 /\ 0 <= ret2 /\ ret = ret1 + ret2 /\
    qp' = with_rq (with_sq qp2 (with_wq_offset (sq qp2) ret2)) (with_wq_offset (rq qp2) 0).
Proof.
  unfold mlx5_calc_wq_size. intros E Hr. apply bind_Some in E as ([[ret1 a1] qp1] & E1 & E).
  destruct (Z.ltb_spec ret1 0); [simplify_eq; lia|]. apply bind_Some in E as ([ret2 qp2] & E2 & E).
  destruct (Z.ltb_spec ret2 0); [simplify_eq; lia|]. destruct (_ <=? _); [done|]. simplify_eq. by eexists _, _, _, _.
Qed.

Lemma calc_wq_size_keeps c dc a dv qp ret a' qp' :
  mlx5_calc_wq_size c dc a dv qp = Some (ret, a', qp') ->
  ia_type a' = ia_type a /\ qp_type qp' = qp_type qp /\ qp_flags qp' = qp_flags qp.
Proof.
  unfold mlx5_calc_wq_size. intros E. apply bind_Some in E as ([[ret1 a1] qp1] & (H1 & H2 & H3 & _)%calc_sq_size_keeps & E).
  case_match; [by simplify_eq|]. apply bind_Some in E as ([ret2 qp2] & (H4 & H5 & _)%calc_rq_size_keeps & E).
  case_match; [simplify_eq; split_and!; congruence|]. case_match; [done|]. simplify_eq. cbn. split_and!; congruence.
Qed.

Lemma free_qp_buf_clean s r o : clean (([Acq RQp] ++ buf_events s r o) ++ at_err_free_qp_buf (QpPtrs s s s r o)).
Proof. destruct s, r, o; clean. Qed.

(** The rings and what was acquired for them. *)
Lemma buf_stage_trace c e a dv dc qp :
  match buf_stage c e a dv dc qp with
  | Some (_, Stop r _ es) => result_trace c r es /\ exists n, r = Null n
  | Some (ia, Next (qp', ptrs, _, _, es)) =>
    let has_sq := negb (wqe_cnt (sq qp') =? 0) in
    let has_rq := negb (wqe_cnt (rq qp') =? 0) in
    exists own, es = [Acq RQp] ++ buf_events has_sq has_rq own ++ [Acq RDb] /\ ptrs = QpPtrs has_sq has_sq has_sq has_rq own /\
      ia_type ia = ia_type (ca_init a) /\ qp_type qp' = qp_type qp
  | None => True
  end.
Proof.
  unfold buf_stage. destruct (mlx5_calc_wq_size _ _ _ _ _) as [[[ret ia] qp1]|] eqn:E; [|done]. cbn [mbind option_bind].
  apply calc_wq_size_keeps in E as (Ht & Hq & Hf). destruct (ret <? 0); [split; [clean|by eexists]|].
  set (own := own_sq_buf _ (qp_flags qp1)). set (qp2 := if own then _ else qp1).
  assert (qp_type qp2 = qp_type qp1 /\ qp_flags qp2 = qp_flags qp1) as [Hq2 Hf2] by (unfold qp2; by destruct own).
  pose proof (alloc_qp_buf_trace e (ia_type (ca_init a)) qp2) as Htr. destruct (mlx5_alloc_qp_buf _ _ _) as [[[ptrs qp3]|] es] eqn:Ea;
    [|split; [apply Htr|by eexists]]. cbv zeta in Htr. destruct Htr as [-> ->].
  assert (qp_type qp3 = qp_type qp2 /\ wqe_cnt (sq qp3) = wqe_cnt (sq qp2) /\ wqe_cnt (rq qp3) = wqe_cnt (rq qp2)) as (Hq3 & Hs3 & Hr3).
  { unfold mlx5_alloc_qp_buf in Ea. repeat case_match; simplify_eq; done. }
  destruct (en_locks e); cbn [negb]; [|split; [apply free_qp_buf_clean|by eexists]].
  destruct (en_db e =? 0); [split; [apply free_qp_buf_clean|by eexists]|]. cbv zeta.
  unfold mlx5_init_qp_indices. cbn [sq rq wqe_cnt with_sq with_rq qp_type]. rewrite Hs3, Hr3.
  eexists. split_and!; [by rewrite <- app_assoc|done|done|congruence].
Qed.

(** The register of a thread domain is not one of the queue pairs' registers. *)
Definition pd_ok (p : pd) : Prop := match pd_mtd_bf p with Some u => uar_taken (Some u) = false | None => True end.

Lemma choose_uar_events c e p u es :
  pd_ok p -> choose_uar c e p = Some (u, es) -> es = if uar_taken u then [Acq RUar] else [].
Proof.
  unfold pd_ok, choose_uar. intros Hp E. destruct (pd_parent p), (pd_mtd_bf p) as [v|]; [injection E as <- <-; by rewrite Hp|..];
    (destruct (negb _); [destruct (en_uar e); by simplify_eq|by simplify_eq]).
Qed.

Section Trace.

Context (c : create_ctx) (type : Z) (s r o : bool).

Definition ptrs_of : qp_ptrs := QpPtrs s s s r o.
Definition versioned : bool := negb (cc_cqe_version c =? 0).

(** What is held after the doorbell record, the index or mutex, the register,
    the kernel's queue pair, and at the end. *)
Definition ev_db : list event := [Acq RQp] ++ buf_events s r o ++ [Acq RDb].
Definition ev_idx : list event :=
  ev_db ++ (if negb versioned then [Acq RTableMutex] else if negb (is_xrc_tgt type) then [Acq RUidx] else []).
Definition ev_uar (t : bool) : list event := ev_idx ++ (if t then [Acq RUar] else []).
Definition ev_kernel (t : bool) : list event := ev_uar t ++ [Acq RKernelQp].
Definition ev_done (t parent : bool) : list event :=
  (ev_kernel t ++ (if negb versioned then (if s || r then [Acq RTableQp] else []) ++ [Rel RTableMutex] else [])) ++
  (if parent then [Acq RPdRef] else []).

Lemma at_err_rq_db_clean : clean (ev_db ++ at_err_rq_db ptrs_of).
Proof. unfold ev_db, ptrs_of. destruct s, r, o; clean. Qed.

Lemma at_err_no_uar_clean : clean (ev_idx ++ at_err_free_uidx c type None ptrs_of).
Proof.
  unfold ev_idx, ev_db, ptrs_of, at_err_free_uidx, versioned. destruct (cc_cqe_version c =? 0), (is_xrc_tgt type), s, r, o; clean.
Qed.

Lemma at_err_free_uidx_clean u : clean (ev_uar (uar_taken u) ++ at_err_free_uidx c type u ptrs_of).
Proof.
  unfold ev_uar, ev_idx, ev_db, ptrs_of, at_err_free_uidx, versioned.
  destruct (uar_taken u), (cc_cqe_version c =? 0), (is_xrc_tgt type), s, r, o; clean.
Qed.

Lemma at_err_destroy_clean u : clean (ev_kernel (uar_taken u) ++ at_err_destroy c type u ptrs_of).
Proof.
  unfold ev_kernel, ev_uar, ev_idx, ev_db, ptrs_of, at_err_destroy, at_err_free_uidx, versioned.
  destruct (uar_taken u), (cc_cqe_version c =? 0), (is_xrc_tgt type), s, r, o; clean.
Qed.

End Trace.

(** What is known of a queue pair that creation returned. *)
Record ordinary (c : create_ctx) (a : create_attr) (q : created) (es : list event) : Prop := {
  or_rss : cq_rss q = false;
  or_type : qp_type (cq q) = ia_type (ca_init a);
  or_events : exists o, cq_ptrs q = ptrs_of (negb (wqe_cnt (sq (cq q)) =? 0)) (negb (wqe_cnt (rq (cq q)) =? 0)) o /\
    es = ev_done c (ia_type (ca_init a)) (negb (wqe_cnt (sq (cq q)) =? 0)) (negb (wqe_cnt (rq (cq q)) =? 0)) o
           (uar_taken (cq_uar q)) (pd_parent (ca_pd a)) }.

Lemma kernel_stage_trace c e a ia qp f dc lc le mmo w bs sbs o res ia' cmds es' :
  let has_sq := negb (wqe_cnt (sq qp) =? 0) in
  let has_rq := negb (wqe_cnt (rq qp) =? 0) in
  pd_ok (ca_pd a) -> ia_type ia = ia_type (ca_init a) -> qp_type qp = ia_type (ca_init a) ->
  kernel_stage c e a ia qp (ptrs_of has_sq has_rq o) f dc lc le mmo w bs sbs (ev_db has_sq has_rq o) = Some (res, ia', cmds, es') ->
  match res with Null _ => clean es' | Done q => ordinary c a q es' /\ cq_dc_type q = dc end.
Proof.
  cbv zeta. intros Hp Hi Hq. unfold kernel_stage. rewrite Hi. set (type := ia_type (ca_init a)) in *.
  destruct (_ && _ && (en_uidx e <? 0)); [intros [= <- _ _ <-]; apply at_err_rq_db_clean|].
  destruct (choose_uar c e (ca_pd a)) as [[u es_u]|] eqn:Eu; [|intros [= <- _ _ <-]; apply at_err_no_uar_clean].
  rewrite (choose_uar_events c e (ca_pd a) u es_u Hp Eu). destruct (match u with Some _ => _ | None => _ end) as [f' bfreg].
  destruct (negb (en_cmd e =? 0)); [intros [= <- _ _ <-]; apply at_err_free_uidx_clean|].
  destruct (_ && _ && negb (en_store_qp e =? 0)); [intros [= <- _ _ <-]; apply at_err_destroy_clean|].
  intros E. apply bind_Some in E as (b & _ & E). injection E as <- _ _ <-. split; [|done].
  split; [done|done|]. cbn [set_qp_operational_state cq cq_ptrs cq_uar]. exists o. split; [done|]. reflexivity.
Qed.

Lemma dv_checks_dc c type dv f qf f' qf' dc lc le : dv_checks c type dv f qf = DvOk f' qf' dc lc le -> dc <> MLX5DV_DCTYPE_DCT.
Proof. unfold dv_checks. intros E. repeat case_match; simplify_eq; done. Qed.

Lemma kind_stage_dc c e a dv f qf dc lc le : kind_stage c e a dv = Next (f, qf, dc, lc, le) -> dc <> MLX5DV_DCTYPE_DCT.
Proof.
  unfold kind_stage. cbv zeta. intros E. destruct (_ && _); [done|]. destruct (dv_checks _ _ _ _ _) as [|f1|f1 qf1 dc1 lc1 le1] eqn:Ed; [done|..].
  - destruct dv; [|done]. destruct (create_dct _ _ _ _ _) as [[ret cmds] es]. by destruct (negb _).
  - apply dv_checks_dc in Ed. destruct (has (ia_comp_mask _) _).
    + destruct (mlx5_cmd_create_rss_qp _ _ _) as [[ret cmds] es]. by destruct (negb _).
    + by injection E as <- <- <- <- <-.
Qed.

(** The two ways [create_qp] ends. *)
Lemma create_qp_cases c e a dv res ia cmds es :
  pd_ok (ca_pd a) -> create_qp c e a dv = Some (res, ia, cmds, es) ->
  match res with
  | Null _ => clean es
  | Done q => special c q es \/ (ordinary c a q es /\ cq_dc_type q <> MLX5DV_DCTYPE_DCT)
  end.
Proof.
  intros Hp. unfold create_qp. destruct (early_checks a dv) as [r|] eqn:Ee.
  { intros [= <- _ _ <-]. unfold early_checks in Ee. repeat case_match; simplify_eq; clean. }
  destruct (negb (en_calloc e)); [intros [= <- _ _ <-]; clean|].
  pose proof (kind_stage_trace c e a dv) as Hk. destruct (kind_stage c e a dv) as [r k es1|[[[[f qf] dc] lc] le]] eqn:Ek.
  { intros [= <- _ _ <-]. destruct r; [done|by left]. }
  apply kind_stage_dc in Ek. set (qp0 := with_kind (blank_qp _) _ _ _).
  pose proof (ops_stage_trace c e a dv qp0 f) as Ho. destruct (ops_stage c e a dv qp0 f) as [[r k es1|[[f1 mmo] w]]|]; [|..|done].
  { intros [= <- _ _ <-]. by destruct Ho as [Ho [n ->]]. }
  cbn [mbind option_bind]. set (qp1 := with_kind qp0 _ _ _).
  pose proof (buf_stage_trace c e a dv dc qp1) as Hb. destruct (buf_stage c e a dv dc qp1) as [[ia1 [r k es1|[[[[qp2 ptrs] bs] sbs] es1]]]|]; [|..|done].
  { cbn [mbind option_bind]. intros [= <- _ _ <-]. by destruct Hb as [Hb [n ->]]. }
  cbn [mbind option_bind]. cbv zeta in Hb. destruct Hb as (o & -> & -> & Hia & Hqt). intros E.
  apply (kernel_stage_trace c e a ia1 qp2 _ dc lc le mmo w bs sbs o) in E; [|done|done|by rewrite Hqt].
  destruct res; [done|]. right. destruct E as [E ->]. done.
Qed.

(** C6: A queue pair that cannot be created leaves nothing behind: on every
    path on which [create_qp] returns NULL, whichever allocation, check or
    kernel command failed, everything that was acquired has been released,
    once, and nothing was released that was not held. *)
Theorem create_qp_failure_clean c e a dv errno ia cmds es :
  pd_ok (ca_pd a) -> create_qp c e a dv = Some (Null errno, ia, cmds, es) ->
  (forall r, held es r = 0) /\ never_over_released es.
Proof. intros Hp E. exact (create_qp_cases c e a dv (Null errno) ia cmds es Hp E). Qed.

(** What destroying a queue pair after its creation leaves held: nothing, but
    for one reference too few to the parent domain of a queue pair of a special
    kind. *)
Definition left_over (special_kind parent : bool) (r : resource) : Z :=
  if special_kind && parent && bool_decide (r = RPdRef) then -1 else 0.

(** C20: Destruction undoes creation: after a queue pair was created and
    destroyed, everything either of them acquired has been released, and for
    an ordinary queue pair nothing is released twice.  Queue pairs for receive
    side scaling and DC targets, which exist in the kernel only, also drop a
    reference to the parent domain that their creation never took.  Every queue
    pair with completion queues has its completions removed from both. *)
Theorem destroy_undoes_create c e a dv q ia cmds es state same_cq es' calls :
  pd_ok (ca_pd a) -> create_qp c e a dv = Some (Done q, ia, cmds, es) ->
  (cq_dc_type q = MLX5DV_DCTYPE_DCT -> state <> IBV_QPS_RTR) ->
  mlx5_destroy_qp c (ca_pd a) q state same_cq 0 = (0, es', calls) ->
  let special_kind := cq_rss q || (cq_dc_type q =? MLX5DV_DCTYPE_DCT) in
  (forall r, held (es ++ es') r = left_over special_kind (pd_parent (ca_pd a)) r) /\
  (special_kind && pd_parent (ca_pd a) = false -> never_over_released (es ++ es')) /\
  calls = (if cq_rss q then [] else CleanRecv :: if same_cq then [] else [CleanSend]).
Proof.
  intros Hp E Hst Hd. cbv zeta. pose proof (create_qp_cases c e a dv (Done q) ia cmds es Hp E) as [Hs|[Ho Hdc]].
  - destruct Hs as (Hptr & Hu & Hk). unfold mlx5_destroy_qp in Hd. rewrite Hu in Hd. destruct (cq_rss q).
    + subst es. injection Hd as <- <-. destruct (pd_parent (ca_pd a)); (split; [apply traces_to_spec; by vm_compute|split; [intros ?; apply safe_trace_spec; by vm_compute|reflexivity]]).
    + destruct Hk as (Hdct & Hx & ->). rewrite Hdct, Hx in *. specialize (Hst eq_refl). rewrite (proj2 (Z.eqb_neq state _)) in Hd by done.
      injection Hd as <- <-. destruct (cc_cqe_version c =? 0), (pd_parent (ca_pd a)); (split; [apply traces_to_spec; by vm_compute|split; [intros ?; apply safe_trace_spec; by vm_compute|reflexivity]]).
  - destruct Ho as [Hr Ht (o & Hptr & ->)]. unfold mlx5_destroy_qp in Hd. rewrite Hr, Hptr, Ht in Hd. rewrite (proj2 (Z.eqb_neq (cq_dc_type q) _)), Hr by done.
    rewrite (proj2 (Z.eqb_neq (cq_dc_type q) _)) in Hd by done. injection Hd as <- <-. unfold ev_done, ev_kernel, ev_uar, ev_idx, ev_db, ptrs_of, versioned.
    destruct (cc_cqe_version c =? 0), (is_xrc_tgt _), (negb (wqe_cnt (sq (cq q)) =? 0)), (negb (wqe_cnt (rq (cq q)) =? 0)), o, (uar_taken _), (pd_parent _);
      (split; [apply traces_to_spec; by vm_compute|split; [intros ?; apply safe_trace_spec; by vm_compute|reflexivity]]).
Qed.

(** ** From creation to posting *)

(** An RC request within the capabilities the queue pair was granted. *)
Record rc_within (qp : mlx5_qp) (cap : ibv_qp_cap) (w : ibv_send_wr) : Prop := {
  rw_op : is_rdma w || is_atomic w || is_send w = true;
  rw_atomic : is_atomic w = true -> atomics_enabled qp = true;
  rw_inline : has (send_flags w) IBV_SEND_INLINE = false;
  rw_sges : 0 <= num_sge w <= alen (sg_list w);
  rw_gs : num_sge w <= cap_send_sge cap;
  rw_sge_ok : Forall sge_ok (sg_list w);
  rw_imm : in_width 32 (imm w);
  rw_addr : in_width 64 (w0 w) /\ in_width 64 (w1 w) /\ in_width 64 (w2 w) }.

(** A send queue of the size creation gives it, whatever has been posted. *)
Record built_sq (a : init_attr) (ia : init_attr) (q : mlx5_wq) (start : Z) : Prop := {
  bs_sized : exists c size qp, sq_sized c 192 a size ia qp /\ wqe_cnt q = wqe_cnt (sq qp) /\ max_post q = max_post (sq qp) /\
    max_gs q = max_gs (sq qp) /\ max_sq_desc_sz c <= 1024 /\ max_send_wqebb c <= 2 ^ 16 /\ wqe_stride 192 a <= max_sq_desc_sz c;
  bs_qend : qend q = start + 64 * wqe_cnt q;
  bs_arrays : alen (wrid q) = wqe_cnt q /\ alen (wqe_head q) = wqe_cnt q /\ alen (wr_data q) = wqe_cnt q }.

(** Nothing posted yet. *)
Definition unused (q : mlx5_wq) : Prop := head q = 0 /\ tail q = 0 /\ cur_post q = 0.

Lemma junk_len e n : 0 <= n -> alen (junk e n) = n.
Proof. intros. unfold junk, alen. rewrite length_map, length_seqZ. lia. Qed.

(** The send queue the sizes stage gives. *)
Lemma calc_wq_size_sq c dc a dv qp ret ia qp' :
  caps_ok c -> attr_ok a -> ia_type a = IBV_QPT_RC -> has (ia_comp_mask a) IBV_QP_INIT_ATTR_SEND_OPS_FLAGS = false ->
  has (ia_comp_mask a) IBV_QP_INIT_ATTR_MAX_TSO_HEADER = false -> 192 <= max_sq_desc_sz c -> 0 < cap_send_wr (ia_cap a) ->
  mlx5_calc_wq_size c dc a dv qp = Some (ret, ia, qp') -> 0 <= ret ->
  exists size qp1, sq_sized c 192 a size ia qp1 /\ sq_accepts c 192 a = true /\
    wqe_cnt (sq qp') = wqe_cnt (sq qp1) /\ max_post (sq qp') = max_post (sq qp1) /\ max_gs (sq qp') = max_gs (sq qp1) /\ wqe_shift (sq qp') = 6.
Proof.
  intros Hc Ha Ht Hm Htso Hsz Hw E Hr. destruct (calc_wq_size_inv _ _ _ _ _ _ _ _ E Hr) as (ret1 & qp1 & ret2 & qp2 & E1 & E2 & H1 & _ & _ & ->).
  pose proof (rc_overhead qp dc a dv Ht Hm) as Ho.
  destruct (calc_sq_size_total c dc a dv qp 192 Hc (attr_ok_typed _ Ha) (eq_sym Ho) ltac:(lia)) as (r & a' & q & E' & Hs); [|done|].
  { split; [pose proof (ao_inl _ Ha); unfold inl_bytes; destruct (_ =? _); dlia|left]. unfold hdr_bytes. rewrite Htso. lia. }
  rewrite E1 in E'. injection E' as <- <- <-. destruct (sq_accepts c 192 a); [|subst ret1; done].
  apply calc_rq_size_keeps in E2 as (_ & _ & Hsq). exists ret1, qp1. split_and!; [done|done|..]; cbn; rewrite Hsq; [done..|].
  exact (ss_shift _ _ _ _ _ _ Hs).
Qed.

(** The requests a device with these limits serves as reliable connections. *)
Record rc_setting (c : mlx5_caps) (a : init_attr) : Prop := {
  rs_caps : caps_ok c;
  rs_attr : attr_ok a;
  rs_type : ia_type a = IBV_QPT_RC;
  rs_ops : has (ia_comp_mask a) IBV_QP_INIT_ATTR_SEND_OPS_FLAGS = false;
  rs_tso : has (ia_comp_mask a) IBV_QP_INIT_ATTR_MAX_TSO_HEADER = false;
  rs_desc : 192 <= max_sq_desc_sz c <= 1024;
  rs_bb : max_send_wqebb c <= 2 ^ 16;
  rs_wr : 0 < cap_send_wr (ia_cap a) }.

Lemma alloc_qp_buf_sq e type qp ptrs qp' es :
  wqe_cnt (sq qp) <> 0 -> mlx5_alloc_qp_buf e type qp = (Some (ptrs, qp'), es) ->
  sq qp' = with_sq_arrays e (sq qp) /\ qp_type qp' = qp_type qp.
Proof.
  intros Hn. unfold mlx5_alloc_qp_buf. rewrite (proj2 (Z.eqb_neq _ 0) Hn). cbn [negb andb].
  destruct (en_sq_wrid e); cbn [negb]; [|done]. destruct (en_wr_data e); cbn [negb]; [|done]. destruct (en_wqe_head e); cbn [negb]; [|done].
  destruct (_ && _); [done|]. destruct (en_buf e) as [b|]; [|done]. destruct (own_sq_buf _ _); [destruct (en_sq_buf e); [|done]|]; intros [= <- <- <-]; done.
Qed.

Lemma buf_stage_sq c e a dv dc qp ia qp' ptrs bs sbs es :
  rc_setting (cc_caps c) (ca_init a) -> buf_stage c e a dv dc qp = Some (ia, Next (qp', ptrs, bs, sbs, es)) ->
  built_sq (ca_init a) ia (sq qp') (sq_start qp') /\ unused (sq qp') /\ qp_type qp' = qp_type qp /\ en_db e <> 0.
Proof.
  intros [Hc Ha Ht Hm Htso Hd Hbb Hw]. unfold buf_stage. intros E. apply bind_Some in E as ([[ret ia1] qp1] & E & Es).
  destruct (Z.ltb_spec ret 0); [done|]. pose proof (calc_wq_size_keeps _ _ _ _ _ _ _ _ E) as (_ & Hqt & _).
  destruct (calc_wq_size_sq _ _ _ _ _ _ _ _ Hc Ha Ht Hm Htso (proj1 Hd) Hw E H) as (size & qps & Hs & Hacc & H1 & H2 & H3 & H4).
  destruct (ss_pow _ _ _ _ _ _ Hs) as (k & Hk & Hpow). assert (0 < 2 ^ k <= 2 ^ 24) by (split; [lia|apply Z.pow_le_mono_r; lia]).
  set (own := own_sq_buf _ (qp_flags qp1)) in Es. set (qp2 := if own then _ else qp1) in Es.
  assert (qp_type qp2 = qp_type qp1 /\ wqe_cnt (sq qp2) = wqe_cnt (sq qp1) /\ max_post (sq qp2) = max_post (sq qp1) /\
          max_gs (sq qp2) = max_gs (sq qp1) /\ wqe_shift (sq qp2) = wqe_shift (sq qp1)) as (G1 & G2 & G3 & G4 & G5) by (unfold qp2; by destruct own).
  destruct (mlx5_alloc_qp_buf e _ qp2) as [[[ptrs3 qp3]|] es3] eqn:E3; [|done].
  apply alloc_qp_buf_sq in E3 as [Hsq Hq3]; [|rewrite G2, H1, Hpow; lia].
  destruct (en_locks e); [|done]. destruct (Z.eqb_spec (en_db e) 0); [done|]. cbn [negb] in Es. injection Es as <- <- _ _ _ _.
  split; [|split; [done|split; [cbn; congruence|done]]]. unfold mlx5_init_qp_indices. cbn [sq sq_start with_sq with_rq rq].
  rewrite Hsq. unfold with_sq_arrays. rewrite G2, G3, G4, G5, H1, H2, H3, H4.
  split; cbn [wqe_cnt max_post max_gs qend wrid wqe_head wr_data head tail cur_post]; try (rewrite ?junk_len by lia; done).
  - exists (cc_caps c), size, qps. split_and!; try done; [lia|]. unfold sq_accepts in Hacc.
    apply andb_true_iff in Hacc as [Hacc _]. apply andb_true_iff in Hacc as [Hacc _]. by apply Z.leb_le.
  - rewrite Hpow. f_equal. unfold shlu. cbn [wqe_shift]. rewrite Z.shiftl_mul_pow2 by lia. change (2 ^ 6) with 64. rewrite wrapu_small by lia. lia.
Qed.

Lemma kind_stage_rc c e a dv r cmds es :
  ia_type (ca_init a) = IBV_QPT_RC -> kind_stage c e a dv = Stop r cmds es -> (exists n, r = Null n) \/ (exists q, r = Done q /\ cq_rss q = true).
Proof.
  intros Ht. unfold kind_stage. cbv zeta. destruct (_ && _); [intros [= <- _ _]; left; by eexists|].
  destruct (dv_checks _ _ _ _ _) eqn:Ed; [intros [= <- _ _]; left; by eexists|..].
  - apply dv_checks_dct in Ed. rewrite Ht in Ed. done.
  - clear Ed. destruct (has (ia_comp_mask (ca_init a)) IBV_QP_INIT_ATTR_RX_HASH); [|discriminate]. destruct (mlx5_cmd_create_rss_qp _ _ _) as [[ret k] es1].
    destruct (negb _); intros [= <- _ _]; [left; by eexists|right; by eexists].
Qed.

(** An RC queue pair that was created: its send queue is fresh, refuses
    requests until it is ready to send, and its capabilities are those of the
    queue. *)
Lemma create_qp_rc c e a dv q ia cmds es :
  rc_setting (cc_caps c) (ca_init a) -> create_qp c e a dv = Some (Done q, ia, cmds, es) -> cq_rss q = false ->
  exists ia1, built_sq (ca_init a) ia1 (sq (cq q)) (sq_start (cq q)) /\ unused (sq (cq q)) /\ qp_type (cq q) = IBV_QPT_RC /\ db (cq q) = en_db e /\
    qp_state_max_gs (sq (cq q)) = -1 /\ cap_send_wr (ia_cap ia) = max_post (sq (cq q)) /\ cap_send_sge (ia_cap ia) = cap_send_sge (ia_cap ia1).
Proof.
  intros Hs. pose proof (rs_type _ _ Hs) as Ht. unfold create_qp. destruct (early_checks a dv) as [r|] eqn:Ee.
  { intros [= -> _ _ _]. unfold early_checks in Ee. repeat case_match; simplify_eq. }
  destruct (negb (en_calloc e)); [done|]. destruct (kind_stage c e a dv) as [r k es1|[[[[f qf] dc] lc] le]] eqn:Ek.
  { intros [= -> _ _ _]. destruct (kind_stage_rc _ _ _ _ _ _ _ Ht Ek) as [[n Hn]|(q' & Hq & Hr)]; [done|]. injection Hq as <-. congruence. }
  set (qp0 := with_kind (blank_qp _) _ _ _). pose proof (ops_stage_trace c e a dv qp0 f) as Ho.
  destruct (ops_stage c e a dv qp0 f) as [[r k es1|[[f1 mmo] w]]|]; [|..|done].
  { intros [= -> _ _ _]. by destruct Ho as [_ [n [=]]]. }
  cbn [mbind option_bind]. set (qp1 := with_kind qp0 _ _ _). pose proof (buf_stage_trace c e a dv dc qp1) as Hb.
  destruct (buf_stage c e a dv dc qp1) as [[ia1 [r k es1|[[[[qp2 ptrs] bs] sbs] es1]]]|] eqn:Eb; [|..|done]; cbn [mbind option_bind].
  { intros [= -> _ _ _]. by destruct Hb as [_ [n [=]]]. }
  apply (buf_stage_sq c e a dv dc qp1 ia1 qp2) in Eb as (Hf & Hun & Hqt & _); [|done]. clear Hb Ho. unfold kernel_stage.
  destruct (_ && _ && (en_uidx e <? 0)); [done|]. destruct (choose_uar _ _ _) as [[u eu]|]; [|done].
  destruct (match u with Some _ => _ | None => _ end) as [f' bfreg]. destruct (negb (en_cmd e =? 0)); [done|].
  destruct (_ && _ && negb (en_store_qp e =? 0)); [done|]. intros E _. apply bind_Some in E as (b & _ & E). injection E as <- <- _ _.
  exists ia1. cbn [set_qp_operational_state]. split_and!; try done.
  - destruct Hf as [H1 H2 H3]. split; cbn; done.
  - cbn. rewrite Hqt. exact Ht.
Qed.

Lemma built_rc_request a ia q qp w cap :
  attr_ok a -> built_sq a ia q (sq_start qp) -> sq qp = with_state_gs q (max_gs q) -> rc_within qp cap w -> cap_send_sge cap = cap_send_sge (ia_cap a) ->
  rc_request qp w.
Proof.
  intros Ha [(c & size & qps & Hs & H1 & H2 & H3 & Hd & Hbb & Hst) _ _] Hq [W1 W2 W3 W4 W5 W6 W7 W8] Hcap.
  rewrite Hcap, <- (ss_gs _ _ _ _ _ _ Hs) in W5. destruct (sized_slots c a size ia qps w Ha Hs ltac:(split; lia)) as [_ Hu].
  split; try done; rewrite Hq; cbn [with_state_gs qp_state_max_gs wqe_cnt]; [lia|]. rewrite H1.
  pose proof (ss_size _ _ _ _ _ _ Hs). split; [lia|].
  pose proof (ss_room _ _ _ _ _ _ Hs) as Hroom. destruct (Z.le_gt_cases (cap_send_wr (ia_cap a)) 0); [|nia].
  pose proof (wqe_stride_pos 192 a ltac:(lia) (attr_ok_typed _ Ha)) as [H64 _]. nia.
Qed.

(** A queue pair with an unused send queue of its size, ready to send. *)
Lemma built_posts a ia q qp :
  attr_ok a -> 0 < cap_send_wr (ia_cap a) -> qp_type qp = IBV_QPT_RC -> built_sq a ia q (sq_start qp) -> unused q ->
  sq qp = with_state_gs q (max_gs q) ->
  cap_send_wr (ia_cap a) <= max_post q /\ sq_ok qp /\ outstanding qp = 0 /\
  forall cap wrs, cap_send_sge cap = cap_send_sge (ia_cap a) -> Forall (rc_within qp cap) wrs -> alen wrs <= max_post q ->
    db qp + 8 <= sq_start qp \/ qend (sq qp) <= db qp -> chain_fits qp wrs.
Proof.
  intros Ha Hw Ht Hf (I1 & I2 & I3) Hsq. pose proof Hf as [(cc & size & qps & Hs & H1 & H2 & H3 & Hd & Hbb & Hst) Hq (A1 & A2 & A3)].
  pose proof (wqe_stride_pos 192 a ltac:(lia) (attr_ok_typed _ Ha)) as [H64 _]. pose proof (ss_room _ _ _ _ _ _ Hs) as Hroom.
  destruct (ss_pow _ _ _ _ _ _ Hs) as (k & Hk & Hpow). pose proof (ss_limit _ _ _ _ _ _ Hs) as Hlim. pose proof (ss_size _ _ _ _ _ _ Hs) as Hsz.
  assert (sq_ok qp) as Hok.
  { split; rewrite Hsq; cbn [with_state_gs wqe_cnt qend wrid wqe_head wr_data cur_post]; try done.
    - exists k. rewrite H1, Hpow. split; [|done]. split; [lia|]. apply (Z.pow_le_mono_r_iff 2); lia.
    - rewrite I3. unfold in_width. lia. }
  split_and!; [|done| |].
  - rewrite H2, (ss_post _ _ _ _ _ _ Hs). apply Z.div_le_lower_bound; [lia|]. rewrite Z.mul_comm. apply Hroom.
  - unfold outstanding. rewrite Hsq. cbn. by rewrite I1, I2.
  - intros cap wrs Hge Hwrs Hlen Hdbo. rewrite H2 in Hlen.
    split; [done|done| |rewrite Hsq; cbn|unfold outstanding; rewrite Hsq; cbn| |done].
    + eapply Forall_impl; [exact Hwrs|]. intros w Hwi. exact (built_rc_request a ia q qp w cap Ha Hf Hsq Hwi Hge).
    + rewrite H2, (ss_post _ _ _ _ _ _ Hs). assert (2 ^ k <= 2 ^ 24) by (apply Z.pow_le_mono_r; lia).
      split; [apply Z.div_pos; lia|]. apply Z.div_lt_upper_bound; lia.
    + rewrite I1, I2, H2. exact Hlen.
    + rewrite Hsq. cbn. rewrite H1. apply (sized_ring_holds cc a size ia qps wrs Ha Hs Hw); [|done].
      eapply Forall_impl; [exact Hwrs|]. intros w [_ _ _ W4 W5 _ _ _]. split; [done|]. rewrite (ss_gs _ _ _ _ _ _ Hs). lia.
Qed.

(** A send queue in the reset state takes no request. *)
Lemma reset_refuses q nreq w : qp_state_max_gs q = -1 -> 0 <= num_sge w -> post_checks q nreq w <> 0.
Proof. intros Hq Hn. unfold post_checks. rewrite Hq. repeat case_match; try done. lia. Qed.

(** C7: From creation to posting.  For a reliable connection on a device with
    usual limits, [create_qp] grants at least the number of outstanding requests
    asked for; the queue pair refuses every request until it is ready to send;
    from then on its send queue meets every assumption of the posting theorems
    for each chain of requests within the granted capabilities: the ring is a
    power of two with its end where posting expects it, and it has room for all
    of them, however large. *)
Theorem created_queue_posts c e a dv q ia cmds es :
  rc_setting (cc_caps c) (ca_init a) -> create_qp c e a dv = Some (Done q, ia, cmds, es) -> cq_rss q = false ->
  let qp := cq (set_qp_operational_state q IBV_QPS_RTS) in
  cap_send_wr (ia_cap (ca_init a)) <= cap_send_wr (ia_cap ia) /\
  (forall nreq w, 0 <= num_sge w -> post_checks (sq (cq q)) nreq w <> 0) /\
  sq_ok qp /\ outstanding qp = 0 /\
  forall wrs, Forall (rc_within qp (ia_cap ia)) wrs -> alen wrs <= cap_send_wr (ia_cap ia) ->
    en_db e + 8 <= sq_start qp \/ qend (sq qp) <= en_db e -> chain_fits qp wrs.
Proof.
  intros Hset E Hrss. cbv zeta. destruct (create_qp_rc c e a dv q ia cmds es Hset E Hrss) as (ia1 & Hf & Hun & Ht & Hdb & Hgs & Hcw & Hcs).
  set (qp := cq (set_qp_operational_state q IBV_QPS_RTS)). rewrite Hcw, <- Hdb.
  destruct (built_posts (ca_init a) ia1 (sq (cq q)) qp (rs_attr _ _ Hset) (rs_wr _ _ Hset) Ht Hf Hun eq_refl) as (H1 & H2 & H3 & H4).
  split_and!; [done|by intros; apply reset_refuses|done|done|]. intros wrs Hw. apply (H4 (ia_cap ia)); [|done].
  rewrite Hcs. destruct Hf as [(cc & size & qps & Hs & _) _ _]. by rewrite (ss_attr _ _ _ _ _ _ Hs).
Qed.

(** *** The states of a reliable connection

    The attributes that each change must give, from the table of
    ibv_modify_qp(3), and the changes it lists; a reset is taken in any state. *)
Definition rc_required (state : Z) : Z :=
  if state =? IBV_QPS_INIT then flags_or [IBV_QP_STATE; IBV_QP_PKEY_INDEX; IBV_QP_PORT; IBV_QP_ACCESS_FLAGS]
  else if state =? IBV_QPS_RTR then
    flags_or [IBV_QP_STATE; IBV_QP_AV; IBV_QP_PATH_MTU; IBV_QP_DEST_QPN; IBV_QP_RQ_PSN; IBV_QP_MAX_DEST_RD_ATOMIC; IBV_QP_MIN_RNR_TIMER]
  else if state =? IBV_QPS_RTS then
    flags_or [IBV_QP_STATE; IBV_QP_SQ_PSN; IBV_QP_MAX_QP_RD_ATOMIC; IBV_QP_RETRY_CNT; IBV_QP_RNR_RETRY; IBV_QP_TIMEOUT]
  else IBV_QP_STATE.

Definition rc_change (from to : Z) : bool :=
  (to =? IBV_QPS_RESET) || (from =? IBV_QPS_RESET) && (to =? IBV_QPS_INIT) || (from =? IBV_QPS_INIT) && (to =? IBV_QPS_RTR) ||
  (from =? IBV_QPS_RTR) && (to =? IBV_QPS_RTS).

Definition mask_covers (mask required : Z) : bool := Z.land mask required =? required.

(** The kernel, from the state of the queue pair and the attributes, takes these
    changes when the attributes they must give are there (with valid values). *)
Definition takes_rc_changes (kernel : Z -> modify_attr -> Z) : Prop :=
  forall from ma, rc_change from (ma_state ma) = true -> mask_covers (ma_mask ma) (rc_required (ma_state ma)) = true -> kernel from ma = 0.

(** A change of state in [from]: [e] but for the answer of the kernel. *)
Definition change_rc (kernel : Z -> modify_attr -> Z) (mc : modify_ctx) (e : modify_env) (from : Z) (ma : modify_attr) (c : created) (m : mem)
  : option (Z * created * mem * list clean_call) :=
  mlx5_modify_qp mc (ModifyEnv (me_dct e) (kernel from ma) (me_ece e) (me_sigerr e) (me_mmo e) (me_recv_cq e) (me_send_cq e) (me_same_cq e)) ma c m.

(** Changes of state on an RC queue pair, as far as its rings go. *)
Record rc_pair (c : created) : Prop := {
  rp_type : qp_type (cq c) = IBV_QPT_RC;
  rp_dc : cq_dc_type c <> MLX5DV_DCTYPE_DCT;
  rp_rss : cq_rss c = false;
  rp_under : has (qp_flags (cq c)) MLX5_QP_FLAGS_USE_UNDERLAY = false }.

Lemma mask_covers_state mask state : mask_covers mask (rc_required state) = true -> has mask IBV_QP_STATE = true.
Proof.
  unfold mask_covers, has. intros H%Z.eqb_eq. destruct (Z.eqb_spec (Z.land mask IBV_QP_STATE) 0) as [E|]; [exfalso|done].
  assert (Z.land (rc_required state) IBV_QP_STATE = 0) as H0.
  { by rewrite <- H, (Z.land_comm mask), <- Z.land_assoc, E, Z.land_0_r. }
  revert H0. unfold rc_required. repeat destruct (_ =? _); by vm_compute.
Qed.

Lemma port_caps_rc mc ma qp : qp_type qp = IBV_QPT_RC -> port_caps mc ma qp = Some qp.
Proof. intros Ht. unfold port_caps. rewrite Ht. change (IBV_QPT_RC =? IBV_QPT_RAW_PACKET) with false. by rewrite andb_false_r. Qed.

Lemma modify_reset mc e c m mask port :
  rc_pair c -> me_ret e = 0 -> has mask IBV_QP_STATE = true ->
  exists c1, mlx5_modify_qp mc e (ModifyAttr mask IBV_QPS_RESET port) c m =
    Some (0, c1, st_le 4 (st_le 4 m (db (cq c)) 0) (db (cq c) + 4) 0,
      (if me_recv_cq e then [CleanRecv] else []) ++ (if negb (me_same_cq e) && me_send_cq e then [CleanSend] else [])) /\
    cq c1 = cq (set_qp_operational_state (with_cq c (mlx5_init_qp_indices (cq c)) None) IBV_QPS_RESET) /\ rc_pair c1.
Proof.
  intros [Ht Hdc Hrss Hun] He Hm. unfold mlx5_modify_qp. rewrite (proj2 (Z.eqb_neq _ _) Hdc), Hrss, Hun, He. cbn [andb ma_mask ma_state].
  rewrite (port_caps_rc _ _ _ Ht), Hm. cbn [andb mbind option_bind Z.eqb].
  change (IBV_QPS_RESET =? IBV_QPS_RESET) with true. change (IBV_QPS_RESET =? IBV_QPS_RTR) with false. change (IBV_QPS_RESET =? IBV_QPS_INIT) with false.
  cbn [andb]. destruct (negb _); cbn; eexists; (split; [reflexivity|]); (split; [done|]); by split.
Qed.

(** The other changes leave memory and the completion queues alone. *)
Lemma modify_up mc e c m mask state port :
  rc_pair c -> me_ret e = 0 -> me_sigerr e = 0 -> me_mmo e = 0 -> has mask IBV_QP_STATE = true -> state <> IBV_QPS_RESET ->
  exists c1, mlx5_modify_qp mc e (ModifyAttr mask state port) c m = Some (0, c1, m, []) /\
    cq c1 = cq (set_qp_operational_state c state) /\ rc_pair c1.
Proof.
  intros [Ht Hdc Hrss Hun] He Hse Hmm Hm Hst. unfold mlx5_modify_qp, own_sq_buf.
  rewrite (proj2 (Z.eqb_neq _ _) Hdc), Hrss, Hun, He. cbn [andb ma_mask ma_state].
  rewrite (port_caps_rc _ _ _ Ht), Hm. cbn [andb mbind option_bind Z.eqb].
  rewrite (proj2 (Z.eqb_neq _ _) Hst). set (c0 := if negb _ then _ else _).
  assert (cq c0 = cq c /\ cq_dc_type c0 = cq_dc_type c /\ cq_rss c0 = cq_rss c) as (E1 & E2 & E3) by (unfold c0; by destruct (negb _)).
  clearbody c0. rewrite E1, Ht, Hun. change (IBV_QPT_RC =? IBV_QPT_RAW_PACKET) with false. cbn [orb]. rewrite andb_false_r, Hse.
  replace (if (state =? IBV_QPS_INIT) && _ then 0 else 0) with 0 by (by destruct (_ && _)). cbn [Z.eqb andb]. rewrite Hmm.
  replace (if (state =? IBV_QPS_INIT) && _ then 0 else 0) with 0 by (by destruct (_ && _)). cbn [Z.eqb andb].
  exists (set_qp_operational_state c0 state). split; [done|]. split; [unfold set_qp_operational_state; rewrite E1; by repeat case_match|].
  unfold set_qp_operational_state. split; repeat case_match; cbn; rewrite ?E1, ?E2, ?E3; done.
Qed.

(** C21: A queue pair that is reset is as good as new.  After any use, moving an
    RC queue pair to the reset state succeeds, empties both queues, zeroes both
    doorbell words and cleans the completion queues of its completions; moved
    through Init and ready to receive with the attributes ibv_modify_qp(3) asks
    for, it refuses send requests in all three states; ready to send again, its
    send queue meets the assumptions of the posting theorems for every chain
    within its capabilities.  Of the kernel it is assumed that it takes the
    changes of state that the manual lists. *)
Theorem reset_queue_posts kernel mc e from c m a ia mask0 mask1 mask2 mask3 port :
  takes_rc_changes kernel -> me_sigerr e = 0 -> me_mmo e = 0 ->
  mask_covers mask0 (rc_required IBV_QPS_RESET) = true -> mask_covers mask1 (rc_required IBV_QPS_INIT) = true ->
  mask_covers mask2 (rc_required IBV_QPS_RTR) = true -> mask_covers mask3 (rc_required IBV_QPS_RTS) = true ->
  attr_ok a -> 0 < cap_send_wr (ia_cap a) -> rc_pair c -> built_sq a ia (sq (cq c)) (sq_start (cq c)) ->
  exists c1 m1 calls c2 c3 c4,
    change_rc kernel mc e from (ModifyAttr mask0 IBV_QPS_RESET port) c m = Some (0, c1, m1, calls) /\
    change_rc kernel mc e IBV_QPS_RESET (ModifyAttr mask1 IBV_QPS_INIT port) c1 m1 = Some (0, c2, m1, []) /\
    change_rc kernel mc e IBV_QPS_INIT (ModifyAttr mask2 IBV_QPS_RTR port) c2 m1 = Some (0, c3, m1, []) /\
    change_rc kernel mc e IBV_QPS_RTR (ModifyAttr mask3 IBV_QPS_RTS port) c3 m1 = Some (0, c4, m1, []) /\
    ld_be 4 m1 (db (cq c)) = 0 /\ ld_be 4 m1 (db (cq c) + 4) = 0 /\
    (me_recv_cq e = true -> CleanRecv ∈ calls) /\ (me_send_cq e = true -> me_same_cq e = false -> CleanSend ∈ calls) /\
    unused (sq (cq c1)) /\ head (rq (cq c1)) = 0 /\ tail (rq (cq c1)) = 0 /\
    (forall q nreq w, q ∈ [c1; c2; c3] -> 0 <= num_sge w -> post_checks (sq (cq q)) nreq w <> 0) /\
    outstanding (cq c4) = 0 /\
    forall cap wrs, cap_send_sge cap = cap_send_sge (ia_cap a) -> Forall (rc_within (cq c4) cap) wrs -> alen wrs <= max_post (sq (cq c)) ->
      db (cq c) + 8 <= sq_start (cq c) \/ qend (sq (cq c)) <= db (cq c) -> chain_fits (cq c4) wrs.
Proof.
  intros Hk Hse Hmm M0 M1 M2 M3 Ha Hw Hp Hb. unfold change_rc.
  assert (K : forall f t k, rc_change f t = true -> mask_covers k (rc_required t) = true -> kernel f (ModifyAttr k t port) = 0) by (intros; by apply Hk).
  rewrite !K by (done || apply orb_true_r || (unfold rc_change; by rewrite Z.eqb_refl)).
  apply mask_covers_state in M0, M1, M2, M3. set (e0 := ModifyEnv _ 0 _ _ _ _ _ _).
  destruct (modify_reset mc e0 c m mask0 port Hp eq_refl M0) as (c1 & E1 & Hc1 & Hp1). set (m1 := st_le 4 (st_le 4 m _ 0) _ 0) in E1.
  destruct (modify_up mc e0 c1 m1 mask1 IBV_QPS_INIT port Hp1 eq_refl Hse Hmm M1 ltac:(done)) as (c2 & E2 & Hc2 & Hp2).
  destruct (modify_up mc e0 c2 m1 mask2 IBV_QPS_RTR port Hp2 eq_refl Hse Hmm M2 ltac:(done)) as (c3 & E3 & Hc3 & Hp3).
  destruct (modify_up mc e0 c3 m1 mask3 IBV_QPS_RTS port Hp3 eq_refl Hse Hmm M3 ltac:(done)) as (c4 & E4 & Hc4 & Hp4).
  eexists c1, m1, _, c2, c3, c4. split; [exact E1|]. split; [exact E2|]. split; [exact E3|]. split; [exact E4|].
  assert (sq (cq c2) = sq (cq c1) /\ sq (cq c3) = sq (cq c1)) as [Hq2 Hq3] by (rewrite Hc3; change (sq (cq c2) = sq (cq c1) /\ sq (cq c2) = sq (cq c1)); by rewrite Hc2).
  assert (cq c4 = with_sq (cq c3) (with_state_gs (sq (cq c1)) (max_gs (sq (cq c1))))) as Hq4 by (rewrite Hc4; cbn; by rewrite Hq3).
  assert (sq_start (cq c3) = sq_start (cq c) /\ db (cq c3) = db (cq c)) as [Hs3 Hd3].
  { rewrite Hc3. change (sq_start (cq c2) = sq_start (cq c) /\ db (cq c2) = db (cq c)). rewrite Hc2.
    change (sq_start (cq c1) = sq_start (cq c) /\ db (cq c1) = db (cq c)). by rewrite Hc1. }
  destruct (built_posts a ia (sq (cq c1)) (cq c4) Ha Hw) as (_ & _ & H3 & H4); [apply Hp4|rewrite Hq4; cbn; rewrite Hs3|by rewrite Hc1|by rewrite Hq4|].
  { rewrite Hc1. destruct Hb as [H1 H2 H3]; split; done. }
  split_and!.
  - unfold m1. mem_load. change (st_le 4 m (db (cq c)) 0) with (st_be 4 m (db (cq c)) 0). by rewrite ld_be_st_be.
  - unfold m1. change (st_le 4 ?x (db (cq c) + 4) 0) with (st_be 4 x (db (cq c) + 4) 0). by rewrite ld_be_st_be.
  - intros Hx. cbn [e0 me_recv_cq]. rewrite Hx. apply elem_of_app. left. left.
  - intros Hx Hy. cbn [e0 me_send_cq me_same_cq]. rewrite Hx, Hy. apply elem_of_app. right. left.
  - by rewrite Hc1.
  - by rewrite Hc1.
  - by rewrite Hc1.
  - intros q nreq w Hq Hn. apply reset_refuses; [|done].
    assert (qp_state_max_gs (sq (cq c1)) = -1) as Hg by (by rewrite Hc1). set_unfold in Hq. destruct Hq as [-> |[-> |[-> |[]]]]; by rewrite ?Hq2, ?Hq3.
  - done.
  - intros cap wrs Hcap Hwrs Hlen Hdb. apply (H4 cap); [done|done|by rewrite Hc1|]. rewrite Hq4. cbn. by rewrite Hs3, Hd3, Hc1.
Qed.

(** ** Samples *)

Definition sample_resp : create_resp := CreateResp 0 0 0 0 0 0 0 0.
Definition sample_ctx (cqe_version : Z) : create_ctx :=
  CreateCtx sample_caps cqe_version 0 0 true 0 0 0 0 false false [].
Definition sample_uar : uar := Uar (Bf 0x9000 0 256 1) true 3 0 true false.

(** Allocations succeed; [cmd] is the answer of the kernel. *)
Definition sample_env (cmd : Z) : create_env :=
  CreateEnv false false true true true true true (Some 0x100000) None true 0x40 false 5 (Some sample_uar) (fun i => i) 0 cmd sample_resp 77 0 0 0.

Definition sample_create (type mask : Z) (parent : bool) : create_attr :=
  CreateAttr (InitAttr type mask (Cap 16 16 4 4 0) false 0 0) 0 true 0 (Pd parent None).

Lemma create_qp_failure_clean_witness :
  exists ia cmds es, create_qp (sample_ctx 0) (sample_env 12) (sample_create IBV_QPT_RC 1 true) None = Some (Null None, ia, cmds, es) /\
    length es = 18%nat /\ (forall r, held es r = 0) /\ never_over_released es.
Proof.
  eexists _, _, _. split; [vm_compute; reflexivity|]. split; [reflexivity|].
  eapply (create_qp_failure_clean (sample_ctx 0) (sample_env 12) (sample_create IBV_QPT_RC 1 true) None None); [exact I|vm_compute; reflexivity].
Defined.

Lemma destroy_undoes_create_witness :
  exists q ia cmds es es', create_qp (sample_ctx 1) (sample_env 0) (sample_create IBV_QPT_RC 1 true) None = Some (Done q, ia, cmds, es) /\
    mlx5_destroy_qp (sample_ctx 1) (Pd true None) q IBV_QPS_RTS true 0 = (0, es', [CleanRecv]) /\ (forall r, held (es ++ es') r = 0) /\ never_over_released (es ++ es').
Proof.
  assert (exists q ia cmds es, create_qp (sample_ctx 1) (sample_env 0) (sample_create IBV_QPT_RC 1 true) None = Some (Done q, ia, cmds, es) /\
    cq_dc_type q = 0 /\ cq_rss q = false) as (q & ia & cmds & es & E & Hdc & Hrss).
  { eexists _, _, _, _. split; [vm_compute; reflexivity|]. by split. }
  destruct (mlx5_destroy_qp (sample_ctx 1) (Pd true None) q IBV_QPS_RTS true 0) as [[ret es'] calls] eqn:Ed.
  assert (ret = 0 /\ calls = [CleanRecv]) as [-> ->] by (unfold mlx5_destroy_qp in Ed; rewrite Hrss in Ed; injection Ed as H1 _ H2; exact (conj (eq_sym H1) (eq_sym H2))).
  destruct (destroy_undoes_create (sample_ctx 1) (sample_env 0) (sample_create IBV_QPT_RC 1 true) None q ia cmds es IBV_QPS_RTS true es' [CleanRecv] I E ltac:(rewrite Hdc; intros [=]) Ed) as (H1 & H2 & _).
  rewrite Hdc, Hrss in H1, H2. exists q, ia, cmds, es, es'. split_and!; [exact E|exact Ed|exact H1|]. apply H2. reflexivity.
Defined.

(** The reference count of a parent domain drops below the number of its users:
    a queue pair for receive side scaling (mask 0x21) is created and destroyed. *)
Lemma rss_drops_parent_reference :
  exists q ia cmds es es', create_qp (sample_ctx 1) (sample_env 0) (sample_create IBV_QPT_RAW_PACKET 0x21 true) None = Some (Done q, ia, cmds, es) /\
    mlx5_destroy_qp (sample_ctx 1) (Pd true None) q IBV_QPS_RESET true 0 = (0, es', []) /\ held (es ++ es') RPdRef = -1.
Proof. eexists _, _, _, _, _. split; [vm_compute; reflexivity|]. split; vm_compute; reflexivity. Qed.

Definition sample_write : ibv_send_wr :=
  SendWr 9 [Sge 0x5000 64 1] 1 IBV_WR_RDMA_WRITE 0 0 0x7000 2 0 0 0 0 0 0 (BindInfo 0 0 0 0) 0 0 0.

Lemma sample_setting : rc_setting sample_caps (ca_init (sample_create IBV_QPT_RC 1 true)).
Proof. split; try done; try apply sample_caps_ok; split; cbn; unfold in_width; lia. Qed.

Lemma sample_write_within qp cap : 1 <= cap_send_sge cap -> rc_within qp cap sample_write.
Proof. intros H. split; try done; cbn; unfold sge_ok, in_width; cbn; try lia. repeat constructor; cbn; lia. Qed.

Lemma created_queue_posts_witness :
  exists q ia cmds es, create_qp (sample_ctx 1) (sample_env 0) (sample_create IBV_QPT_RC 1 true) None = Some (Done q, ia, cmds, es) /\
    chain_fits (cq (set_qp_operational_state q IBV_QPS_RTS)) (replicate 16 sample_write).
Proof.
  eexists _, _, _, _. split; [vm_compute; reflexivity|].
  edestruct (created_queue_posts (sample_ctx 1) (sample_env 0) (sample_create IBV_QPT_RC 1 true) None) as (_ & _ & _ & _ & H);
    [exact sample_setting|vm_compute; reflexivity|reflexivity|]. apply H; [|vm_compute; discriminate|left; vm_compute; discriminate].
  apply Forall_replicate, sample_write_within. vm_compute. discriminate.
Defined.

(** A kernel that asks for exactly the attributes of the manual. *)
Definition sample_kernel (from : Z) (ma : modify_attr) : Z :=
  if rc_change from (ma_state ma) && mask_covers (ma_mask ma) (rc_required (ma_state ma)) then 0 else EINVAL.

Lemma sample_kernel_takes : takes_rc_changes sample_kernel.
Proof. intros from ma H1 H2. unfold sample_kernel. by rewrite H1, H2. Qed.

Definition sample_modify_env : modify_env := ModifyEnv 0 0 0 0 0 true true false.

Lemma reset_queue_posts_witness :
  exists c4, (exists c3 m, change_rc sample_kernel (ModifyCtx 0 [] 0 0) sample_modify_env IBV_QPS_RTR
      (ModifyAttr (rc_required IBV_QPS_RTS) IBV_QPS_RTS 1) c3 m = Some (0, c4, m, [])) /\
    chain_fits (cq c4) (replicate 16 sample_write).
Proof.
  assert (exists q ia cmds es, create_qp (sample_ctx 1) (sample_env 0) (sample_create IBV_QPT_RC 1 true) None = Some (Done q, ia, cmds, es) /\
    cq_rss q = false /\ rc_pair q /\ max_post (sq (cq q)) = 16 /\ db (cq q) + 8 <= sq_start (cq q)) as (q & ia & cmds & es & E & Hr & Hp & Hmax & Hdb).
  { eexists _, _, _, _. split; [vm_compute; reflexivity|]. split_and!; try reflexivity; [|vm_compute; discriminate]. split; try reflexivity. intros [=]. }
  destruct (create_qp_rc (sample_ctx 1) (sample_env 0) (sample_create IBV_QPT_RC 1 true) None q ia cmds es sample_setting E Hr) as (ia1 & Hb & _).
  destruct (reset_queue_posts sample_kernel (ModifyCtx 0 [] 0 0) sample_modify_env IBV_QPS_RTS q ∅ (ca_init (sample_create IBV_QPT_RC 1 true)) ia1
    (rc_required IBV_QPS_RESET) (rc_required IBV_QPS_INIT) (rc_required IBV_QPS_RTR) (rc_required IBV_QPS_RTS) 1
    sample_kernel_takes eq_refl eq_refl eq_refl eq_refl eq_refl eq_refl (rs_attr _ _ sample_setting) ltac:(cbn; lia) Hp Hb)
    as (c1 & m1 & calls & c2 & c3 & c4 & _ & _ & _ & E4 & _ & _ & _ & _ & _ & _ & _ & _ & _ & H).
  exists c4. split; [by exists c3, m1|]. apply (H (Cap 16 16 4 4 0)).
  - reflexivity.
  - apply Forall_replicate, sample_write_within. cbn. lia.
  - rewrite Hmax. vm_compute. discriminate.
  - by left.
Defined.
