(* ===== verification/IntervalSet.v ===== *)
(** util/interval_set.c: sets of addresses kept as a sorted list of ranges.

    The nodes of the list are pairs of a start and a length.  The theorems show
    that inserting a range is the union with it and refused exactly when it is
    empty, wraps or overlaps the set, and that allocation takes the lowest
    aligned range of the set, as long as rounding up the start of a range does
    not wrap around the address space. *)

From S2P Require Import Prelude Util Wqe.

Definition ENOSPC : Z := 28.

Record iset_range := Range { r_start : Z; r_length : Z }.

Definition range_overlap (s1 len1 s2 len2 : Z) : bool :=
  negb (((s1 <? s2) && (u64 (s1 + len1 - 1) <? s2)) || ((s2 <? s1) && (u64 (s2 + len2 - 1) <? s1))).

(** The loop of [iset_insert_range]: the ranges before the new one, last
    first, and those from the first one behind it on; [None] is an overlap. *)
Fixpoint scan_insert (before l : list iset_range) (start length : Z) : option (list iset_range * list iset_range) :=
  match l with
  | [] => Some (before, [])
  | r :: l' =>
    if range_overlap (r_start r) (r_length r) start length then None
    else if start <? r_start r then Some (before, l)
    else scan_insert (r :: before) l' start length
  end.

(** The list after combining the range with its neighbours, [None] if it
    touches neither. *)
Definition check_do_combine (before after : list iset_range) (start length : Z) : option (list iset_range) :=
  match before, after with
  | p :: before', n :: after' =>
    if u64 (r_start p + r_length p) =? start then
      let p' := Range (r_start p) (u64 (r_length p + length)) in
      if u64 (start + length) =? r_start n
      then Some (rev before' ++ Range (r_start p') (u64 (r_length p' + r_length n)) :: after')
      else Some (rev before' ++ p' :: after)
    else if u64 (start + length) =? r_start n
    then Some (rev before ++ Range start (u64 (r_length n + length)) :: after')
    else None
  | p :: before', [] =>
    if u64 (r_start p + r_length p) =? start
    then Some (rev before' ++ [Range (r_start p) (u64 (r_length p + length))]) else None
  | [], n :: after' =>
    if u64 (start + length) =? r_start n then Some (Range start (u64 (r_length n + length)) :: after') else None
  | [], [] => None
  end.

(** The return value and the list; [calloc_ok] is whether a new node can be had. *)
Definition iset_insert_range (calloc_ok : bool) (l : list iset_range) (start length : Z) : Z * list iset_range :=
  if (length =? 0) || (u64 (start + length - 1) <? start) then (EINVAL, l) else
  match scan_insert [] l start length with
  | None => (EINVAL, l)
  | Some (before, after) =>
    match check_do_combine before after start length with
    | Some l' => (0, l')
    | None => if calloc_ok then (0, rev before ++ Range start length :: after) else (ENOMEM, l)
    end
  end.

Definition power_of_two (x : Z) : bool := negb (x =? 0) && (Z.land x (u64 (x - 1)) =? 0).

(** The first range with room, as the ranges before it, it, its aligned start,
    and the ranges behind it. *)
Fixpoint find_range (before l : list iset_range) (length alignment : Z) : option (list iset_range * iset_range * Z * list iset_range) :=
  match l with
  | [] => None
  | r :: l' =>
    let astart := align (r_start r) alignment in
    if (astart <=? u64 (astart + length - 1)) && (u64 (astart + length - 1) <=? u64 (r_start r + r_length r - 1))
    then Some (before, r, astart, l')
    else find_range (r :: before) l' length alignment
  end.

(** The return value, the start of the range if it is 0, and the list. *)
Definition iset_alloc_range (calloc_ok : bool) (l : list iset_range) (length alignment : Z) : Z * Z * list iset_range :=
  if negb (power_of_two alignment) then (EINVAL, 0, l) else
  match find_range [] l length alignment with
  | None => (ENOSPC, 0, l)
  | Some (before, r, astart, after) =>
    if r_start r =? astart then
      if r_length r =? length then (0, astart, rev before ++ after)
      else (0, astart, rev before ++ Range (u64 (r_start r + length)) (u64 (r_length r - length)) :: after)
    else
      let rend := u64 (r_start r + r_length r) in
      let r' := Range (r_start r) (u64 (astart - r_start r)) in
      if negb (u64 (astart + length) =? rend) then
        if calloc_ok
        then (0, astart, rev before ++ r' :: Range (u64 (astart + length)) (u64 (rend - astart - length)) :: after)
        else (ENOMEM, 0, l)
      else (0, astart, rev before ++ r' :: after)
  end.

Definition iset_create (calloc_ok : bool) : option (list iset_range) := if calloc_ok then Some [] else None.

(** ** The set of addresses *)

Definition in_range (r : iset_range) (x : Z) : Prop := r_start r <= x < r_start r + r_length r.
Definition in_set (l : list iset_range) (x : Z) : Prop := Exists (fun r => in_range r x) l.

(** Sorted from [lo] on, with a gap between any two ranges. *)
Fixpoint iset_ok (lo : Z) (l : list iset_range) : Prop :=
  match l with
  | [] => True
  | r :: l' => lo <= r_start r /\ 0 < r_length r /\ r_start r + r_length r <= 2 ^ 64 /\ iset_ok (r_start r + r_length r + 1) l'
  end.

(** Where the next range may start behind [l]. *)
Fixpoint iset_end (lo : Z) (l : list iset_range) : Z :=
  match l with [] => lo | r :: l' => iset_end (r_start r + r_length r + 1) l' end.

Lemma iset_ok_app lo l1 l2 : iset_ok lo (l1 ++ l2) <-> iset_ok lo l1 /\ iset_ok (iset_end lo l1) l2.
Proof. revert lo. induction l1 as [|r l1 IH]; intros lo; cbn; [tauto|]. rewrite IH. tauto. Qed.

Lemma iset_end_app lo l1 l2 : iset_end lo (l1 ++ l2) = iset_end (iset_end lo l1) l2.
Proof. revert lo. induction l1 as [|r l1 IH]; intros lo; [done|]. apply IH. Qed.

Lemma iset_ok_weaken lo lo' l : lo' <= lo -> iset_ok lo l -> iset_ok lo' l.
Proof. destruct l as [|r l]; cbn; [done|]. intros ? (?&?&?&?). split_and!; lia || done. Qed.

Lemma iset_end_ge lo l : iset_ok lo l -> lo <= iset_end lo l.
Proof. revert lo. induction l as [|r l IH]; intros lo; cbn; [done|]. intros (?&?&?&H). apply IH in H. lia. Qed.

Lemma in_set_nil x : ~ in_set [] x.
Proof. intros H. inversion H. Qed.

Lemma in_set_cons r l x : in_set (r :: l) x <-> in_range r x \/ in_set l x.
Proof. apply Exists_cons. Qed.

Lemma in_set_app l1 l2 x : in_set (l1 ++ l2) x <-> in_set l1 x \/ in_set l2 x.
Proof. apply Exists_app. Qed.

Lemma in_set_bounds lo l x : iset_ok lo l -> in_set l x -> lo <= x /\ x + 1 < iset_end lo l.
Proof.
  revert lo. induction l as [|r l IH]; intros lo; [by intros _ ?%in_set_nil|]. cbn. intros (?&?&?&H). rewrite in_set_cons. intros [Hr|Hl].
  - unfold in_range in Hr. pose proof (iset_end_ge _ _ H). lia.
  - destruct (IH _ H Hl). lia.
Qed.


(** ** Insertion *)

Lemma range_overlap_spec s1 len1 s2 len2 :
  0 <= s1 -> 0 < len1 -> s1 + len1 <= 2 ^ 64 -> 0 <= s2 -> 0 < len2 -> s2 + len2 <= 2 ^ 64 ->
  range_overlap s1 len1 s2 len2 = negb ((s1 + len1 <=? s2) || (s2 + len2 <=? s1)).
Proof. intros. unfold range_overlap. rewrite !wrapu_small by lia. f_equal. zcases. Qed.

Section Insert.

Context (start length : Z) (Hs : 0 <= start) (Hl : 0 < length) (He : start + length <= 2 ^ 64).

Lemma scan_insert_spec before l :
  iset_ok 0 (rev before ++ l) -> (forall r, In r before -> r_start r + r_length r <= start) ->
  match scan_insert before l start length with
  | None => exists x, in_set l x /\ start <= x < start + length
  | Some (b, a) => rev b ++ a = rev before ++ l /\ (forall r, In r b -> r_start r + r_length r <= start) /\
      match a with [] => True | n :: _ => start + length <= r_start n end
  end.
Proof.
  revert before. induction l as [|r l IH]; intros before Hok Hb; cbn [scan_insert]; [done|].
  pose proof Hok as [Hok1 (H1 & H2 & H3 & H4)]%iset_ok_app. pose proof (iset_end_ge _ _ Hok1).
  rewrite range_overlap_spec by lia. destruct (Z.leb_spec (r_start r + r_length r) start); cbn [orb negb].
  - rewrite (proj2 (Z.ltb_ge start _)) by lia. specialize (IH (r :: before)). cbn [rev] in IH. rewrite <- app_assoc in IH. specialize (IH Hok).
    assert (forall r', In r' (r :: before) -> r_start r' + r_length r' <= start) as Hb' by (intros r' [<-|?]; [lia|by apply Hb]).
    specialize (IH Hb'). destruct (scan_insert (r :: before) l start length) as [[b a]|]; [done|].
    destruct IH as (x & Hx & ?). exists x. rewrite in_set_cons. tauto.
  - destruct (Z.leb_spec (start + length) (r_start r)); cbn [negb].
    + rewrite (proj2 (Z.ltb_lt start _)) by lia. split_and!; done.
    + exists (Z.max start (r_start r)). rewrite in_set_cons. unfold in_range. lia.
Qed.

(** The address set after the range was put between [before] and [after]. *)
Definition inserted (l l' : list iset_range) : Prop :=
  iset_ok 0 l' /\ forall x, in_set l' x <-> in_set l x \/ start <= x < start + length.

(** Two or three ranges that become one stay shorter than the address space if
    some address is in none of them. *)
Lemma insert_between before after y :
  iset_ok 0 (rev before ++ after) -> (forall r, In r before -> r_start r + r_length r <= start) ->
  match after with [] => True | n :: _ => start + length <= r_start n end ->
  0 <= y < 2 ^ 64 -> ~ in_set (rev before ++ after) y -> ~ (start <= y < start + length) ->
  match check_do_combine before after start length with
  | Some l' => inserted (rev before ++ after) l'
  | None => inserted (rev before ++ after) (rev before ++ Range start length :: after)
  end.
Proof.
  intros Hok Hb Ha Hy Hny Hsy. unfold inserted. destruct before as [|p before].
  - destruct after as [|n after]; cbn [check_do_combine rev app] in *.
    + split; [cbn; lia|]. intros x. rewrite in_set_cons. unfold in_range. cbn. pose proof (in_set_nil x). tauto.
    + rewrite in_set_cons in Hny. unfold in_range in Hny. destruct Hok as (N1 & N2 & N3 & N4). rewrite wrapu_small by lia.
      destruct (Z.eqb_spec (start + length) (r_start n)) as [E|].
      * rewrite wrapu_small by lia. split; [cbn; split_and!; try lia; by replace (start + (r_length n + length) + 1) with (r_start n + r_length n + 1) by lia|].
        intros x. rewrite !in_set_cons. unfold in_range. cbn. intuition lia.
      * split; [cbn; split_and!; try lia; done|]. intros x. rewrite !in_set_cons. unfold in_range. cbn. intuition lia.
  - assert (r_start p + r_length p <= start) as Hp by (apply Hb; by left). cbn [rev] in *. rewrite <- app_assoc in *. cbn [app] in *.
    rewrite in_set_app, in_set_cons in Hny. unfold in_range in Hny.
    apply iset_ok_app in Hok as [Hok1 (P1 & P2 & P3 & P4)]. pose proof (iset_end_ge _ _ Hok1).
    destruct after as [|n after]; cbn [check_do_combine].
    + rewrite wrapu_small by lia. destruct (Z.eqb_spec (r_start p + r_length p) start).
      * rewrite wrapu_small by lia. split; [apply iset_ok_app; split; [done|]; cbn; lia|].
        intros x. rewrite !in_set_app, !in_set_cons. unfold in_range. cbn. pose proof (in_set_nil x). intuition lia.
      * rewrite <- app_assoc. cbn [app]. split; [apply iset_ok_app; split; [done|]; cbn; lia|].
        intros x. rewrite !in_set_app, !in_set_cons. unfold in_range. cbn. pose proof (in_set_nil x). intuition lia.
    + rewrite in_set_cons in Hny. unfold in_range in Hny. destruct P4 as (N1 & N2 & N3 & N4).
      rewrite !(wrapu_small 64 (r_start p + r_length p)), (wrapu_small 64 (start + length)) by lia.
      destruct (Z.eqb_spec (r_start p + r_length p) start), (Z.eqb_spec (start + length) (r_start n)); cbn [r_start r_length].
      * rewrite (wrapu_small 64 (r_length p + length)) by lia. rewrite wrapu_small by lia. split.
        -- apply iset_ok_app; split; [done|]; cbn. split_and!; try lia. by replace (r_start p + (r_length p + length + r_length n) + 1) with (r_start n + r_length n + 1) by lia.
        -- intros x. rewrite !in_set_app, !in_set_cons. unfold in_range. cbn. intuition lia.
      * rewrite wrapu_small by lia. split; [apply iset_ok_app; split; [done|]; cbn; split_and!; lia || done|].
        intros x. rewrite !in_set_app, !in_set_cons. unfold in_range. cbn. intuition lia.
      * cbn [rev]. rewrite <- app_assoc. cbn [app]. rewrite wrapu_small by lia. split.
        -- apply iset_ok_app; split; [done|]; cbn. split_and!; try lia. by replace (start + (r_length n + length) + 1) with (r_start n + r_length n + 1) by lia.
        -- intros x. rewrite !in_set_app, !in_set_cons. unfold in_range. cbn. intuition lia.
      * rewrite <- app_assoc. cbn [app]. split; [apply iset_ok_app; split; [done|]; cbn; split_and!; lia || done|].
        intros x. rewrite !in_set_app, !in_set_cons. unfold in_range. cbn. intuition lia.
Qed.

End Insert.

(** Insertion is union.  A range is refused with [EINVAL] exactly when it is
    empty, wraps around or shares an address with the set, and then the set is
    unchanged; otherwise, unless a node is needed and cannot be had, the result
    is again a sorted list of ranges with gaps between them whose addresses are
    those of the set and of the range, neighbours having been combined, as long
    as some address stays outside. *)
Theorem iset_insert_union calloc_ok l start length y ret l' :
  iset_ok 0 l -> in_width 64 start -> in_width 64 length ->
  in_width 64 y -> ~ in_set l y -> ~ (start <= y < start + length) ->
  iset_insert_range calloc_ok l start length = (ret, l') ->
  (ret = EINVAL <-> length = 0 \/ 2 ^ 64 < start + length \/ exists x, in_set l x /\ start <= x < start + length) /\
  (ret <> 0 -> l' = l /\ (ret = EINVAL \/ (ret = ENOMEM /\ calloc_ok = false))) /\
  (ret = 0 -> iset_ok 0 l' /\ forall x, in_set l' x <-> in_set l x \/ start <= x < start + length).
Proof.
  intros Hok Hs Hl Hy Hny Hsy. unfold in_width, iset_insert_range in *. destruct (Z.eqb_spec length 0) as [->|].
  { intros [= <- <-]. split_and!; [split; auto|auto|done]. }
  cbn [orb]. destruct (Z.ltb_spec (u64 (start + length - 1)) start) as [Hw|Hw].
  { intros [= <- <-]. split_and!; [split; [|done]; intros _|auto|done]. right. left.
    destruct (Z.lt_ge_cases (2 ^ 64) (start + length)); [done|]. rewrite wrapu_small in Hw by lia. lia. }
  assert (start + length <= 2 ^ 64) as He.
  { destruct (Z.le_gt_cases (start + length) (2 ^ 64)); [done|]. unfold wrapu in Hw. dlia. }
  pose proof (scan_insert_spec start length ltac:(lia) ltac:(lia) He [] l Hok ltac:(intros r [])) as Hsc.
  destruct (scan_insert [] l start length) as [[b a]|]; [|intros [= <- <-]; split_and!; [split; auto|auto|done]].
  destruct Hsc as (Hba & Hb & Ha). cbn [rev app] in Hba. rewrite <- Hba in Hok, Hny.
  pose proof (insert_between start length ltac:(lia) ltac:(lia) He b a y Hok Hb Ha Hy Hny Hsy) as Hin. rewrite Hba in Hin.
  assert (~ exists x, in_set l x /\ start <= x < start + length) as Hno.
  { intros (x & Hx & Hxs). rewrite <- Hba in Hx. apply in_set_app in Hx as [Hx|Hx].
    - apply Exists_exists in Hx as (r & Hr & Hxr). specialize (Hb r). rewrite in_rev in Hb. apply list_elem_of_In in Hr. specialize (Hb Hr). unfold in_range in Hxr. lia.
    - destruct a as [|r0 a]; [by apply in_set_nil in Hx|]. apply iset_ok_app in Hok as [_ Hok]. cbn in Hok.
      apply (in_set_bounds (r_start r0)) in Hx; [lia|]. cbn. intuition lia. }
  destruct (check_do_combine b a start length) as [l1|].
  { intros [= <- <-]. split_and!; [split; [done|]; intros [?|[?|?]]; lia || done|done|done]. }
  destruct calloc_ok; intros [= <- <-].
  - split_and!; [split; [done|]; intros [?|[?|?]]; lia || done|done|done].
  - split_and!; [split; [done|]; intros [?|[?|?]]; lia || done|auto|done].
Qed.

(** The set of all addresses has no representation: the length of the combined
    range wraps to 0. *)
Lemma insert_whole_space :
  iset_insert_range true [Range 16 (2 ^ 64 - 16)] 0 16 = (0, [Range 0 0]).
Proof. reflexivity. Qed.

Lemma iset_insert_union_witness :
  iset_insert_range true [Range 0 16; Range 32 16] 16 16 = (0, [Range 0 48]) /\ forall x, in_set [Range 0 48] x <-> in_set [Range 0 16; Range 32 16] x \/ 16 <= x < 32.
Proof.
  split; [reflexivity|].
  apply (iset_insert_union true [Range 0 16; Range 32 16] 16 16 100 0 [Range 0 48]); try reflexivity; try (split; [discriminate|reflexivity]); try (intros [H1 H2]; lia).
  - cbn. lia.
  - rewrite !in_set_cons. unfold in_range. cbn. intros [?|[?|?%in_set_nil]]; lia || done.
Defined.

(** ** Allocation *)

Lemma iset_ok_at lo l1 r l2 x :
  iset_ok lo (l1 ++ r :: l2) ->
  (in_set l1 x -> x + 1 < r_start r) /\ (in_set l2 x -> r_start r + r_length r < x) /\
  lo <= r_start r /\ 0 < r_length r /\ r_start r + r_length r <= 2 ^ 64.
Proof.
  intros [H1 (H2 & H3 & H4 & H5)]%iset_ok_app. pose proof (iset_end_ge _ _ H1).
  split_and!; try lia; intros Hx; eapply in_set_bounds in Hx; eauto; lia.
Qed.

(** A run of addresses of the set lies in one range. *)
Lemma run_in_one_range lo l a len :
  iset_ok lo l -> 0 < len -> (forall x, a <= x < a + len -> in_set l x) ->
  exists l1 r l2, l = l1 ++ r :: l2 /\ r_start r <= a /\ a + len <= r_start r + r_length r.
Proof.
  intros Hok Hlen Hrun. pose proof (Hrun a ltac:(lia)) as (r & (l1 & l2 & ->)%list_elem_of_split & Hr)%Exists_exists.
  exists l1, r, l2. unfold in_range in Hr. split_and!; [done|lia|].
  destruct (Z.le_gt_cases (a + len) (r_start r + r_length r)) as [|Hgt]; [done|exfalso].
  pose proof (Hrun (r_start r + r_length r) ltac:(lia)) as Hx. destruct (iset_ok_at _ _ _ _ (r_start r + r_length r) Hok) as (H1 & H2 & _ & H3 & _).
  apply in_set_app in Hx as [Hx%H1|[Hx|Hx%H2]%in_set_cons]; [|unfold in_range in Hx|]; lia.
Qed.

Section Alloc.

Context (length k : Z) (Hl : 0 < length < 2 ^ 64) (Hk : 0 <= k < 64).

Lemma power_of_two_pow : power_of_two (2 ^ k) = true.
Proof.
  pose proof (Z.pow_pos_nonneg 2 k ltac:(lia) ltac:(lia)). assert (2 ^ k < 2 ^ 64) by (apply Z.pow_lt_mono_r; lia).
  unfold power_of_two. rewrite (proj2 (Z.eqb_neq (2 ^ k) 0)), wrapu_small by lia.
  replace (2 ^ k - 1) with (Z.ones k) by (rewrite Z.ones_equiv; lia). rewrite Z.land_ones, Z.mod_same by lia. done.
Qed.

(** The least multiple of the alignment from [v] on. *)
Definition aligned_up (v : Z) : Z := 2 ^ k * ((v + 2 ^ k - 1) / 2 ^ k).

Lemma aligned_up_spec v :
  v <= aligned_up v < v + 2 ^ k /\ aligned_up v mod 2 ^ k = 0 /\ forall a, a mod 2 ^ k = 0 -> v <= a -> aligned_up v <= a.
Proof.
  pose proof (Z.pow_pos_nonneg 2 k ltac:(lia) ltac:(lia)). unfold aligned_up.
  pose proof (Z.div_mod (v + 2 ^ k - 1) (2 ^ k) ltac:(lia)). pose proof (Z.mod_pos_bound (v + 2 ^ k - 1) (2 ^ k) ltac:(lia)).
  split_and!; [lia|lia|rewrite Z.mul_comm; apply Z.mod_mul; lia|].
  intros a Ha Hv. pose proof (Z.div_mod a (2 ^ k) ltac:(lia)). rewrite Ha in *.
  assert ((v + 2 ^ k - 1) / 2 ^ k < a / 2 ^ k + 1) by (apply Z.div_lt_upper_bound; lia). nia.
Qed.

Definition fits (r : iset_range) : Prop := aligned_up (r_start r) + length <= r_start r + r_length r.

Lemma find_range_spec before l :
  (forall r, In r l -> 0 <= r_start r /\ 0 < r_length r /\ r_start r + r_length r <= 2 ^ 64 /\ r_start r + 2 ^ k <= 2 ^ 64) ->
  match find_range before l length (2 ^ k) with
  | None => forall r, In r l -> ~ fits r
  | Some (b, r, astart, after) =>
    exists l1, b = rev l1 ++ before /\ l = l1 ++ r :: after /\ astart = aligned_up (r_start r) /\ fits r /\ forall r', In r' l1 -> ~ fits r'
  end.
Proof.
  revert before. induction l as [|r l IH]; intros before Hr; cbn [find_range]; [by intros r []|].
  pose proof (Hr r (or_introl eq_refl)) as (H1 & H2 & H3 & H4). rewrite align_up by lia. fold (aligned_up (r_start r)).
  pose proof (aligned_up_spec (r_start r)) as [Ha _]. rewrite (wrapu_small 64 (r_start r + r_length r - 1)) by lia.
  assert (((aligned_up (r_start r) <=? u64 (aligned_up (r_start r) + length - 1)) && (u64 (aligned_up (r_start r) + length - 1) <=? r_start r + r_length r - 1)) = true <-> fits r) as Hfit.
  { unfold fits. rewrite andb_true_iff, !Z.leb_le. destruct (Z.le_gt_cases (aligned_up (r_start r) + length) (2 ^ 64)).
    - rewrite wrapu_small by lia. lia.
    - assert (u64 (aligned_up (r_start r) + length - 1) < aligned_up (r_start r)) by (unfold wrapu; dlia). lia. }
  destruct (_ && _).
  - exists []. split_and!; try done. by apply Hfit.
  - assert (~ fits r) as Hn by (intros ?%Hfit; done). specialize (IH (r :: before) (fun r' H => Hr r' (or_intror H))).
    destruct (find_range _ _ _ _) as [[[[b r1] a1] after]|]; [|by intros r' [<-|?]; [|apply IH]].
    destruct IH as (l1 & -> & -> & -> & Hf & Hb). exists (r :: l1). cbn [rev]. rewrite <- app_assoc. split_and!; try done.
    intros r' [<-|?]; [done|by apply Hb].
Qed.

Lemma fits_least l1 r l2 a :
  iset_ok 0 (l1 ++ r :: l2) -> (forall r', In r' l1 -> ~ fits r') -> fits r ->
  a mod 2 ^ k = 0 -> (forall x, a <= x < a + length -> in_set (l1 ++ r :: l2) x) -> aligned_up (r_start r) <= a.
Proof.
  intros Hok Hb Hf Ha Hrun. unfold fits in *. pose proof (Hrun a ltac:(lia)) as Hx.
  destruct (iset_ok_at _ _ _ _ a Hok) as (H1 & H2 & _). destruct (aligned_up_spec (r_start r)) as (H3 & _ & H4).
  apply in_set_app in Hx as [Hx|[Hx|Hx%H2]%in_set_cons].
  - exfalso. apply run_in_one_range with (lo := 0) in Hrun as (m1 & r' & m2 & Heq & Hs & He); [|done|lia].
    assert (In r' l1) as Hin.
    { assert (In r' (l1 ++ r :: l2)) as Hin by (rewrite Heq; apply in_elt). apply in_app_or in Hin as [?|[<-|Hin]]; [done|apply H1 in Hx; lia|].
      destruct (iset_ok_at _ _ _ _ (r_start r') Hok) as (_ & H5 & _). apply H1 in Hx. assert (in_set l2 (r_start r')) as Hi; [|apply H5 in Hi; lia].
      apply Exists_exists. exists r'. split; [by apply list_elem_of_In|unfold in_range; lia]. }
    apply (Hb r' Hin). destruct (aligned_up_spec (r_start r')) as (_ & _ & H6). specialize (H6 a Ha Hs). lia.
  - unfold in_range in Hx. apply H4; [done|lia].
  - lia.
Qed.

(** What is left of a range from which [length] addresses from [a] on are cut. *)
Definition cut (r : iset_range) (a : Z) : list iset_range :=
  (if r_start r <? a then [Range (r_start r) (a - r_start r)] else []) ++
  (if a + length <? r_start r + r_length r then [Range (a + length) (r_start r + r_length r - (a + length))] else []).

Lemma cut_set r a x :
  r_start r <= a -> a + length <= r_start r + r_length r ->
  in_set (cut r a) x <-> in_range r x /\ ~ (a <= x < a + length).
Proof.
  clear Hk k. intros. unfold cut. rewrite in_set_app. unfold in_range.
  destruct (Z.ltb_spec (r_start r) a), (Z.ltb_spec (a + length) (r_start r + r_length r));
    rewrite ?in_set_cons; unfold in_range; cbn [r_start r_length]; pose proof (in_set_nil x); intuition lia.
Qed.

Lemma cut_ok l1 r l2 a :
  iset_ok 0 (l1 ++ r :: l2) -> r_start r <= a -> a + length <= r_start r + r_length r -> iset_ok 0 (l1 ++ cut r a ++ l2).
Proof.
  clear Hk k. rewrite !iset_ok_app. intros [H1 (H2 & H3 & H4 & H5)] Ha He. split; [done|]. unfold cut. pose proof (iset_end_ge _ _ H1).
  destruct (Z.ltb_spec (r_start r) a), (Z.ltb_spec (a + length) (r_start r + r_length r)); cbn; split_and!;
    try lia; (eapply iset_ok_weaken; [|exact H5]); lia.
Qed.

Lemma alloc_cut calloc_ok l b r l2 :
  find_range [] l length (2 ^ k) = Some (b, r, aligned_up (r_start r), l2) ->
  0 <= r_start r -> r_start r + r_length r <= 2 ^ 64 -> r_length r < 2 ^ 64 -> fits r ->
  iset_alloc_range calloc_ok l length (2 ^ k) = (0, aligned_up (r_start r), rev b ++ cut r (aligned_up (r_start r)) ++ l2) \/
  (iset_alloc_range calloc_ok l length (2 ^ k) = (ENOMEM, 0, l) /\ calloc_ok = false).
Proof.
  intros Hfind Hs He Hlen Hf. unfold iset_alloc_range. rewrite power_of_two_pow. cbn [negb]. rewrite Hfind. destruct (aligned_up_spec (r_start r)) as [Ha _]. unfold fits, cut in *. set (a := aligned_up (r_start r)) in *.
  destruct (Z.eqb_spec (r_start r) a) as [E|E].
  - rewrite E, Z.ltb_irrefl. left. destruct (Z.eqb_spec (r_length r) length) as [E2|E2].
    + rewrite (proj2 (Z.ltb_ge (a + length) (a + r_length r))) by lia. done.
    + rewrite (proj2 (Z.ltb_lt (a + length) (a + r_length r))) by lia. rewrite !wrapu_small by lia. by replace (a + r_length r - (a + length)) with (r_length r - length) by lia.
  - rewrite (proj2 (Z.ltb_lt (r_start r) a)) by lia. rewrite (wrapu_small 64 (a - r_start r)) by lia.
    destruct (Z.ltb_spec (a + length) (r_start r + r_length r)) as [Hlt|Hge].
    + rewrite (wrapu_small 64 (a + length)) by lia. replace (a + length =? u64 (r_start r + r_length r)) with false by (symmetry; apply Z.eqb_neq; unfold wrapu; dlia).
      cbn [negb]. destruct calloc_ok; [left|by right].
      by replace (u64 (u64 (r_start r + r_length r) - a - length)) with (r_start r + r_length r - (a + length)) by (unfold wrapu; dlia).
    + replace (a + length) with (r_start r + r_length r) by lia. rewrite Z.eqb_refl. by left.
Qed.

End Alloc.

(** C36: Allocation takes the lowest place.  As long as rounding up the start of
    a range stays below 2^64, a request for [length] addresses at a multiple of
    2^k fails with [ENOSPC] exactly when no aligned run of that length lies in
    the set; otherwise, unless a node is needed and cannot be had, the lowest
    such run is returned and exactly its addresses leave the set, which stays a
    sorted list of ranges with gaps; failures leave the set as it was. *)
Theorem iset_alloc_first_fit calloc_ok l length k ret a l' :
  iset_ok 0 l -> (forall r, In r l -> r_start r + 2 ^ k <= 2 ^ 64 /\ r_length r < 2 ^ 64) ->
  0 < length < 2 ^ 64 -> 0 <= k < 64 ->
  iset_alloc_range calloc_ok l length (2 ^ k) = (ret, a, l') ->
  let run a := a mod 2 ^ k = 0 /\ forall x, a <= x < a + length -> in_set l x in
  (ret = ENOSPC <-> ~ exists a, run a) /\
  (ret <> 0 -> l' = l /\ (ret = ENOSPC \/ (ret = ENOMEM /\ calloc_ok = false))) /\
  (ret = 0 -> run a /\ (forall a', run a' -> a <= a') /\
    iset_ok 0 l' /\ forall x, in_set l' x <-> in_set l x /\ ~ (a <= x < a + length)).
Proof.
  intros Hok Hr Hlen Hk Halloc run.
  assert (forall r, In r l -> 0 <= r_start r /\ 0 < r_length r /\ r_start r + r_length r <= 2 ^ 64 /\ r_start r + 2 ^ k <= 2 ^ 64) as Hall.
  { intros r Hin. pose proof (Hr r Hin) as [H1 _]. apply in_split in Hin as (l1 & l2 & ->). destruct (iset_ok_at _ _ _ _ 0 Hok) as (_ & _ & ?). lia. }
  pose proof (find_range_spec length k Hlen Hk [] l Hall) as Hf. destruct (find_range [] l length (2 ^ k)) as [[[[b r] a0] l2]|] eqn:E.
  - destruct Hf as (l1 & -> & -> & -> & Hfit & Hb). rewrite app_nil_r in *. pose proof (Hall r ltac:(apply in_elt)). pose proof (Hr r ltac:(apply in_elt)) as [_ ?].
    destruct (aligned_up_spec k Hk (r_start r)) as (Ha & Hmod & _).
    assert (run (aligned_up k (r_start r))) as Hrun.
    { split; [done|]. intros x Hx. apply in_set_app. right. apply in_set_cons. left. unfold in_range, fits in *. lia. }
    destruct (alloc_cut length k Hlen Hk calloc_ok _ _ _ _ E) as [H1|[H1 ->]]; try lia; try done; rewrite Halloc in H1; injection H1 as -> -> ->.
    + rewrite rev_involutive. split_and!; [split; [done|]; intros []; by eexists|done|]. intros _. split_and!.
      * exact Hrun.
      * intros a' [Hm Hx]. by eapply fits_least.
      * apply cut_ok; unfold fits in *; lia || done.
      * intros x. rewrite !in_set_app, in_set_cons. rewrite cut_set; unfold fits in *; [|lia..].
        destruct (iset_ok_at _ _ _ _ x Hok) as (H1 & H2 & _). unfold fits in *. intuition lia.
    + split_and!; [split; [done|]; intros []; by eexists|auto|done].
  - unfold iset_alloc_range in Halloc. rewrite power_of_two_pow, E in Halloc by done. injection Halloc as <- <- <-.
    split_and!; [split; [|done]; intros _ (a & Hm & Hx)|auto|done].
    apply run_in_one_range with (lo := 0) in Hx as (l1 & r & l2 & -> & Hs & He); [|done|lia]. apply (Hf r ltac:(apply in_elt)).
    destruct (aligned_up_spec k Hk (r_start r)) as (_ & _ & H6). specialize (H6 a Hm Hs). unfold fits. lia.
Qed.

Lemma iset_alloc_first_fit_witness :
  iset_alloc_range true [Range 10 20; Range 40 100] 16 (2 ^ 4) = (0, 48, [Range 10 20; Range 40 8; Range 64 76]) /\
  in_set [Range 10 20; Range 40 100] 50 /\ ~ in_set [Range 10 20; Range 40 8; Range 64 76] 50.
Proof.
  assert (iset_alloc_range true [Range 10 20; Range 40 100] 16 (2 ^ 4) = (0, 48, [Range 10 20; Range 40 8; Range 64 76])) as E by reflexivity.
  split; [exact E|].
  destruct (iset_alloc_first_fit true [Range 10 20; Range 40 100] 16 4 0 48 [Range 10 20; Range 40 8; Range 64 76]) as (_ & _ & H);
    [cbn; lia|intros r [<-|[<-|[]]]; cbn; lia|lia|lia|exact E|].
  destruct (H eq_refl) as ((_ & Hrun) & _ & _ & Hset). split; [apply Hrun; lia|]. rewrite Hset. lia.
Defined.

(** Rounding up the start of a range can wrap to 0, which passes for a place in
    the range: the addresses returned were never in the set. *)
Lemma alloc_wraps :
  iset_alloc_range true [Range (2 ^ 64 - 16) 15] 8 4096 = (0, 0, [Range (2 ^ 64 - 16) 16; Range 8 (2 ^ 64 - 9)]) /\
  ~ in_set [Range (2 ^ 64 - 16) 15] 0.
Proof.
  split; [reflexivity|]. rewrite in_set_cons. unfold in_range. cbn. intros [?|?%in_set_nil]; [lia|done].
Qed.
