(* ===== verification/Buddy.v ===== *)
(** providers/mlx5/dr_buddy.c: the buddy allocator of the steering memory.

    For every order a bitmap has a bit per free block of that order, a second
    bitmap has a bit per word of the first that is not 0, and a counter has the
    number of bits set.  The theorems show that the allocator keeps every unit
    in at most one free block and no two free buddies apart, so that an
    allocation fails only if no aligned block of its order is free, and that
    the blocks handed out never overlap. *)

From S2P Require Import Prelude Util Sums Bitmap Wqe.

Record dr_icm_buddy_mem := Buddy { bits : list (list Z); num_free : list Z; set_bit : list (list Z); max_order : Z }.

Definition dr_find_first_bit (set_addr addr : list Z) (size : Z) : option Z :=
  let set_size := u32 (u32 (size - 1) / BITS_PER_LONG + 1) in
  set_idx ← bitmap_find_first_bit set_addr 0 set_size;
  r ← bitmap_find_first_bit addr (u64 (set_idx * BITS_PER_LONG)) size;
  Some (i32 r).

(** *** Initialisation: the allocations in their order *)

Inductive buddy_mem := MBits | MNumFree | MSetBit | MBitmap (i : Z) | MSetBitmap (i : Z).

#[export] Instance buddy_mem_eq_dec : EqDecision buddy_mem.
Proof. solve_decision. Defined.

(** The blocks held after [free]; pointers that were never set are NULL. *)
Definition free_mem (m : buddy_mem) (held : list buddy_mem) : list buddy_mem := filter (fun x => x <> m) held.

Definition orders (max : Z) : list Z := seqZ 0 (max + 1).

Definition free_each (mem : Z -> buddy_mem) (max : Z) (held : list buddy_mem) : list buddy_mem :=
  foldl (fun h i => free_mem (mem i) h) held (orders max).

(** The loops that allocate a bitmap of [size i] bits per order: the bitmaps,
    or [None] at the first failure, and the blocks held. *)
Fixpoint alloc_each (ok : buddy_mem -> bool) (mem : Z -> buddy_mem) (size : Z -> Z) (os : list Z)
    (bs : list (list Z)) (held : list buddy_mem) : option (list (list Z)) * list buddy_mem :=
  match os with
  | [] => (Some bs, held)
  | i :: os' =>
    match bitmap_alloc0 (ok (mem i)) (size i) with
    | None => (None, held)
    | Some b => alloc_each ok mem size os' (bs ++ [b]) (mem i :: held)
    end
  end.

Definition err_out_free_bits (held : list buddy_mem) : list buddy_mem := free_mem MBits held.
Definition err_out_free_num_free (held : list buddy_mem) : list buddy_mem := err_out_free_bits (free_mem MNumFree held).
Definition err_out_free_each_bit_per_order (max : Z) (held : list buddy_mem) : list buddy_mem :=
  err_out_free_num_free (free_each MBitmap max (free_mem MSetBit held)).
Definition err_out_free_set (max : Z) (held : list buddy_mem) : list buddy_mem :=
  err_out_free_each_bit_per_order max (free_each MSetBitmap max held).

(** The return value, the structure and the blocks held; [ok] is which
    allocations succeed.  [1 << max_order] is an [int]. *)
Definition dr_buddy_init (ok : buddy_mem -> bool) (max : Z) : option (Z * option dr_icm_buddy_mem * list buddy_mem) :=
  if negb ((0 <=? max) && (max <=? 30)) then None else
  if negb (ok MBits) then Some (ENOMEM, None, []) else
  if negb (ok MNumFree) then Some (ENOMEM, None, err_out_free_bits [MBits]) else
  if negb (ok MSetBit) then Some (ENOMEM, None, err_out_free_num_free [MNumFree; MBits]) else
  match alloc_each ok MBitmap (fun i => 2 ^ (max - i)) (orders max) [] [MSetBit; MNumFree; MBits] with
  | (None, held) => Some (ENOMEM, None, err_out_free_each_bit_per_order max held)
  | (Some bs, held) =>
    match alloc_each ok MSetBitmap (fun i => BITS_TO_LONGS (2 ^ (max - i))) (orders max) [] held with
    | (None, held) => Some (ENOMEM, None, err_out_free_set max held)
    | (Some ss, held) =>
      b ← bs.[max]; b ← bitmap_set_bit b 0; bs ← aset bs max b;
      s ← ss.[max]; s ← bitmap_set_bit s 0; ss ← aset ss max s;
      nf ← aset (replicate (Z.to_nat (max + 1)) 0) max 1;
      Some (0, Some (Buddy bs nf ss max), held)
    end
  end.

(** The blocks held after the clean-up. *)
Definition dr_buddy_cleanup (b : dr_icm_buddy_mem) (held : list buddy_mem) : list buddy_mem :=
  let held := foldl (fun h i => free_mem (MSetBitmap i) (free_mem (MBitmap i) h)) held (orders (max_order b)) in
  free_mem MBits (free_mem MNumFree (free_mem MSetBit held)).

(** *** Allocation *)

Definition dr_buddy_get_seg_borders (seg : Z) : Z * Z :=
  (u32 (seg / BITS_PER_LONG * BITS_PER_LONG), u32 ((seg / BITS_PER_LONG + 1) * BITS_PER_LONG)).

Definition dr_buddy_update_upper_bitmap (b : dr_icm_buddy_mem) (seg order : Z) : option dr_icm_buddy_mem :=
  let '(l, h) := dr_buddy_get_seg_borders seg in
  bm ← (bits b).[order];
  m ← bitmap_find_first_bit bm l h;
  if u32 m =? h then
    sb ← (set_bit b).[order];
    sb ← bitmap_clear_bit sb (seg / BITS_PER_LONG);
    ss ← aset (set_bit b) order sb;
    Some (Buddy (bits b) (num_free b) ss (max_order b))
  else Some b.

(** A free block of the order is taken out of the bitmaps. *)
Definition take_block (b : dr_icm_buddy_mem) (seg order : Z) : option dr_icm_buddy_mem :=
  bm ← (bits b).[order];
  bm ← bitmap_clear_bit bm seg;
  bs ← aset (bits b) order bm;
  b ← dr_buddy_update_upper_bitmap (Buddy bs (num_free b) (set_bit b) (max_order b)) seg order;
  nf ← amod (num_free b) order (fun n => u32 (n - 1));
  Some (Buddy (bits b) nf (set_bit b) (max_order b)).

(** A free block of the order is entered in the bitmaps. *)
Definition give_block (b : dr_icm_buddy_mem) (seg order : Z) : option dr_icm_buddy_mem :=
  bm ← (bits b).[order];
  bm ← bitmap_set_bit bm seg;
  bs ← aset (bits b) order bm;
  sb ← (set_bit b).[order];
  sb ← bitmap_set_bit sb (seg / BITS_PER_LONG);
  ss ← aset (set_bit b) order sb;
  nf ← amod (num_free b) order (fun n => u32 (n + 1));
  Some (Buddy bs nf ss (max_order b)).

(** The search: the order and the block found, [Some None] if there is none. *)
Fixpoint find_order (fuel : nat) (b : dr_icm_buddy_mem) (o : Z) : option (option (Z * Z)) :=
  match fuel with
  | O => None
  | S fuel' =>
    if u32 o <=? max_order b then
      n ← (num_free b).[o];
      if negb (n =? 0) then
        let m := 2 ^ (max_order b - o) in
        sb ← (set_bit b).[o];
        bm ← (bits b).[o];
        seg ← dr_find_first_bit sb bm m;
        if m <=? seg then None else Some (Some (o, seg))
      else find_order fuel' b (o + 1)
    else Some None
  end.

(** The halves that are not wanted become free: [n] orders are to go. *)
Fixpoint split_block (n : nat) (b : dr_icm_buddy_mem) (o seg : Z) : option (dr_icm_buddy_mem * Z) :=
  match n with
  | O => Some (b, seg)
  | S n' =>
    let o := o - 1 in
    let seg := i32 (2 * seg) in
    b ← give_block b (Z.lxor seg 1) o;
    split_block n' b o seg
  end.

(** The segment, -1 if there is none. *)
Definition dr_buddy_alloc_mem (b : dr_icm_buddy_mem) (order : Z) : option (Z * dr_icm_buddy_mem) :=
  f ← find_order (S (S (Z.to_nat (max_order b - order)))) b order;
  match f with
  | None => Some (-1, b)
  | Some (o, seg) =>
    b ← take_block b seg o;
    r ← split_block (Z.to_nat (o - order)) b o seg;
    Some (i32 (Z.shiftl (snd r) order), fst r)
  end.

(** The loop that merges the block with its buddies; an order more each turn. *)
Fixpoint merge_block (fuel : nat) (b : dr_icm_buddy_mem) (seg order : Z) : option (dr_icm_buddy_mem * Z * Z) :=
  match fuel with
  | O => None
  | S fuel' =>
    bm ← (bits b).[order];
    t ← bitmap_test_bit bm (Z.lxor seg 1);
    if (t : bool) then
      b ← take_block b (Z.lxor seg 1) order;
      merge_block fuel' b (Z.shiftr seg 1) (order + 1)
    else Some (b, seg, order)
  end.

Definition dr_buddy_free_mem (b : dr_icm_buddy_mem) (seg order : Z) : option dr_icm_buddy_mem :=
  r ← merge_block (S (Z.to_nat (max_order b - order))) b (Z.shiftr seg order) order;
  let '(b, seg, order) := r in
  give_block b seg order.

(** ** One order: its bitmaps, its counter and the set of its free blocks *)

Record level_ok (sz : Z) (bm sb : list Z) (n : Z) (F : Z -> bool) : Prop := {
  lv_bits : bitmap_ok bm /\ alen bm = (sz + 63) / 64;
  lv_set : bitmap_ok sb /\ alen bm <= 64 * alen sb;
  lv_free : forall s, 0 <= s -> bitmap_bit bm s = F s;
  lv_range : forall s, F s = true -> 0 <= s < sz;
  lv_upper : forall w, 0 <= w < alen bm -> bitmap_bit sb w = true <-> exists s, F s = true /\ s / 64 = w;
  lv_count : n = zsum (Z.to_nat sz) (fun s => b2z (F s)) }.

Definition put (F : Z -> bool) (s : Z) (v : bool) : Z -> bool := fun t => if t =? s then v else F t.

Section Level.

Context (sz : Z) (Hsz : 0 < sz <= 2 ^ 30).

Lemma count_range F : 0 <= zsum (Z.to_nat sz) (fun s => b2z (F s)) <= sz.
Proof.
  split; [apply zsum_nonneg; intros i _; unfold b2z; destruct (F i); lia|].
  transitivity (zsum (Z.to_nat sz) (fun _ => 1)); [apply zsum_le; intros i _; unfold b2z; destruct (F i); lia|rewrite zsum_const; lia].
Qed.

Lemma count_put F s v :
  0 <= s < sz -> zsum (Z.to_nat sz) (fun t => b2z (put F s v t)) = zsum (Z.to_nat sz) (fun t => b2z (F t)) + (b2z v - b2z (F s)).
Proof.
  intros Hs. rewrite (zsum_update _ s (fun t => b2z (F t))) by (lia || (intros i _ ?; unfold put; destruct (Z.eqb_spec i s); done)).
  unfold put. rewrite Z.eqb_refl. done.
Qed.

Lemma level_count_zero bm sb n F : level_ok sz bm sb n F -> n = 0 -> forall s, F s = false.
Proof.
  intros [_ _ _ Hr _ Hc] -> s. destruct (F s) eqn:E; [|done]. specialize (Hr s E).
  pose proof (zsum_ge_one (Z.to_nat sz) s (fun t => b2z (F t)) ltac:(lia) ltac:(intros i _; unfold b2z; destruct (F i); lia)) as H. cbn in H. rewrite E in H. cbn in H. lia.
Qed.

(** The two-level search finds a free block. *)
Lemma find_first_level bm sb n F :
  level_ok sz bm sb n F -> n <> 0 -> exists s, dr_find_first_bit sb bm sz = Some s /\ F s = true.
Proof.
  intros [[Hb Hlb] [Hs Hls] Hf Hr Hu Hc] Hn. pose proof (count_range F). pose proof (alen_nonneg bm).
  destruct (zsum_pos_ex (Z.to_nat sz) (fun s => b2z (F s))) as (s0 & Hs0 & E0); [lia|].
  assert (F s0 = true) as Hs0t by (destruct (F s0); done). unfold dr_find_first_bit, BITS_PER_LONG.
  rewrite (wrapu_small 32 (sz - 1)), wrapu_small by dlia. replace ((sz - 1) / 64 + 1) with (alen bm) by dlia.
  destruct (find_first_bit_correct sb 0 (alen bm)) as (w & -> & Hw & Hwf & Hwt); [done|lia|lia|]. cbn [mbind option_bind].
  assert (w < alen bm) as Hlt.
  { destruct (Z.lt_ge_cases w (alen bm)); [done|]. exfalso. assert (bitmap_bit sb (s0 / 64) = true) as Hx by (apply Hu; [dlia|by exists s0]).
    rewrite Hwf in Hx by dlia. done. }
  pose proof (proj1 (Hu w ltac:(lia)) (Hwt Hlt)) as (s1 & Hs1 & Hw1). pose proof (Hr s1 Hs1).
  rewrite wrapu_small by dlia. destruct (find_first_bit_correct bm (w * 64) sz) as (s & -> & Hss & Hsf & Hst); [done|dlia|dlia|]. cbn [mbind option_bind].
  assert (s < sz) as Hlts.
  { destruct (Z.lt_ge_cases s sz); [done|]. exfalso. rewrite <- Hf, Hsf in Hs1 by dlia. done. }
  exists s. rewrite <- Hf by lia. split; [|by apply Hst]. f_equal. apply i32_small. lia.
Qed.

Lemma level_take bm sb n F s :
  level_ok sz bm sb n F -> F s = true ->
  exists bm', bitmap_clear_bit bm s = Some bm' /\ exists m, bitmap_find_first_bit bm' (u32 (s / 64 * 64)) (u32 ((s / 64 + 1) * 64)) = Some m /\
  exists sb', (if u32 m =? u32 ((s / 64 + 1) * 64) then bitmap_clear_bit sb (s / 64) else Some sb) = Some sb' /\
  level_ok sz bm' sb' (u32 (n - 1)) (put F s false).
Proof.
  intros [[Hb Hlb] [Hs Hls] Hf Hr Hu Hc] Ht. pose proof (Hr s Ht) as Hrs.
  destruct (clear_bit_bits bm s Hb ltac:(dlia)) as (bm' & -> & Hb' & Hl' & Hbits). exists bm'. split; [done|].
  rewrite !wrapu_small by dlia. destruct (find_first_bit_correct bm' (s / 64 * 64) ((s / 64 + 1) * 64)) as (m & -> & Hm & Hmf & Hmt); [done|dlia|dlia|].
  exists m. split; [done|]. rewrite (wrapu_small 32 m) by dlia.
  assert (forall t, 0 <= t -> bitmap_bit bm' t = put F s false t) as Hf'.
  { intros t Ht'. rewrite Hbits by done. unfold put. destruct (t =? s); [done|auto]. }
  assert (forall t, put F s false t = true <-> F t = true /\ t <> s) as Hput.
  { intros t. unfold put. destruct (Z.eqb_spec t s); intuition done. }
  assert (u32 (n - 1) = zsum (Z.to_nat sz) (fun t => b2z (put F s false t))) as Hcnt.
  { rewrite count_put by done. rewrite Ht, <- Hc. pose proof (count_range (put F s false)) as H. rewrite count_put, Ht in H by done. cbn in *. apply wrapu_small. lia. }
  assert (forall t, put F s false t = true -> 0 <= t < sz) as Hrng by (intros t [? _]%Hput; auto).
  destruct (Z.eqb_spec m ((s / 64 + 1) * 64)) as [Em|Em].
  - destruct (clear_bit_bits sb (s / 64) Hs ltac:(dlia)) as (sb' & -> & Hs' & Hls' & Hsb). exists sb'. split; [done|].
    split; [split; [done|lia]|split; [done|lia]|done|done| |done].
    intros w Hw. rewrite Hsb by lia. destruct (Z.eqb_spec w (s / 64)) as [->|Hne].
    + split; [done|]. intros (t & Htt & Hq). specialize (Hrng t Htt). rewrite <- Hf' in Htt by lia. rewrite Hmf in Htt; [done|dlia].
    + rewrite Hu by lia. split; intros (t & Htt & Hq); exists t; [rewrite Hput; split_and!; [done|intros ->; lia|done]|apply Hput in Htt; tauto].
  - exists sb. split; [done|]. split; [split; [done|lia]|split; [done|lia]|done|done| |done].
    intros w Hw. destruct (Z.eqb_spec w (s / 64)) as [->|Hne].
    + split; intros _; [|apply Hu; [lia|by exists s]]. exists m. rewrite <- Hf' by dlia. split; [apply Hmt; dlia|dlia].
    + rewrite Hu by lia. split; intros (t & Htt & Hq); exists t; [rewrite Hput; split_and!; [done|intros ->; lia|done]|apply Hput in Htt; tauto].
Qed.

Lemma level_give bm sb n F s :
  level_ok sz bm sb n F -> 0 <= s < sz -> F s = false ->
  exists bm' sb', bitmap_set_bit bm s = Some bm' /\ bitmap_set_bit sb (s / 64) = Some sb' /\
  level_ok sz bm' sb' (u32 (n + 1)) (put F s true).
Proof.
  intros [[Hb Hlb] [Hs Hls] Hf Hr Hu Hc] Hrs Ht.
  destruct (set_bit_bits bm s Hb ltac:(dlia)) as (bm' & -> & Hb' & Hl' & Hbits). exists bm'.
  destruct (set_bit_bits sb (s / 64) Hs ltac:(dlia)) as (sb' & -> & Hs' & Hls' & Hsb). exists sb'. split; [done|]. split; [done|].
  assert (forall t, put F s true t = true <-> F t = true \/ t = s) as Hput.
  { intros t. unfold put. destruct (Z.eqb_spec t s); intuition done. }
  split.
  - split; [done|lia].
  - split; [done|lia].
  - intros t Ht'. rewrite Hbits by done. unfold put. destruct (t =? s); [done|auto].
  - intros t [?| ->]%Hput; auto.
  - intros w Hw. rewrite Hsb by lia. destruct (Z.eqb_spec w (s / 64)) as [->|Hne].
    + split; [intros _|done]. exists s. rewrite Hput. auto.
    + rewrite Hu by lia. split; intros (t & Htt & Hq); exists t; [rewrite Hput; auto|]. apply Hput in Htt as [?| ->]; [auto|lia].
  - rewrite count_put by done. rewrite Ht, <- Hc. pose proof (count_range F). cbn. rewrite wrapu_small by lia. lia.
Qed.

End Level.

(** ** The free blocks of all orders *)

Definition blocks := Z -> Z -> bool.

Definition upd (F : blocks) (o s : Z) (v : bool) : blocks := fun o' => if o' =? o then put (F o') s v else F o'.

Record rep (b : dr_icm_buddy_mem) (F : blocks) : Prop := {
  rp_max : 0 <= max_order b <= 30;
  rp_len : alen (bits b) = max_order b + 1 /\ alen (set_bit b) = max_order b + 1 /\ alen (num_free b) = max_order b + 1;
  rp_level : forall o, 0 <= o <= max_order b -> exists bm sb n,
    (bits b).[o] = Some bm /\ (set_bit b).[o] = Some sb /\ (num_free b).[o] = Some n /\ level_ok (2 ^ (max_order b - o)) bm sb n (F o);
  rp_out : forall o s, F o s = true -> 0 <= o <= max_order b }.

Lemma size_range M o : 0 <= M <= 30 -> 0 <= o <= M -> 0 < 2 ^ (M - o) <= 2 ^ 30.
Proof. intros. split; [apply Z.pow_pos_nonneg; lia|apply Z.pow_le_mono_r; lia]. Qed.

Lemma rep_range b F o s : rep b F -> F o s = true -> 0 <= o <= max_order b /\ 0 <= s < 2 ^ (max_order b - o).
Proof.
  intros [_ _ Hl Ho] H. pose proof (Ho o s H). destruct (Hl o) as (bm & sb & n & _ & _ & _ & L); [done|]. split; [done|]. by apply (lv_range _ _ _ _ _ L).
Qed.

(** One order replaced. *)
Lemma rep_update b F o s v bs nf ss bm sb n :
  rep b F -> 0 <= o <= max_order b ->
  aset (bits b) o bm = Some bs -> aset (set_bit b) o sb = Some ss -> aset (num_free b) o n = Some nf ->
  level_ok (2 ^ (max_order b - o)) bm sb n (put (F o) s v) -> rep (Buddy bs nf ss (max_order b)) (upd F o s v).
Proof.
  intros [Hm (L1 & L2 & L3) Hl Ho] Hrange Eb Es En Hlv. split; cbn.
  - done.
  - rewrite (aset_alen _ _ _ _ Eb), (aset_alen _ _ _ _ Es), (aset_alen _ _ _ _ En). done.
  - intros o' Ho'. unfold upd. destruct (Z.eqb_spec o' o) as [->|Hne].
    + exists bm, sb, n. rewrite (aget_aset_eq _ _ _ _ Eb), (aget_aset_eq _ _ _ _ Es), (aget_aset_eq _ _ _ _ En). done.
    + rewrite (aget_aset_ne _ _ _ _ _ Eb), (aget_aset_ne _ _ _ _ _ Es), (aget_aset_ne _ _ _ _ _ En) by lia. auto.
  - intros o' s'. unfold upd. destruct (Z.eqb_spec o' o) as [->|]; [done|apply Ho].
Qed.

Lemma rep_take b F o s :
  rep b F -> F o s = true -> exists b', take_block b s o = Some b' /\ rep b' (upd F o s false) /\ max_order b' = max_order b.
Proof.
  intros Hr Ht. pose proof (rep_range _ _ _ _ Hr Ht) as [Ho _]. pose proof Hr as [Hm (L1 & L2 & L3) Hl _].
  destruct (Hl o Ho) as (bm & sb & n & Eb & Es & En & L).
  destruct (level_take _ (size_range _ _ Hm Ho) _ _ _ _ s L Ht) as (bm' & Ec & m & Em & sb' & Es' & L').
  unfold take_block, dr_buddy_update_upper_bitmap, amod, BITS_PER_LONG. rewrite Eb. cbn [mbind option_bind]. rewrite Ec. cbn [mbind option_bind].
  destruct (aset (bits b) o bm') as [bs|] eqn:Ebs; [|rewrite aset_Some in Ebs by lia; done]. cbn [mbind option_bind bits set_bit num_free max_order dr_buddy_get_seg_borders].
  rewrite (aget_aset_eq _ _ _ _ Ebs). unfold dr_buddy_get_seg_borders, BITS_PER_LONG. cbn [mbind option_bind]. rewrite Em. cbn [mbind option_bind].
  destruct (aset (num_free b) o (u32 (n - 1))) as [nf|] eqn:Enf; [|rewrite aset_Some in Enf by lia; done].
  destruct (aset (set_bit b) o sb') as [ss|] eqn:Ess; [|rewrite aset_Some in Ess by lia; done].
  exists (Buddy bs nf ss (max_order b)). split; [|split; [by eapply rep_update|done]].
  destruct (u32 m =? _).
  - rewrite Es. cbn [mbind option_bind]. rewrite Es'. cbn [mbind option_bind]. rewrite Ess. cbn. rewrite En. cbn. by rewrite Enf.
  - injection Es' as <-. assert (ss = set_bit b) as ->. { rewrite aset_Some in Ess by lia. injection Ess as <-. apply list_insert_id. by rewrite aget_lookup in Es by lia. }
    cbn. rewrite En. cbn. by rewrite Enf.
Qed.

Lemma rep_give b F o s :
  rep b F -> 0 <= o <= max_order b -> 0 <= s < 2 ^ (max_order b - o) -> F o s = false ->
  exists b', give_block b s o = Some b' /\ rep b' (upd F o s true) /\ max_order b' = max_order b.
Proof.
  intros Hr Ho Hs Ht. pose proof Hr as [Hm (L1 & L2 & L3) Hl _]. destruct (Hl o Ho) as (bm & sb & n & Eb & Es & En & L).
  destruct (level_give _ (size_range _ _ Hm Ho) _ _ _ _ s L Hs Ht) as (bm' & sb' & Ec & Ed & L').
  unfold give_block, amod, BITS_PER_LONG. rewrite Eb. cbn [mbind option_bind]. rewrite Ec. cbn [mbind option_bind].
  destruct (aset (bits b) o bm') as [bs|] eqn:Ebs; [|rewrite aset_Some in Ebs by lia; done]. cbn [mbind option_bind].
  rewrite Es. cbn [mbind option_bind]. rewrite Ed. cbn [mbind option_bind].
  destruct (aset (set_bit b) o sb') as [ss|] eqn:Ess; [|rewrite aset_Some in Ess by lia; done]. cbn [mbind option_bind]. rewrite En. cbn [mbind option_bind].
  destruct (aset (num_free b) o (u32 (n + 1))) as [nf|] eqn:Enf; [|rewrite aset_Some in Enf by lia; done].
  exists (Buddy bs nf ss (max_order b)). split; [done|split; [by eapply rep_update|done]].
Qed.

Lemma rep_find b F o n :
  rep b F -> 0 <= o <= max_order b + 1 -> max_order b + 1 - o < Z.of_nat n ->
  match find_order n b o with
  | None => False
  | Some None => forall o' s, o <= o' -> F o' s = false
  | Some (Some (o', s)) => o <= o' /\ F o' s = true
  end.
Proof.
  revert o. induction n as [|n IH]; intros o Hr Ho Hn; [lia|]. cbn [find_order]. pose proof Hr as [Hm (L1 & L2 & L3) Hl Hout].
  rewrite wrapu_small by lia. destruct (Z.leb_spec o (max_order b)) as [Hle|Hgt].
  2:{ intros o' s ?. destruct (F o' s) eqn:E; [|done]. pose proof (Hout _ _ E). lia. }
  destruct (Hl o) as (bm & sb & c & Eb & Es & En & L); [lia|]. rewrite En. cbn [mbind option_bind]. destruct (Z.eqb_spec c 0) as [Ec|Ec]; cbn [negb].
  - specialize (IH (o + 1) Hr ltac:(lia) ltac:(lia)). destruct (find_order n b (o + 1)) as [[[o' s]|]|]; [|..|done].
    + destruct IH. split; [lia|done].
    + intros o' s Ho'. destruct (Z.eq_dec o' o) as [->|]; [|apply IH; lia]. exact (level_count_zero _ (size_range _ _ Hm (conj (proj1 Ho) Hle)) _ _ _ _ L Ec s).
  - rewrite Es. cbn [mbind option_bind]. rewrite Eb. cbn [mbind option_bind].
    destruct (find_first_level _ (size_range _ _ Hm (conj (proj1 Ho) Hle)) _ _ _ _ L Ec) as (s & -> & Hs). cbn [mbind option_bind].
    pose proof (lv_range _ _ _ _ _ L s Hs). rewrite (proj2 (Z.leb_gt _ _)) by lia. split; [lia|done].
Qed.

(** ** Buddies *)

Lemma xor1_even s : s mod 2 = 0 -> Z.lxor s 1 = s + 1.
Proof. intros H. symmetry. apply Z.add_nocarry_lxor. change 1 with (Z.ones 1). rewrite Z.land_ones by lia. exact H. Qed.

Lemma xor1 s : Z.lxor s 1 = if s mod 2 =? 0 then s + 1 else s - 1.
Proof.
  destruct (Z.eqb_spec (s mod 2) 0) as [E|E]; [by apply xor1_even|].
  rewrite <- (Z.sub_simpl_r s 1) at 1. rewrite <- xor1_even by dlia. by rewrite Z.lxor_assoc, Z.lxor_nilpotent, Z.lxor_0_r.
Qed.

Lemma same_parent s t : t / 2 = s / 2 <-> t = s \/ t = Z.lxor s 1.
Proof. rewrite xor1. destruct (Z.eqb_spec (s mod 2) 0); dlia. Qed.

Lemma xor1_invol s : Z.lxor (Z.lxor s 1) 1 = s.
Proof. by rewrite Z.lxor_assoc, Z.lxor_nilpotent, Z.lxor_0_r. Qed.

Lemma xor1_ne s : Z.lxor s 1 <> s.
Proof. rewrite xor1. destruct (_ =? _); lia. Qed.

(** The block of order [o + d] around a unit. *)
Lemma div_pow_add x o d : 0 <= o -> 0 <= d -> x / 2 ^ (o + d) = x / 2 ^ o / 2 ^ d.
Proof. intros. rewrite Z.pow_add_r, Z.div_div by (try apply Z.pow_nonzero; try apply Z.pow_pos_nonneg; lia). done. Qed.

Lemma div_parent x o : 0 <= o -> x / 2 ^ (o + 1) = x / 2 ^ o / 2.
Proof. intros. by rewrite div_pow_add by lia. Qed.

Lemma first_unit o s : 0 <= o -> s * 2 ^ o / 2 ^ o = s.
Proof. intros. apply Z.div_mul, Z.pow_nonzero; lia. Qed.

(** ** Free units *)

Definition unit_free (F : blocks) (x : Z) : Prop := exists o, F o (x / 2 ^ o) = true.

(** No unit of the block is free, every unit is. *)
Definition block_taken (F : blocks) (o s : Z) : Prop := forall x, x / 2 ^ o = s -> ~ unit_free F x.
Definition block_free (F : blocks) (o s : Z) : Prop := forall x, x / 2 ^ o = s -> unit_free F x.

(** Every unit is in one free block at most, and free buddies are merged. *)
Record wf (M : Z) (F : blocks) : Prop := {
  wf_range : forall o s, F o s = true -> 0 <= o <= M /\ 0 <= s < 2 ^ (M - o);
  wf_one : forall x o o', F o (x / 2 ^ o) = true -> F o' (x / 2 ^ o') = true -> o = o';
  wf_merged : forall o s, o < M -> F o s = true -> F o (Z.lxor s 1) = false }.

Lemma upd_true F o s v o' s' : upd F o s v o' s' = true <-> (o' = o /\ s' = s /\ v = true) \/ (~ (o' = o /\ s' = s) /\ F o' s' = true).
Proof. unfold upd, put. destruct (Z.eqb_spec o' o), (Z.eqb_spec s' s); subst; intuition congruence. Qed.

Lemma taken_not_free F o s : 0 <= o -> block_taken F o s -> F o s = false.
Proof.
  intros Ho H. destruct (F o s) eqn:E; [|done]. exfalso. apply (H (s * 2 ^ o)); [by apply first_unit|]. exists o. by rewrite first_unit.
Qed.

Lemma wf_take M F o s :
  wf M F -> F o s = true -> wf M (upd F o s false) /\ forall x, unit_free (upd F o s false) x <-> unit_free F x /\ x / 2 ^ o <> s.
Proof.
  intros [Hr H1 Hm] Ht. split; [split|].
  - intros o' s' [(_ & _ & ?)|[_ ?]]%upd_true; [done|auto].
  - intros x o1 o2 [(_ & _ & ?)|[_ ?]]%upd_true [(_ & _ & ?)|[_ ?]]%upd_true; eauto || done.
  - intros o' s' Ho [(_ & _ & ?)|[_ E]]%upd_true; [done|]. specialize (Hm o' s' Ho E). destruct (upd F o s false o' (Z.lxor s' 1)) eqn:E'; [|done].
    apply upd_true in E' as [(_ & _ & ?)|[_ E']]; [done|congruence].
  - intros x. unfold unit_free. split.
    + intros (o' & [(_ & _ & ?)|[Hne E]]%upd_true); [done|]. split; [by exists o'|]. intros <-. apply Hne. by rewrite (H1 x o' o).
    + intros ((o' & E) & Hne). exists o'. apply upd_true. right. split; [|done]. intros [-> ?]. done.
Qed.

Lemma wf_give M F o s :
  wf M F -> 0 <= o <= M -> 0 <= s < 2 ^ (M - o) -> block_taken F o s -> (o < M -> F o (Z.lxor s 1) = false) ->
  wf M (upd F o s true) /\ forall x, unit_free (upd F o s true) x <-> unit_free F x \/ x / 2 ^ o = s.
Proof.
  intros [Hr H1 Hm] Ho Hs Hd Hb. split; [split|].
  - intros o' s' [(-> & -> & _)|[_ ?]]%upd_true; auto.
  - intros x o1 o2 [(-> & E1 & _)|[_ E1]]%upd_true [(-> & E2 & _)|[_ E2]]%upd_true; eauto.
    + exfalso. apply (Hd x E1). by exists o2.
    + exfalso. apply (Hd x E2). by exists o1.
  - intros o' s' Ho' E. destruct (upd F o s true o' (Z.lxor s' 1)) eqn:E'; [|done].
    apply upd_true in E as [(-> & -> & _)|[_ E]]; apply upd_true in E' as [(Eo & Ex & _)|[_ E']].
    + by apply xor1_ne in Ex.
    + rewrite Hb in E' by done. done.
    + subst o'. rewrite <- Ex, xor1_invol, E in Hb. by apply Hb.
    + rewrite (Hm o' s' Ho' E) in E'. done.
  - intros x. unfold unit_free. split.
    + intros (o' & [(-> & E & _)|[_ E]]%upd_true); [by right|left; by exists o'].
    + intros [(o' & E)|E]; [|exists o; apply upd_true; auto]. exists o'. apply upd_true. right. split; [|done]. intros [-> E']. apply (Hd x E'). by exists o.
Qed.

(** A block all of whose units are free lies in a free block. *)
Lemma free_block_covered M F o s :
  wf M F -> 0 <= o -> block_free F o s -> exists o', o <= o' /\ F o' (s / 2 ^ (o' - o)) = true.
Proof.
  intros Hwf Ho. revert s. pattern o. revert o Ho. apply natlike_ind.
  - intros s H. destruct (H s) as (o' & E); [apply Z.div_1_r|]. exists o'. rewrite Z.sub_0_r. split; [|done]. apply (wf_range _ _ Hwf) in E. lia.
  - intros o Ho IH s H. unfold Z.succ in *.
    assert (forall t, t / 2 = s -> exists o', o <= o' /\ F o' (t / 2 ^ (o' - o)) = true) as Hhalf.
    { intros t Ht. apply IH. intros x Hx. apply H. rewrite div_parent by done. by rewrite Hx. }
    assert (forall t o', t / 2 = s -> o + 1 <= o' -> t / 2 ^ (o' - o) = s / 2 ^ (o' - (o + 1))) as Hdiv.
    { intros t o' <- ?. replace (o' - o) with (1 + (o' - (o + 1))) by lia. by rewrite div_pow_add by lia. }
    destruct (Hhalf (2 * s)) as (o1 & L1 & E1); [dlia|]. destruct (Hhalf (Z.lxor (2 * s) 1)) as (o2 & L2 & E2); [rewrite (proj2 (same_parent (2 * s) _)) by auto; dlia|].
    destruct (Z.eq_dec o1 o) as [->|]; [|exists o1; rewrite <- (Hdiv (2 * s)) by dlia; split; [lia|done]].
    destruct (Z.eq_dec o2 o) as [->|]; [|exists o2; rewrite <- (Hdiv (Z.lxor (2 * s) 1)); [split; [lia|done]|rewrite (proj2 (same_parent (2 * s) _)) by auto; dlia|lia]].
    rewrite Z.sub_diag, Z.div_1_r in E1, E2. exfalso. destruct (Z.lt_ge_cases o M) as [HM|HM].
    + rewrite (wf_merged _ _ Hwf o (2 * s) HM E1) in E2. done.
    + apply (wf_range _ _ Hwf) in E1 as [? E1], E2 as [_ E2]. replace (M - o) with 0 in * by lia. rewrite xor1_even in E2 by dlia. cbn in *. lia.
Qed.

(** ** The operations *)

Record buddy_ok (b : dr_icm_buddy_mem) (F : blocks) : Prop := { bk_rep : rep b F; bk_wf : wf (max_order b) F }.

Lemma take_ok b F o s :
  buddy_ok b F -> F o s = true ->
  exists b', take_block b s o = Some b' /\ buddy_ok b' (upd F o s false) /\ max_order b' = max_order b /\
    forall x, unit_free (upd F o s false) x <-> unit_free F x /\ x / 2 ^ o <> s.
Proof.
  intros [Hr Hw] Ht. destruct (rep_take b F o s Hr Ht) as (b' & E & Hr' & Hm). destruct (wf_take _ F o s Hw Ht) as [Hw' Hu].
  exists b'. split_and!; try done. split; [done|by rewrite Hm].
Qed.

Lemma give_ok b F o s :
  buddy_ok b F -> 0 <= o <= max_order b -> 0 <= s < 2 ^ (max_order b - o) -> block_taken F o s -> (o < max_order b -> F o (Z.lxor s 1) = false) ->
  exists b', give_block b s o = Some b' /\ buddy_ok b' (upd F o s true) /\ max_order b' = max_order b /\
    forall x, unit_free (upd F o s true) x <-> unit_free F x \/ x / 2 ^ o = s.
Proof.
  intros [Hr Hw] Ho Hs Hd Hb. destruct (rep_give b F o s Hr Ho Hs) as (b' & E & Hr' & Hm); [apply taken_not_free; [lia|done]|].
  destruct (wf_give _ F o s Hw Ho Hs Hd Hb) as [Hw' Hu]. exists b'. split_and!; try done. split; [done|by rewrite Hm].
Qed.

(** Splitting keeps the first block of the lower order and frees the rest. *)
Lemma split_spec n b F o s :
  buddy_ok b F -> Z.of_nat n <= o <= max_order b -> 0 <= s < 2 ^ (max_order b - o) -> block_taken F o s ->
  exists b' F', split_block n b o s = Some (b', s * 2 ^ Z.of_nat n) /\ buddy_ok b' F' /\ max_order b' = max_order b /\
    forall x, unit_free F' x <-> unit_free F x \/ (x / 2 ^ o = s /\ x / 2 ^ (o - Z.of_nat n) <> s * 2 ^ Z.of_nat n).
Proof.
  revert b F o s. induction n as [|n IH]; intros b F o s Hb Ho Hs Hd; cbn [split_block].
  { exists b, F. rewrite Z.mul_1_r, Z.sub_0_r. split_and!; try done. intros x. tauto. }
  pose proof (rp_max _ _ (bk_rep _ _ Hb)) as HM. set (M := max_order b) in *.
  assert (2 ^ (M - (o - 1)) = 2 * 2 ^ (M - o)) as Hpow by (rewrite <- Z.pow_succ_r by lia; f_equal; lia).
  pose proof (size_range M (o - 1) HM ltac:(lia)). rewrite i32_small by lia. rewrite xor1_even by dlia.
  assert (forall x, x / 2 ^ o = x / 2 ^ (o - 1) / 2) as Hdiv by (intros x; rewrite <- div_parent by lia; do 2 f_equal; lia).
  assert (forall t, t / 2 = s -> block_taken F (o - 1) t) as Hd1 by (intros t <- x Hx; apply Hd; by rewrite Hdiv, Hx).
  destruct (give_ok b F (o - 1) (2 * s + 1) Hb) as (b1 & -> & Hb1 & Hm1 & Hu1); try (fold M; lia); [apply Hd1; dlia| |].
  { intros _. rewrite <- xor1_even, xor1_invol by dlia. apply taken_not_free; [lia|]. apply Hd1. dlia. }
  cbn [mbind option_bind].
  destruct (IH b1 (upd F (o - 1) (2 * s + 1) true) (o - 1) (2 * s) Hb1) as (b' & F' & E & Hb' & Hm' & Hu'); try (rewrite Hm1; fold M; lia).
  { intros x Hx [?|?]%Hu1; [|lia]. by apply (Hd1 (2 * s) ltac:(dlia) x Hx). }
  replace (s * 2 ^ Z.of_nat (S n)) with (2 * s * 2 ^ Z.of_nat n) by (rewrite Nat2Z.inj_succ, Z.pow_succ_r by lia; ring).
  exists b', F'. split_and!; [done|done|by rewrite Hm', Hm1|]. intros x. rewrite Hu', Hu1. replace (o - Z.of_nat (S n)) with (o - 1 - Z.of_nat n) by lia. rewrite Hdiv.
  assert (x / 2 ^ (o - 1 - Z.of_nat n) = 2 * s * 2 ^ Z.of_nat n -> x / 2 ^ (o - 1) = 2 * s) as Hsub.
  { intros Hx. replace (o - 1) with (o - 1 - Z.of_nat n + Z.of_nat n) by lia. rewrite div_pow_add, Hx by lia. apply first_unit. lia. }
  split; [intros [[?|?]|[? ?]]; [by left|right..]|intros [?|[? ?]]; [by left; left|]].
  - split; [dlia|lia].
  - split; [dlia|done].
  - destruct (Z.eq_dec (x / 2 ^ (o - 1)) (2 * s)); [by right|left; right; dlia].
Qed.

(** Merging replaces the block by the largest block that is free with it. *)
Lemma merge_spec n b F o s :
  buddy_ok b F -> 0 <= o <= max_order b -> 0 <= s < 2 ^ (max_order b - o) -> block_taken F o s -> max_order b - o < Z.of_nat n ->
  exists b' F' o' s', merge_block n b s o = Some (b', s', o') /\ buddy_ok b' F' /\ max_order b' = max_order b /\
    0 <= o' <= max_order b /\ 0 <= s' < 2 ^ (max_order b - o') /\ block_taken F' o' s' /\ F' o' (Z.lxor s' 1) = false /\
    forall x, unit_free F' x \/ x / 2 ^ o' = s' <-> unit_free F x \/ x / 2 ^ o = s.
Proof.
  revert b F o s. induction n as [|n IH]; intros b F o s Hb Ho Hs Hd Hn; [lia|]. cbn [merge_block].
  pose proof (bk_rep _ _ Hb) as Hr. pose proof (rp_max _ _ Hr) as HM. destruct (rp_level _ _ Hr o Ho) as (bm & sb & c & Eb & _ & _ & L).
  pose proof (size_range _ o HM Ho) as Hsz. rewrite Eb. cbn [mbind option_bind]. pose proof (lv_bits _ _ _ _ _ L) as [Hbm Hlen].
  assert (0 <= Z.lxor s 1 < 64 * alen bm) as Hx by (rewrite xor1; destruct (Z.eqb_spec (s mod 2) 0); dlia).
  rewrite test_bit_bits by done. cbn [mbind option_bind]. rewrite (lv_free _ _ _ _ _ L) by lia. destruct (F o (Z.lxor s 1)) eqn:Et.
  2:{ exists b, F, o, s. split_and!; done || lia. }
  assert (o < max_order b) as HoM.
  { destruct (Z.eq_dec o (max_order b)) as [->|]; [|lia]. exfalso. apply (rep_range _ _ _ _ Hr) in Et as [_ Et]. rewrite Z.sub_diag in *.
    replace s with 0 in Et by (cbn in Hs; lia). change (Z.lxor 0 1) with 1 in Et. lia. }
  destruct (take_ok b F o (Z.lxor s 1) Hb Et) as (b1 & -> & Hb1 & Hm1 & Hu1). cbn [mbind option_bind]. rewrite Z.shiftr_div_pow2 by lia. change (2 ^ 1) with 2.
  assert (2 ^ (max_order b - o) = 2 * 2 ^ (max_order b - (o + 1))) as Hpow by (rewrite <- Z.pow_succ_r by lia; f_equal; lia).
  assert (forall x, x / 2 ^ (o + 1) = s / 2 <-> x / 2 ^ o = s \/ x / 2 ^ o = Z.lxor s 1) as Hpar by (intros x; rewrite div_parent by lia; apply same_parent).
  destruct (IH b1 (upd F o (Z.lxor s 1) false) (o + 1) (s / 2) Hb1) as (b' & F' & o' & s' & E & Hb' & Hm' & Ho' & Hs' & Hd' & Hf' & Hu'); try (rewrite Hm1; dlia).
  { intros x [Hx1|Hx1]%Hpar [Hfree Hne]%Hu1; [by apply (Hd x)|done]. }
  rewrite Hm1 in *. exists b', F', o', s'. split_and!; try done || lia. intros x. rewrite Hu', Hu1, Hpar.
  assert (x / 2 ^ o = Z.lxor s 1 -> unit_free F x) by (intros Hx1; exists o; by rewrite Hx1).
  destruct (Z.eq_dec (x / 2 ^ o) (Z.lxor s 1)); tauto.
Qed.

Lemma alloc_ok b F k :
  buddy_ok b F -> 0 <= k <= max_order b ->
  exists seg b' F', dr_buddy_alloc_mem b k = Some (seg, b') /\ buddy_ok b' F' /\ max_order b' = max_order b /\
  ((seg = -1 /\ (forall x, unit_free F' x <-> unit_free F x) /\ forall t, ~ block_free F k t) \/
   exists t, seg = t * 2 ^ k /\ 0 <= t < 2 ^ (max_order b - k) /\ block_free F k t /\ forall x, unit_free F' x <-> unit_free F x /\ x / 2 ^ k <> t).
Proof.
  intros Hb Hk. unfold dr_buddy_alloc_mem. pose proof (rp_max _ _ (bk_rep _ _ Hb)) as HM.
  pose proof (rep_find b F k (S (S (Z.to_nat (max_order b - k)))) (bk_rep _ _ Hb) ltac:(lia) ltac:(lia)) as Hf.
  destruct (find_order _ b k) as [[[o s]|]|]; cbn [mbind option_bind]; [|..|done].
  2:{ exists (-1), b, F. split_and!; try done. left. split_and!; try done. intros t Ht.
      destruct (free_block_covered _ F k t (bk_wf _ _ Hb) ltac:(lia) Ht) as (o' & Ho' & E). rewrite Hf in E by done. done. }
  destruct Hf as [Hko Ht]. pose proof (rep_range _ _ _ _ (bk_rep _ _ Hb) Ht) as [Ho Hs].
  destruct (take_ok b F o s Hb Ht) as (b1 & -> & Hb1 & Hm1 & Hu1). cbn [mbind option_bind].
  destruct (split_spec (Z.to_nat (o - k)) b1 _ o s Hb1) as (b' & F' & -> & Hb' & Hm' & Hu'); try (rewrite Hm1; lia); [by intros x Hx [_ ?]%Hu1|].
  cbn [mbind option_bind fst snd]. rewrite Z2Nat.id in * by lia. replace (o - (o - k)) with k in * by lia.
  assert (2 ^ (max_order b - k) = 2 ^ (max_order b - o) * 2 ^ (o - k)) as Hpow by (rewrite <- Z.pow_add_r by lia; f_equal; lia).
  assert (2 ^ max_order b = 2 ^ (max_order b - k) * 2 ^ k) as Hpow2 by (rewrite <- Z.pow_add_r by lia; f_equal; lia).
  pose proof (Z.pow_pos_nonneg 2 (o - k) ltac:(lia) ltac:(lia)). pose proof (Z.pow_pos_nonneg 2 k ltac:(lia) ltac:(lia)).
  assert (2 ^ max_order b <= 2 ^ 30) by (apply Z.pow_le_mono_r; lia).
  assert (0 <= s * 2 ^ (o - k) < 2 ^ (max_order b - k)) as Hrange by nia.
  rewrite Z.shiftl_mul_pow2, i32_small by (lia || nia). exists (s * 2 ^ (o - k) * 2 ^ k), b', F'. split_and!; [done|done|congruence|]. right.
  exists (s * 2 ^ (o - k)). split_and!; [done|lia|lia| |].
  - intros x Hx. exists o. replace o with (k + (o - k)) at 2 by lia. rewrite div_pow_add, Hx, first_unit by lia. done.
  - intros x. rewrite Hu', Hu1.
    assert (x / 2 ^ k = s * 2 ^ (o - k) -> x / 2 ^ o = s) as Hsub by (intros Hx; replace o with (k + (o - k)) at 1 by lia; rewrite div_pow_add, Hx by lia; apply first_unit; lia).
    assert (x / 2 ^ o = s -> unit_free F x) by (intros Hx; exists o; by rewrite Hx). destruct (Z.eq_dec (x / 2 ^ o) s); tauto.
Qed.

Lemma free_ok b F k t :
  buddy_ok b F -> 0 <= k <= max_order b -> 0 <= t < 2 ^ (max_order b - k) -> block_taken F k t ->
  exists b' F', dr_buddy_free_mem b (t * 2 ^ k) k = Some b' /\ buddy_ok b' F' /\ max_order b' = max_order b /\
    forall x, unit_free F' x <-> unit_free F x \/ x / 2 ^ k = t.
Proof.
  intros Hb Hk Ht Hd. unfold dr_buddy_free_mem. rewrite Z.shiftr_div_pow2, first_unit by lia.
  destruct (merge_spec (S (Z.to_nat (max_order b - k))) b F k t Hb Hk Ht Hd ltac:(lia)) as (b1 & F1 & o & s & -> & Hb1 & Hm1 & Ho & Hs & Hd1 & Hf1 & Hu1).
  cbn [mbind option_bind]. destruct (give_ok b1 F1 o s Hb1) as (b' & -> & Hb' & Hm' & Hu'); try (rewrite Hm1; lia); try done.
  exists b', (upd F1 o s true). split_and!; [done|done|congruence|]. intros x. by rewrite Hu', Hu1.
Qed.

(** ** Initialisation *)

Lemma alloc_each_spec ok mem size os bs held :
  match alloc_each ok mem size os bs held with
  | (Some bs', held') => bs' = bs ++ ((fun i => replicate (Z.to_nat (BITS_TO_LONGS (size i))) 0) <$> os) /\ forall m, m ∈ held' <-> m ∈ held \/ m ∈ mem <$> os
  | (None, held') => forall m, m ∈ held' -> m ∈ held \/ m ∈ mem <$> os
  end.
Proof.
  revert bs held. induction os as [|i os IH]; intros bs held; cbn [alloc_each].
  { rewrite app_nil_r. split; [done|]. intros m. cbn. rewrite elem_of_nil. tauto. }
  unfold bitmap_alloc0. destruct (ok (mem i)); [|by left].
  specialize (IH (bs ++ [replicate (Z.to_nat (BITS_TO_LONGS (size i))) 0]) (mem i :: held)).
  destruct (alloc_each _ _ _ _ _ _) as [[bs'|] held'].
  - destruct IH as [-> Hh]. rewrite <- app_assoc. split; [done|]. intros m. rewrite Hh, fmap_cons, !elem_of_cons. tauto.
  - intros m Hm. specialize (IH m Hm). rewrite fmap_cons, !elem_of_cons in *. tauto.
Qed.

Lemma free_mem_elem m x held : x ∈ free_mem m held <-> x ∈ held /\ x <> m.
Proof. unfold free_mem. rewrite list_elem_of_filter. tauto. Qed.

Lemma free_each_elem mem max x held : x ∈ free_each mem max held <-> x ∈ held /\ (x ∉ mem <$> orders max).
Proof.
  unfold free_each. generalize (orders max). intros os. revert held. induction os as [|i os IH]; intros held; cbn.
  - rewrite elem_of_nil. tauto.
  - rewrite IH, free_mem_elem, elem_of_cons. tauto.
Qed.

(** Everything that was allocated is freed, if an allocation fails and by the
    clean-up otherwise. *)
Lemma init_clean ok max ret b held :
  dr_buddy_init ok max = Some (ret, b, held) ->
  match b with None => ret = ENOMEM /\ held = [] | Some b => ret = 0 /\ dr_buddy_cleanup b held = [] end.
Proof.
  unfold dr_buddy_init. destruct (negb _); [done|]. destruct (ok MBits); [|by intros [= <- <- <-]]. destruct (ok MNumFree); [|by intros [= <- <- <-]].
  destruct (ok MSetBit); [|by intros [= <- <- <-]]. cbn [negb].
  pose proof (alloc_each_spec ok MBitmap (fun i => 2 ^ (max - i)) (orders max) [] [MSetBit; MNumFree; MBits]) as H1.
  destruct (alloc_each _ _ _ _ _ _) as [[bs|] h1].
  2:{ intros [= <- <- <-]. split; [done|]. apply elem_of_nil_inv. intros x. unfold err_out_free_each_bit_per_order, err_out_free_num_free, err_out_free_bits.
      rewrite !free_mem_elem, free_each_elem, free_mem_elem. intros ((((Hx%H1 & ?) & ?) & ?) & ?). rewrite !elem_of_cons, elem_of_nil in Hx. tauto. }
  pose proof (alloc_each_spec ok MSetBitmap (fun i => BITS_TO_LONGS (2 ^ (max - i))) (orders max) [] h1) as H2. destruct H1 as [_ H1].
  destruct (alloc_each _ _ _ _ _ _) as [[ss|] h2].
  2:{ intros [= <- <- <-]. split; [done|]. apply elem_of_nil_inv. intros x. unfold err_out_free_set, err_out_free_each_bit_per_order, err_out_free_num_free, err_out_free_bits.
      rewrite !free_mem_elem, free_each_elem, free_mem_elem, free_each_elem. intros (((((Hx%H2 & ?) & ?) & ?) & ?) & ?). rewrite H1, !elem_of_cons, elem_of_nil in Hx. tauto. }
  intros Hi. repeat (let E := fresh in apply bind_Some in Hi as (? & E & Hi)). injection Hi as <- <- <-. split; [done|]. destruct H2 as [_ H2].
  apply elem_of_nil_inv. intros y. unfold dr_buddy_cleanup. cbn [max_order]. rewrite !free_mem_elem.
  assert (forall os h, y ∈ foldl (fun h i => free_mem (MSetBitmap i) (free_mem (MBitmap i) h)) h os -> y ∈ h /\ (y ∉ MSetBitmap <$> os) /\ y ∉ MBitmap <$> os) as Hf.
  { induction os as [|i os IH]; intros h; cbn; [rewrite elem_of_nil; tauto|]. intros Hx%IH. rewrite !free_mem_elem in Hx. rewrite !elem_of_cons. tauto. }
  intros (((Hx%Hf & ?) & ?) & ?). rewrite H2, H1, !elem_of_cons, elem_of_nil in Hx. tauto.
Qed.

Lemma orders_length max : 0 <= max -> length (orders max) = Z.to_nat (max + 1).
Proof. intros. unfold orders. by rewrite length_seqZ. Qed.

Lemma orders_get {A} (f : Z -> A) max o : 0 <= o <= max -> (f <$> orders max).[o] = Some (f o).
Proof.
  intros. rewrite aget_lookup, list_lookup_fmap by lia. unfold orders. rewrite lookup_seqZ_lt by lia. cbn. do 2 f_equal. lia.
Qed.

(** One block of the highest order is free. *)
Lemma level_init sz (one : bool) bm sb :
  0 < sz <= 2 ^ 30 -> (one = true -> sz = 1) ->
  bitmap_ok bm -> alen bm = (sz + 63) / 64 -> (forall s, 0 <= s -> bitmap_bit bm s = one && (s =? 0)) ->
  bitmap_ok sb -> alen bm <= 64 * alen sb -> (forall s, 0 <= s -> bitmap_bit sb s = one && (s =? 0)) ->
  level_ok sz bm sb (b2z one) (fun s => one && (s =? 0)).
Proof.
  intros Hsz H1 Hb Hlb Hbits Hs Hls Hsb. split; try done.
  - intros s [-> ->%Z.eqb_eq]%andb_true_iff. lia.
  - intros w Hw. rewrite Hsb by lia. rewrite andb_true_iff, Z.eqb_eq. split.
    + intros [-> ->]. exists 0. done.
    + intros (s & [-> ->%Z.eqb_eq]%andb_true_iff & <-). done.
  - destruct one; [rewrite H1 by done; done|]. symmetry. by apply zsum_zero.
Qed.

Definition one_block (M : Z) : blocks := fun o s => (o =? M) && (s =? 0).

Lemma one_block_wf M : 0 <= M -> wf M (one_block M).
Proof.
  intros HM. unfold one_block. split.
  - intros o s [->%Z.eqb_eq ->%Z.eqb_eq]%andb_true_iff. rewrite Z.sub_diag. lia.
  - intros x o o' [->%Z.eqb_eq _]%andb_true_iff [->%Z.eqb_eq _]%andb_true_iff. done.
  - intros o s Ho [->%Z.eqb_eq _]%andb_true_iff. lia.
Qed.

Lemma alloc_each_all ok mem size os bs held :
  (forall m, ok m = true) -> fst (alloc_each ok mem size os bs held) = Some (bs ++ ((fun i => replicate (Z.to_nat (BITS_TO_LONGS (size i))) 0) <$> os)).
Proof.
  intros Hok. revert bs held. induction os as [|i os IH]; intros bs held; cbn [alloc_each]; [by rewrite app_nil_r|].
  unfold bitmap_alloc0. rewrite Hok, IH, <- app_assoc. done.
Qed.

Lemma zeros_bitmap n : 0 <= n <= 2 ^ 30 ->
  bitmap_ok (replicate (Z.to_nat (BITS_TO_LONGS n)) 0) /\ alen (replicate (Z.to_nat (BITS_TO_LONGS n)) 0) = (n + 63) / 64 /\
  forall i, bitmap_bit (replicate (Z.to_nat (BITS_TO_LONGS n)) 0) i = false.
Proof. intros Hn. destruct (alloc0_bits n) as (b & [= <-] & ? & ? & ?); [lia..|]. done. Qed.

Lemma init_ok ok M :
  (forall m, ok m = true) -> 0 <= M <= 30 ->
  exists b held, dr_buddy_init ok M = Some (0, Some b, held) /\ buddy_ok b (one_block M) /\ max_order b = M.
Proof.
  intros Hok HM. unfold dr_buddy_init. rewrite !(proj2 (Z.leb_le _ _)) by lia. cbn [negb andb]. rewrite !Hok. cbn [negb].
  pose proof (alloc_each_all ok MBitmap (fun i => 2 ^ (M - i)) (orders M) [] [MSetBit; MNumFree; MBits] Hok) as E1.
  destruct (alloc_each _ _ _ _ _ _) as [r1 h1]. cbn in E1. subst r1.
  pose proof (alloc_each_all ok MSetBitmap (fun i => BITS_TO_LONGS (2 ^ (M - i))) (orders M) [] h1 Hok) as E2.
  destruct (alloc_each _ _ _ _ _ _) as [r2 h2]. cbn in E2. subst r2.
  set (f1 := fun i => replicate (Z.to_nat (BITS_TO_LONGS (2 ^ (M - i)))) 0). set (f2 := fun i => replicate (Z.to_nat (BITS_TO_LONGS (BITS_TO_LONGS (2 ^ (M - i))))) 0).
  assert (forall o, 0 <= o <= M -> bitmap_ok (f1 o) /\ alen (f1 o) = (2 ^ (M - o) + 63) / 64 /\ forall i, bitmap_bit (f1 o) i = false) as H1.
  { intros o Ho. pose proof (size_range M o HM Ho). apply zeros_bitmap. lia. }
  assert (forall o, 0 <= o <= M -> bitmap_ok (f2 o) /\ alen (f2 o) = ((2 ^ (M - o) + 63) / 64 + 63) / 64 /\ forall i, bitmap_bit (f2 o) i = false) as H2.
  { intros o Ho. pose proof (size_range M o HM Ho). unfold f2. rewrite (BITS_TO_LONGS_small (2 ^ (M - o))) by lia. apply zeros_bitmap. dlia. }
  cbn [app]. rewrite !orders_get by lia. cbn [mbind option_bind]. pose proof (H1 M ltac:(lia)) as (Hb & Hlb & Hz). pose proof (H2 M ltac:(lia)) as (Hs & Hls & Hzs). rewrite Z.sub_diag in Hlb, Hls.
  destruct (set_bit_bits (f1 M) 0 Hb) as (bm & -> & Hb' & Hlb' & Hbits); [rewrite Hlb; done|]. cbn [mbind option_bind].
  destruct (aset (f1 <$> orders M) M bm) as [bs|] eqn:Ebs; [|rewrite aset_Some in Ebs by (unfold alen; rewrite length_fmap, orders_length; lia); done]. cbn [mbind option_bind].
  destruct (set_bit_bits (f2 M) 0 Hs) as (sb & -> & Hs' & Hls' & Hsb); [rewrite Hls; done|]. cbn [mbind option_bind].
  destruct (aset (f2 <$> orders M) M sb) as [ss|] eqn:Ess; [|rewrite aset_Some in Ess by (unfold alen; rewrite length_fmap, orders_length; lia); done]. cbn [mbind option_bind].
  destruct (aset (replicate (Z.to_nat (M + 1)) 0) M 1) as [nf|] eqn:Enf; [|rewrite aset_Some in Enf by (rewrite alen_replicate; lia); done]. cbn [mbind option_bind].
  exists (Buddy bs nf ss M), h2. split; [done|]. split; [|done]. split; [|apply one_block_wf; cbn; lia]. split; cbn [max_order bits set_bit num_free].
  - done.
  - rewrite (aset_alen _ _ _ _ Ebs), (aset_alen _ _ _ _ Ess), (aset_alen _ _ _ _ Enf), alen_replicate. unfold alen. rewrite !length_fmap, !orders_length by lia. lia.
  - intros o Ho. pose proof (size_range M o HM Ho) as Hsz. rewrite (aget_aset _ _ _ _ _ Ebs), (aget_aset _ _ _ _ _ Ess), (aget_aset _ _ _ _ _ Enf). rewrite (Z.eqb_sym M o).
    unfold one_block. destruct (Z.eqb_spec o M) as [->|Hne].
    + exists bm, sb, 1. split_and!; try done. rewrite Z.sub_diag.
      apply (level_init 1 true); try done; [rewrite Hlb', Hlb; done|intros s ?; rewrite Hbits, Hz by done; by destruct (s =? 0)|rewrite Hlb', Hls', Hlb, Hls; done|intros s ?; rewrite Hsb, Hzs by done; by destruct (s =? 0)].
    + destruct (H1 o Ho) as (? & El & ?), (H2 o Ho) as (? & El2 & ?). exists (f1 o), (f2 o), 0. rewrite !orders_get, aget_replicate by lia. split_and!; try done.
      apply (level_init _ false); try done; try lia. rewrite El, El2. dlia.
  - intros o s [->%Z.eqb_eq _]%andb_true_iff. lia.
Qed.

(** ** Runs *)

(** The client allocates blocks and frees blocks it holds. *)
Inductive buddy_op := BAlloc (order : Z) | BFree (seg order : Z).

Definition bstep (st : dr_icm_buddy_mem * list (Z * Z)) (op : buddy_op) : option (dr_icm_buddy_mem * list (Z * Z)) :=
  let '(b, held) := st in
  match op with
  | BAlloc k => r ← dr_buddy_alloc_mem b k; Some (snd r, if fst r =? -1 then held else (fst r, k) :: held)
  | BFree seg k =>
    if decide ((seg, k) ∈ held) then b ← dr_buddy_free_mem b seg k; Some (b, filter (fun blk => blk <> (seg, k)) held)
    else Some st
  end.

Definition brun (st : dr_icm_buddy_mem * list (Z * Z)) (ops : list buddy_op) : option (dr_icm_buddy_mem * list (Z * Z)) :=
  foldl (fun st op => st ← st; bstep st op) (Some st) ops.

Definition op_in_range (M : Z) (op : buddy_op) : Prop := match op with BAlloc k => 0 <= k <= M | BFree _ _ => True end.

(** The units of a block. *)
Definition in_block (blk : Z * Z) (x : Z) : Prop := fst blk <= x < fst blk + 2 ^ snd blk.

Definition aligned_block (M : Z) (blk : Z * Z) : Prop := 0 <= snd blk <= M /\ exists t, fst blk = t * 2 ^ snd blk /\ 0 <= t < 2 ^ (M - snd blk).

Record held_ok (M : Z) (b : dr_icm_buddy_mem) (held : list (Z * Z)) (F : blocks) : Prop := {
  ho_ok : buddy_ok b F /\ max_order b = M;
  ho_aligned : forall blk, blk ∈ held -> aligned_block M blk;
  ho_disjoint : forall blk blk' x, blk ∈ held -> blk' ∈ held -> in_block blk x -> in_block blk' x -> blk = blk';
  ho_free : forall x, unit_free F x <-> 0 <= x < 2 ^ M /\ ~ exists blk, blk ∈ held /\ in_block blk x }.

Lemma in_block_div t k x : 0 <= k -> in_block (t * 2 ^ k, k) x <-> x / 2 ^ k = t.
Proof. intros. unfold in_block. cbn. pose proof (Z.pow_pos_nonneg 2 k ltac:(lia) ltac:(lia)). split; intros; [symmetry; apply (Z.div_unique_pos _ _ _ (x - t * 2 ^ k)); lia|subst; dlia]. Qed.

Lemma block_in_memory M k t x : 0 <= k <= M -> 0 <= t < 2 ^ (M - k) -> in_block (t * 2 ^ k, k) x -> 0 <= x < 2 ^ M.
Proof.
  intros Hk Ht. unfold in_block. cbn. pose proof (Z.pow_pos_nonneg 2 k ltac:(lia) ltac:(lia)).
  replace (2 ^ M) with (2 ^ (M - k) * 2 ^ k) by (rewrite <- Z.pow_add_r by lia; f_equal; lia). nia.
Qed.

Lemma held_alloc M b held F k :
  held_ok M b held F -> 0 <= k <= M ->
  exists seg b' F', dr_buddy_alloc_mem b k = Some (seg, b') /\ held_ok M b' (if seg =? -1 then held else (seg, k) :: held) F' /\
  (seg = -1 <-> forall t, ~ block_free F k t).
Proof.
  intros [[Hb Hm] Ha Hd Hf] Hk. destruct (alloc_ok b F k Hb) as (seg & b' & F' & E & Hb' & Hm' & Hres); [lia|]. rewrite Hm in *.
  exists seg, b', F'. split; [done|]. destruct Hres as [(-> & Hu & Hno)|(t & -> & Ht & Hfree & Hu)].
  - split; [|done]. split; try done. intros x. by rewrite Hu.
  - pose proof (Z.pow_pos_nonneg 2 k ltac:(lia) ltac:(lia)). rewrite (proj2 (Z.eqb_neq (t * 2 ^ k) (-1))) by nia.
    split; [|split; [nia|intros Hn; by apply Hn in Hfree]].
    assert (forall x blk, in_block (t * 2 ^ k, k) x -> blk ∈ held -> in_block blk x -> False) as Hnew.
    { intros x blk Hx Hin Hx'. apply in_block_div in Hx; [|lia]. apply Hfree, Hf in Hx as [_ []]. by exists blk. }
    split.
    + done.
    + intros blk [->|?]%elem_of_cons; [|by apply Ha]. split; [done|]. by exists t.
    + intros blk blk' x [->|?]%elem_of_cons [->|?]%elem_of_cons ??; eauto; exfalso; eauto.
    + intros x. rewrite Hu, Hf, <- in_block_div by lia. setoid_rewrite elem_of_cons. split.
      * intros ((Hx & Hn) & Hne). split; [done|]. intros (blk & [->|?] & ?); [done|]. apply Hn. by exists blk.
      * intros (Hx & Hn). split_and!; [lia|lia| |intros ?; apply Hn; eauto]. intros (blk & ? & ?). apply Hn. eauto.
Qed.

Lemma held_free M b held F seg k :
  held_ok M b held F -> (seg, k) ∈ held ->
  exists b' F', dr_buddy_free_mem b seg k = Some b' /\ held_ok M b' (filter (fun blk => blk <> (seg, k)) held) F'.
Proof.
  intros [[Hb Hm] Ha Hd Hf] Hin. destruct (Ha _ Hin) as (Hk & t & Et & Ht). cbn [fst snd] in *. subst seg.
  destruct (free_ok b F k t Hb) as (b' & F' & E & Hb' & Hm' & Hu); try (rewrite Hm; lia).
  { intros x Hx%in_block_div [_ []]%Hf; [|lia]. by exists (t * 2 ^ k, k). }
  exists b', F'. split; [done|]. split.
  - by rewrite Hm'.
  - intros blk [_ ?]%list_elem_of_filter. by apply Ha.
  - intros blk blk' x [_ ?]%list_elem_of_filter [_ ?]%list_elem_of_filter. by apply Hd.
  - intros x. rewrite Hu, Hf, <- in_block_div by lia. setoid_rewrite list_elem_of_filter. split.
    + intros [[Hx Hn]|Hx].
      * split; [done|]. intros (blk & [_ ?] & ?). apply Hn. eauto.
      * split; [by apply (block_in_memory M k t)|]. intros (blk & [Hne ?] & ?). apply Hne. by apply (Hd blk (t * 2 ^ k, k) x).
    + intros (Hx & Hn). destruct (decide (in_block (t * 2 ^ k, k) x)) as [?|Hni]; [by right|left]. split; [done|].
      intros (blk & ? & Hi). apply Hn. exists blk. split; [|done]. split; [|done]. intros ->. done.
Qed.

Lemma init_held M b : buddy_ok b (one_block M) -> max_order b = M -> held_ok M b [] (one_block M).
Proof.
  intros Hb HM. pose proof (rp_max _ _ (bk_rep _ _ Hb)). split; [done|by intros blk ?%elem_of_nil|by intros blk blk' x ?%elem_of_nil|].
  intros x. unfold unit_free, one_block. setoid_rewrite andb_true_iff. setoid_rewrite Z.eqb_eq.
  pose proof (Z.pow_pos_nonneg 2 M ltac:(lia) ltac:(lia)). setoid_rewrite elem_of_nil. split.
  - intros (o & -> & Hx). split; [dlia|]. by intros (? & [] & _).
  - intros (Hx & _). exists M. split; [done|]. by apply Z.div_small.
Qed.

Lemma run_held M ops b held F :
  Forall (op_in_range M) ops -> held_ok M b held F -> exists b' held' F', brun (b, held) ops = Some (b', held') /\ held_ok M b' held' F'.
Proof.
  intros Hops. revert b held F. unfold brun. induction Hops as [|op ops Hop Hops IH]; intros b held F H0; [by exists b, held, F|]. cbn [foldl mbind option_bind].
  assert (exists b' held' F', bstep (b, held) op = Some (b', held') /\ held_ok M b' held' F') as (b' & held' & F' & -> & H'); [|by eapply IH].
  destruct op as [k|seg k]; cbn [bstep].
  - destruct (held_alloc M b held F k H0 Hop) as (seg & b' & F' & -> & H' & _). by exists b', (if seg =? -1 then held else (seg, k) :: held), F'.
  - case_decide as Hin; [|by exists b, held, F]. destruct (held_free M b held F seg k H0 Hin) as (b' & F' & -> & H'). eexists b', _, F'. done.
Qed.

(** A block is free exactly if it shares no unit with the blocks held. *)
Lemma block_free_held M b held F k t :
  held_ok M b held F -> 0 <= k <= M ->
  block_free F k t \/ ~ (0 <= t < 2 ^ (M - k)) \/ exists blk x, blk ∈ held /\ in_block blk x /\ in_block (t * 2 ^ k, k) x.
Proof.
  intros [_ Ha _ Hf] Hk. destruct (decide (0 <= t < 2 ^ (M - k))) as [Ht|]; [|auto].
  destruct (decide (Exists (fun blk => Z.max (fst blk) (t * 2 ^ k) < Z.min (fst blk + 2 ^ snd blk) (t * 2 ^ k + 2 ^ k)) held)) as [He|He].
  - right. right. apply Exists_exists in He as (blk & Hin & Ho). exists blk, (Z.max (fst blk) (t * 2 ^ k)). unfold in_block. cbn. split_and!; done || lia.
  - left. intros x Hx%in_block_div; [|lia]. apply Hf. split; [by apply (block_in_memory M k t)|]. intros (blk & Hin & Hi). apply He, Exists_exists.
    exists blk. split; [done|]. unfold in_block in *. cbn in Hx. lia.
Qed.

(** C8: The buddy allocator hands out disjoint blocks and wastes none.  After
    any sequence of allocations and frees of held blocks from [dr_buddy_init]
    on, no access was out of range and no search of a non-empty order failed;
    the blocks held are aligned, lie in the memory and share no unit; and the
    next allocation of an order fails exactly if every aligned block of that
    order shares a unit with a held block, however the memory was split
    before. *)
Theorem buddy_refines ok M ops :
  (forall m, ok m = true) -> 0 <= M <= 30 -> Forall (op_in_range M) ops ->
  exists b0 mem b held, dr_buddy_init ok M = Some (0, Some b0, mem) /\ brun (b0, []) ops = Some (b, held) /\
  (forall blk, blk ∈ held -> aligned_block M blk) /\
  (forall blk blk' x, blk ∈ held -> blk' ∈ held -> in_block blk x -> in_block blk' x -> blk = blk') /\
  (forall k, 0 <= k <= M -> exists seg b', dr_buddy_alloc_mem b k = Some (seg, b') /\
    (seg = -1 <-> forall t, 0 <= t < 2 ^ (M - k) -> exists blk x, blk ∈ held /\ in_block blk x /\ in_block (t * 2 ^ k, k) x)).
Proof.
  intros Hok HM Hops. destruct (init_ok ok M Hok HM) as (b0 & mem & E0 & Hb0 & Hm0).
  destruct (run_held M ops b0 [] (one_block M) Hops (init_held M b0 Hb0 Hm0)) as (b & held & F & E & Hh).
  exists b0, mem, b, held. pose proof Hh as [_ Ha Hd Hf]. split_and!; try done. intros k Hk.
  destruct (held_alloc M b held F k Hh Hk) as (seg & b' & F' & Ea & _ & Hs). exists seg, b'. split; [done|]. rewrite Hs. split.
  - intros Hno t Ht. destruct (block_free_held M b held F k t Hh Hk) as [?|[?|?]]; [by destruct (Hno t)|done|done].
  - intros Hall t Hfree. assert (0 <= t < 2 ^ (M - k)) as Ht.
    { destruct (free_block_covered (max_order b) F k t (bk_wf _ _ (proj1 (ho_ok _ _ _ _ Hh))) ltac:(lia) Hfree) as (o & Ho & Eo).
      apply (rep_range _ _ _ _ (bk_rep _ _ (proj1 (ho_ok _ _ _ _ Hh)))) in Eo. rewrite (proj2 (ho_ok _ _ _ _ Hh)) in Eo. destruct Eo as [HoM Hr].
      pose proof (Z.pow_pos_nonneg 2 (o - k) ltac:(lia) ltac:(lia)). replace (M - k) with (M - o + (o - k)) by lia. rewrite Z.pow_add_r by lia. dnia. }
    destruct (Hall t Ht) as (blk & x & Hin & Hi & Hx). apply in_block_div in Hx; [|lia]. apply Hfree, Hf in Hx as [_ []]. by exists blk.
Qed.

Lemma buddy_refines_witness :
  exists b0 mem b held, dr_buddy_init (fun _ => true) 7 = Some (0, Some b0, mem) /\
    brun (b0, []) [BAlloc 3; BAlloc 0; BFree 0 3; BAlloc 6] = Some (b, held) /\ held = [(64, 6); (8, 0)] /\
    exists b', dr_buddy_alloc_mem b 6 = Some (-1, b').
Proof.
  destruct (buddy_refines (fun _ => true) 7 [BAlloc 3; BAlloc 0; BFree 0 3; BAlloc 6]) as (b0 & mem & b & held & E0 & E & _ & _ & Hk).
  - done.
  - lia.
  - repeat constructor; discriminate.
  - destruct (Hk 6 ltac:(lia)) as (seg & b' & Ea & _). exists b0, mem, b, held. split; [exact E0|]. split; [exact E|].
    vm_compute in E0. injection E0 as <- <-. vm_compute in E. injection E as <- <-. split; [reflexivity|].
    exists b'. rewrite Ea. vm_compute in Ea. injection Ea as <- _. reflexivity.
Defined.
