(* ===== verification/SmartAlloc.v ===== *)
(** fusioncas/smart/initiator.cpp, include/smart/initiator.h: the allocator of
    remote memory of the SMART runtime.

    The memory of a node is handed out in chunks of 16 KB, counted by a word in
    the first chunk that the clients advance with an RDMA compare-and-swap; a
    client splits chunks into blocks of twelve sizes, each with a free list
    that is a ring of addresses.  The theorem shows that the blocks held by all
    clients never overlap.  The capacity of a ring is not bounded here; in the
    code it is an [int] that doubles when the ring is full. *)

From S2P Require Import Prelude.

Definition kChunkShift : Z := 14.
Definition kChunkSize : Z := 2 ^ kChunkShift.
Definition kNumFreeLists : Z := 12.
Definition kPowerOfTwo : list Z := [8; 16; 32; 64; 128; 256; 512; 1024; 2048; 4096; 8192; 16384].

(** The loops of the constructor: every size gets the first class it fits. *)
Fixpoint fill_classes (ids : list Z) (l : list Z) : option (list Z) :=
  match ids with
  | [] => Some l
  | id :: ids' => p ← kPowerOfTwo.[id]; fill_classes ids' (l ++ replicate (Z.to_nat (p + 1 - alen l)) id)
  end.
Definition kSizeToClass : option (list Z) := fill_classes (seqZ 0 kNumFreeLists) [].

(** *** Free lists *)

Record FreeList := MkFreeList { head_ : Z; tail_ : Z; capacity_ : Z; entries_ : list Z }.

Section Junk.

(** What a new array holds. *)
Context (junk : Z).

Definition new_free_list : FreeList := MkFreeList 0 0 32 (replicate 32 junk).

Definition fl_resize (f : FreeList) : FreeList :=
  MkFreeList (head_ f) (tail_ f) (capacity_ f * 2) (entries_ f ++ replicate (Z.to_nat (capacity_ f)) junk).

Definition enqueue (f : FreeList) (offset : Z) : option FreeList :=
  let next_head := head_ f + 1 in
  let next_head := if next_head =? capacity_ f then 0 else next_head in
  let f := if tail_ f =? next_head then fl_resize f else f in
  es ← aset (entries_ f) (head_ f) offset;
  Some (MkFreeList next_head (tail_ f) (capacity_ f) es).

Definition fl_empty (f : FreeList) : bool := head_ f =? tail_ f.

Definition dequeue (f : FreeList) : option (Z * FreeList) :=
  if fl_empty f then None else
  val ← (entries_ f).[tail_ f];
  let tail := tail_ f + 1 in
  Some (val, MkFreeList (head_ f) (if tail =? capacity_ f then 0 else tail) (capacity_ f) (entries_ f)).

(** *** Chunks and blocks *)

(** The two words of a super chunk the allocator uses. *)
Record SuperChunk := MkSuper { max_chunk : Z; alloc_chunk : Z }.

(** A thread of a client: its copy of the super chunk and its free lists. *)
Record client := Client { c_super : option SuperChunk; c_free : list FreeList }.

(** The raw form of a global address in the main memory of [node]. *)
Definition global_address (node offset : Z) : Z := node * 2 ^ 56 + offset mod 2 ^ 48.

Definition NULL_GLOBAL_ADDRESS : Z := 2 ^ 64 - 1.

Definition find_super_chunk (remote : SuperChunk) (c : client) : SuperChunk := default remote (c_super c).

(** The compare-and-swap loop; the result of the swap lands in the copy. *)
Fixpoint alloc_chunk_loop (fuel : nat) (node : Z) (remote entry : SuperChunk) (count : Z) : option (Z * SuperChunk * SuperChunk) :=
  match fuel with
  | O => None
  | S fuel =>
    if u64 (alloc_chunk entry + count) <=? max_chunk entry then
      if alloc_chunk remote =? alloc_chunk entry then
        Some (global_address node (u64 (alloc_chunk entry * kChunkSize)), MkSuper (max_chunk remote) (u64 (alloc_chunk entry + count)), entry)
      else alloc_chunk_loop fuel node remote (MkSuper (max_chunk entry) (alloc_chunk remote)) count
    else Some (NULL_GLOBAL_ADDRESS, remote, entry)
  end.

Definition do_alloc_chunk (node : Z) (remote : SuperChunk) (c : client) (count : Z) : option (Z * SuperChunk * client) :=
  r ← alloc_chunk_loop 2 node remote (find_super_chunk remote c) count;
  let '(a, remote, entry) := r in
  Some (a, remote, Client (Some entry) (c_free c)).

Definition with_list (c : client) (k : Z) (f : FreeList) : option client :=
  fs ← aset (c_free c) k f; Some (Client (c_super c) fs).

(** The entries a fresh chunk of the largest class leaves: the loop's body is
    reached only if that class is smaller than a chunk. *)
Fixpoint enqueue_rest (fuel : nat) (f : FreeList) (offset i step : Z) : option FreeList :=
  if i <? kChunkSize then
    match fuel with
    | O => None
    | S fuel => f ← enqueue f (u64 (offset + i)); enqueue_rest fuel f offset (i + step) step
    end
  else Some f.

(** [depth] classes are above [sz_id]. *)
Fixpoint do_alloc_memory (depth : nat) (node : Z) (remote : SuperChunk) (c : client) (sz_id : Z) : option (Z * SuperChunk * client) :=
  f ← (c_free c).[sz_id];
  if negb (fl_empty f) then
    r ← dequeue f; c ← with_list c sz_id (snd r); Some (fst r, remote, c)
  else
  p ← kPowerOfTwo.[sz_id];
  if sz_id =? kNumFreeLists - 1 then
    r ← do_alloc_chunk node remote c 1;
    let '(offset, remote, c) := r in
    if offset =? NULL_GLOBAL_ADDRESS then Some (offset, remote, c) else
    f ← (c_free c).[sz_id];
    f ← enqueue_rest 2048 f offset p p;
    c ← with_list c sz_id f;
    Some (offset, remote, c)
  else
    match depth with
    | O => None
    | S depth =>
      r ← do_alloc_memory depth node remote c (sz_id + 1);
      let '(offset, remote, c) := r in
      if offset =? NULL_GLOBAL_ADDRESS then Some (offset, remote, c) else
      f ← (c_free c).[sz_id];
      f ← enqueue f (u64 (offset + p));
      c ← with_list c sz_id f;
      Some (offset, remote, c)
    end.

Definition alloc_memory (node : Z) (remote : SuperChunk) (c : client) (size : Z) : option (Z * SuperChunk * client) :=
  if kChunkSize <=? size then do_alloc_chunk node remote c (i32 (u64 (size + kChunkSize - 1) / kChunkSize)) else
  classes ← kSizeToClass;
  sz_id ← classes.[size];
  f ← (c_free c).[sz_id];
  if negb (fl_empty f) then
    r ← dequeue f; c ← with_list c sz_id (snd r); Some (fst r, remote, c)
  else do_alloc_memory 12 node remote c sz_id.

(** The chunks of a large block go to the list of the largest class. *)
Fixpoint free_chunks (n : nat) (f : FreeList) (addr : Z) : option FreeList :=
  match n with
  | O => Some f
  | S n => f ← enqueue f addr; free_chunks n f (u64 (addr + kChunkSize))
  end.

Definition free_memory (c : client) (addr size : Z) : option client :=
  if kChunkSize <=? size then
    f ← (c_free c).[kNumFreeLists - 1];
    f ← free_chunks (Z.to_nat ((size + kChunkSize - 1) / kChunkSize)) f addr;
    with_list c (kNumFreeLists - 1) f
  else
    classes ← kSizeToClass;
    id ← classes.[size];
    f ← (c_free c).[id];
    f ← enqueue f addr;
    with_list c id f.

End Junk.

(** ** Blocks that do not overlap *)

(** A block is its address and its length. *)
Definition apart (b c : Z * Z) : Prop := fst b + snd b <= fst c \/ fst c + snd c <= fst b.

Fixpoint disj (l : list (Z * Z)) : Prop :=
  match l with [] => True | b :: l' => Forall (apart b) l' /\ disj l' end.

#[export] Instance disj_perm : Proper ((≡ₚ) ==> iff) disj.
Proof.
  assert (forall l l', l ≡ₚ l' -> disj l -> disj l') as H; [|intros l l' Hl; split; apply H; done].
  induction 1 as [|b l l' Hp IH|b c l|l1 l2 l3 H1 IH1 H2 IH2]; cbn; [done|intros [H1 H2]; split; [by rewrite <- Hp|auto]| |auto].
  intros (Hb & Hc & Hl). apply Forall_cons in Hb as [Hbc Hb]. rewrite !Forall_cons. split_and!; try done.
Qed.

Lemma disj_app l1 l2 : disj (l1 ++ l2) <-> disj l1 /\ disj l2 /\ forall b c, b ∈ l1 -> c ∈ l2 -> apart b c.
Proof.
  induction l1 as [|b l1 IH]; cbn.
  - split; [intros H; split_and!; try done; by intros b c ?%elem_of_nil|tauto].
  - rewrite IH, Forall_app. rewrite !Forall_forall. setoid_rewrite elem_of_cons. split.
    + intros ((H1 & H2) & H3 & H4 & H5). split_and!; try done. intros b' c [->|?] ?; auto.
    + intros ((H1 & H2) & H3 & H4). split_and!; try done; auto.
Qed.

Lemma disj_sub l l' : l ⊆+ l' -> disj l' -> disj l.
Proof. intros (k & ->)%submseteq_Permutation. rewrite disj_app. tauto. Qed.

Lemma disj_both l b c i j : disj l -> l !! i = Some b -> l !! j = Some c -> i <> j -> apart b c.
Proof.
  revert i j. induction l as [|x l IH]; intros i j; [done|]. cbn [disj]. intros [Hx Hl] Hi Hj Hne. rewrite Forall_forall in Hx.
  destruct i as [|i], j as [|j]; cbn in Hi, Hj; [done|..].
  - injection Hi as ->. apply Hx. by eapply list_elem_of_lookup_2.
  - injection Hj as ->. destruct (Hx b); [by eapply list_elem_of_lookup_2|by right|by left].
  - eapply IH; eauto.
Qed.

(** Blocks between [lo] and [hi]. *)
Definition inside (lo hi : Z) (b : Z * Z) : Prop := lo <= fst b /\ fst b + snd b <= hi /\ 0 < snd b /\ fst b mod 8 = 0.

Record pool_ok (lo hi : Z) (l : list (Z * Z)) : Prop := { pl_disj : disj l; pl_in : Forall (inside lo hi) l }.

#[export] Instance pool_ok_perm lo hi : Proper ((≡ₚ) ==> iff) (pool_ok lo hi).
Proof. intros l l' Hl. split; intros [H1 H2]; split; by rewrite ?Hl in *. Qed.

Lemma pool_sub lo hi l l' : l ⊆+ l' -> pool_ok lo hi l' -> pool_ok lo hi l.
Proof.
  intros Hs [H1 H2]. split; [by eapply disj_sub|]. rewrite Forall_forall in *. intros x Hx. apply H2. by eapply elem_of_submseteq.
Qed.

(** A new block behind all others. *)
Lemma pool_grow lo hi l a n : pool_ok lo hi l -> a = hi -> lo <= hi -> 0 < n -> hi mod 8 = 0 -> pool_ok lo (hi + n) ((a, n) :: l).
Proof.
  intros [H1 H2] -> Hlo Hn Ha. rewrite Forall_forall in H2. split; cbn.
  - split; [|done]. rewrite Forall_forall. intros b Hb. right. apply H2 in Hb as (_ & ? & _). cbn. lia.
  - apply Forall_cons. split; [unfold inside; cbn; lia|]. rewrite Forall_forall. intros b Hb. apply H2 in Hb. unfold inside in *. lia.
Qed.

(** A block cut in two. *)
Lemma pool_split lo hi l a m n : pool_ok lo hi ((a, m + n) :: l) -> 0 < m -> 0 < n -> m mod 8 = 0 -> pool_ok lo hi ((a, m) :: (a + m, n) :: l).
Proof.
  intros [(H1 & H2) (H3 & H4)%Forall_cons] Hm Hn Hm8. unfold inside in *. cbn in *. rewrite Forall_forall in H1, H4. split; cbn.
  - split_and!; [|rewrite Forall_forall|done].
    + rewrite Forall_cons, Forall_forall. split; [left; cbn; lia|]. intros b Hb. specialize (H1 b Hb). unfold apart in *. cbn in *. lia.
    + intros b Hb. specialize (H1 b Hb). unfold apart in *. cbn in *. lia.
  - rewrite !Forall_cons. unfold inside. cbn. split_and!; try lia; [dlia|]. by rewrite Forall_forall.
Qed.

(** ** Free lists as queues *)

Record fl_ok (f : FreeList) : Prop := {
  fo_cap : 1 < capacity_ f;
  fo_len : alen (entries_ f) = capacity_ f;
  fo_head : 0 <= head_ f < capacity_ f;
  fo_tail : 0 <= tail_ f < capacity_ f }.

Definition content (f : FreeList) : list Z :=
  (fun i => default 0 (entries_ f).[(tail_ f + i) mod capacity_ f]) <$> seqZ 0 ((head_ f - tail_ f) mod capacity_ f).

Lemma mod_next x c : 0 <= x < c -> (if x + 1 =? c then 0 else x + 1) = (x + 1) mod c.
Proof. intros. destruct (Z.eqb_spec (x + 1) c) as [->|]; [by rewrite Z.mod_same by lia|by rewrite Z.mod_small by lia]. Qed.

Lemma mod_shift_inj t a b c : 0 <= a < c -> 0 <= b < c -> (t + a) mod c = (t + b) mod c -> a = b.
Proof.
  intros Ha Hb E. pose proof (Z.div_mod (t + a) c ltac:(lia)) as H1. pose proof (Z.div_mod (t + b) c ltac:(lia)) as H2. rewrite E in H1.
  assert (a - b = c * ((t + a) / c - (t + b) / c)) as H by lia. revert H. generalize ((t + a) / c - (t + b) / c). intros q H.
  destruct (Z.lt_trichotomy q 0) as [?|[->|?]]; nia.
Qed.

Lemma fl_empty_content f : fl_ok f -> fl_empty f = true <-> content f = [].
Proof.
  intros [Hc Hl Hh Ht]. unfold fl_empty, content. rewrite Z.eqb_eq. split.
  - intros ->. by rewrite Z.sub_diag, Z.mod_0_l by lia.
  - intros E%fmap_nil_inv. assert ((head_ f - tail_ f) mod capacity_ f <= 0) as H.
    { destruct (Z.le_gt_cases ((head_ f - tail_ f) mod capacity_ f) 0); [done|]. apply (f_equal length) in E. rewrite length_seqZ in E. cbn in E. lia. }
    pose proof (Z.mod_pos_bound (head_ f - tail_ f) (capacity_ f) ltac:(lia)).
    apply (mod_shift_inj (- tail_ f) _ _ (capacity_ f)); try done. rewrite Z.add_opp_diag_l, Z.add_comm, Z.mod_0_l by lia. fold (head_ f - tail_ f). lia.
Qed.

(** A full ring loses its entries when it grows: the new head, computed for the
    old capacity, is the tail. *)
Lemma enqueue_spec junk f x :
  fl_ok f -> exists f', enqueue junk f x = Some f' /\ fl_ok f' /\ (content f' = content f ++ [x] \/ content f' = []).
Proof.
  intros [Hc Hl Hh Ht]. unfold enqueue. rewrite mod_next by done. set (nh := (head_ f + 1) mod capacity_ f).
  assert (0 <= nh < capacity_ f) by (apply Z.mod_pos_bound; lia). destruct (Z.eqb_spec (tail_ f) nh) as [E|E].
  - cbn [fl_resize entries_ head_ tail_ capacity_]. rewrite aset_Some by (unfold alen in *; rewrite length_app; lia). cbn.
    eexists. split; [done|]. split; [split; cbn; try lia; unfold alen in *; rewrite length_insert, length_app, length_replicate; lia|].
    right. unfold content. cbn. by rewrite E, Z.sub_diag, Z.mod_0_l by lia.
  - rewrite aset_Some by lia. cbn. eexists. split; [done|]. split; [split; cbn; try lia; unfold alen in *; rewrite length_insert; lia|]. left. unfold content. cbn.
    set (n := (head_ f - tail_ f) mod capacity_ f). pose proof (Z.mod_pos_bound (head_ f - tail_ f) (capacity_ f) ltac:(lia)) as Hn. fold n in Hn.
    assert (head_ f = (tail_ f + n) mod capacity_ f) as Hhead by (unfold n; rewrite Zplus_mod_idemp_r; replace (tail_ f + (head_ f - tail_ f)) with (head_ f) by lia; by rewrite Z.mod_small by lia).
    assert (n + 1 <> capacity_ f) as Hfull.
    { intros Hx. apply E. unfold nh. rewrite Hhead, Zplus_mod_idemp_l. replace (tail_ f + n + 1) with (tail_ f + 1 * capacity_ f) by lia. by rewrite Z.mod_add, Z.mod_small by lia. }
    replace ((nh - tail_ f) mod capacity_ f) with (n + 1).
    2:{ unfold nh. rewrite Zminus_mod_idemp_l, Hhead. rewrite <- Zminus_mod_idemp_l, Zplus_mod_idemp_l, Zminus_mod_idemp_l.
        replace (tail_ f + n + 1 - tail_ f) with (n + 1) by lia. by rewrite Z.mod_small by lia. }
    rewrite seqZ_app, fmap_app by lia. cbn. f_equal.
    + apply list_fmap_ext. intros k y Hy. apply lookup_seqZ in Hy as [-> Hk]. rewrite !aget_lookup by (apply Z.mod_pos_bound; lia).
      rewrite list_lookup_insert_ne; [done|]. rewrite Hhead. intros Heq%Z2Nat.inj; try (apply Z.mod_pos_bound; lia).
      apply mod_shift_inj in Heq; lia.
    + change (seqZ (0 + n) 1) with [n]. cbn. rewrite <- Hhead, aget_lookup by lia. rewrite list_lookup_insert_eq by (unfold alen in *; lia). done.
Qed.

Lemma dequeue_spec f x l :
  fl_ok f -> content f = x :: l -> exists f', dequeue f = Some (x, f') /\ fl_ok f' /\ content f' = l.
Proof.
  intros Hf Hx. pose proof Hf as [Hc Hl Hh Ht]. unfold dequeue. destruct (fl_empty f) eqn:E; [apply fl_empty_content in E; [congruence|done]|].
  destruct (aget_is_Some (entries_ f) (tail_ f)) as [v Ev]; [lia|]. rewrite Ev. cbn. rewrite mod_next by done.
  eexists. split.
  - unfold content in Hx. set (n := (head_ f - tail_ f) mod capacity_ f) in *. destruct (Z.le_gt_cases n 0).
    { rewrite seqZ_nil in Hx by lia. done. }
    replace n with (1 + (n - 1)) in Hx by lia. rewrite seqZ_app in Hx by lia. cbn in Hx. injection Hx as <- _. rewrite Z.add_0_r, (Z.mod_small (tail_ f)) by lia. by rewrite Ev.
  - split; [split; cbn; try lia; apply Z.mod_pos_bound; lia|]. unfold content in *. cbn. set (n := (head_ f - tail_ f) mod capacity_ f) in *.
    destruct (Z.le_gt_cases n 0). { rewrite seqZ_nil in Hx by lia. done. }
    assert (n < capacity_ f) by (apply Z.mod_pos_bound; lia).
    replace ((head_ f - (tail_ f + 1) mod capacity_ f) mod capacity_ f) with (n - 1).
    2:{ rewrite Zminus_mod_idemp_r. replace (head_ f - (tail_ f + 1)) with (head_ f - tail_ f - 1) by lia. rewrite <- Zminus_mod_idemp_l. fold n. by rewrite Z.mod_small by lia. }
    replace n with (1 + (n - 1)) in Hx by lia. rewrite seqZ_app in Hx by lia. cbn in Hx. injection Hx as _ <-. rewrite <- (fmap_add_seqZ 1 0), <- list_fmap_compose.
    apply list_fmap_ext. intros k y _. cbn. rewrite Zplus_mod_idemp_l. do 3 f_equal. lia.
Qed.

(** ** A client *)

Definition list_blocks (k : nat) (f : FreeList) : list (Z * Z) := (fun a => (a, 8 * 2 ^ Z.of_nat k)) <$> content f.

Definition client_blocks (c : client) : list (Z * Z) := concat (imap list_blocks (c_free c)).

Lemma delete_insert_list {A} (L : list A) k y : delete k (<[k := y]> L) = delete k L.
Proof. revert k. induction L as [|z L IH]; intros [|k]; cbn; try done. f_equal. apply IH. Qed.

Lemma concat_insert {A} (L : list (list A)) k x y :
  L !! k = Some x -> exists R, concat L ≡ₚ x ++ R /\ concat (<[k := y]> L) ≡ₚ y ++ R.
Proof.
  intros H. pose proof (lookup_lt_Some _ _ _ H) as Hk. exists (concat (delete k L)). split.
  - rewrite (delete_Permutation L k x) at 1 by done. done.
  - rewrite (delete_Permutation (<[k := y]> L) k y) by (by apply list_lookup_insert_eq). cbn. by rewrite delete_insert_list.
Qed.

Record client_ok (c : client) : Prop := {
  ck_len : length (c_free c) = 12%nat;
  ck_lists : Forall fl_ok (c_free c) }.

(** One free list replaced. *)
Lemma with_list_spec c k :
  client_ok c -> 0 <= k < 12 -> exists f R, (c_free c).[k] = Some f /\ fl_ok f /\
  client_blocks c ≡ₚ list_blocks (Z.to_nat k) f ++ R /\
  forall f', fl_ok f' -> exists c', with_list c k f' = Some c' /\ client_ok c' /\ c_super c' = c_super c /\ client_blocks c' ≡ₚ list_blocks (Z.to_nat k) f' ++ R.
Proof.
  intros [Hlen Hall] Hk. rewrite aget_lookup by lia. destruct (lookup_lt_is_Some_2 (c_free c) (Z.to_nat k)) as [f Hf]; [lia|].
  assert (imap list_blocks (c_free c) !! Z.to_nat k = Some (list_blocks (Z.to_nat k) f)) as Hi by (rewrite list_lookup_imap, Hf; done).
  destruct (concat_insert _ _ _ [] Hi) as (R & HR & _). exists f, R. split; [done|]. split; [by eapply Forall_lookup_1|]. split; [exact HR|].
  intros f' Hf'. unfold with_list. rewrite aset_Some by (unfold alen; lia). eexists. split; [done|]. split; [split; cbn; [by rewrite length_insert|by apply Forall_insert]|].
  split; [done|]. unfold client_blocks. cbn [c_free]. rewrite <- (list_insert_id (c_free c) (Z.to_nat k) f Hf) in HR.
  destruct (concat_insert _ _ _ (list_blocks (Z.to_nat k) f') Hi) as (R' & HR1 & HR2). rewrite list_insert_id in HR by done.
  replace (imap list_blocks (<[Z.to_nat k:=f']> (c_free c))) with (<[Z.to_nat k:=list_blocks (Z.to_nat k) f']> (imap list_blocks (c_free c))).
  2:{ apply list_eq. intros i. rewrite list_lookup_insert, length_imap, !list_lookup_imap, list_lookup_insert. repeat case_decide; naive_solver. }
  rewrite HR2. f_equiv. apply (Permutation_app_inv_l (list_blocks (Z.to_nat k) f)). rewrite <- HR1. exact HR.
Qed.

Lemma power_of_class k : 0 <= k < 12 -> kPowerOfTwo.[k] = Some (8 * 2 ^ k).
Proof. intros H. assert (k ∈ seqZ 0 12) as Hin by (apply elem_of_seqZ; lia). revert Hin. vm_compute (seqZ 0 12). rewrite !elem_of_cons, elem_of_nil. intros Hin. repeat (destruct Hin as [->|Hin]; [reflexivity|]). done. Qed.

(** Sizes have a class they fit in, as far as the table is filled. *)
Definition classes_ok (l : list Z) : Prop := forall size, 0 <= size < alen l -> exists k, l.[size] = Some k /\ 0 <= k < 12 /\ size <= 8 * 2 ^ k.

Lemma fill_classes_ok ids : forall l, Forall (fun id => 0 <= id < 12) ids -> classes_ok l ->
  exists l', fill_classes ids l = Some l' /\ classes_ok l' /\ alen l <= alen l' /\ Forall (fun id => 8 * 2 ^ id < alen l') ids.
Proof.
  induction ids as [|id ids IH]; intros l Hids Hl; cbn [fill_classes]; [by exists l|]. apply Forall_cons in Hids as [Hid Hids].
  rewrite power_of_class by done. cbn [mbind option_bind]. set (l1 := l ++ _).
  assert (alen l1 = Z.max (alen l) (8 * 2 ^ id + 1)) as Hlen by (unfold l1, alen; rewrite length_app, length_replicate; lia).
  destruct (IH l1) as (l' & -> & Hok & Hle & Hall); [done| |exists l'; split_and!; [done|done|lia|apply Forall_cons; split; [lia|done]]].
  intros size Hs. destruct (Z.lt_ge_cases size (alen l)) as [H|H].
  - destruct (Hl size ltac:(lia)) as (k & Hk & ?). exists k. split; [|done]. rewrite aget_lookup in * by lia. unfold l1. by apply lookup_app_l_Some.
  - exists id. split; [|lia]. rewrite aget_lookup by lia. unfold l1. rewrite lookup_app_r by (unfold alen in *; lia). apply lookup_replicate. unfold alen in *. lia.
Qed.

(** The class a size fits in. *)
Lemma class_of_size : exists cl, kSizeToClass = Some cl /\ forall size, 0 <= size < kChunkSize -> exists k, cl.[size] = Some k /\ 0 <= k < 12 /\ size <= 8 * 2 ^ k.
Proof.
  destruct (fill_classes_ok (seqZ 0 kNumFreeLists) []) as (cl & Hcl & Hok & _ & Hall).
  - apply Forall_seqZ. unfold kNumFreeLists. lia.
  - intros size Hs. unfold alen in Hs. cbn in Hs. lia.
  - exists cl. split; [exact Hcl|]. intros size Hs. apply Hok. rewrite Forall_seqZ in Hall. specialize (Hall 11 ltac:(unfold kNumFreeLists; lia)). change (8 * 2 ^ 11) with kChunkSize in Hall. lia.
Qed.

Section Node.

(** The node, the number of its chunks, and the chunks in use from the start. *)
Context (junk node max c0 : Z) (Hnode : 0 <= node < 2 ^ 8) (Hmax : max * kChunkSize <= 2 ^ 48) (Hc0 : 1 <= c0 <= max).

Definition lo : Z := node * 2 ^ 56 + c0 * kChunkSize.
Definition hi (r : SuperChunk) : Z := node * 2 ^ 56 + alloc_chunk r * kChunkSize.

Definition copy_ok (r : SuperChunk) (c : client) : Prop :=
  match c_super c with None => True | Some e => max_chunk e = max /\ 0 <= alloc_chunk e <= alloc_chunk r end.

(** A client between others: [P] are the blocks that are not free at it. *)
Record state_ok (r : SuperChunk) (c : client) (P : list (Z * Z)) : Prop := {
  so_remote : max_chunk r = max /\ c0 <= alloc_chunk r <= max;
  so_copy : copy_ok r c;
  so_client : client_ok c;
  so_pool : pool_ok lo (hi r) (client_blocks c ++ P) }.

#[local] Instance state_ok_perm r c : Proper ((≡ₚ) ==> iff) (state_ok r c).
Proof. intros l l' Hl. split; intros [H1 H2 H3 H4]; split; try done; by rewrite ?Hl in *. Qed.

(** The outcome of an allocation of [n] bytes: NULL, or a new block. *)
Definition allocated (r : SuperChunk) (P : list (Z * Z)) (n : Z) (res : option (Z * SuperChunk * client)) : Prop :=
  exists a r' c', res = Some (a, r', c') /\ alloc_chunk r <= alloc_chunk r' /\
  ((a = NULL_GLOBAL_ADDRESS /\ r' = r /\ state_ok r' c' P /\ max < alloc_chunk r + (n + kChunkSize - 1) / kChunkSize) \/
   (a <> NULL_GLOBAL_ADDRESS /\ state_ok r' c' ((a, n) :: P))).

Lemma block_not_null r a n l : pool_ok lo (hi r) ((a, n) :: l) -> a <> NULL_GLOBAL_ADDRESS.
Proof. intros [_ [(_ & _ & _ & Ha) _]%Forall_cons] ->. unfold NULL_GLOBAL_ADDRESS in Ha. cbn [fst] in Ha. dlia. Qed.

Lemma chunk_ok r c P count :
  state_ok r c P -> 1 <= count < 2 ^ 31 -> allocated r P (count * kChunkSize) (do_alloc_chunk node r c count).
Proof.
  intros [[Hmx Hal] Hcp Hck Hpool] Hcount. unfold allocated, do_alloc_chunk, kChunkSize, kChunkShift in *. change (2 ^ 14) with 16384 in *.
  set (e := find_super_chunk r c).
  assert (max_chunk e = max /\ 0 <= alloc_chunk e <= alloc_chunk r) as [Em Ea] by (unfold e, find_super_chunk, copy_ok in *; destruct (c_super c); cbn; lia).
  replace ((count * 16384 + 16384 - 1) / 16384) with count by dlia.
  assert (forall x, 0 <= x <= max -> u64 (x + count) = x + count) as Hu by (intros; apply wrapu_small; lia).
  assert (forall e', max_chunk e' = max -> alloc_chunk e' = alloc_chunk r -> max < alloc_chunk r + count -> state_ok r (Client (Some e') (c_free c)) P) as Hnull.
  { intros e' ???. split; [done|unfold copy_ok; cbn; lia|by destruct Hck|exact Hpool]. }
  assert (forall e', max_chunk e' = max -> alloc_chunk e' = alloc_chunk r -> alloc_chunk r + count <= max ->
    let a := global_address node (u64 (alloc_chunk e' * 16384)) in
    a <> NULL_GLOBAL_ADDRESS /\ state_ok (MkSuper (max_chunk r) (u64 (alloc_chunk e' + count))) (Client (Some e') (c_free c)) ((a, count * 16384) :: P)) as Hgot.
  { intros e' Em' Ea' Hroom a. assert (a = hi r) as Ha by (unfold a, hi, global_address, kChunkSize, kChunkShift; rewrite Ea', wrapu_small by lia; rewrite Z.mod_small; lia).
    assert (pool_ok lo (hi r + count * 16384) ((a, count * 16384) :: client_blocks c ++ P)) as Hp.
    { apply pool_grow; try done; unfold lo, hi, kChunkSize, kChunkShift; try lia. change (2 ^ 14) with 16384. dlia. }
    rewrite Ea', Hu by lia. set (r' := MkSuper _ _). assert (hi r' = hi r + count * 16384) as Hhi by (unfold hi, r', kChunkSize, kChunkShift; cbn; lia). rewrite <- Hhi in Hp.
    split; [by eapply block_not_null|]. split; [unfold r'; cbn; lia|unfold r', copy_ok; cbn; lia|by destruct Hck|]. change (client_blocks (Client (Some e') (c_free c))) with (client_blocks c). by rewrite <- Permutation_middle. }
  cbn [alloc_chunk_loop]. rewrite Em, Hu by lia. destruct (Z.leb_spec (alloc_chunk e + count) max) as [Hfit|Hfull].
  - destruct (Z.eqb_spec (alloc_chunk r) (alloc_chunk e)) as [E|E].
    + eexists _, _, _. split; [reflexivity|]. cbn [alloc_chunk]. split; [lia|]. right. specialize (Hgot e Em (eq_sym E) ltac:(lia)). rewrite Hu in Hgot by lia. done.
    + cbn [max_chunk alloc_chunk]. rewrite Hu by lia. destruct (Z.leb_spec (alloc_chunk r + count) max) as [Hfit2|Hfull2].
      * rewrite Z.eqb_refl. eexists _, _, _. split; [reflexivity|]. cbn [alloc_chunk]. split; [lia|]. right.
        specialize (Hgot (MkSuper max (alloc_chunk r)) eq_refl eq_refl ltac:(lia)). cbn [alloc_chunk] in Hgot. rewrite Hu in Hgot by lia. done.
      * cbn. eexists _, _, _. split; [done|]. split; [lia|]. left. split_and!; try done; apply Hnull; done.
  - cbn. eexists _, _, _. split; [done|]. split; [lia|]. left. split_and!; [done|done| |lia]. split; [done|unfold copy_ok; cbn; lia|by destruct Hck|exact Hpool].
Qed.

(** A block from a free list that is not empty. *)
Lemma take_ok_list r c P k :
  state_ok r c P -> 0 <= k < 12 -> exists f, (c_free c).[k] = Some f /\ fl_ok f /\
  (fl_empty f = false -> allocated r P (8 * 2 ^ k) (x ← dequeue f; c ← with_list c k (snd x); Some (fst x, r, c))).
Proof.
  intros [Hr Hcp Hck Hpool] Hk. destruct (with_list_spec c k Hck Hk) as (f & R & Ef & Hf & HR & Hw). exists f. split_and!; try done. intros Hne.
  destruct (content f) as [|a l] eqn:Hc. { apply fl_empty_content in Hc; [congruence|done]. }
  destruct (dequeue_spec f a l Hf Hc) as (f' & -> & Hf' & Hl). destruct (Hw f' Hf') as (c' & Ec' & Hck' & Hs' & HR'). cbn. rewrite Ec'. cbn.
  assert (pool_ok lo (hi r) ((a, 8 * 2 ^ k) :: client_blocks c' ++ P)) as Hp.
  { rewrite HR in Hpool. rewrite HR'. unfold list_blocks in *. rewrite Hc in Hpool. rewrite Hl. rewrite Z2Nat.id in * by lia. exact Hpool. }
  eexists _, _, _. split; [done|]. split; [lia|]. right. split; [by eapply block_not_null|]. split; try done; [unfold copy_ok in *; by rewrite Hs'|]. by rewrite <- Permutation_middle.
Qed.

(** Half of a block goes to a free list. *)
Lemma give_half r c P k a :
  state_ok r c ((a, 8 * 2 ^ (k + 1)) :: P) -> 0 <= k < 12 -> 0 <= a -> a + 16 * 2 ^ k <= 2 ^ 64 ->
  exists c', (f ← (c_free c).[k]; f ← enqueue junk f (u64 (a + 8 * 2 ^ k)); c ← with_list c k f; Some (a, r, c)) = Some (a, r, c') /\ state_ok r c' ((a, 8 * 2 ^ k) :: P).
Proof.
  intros [Hr Hcp Hck Hpool] Hk Ha0 Ha1. destruct (with_list_spec c k Hck Hk) as (f & R & -> & Hf & HR & Hw). cbn [mbind option_bind].
  assert (0 < 2 ^ k) by (apply Z.pow_pos_nonneg; lia). rewrite wrapu_small by lia.
  destruct (enqueue_spec junk f (a + 8 * 2 ^ k) Hf) as (f' & -> & Hf' & Hcont). cbn [mbind option_bind]. destruct (Hw f' Hf') as (c' & -> & Hck' & Hs' & HR'). cbn.
  exists c'. split; [done|]. split; try done; [unfold copy_ok in *; by rewrite Hs'|].
  rewrite <- Permutation_middle in Hpool. rewrite Z.pow_add_r in Hpool by lia. replace (8 * (2 ^ k * 2 ^ 1)) with (8 * 2 ^ k + 8 * 2 ^ k) in Hpool by lia.
  apply pool_split in Hpool; [|lia|lia|dlia]. eapply pool_sub; [|exact Hpool].
  rewrite HR, HR', <- Permutation_middle. unfold list_blocks. apply submseteq_skip. rewrite Z2Nat.id by lia.
  destruct Hcont as [-> | ->].
  - rewrite fmap_app. cbn. rewrite <- !app_assoc. cbn. rewrite <- Permutation_middle. done.
  - apply submseteq_cons. rewrite <- !app_assoc. apply (submseteq_inserts_l (_ <$> content f)). reflexivity.
Qed.

Lemma pool_bounds r c P a n : state_ok r c ((a, n) :: P) -> 0 <= a /\ 0 < n /\ a + n <= 2 ^ 64.
Proof.
  intros [Hr _ _ [_ Hin]]. apply Forall_app in Hin as [_ [(H1 & H2 & H3 & _) _]%Forall_cons]. unfold lo, hi, kChunkSize, kChunkShift in *. cbn [fst snd] in *. nia.
Qed.

(** A block of class [k], from a free list, a chunk, or half of a block of the
    next class. *)
Lemma do_alloc_memory_ok depth : forall r c P k,
  state_ok r c P -> 0 <= k < 12 -> 11 - k <= Z.of_nat depth -> allocated r P (8 * 2 ^ k) (do_alloc_memory junk depth node r c k).
Proof.
  induction depth as [|depth IH]; intros r c P k Hs Hk Hd.
  all: destruct (take_ok_list r c P k Hs Hk) as (f & Ef & Hf & Htake); cbn [do_alloc_memory]; rewrite Ef; cbn [mbind option_bind].
  all: destruct (fl_empty f) eqn:He; cbn [negb]; [|by apply Htake]; rewrite power_of_class by lia; cbn [mbind option_bind].
  all: change (kNumFreeLists - 1) with 11; destruct (Z.eqb_spec k 11) as [->|Hne]; try (exfalso; lia).
  1,2: destruct (chunk_ok r c P 1 Hs ltac:(lia)) as (a & r' & c' & -> & Hmono & Hres); cbn [mbind option_bind];
       change (1 * kChunkSize) with (8 * 2 ^ 11) in Hres; destruct (Z.eqb_spec a NULL_GLOBAL_ADDRESS) as [Hn|Hn];
       [exists a, r', c'; split_and!; done|]; destruct Hres as [(? & _)|[_ Hs']]; [done|];
       destruct (with_list_spec c' 11 (so_client _ _ _ Hs') ltac:(lia)) as (f' & R & -> & Hf' & HR & Hw); cbn [mbind option_bind];
       change (enqueue_rest junk 2048 f' a (8 * 2 ^ 11) (8 * 2 ^ 11)) with (Some f'); cbn [mbind option_bind];
       destruct (Hw f' Hf') as (c2 & -> & Hc2 & Hsup & HR2); exists a, r', c2; split_and!; try done; right; split; [done|];
       destruct Hs'; split; try done; [unfold copy_ok in *; by rewrite Hsup|by rewrite HR2, <- HR].
  destruct (IH r c P (k + 1) Hs ltac:(lia) ltac:(lia)) as (a & r' & c' & -> & Hmono & Hres). cbn [mbind option_bind].
  destruct (Z.eqb_spec a NULL_GLOBAL_ADDRESS) as [Hn|Hn]; destruct Hres as [(? & Hrest)|[? Hs']]; try done.
  - exists a, r', c'. split_and!; try done. left. split; [done|]. destruct Hrest as (? & ? & Hx). split_and!; try done. revert Hx.
    assert (0 < 2 ^ k) by (apply Z.pow_pos_nonneg; lia). assert (2 ^ (k + 1) <= 2 ^ 11) by (apply Z.pow_le_mono_r; lia). rewrite Z.pow_add_r in * by lia.
    unfold kChunkSize, kChunkShift. change (2 ^ 14) with 16384. dlia.
  - pose proof (pool_bounds _ _ _ _ _ Hs') as Hb. rewrite Z.pow_add_r in Hb by lia. destruct (give_half r' c' P k a Hs' Hk ltac:(lia) ltac:(lia)) as (c2 & -> & Hs2).
    exists a, r', c2. split_and!; try done. by right.
Qed.

(** The bytes of the block that serves a request. *)
Definition block_len (size : Z) : Z :=
  if kChunkSize <=? size then (size + kChunkSize - 1) / kChunkSize * kChunkSize else
  default 0 (k ← (cl ← kSizeToClass; cl.[size]); kPowerOfTwo.[k]).

Lemma block_len_class size : 0 <= size < kChunkSize ->
  exists cl k, kSizeToClass = Some cl /\ cl.[size] = Some k /\ 0 <= k < 12 /\ size <= 8 * 2 ^ k /\ block_len size = 8 * 2 ^ k.
Proof.
  intros Hs. destruct class_of_size as (cl & Ecl & H). destruct (H size Hs) as (k & Ek & Hk & Hle). exists cl, k. repeat (split; [done|]).
  unfold block_len. rewrite (proj2 (Z.leb_gt kChunkSize size)) by lia. by rewrite Ecl; cbn [mbind option_bind]; rewrite Ek; cbn [mbind option_bind]; rewrite power_of_class by lia.
Qed.

Lemma block_len_size size : 0 <= size -> size <= block_len size.
Proof.
  intros Hs. destruct (Z.lt_ge_cases size kChunkSize) as [H|H].
  - destruct (block_len_class size ltac:(lia)) as (? & ? & _ & _ & _ & ? & ->). done.
  - unfold block_len. rewrite (proj2 (Z.leb_le _ _)) by done. unfold kChunkSize, kChunkShift in *. change (2 ^ 14) with 16384 in *. dlia.
Qed.

Lemma alloc_memory_ok r c P size :
  state_ok r c P -> 0 <= size < 2 ^ 44 -> allocated r P (block_len size) (alloc_memory junk node r c size).
Proof.
  intros Hs Hsz. unfold alloc_memory. destruct (Z.leb_spec kChunkSize size) as [H|H].
  - unfold block_len. rewrite (proj2 (Z.leb_le _ _)) by done. unfold kChunkSize, kChunkShift in *. change (2 ^ 14) with 16384 in *.
    rewrite wrapu_small by lia. rewrite i32_small by dlia. apply chunk_ok; [done|dlia].
  - destruct (block_len_class size ltac:(lia)) as (cl & k & -> & Ek & Hk & _ & ->). cbn [mbind option_bind]. rewrite Ek. cbn [mbind option_bind].
    destruct (take_ok_list r c P k Hs Hk) as (f & -> & Hf & Htake). cbn [mbind option_bind]. destruct (fl_empty f); cbn [negb]; [|by apply Htake].
    apply do_alloc_memory_ok; try done. cbn. lia.
Qed.

Lemma free_chunks_ok n : forall f a Q,
  fl_ok f -> (0 < n)%nat -> 0 <= a -> a + Z.of_nat n * kChunkSize < 2 ^ 64 -> 
  (forall h, pool_ok lo h ((a, Z.of_nat n * kChunkSize) :: list_blocks 11 f ++ Q) ->
   exists f', free_chunks junk n f a = Some f' /\ fl_ok f' /\ pool_ok lo h (list_blocks 11 f' ++ Q)).
Proof.
  induction n as [|n IH]; intros f a Q Hf Hn Ha Hb h Hp; [lia|]. cbn [free_chunks].
  destruct (enqueue_spec junk f a Hf) as (f1 & -> & Hf1 & Hcont). cbn [mbind option_bind].
  assert (forall L, pool_ok lo h ((a, kChunkSize) :: L ++ list_blocks 11 f ++ Q) -> pool_ok lo h (L ++ list_blocks 11 f1 ++ Q)) as Hstep.
  { intros L. apply pool_sub. unfold list_blocks. rewrite Permutation_middle. apply submseteq_app; [done|]. destruct Hcont as [-> | ->].
    - rewrite fmap_app, <- app_assoc. cbn. rewrite <- Permutation_middle. done.
    - apply submseteq_cons, (submseteq_inserts_l (_ <$> content f)). reflexivity. }
  destruct n as [|n].
  - exists f1. split_and!; [done..|]. by apply (Hstep []).
  - unfold kChunkSize, kChunkShift in *. change (2 ^ 14) with 16384 in *. rewrite wrapu_small by lia. apply IH; try done; try lia.
    apply (Hstep [(_, _)]). cbn [app]. apply pool_split; [|lia..|done]. by replace (16384 + Z.of_nat (S n) * 16384) with (Z.of_nat (S (S n)) * 16384) by lia.
Qed.

Lemma free_memory_ok r c P a size :
  state_ok r c ((a, block_len size) :: P) -> 0 <= size < 2 ^ 44 -> exists c', free_memory junk c a size = Some c' /\ state_ok r c' P.
Proof.
  intros Hs Hsz. pose proof (pool_bounds _ _ _ _ _ Hs) as Hb. destruct Hs as [Hr Hcp Hck Hpool]. unfold free_memory. destruct (Z.leb_spec kChunkSize size) as [H|H].
  - change (kNumFreeLists - 1) with 11. destruct (with_list_spec c 11 Hck ltac:(lia)) as (f & R & -> & Hf & HR & Hw). cbn [mbind option_bind].
    unfold block_len in *. rewrite (proj2 (Z.leb_le _ _)) in * by done. set (n := (size + kChunkSize - 1) / kChunkSize) in *.
    assert (0 < n) by (unfold n, kChunkSize, kChunkShift in *; change (2 ^ 14) with 16384 in *; dlia).
    assert (a + n * kChunkSize < 2 ^ 64) by (clear -Hr Hpool Hmax Hnode; destruct Hpool as [_ Hin]; apply Forall_app in Hin as [_ [(_ & H2 & _) _]%Forall_cons]; unfold hi, kChunkSize, kChunkShift in *; cbn [fst snd] in *; nia).
    rewrite <- Permutation_middle, HR, <- app_assoc in Hpool. replace n with (Z.of_nat (Z.to_nat n)) in Hpool by lia.
    destruct (free_chunks_ok (Z.to_nat n) f a (R ++ P) Hf ltac:(lia) ltac:(lia) ltac:(rewrite Z2Nat.id by lia; lia) _ Hpool) as (f' & -> & Hf' & Hp'). cbn [mbind option_bind].
    destruct (Hw f' Hf') as (c' & -> & Hc' & Hsup & HR'). exists c'. split; [done|]. split; try done; [unfold copy_ok in *; by rewrite Hsup|]. by rewrite HR', <- app_assoc.
  - destruct (block_len_class size ltac:(lia)) as (cl & k & -> & Ek & Hk & _ & El). rewrite El in *. cbn [mbind option_bind]. rewrite Ek. cbn [mbind option_bind].
    destruct (with_list_spec c k Hck Hk) as (f & R & -> & Hf & HR & Hw). cbn [mbind option_bind].
    destruct (enqueue_spec junk f a Hf) as (f' & -> & Hf' & Hcont). cbn [mbind option_bind].
    destruct (Hw f' Hf') as (c' & -> & Hc' & Hsup & HR'). exists c'. split; [done|]. split; try done; [unfold copy_ok in *; by rewrite Hsup|].
    rewrite <- Permutation_middle, HR in Hpool. rewrite HR'. eapply pool_sub; [|exact Hpool]. unfold list_blocks. rewrite Z2Nat.id by lia. destruct Hcont as [-> | ->].
    + rewrite fmap_app, <- !app_assoc. cbn. by rewrite <- Permutation_middle.
    + apply submseteq_cons. rewrite <- !app_assoc. apply (submseteq_inserts_l (_ <$> content f)). reflexivity.
Qed.

(** ** Clients that share a node *)

(** The operations of the threads, one after the other: client [i] allocates, or
    frees the [j]-th block that is held. *)
Inductive op := Alloc (i : nat) (size : Z) | Free (i j : nat).

Record system := Sys { s_remote : SuperChunk; s_clients : list client; s_held : list (Z * Z) }.

Definition init (n : nat) : system := Sys (MkSuper max c0) (replicate n (Client None (replicate 12 (new_free_list junk)))) [].

(** An operation of a client or on a block that does not exist changes nothing. *)
Definition step (s : system) (o : op) : option system :=
  match o with
  | Alloc i size =>
    match s_clients s !! i with
    | None => Some s
    | Some c =>
      r ← alloc_memory junk node (s_remote s) c size;
      let '(a, remote, c) := r in
      Some (Sys remote (<[i := c]> (s_clients s)) (if a =? NULL_GLOBAL_ADDRESS then s_held s else (a, size) :: s_held s))
    end
  | Free i j =>
    match s_clients s !! i, s_held s !! j with
    | Some c, Some (a, size) => c ← free_memory junk c a size; Some (Sys (s_remote s) (<[i := c]> (s_clients s)) (delete j (s_held s)))
    | _, _ => Some s
    end
  end.

Fixpoint run (s : system) (os : list op) : option system :=
  match os with [] => Some s | o :: os => s ← step s o; run s os end.

Definition op_ok (o : op) : Prop := match o with Alloc _ size => 0 <= size < 2 ^ 44 | Free _ _ => True end.

Definition held_blocks (s : system) : list (Z * Z) := (fun b => (fst b, block_len (snd b))) <$> s_held s.

Record sys_ok (s : system) : Prop := {
  sy_remote : max_chunk (s_remote s) = max /\ c0 <= alloc_chunk (s_remote s) <= max;
  sy_clients : Forall (fun c => client_ok c /\ copy_ok (s_remote s) c) (s_clients s);
  sy_sizes : Forall (fun b => 0 <= snd b < 2 ^ 44) (s_held s);
  sy_pool : pool_ok lo (hi (s_remote s)) (concat (client_blocks <$> s_clients s) ++ held_blocks s) }.

Lemma copy_ok_mono r r' c : alloc_chunk r <= alloc_chunk r' -> copy_ok r c -> copy_ok r' c.
Proof. unfold copy_ok. destruct (c_super c); [|done]. lia. Qed.

(** One client of a system, and the system with that client changed. *)
Lemma sys_client s i c : sys_ok s -> s_clients s !! i = Some c ->
  exists R, state_ok (s_remote s) c (R ++ held_blocks s) /\
  forall r' c' held, alloc_chunk (s_remote s) <= alloc_chunk r' -> Forall (fun b => 0 <= snd b < 2 ^ 44) held ->
    state_ok r' c' (R ++ ((fun b => (fst b, block_len (snd b))) <$> held)) -> sys_ok (Sys r' (<[i := c']> (s_clients s)) held).
Proof.
  intros [Hr Hcl Hsz Hpool] Hi. assert ((client_blocks <$> s_clients s) !! i = Some (client_blocks c)) as Hi' by (by rewrite list_lookup_fmap, Hi).
  destruct (concat_insert _ _ _ [] Hi') as (R & HR & _). exists R. destruct (Forall_lookup_1 _ _ _ _ Hcl Hi) as [Hck Hcp]. split.
  - split; try done. by rewrite app_assoc, <- HR.
  - intros r' c' held Hle Hheld [Hr' Hcp' Hck' Hp']. split; cbn; try done.
    + apply Forall_insert; [|done]. eapply Forall_impl; [exact Hcl|]. intros x [? ?]. split; [done|by eapply copy_ok_mono].
    + rewrite list_fmap_insert. destruct (concat_insert _ _ _ (client_blocks c') Hi') as (R' & HR1 & HR2). rewrite HR2.
      assert (R ≡ₚ R') as HRR by (apply (Permutation_app_inv_l (client_blocks c)); by rewrite <- HR, <- HR1). rewrite <- HRR, <- app_assoc. exact Hp'.
Qed.

Lemma step_ok s o : sys_ok s -> op_ok o -> exists s', step s o = Some s' /\ sys_ok s'.
Proof.
  intros Hs Ho. destruct o as [i size|i j]; cbn [step op_ok] in *.
  - destruct (s_clients s !! i) as [c|] eqn:Ei; [|by eauto]. destruct (sys_client s i c Hs Ei) as (R & Hc & Hback).
    destruct (alloc_memory_ok _ _ _ size Hc Ho) as (a & r' & c' & -> & Hle & Hres). cbn [mbind option_bind]. eexists. split; [done|]. pose proof (sy_sizes s Hs).
    destruct (Z.eqb_spec a NULL_GLOBAL_ADDRESS) as [Hn|Hn]; destruct Hres as [(? & ? & Hs' & _)|(? & Hs')]; try done; apply Hback; try done.
    + by apply Forall_cons.
    + cbn. by rewrite <- Permutation_middle.
  - destruct (s_clients s !! i) as [c|] eqn:Ei; [|by eauto]. destruct (s_held s !! j) as [[a size]|] eqn:Ej; [|by eauto].
    destruct (sys_client s i c Hs Ei) as (R & Hc & Hback). pose proof (Forall_lookup_1 _ _ _ _ (sy_sizes s Hs) Ej) as Hsz. cbn in Hsz.
    destruct (free_memory_ok (s_remote s) c (R ++ ((fun b => (fst b, block_len (snd b))) <$> delete j (s_held s))) a size) as (c' & -> & Hs'); [|done|].
    + destruct Hc as [? ? ? Hp]. split; try done. unfold held_blocks in Hp. rewrite (delete_Permutation (s_held s) j (a, size) Ej) in Hp. cbn in Hp. by rewrite Permutation_middle.
    + cbn. eexists. split; [done|]. apply Hback; [done| |done]. apply Forall_delete, (sy_sizes s Hs).
Qed.

Lemma run_ok os : forall s, sys_ok s -> Forall op_ok os -> exists s', run s os = Some s' /\ sys_ok s'.
Proof.
  induction os as [|o os IH]; intros s Hs Hos; cbn; [by eauto|]. apply Forall_cons in Hos as [Ho Hos].
  destruct (step_ok s o Hs Ho) as (s' & -> & Hs'). cbn. by apply IH.
Qed.

Lemma smart_init_ok n : sys_ok (init n).
Proof.
  split; unfold held_blocks, init; cbn [s_clients s_held s_remote]; [cbn; lia| |done|].
  - apply Forall_replicate. split; [|done]. split; [done|]. assert (fl_ok (new_free_list junk)) by (split; unfold alen; cbn; lia). by repeat apply Forall_cons_2.
  - assert (concat (client_blocks <$> replicate n (Client None (replicate 12 (new_free_list junk)))) = []) as ->; [|by split].
    rewrite fmap_replicate. change (client_blocks _) with (@nil (Z * Z)). by induction n.
Qed.

Lemma held_apart s i j b c : sys_ok s -> s_held s !! i = Some b -> s_held s !! j = Some c -> i <> j -> apart b c.
Proof.
  intros [_ _ Hsz [Hd _]] Hi Hj Hne. apply disj_app in Hd as (_ & Hd & _).
  destruct (disj_both _ (fst b, block_len (snd b)) (fst c, block_len (snd c)) i j Hd) as [H|H]; unfold held_blocks; rewrite ?list_lookup_fmap, ?Hi, ?Hj; try done.
  - left. cbn in H. pose proof (Forall_lookup_1 _ _ _ _ Hsz Hi) as Hb. cbn in Hb. pose proof (block_len_size (snd b) ltac:(lia)). lia.
  - right. cbn in H. pose proof (Forall_lookup_1 _ _ _ _ Hsz Hj) as Hb. cbn in Hb. pose proof (block_len_size (snd c) ltac:(lia)). lia.
Qed.

Lemma held_inside s i b : sys_ok s -> s_held s !! i = Some b -> lo <= fst b /\ fst b + snd b <= node * 2 ^ 56 + max * kChunkSize /\ fst b mod 8 = 0.
Proof.
  intros [Hr _ Hsz [_ Hin]] Hi. apply Forall_app in Hin as [_ Hin]. pose proof (Forall_lookup_1 _ _ _ _ Hsz Hi) as Hb. cbn in Hb.
  assert (held_blocks s !! i = Some (fst b, block_len (snd b))) as Hi' by (unfold held_blocks; by rewrite list_lookup_fmap, Hi).
  destruct (Forall_lookup_1 _ _ _ _ Hin Hi') as (H1 & H2 & _ & H4). cbn [fst snd] in *. pose proof (block_len_size (snd b) ltac:(lia)).
  split_and!; try done. unfold hi, kChunkSize, kChunkShift in *. lia.
Qed.

(** C15: whatever the clients of a node allocate and free, in any order, no
    operation leaves the arrays of the allocator, two blocks that are held never
    overlap, every block lies in the memory of the node behind the reserved
    chunks and is aligned to 8 bytes, and a client gets no memory only if the
    node has fewer chunks left than the request needs. *)
Theorem smart_alloc_safe n os :
  Forall op_ok os -> exists s, run (init n) os = Some s /\
  (forall i j b c, s_held s !! i = Some b -> s_held s !! j = Some c -> i <> j -> apart b c) /\
  (forall i b, s_held s !! i = Some b -> lo <= fst b /\ fst b + snd b <= node * 2 ^ 56 + max * kChunkSize /\ fst b mod 8 = 0) /\
  (forall i c size, s_clients s !! i = Some c -> 0 <= size < 2 ^ 44 ->
    exists a r c', alloc_memory junk node (s_remote s) c size = Some (a, r, c') /\
    (a = NULL_GLOBAL_ADDRESS -> max < alloc_chunk (s_remote s) + (block_len size + kChunkSize - 1) / kChunkSize)).
Proof.
  intros Hos. destruct (run_ok os (init n) (smart_init_ok n) Hos) as (s & Hrun & Hs). exists s. split; [done|]. split; [intros; by eapply held_apart|].
  split; [intros; by eapply held_inside|]. intros i c size Hi Hsz. destruct (sys_client s i c Hs Hi) as (R & Hc & _).
  destruct (alloc_memory_ok _ _ _ size Hc Hsz) as (a & r' & c' & Ha & _ & Hres). exists a, r', c'. split; [done|]. intros ->. by destruct Hres as [(_ & _ & _ & ?)|(? & _)].
Qed.

End Node.

(** Two clients of node 1, which has three chunks left: three small blocks of one
    chunk, a block given back and reused, a large block, and a request that
    does not fit. *)
Lemma smart_alloc_safe_witness : exists s,
  run 0 1 (init 0 4 1 2) [Alloc 0 100; Alloc 1 8; Alloc 0 3; Free 1 2; Alloc 0 100; Alloc 1 20000] = Some s /\
  (forall i j b c, s_held s !! i = Some b -> s_held s !! j = Some c -> i <> j -> apart b c).
Proof.
  destruct (smart_alloc_safe 0 1 4 1 ltac:(lia) ltac:(vm_compute; discriminate) ltac:(lia) 2 [Alloc 0 100; Alloc 1 8; Alloc 0 3; Free 1 2; Alloc 0 100; Alloc 1 20000])
    as (s & H1 & H2 & _); [repeat constructor; cbn; lia|]. exists s. exact (conj H1 H2).
Defined.

(** A ring that is full when an entry is added loses every entry: the head was
    computed for the old capacity and equals the tail. *)
Lemma full_list_forgets : exists f f', fl_ok f /\ length (content f) = 31%nat /\ enqueue 0 f 5 = Some f' /\ content f' = [].
Proof.
  exists (MkFreeList 31 0 32 (seqZ 100 32)). eexists. split; [by split; vm_compute|]. split; [done|]. split; [vm_compute; reflexivity|done].
Qed.
