(* ===== verification/HtBlock.v ===== *)
(** fusioncas/smart_ht: the hashes, checksums and key-value blocks of the remote
    hash table.

    A block is a header with the lengths of key and value, the key, the value,
    and a CRC-32 in its last four bytes; strings are lists of bytes, written
    with [strncpy] and compared with [strncmp].  The lemmas show that a block
    that was written reads back as what was written. *)

From S2P Require Import Prelude Mem Crc32.

(** ** Hashes (include/util/murmur.h, include/util/generator.h) *)

Definition rotl32 (x r : Z) : Z := Z.lor (shlu 32 x r) (Z.shiftr x (32 - r)).

Definition fmix32 (h : Z) : Z :=
  let h := Z.lxor h (Z.shiftr h 16) in
  let h := u32 (h * 0x85ebca6b) in
  let h := Z.lxor h (Z.shiftr h 13) in
  let h := u32 (h * 0xc2b2ae35) in
  Z.lxor h (Z.shiftr h 16).

Definition mix_k1 (k1 : Z) : Z := u32 (rotl32 (u32 (k1 * 0xcc9e2d51)) 15 * 0x1b873593).

(** The loop over the words; the bytes that are left are the tail. *)
Fixpoint murmur_blocks (data : list Z) (h1 : Z) : Z * list Z :=
  match data with
  | b0 :: b1 :: b2 :: b3 :: rest =>
    murmur_blocks rest (u32 (rotl32 (Z.lxor h1 (mix_k1 (le_val [b0; b1; b2; b3]))) 13 * 5 + 0xe6546b64))
  | _ => (h1, data)
  end.

Definition MurmurHash3_x86_32 (data : list Z) (seed : Z) : Z :=
  let '(h1, tail) := murmur_blocks data seed in
  let h1 :=
    match tail with
    | [t0; t1; t2] => Z.lxor h1 (mix_k1 (Z.lxor (Z.lxor (Z.shiftl t2 16) (Z.shiftl t1 8)) t0))
    | [t0; t1] => Z.lxor h1 (mix_k1 (Z.lxor (Z.shiftl t1 8) t0))
    | [t0] => Z.lxor h1 (mix_k1 t0)
    | _ => h1
    end in
  fmix32 (Z.lxor h1 (u32 (alen data))).

Fixpoint fnv_loop (n : nat) (val hash : Z) : Z :=
  match n with
  | O => hash
  | S n => fnv_loop n (Z.shiftr val 8) (u64 (Z.lxor hash (Z.land val 0xff) * 1099511628211))
  end.

Definition FNVHash64 (val : Z) : Z := fnv_loop 8 val 0xCBF29CE484222325.

Definition UINT32_MAX : Z := 2 ^ 32 - 1.

Definition hash_function (key : list Z) : Z * Z :=
  (FNVHash64 (MurmurHash3_x86_32 key 0xcc9e2d51) mod UINT32_MAX,
   FNVHash64 (MurmurHash3_x86_32 key 0x1b873593) mod UINT32_MAX).

Definition get_fingerprint (hash : Z) : Z := Z.land (Z.shiftr hash 24) 255.

(** ** Checksum (include/util/crc.h, the bitwise algorithm with the parameters of CRC-32) *)

Definition crc_remainder_byte (remainder b : Z) : Z := Nat.iter 8 crc_bit (Z.lxor remainder b).

Definition crc_calculate (bytes : list Z) : Z := Z.lxor (foldl crc_remainder_byte 0xFFFFFFFF bytes) 0xFFFFFFFF.

(** ** Strings *)

(** [strncpy] of a string of [length k] bytes: what follows a NUL is zero. *)
Fixpoint strz (k : list Z) : list Z :=
  match k with
  | [] => []
  | c :: k' => if c =? 0 then replicate (length k) 0 else c :: strz k'
  end.

(** [strncmp (a, b, n) == 0]; [None] reads past the end of [a] or [b]. *)
Fixpoint strncmp_eq (n : nat) (a b : list Z) : option bool :=
  match n with
  | O => Some true
  | S n =>
    match a, b with
    | x :: a, y :: b => if negb (x =? y) then Some false else if x =? 0 then Some true else strncmp_eq n a b
    | _, _ => None
    end
  end.

(** ** Blocks (hashtable.h) *)

Definition kBlockLengthUnit : Z := 64.
Definition kMaxBlockLength : Z := 4096.
Definition sizeof_BlockHeader : Z := 8.

Definition get_kv_block_len (key value : list Z) : Z :=
  (sizeof_BlockHeader + alen key + alen value + 4 + (kBlockLengthUnit - 1)) / kBlockLengthUnit * kBlockLengthUnit.

(** The bytes [off .. off + n) of a buffer, and a buffer with some replaced;
    [None] leaves the buffer. *)
Definition sub_bytes (buf : list Z) (off n : Z) : option (list Z) :=
  if (0 <=? off) && (0 <=? n) && (off + n <=? alen buf) then Some (take (Z.to_nat n) (drop (Z.to_nat off) buf)) else None.

Definition put_bytes (buf : list Z) (off : Z) (bs : list Z) : option (list Z) :=
  if (0 <=? off) && (off + alen bs <=? alen buf)
  then Some (take (Z.to_nat off) buf ++ bs ++ drop (Z.to_nat off + length bs) buf) else None.

Definition key_len (block : list Z) : option Z := b ← sub_bytes block 0 4; Some (le_val b).
Definition value_len (block : list Z) : option Z := b ← sub_bytes block 4 4; Some (le_val b).

Definition get_kv_block_value (klen : Z) : Z := sizeof_BlockHeader + klen.

Definition calc_crc32 (block : list Z) (block_len : Z) : option Z :=
  b ← sub_bytes block 0 (block_len - 4); Some (crc_calculate b).

Definition update_kv_block_crc32 (block : list Z) (block_len : Z) : option (list Z) :=
  c ← calc_crc32 block block_len; put_bytes block (block_len - 4) (le_bytes 4 c).

Definition check_kv_block_crc32 (block : list Z) (block_len : Z) : option bool :=
  f ← sub_bytes block (block_len - 4) 4; c ← calc_crc32 block block_len; Some (le_val f =? c).

(** The part of [write_block] that fills the buffer. *)
Definition fill_block (block key value : list Z) : option (list Z) :=
  block ← put_bytes block 0 (le_bytes 4 (alen key));
  block ← put_bytes block 4 (le_bytes 4 (alen value));
  klen ← key_len block;
  block ← put_bytes block sizeof_BlockHeader (strz key);
  block ← put_bytes block (get_kv_block_value klen) (strz value);
  update_kv_block_crc32 block (get_kv_block_len key value).

(** The part of [read_block] that looks at the buffer: the value, if the key is
    the one that is looked for. *)
Definition match_block (block key : list Z) : option (option (list Z)) :=
  klen ← key_len block;
  vlen ← value_len block;
  eq ← strncmp_eq (Z.to_nat klen) (drop 8 block) (key ++ [0]);
  if eq : bool then v ← sub_bytes block (get_kv_block_value klen) vlen; Some (Some v) else Some None.

(** ** Strings that were copied *)

Lemma length_strz k : length (strz k) = length k.
Proof. induction k as [|c k IH]; cbn; [done|]. destruct (c =? 0); cbn; [by rewrite length_replicate|by rewrite IH]. Qed.

Lemma strz_bytes k : Forall byte_ok k -> Forall byte_ok (strz k).
Proof.
  induction 1 as [|c k Hc Hk IH]; cbn; [constructor|]. destruct (c =? 0); [|by constructor].
  change (0 :: replicate (length k) 0) with (replicate (S (length k)) 0). apply Forall_replicate. unfold byte_ok. lia.
Qed.

(** A string without NUL is copied as it is. *)
Lemma strz_id k : Forall (fun c => c <> 0) k -> strz k = k.
Proof. induction 1 as [|c k Hc Hk IH]; cbn; [done|]. rewrite (proj2 (Z.eqb_neq c 0)) by done. by rewrite IH. Qed.

(** [strncmp] with the length of its first argument tests for a prefix. *)
Lemma strncmp_eq_prefix k key rest :
  Forall (fun c => c <> 0) k -> Forall (fun c => c <> 0) key ->
  strncmp_eq (length k) (k ++ rest) (key ++ [0]) = Some (bool_decide (k `prefix_of` key)).
Proof.
  intros Hk. revert key. induction Hk as [|c k Hc Hk IH]; intros key Hkey; cbn.
  - by rewrite bool_decide_true by apply prefix_nil.
  - destruct Hkey as [|x key Hx Hkey]; cbn.
    + rewrite (proj2 (Z.eqb_neq c 0)) by done. cbn. rewrite bool_decide_false; [done|]. intros [? [=]].
    + destruct (Z.eqb_spec c x) as [->|Hn]; cbn.
      * rewrite (proj2 (Z.eqb_neq x 0)) by done. rewrite IH by done. f_equal. apply bool_decide_ext. split; [apply prefix_cons|apply prefix_cons_inv_2].
      * rewrite bool_decide_false; [done|]. intros Hp. by apply prefix_cons_inv_1 in Hp.
Qed.

(** ** Buffers *)

Lemma sub_bytes_Some b o n : 0 <= o -> 0 <= n -> o + n <= alen b -> sub_bytes b o n = Some (take (Z.to_nat n) (drop (Z.to_nat o) b)).
Proof. intros. unfold sub_bytes. zcases. Qed.

Lemma put_bytes_Some b o bs : 0 <= o -> o + alen bs <= alen b ->
  put_bytes b o bs = Some (take (Z.to_nat o) b ++ bs ++ drop (Z.to_nat o + length bs) b).
Proof. intros. unfold put_bytes. zcases. Qed.

Lemma length_put b o bs b' : put_bytes b o bs = Some b' -> length b' = length b.
Proof.
  unfold put_bytes, alen. destruct (Z.leb_spec 0 o); [|done]. zcase; [|done]. intros [= <-].
  rewrite !length_app, length_take, length_drop. lia.
Qed.

Lemma put_bytes_ok b o bs b' : put_bytes b o bs = Some b' -> Forall byte_ok b -> Forall byte_ok bs -> Forall byte_ok b'.
Proof.
  unfold put_bytes. destruct (_ && _); [|done]. intros [= <-] Hb Hbs. rewrite !Forall_app. split_and!; [by apply Forall_take|done|by apply Forall_drop].
Qed.

Lemma lookup_put b o bs b' i : put_bytes b o bs = Some b' -> 0 <= o ->
  b' !! i = if decide (Z.to_nat o <= i < Z.to_nat o + length bs)%nat then bs !! (i - Z.to_nat o)%nat else b !! i.
Proof.
  unfold put_bytes, alen. zcase; [|lia]. zcase; [|done]. intros [= <-] _. rewrite lookup_app, length_take. case_decide as Hd.
  - rewrite lookup_take_ge by lia. rewrite lookup_app. rewrite Nat.min_l by lia. destruct (bs !! (i - Z.to_nat o)%nat) eqn:E; [done|]. apply lookup_ge_None in E. lia.
  - destruct (decide (i < Z.to_nat o)%nat).
    + rewrite lookup_take_lt by done. destruct (b !! i) eqn:E; [done|]. apply lookup_ge_None in E. lia.
    + rewrite lookup_take_ge by lia. rewrite Nat.min_l by lia. rewrite lookup_app_r by lia. rewrite lookup_drop. f_equal. lia.
Qed.

Lemma sub_put_same b o bs b' : put_bytes b o bs = Some b' -> 0 <= o -> sub_bytes b' o (alen bs) = Some bs.
Proof.
  intros Hp Ho. pose proof (length_put _ _ _ _ Hp) as Hl. assert (o + alen bs <= alen b) by (revert Hp; unfold put_bytes; zcase; [|lia]; by zcase).
  unfold alen in *. rewrite sub_bytes_Some by (unfold alen; lia). f_equal. apply list_eq. intros i.
  destruct (decide (i < length bs)%nat).
  - rewrite lookup_take_lt, lookup_drop by lia. rewrite (lookup_put _ _ _ _ _ Hp Ho). rewrite decide_True by lia. f_equal. lia.
  - rewrite lookup_take_ge by lia. symmetry. apply lookup_ge_None. lia.
Qed.

Lemma sub_put_other b o bs b' p n : put_bytes b o bs = Some b' -> 0 <= o -> 0 <= p -> p + n <= o \/ o + alen bs <= p -> sub_bytes b' p n = sub_bytes b p n.
Proof.
  intros Hp Ho Hp0 Hd. pose proof (length_put _ _ _ _ Hp) as Hl. unfold sub_bytes, alen. rewrite Hl. destruct (_ && _ && _) eqn:E; [|done]. f_equal.
  apply andb_true_iff in E as [[_ E2%Z.leb_le]%andb_true_iff E3%Z.leb_le]. unfold alen in *. apply list_eq. intros i.
  destruct (decide (i < Z.to_nat n)%nat).
  - rewrite !lookup_take_lt, !lookup_drop by lia. rewrite (lookup_put _ _ _ _ _ Hp Ho). rewrite decide_False by lia. done.
  - by rewrite !lookup_take_ge by lia.
Qed.

(** A part of a part. *)
Lemma sub_sub b n o k bs : sub_bytes b 0 n = Some bs -> 0 <= o -> o + k <= n -> sub_bytes bs o k = sub_bytes b o k.
Proof.
  unfold sub_bytes, alen. cbn. destruct (Z.leb_spec 0 n); [|done]. cbn. zcase; [|done]. rewrite drop_0. intros [= <-] Ho Hk. rewrite length_take.
  destruct (Z.leb_spec 0 o); [|lia]. destruct (Z.leb_spec 0 k); [|done]. cbn. do 2 (zcase; try lia). f_equal. apply list_eq. intros i.
  destruct (decide (i < Z.to_nat k)%nat); [rewrite !lookup_take_lt, !lookup_drop, lookup_take_lt by lia; done|by rewrite !lookup_take_ge by lia].
Qed.

(** ** Blocks that were filled *)

(** The bytes of a block that holds the key [k] and the value [v]. *)
Record kv_block (bs k v : list Z) : Prop := {
  kb_klen : key_len bs = Some (alen k);
  kb_vlen : value_len bs = Some (alen v);
  kb_key : sub_bytes bs sizeof_BlockHeader (alen k) = Some k;
  kb_value : sub_bytes bs (get_kv_block_value (alen k)) (alen v) = Some v;
  kb_crc : check_kv_block_crc32 bs (alen bs) = Some true }.

Lemma block_len_bounds key value :
  8 + alen key + alen value + 4 <= get_kv_block_len key value < 8 + alen key + alen value + 4 + 64 /\ get_kv_block_len key value mod 64 = 0.
Proof. unfold get_kv_block_len, sizeof_BlockHeader, kBlockLengthUnit. pose proof (alen_nonneg key). pose proof (alen_nonneg value). dlia. Qed.

Lemma sub_bytes_length b o n bs : sub_bytes b o n = Some bs -> alen bs = n.
Proof.
  unfold sub_bytes, alen. destruct (Z.leb_spec 0 o); [|done]. destruct (Z.leb_spec 0 n); [|done]. cbn. zcase; [|done]. intros [= <-]. rewrite length_take, length_drop. lia.
Qed.

Lemma sub_bytes_ok b o n bs : sub_bytes b o n = Some bs -> Forall byte_ok b -> Forall byte_ok bs.
Proof. unfold sub_bytes. destruct (_ && _ && _); [|done]. intros [= <-] Hb. by apply Forall_take, Forall_drop. Qed.

Lemma alen_le_bytes n v : alen (le_bytes n v) = Z.of_nat n.
Proof. unfold alen. by rewrite length_le_bytes. Qed.
Lemma alen_strz k : alen (strz k) = alen k.
Proof. unfold alen. by rewrite length_strz. Qed.

Lemma crc_bit_range c : 0 <= c < 2 ^ 32 -> 0 <= crc_bit c < 2 ^ 32.
Proof.
  intros Hc. unfold crc_bit. assert (0 <= Z.shiftr c 1 < 2 ^ 32) by (apply shiftr_range; lia).
  destruct (negb _); [|done]. apply lxor_range; [lia|done|unfold DR_STE_CRC_POLY; lia].
Qed.

Lemma crc_calculate_range bs : Forall byte_ok bs -> 0 <= crc_calculate bs < 2 ^ 32.
Proof.
  intros Hb. unfold crc_calculate. apply lxor_range; [lia| |lia]. assert (0 <= 0xFFFFFFFF < 2 ^ 32) as H by lia. revert H. generalize 0xFFFFFFFF.
  induction Hb as [|b bs Hb Hbs IH]; intros c Hc; [done|]. cbn [foldl]. apply IH. unfold crc_remainder_byte.
  assert (0 <= Z.lxor c b < 2 ^ 32) as Hx by (apply lxor_range; [lia|done|unfold byte_ok in *; lia]). revert Hx. generalize (Z.lxor c b).
  generalize 8%nat. intros n. induction n as [|n IHn]; intros x Hx; [done|]. apply crc_bit_range, IHn, Hx.
Qed.

(** The checksum is over the bytes before it. *)
Lemma update_crc_check b n b' bs :
  update_kv_block_crc32 b n = Some b' -> Forall byte_ok b -> 4 <= n -> sub_bytes b' 0 n = Some bs -> check_kv_block_crc32 bs n = Some true.
Proof.
  unfold update_kv_block_crc32, check_kv_block_crc32, calc_crc32. intros Hu Hb Hn Hs. apply bind_Some in Hu as (c & Hc & Hu). apply bind_Some in Hc as (pre & H & [= <-]).
  rewrite !(sub_sub _ _ _ _ _ Hs) by lia. pose proof (sub_put_same _ _ _ _ Hu ltac:(lia)) as H1. rewrite alen_le_bytes in H1. change (Z.of_nat 4) with 4 in H1. rewrite H1. cbn [mbind option_bind].
  rewrite (sub_put_other _ _ _ _ 0 _ Hu) by lia. rewrite H. cbn [mbind option_bind]. rewrite le_val_le_bytes, Z.mod_small, Z.eqb_refl; [done|].
  apply crc_calculate_range. by eapply sub_bytes_ok.
Qed.

Lemma put_step b o bs n : alen b = n -> Forall byte_ok b -> Forall byte_ok bs -> 0 <= o -> o + alen bs <= n ->
  exists b', put_bytes b o bs = Some b' /\ alen b' = n /\ Forall byte_ok b'.
Proof.
  intros Hb1 Hb2 Hb3 Ho1 Ho2. exists (take (Z.to_nat o) b ++ bs ++ drop (Z.to_nat o + length bs) b).
  assert (put_bytes b o bs = Some (take (Z.to_nat o) b ++ bs ++ drop (Z.to_nat o + length bs) b)) as E by (apply put_bytes_Some; lia).
  split; [done|]. split; [rewrite <- Hb1; unfold alen; f_equal; by eapply length_put|by eapply (put_bytes_ok b o bs)].
Qed.

Lemma update_crc_Some b n : alen b = kMaxBlockLength -> Forall byte_ok b -> 4 <= n <= kMaxBlockLength ->
  exists b' c, update_kv_block_crc32 b n = Some b' /\ put_bytes b (n - 4) (le_bytes 4 c) = Some b' /\ alen b' = kMaxBlockLength /\ Forall byte_ok b'.
Proof.
  intros Hl Hb Hn. unfold update_kv_block_crc32, calc_crc32. rewrite sub_bytes_Some by lia. cbn [mbind option_bind].
  match goal with |- context [put_bytes b (n - 4) (le_bytes 4 ?x)] => set (c := x) end.
  destruct (put_step b (n - 4) (le_bytes 4 c) _ Hl Hb (le_bytes_ok 4 c)) as (b' & E & L & F); [lia|rewrite alen_le_bytes; lia|]. by exists b', c.
Qed.

Lemma fill_block_spec buf key value :
  alen buf = kMaxBlockLength -> Forall byte_ok buf -> Forall byte_ok key -> Forall byte_ok value -> get_kv_block_len key value <= kMaxBlockLength ->
  exists b bs, fill_block buf key value = Some b /\ alen b = kMaxBlockLength /\ Forall byte_ok b /\
  sub_bytes b 0 (get_kv_block_len key value) = Some bs /\ kv_block bs (strz key) (strz value).
Proof.
  intros Hl Hb Hk Hv Hlen. pose proof (block_len_bounds key value) as [Hn _]. unfold fill_block, get_kv_block_value, sizeof_BlockHeader. set (n := get_kv_block_len key value) in *.
  pose proof (alen_nonneg key). pose proof (alen_nonneg value). pose proof (alen_strz key). pose proof (alen_strz value).
  assert (n < 4097) by (unfold kMaxBlockLength in *; lia).
  assert (forall v, 0 <= v < 4097 -> le_val (le_bytes 4 v) = v) as Hval by (intros v Hv'; rewrite le_val_le_bytes; apply Z.mod_small; change (256 ^ Z.of_nat 4) with 4294967296; lia).
  destruct (put_step buf 0 (le_bytes 4 (alen key)) _ Hl Hb (le_bytes_ok _ _)) as (b1 & E1 & L1 & F1); [lia|rewrite alen_le_bytes; lia|]. rewrite E1. cbn [mbind option_bind].
  destruct (put_step b1 4 (le_bytes 4 (alen value)) _ L1 F1 (le_bytes_ok _ _)) as (b2 & E2 & L2 & F2); [lia|rewrite alen_le_bytes; lia|]. rewrite E2. cbn [mbind option_bind].
  assert (forall b o v b', put_bytes b o (le_bytes 4 v) = Some b' -> 0 <= o -> sub_bytes b' o 4 = Some (le_bytes 4 v)) as Hsame by (intros b o v b' E Ho; pose proof (sub_put_same _ _ _ _ E Ho) as E'; by rewrite alen_le_bytes in E').
  pose proof (Hsame _ _ _ _ E2 ltac:(lia)) as S2. pose proof (Hsame _ _ _ _ E1 ltac:(lia)) as S1. rewrite <- (sub_put_other _ _ _ _ 0 4 E2) in S1 by lia.
  assert (key_len b2 = Some (alen key)) as -> by (unfold key_len; rewrite S1; cbn [mbind option_bind]; by rewrite Hval by lia). cbn [mbind option_bind].
  destruct (put_step b2 8 (strz key) _ L2 F2 (strz_bytes _ Hk)) as (b3 & E3 & L3 & F3); [lia|lia|]. rewrite E3. cbn [mbind option_bind].
  destruct (put_step b3 (8 + alen key) (strz value) _ L3 F3 (strz_bytes _ Hv)) as (b4 & E4 & L4 & F4); [lia|lia|]. rewrite E4. cbn [mbind option_bind].
  destruct (update_crc_Some b4 n L4 F4 ltac:(lia)) as (b & c & Eu & E5 & L5 & F5). exists b.
  exists (take (Z.to_nat n) (drop (Z.to_nat 0) b)). assert (sub_bytes b 0 n = Some (take (Z.to_nat n) (drop (Z.to_nat 0) b))) as Hs by (apply sub_bytes_Some; lia).
  set (bs := take _ _) in *. assert (alen bs = n) as Lbs by (eapply sub_bytes_length; exact Hs). split_and!; try done.
  assert (forall o k, 0 <= o -> o + k <= n - 4 -> sub_bytes bs o k = sub_bytes b4 o k) as Hsub by (intros o k Ho Hok; rewrite (sub_sub _ _ _ _ _ Hs) by lia; rewrite (sub_put_other _ _ _ _ o k E5) by (rewrite ?alen_le_bytes; lia); done).
  split.
  - unfold key_len. rewrite Hsub, (sub_put_other _ _ _ _ 0 4 E4), (sub_put_other _ _ _ _ 0 4 E3), S1 by lia. cbn [mbind option_bind]. rewrite Hval by lia. f_equal. lia.
  - unfold value_len. rewrite Hsub, (sub_put_other _ _ _ _ 4 4 E4), (sub_put_other _ _ _ _ 4 4 E3), S2 by lia. cbn [mbind option_bind]. rewrite Hval by lia. f_equal. lia.
  - unfold sizeof_BlockHeader. rewrite Hsub, (sub_put_other _ _ _ _ 8 _ E4) by lia. by apply sub_put_same with b2.
  - unfold get_kv_block_value, sizeof_BlockHeader. rewrite Hsub by lia. replace (alen (strz key)) with (alen key) by lia. apply sub_put_same with b3; [done|lia].
  - rewrite Lbs. eapply update_crc_check; try done; lia.
Qed.

(** ** Blocks that are read *)

(** A buffer that starts with a block. *)
Lemma sub_prefix b bs o k : sub_bytes b 0 (alen bs) = Some bs -> 0 <= o -> o + k <= alen bs -> sub_bytes b o k = sub_bytes bs o k.
Proof. intros H Ho Hk. symmetry. by eapply sub_sub. Qed.

Lemma sub_bytes_fits b o n x : sub_bytes b o n = Some x -> 0 <= o /\ 0 <= n /\ o + n <= alen b.
Proof. unfold sub_bytes. destruct (Z.leb_spec 0 o); [|done]. destruct (Z.leb_spec 0 n); [|done]. cbn. by zcase. Qed.

(** The value of a block, if its key is a prefix of the key that is looked for. *)
Lemma match_block_spec b bs k v key :
  sub_bytes b 0 (alen bs) = Some bs -> kv_block bs k v -> Forall (fun c => c <> 0) k -> Forall (fun c => c <> 0) key ->
  match_block b key = Some (if bool_decide (k `prefix_of` key) then Some v else None).
Proof.
  intros Hs [Hkl Hvl Hk Hv _] H0 H1. unfold match_block. pose proof (sub_bytes_fits _ _ _ _ Hk) as Fk. pose proof (sub_bytes_fits _ _ _ _ Hv) as Fv. pose proof (sub_bytes_fits _ _ _ _ Hs) as Fs.
  unfold get_kv_block_value, sizeof_BlockHeader in *.
  assert (key_len b = Some (alen k)) as -> by (unfold key_len in *; by rewrite (sub_prefix _ _ _ _ Hs) by lia). cbn [mbind option_bind].
  assert (value_len b = Some (alen v)) as -> by (unfold value_len in *; by rewrite (sub_prefix _ _ _ _ Hs) by lia). cbn [mbind option_bind].
  rewrite <- (sub_prefix _ _ _ _ Hs) in Hk by lia. rewrite <- (sub_prefix _ _ _ _ Hs) in Hv by lia. rewrite sub_bytes_Some in Hk by lia. injection Hk as Hk.
  assert (strncmp_eq (Z.to_nat (alen k)) (drop 8 b) (key ++ [0]) = Some (bool_decide (k `prefix_of` key))) as ->.
  { rewrite <- (take_drop (Z.to_nat (alen k)) (drop 8 b)). change (Z.to_nat 8) with 8%nat in Hk. rewrite Hk. unfold alen. rewrite Nat2Z.id. by apply strncmp_eq_prefix. }
  cbn [mbind option_bind]. destruct (bool_decide _); [|done]. unfold sizeof_BlockHeader. by rewrite Hv.
Qed.

Lemma check_prefix b bs : sub_bytes b 0 (alen bs) = Some bs -> 4 <= alen bs -> check_kv_block_crc32 b (alen bs) = check_kv_block_crc32 bs (alen bs).
Proof. intros Hs Hl. unfold check_kv_block_crc32, calc_crc32. by rewrite !(sub_prefix _ _ _ _ Hs) by lia. Qed.

Lemma block_key_prefix b bs k v : sub_bytes b 0 (alen bs) = Some bs -> kv_block bs k v -> (n ← key_len b; sub_bytes b sizeof_BlockHeader n) = Some k.
Proof.
  intros Hs [Hkl _ Hk _ _]. pose proof (sub_bytes_fits _ _ _ _ Hk) as Fk. unfold sizeof_BlockHeader in *.
  assert (key_len b = Some (alen k)) as -> by (unfold key_len in *; by rewrite (sub_prefix _ _ _ _ Hs) by lia). cbn [mbind option_bind]. by rewrite (sub_prefix _ _ _ _ Hs) by lia.
Qed.

(** A block is that of one key and one value. *)
Lemma kv_block_inj bs k v k' v' : kv_block bs k v -> kv_block bs k' v' -> k = k' /\ v = v'.
Proof. intros [A1 A2 A3 A4 _] [B1 B2 B3 B4 _]. rewrite A1 in B1. injection B1 as B1. rewrite A2 in B2. injection B2 as B2. rewrite B1, B2 in *. split; congruence. Qed.

(** C37: A block reads back as it was written.  Whatever the buffer held, a key
    and a value that fit are written, the checksum of the block is accepted, and
    a lookup finds the value, cut by [strncpy] at its first NUL and padded, for
    exactly the keys that begin with the key stored. *)
Theorem block_roundtrip buf key value key' :
  alen buf = kMaxBlockLength -> Forall byte_ok buf -> Forall byte_ok key -> Forall (fun c => c <> 0) key -> Forall byte_ok value -> get_kv_block_len key value <= kMaxBlockLength ->
  Forall (fun c => c <> 0) key' ->
  exists b, fill_block buf key value = Some b /\ check_kv_block_crc32 b (get_kv_block_len key value) = Some true /\
  match_block b key' = Some (if bool_decide (key `prefix_of` key') then Some (strz value) else None).
Proof.
  intros Hl Hb Hk H0 Hv Hn H1. destruct (fill_block_spec buf key value Hl Hb Hk Hv Hn) as (b & bs & E & _ & _ & Hs & Hkv). pose proof (sub_bytes_length _ _ _ _ Hs) as Hlen.
  pose proof (block_len_bounds key value) as [Hbl _]. pose proof (alen_nonneg key). pose proof (alen_nonneg value). rewrite (strz_id key H0) in Hkv. rewrite <- Hlen in Hs |- *.
  exists b. split; [exact E|]. split; [|exact (match_block_spec b bs key (strz value) key' Hs Hkv H0 H1)]. rewrite (check_prefix b bs Hs) by lia. exact (kb_crc _ _ _ Hkv).
Qed.

Lemma block_roundtrip_witness : exists b, fill_block (replicate 4096 7) [107; 49] [49; 50; 0; 51] = Some b /\ check_kv_block_crc32 b (get_kv_block_len [107; 49] [49; 50; 0; 51]) = Some true /\
  match_block b [107; 49; 57] = Some (if bool_decide ([107; 49] `prefix_of` [107; 49; 57]) then Some (strz [49; 50; 0; 51]) else None).
Proof.
  assert (forall l, Forall (fun c => 0 < c < 256) l -> Forall byte_ok l /\ Forall (fun c => c <> 0) l) as Hl by (intros l Hl; split; eapply Forall_impl; [exact Hl|unfold byte_ok; lia|exact Hl|cbn; lia]).
  assert (Forall (fun c => 0 < c < 256) [107; 49; 57]) as H3 by (repeat apply Forall_cons_2; try apply Forall_nil_2; lia). assert (Forall (fun c => 0 < c < 256) [107; 49]) as H2 by (repeat apply Forall_cons_2; try apply Forall_nil_2; lia).
  apply (block_roundtrip (replicate 4096 7) [107; 49] [49; 50; 0; 51] [107; 49; 57]).
  - reflexivity.
  - apply Forall_replicate. unfold byte_ok. lia.
  - by apply Hl.
  - by apply Hl.
  - repeat apply Forall_cons_2; try apply Forall_nil_2; unfold byte_ok; lia.
  - by apply Z.leb_le.
  - by apply Hl.
Defined.
