(* ===== verification/HashTable.v ===== *)
(** fusioncas/smart_ht/hashtable.h, hashtable.cpp: the remote hash table.

    The table lies in the memory of a node and is read and written by clients
    with one-sided operations: a directory of subtables indexed by the low bits
    of the first hash, subtables of buckets with seven slots, and blocks with
    the keys and values that the slots point to.  The functions here are those
    of a client; a computation takes the state of the client and the memory of
    the node and returns a value and a new state, or the reason for which it
    does not return.  The other threads are silent while an operation runs. *)

From S2P Require Import Prelude Mem HtBlock.

(** ** Computations *)

(** Why a computation does not return: the assertions on the result of an
    allocation and on the size of the directory, any other assertion, undefined
    behaviour, a loop that waits for another thread. *)
Inductive stop := NoMemory | DirectoryFull | Assertion | Undefined | Hang.

Definition comp (S A : Type) : Type := S -> (A * S) + stop.

#[export] Instance comp_ret S : MRet (comp S) := fun A a s => inl (a, s).
#[export] Instance comp_bind S : MBind (comp S) := fun A B k m s =>
  match m s with inl (a, s') => k a s' | inr w => inr w end.

Definition stopped {S A} (w : stop) : comp S A := fun _ => inr w.
Definition gets {S A} (f : S -> A) : comp S A := fun s => inl (f s, s).
Definition modify {S} (f : S -> S) : comp S unit := fun s => inl (tt, f s).

(** A value that is absent if the access is undefined. *)
Definition defined {S A} (o : option A) : comp S A := match o with Some a => mret a | None => stopped Undefined end.
Definition assert_ {S} (b : bool) (w : stop) : comp S unit := if b then mret tt else stopped w.

(** [1 << d] in an [int]. *)
Definition shift1 {S} (d : Z) : comp S Z := if (0 <=? d) && (d <? 31) then mret (2 ^ d) else stopped Undefined.

(** A loop over a list, and one over [n] numbers from [i]. *)
Fixpoint for_each {S A} (l : list A) (f : A -> comp S unit) : comp S unit :=
  match l with [] => mret tt | x :: l => f x;; for_each l f end.

(** ** What the table uses of the runtime *)

(** [alloc_memory] and [free_memory] of the initiator; an allocation returns the
    offset of the block in the memory of the node, or nothing. *)
Class Initiator (A : Type) := {
  in_alloc : A -> Z -> option (option Z * A);
  in_free : A -> Z -> Z -> option A }.

(** ** Layout *)

(** The constants of the table that depend on the installation. *)
Record geometry := Geometry { kMainBuckets : Z; kInitialDepth : Z; kMaxGlobalDepth : Z }.
Definition smart_geometry : geometry := Geometry 200000 10 12.

Definition kAssociatedWays : Z := 7.
Definition sizeof_Bucket : Z := 64.
Definition kTotalBuckets (g : geometry) : Z := kMainBuckets g / 2 * 3.
Definition kMaxSubTables (g : geometry) : Z := 2 ^ kMaxGlobalDepth g.
Definition sizeof_Directory (g : geometry) : Z := 8 + 8 * kMaxSubTables g + 8.
Definition sizeof_SubTable (g : geometry) : Z := kTotalBuckets g * sizeof_Bucket.
Definition kGlobalDepthLockedBit : Z := 2 ^ 63.
Definition ENOENT : Z := 2.
Definition EAGAIN : Z := 11.

(** [union SubTableEntry]. *)
Definition e_lock (e : Z) : Z := e mod 2 ^ 8.
Definition e_depth (e : Z) : Z := e / 2 ^ 8 mod 2 ^ 8.
Definition e_pointer (e : Z) : Z := e / 2 ^ 16 mod 2 ^ 48.
Definition mk_entry (lock depth pointer : Z) : Z := lock mod 2 ^ 8 + 2 ^ 8 * (depth mod 2 ^ 8) + 2 ^ 16 * (pointer mod 2 ^ 48).

(** [union Slot]. *)
Definition s_fp (s : Z) : Z := s mod 2 ^ 8.
Definition s_len (s : Z) : Z := s / 2 ^ 8 mod 2 ^ 8.
Definition s_pointer (s : Z) : Z := s / 2 ^ 16 mod 2 ^ 48.
Definition mk_slot (fp len pointer : Z) : Z := fp mod 2 ^ 8 + 2 ^ 8 * (len mod 2 ^ 8) + 2 ^ 16 * (pointer mod 2 ^ 48).

Record Directory := MkDirectory { global_depth : Z; subtables : list Z; global_lock : Z }.
Record Bucket := MkBucket { local_depth : Z; suffix : Z; slots : list Z }.

(** What the memory holds at an address. *)
Definition bucket_at (m : mem) (a : Z) : Bucket :=
  MkBucket (ld_le 4 m a) (ld_le 4 m (a + 4)) ((fun j => ld_le 8 m (a + 8 + 8 * j)) <$> seqZ 0 kAssociatedWays).
Definition directory_at (g : geometry) (m : mem) (a : Z) : Directory :=
  MkDirectory (ld_le 8 m a) ((fun i => ld_le 8 m (a + 8 + 8 * i)) <$> seqZ 0 (kMaxSubTables g)) (ld_le 8 m (a + 8 + 8 * kMaxSubTables g)).
Definition subtable_at (g : geometry) (m : mem) (a : Z) : list Bucket :=
  (fun b => bucket_at m (a + sizeof_Bucket * b)) <$> seqZ 0 (kTotalBuckets g).

Definition bucket_bytes (b : Bucket) : list Z :=
  le_bytes 4 (local_depth b) ++ le_bytes 4 (suffix b) ++ concat (le_bytes 8 <$> slots b).

(** [BucketDesc]: the index of the buffer that holds the bucket, and its address. *)
Record BucketDesc := Desc { buf : Z; addr : Z }.

(** A client: the memory of the node, the allocator, and what the structures
    [TaskLocal] and [ThreadLocal] and the key cache hold. *)
Record table (A : Type) := Table {
  t_mem : mem;
  t_node : A;
  t_dir : Directory;
  t_bufs : list Bucket;
  t_block : list Z;
  t_cache : list (option (list Z * (Z * Z)));
  t_old : option (list Bucket);
  t_new : option (list Bucket);
  resize_lock : Z;
  resize_lock_cnt : Z;
  resize_suffix : Z }.
Arguments Table {A}.
Arguments t_mem {A}. Arguments t_node {A}. Arguments t_dir {A}. Arguments t_bufs {A}. Arguments t_block {A}.
Arguments t_cache {A}. Arguments t_old {A}. Arguments t_new {A}.
Arguments resize_lock {A}. Arguments resize_lock_cnt {A}. Arguments resize_suffix {A}.

Definition set_mem {A} (s : table A) m := Table m (t_node s) (t_dir s) (t_bufs s) (t_block s) (t_cache s) (t_old s) (t_new s) (resize_lock s) (resize_lock_cnt s) (resize_suffix s).
Definition set_node {A} (s : table A) (n : A) := Table (t_mem s) n (t_dir s) (t_bufs s) (t_block s) (t_cache s) (t_old s) (t_new s) (resize_lock s) (resize_lock_cnt s) (resize_suffix s).
Definition set_dir {A} (s : table A) d := Table (t_mem s) (t_node s) d (t_bufs s) (t_block s) (t_cache s) (t_old s) (t_new s) (resize_lock s) (resize_lock_cnt s) (resize_suffix s).
Definition set_bufs {A} (s : table A) b := Table (t_mem s) (t_node s) (t_dir s) b (t_block s) (t_cache s) (t_old s) (t_new s) (resize_lock s) (resize_lock_cnt s) (resize_suffix s).
Definition set_block {A} (s : table A) b := Table (t_mem s) (t_node s) (t_dir s) (t_bufs s) b (t_cache s) (t_old s) (t_new s) (resize_lock s) (resize_lock_cnt s) (resize_suffix s).
Definition set_cache {A} (s : table A) c := Table (t_mem s) (t_node s) (t_dir s) (t_bufs s) (t_block s) c (t_old s) (t_new s) (resize_lock s) (resize_lock_cnt s) (resize_suffix s).
Definition set_tables {A} (s : table A) o n := Table (t_mem s) (t_node s) (t_dir s) (t_bufs s) (t_block s) (t_cache s) o n (resize_lock s) (resize_lock_cnt s) (resize_suffix s).
Definition set_resize {A} (s : table A) l c x := Table (t_mem s) (t_node s) (t_dir s) (t_bufs s) (t_block s) (t_cache s) (t_old s) (t_new s) l c x.

Section Client.

(** The runtime, the constants, the size of the registered memory, the offset of
    the directory, [std::hash], the option [use_speculative_lookup], the number
    of the task, and a bound on retries. *)
Context {A : Type} `{Initiator A} (g : geometry) (region dir_addr : Z) (std_hash : list Z -> Z) (fast_search_ : bool) (task : Z) (spin : nat).

Abbreviation C := (comp (table A)).

(** ** One-sided operations *)

Definition in_region (a n : Z) : bool := (0 <=? a) && (a + n <=? region).

(** [read], [write] and [compare_and_swap] of the initiator, with their
    [assert(!rc)]. *)
Definition read_with {T} (f : mem -> T) (a n : Z) : C T := assert_ (in_region a n) Assertion;; gets (fun s => f (t_mem s)).
Definition read_bytes (a n : Z) : C (list Z) := read_with (fun m => load_bytes m a (Z.to_nat n)) a n.
Definition write_bytes (a : Z) (bs : list Z) : C unit :=
  assert_ (in_region a (alen bs)) Assertion;; modify (fun s => set_mem s (store_bytes (t_mem s) a bs)).
Definition compare_and_swap (a old new : Z) : C Z :=
  cur ← read_with (fun m => ld_le 8 m a) a 8;
  (if cur =? old then write_bytes a (le_bytes 8 new) else mret tt);;
  mret cur.

(** The result of [atomic_update_slot] and what it leaves in the slot's buffer. *)
Definition atomic_update_slot (a slot new_val : Z) : C (Z * Z) :=
  cur ← compare_and_swap a slot new_val;
  mret (if slot =? cur then 0 else EAGAIN, cur).

(** ** Key cache *)

Definition cache_idx (key : list Z) (c : list (option (list Z * (Z * Z)))) : Z := std_hash key mod alen c.
Definition cache_add (key : list Z) (a slot : Z) : C unit :=
  c ← gets t_cache; c ← defined (aset c (cache_idx key c) (Some (key, (a, slot)))); modify (fun s => set_cache s c).
Definition cache_find (key : list Z) : C (option (Z * Z)) :=
  c ← gets t_cache; e ← defined (c.[cache_idx key c]);
  mret (match e with Some (k, x) => if decide (k = key) then Some x else None | None => None end).
Definition cache_erase (key : list Z) : C unit :=
  c ← gets t_cache; c ← defined (aset c (cache_idx key c) None); modify (fun s => set_cache s c).

(** ** Directory and buckets *)

Fixpoint read_directory_loop (fuel : nat) : C unit :=
  match fuel with
  | O => stopped Hang
  | S fuel =>
    d ← read_with (fun m => directory_at g m dir_addr) dir_addr (sizeof_Directory g);
    modify (fun s => set_dir s d);;
    if negb (Z.land (global_depth d) kGlobalDepthLockedBit =? 0) then read_directory_loop fuel else mret tt
  end.
Definition read_directory : C unit := read_directory_loop spin.

Definition entry_addr (i : Z) : Z := dir_addr + 8 + 8 * i.
Definition get_entry (i : Z) : C Z := d ← gets t_dir; defined ((subtables d).[i]).
Definition set_entry (i e : Z) : C unit :=
  d ← gets t_dir; l ← defined (aset (subtables d) i e); modify (fun s => set_dir s (MkDirectory (global_depth d) l (global_lock d))).

Definition subtable_idx (hash : Z * Z) : C Z := d ← gets t_dir; n ← shift1 (global_depth d); mret (fst hash mod n).

Definition bucket_addr (pointer h : Z) : Z := pointer + h mod kMainBuckets g / 2 * 3 * sizeof_Bucket.
Definition first_desc (pointer i h : Z) : BucketDesc :=
  if h mod kMainBuckets g mod 2 =? 0 then Desc (2 * i) (bucket_addr pointer h) else Desc (2 * i + 1) (bucket_addr pointer h + sizeof_Bucket).
Definition second_desc (pointer i h : Z) : BucketDesc :=
  if h mod kMainBuckets g mod 2 =? 0 then Desc (2 * i + 1) (bucket_addr pointer h + sizeof_Bucket) else Desc (2 * i) (bucket_addr pointer h).
(** h1, h2, h1_overflow, h2_overflow. *)
Definition bucket_descs (pointer : Z) (hash : Z * Z) : list BucketDesc :=
  [first_desc pointer 0 (fst hash); first_desc pointer 1 (snd hash); second_desc pointer 0 (fst hash); second_desc pointer 1 (snd hash)].

Definition read_group (pointer i h : Z) : C unit :=
  let a := bucket_addr pointer h in
  bs ← read_with (fun m => (bucket_at m a, bucket_at m (a + sizeof_Bucket))) a (sizeof_Bucket * 2);
  l ← gets t_bufs;
  l ← defined (l ← aset l (2 * i) (fst bs); aset l (2 * i + 1) (snd bs));
  modify (fun s => set_bufs s l).

Definition get_buf (d : BucketDesc) : C Bucket := l ← gets t_bufs; defined (l.[buf d]).

(** The bucket was split since the directory was read, and the key moved.
    [search] and [insert] shift before they compare the depths. *)
Definition bucket_moved (early : bool) (depth : Z) (hash : Z * Z) (d : BucketDesc) : C bool :=
  b ← get_buf d;
  (if early then _ ← shift1 (local_depth b); mret tt else mret tt);;
  if local_depth b =? depth then mret false else
  n ← shift1 (local_depth b);
  mret (negb (suffix b =? fst hash mod n)).

Fixpoint any_moved (early : bool) (depth : Z) (hash : Z * Z) (ds : list BucketDesc) : C bool :=
  match ds with
  | [] => mret false
  | d :: ds => b ← bucket_moved early depth hash d; if b : bool then mret true else any_moved early depth hash ds
  end.

(** The entry of the directory again, until it is not locked. *)
Fixpoint read_entry_loop (fuel : nat) (i : Z) : C unit :=
  match fuel with
  | O => stopped Hang
  | S fuel =>
    e ← read_with (fun m => ld_le 8 m (entry_addr i)) (entry_addr i) 8;
    set_entry i e;;
    if e_lock e =? 0 then mret tt else read_entry_loop fuel i
  end.

Fixpoint read_bucket_loop (fuel : nat) (hash : Z * Z) (suffix_check : bool) : C (list BucketDesc) :=
  match fuel with
  | O => stopped Hang
  | S fuel =>
    i ← subtable_idx hash;
    e ← get_entry i;
    let ds := bucket_descs (e_pointer e) hash in
    read_group (e_pointer e) 0 (fst hash);;
    read_group (e_pointer e) 1 (snd hash);;
    if negb suffix_check then mret ds else
    b ← any_moved false (e_depth e) hash ds;
    if b : bool then
      read_directory;; read_entry_loop spin i;; read_bucket_loop fuel hash suffix_check
    else mret ds
  end.
Definition read_bucket (hash : Z * Z) (suffix_check : bool) : C (list BucketDesc) := read_bucket_loop spin hash suffix_check.

(** The slots in the order of the loops over [i] and [j]. *)
Definition slot_list (ds : list BucketDesc) : list (BucketDesc * Z) := ds ≫= (fun d => (fun j => (d, j)) <$> seqZ 0 kAssociatedWays).
Definition get_slot_addr (d : BucketDesc) (j : Z) : Z := addr d + 8 + j * 8.
Definition slot_raw (d : BucketDesc) (j : Z) : C Z := b ← get_buf d; defined ((slots b).[j]).

(** ** Blocks *)

Definition load_block (pointer block_len : Z) : C (list Z) :=
  bs ← read_bytes pointer block_len;
  b ← gets t_block;
  b ← defined (put_bytes b 0 bs);
  modify (fun s => set_block s b);; mret b.

(** With [retry] the block is read until its checksum is right; its value, if
    the key matches. *)
Definition read_block (key : list Z) (slot : Z) (retry : bool) : C (option (list Z)) :=
  let block_len := s_len slot * kBlockLengthUnit in
  assert_ (negb (block_len =? 0)) Assertion;;
  b ← load_block (s_pointer slot) block_len;
  ok ← defined (check_kv_block_crc32 b block_len);
  if ok : bool then defined (match_block b key) else if retry then stopped Hang else mret None.

(** The slot and the offset of the new block. *)
Definition write_block (key value : list Z) : C (Z * Z) :=
  let block_len := get_kv_block_len key value in
  n ← gets t_node;
  r ← defined (in_alloc n block_len);
  modify (fun s => set_node s (snd r));;
  match fst r with
  | None => stopped NoMemory
  | Some a =>
    b ← gets t_block;
    b ← defined (fill_block b key value);
    modify (fun s => set_block s b);;
    bs ← defined (sub_bytes b 0 block_len);
    write_bytes a bs;;
    mret (mk_slot (get_fingerprint (fst (hash_function key))) (block_len / kBlockLengthUnit) a, a)
  end.

(** ** Search *)

Fixpoint holds_slot (slot : Z) (fp : Z) (l : list Z) : bool :=
  match l with
  | [] => false
  | x :: l => (negb (x =? 0) && (s_fp x =? fp) && (x =? slot)) || holds_slot slot fp l
  end.

Definition fast_search (key : list Z) : C (option (list Z)) :=
  if negb fast_search_ then mret None else
  e ← cache_find key;
  match e with
  | None => mret None
  | Some (a, slot) =>
    b ← read_with (fun m => bucket_at m a) a sizeof_Bucket;
    l ← gets t_bufs;
    l ← defined (aset l 0 b);
    modify (fun s => set_bufs s l);;
    v ← read_block key slot false;
    match v with
    | None => cache_erase key;; mret None
    | Some v =>
      if holds_slot slot (get_fingerprint (fst (hash_function key))) (slots b) then mret (Some v)
      else cache_erase key;; mret None
    end
  end.

(** The first slot with the key, the bucket it is in, its address and the value. *)
Fixpoint find_entry (key : list Z) (fp : Z) (l : list (BucketDesc * Z)) : C (option (BucketDesc * Z * Z * list Z)) :=
  match l with
  | [] => mret None
  | (d, j) :: l =>
    x ← slot_raw d j;
    if negb (x =? 0) && (s_fp x =? fp) then
      v ← read_block key x true;
      match v with
      | Some v => mret (Some (d, get_slot_addr d j, x, v))
      | None => find_entry key fp l
      end
    else find_entry key fp l
  end.

Fixpoint search_loop (fuel : nat) (key : list Z) (hash : Z * Z) (retry_flag : bool) : C (option (list Z)) :=
  match fuel with
  | O => stopped Hang
  | S fuel =>
    i ← subtable_idx hash;
    e ← get_entry i;
    ds ← read_bucket hash false;
    r ← find_entry key (get_fingerprint (fst hash)) (slot_list ds);
    match r with
    | Some (d, _, x, v) => (if fast_search_ then cache_add key (addr d) x else mret tt);; mret (Some v)
    | None =>
      if retry_flag then mret None else
      b ← any_moved true (e_depth e) hash ds;
      if b : bool then read_directory;; search_loop fuel key hash true else mret None
    end
  end.

(** The value, or ENOENT. *)
Definition search (key : list Z) : C (option (list Z)) :=
  v ← fast_search key;
  match v with
  | Some v => mret (Some v)
  | None => search_loop 2 key (hash_function key) false
  end.

(** ** Update, read-modify-write, remove *)

Fixpoint update_loop (fuel : nat) (key : list Z) (new_slot : Z) : C Z :=
  match fuel with
  | O => stopped Hang
  | S fuel =>
    let hash := hash_function key in
    ds ← read_bucket hash true;
    r ← find_entry key (get_fingerprint (fst hash)) (slot_list ds);
    match r with
    | None => mret ENOENT
    | Some (_, a, x, _) =>
      rc ← atomic_update_slot a x new_slot;
      if fst rc =? 0 then mret 0 else update_loop fuel key new_slot
    end
  end.
Definition update (key value : list Z) : C Z := x ← write_block key value; update_loop spin key (fst x).

Fixpoint rmw_loop (fuel : nat) (key : list Z) (transform : list Z -> list Z) : C Z :=
  match fuel with
  | O => stopped Hang
  | S fuel =>
    let hash := hash_function key in
    ds ← read_bucket hash true;
    r ← find_entry key (get_fingerprint (fst hash)) (slot_list ds);
    match r with
    | None => mret ENOENT
    | Some (_, a, x, old_value) =>
      let value := transform old_value in
      new ← write_block key value;
      rc ← atomic_update_slot a x (fst new);
      if fst rc =? 0 then mret 0 else
      n ← gets t_node;
      n ← defined (in_free n (snd new) (get_kv_block_len key value));
      modify (fun s => set_node s n);;
      rmw_loop fuel key transform
    end
  end.
Definition rmw (key : list Z) (transform : list Z -> list Z) : C Z := rmw_loop spin key transform.

Fixpoint remove_loop (fuel : nat) (key : list Z) : C Z :=
  match fuel with
  | O => stopped Hang
  | S fuel =>
    let hash := hash_function key in
    ds ← read_bucket hash true;
    r ← find_entry key (get_fingerprint (fst hash)) (slot_list ds);
    match r with
    | None => mret ENOENT
    | Some (_, a, x, _) =>
      rc ← atomic_update_slot a x 0;
      if fst rc =? 0 then mret 0 else remove_loop fuel key
    end
  end.
Definition remove (key : list Z) : C Z := remove_loop spin key.

(** ** Locks of the directory *)

Fixpoint lock_subtable_loop (fuel : nat) (i : Z) : C unit :=
  match fuel with
  | O => stopped Hang
  | S fuel =>
    e ← get_entry i;
    let old_entry := mk_entry 0 (e_depth e) (e_pointer e) in
    let new_entry := mk_entry 1 (e_depth e) (e_pointer e) in
    cur ← compare_and_swap (entry_addr i) old_entry new_entry;
    if cur =? old_entry then set_entry i new_entry else set_entry i cur;; lock_subtable_loop fuel i
  end.
Definition lock_subtable (i : Z) : C unit := lock_subtable_loop spin i.

Definition write_entry (i : Z) : C unit := e ← get_entry i; write_bytes (entry_addr i) (le_bytes 8 e).

Definition unlock_subtable (i : Z) : C unit :=
  e ← get_entry i; set_entry i (mk_entry 0 (e_depth e) (e_pointer e));; write_entry i.

(** ** Resizing *)

(** The entries from [i] in steps, below [max_suffix]. *)
Definition suffixes (i step max_suffix : Z) : list Z :=
  (fun k => i + step * k) <$> seqZ 0 ((max_suffix - i + step - 1) / step).

Definition fix_entry (depth : Z) (pointer : option Z) (i : Z) : C unit :=
  old_val ← get_entry i;
  if (depth <? e_depth old_val) || negb (e_lock old_val =? 0) then mret tt else
  let new_val := mk_entry 0 (depth + 1) (default (e_pointer old_val) pointer) in
  cur ← compare_and_swap (entry_addr i) old_val new_val;
  set_entry i (if cur =? old_val then new_val else cur).

Definition fix_local_depth (old_suffix global_depth depth : Z) : C unit :=
  n ← shift1 depth;
  max_suffix ← shift1 global_depth;
  step ← shift1 (1 + depth);
  for_each (suffixes (old_suffix + step) step max_suffix) (fix_entry depth None);;
  e ← get_entry (old_suffix + n);
  for_each (suffixes (old_suffix + n + step) step max_suffix) (fix_entry depth (Some (e_pointer e))).

(** The copy of the lower half of the directory in [resize_directory]. *)
Definition copy_entry (n i : Z) : C unit := e ← get_entry i; set_entry (i + n) (mk_entry 0 (e_depth e) (e_pointer e)).

Fixpoint resize_directory_loop (fuel : nat) (old_depth old_global_depth : Z) : C unit :=
  match fuel with
  | O => stopped Hang
  | S fuel =>
    let new_global_depth := old_global_depth + 1 in
    assert_ (new_global_depth <=? kMaxGlobalDepth g) DirectoryFull;;
    cur ← compare_and_swap dir_addr old_global_depth (Z.lor new_global_depth kGlobalDepthLockedBit);
    d ← read_with (fun m => directory_at g m dir_addr) dir_addr (sizeof_Directory g);
    modify (fun s => set_dir s d);;
    if cur =? old_global_depth then
      let n := 2 ^ old_global_depth in
      modify (fun s => set_dir s (MkDirectory new_global_depth (subtables (t_dir s)) (global_lock (t_dir s))));;
      for_each (seqZ 0 n) (copy_entry n);;
      d ← gets t_dir;
      write_bytes (entry_addr n) (concat (le_bytes 8 <$> take (Z.to_nat n) (drop (Z.to_nat n) (subtables d))));;
      write_bytes dir_addr (le_bytes 8 (global_depth d))
    else
      let old_global_depth := Z.land cur (notu 64 kGlobalDepthLockedBit) in
      if old_depth <=? old_global_depth then mret tt else resize_directory_loop fuel old_depth old_global_depth
  end.
Definition resize_directory (old_depth : Z) : C unit := resize_directory_loop spin old_depth old_depth.

(** The client's copies of the two subtables. *)
Definition get_bucket (f : table A -> option (list Bucket)) (i : Z) : C Bucket := l ← gets f; defined (l ← l; l.[i]).
Definition set_old_bucket (i : Z) (b : Bucket) : C unit :=
  l ← gets t_old; l ← defined (l ← l; aset l i b); modify (fun s => set_tables s (Some l) (t_new s)).
Definition set_new_bucket (i : Z) (b : Bucket) : C unit :=
  l ← gets t_new; l ← defined (l ← l; aset l i b); modify (fun s => set_tables s (t_old s) (Some l)).
Definition set_slot (b : Bucket) (j x : Z) : C Bucket := l ← defined (aset (slots b) j x); mret (MkBucket (local_depth b) (suffix b) l).

Definition table_slot_addr (pointer i j : Z) : Z := pointer + sizeof_Bucket * i + 8 + 8 * j.

(** [atomic_update_slot] on a slot of the old or the new table, whose copy
    receives the value the memory had. *)
Definition update_old (pointer i j new_val : Z) : C (Z * Z) :=
  b ← get_bucket t_old i; x ← defined ((slots b).[j]);
  r ← atomic_update_slot (table_slot_addr pointer i j) x new_val;
  b ← set_slot b j (snd r); set_old_bucket i b;; mret r.
Definition update_new (pointer i j new_val : Z) : C (Z * Z) :=
  b ← get_bucket t_new i; x ← defined ((slots b).[j]);
  r ← atomic_update_slot (table_slot_addr pointer i j) x new_val;
  b ← set_slot b j (snd r); set_new_bucket i b;; mret r.

(** The key of the block a slot points to. *)
Definition read_key (slot : Z) : C (list Z) :=
  let block_len := s_len slot * kBlockLengthUnit in
  b ← load_block (s_pointer slot) block_len;
  ok ← defined (check_kv_block_crc32 b block_len);
  if ok : bool then defined (n ← key_len b; sub_bytes b sizeof_BlockHeader n) else stopped Hang.

(** The first slot of the new bucket that takes [x]. *)
Fixpoint place_slot (pointer i x : Z) (new_ids : list Z) : C (option Z) :=
  match new_ids with
  | [] => mret None
  | j :: new_ids =>
    b ← get_bucket t_new i; y ← defined ((slots b).[j]);
    if negb (y =? 0) then place_slot pointer i x new_ids else
    r ← update_new pointer i j x;
    if fst r =? 0 then mret (Some j) else place_slot pointer i x new_ids
  end.

(** The slots copied to the new bucket, as pairs of old and new index. *)
Fixpoint copy_slots (pointer i n new_suffix : Z) (old_ids : list Z) : C (list (Z * Z)) :=
  match old_ids with
  | [] => mret []
  | j :: old_ids =>
    b ← get_bucket t_old i; x ← defined ((slots b).[j]);
    if x =? 0 then copy_slots pointer i n new_suffix old_ids else
    key ← read_key x;
    if negb (fst (hash_function key) mod n =? new_suffix) then copy_slots pointer i n new_suffix old_ids else
    r ← place_slot pointer i x (seqZ 0 kAssociatedWays);
    match r with
    | None => modify (fun s => set_resize s (resize_lock s) (resize_lock_cnt s) new_suffix);; mret []
    | Some k => l ← copy_slots pointer i n new_suffix old_ids; mret ((j, k) :: l)
    end
  end.

Definition clear_slot (old_pointer new_pointer i : Z) (p : Z * Z) : C unit :=
  r ← update_old old_pointer i (fst p) 0;
  if snd r =? 0 then r ← update_new new_pointer i (snd p) 0; mret tt else mret tt.

Definition move_bucket (old_suffix new_suffix depth i : Z) : C unit :=
  x ← gets resize_suffix;
  if 0 <=? x then mret tt else
  oe ← get_entry old_suffix;
  ne ← get_entry new_suffix;
  b ← get_bucket t_old i;
  if negb (local_depth b =? depth) then mret tt else
  cur ← compare_and_swap (e_pointer oe + sizeof_Bucket * i) (local_depth b + 2 ^ 32 * suffix b) (u32 (local_depth b + 1) + 2 ^ 32 * suffix b);
  set_old_bucket i (MkBucket (cur mod 2 ^ 32) (cur / 2 ^ 32) (slots b));;
  n ← shift1 (depth + 1);
  l ← copy_slots (e_pointer ne) i n new_suffix (seqZ 0 kAssociatedWays);
  for_each l (clear_slot (e_pointer oe) (e_pointer ne) i).

Definition move_buckets (old_suffix new_suffix depth : Z) : C unit :=
  for_each (seqZ 0 (kTotalBuckets g)) (move_bucket old_suffix new_suffix depth).

(** The part of [resize] that makes a new subtable.  A full node is
    [NoMemory]; the memory of the client's cache, which the code asserts to be
    there, is not limited here. *)
Definition new_subtable (old_suffix new_suffix depth : Z) : C unit :=
  oe ← get_entry old_suffix;
  ne ← get_entry new_suffix;
  n ← gets t_node;
  r ← defined (in_alloc n (sizeof_SubTable g));
  modify (fun s => set_node s (snd r));;
  match fst r with
  | None => stopped NoMemory
  | Some a =>
    set_entry new_suffix (mk_entry (e_lock ne) (depth + 1) a);;
    set_entry old_suffix (mk_entry (e_lock oe) (depth + 1) (e_pointer oe));;
    let new_table := replicate (Z.to_nat (kTotalBuckets g)) (MkBucket (depth + 1) new_suffix (replicate 7 0)) in
    old_table ← read_with (fun m => subtable_at g m (e_pointer oe)) (e_pointer oe) (sizeof_SubTable g);
    modify (fun s => set_tables s (Some old_table) (Some new_table));;
    write_bytes a (concat (bucket_bytes <$> new_table));;
    write_entry old_suffix;;
    write_entry new_suffix
  end.

(** [while (new_suffix >= (1 << global_depth))]. *)
Fixpoint grow_directory (fuel : nat) (new_suffix global_depth_ : Z) : C Z :=
  n ← shift1 global_depth_;
  if new_suffix <? n then mret global_depth_ else
  match fuel with
  | O => stopped Hang
  | S fuel => resize_directory global_depth_;; d ← gets t_dir; grow_directory fuel new_suffix (global_depth d)
  end.

(** From the label [retry] on; the result says that a subtable was split. *)
Fixpoint resize_split (fuel : nat) (idx : Z) : C bool :=
  match fuel with
  | O => stopped Hang
  | S fuel =>
    e ← get_entry idx;
    let depth := e_depth e in
    d ← gets t_dir;
    n ← shift1 depth;
    let old_suffix := idx mod n in
    let new_suffix := old_suffix + n in
    top ← shift1 (global_depth d);
    assert_ (old_suffix <? top) Assertion;;
    global_depth ← grow_directory spin new_suffix (global_depth d);
    lock_subtable old_suffix;;
    lock_subtable new_suffix;;
    oe ← get_entry old_suffix;
    ne ← get_entry new_suffix;
    if negb (e_depth oe =? depth) || negb (e_depth ne =? depth) then
      fix_local_depth old_suffix global_depth (Z.max (Z.max (e_depth oe) (e_depth ne)) depth);;
      move_buckets old_suffix new_suffix depth;;
      unlock_subtable old_suffix;; unlock_subtable new_suffix;;
      resize_split fuel idx
    else if negb (e_pointer oe =? e_pointer ne) then
      fix_local_depth old_suffix global_depth depth;;
      move_buckets old_suffix new_suffix depth;;
      unlock_subtable old_suffix;; unlock_subtable new_suffix;;
      mret false
    else
      new_subtable old_suffix new_suffix depth;;
      fix_local_depth old_suffix global_depth depth;;
      move_buckets old_suffix new_suffix depth;;
      unlock_subtable old_suffix;; unlock_subtable new_suffix;;
      mret true
  end.

Fixpoint resize (fuel : nat) (idx : Z) : C unit :=
  match fuel with
  | O => stopped Hang
  | S fuel =>
    read_directory;;
    l ← gets resize_lock;
    if negb (l =? -1) && negb (l =? task) then stopped Hang else
    modify (fun s => set_resize s task (resize_lock_cnt s + 1) (resize_suffix s));;
    split ← resize_split spin idx;
    modify (fun s => set_resize s (if resize_lock_cnt s - 1 =? 0 then 0 else resize_lock s) (resize_lock_cnt s - 1) (resize_suffix s));;
    x ← gets resize_suffix;
    if split && (0 <=? x) then
      modify (fun s => set_resize s (resize_lock s) (resize_lock_cnt s) (-1));; resize fuel x
    else mret tt
  end.

(** ** Insert *)

(** The first empty slot: the number of its bucket, its place and its address. *)
Fixpoint find_empty (l : list (Z * (BucketDesc * Z))) : C (option (Z * (BucketDesc * Z))) :=
  match l with
  | [] => mret None
  | (i, (d, j)) :: l => x ← slot_raw d j; if x =? 0 then mret (Some (i, (d, j))) else find_empty l
  end.

Definition numbered (ds : list BucketDesc) : list (Z * (BucketDesc * Z)) :=
  zip (seqZ 0 4) ds ≫= (fun p => (fun j => (fst p, (snd p, j))) <$> seqZ 0 kAssociatedWays).

(** The first loop of [insert]: the number of the bucket, the place and the address of the slot taken. *)
Fixpoint take_slot_loop (fuel : nat) (hash : Z * Z) (new_slot : Z) : C (Z * (BucketDesc * Z)) :=
  match fuel with
  | O => stopped Hang
  | S fuel =>
    i ← subtable_idx hash;
    ds ← read_bucket hash false;
    r ← find_empty (numbered ds);
    match r with
    | None => resize spin i;; take_slot_loop fuel hash new_slot
    | Some (n, (d, j)) =>
      rc ← atomic_update_slot (get_slot_addr d j) 0 new_slot;
      if fst rc =? 0 then mret (n, (d, j)) else take_slot_loop fuel hash new_slot
    end
  end.

(** The slots that hold the key, as they are pushed, the least address and the
    place it was seen at. *)
Fixpoint match_slots (key : list Z) (fp slot_addr : Z) (l : list (BucketDesc * Z)) (acc : list (BucketDesc * Z)) (min : Z) (min_slot : option (BucketDesc * Z))
  : C (list (BucketDesc * Z) * option (BucketDesc * Z)) :=
  match l with
  | [] => mret (acc, min_slot)
  | (d, j) :: l =>
    x ← slot_raw d j;
    if negb (negb (x =? 0) && (s_fp x =? fp)) then match_slots key fp slot_addr l acc min min_slot else
    let offset := get_slot_addr d j in
    found ← (if slot_addr =? offset then mret true else v ← read_block key x true; mret (bool_decide (is_Some v)));
    if negb found then match_slots key fp slot_addr l acc min min_slot else
    if min =? offset then match_slots key fp slot_addr l acc min min_slot else
    match_slots key fp slot_addr l (acc ++ [(d, j)]) (if offset <? min then offset else min) (if offset <? min then Some (d, j) else min_slot)
  end.

(** Whether two places are the same slot of the buffers. *)
Definition same_place (p q : BucketDesc * Z) : bool := (buf (fst p) =? buf (fst q)) && (snd p =? snd q).

(** The other slots cleared; false if one has changed.  Also the slot looked at last. *)
Fixpoint clear_others (l : list (BucketDesc * Z)) (min_slot : option (BucketDesc * Z)) (slot : BucketDesc * Z) : C (bool * (BucketDesc * Z)) :=
  match l with
  | [] => mret (true, slot)
  | p :: l =>
    if match min_slot with Some q => same_place p q | None => false end then clear_others l min_slot p else
    x ← slot_raw (fst p) (snd p);
    rc ← atomic_update_slot (get_slot_addr (fst p) (snd p)) x 0;
    if fst rc =? 0 then clear_others l min_slot p else mret (false, p)
  end.

(** The second loop of [insert].  [slot] points into the buffers. *)
Fixpoint settle_loop (fuel : nat) (key : list Z) (hash : Z * Z) (new_slot : Z) (slot_bucket slot_addr : Z) (slot : BucketDesc * Z) : C Z :=
  match fuel with
  | O => stopped Hang
  | S fuel =>
    ds ← read_bucket hash false;
    i ← subtable_idx hash;
    e ← get_entry i;
    d ← defined (ds.[slot_bucket]);
    b ← bucket_moved true (e_depth e) hash d;
    if b : bool then
      read_directory;;
      _ ← read_bucket hash false;
      r ← find_empty (numbered ds);
      match r with
      | None => resize spin i;; settle_loop fuel key hash new_slot slot_bucket slot_addr slot
      | Some (_, (d, j)) =>
        rc ← atomic_update_slot (get_slot_addr d j) 0 new_slot;
        (if fst rc =? 0 then x ← slot_raw (fst slot) (snd slot); _ ← atomic_update_slot slot_addr x 0; mret tt else mret tt);;
        settle_loop fuel key hash new_slot slot_bucket slot_addr slot
      end
    else
      m ← match_slots key (s_fp new_slot) slot_addr (slot_list ds) [] (2 ^ 64 - 1) None;
      if Z.of_nat (length (fst m)) <=? 1 then mret 0 else
      r ← clear_others (fst m) (snd m) slot;
      if (fst r) : bool then mret 0 else settle_loop fuel key hash new_slot slot_bucket slot_addr (snd r)
  end.

Definition insert (key value : list Z) : C Z :=
  let hash := hash_function key in
  x ← write_block key value;
  t ← take_slot_loop spin hash (fst x);
  settle_loop spin key hash (fst x) (fst t) (get_slot_addr (fst (snd t)) (snd (snd t))) (snd t).

End Client.
