(* ===== verification/HtSetup.v ===== *)
(** fusioncas/smart_ht/hashtable.h, smart/target.cpp: the memory node that serves
    a hash table, and a client on the allocator of the runtime.

    [Setup] builds the directory and the first subtables in chunks of the node;
    clients then allocate from the same super chunk. *)

From S2P Require Import Prelude Mem HtBlock HashTable SmartAlloc.

(** ** The target *)

Definition register_main_memory (length rpc_region_size : Z) : SuperChunk := MkSuper ((length - rpc_region_size) / kChunkSize) 1.

(** The offset of the chunks from the super chunk, as [rel_ptr] returns it. *)
Definition target_alloc_chunk (r : SuperChunk) (count : Z) : option (Z * SuperChunk) :=
  if max_chunk r <? u64 (alloc_chunk r + count) then None else
  Some (alloc_chunk r * kChunkSize, MkSuper (max_chunk r) (u64 (alloc_chunk r + count))).

Definition chunks_of (n : Z) : Z := (n + (kChunkSize - 1)) / kChunkSize.

(** ** Setup *)

Definition setup_bucket (g : geometry) (subtable suffix : Z) (i : Z) (m : mem) : mem :=
  st_le 4 (st_le 4 m (subtable + sizeof_Bucket * i) (kInitialDepth g)) (subtable + sizeof_Bucket * i + 4) suffix.

Definition setup_subtable (g : geometry) (dir : Z) (suffix : Z) (s : mem * SuperChunk) : option (mem * SuperChunk) :=
  x ← target_alloc_chunk (snd s) (chunks_of (sizeof_SubTable g));
  let '(subtable, r) := x in
  let m := memset (fst s) subtable 0 (sizeof_SubTable g) in
  let m := foldl (fun m i => setup_bucket g subtable suffix i m) m (seqZ 0 (kTotalBuckets g)) in
  Some (st_le 8 m (dir + 8 + 8 * suffix) (mk_entry 0 (kInitialDepth g) subtable), r).

(** The memory and the super chunk, with the offset of the directory; nothing if
    the chunks run out. *)
Definition Setup (g : geometry) (m : mem) (r : SuperChunk) : option (Z * (mem * SuperChunk)) :=
  x ← target_alloc_chunk r (chunks_of (sizeof_Directory g));
  let '(dir, r) := x in
  let m := memset m dir 0 (sizeof_Directory g) in
  let m := st_le 8 m dir (kInitialDepth g) in
  s ← for_from (Z.to_nat (2 ^ kInitialDepth g)) 0 (setup_subtable g dir) (m, r);
  Some (dir, s).

(** ** The allocator as the table sees it *)

(** The super chunk and the free lists of the thread. *)
#[export] Instance smart_initiator (junk node : Z) : Initiator (SuperChunk * client) := {
  in_alloc a size :=
    x ← alloc_memory junk node (fst a) (snd a) size;
    let '(offset, r, c) := x in
    Some (if offset =? NULL_GLOBAL_ADDRESS then None else Some (offset mod 2 ^ 48), (r, c));
  in_free a offset size := c ← free_memory junk (snd a) (global_address node offset) size; Some (fst a, c) }.

(** ** A client *)

Definition new_client (junk : Z) : client := Client None (replicate (Z.to_nat kNumFreeLists) (new_free_list junk)).

Section Start.
Context (g : geometry) (region dir_addr : Z) (spin : nat).

(** What [init_task] leaves: the directory in the cache, the buffers as the
    cache of the initiator held them. *)
Definition init_task {A} (bufs : list Bucket) (block : list Z) (capacity : nat) (m : mem) (node : A) : (unit * table A) + stop :=
  read_directory g region dir_addr spin
    (Table m node (MkDirectory 0 [] 0) bufs block (replicate capacity None) None None (-1) 0 (-1)).

End Start.

(** ** Operations *)

Inductive ht_op :=
  | Search (key : list Z)
  | Insert (key value : list Z)
  | Update (key value : list Z)
  | Rmw (key : list Z) (transform : list Z -> list Z)
  | Remove (key : list Z).

(** What an operation returns: the value a search finds, or a code. *)
Inductive ht_result := Found (value : option (list Z)) | Code (rc : Z).

Section Run.
Context {A : Type} `{Initiator A} (g : geometry) (region dir_addr : Z) (std_hash : list Z -> Z) (fast_search_ : bool) (task : Z) (spin : nat).

Definition perform (o : ht_op) : comp (table A) ht_result :=
  match o with
  | Search k => v ← search g region dir_addr std_hash fast_search_ spin k; mret (Found v)
  | Insert k v => rc ← insert g region dir_addr task spin k v; mret (Code rc)
  | Update k v => rc ← update g region dir_addr spin k v; mret (Code rc)
  | Rmw k f => rc ← rmw g region dir_addr spin k f; mret (Code rc)
  | Remove k => rc ← remove g region dir_addr spin k; mret (Code rc)
  end.

Fixpoint perform_all (os : list ht_op) : comp (table A) (list ht_result) :=
  match os with
  | [] => mret []
  | o :: os => r ← perform o; rs ← perform_all os; mret (r :: rs)
  end.

End Run.
