(* ===== verification/HashTableSpec.v ===== *)
(** Correctness of the operations of the remote hash table.

    The invariant ties the memory of the node to a finite map: the directory
    covers the hashes with disjoint subtables, every slot in use points to an
    intact block whose key belongs into its bucket, and every key of the map has
    one slot.  The allocator is used through an interface that says that blocks
    do not overlap.  The operations of a client are shown to act on the map. *)

From S2P Require Import Prelude Mem HtBlock SmartAlloc HashTable.

(** ** Computations and their outcomes *)

(** [e] in state [s] returns with [Q], or does not return for a reason in [F]. *)
Definition wp {S T} (e : comp S T) (s : S) (Q : T -> S -> Prop) (F : stop -> Prop) : Prop :=
  match e s with inl (x, s') => Q x s' | inr w => F w end.

Section Rules.
Context {S : Type}.
Implicit Types (s : S) (F : stop -> Prop).

Lemma wp_bind {T U} (e : comp S T) (k : T -> comp S U) s Q F : wp e s (fun x s' => wp (k x) s' Q F) F -> wp (e ≫= k) s Q F.
Proof. unfold wp, mbind, comp_bind. by destruct (e s) as [[x s']|w]. Qed.
Lemma wp_ret {T} (x : T) s Q F : Q x s -> wp (mret x) s Q F.
Proof. done. Qed.
Lemma wp_gets {T} (f : S -> T) s Q F : Q (f s) s -> wp (gets f) s Q F.
Proof. done. Qed.
Lemma wp_modify (f : S -> S) s Q F : Q tt (f s) -> wp (modify f) s Q F.
Proof. done. Qed.
Lemma wp_defined {T} (o : option T) x s Q F : o = Some x -> Q x s -> wp (defined o) s Q F.
Proof. by intros ->. Qed.
Lemma wp_assert b w s Q F : b = true -> Q tt s -> wp (assert_ b w) s Q F.
Proof. by intros ->. Qed.
Lemma wp_shift1 d s Q F : 0 <= d < 31 -> Q (2 ^ d) s -> wp (shift1 d) s Q F.
Proof. intros Hd HQ. unfold wp, shift1. zcases. Qed.
Lemma wp_stopped {T} w s (Q : T -> S -> Prop) F : F w -> wp (stopped w) s Q F.
Proof. done. Qed.
Lemma wp_assert_or b w s Q F : (b = true -> Q tt s) -> (b = false -> F w) -> wp (assert_ b w) s Q F.
Proof. destruct b; cbn; auto. Qed.
Lemma wp_mono {T} (e : comp S T) s (Q Q' : T -> S -> Prop) F F' :
  wp e s Q F -> (forall x s', Q x s' -> Q' x s') -> (forall w, F w -> F' w) -> wp e s Q' F'.
Proof. unfold wp. destruct (e s) as [[x s']|w]; auto. Qed.
Lemma wp_next {T} (e : comp S T) s (Q Q' : T -> S -> Prop) F :
  wp e s Q F -> (forall x s', Q x s' -> Q' x s') -> wp e s Q' F.
Proof. intros H HQ. by eapply wp_mono. Qed.

(** A loop keeps an invariant that may depend on what is left. *)
Lemma wp_for_each {T} (I : list T -> S -> Prop) l f s F :
  I l s -> (forall x l' s', I (x :: l') s' -> wp (f x) s' (fun _ => I l') F) -> wp (for_each l f) s (fun _ => I []) F.
Proof.
  intros HI Hf. revert s HI. induction l as [|x l IH]; intros s HI; cbn [for_each]; [by apply wp_ret|].
  apply wp_bind. eapply wp_next; [by apply Hf|]. intros u s' Hs'. by apply IH.
Qed.

End Rules.

(** One step of a computation. *)
Ltac wstep :=
  lazymatch goal with
  | |- wp (_ ≫= _) _ _ _ => apply wp_bind
  | |- wp (mret _) _ _ _ => apply wp_ret
  | |- wp (gets _) _ _ _ => apply wp_gets
  | |- wp (modify _) _ _ _ => apply wp_modify
  | |- wp (assert_ _ _) _ _ _ => apply wp_assert
  end.
Ltac wsteps := repeat wstep; cbn beta.

(** The fields of a state that was changed. *)
Ltac fields := cbn [t_mem t_node t_dir t_bufs t_block t_cache t_old t_new resize_lock resize_lock_cnt resize_suffix
  set_mem set_node set_dir set_bufs set_block set_cache set_tables set_resize].

(** ** The allocator *)

(** What the table relies on: the blocks that are held are apart and lie in the
    registered memory, whose offsets have 48 bits. *)
Class InitiatorSpec (A : Type) {I : Initiator A} (region : Z) := {
  in_ok : A -> list (Z * Z) -> Prop;
  in_ok_perm a :: Proper ((≡ₚ) ==> iff) (in_ok a);
  in_ok_disj a P : in_ok a P -> disj P;
  in_ok_inside a P b : in_ok a P -> b ∈ P -> 0 < fst b /\ 0 < snd b /\ fst b mod 8 = 0 /\ fst b + snd b <= region /\ region <= 2 ^ 48;
  in_alloc_spec a P n : in_ok a P -> 0 <= n < 2 ^ 44 ->
    exists r a', in_alloc a n = Some (r, a') /\
    match r with None => in_ok a' P | Some x => exists len, n <= len /\ in_ok a' ((x, len) :: P) end }.

(** ** Reading memory *)

Definition agree (m m' : mem) (a n : Z) : Prop := forall b, a <= b < a + n -> ld8 m' b = ld8 m b.

Lemma agree_sub m m' a n b k : agree m m' a n -> a <= b -> b + k <= a + n -> agree m m' b k.
Proof. intros H ?? x Hx. apply H. lia. Qed.

Lemma agree_ld m m' a n k : agree m m' a k -> Z.of_nat n <= k -> ld_le n m' a = ld_le n m a.
Proof. intros H Hk. apply ld_le_ext. intros b Hb. apply H. lia. Qed.

Lemma agree_load m m' a n k : agree m m' a k -> Z.of_nat n <= k -> load_bytes m' a n = load_bytes m a n.
Proof. intros H Hk. apply load_bytes_ext. intros b Hb. apply H. lia. Qed.

Lemma agree_bucket m m' a n : agree m m' a n -> sizeof_Bucket <= n -> bucket_at m' a = bucket_at m a.
Proof.
  unfold sizeof_Bucket. intros H Hn. unfold bucket_at. f_equal; [by eapply agree_ld; [exact H|lia]|eapply agree_ld; [by eapply (agree_sub _ _ _ _ _ 4); [exact H|lia|lia]|lia]|].
  apply list_fmap_ext. intros i j Hj. apply lookup_seqZ in Hj as [-> Hi]. eapply agree_ld; [eapply (agree_sub _ _ _ _ _ 8); [exact H|lia|]|lia]. unfold kAssociatedWays in *. lia.
Qed.

(** A store leaves what is apart from it. *)
Lemma agree_store m a bs b n : b + n <= a \/ a + alen bs <= b -> agree m (store_bytes m a bs) b n.
Proof. intros H x Hx. apply ld8_store_bytes_out. unfold alen in H. lia. Qed.

Lemma ld_store_same m a v : 0 <= v < 2 ^ 64 -> ld_le 8 (store_bytes m a (le_bytes 8 v)) a = v.
Proof. intros Hv. change (store_bytes m a (le_bytes 8 v)) with (st_le 8 m a v). rewrite ld_le_st_le. apply Z.mod_small. exact Hv. Qed.

Lemma load_bytes_ok m a n : mem_ok m -> Forall byte_ok (load_bytes m a n).
Proof. intros Hm. revert a. induction n as [|n IH]; intros a; cbn; constructor; [apply Hm|apply IH]. Qed.

(** ** Hashes and candidate buckets *)

Lemma hash_range k : 0 <= fst (hash_function k) < UINT32_MAX /\ 0 <= snd (hash_function k) < UINT32_MAX.
Proof. unfold hash_function. cbn [fst snd]. split; apply Z.mod_pos_bound; unfold UINT32_MAX; lia. Qed.

#[local] Opaque hash_function crc_calculate.

Record geometry_ok (g : geometry) : Prop := {
  go_main : 0 < kMainBuckets g <= 2 ^ 36;
  go_even : kMainBuckets g mod 2 = 0;
  go_depth : 0 <= kInitialDepth g <= kMaxGlobalDepth g;
  go_max : kMaxGlobalDepth g <= 12 }.

Lemma smart_geometry_ok : geometry_ok smart_geometry.
Proof. split; [cbn; lia|reflexivity|cbn; lia|cbn; lia]. Qed.

(** Enough retries: the directory grows at most twelve times. *)
Definition spin_ok (n : nat) : Prop := (20 <= n)%nat.

Section Table.

Context {A : Type} {I : Initiator A} (g : geometry) (region dir_addr : Z) (Hg : geometry_ok g).

(** The buckets a key may be in: two of the group of three of each hash. *)
Definition group (h : Z) : Z := h mod kMainBuckets g / 2 * 3.
Definition cand (k : list Z) (b : Z) : Prop :=
  exists h, (h = fst (hash_function k) \/ h = snd (hash_function k)) /\ (b = group h \/ b = group h + 1).

Lemma group_range h : 0 <= group h /\ group h + 1 < kTotalBuckets g.
Proof using Hg.
  destruct Hg as [[H1 _] H2 _ _]. unfold group, kTotalBuckets. pose proof (Z.mod_pos_bound h (kMainBuckets g) H1) as H3.
  revert H3. generalize (h mod kMainBuckets g). intros x Hx. dlia.
Qed.

Lemma cand_range k b : cand k b -> 0 <= b < kTotalBuckets g.
Proof using Hg. intros (h & _ & Hb). pose proof (group_range h). lia. Qed.

Lemma in_bucket_descs k p d : d ∈ bucket_descs g p (hash_function k) -> exists b, cand k b /\ addr d = p + sizeof_Bucket * b.
Proof.
  assert (forall h i d, (h = fst (hash_function k) \/ h = snd (hash_function k)) -> d = first_desc g p i h \/ d = second_desc g p i h -> exists b, cand k b /\ addr d = p + sizeof_Bucket * b) as H.
  { intros h i d' Hh Hd. unfold first_desc, second_desc, bucket_addr in Hd. fold (group h) in Hd. unfold sizeof_Bucket in *.
    destruct (_ =? 0); destruct Hd as [-> | ->]; cbn [addr]; first [exists (group h); split; [exists h; tauto|lia]|exists (group h + 1); split; [exists h; tauto|lia]]. }
  unfold bucket_descs. rewrite !elem_of_cons, elem_of_nil. intros [-> |[-> |[-> |[-> |[]]]]]; [apply (H (fst (hash_function k)) 0)|apply (H (snd (hash_function k)) 1)|apply (H (fst (hash_function k)) 0)|apply (H (snd (hash_function k)) 1)]; auto.
Qed.

Lemma cand_in_descs k p b : cand k b -> exists d, d ∈ bucket_descs g p (hash_function k) /\ addr d = p + sizeof_Bucket * b.
Proof.
  intros (h & Hh & Hb). unfold bucket_descs.
  assert (forall i, addr (first_desc g p i h) = p + sizeof_Bucket * b \/ addr (second_desc g p i h) = p + sizeof_Bucket * b) as H.
  { intros i. unfold first_desc, second_desc, bucket_addr. fold (group h). unfold sizeof_Bucket. destruct (_ =? 0); cbn [addr]; lia. }
  destruct Hh as [-> | ->]; [destruct (H 0) as [E|E]|destruct (H 1) as [E|E]]; eexists; (split; [|exact E]); set_solver.
Qed.

(** ** What the memory represents *)

(** A subtable: its address, the number of low bits of the hash that select it
    and their value, and the length of its block. *)
Record tab := Tab { tp : Z; td : Z; ts : Z; tn : Z }.

#[export] Instance tab_eq_dec : EqDecision tab.
Proof. solve_decision. Defined.

Definition owns (t : tab) (k : list Z) : Prop := fst (hash_function k) mod 2 ^ td t = ts t.

Definition is_slot (tabs : list tab) (a : Z) (t : tab) (b j : Z) : Prop :=
  t ∈ tabs /\ 0 <= b < kTotalBuckets g /\ 0 <= j < kAssociatedWays /\ a = table_slot_addr (tp t) b j.

(** The keys that are used: bytes without NUL, none a proper prefix of another. *)
Context (K : list Z -> Prop).
Context (K_bytes : forall k, K k -> Forall byte_ok k /\ Forall (fun c => c <> 0) k).
Context (K_prefix : forall k k', K k -> K k' -> k `prefix_of` k' -> k = k').

(** The slot [x] points to an intact block with the key [k] and the value [v]. *)
Record points (blocks : list (Z * Z)) (m : mem) (x : Z) (k v : list Z) : Prop := {
  po_block : exists n, (s_pointer x, n) ∈ blocks /\ s_len x * kBlockLengthUnit <= n;
  po_len : 0 < s_len x * kBlockLengthUnit <= kMaxBlockLength;
  po_fp : s_fp x = get_fingerprint (fst (hash_function k));
  po_kv : kv_block (load_bytes m (s_pointer x) (Z.to_nat (s_len x * kBlockLengthUnit))) k v }.

(** Directory: [gd] bits select an entry; every hash belongs to one subtable. *)
Record dir_ok (m : mem) (gd : Z) (tabs : list tab) : Prop := {
  do_depth : ld_le 8 m dir_addr = gd;
  do_range : 0 <= gd <= kMaxGlobalDepth g;
  do_tab t : t ∈ tabs -> 0 <= td t <= gd /\ 0 <= ts t < 2 ^ td t;
  do_entry i : 0 <= i < 2 ^ gd -> exists t, t ∈ tabs /\ i mod 2 ^ td t = ts t /\ ld_le 8 m (entry_addr dir_addr i) = mk_entry 0 (td t) (tp t);
  do_unique t t' h : t ∈ tabs -> t' ∈ tabs -> h mod 2 ^ td t = ts t -> h mod 2 ^ td t' = ts t' -> t = t' }.

Definition headers_ok (m : mem) (tabs : list tab) : Prop :=
  forall t b, t ∈ tabs -> 0 <= b < kTotalBuckets g ->
  ld_le 4 m (tp t + sizeof_Bucket * b) = td t /\ ld_le 4 m (tp t + sizeof_Bucket * b + 4) = ts t.

(** Slots: [loc] is where the keys of the map [M] are; a key may be in bucket [b]
    of subtable [t] if [home t b k]. *)
Record slots_ok (m : mem) (tabs : list tab) (home : tab -> Z -> list Z -> Prop) (blocks : list (Z * Z)) (M : gmap (list Z) (list Z)) (loc : gmap (list Z) Z) : Prop := {
  so_loc k a : loc !! k = Some a -> K k /\ exists t b j v, is_slot tabs a t b j /\ home t b k /\ cand k b /\ M !! k = Some v /\ points blocks m (ld_le 8 m a) k v;
  so_all t b j a : is_slot tabs a t b j -> ld_le 8 m a <> 0 -> exists k, loc !! k = Some a;
  so_dom k : M !! k = None <-> loc !! k = None }.

Definition at_home (t : tab) (_ : Z) (k : list Z) : Prop := owns t k.

(** The blocks that are held: directory, subtables, key-value blocks. *)
Definition held (dn : Z) (tabs : list tab) (blocks : list (Z * Z)) : list (Z * Z) :=
  (dir_addr, dn) :: ((fun t => (tp t, tn t)) <$> tabs) ++ blocks.

Context {IS : InitiatorSpec A region}.

Record pool_held (a : A) (dn : Z) (tabs : list tab) (blocks : list (Z * Z)) : Prop := {
  ph_ok : in_ok a (held dn tabs blocks);
  ph_dir : sizeof_Directory g <= dn;
  ph_tabs : Forall (fun t => sizeof_SubTable g <= tn t) tabs }.

(** A cached slot may be out of date, but its bucket is one and its block is intact. *)
Definition cache_ok (m : mem) (tabs : list tab) (blocks : list (Z * Z)) (c : list (option (list Z * (Z * Z)))) : Prop :=
  0 < alen c /\ Forall (fun e => match e with
    | None => True
    | Some (k, (a, x)) => K k /\ (exists t b, t ∈ tabs /\ 0 <= b < kTotalBuckets g /\ a = tp t + sizeof_Bucket * b) /\ exists v, points blocks m x k v
    end) c.

(** The buffers of a client. *)
Record bufs_ok (s : table A) : Prop := {
  bu_bufs : length (t_bufs s) = 4%nat;
  bu_block : alen (t_block s) = kMaxBlockLength;
  bu_bytes : Forall byte_ok (t_block s) }.

(** A node and its client between operations, apart from the slots. *)
Record base (s : table A) (gd dn : Z) (tabs : list tab) (blocks : list (Z * Z)) : Prop := {
  ba_mem : mem_ok (t_mem s);
  ba_pool : pool_held (t_node s) dn tabs blocks;
  ba_dir : dir_ok (t_mem s) gd tabs;
  ba_headers : headers_ok (t_mem s) tabs;
  ba_cache : cache_ok (t_mem s) tabs blocks (t_cache s);
  ba_client : t_dir s = directory_at g (t_mem s) dir_addr;
  ba_bufs : bufs_ok s }.

Record inv (s : table A) (gd dn : Z) (tabs : list tab) (blocks : list (Z * Z)) (M : gmap (list Z) (list Z)) (loc : gmap (list Z) Z) : Prop := {
  iv_base : base s gd dn tabs blocks;
  iv_slots : slots_ok (t_mem s) tabs at_home blocks M loc;
  iv_resize : resize_suffix s = -1 /\ resize_lock_cnt s = 0 /\ (resize_lock s = -1 \/ resize_lock s = 0) }.

(** ** What is apart *)

Lemma held_disj a dn tabs blocks : pool_held a dn tabs blocks ->
  (forall t, t ∈ tabs -> apart (dir_addr, dn) (tp t, tn t)) /\ (forall b, b ∈ blocks -> apart (dir_addr, dn) b) /\
  (forall t b, t ∈ tabs -> b ∈ blocks -> apart (tp t, tn t) b) /\
  (forall t t', t ∈ tabs -> t' ∈ tabs -> t <> t' -> apart (tp t, tn t) (tp t', tn t')).
Proof.
  intros [Hok _ _]. apply in_ok_disj in Hok. unfold held in Hok. destruct Hok as [Hd Hrest]. rewrite Forall_forall in Hd.
  apply disj_app in Hrest as (Ht & _ & Htb). split_and!.
  - intros t Hin. apply Hd, elem_of_app. left. by apply (list_elem_of_fmap_2 (fun t => (tp t, tn t))).
  - intros b Hb. apply Hd, elem_of_app. by right.
  - intros t b Hin Hb. apply Htb; [|done]. by apply (list_elem_of_fmap_2 (fun t => (tp t, tn t))).
  - intros t t' [i Hi]%list_elem_of_lookup [j Hj]%list_elem_of_lookup Hne. eapply (disj_both _ _ _ i j Ht); [by rewrite list_lookup_fmap, Hi|by rewrite list_lookup_fmap, Hj|congruence].
Qed.

Lemma table_held_inside a dn tabs blocks : pool_held a dn tabs blocks ->
  (0 < dir_addr /\ dir_addr + sizeof_Directory g <= region) /\
  (forall t, t ∈ tabs -> 0 < tp t /\ tp t mod 8 = 0 /\ tp t + sizeof_SubTable g <= region /\ tp t + sizeof_SubTable g <= tp t + tn t) /\
  (forall b, b ∈ blocks -> 0 < fst b /\ fst b + snd b <= region) /\ region <= 2 ^ 48.
Proof.
  intros [Hok Hdn Htn]. rewrite Forall_forall in Htn. pose proof (fun b => in_ok_inside _ _ b Hok) as H. unfold held in H. split_and!.
  - destruct (H (dir_addr, dn)) as (? & _); [by apply elem_of_cons; left|]. done.
  - destruct (H (dir_addr, dn)) as (? & ? & ? & ? & ?); [by apply elem_of_cons; left|]. cbn in *. lia.
  - intros t Ht. specialize (Htn t Ht). destruct (H (tp t, tn t)) as (? & ? & ? & ? & ?).
    { apply elem_of_cons. right. apply elem_of_app. left. by apply (list_elem_of_fmap_2 (fun t => (tp t, tn t))). } cbn in *. split_and!; try done; lia.
  - intros b Hb. destruct (H b) as (? & ? & ? & ? & ?); [apply elem_of_cons; right; apply elem_of_app; by right|]. done.
  - destruct (H (dir_addr, dn)) as (_ & _ & _ & _ & ?); [by apply elem_of_cons; left|]. done.
Qed.

(** The addresses of slots and of buckets. *)
Lemma slot_in_tab tabs a t b j : is_slot tabs a t b j -> tp t + 8 <= a /\ a + 8 <= tp t + sizeof_SubTable g.
Proof. intros (_ & Hb & Hj & ->). unfold table_slot_addr, sizeof_SubTable, sizeof_Bucket, kAssociatedWays in *. lia. Qed.

(** Two slots are the same or apart. *)
Lemma table_slots_apart a0 dn tabs blocks a t b j a' t' b' j' :
  pool_held a0 dn tabs blocks -> is_slot tabs a t b j -> is_slot tabs a' t' b' j' -> a = a' /\ t = t' /\ b = b' /\ j = j' \/ a + 8 <= a' \/ a' + 8 <= a.
Proof.
  intros Hp H1 H2. pose proof (slot_in_tab _ _ _ _ _ H1). pose proof (slot_in_tab _ _ _ _ _ H2). destruct H1 as (T1 & B1 & J1 & ->), H2 as (T2 & B2 & J2 & ->).
  destruct (table_held_inside _ _ _ _ Hp) as (_ & Hin & _). pose proof (Hin t T1). pose proof (Hin t' T2).
  destruct (decide (t = t')) as [<-|Hne].
  - unfold table_slot_addr, sizeof_Bucket, kAssociatedWays in *. destruct (Z.eq_dec b b') as [->|]; [|lia]. destruct (Z.eq_dec j j') as [->|]; [left; done|lia].
  - destruct (held_disj _ _ _ _ Hp) as (_ & _ & _ & Htt). destruct (Htt t t' T1 T2 Hne) as [Ha|Ha]; cbn in Ha; lia.
Qed.

Lemma headers_apart a0 dn tabs blocks a t b j t' b' :
  pool_held a0 dn tabs blocks -> is_slot tabs a t b j -> t' ∈ tabs -> 0 <= b' < kTotalBuckets g ->
  tp t' + sizeof_Bucket * b' + 8 <= a \/ a + 8 <= tp t' + sizeof_Bucket * b'.
Proof.
  intros Hp H1 T2 B2. pose proof (slot_in_tab _ _ _ _ _ H1). destruct H1 as (T1 & B1 & J1 & ->). destruct (table_held_inside _ _ _ _ Hp) as (_ & Hin & _). pose proof (Hin t T1). pose proof (Hin t' T2).
  destruct (decide (t = t')) as [<-|Hne].
  - unfold table_slot_addr, sizeof_Bucket, kAssociatedWays in *. lia.
  - destruct (held_disj _ _ _ _ Hp) as (_ & _ & _ & Htt). unfold sizeof_SubTable, sizeof_Bucket in *. destruct (Htt t t' T1 T2 Hne) as [Ha|Ha]; cbn in Ha; lia.
Qed.

(** ** What a store leaves *)

Lemma points_frame blocks blocks' m m' x k v :
  points blocks m x k v -> (forall b, b ∈ blocks -> b ∈ blocks' /\ agree m m' (fst b) (snd b)) -> points blocks' m' x k v.
Proof.
  intros [(n & Hin & Hn) Hlen Hfp Hkv] H. destruct (H _ Hin) as [Hin' Hag]. split; try done; [by exists n|].
  erewrite agree_load; [exact Hkv|exact Hag|]. cbn. lia.
Qed.

Lemma points_inj blocks m x k v k' v' : points blocks m x k v -> points blocks m x k' v' -> k = k' /\ v = v'.
Proof. intros H1 H2. eapply kv_block_inj; [apply (po_kv _ _ _ _ _ H1)|apply (po_kv _ _ _ _ _ H2)]. Qed.

Lemma points_nonzero blocks m x k v : points blocks m x k v -> x <> 0.
Proof. intros [_ Hlen _ _] ->. change (s_len 0 * kBlockLengthUnit) with 0 in Hlen. lia. Qed.

Lemma directory_frame m m' : agree m m' dir_addr (sizeof_Directory g) -> directory_at g m' dir_addr = directory_at g m dir_addr.
Proof.
  intros H. assert (0 < kMaxSubTables g) by (apply Z.pow_pos_nonneg; destruct Hg; lia).
  unfold directory_at. unfold sizeof_Directory in H. f_equal; [by eapply agree_ld; [exact H|lia]| |eapply agree_ld; [eapply (agree_sub _ _ _ _ _ 8); [exact H|lia|lia]|lia]].
  apply list_fmap_ext. intros i j Hj. apply lookup_seqZ in Hj as [-> Hi]. eapply agree_ld; [eapply (agree_sub _ _ _ _ _ 8); [exact H|lia|lia]|lia].
Qed.

Lemma entry_in_dir i : 0 <= i < kMaxSubTables g -> dir_addr + 8 <= entry_addr dir_addr i /\ entry_addr dir_addr i + 8 <= dir_addr + sizeof_Directory g.
Proof. unfold entry_addr, sizeof_Directory. lia. Qed.

Lemma pow_gd_max gd : 0 <= gd <= kMaxGlobalDepth g -> 0 < 2 ^ gd <= kMaxSubTables g.
Proof. intros H. split; [apply Z.pow_pos_nonneg; lia|apply Z.pow_le_mono_r; lia]. Qed.

Lemma dir_ok_frame m m' gd tabs : dir_ok m gd tabs -> agree m m' dir_addr (sizeof_Directory g) -> dir_ok m' gd tabs.
Proof.
  intros [H1 H2 H3 H4 H5] H. pose proof (pow_gd_max gd H2). split; try done.
  - rewrite <- H1. eapply agree_ld; [exact H|]. unfold sizeof_Directory. lia.
  - intros i Hi. destruct (H4 i Hi) as (t & Ht & Ets & Ee). exists t. split_and!; try done. rewrite <- Ee.
    pose proof (entry_in_dir i ltac:(lia)). eapply agree_ld; [eapply (agree_sub _ _ _ _ _ 8); [exact H|lia|lia]|lia].
Qed.

Lemma cache_ok_frame m m' tabs tabs' blocks blocks' c :
  cache_ok m tabs blocks c -> (forall b, b ∈ blocks -> b ∈ blocks' /\ agree m m' (fst b) (snd b)) ->
  (forall t, t ∈ tabs -> exists t', t' ∈ tabs' /\ tp t' = tp t) -> cache_ok m' tabs' blocks' c.
Proof.
  intros [Hl Hc] Hb Ht. split; [done|]. eapply Forall_impl; [exact Hc|]. intros [[k [a x]]|]; [|done]. intros (HK & (t & b & Hin & Hr & ->) & v & Hv). split; [done|]. split.
  - destruct (Ht t Hin) as (t' & Hin' & <-). by exists t', b.
  - exists v. by eapply points_frame.
Qed.

(** *** A slot *)

Section SlotStore.
Context (a0 : A) (dn : Z) (tabs : list tab) (blocks : list (Z * Z)) (Hp : pool_held a0 dn tabs blocks).
Context (m : mem) (a x : Z) (t : tab) (b j : Z) (Ha : is_slot tabs a t b j).

Let m' := store_bytes m a (le_bytes 8 x).

Lemma slot_store_blocks c : c ∈ blocks -> agree m m' (fst c) (snd c).
Proof using Hp Ha.
  intros Hc. apply agree_store. rewrite alen_le_bytes. destruct (held_disj _ _ _ _ Hp) as (_ & _ & Htb & _). pose proof (slot_in_tab _ _ _ _ _ Ha) as Hs.
  destruct (table_held_inside _ _ _ _ Hp) as (_ & Hin & _). destruct Ha as (Ht & _). pose proof (Hin t Ht). destruct (Htb t c Ht Hc) as [Hx|Hx]; cbn in Hx; lia.
Qed.

Lemma slot_store_dir : agree m m' dir_addr (sizeof_Directory g).
Proof using Hp Ha.
  apply agree_store. rewrite alen_le_bytes. destruct (held_disj _ _ _ _ Hp) as (Hdt & _). pose proof (slot_in_tab _ _ _ _ _ Ha) as Hs. pose proof (ph_dir _ _ _ _ Hp).
  destruct (table_held_inside _ _ _ _ Hp) as (_ & Hin & _). destruct Ha as (Ht & _). pose proof (Hin t Ht). destruct (Hdt t Ht) as [H'|H']; cbn in H'; lia.
Qed.

Lemma slot_store_headers : headers_ok m tabs -> headers_ok m' tabs.
Proof using Hp Ha.
  intros H t' b' Ht' Hb'. destruct (H t' b' Ht' Hb') as [<- <-]. pose proof (headers_apart _ _ _ _ _ _ _ _ _ _ Hp Ha Ht' Hb') as Hd.
  assert (agree m m' (tp t' + sizeof_Bucket * b') 8) as Hag by (apply agree_store; rewrite alen_le_bytes; lia).
  split; [eapply agree_ld; [exact Hag|lia]|eapply agree_ld; [eapply (agree_sub _ _ _ _ _ 4); [exact Hag|lia|lia]|lia]].
Qed.

Lemma slot_store_other a' t' b' j' : is_slot tabs a' t' b' j' -> a' <> a -> ld_le 8 m' a' = ld_le 8 m a'.
Proof using Hp Ha.
  intros Ha' Hne. eapply (agree_ld _ _ _ _ 8); [|lia]. apply agree_store. rewrite alen_le_bytes. destruct (table_slots_apart _ _ _ _ _ _ _ _ _ _ _ _ Hp Ha' Ha) as [(-> & _)|Hd]; [done|lia].
Qed.

Lemma slot_store_points y k v : points blocks m y k v -> points blocks m' y k v.
Proof using Hp Ha. intros H. eapply points_frame; [exact H|]. intros c Hc. split; [done|by apply slot_store_blocks]. Qed.

End SlotStore.

(** The invariant after a store into a slot. *)
Lemma base_slot_store s gd dn tabs blocks a x t b j :
  base s gd dn tabs blocks -> is_slot tabs a t b j -> base (set_mem s (store_bytes (t_mem s) a (le_bytes 8 x))) gd dn tabs blocks.
Proof.
  intros [Hm Hp Hd Hh Hc Hdc Hb] Ha. pose proof (slot_store_dir _ _ _ _ Hp (t_mem s) a x t b j Ha) as Hdir. split; fields; try done.
  - by apply store_bytes_mem_ok.
  - by eapply dir_ok_frame.
  - by eapply slot_store_headers.
  - eapply cache_ok_frame; [exact Hc| |by eauto]. intros c Hcb. split; [done|by eapply slot_store_blocks].
  - by rewrite (directory_frame (t_mem s)) by done.
  - by destruct Hb.
Qed.

(** ** Reading the directory and the buckets *)

Lemma mk_entry_fields l d p : 0 <= l < 2 ^ 8 -> 0 <= d < 2 ^ 8 -> 0 <= p < 2 ^ 48 ->
  e_lock (mk_entry l d p) = l /\ e_depth (mk_entry l d p) = d /\ e_pointer (mk_entry l d p) = p /\ 0 <= mk_entry l d p < 2 ^ 64.
Proof.
  intros Hl Hd Hpp. unfold e_lock, e_depth, e_pointer, mk_entry. rewrite (Z.mod_small l), (Z.mod_small d), (Z.mod_small p) by done.
  change (2 ^ 8) with 256 in *. change (2 ^ 16) with 65536. change (2 ^ 48) with 281474976710656 in *. change (2 ^ 64) with 18446744073709551616. split_and!; dlia.
Qed.

Lemma mk_slot_fields f n p : 0 <= f < 2 ^ 8 -> 0 <= n < 2 ^ 8 -> 0 <= p < 2 ^ 48 ->
  s_fp (mk_slot f n p) = f /\ s_len (mk_slot f n p) = n /\ s_pointer (mk_slot f n p) = p /\ 0 <= mk_slot f n p < 2 ^ 64.
Proof. exact (mk_entry_fields f n p). Qed.

Implicit Types (s : table A) (F : stop -> Prop).

(** The fields of an entry for a subtable. *)
Lemma tab_entry a0 dn tabs blocks t l d : pool_held a0 dn tabs blocks -> t ∈ tabs -> 0 <= l < 2 ^ 8 -> 0 <= d < 2 ^ 8 ->
  e_lock (mk_entry l d (tp t)) = l /\ e_depth (mk_entry l d (tp t)) = d /\ e_pointer (mk_entry l d (tp t)) = tp t /\ 0 <= mk_entry l d (tp t) < 2 ^ 64.
Proof.
  intros Hp Ht Hl Hd. destruct (table_held_inside _ _ _ _ Hp) as (_ & Hin & _ & Hreg). pose proof (Hin t Ht) as Htp.
  assert (0 < sizeof_SubTable g) by (unfold sizeof_SubTable, sizeof_Bucket; pose proof (group_range 0); lia). apply mk_entry_fields; lia.
Qed.

Lemma set_dir_same s : s = set_dir s (MkDirectory (global_depth (t_dir s)) (subtables (t_dir s)) (global_lock (t_dir s))).
Proof. destruct s as [m n [d l k] b c e o w x y z]. done. Qed.

(** Only the buffers differ. *)
Record quiet (s s' : table A) : Prop := {
  qu_mem : t_mem s' = t_mem s; qu_node : t_node s' = t_node s; qu_dir : t_dir s' = t_dir s; qu_cache : t_cache s' = t_cache s;
  qu_old : t_old s' = t_old s; qu_new : t_new s' = t_new s;
  qu_resize : resize_suffix s' = resize_suffix s /\ resize_lock_cnt s' = resize_lock_cnt s /\ resize_lock s' = resize_lock s;
  qu_bufs : bufs_ok s' }.

Lemma client_quiet_refl s : bufs_ok s -> quiet s s.
Proof. by split. Qed.
Lemma client_quiet_trans s s' s'' : quiet s s' -> quiet s' s'' -> quiet s s''.
Proof. intros [] []. split; try congruence; intuition congruence. Qed.
Lemma quiet_set_block s b : bufs_ok s -> alen b = kMaxBlockLength -> Forall byte_ok b -> quiet s (set_block s b).
Proof. intros [] ??. by split. Qed.
Lemma quiet_set_bufs s l : bufs_ok s -> length l = 4%nat -> quiet s (set_bufs s l).
Proof. intros [] ?. by split. Qed.

Lemma base_quiet s s' gd dn tabs blocks : base s gd dn tabs blocks -> quiet s s' -> base s' gd dn tabs blocks.
Proof. intros [] [E1 E2 E3 E4 _ _ (E5 & E6 & E7) Hb]. split; rewrite ?E1, ?E2, ?E3, ?E4, ?E5, ?E6, ?E7; done. Qed.

Lemma inv_quiet s s' gd dn tabs blocks M loc : inv s gd dn tabs blocks M loc -> quiet s s' -> inv s' gd dn tabs blocks M loc.
Proof. intros [Hb Hs Hr] Hq. split; [by eapply base_quiet|by rewrite (qu_mem _ _ Hq)|]. by destruct (qu_resize _ _ Hq) as (-> & -> & ->). Qed.

Lemma wp_read_with {T} (f : mem -> T) a n s Q F : 0 <= a -> a + n <= region -> Q (f (t_mem s)) s -> wp (read_with region f a n) s Q F.
Proof. intros Ha Hn HQ. unfold read_with. wstep. wstep; [unfold in_region; zcases|]. by wstep. Qed.

Lemma wp_write_bytes a bs s Q F : 0 <= a -> a + alen bs <= region -> Q tt (set_mem s (store_bytes (t_mem s) a bs)) -> wp (write_bytes region a bs) s Q F.
Proof. intros Ha Hn HQ. unfold write_bytes. wstep. wstep; [unfold in_region; zcases|]. by wstep. Qed.

Lemma wp_compare_and_swap a old new s Q F : 0 <= a -> a + 8 <= region ->
  Q (ld_le 8 (t_mem s) a) (if ld_le 8 (t_mem s) a =? old then set_mem s (store_bytes (t_mem s) a (le_bytes 8 new)) else s) ->
  wp (compare_and_swap region a old new) s Q F.
Proof.
  intros Ha Hn HQ. unfold compare_and_swap. wstep. apply wp_read_with; [done..|]. wstep. destruct (_ =? old).
  - apply wp_write_bytes; [done|by rewrite alen_le_bytes|]. by wstep.
  - wstep. by wstep.
Qed.

Lemma mod_pow_pow h d e : 0 <= d <= e -> (h mod 2 ^ e) mod 2 ^ d = h mod 2 ^ d.
Proof.
  intros Hde. apply Z.mod_mod_divide.
  exists (2 ^ (e - d)). rewrite <- Z.pow_add_r by lia. f_equal. lia.
Qed.

(** The subtable a key belongs to. *)
Lemma tab_of_key s gd dn tabs blocks k : base s gd dn tabs blocks -> exists t, t ∈ tabs /\ owns t k /\
  ld_le 8 (t_mem s) (entry_addr dir_addr (fst (hash_function k) mod 2 ^ gd)) = mk_entry 0 (td t) (tp t).
Proof.
  intros Hi. destruct (ba_dir _ _ _ _ _ Hi) as [_ Hr Ht He _]. assert (0 < 2 ^ gd) by (apply Z.pow_pos_nonneg; lia).
  destruct (He (fst (hash_function k) mod 2 ^ gd)) as (t & Hin & Hts & E); [by apply Z.mod_pos_bound|]. exists t. split; [done|]. split; [|done].
  unfold owns. rewrite <- Hts. destruct (Ht t Hin) as [Hd _]. by rewrite mod_pow_pow.
Qed.

Lemma dir_cached s gd dn tabs blocks : base s gd dn tabs blocks ->
  global_depth (t_dir s) = gd /\ (forall i, 0 <= i < kMaxSubTables g -> (subtables (t_dir s)).[i] = Some (ld_le 8 (t_mem s) (entry_addr dir_addr i))).
Proof.
  intros Hi. rewrite (ba_client _ _ _ _ _ Hi). split; [apply (do_depth _ _ _ (ba_dir _ _ _ _ _ Hi))|].
  intros i Hr. cbn [subtables directory_at]. rewrite aget_lookup, list_lookup_fmap, lookup_seqZ_lt by lia. cbn [fmap option_fmap option_map]. by replace (0 + Z.of_nat (Z.to_nat i)) with i by lia.
Qed.

Lemma wp_subtable_idx s gd dn tabs blocks k Q F : base s gd dn tabs blocks ->
  Q (fst (hash_function k) mod 2 ^ gd) s -> wp (subtable_idx (hash_function k)) s Q F.
Proof.
  intros Hi HQ. unfold subtable_idx. wsteps. destruct (dir_cached _ _ _ _ _ Hi) as [-> _]. destruct (ba_dir _ _ _ _ _ Hi) as [_ Hr _ _ _]. destruct Hg as [_ _ _ Hmx].
  apply wp_shift1; [lia|]. by wstep.
Qed.

Lemma wp_get_entry s gd dn tabs blocks i Q F : base s gd dn tabs blocks -> 0 <= i < kMaxSubTables g ->
  Q (ld_le 8 (t_mem s) (entry_addr dir_addr i)) s -> wp (get_entry i) s Q F.
Proof. intros Hi Hr HQ. unfold get_entry. wsteps. eapply wp_defined; [|exact HQ]. by apply (dir_cached _ _ _ _ _ Hi). Qed.

(** The buffers of the descriptors hold what the memory has. *)
Definition loaded s (ds : list BucketDesc) : Prop := forall d, d ∈ ds -> (t_bufs s).[buf d] = Some (bucket_at (t_mem s) (addr d)).

Lemma wp_read_group s a0 dn tabs blocks t i h F :
  bufs_ok s -> pool_held a0 dn tabs blocks -> t ∈ tabs -> i = 0 \/ i = 1 ->
  wp (read_group g region (tp t) i h) s (fun _ s' => quiet s s' /\
    (t_bufs s').[2 * i] = Some (bucket_at (t_mem s) (bucket_addr g (tp t) h)) /\
    (t_bufs s').[2 * i + 1] = Some (bucket_at (t_mem s) (bucket_addr g (tp t) h + sizeof_Bucket)) /\
    forall n, n <> 2 * i -> n <> 2 * i + 1 -> (t_bufs s').[n] = (t_bufs s).[n]) F.
Proof.
  intros Hb Hp Ht Hi. pose proof (bu_bufs _ Hb) as Hlen. destruct (table_held_inside _ _ _ _ Hp) as (_ & Hin & _). pose proof (Hin t Ht) as Htp. pose proof (group_range h) as Hgr.
  unfold read_group. wstep. unfold bucket_addr. fold (group h). unfold sizeof_SubTable, sizeof_Bucket in *.
  apply wp_read_with; [lia|lia|]. wsteps. cbn [fst snd].
  destruct (aset (t_bufs s) (2 * i) (bucket_at (t_mem s) (tp t + group h * 64))) as [l1|] eqn:E1; [|unfold aset, alen in E1; rewrite Hlen in E1; revert E1; zcases].
  destruct (aset l1 (2 * i + 1) (bucket_at (t_mem s) (tp t + group h * 64 + 64))) as [l2|] eqn:E2.
  2:{ pose proof (aset_alen _ _ _ _ E1) as Hl1. unfold aset in E2. rewrite Hl1 in E2. unfold alen in E2. rewrite Hlen in E2. revert E2. zcases. }
  eapply wp_defined; [cbn [mbind option_bind]; by rewrite E2|]. wstep. fields.
  assert (length l2 = 4%nat) as Hl2 by (pose proof (aset_alen _ _ _ _ E1); pose proof (aset_alen _ _ _ _ E2); unfold alen in *; lia).
  split_and!; [by apply quiet_set_bufs| | |].
  - rewrite (aget_aset_ne _ _ _ _ _ E2) by lia. by apply aget_aset_eq in E1.
  - by apply aget_aset_eq in E2.
  - intros n Hn1 Hn2. by rewrite (aget_aset_ne _ _ _ _ _ E2), (aget_aset_ne _ _ _ _ _ E1) by lia.
Qed.

Lemma wp_get_buf s ds d Q F : loaded s ds -> d ∈ ds -> Q (bucket_at (t_mem s) (addr d)) s -> wp (get_buf d) s Q F.
Proof. intros Hl Hd HQ. unfold get_buf. wsteps. eapply wp_defined; [|exact HQ]. by apply Hl. Qed.

(** In a subtable of the directory no bucket has been split. *)
Lemma wp_bucket_moved s gd dn tabs blocks t k ds d early F :
  base s gd dn tabs blocks -> t ∈ tabs -> loaded s ds -> d ∈ ds -> (exists b, 0 <= b < kTotalBuckets g /\ addr d = tp t + sizeof_Bucket * b) ->
  wp (bucket_moved early (td t) (hash_function k) d) s (fun r s' => r = false /\ s' = s) F.
Proof.
  intros Hi Ht Hl Hd (b & Hb & Ead). unfold bucket_moved. wstep. eapply wp_get_buf; [exact Hl|done|].
  assert (local_depth (bucket_at (t_mem s) (addr d)) = td t) as ->.
  { cbn [local_depth bucket_at]. rewrite Ead. by destruct (ba_headers _ _ _ _ _ Hi t b Ht Hb) as [-> _]. }
  destruct (do_tab _ _ _ (ba_dir _ _ _ _ _ Hi) t Ht) as [Hdt _]. pose proof (do_range _ _ _ (ba_dir _ _ _ _ _ Hi)). destruct Hg as [_ _ _ Hmx].
  rewrite Z.eqb_refl. wstep. destruct early; [wstep; apply wp_shift1; [lia|]|]; wstep; by wstep.
Qed.

Lemma wp_any_moved s gd dn tabs blocks t k ds early F :
  base s gd dn tabs blocks -> t ∈ tabs -> loaded s ds -> (forall d, d ∈ ds -> exists b, 0 <= b < kTotalBuckets g /\ addr d = tp t + sizeof_Bucket * b) ->
  wp (any_moved early (td t) (hash_function k) ds) s (fun r s' => r = false /\ s' = s) F.
Proof.
  intros Hi Ht Hl Hds. revert Hl Hds. induction ds as [|d ds IH]; intros Hl Hds; cbn [any_moved]; [by wstep|]. wstep.
  eapply wp_next; [eapply (wp_bucket_moved s); [exact Hi|exact Ht|exact Hl|by left|apply Hds; by left]|]. intros r s' [-> ->].
  apply IH; [intros d' Hd'; apply Hl|intros d' Hd'; apply Hds]; by right.
Qed.

Lemma descs_in_tab k t d : d ∈ bucket_descs g (tp t) (hash_function k) -> exists b, 0 <= b < kTotalBuckets g /\ addr d = tp t + sizeof_Bucket * b.
Proof using Hg. intros Hd. destruct (in_bucket_descs _ _ _ Hd) as (b & Hb & E). exists b. split; [by eapply cand_range|done]. Qed.

Lemma loaded_descs s s' p k :
  (t_bufs s').[2 * 0] = Some (bucket_at (t_mem s) (bucket_addr g p (fst (hash_function k)))) ->
  (t_bufs s').[2 * 0 + 1] = Some (bucket_at (t_mem s) (bucket_addr g p (fst (hash_function k)) + sizeof_Bucket)) ->
  (t_bufs s').[2 * 1] = Some (bucket_at (t_mem s) (bucket_addr g p (snd (hash_function k)))) ->
  (t_bufs s').[2 * 1 + 1] = Some (bucket_at (t_mem s) (bucket_addr g p (snd (hash_function k)) + sizeof_Bucket)) ->
  t_mem s' = t_mem s -> loaded s' (bucket_descs g p (hash_function k)).
Proof.
  intros H0 H1 H2 H3 Hm d. rewrite Hm. unfold bucket_descs, first_desc, second_desc. rewrite !elem_of_cons, elem_of_nil.
  intros [-> |[-> |[-> |[-> |[]]]]]; destruct (_ =? 0); cbn [buf addr]; done.
Qed.

Context (spin : nat) (Hspin : spin_ok spin).

Lemma spin_S : exists n, spin = S n.
Proof using Hspin. unfold spin_ok in Hspin. exists (pred spin). lia. Qed.

Lemma wp_read_bucket s gd dn tabs blocks k t c F :
  base s gd dn tabs blocks -> t ∈ tabs -> owns t k ->
  wp (read_bucket g region dir_addr spin (hash_function k) c) s
    (fun ds s' => ds = bucket_descs g (tp t) (hash_function k) /\ quiet s s' /\ loaded s' ds) F.
Proof.
  intros Hi Ht Ho. destruct (tab_of_key _ _ _ _ _ k Hi) as (t' & Ht' & Ho' & Ee). assert (t' = t) as -> by (by eapply (do_unique _ _ _ (ba_dir _ _ _ _ _ Hi))).
  destruct (do_tab _ _ _ (ba_dir _ _ _ _ _ Hi) t Ht) as [Hd _]. pose proof (do_range _ _ _ (ba_dir _ _ _ _ _ Hi)) as Hr. destruct Hg as [_ _ _ Hmx].
  pose proof (ba_pool _ _ _ _ _ Hi) as Hp. destruct (tab_entry _ _ _ _ t 0 (td t) Hp Ht) as (_ & Ed & Epp & _); [lia|lia|].
  unfold read_bucket. destruct spin_S as [n ->]. cbn [read_bucket_loop]. wstep. eapply wp_subtable_idx; [exact Hi|]. wstep.
  pose proof (pow_gd_max gd Hr) as Hpow. pose proof (Z.mod_pos_bound (fst (hash_function k)) (2 ^ gd) ltac:(lia)).
  eapply wp_get_entry; [exact Hi|lia|]. rewrite Ee, Epp, Ed.
  wstep. eapply wp_next; [eapply (wp_read_group s); [apply Hi|exact Hp|exact Ht|by left]|]. intros u s1 (Hq1 & B0 & B1 & _).
  wstep. eapply wp_next; [eapply (wp_read_group s1); [apply Hq1|exact Hp|exact Ht|by right]|]. intros u' s2 (Hq2 & B2 & B3 & Bo).
  assert (loaded s2 (bucket_descs g (tp t) (hash_function k))) as Hl.
  { pose proof (qu_mem _ _ Hq1) as Em1. pose proof (qu_mem _ _ Hq2) as Em2. rewrite Em1 in B2, B3. eapply (loaded_descs s); [rewrite Bo by lia; exact B0|rewrite Bo by lia; exact B1|done|done|congruence]. }
  assert (quiet s s2) as Hq by (by eapply client_quiet_trans). destruct c; cbn [negb]; [|by wstep].
  wstep. eapply wp_next; [eapply wp_any_moved; [by eapply base_quiet|exact Ht|exact Hl|intros d Hdd; by eapply descs_in_tab]|].
  intros r s3 [-> ->]. by wstep.
Qed.

(** ** Reading slots and blocks *)

Lemma elem_of_slot_list ds d j : (d, j) ∈ slot_list ds <-> d ∈ ds /\ 0 <= j < kAssociatedWays.
Proof.
  unfold slot_list. rewrite list_elem_of_bind. split.
  - intros (d' & Hj & Hd). apply list_elem_of_fmap in Hj as (j' & [= -> ->] & Hj). apply elem_of_seqZ in Hj. split; [done|lia].
  - intros [Hd Hj]. exists d. split; [|done]. apply list_elem_of_fmap. exists j. split; [done|]. apply elem_of_seqZ. lia.
Qed.

Lemma wp_slot_raw s ds d j Q F : loaded s ds -> d ∈ ds -> 0 <= j < kAssociatedWays ->
  Q (ld_le 8 (t_mem s) (get_slot_addr d j)) s -> wp (slot_raw d j) s Q F.
Proof.
  intros Hl Hd Hj HQ. unfold slot_raw. wstep. eapply wp_get_buf; [exact Hl|exact Hd|]. eapply wp_defined; [|exact HQ].
  cbn [slots bucket_at]. rewrite aget_lookup, list_lookup_fmap, lookup_seqZ_lt by lia. cbn [fmap option_fmap option_map].
  unfold get_slot_addr. by replace (addr d + 8 + 8 * (0 + Z.of_nat (Z.to_nat j))) with (addr d + 8 + j * 8) by lia.
Qed.

Lemma desc_slot tabs t d j : t ∈ tabs -> (exists b, 0 <= b < kTotalBuckets g /\ addr d = tp t + sizeof_Bucket * b) -> 0 <= j < kAssociatedWays ->
  exists b, is_slot tabs (get_slot_addr d j) t b j.
Proof. intros Ht (b & Hb & E) Hj. exists b. unfold is_slot, get_slot_addr, table_slot_addr. rewrite E. split_and!; try done; lia. Qed.

(** The block of a slot comes into the buffer. *)
Lemma wp_load_block s a0 dn tabs blocks x k v F :
  mem_ok (t_mem s) -> bufs_ok s -> pool_held a0 dn tabs blocks -> points blocks (t_mem s) x k v ->
  wp (load_block region (s_pointer x) (s_len x * kBlockLengthUnit)) s
    (fun b s' => s' = set_block s b /\ alen b = kMaxBlockLength /\ Forall byte_ok b /\
      exists bs, alen bs = s_len x * kBlockLengthUnit /\ sub_bytes b 0 (alen bs) = Some bs /\ kv_block bs k v) F.
Proof.
  intros Hm Hb Hp [(n & Hin & Hn) Hlen _ Hkv]. destruct (table_held_inside _ _ _ _ Hp) as (_ & _ & Hbl & _). destruct (Hbl _ Hin) as [Hb1 Hb2]. cbn [fst snd] in *.
  unfold load_block. wstep. unfold read_bytes. apply wp_read_with; [lia|lia|]. set (bs := load_bytes _ _ _) in *.
  assert (alen bs = s_len x * kBlockLengthUnit) as Hbs by (unfold bs, alen; rewrite length_load_bytes; lia).
  wsteps. destruct (put_step (t_block s) 0 bs kMaxBlockLength) as (b & E & L & Fb); [apply Hb|apply Hb|by apply load_bytes_ok|lia|lia|].
  eapply wp_defined; [exact E|]. wsteps. split_and!; try done. exists bs. split_and!; try done. by apply (sub_put_same (t_block s)).
Qed.

Lemma quiet_loaded s s' ds : quiet s s' -> t_bufs s' = t_bufs s -> loaded s ds -> loaded s' ds.
Proof. intros Hq Hb Hl d Hd. rewrite Hb, (qu_mem _ _ Hq). by apply Hl. Qed.

Lemma wp_read_block s a0 dn tabs blocks x k v key retry F :
  mem_ok (t_mem s) -> bufs_ok s -> pool_held a0 dn tabs blocks -> points blocks (t_mem s) x k v -> K k -> K key ->
  wp (read_block region key x retry) s
    (fun r s' => quiet s s' /\ t_bufs s' = t_bufs s /\ r = if decide (k = key) then Some v else None) F.
Proof.
  intros Hm Hb Hp Hpt Hk Hkey. unfold read_block. pose proof (po_len _ _ _ _ _ Hpt) as Hlen. wstep. wstep; [by rewrite (proj2 (Z.eqb_neq (s_len x * kBlockLengthUnit) 0)) by lia|]. wstep.
  eapply wp_next; [by eapply (wp_load_block s)|]. intros b s' (-> & L & Fb & bs & Hbs & Hs & Hkv). wstep.
  assert (4 <= alen bs) by (rewrite Hbs; unfold kBlockLengthUnit in *; lia).
  eapply wp_defined; [rewrite <- Hbs, (check_prefix _ _ Hs) by done; apply (kb_crc _ _ _ Hkv)|].
  eapply wp_defined; [eapply match_block_spec; [exact Hs|exact Hkv|by apply K_bytes|by apply K_bytes]|].
  split; [by apply quiet_set_block|]. split; [done|]. destruct (decide (k = key)) as [->|Hne].
  - by rewrite bool_decide_true.
  - rewrite bool_decide_false; [done|]. intros Hpre. by apply Hne, K_prefix.
Qed.

Lemma wp_find_entry s gd dn tabs blocks M loc t ds key F l :
  inv s gd dn tabs blocks M loc -> t ∈ tabs -> K key -> loaded s ds ->
  (forall d, d ∈ ds -> exists b, 0 <= b < kTotalBuckets g /\ addr d = tp t + sizeof_Bucket * b) -> (forall p, p ∈ l -> p ∈ slot_list ds) ->
  wp (find_entry region key (get_fingerprint (fst (hash_function key))) l) s
    (fun r s' => quiet s s' /\ t_bufs s' = t_bufs s /\
      match r with
      | Some (d, a, x, v) => d ∈ ds /\ (exists b j, is_slot tabs a t b j) /\ x = ld_le 8 (t_mem s) a /\ loc !! key = Some a /\ M !! key = Some v
      | None => forall p, p ∈ l -> loc !! key <> Some (get_slot_addr (fst p) (snd p))
      end) F.
Proof.
  intros Hi Ht HK Hl Hds. revert s Hi Hl. induction l as [|[d j] l IH]; intros s Hi Hl Hsub; cbn [find_entry].
  - wstep. split_and!; [by apply client_quiet_refl, Hi|done|]. intros p Hp. by apply elem_of_nil in Hp.
  - assert ((d, j) ∈ slot_list ds) as Hin by (apply Hsub; by left). apply elem_of_slot_list in Hin as [Hd Hj]. destruct (desc_slot tabs t d j Ht (Hds d Hd) Hj) as (b & Hslot).
    set (a := get_slot_addr d j) in *. wstep. eapply wp_slot_raw; [exact Hl|exact Hd|exact Hj|]. fold a.
    assert (forall s1, quiet s s1 -> t_bufs s1 = t_bufs s -> loc !! key <> Some a ->
      wp (find_entry region key (get_fingerprint (fst (hash_function key))) l) s1 (fun r s' => quiet s s' /\ t_bufs s' = t_bufs s /\
      match r with
      | Some (d, a, x, v) => d ∈ ds /\ (exists b j, is_slot tabs a t b j) /\ x = ld_le 8 (t_mem s) a /\ loc !! key = Some a /\ M !! key = Some v
      | None => forall p, p ∈ (d, j) :: l -> loc !! key <> Some (get_slot_addr (fst p) (snd p))
      end) F) as Hrest.
    { intros s1 Hq Hbu Hnot. eapply wp_next; [apply (IH s1); [by eapply inv_quiet|by eapply quiet_loaded|intros p Hp; apply Hsub; by right]|].
      intros r s2 (Hq2 & Hb2 & Hr). split; [by eapply client_quiet_trans|]. split; [congruence|]. rewrite (qu_mem _ _ Hq) in Hr. destruct r as [[[[d' a'] x'] v']|]; [done|].
      intros p [->|Hp]%elem_of_cons; [done|by apply Hr]. }
    pose proof (iv_slots _ _ _ _ _ _ _ Hi) as Hs. destruct (Z.eqb_spec (ld_le 8 (t_mem s) a) 0) as [E0|E0]; cbn [negb andb].
    { apply Hrest; [by apply client_quiet_refl, Hi|done|]. intros Hloc. destruct (so_loc _ _ _ _ _ _ Hs _ _ Hloc) as (_ & ? & ? & ? & ? & _ & _ & _ & _ & Hpt). by apply points_nonzero in Hpt. }
    destruct (so_all _ _ _ _ _ _ Hs _ _ _ _ Hslot E0) as (k & Hk). destruct (so_loc _ _ _ _ _ _ Hs _ _ Hk) as (HKk & ? & ? & ? & v & _ & _ & _ & HM & Hpt).
    destruct (Z.eqb_spec (s_fp (ld_le 8 (t_mem s) a)) (get_fingerprint (fst (hash_function key)))) as [Ef|Ef].
    + wstep. eapply wp_next; [eapply (wp_read_block s); [apply Hi|apply Hi|apply Hi|exact Hpt|done|done]|]. intros r s1 (Hq & Hbu & ->). destruct (decide (k = key)) as [->|Hne].
      * wstep. split_and!; try done. by exists b, j.
      * apply Hrest; try done. intros Hloc. destruct (so_loc _ _ _ _ _ _ Hs _ _ Hloc) as (_ & ? & ? & ? & ? & _ & _ & _ & _ & Hpt'). by destruct (points_inj _ _ _ _ _ _ _ Hpt Hpt').
    + apply Hrest; [by apply client_quiet_refl, Hi|done|]. intros Hloc. destruct (so_loc _ _ _ _ _ _ Hs _ _ Hloc) as (_ & ? & ? & ? & ? & _ & _ & _ & _ & Hpt'). by destruct (po_fp _ _ _ _ _ Hpt').
Qed.

(** A key that is in none of its slots is not in the map. *)
Lemma key_not_in_slots s gd dn tabs blocks M loc t key :
  inv s gd dn tabs blocks M loc -> t ∈ tabs -> owns t key ->
  (forall p, p ∈ slot_list (bucket_descs g (tp t) (hash_function key)) -> loc !! key <> Some (get_slot_addr (fst p) (snd p))) -> loc !! key = None /\ M !! key = None.
Proof.
  intros [Hi Hs _] Ht Ho Hnot. assert (loc !! key = None) as Hl; [|split; [done|by apply (so_dom _ _ _ _ _ _ Hs)]].
  destruct (loc !! key) as [a|] eqn:E; [|done]. destruct (so_loc _ _ _ _ _ _ Hs _ _ E) as (_ & t' & b & j & v & (Ht' & Hb & Hj & Ea) & Ho' & Hc & _).
  assert (t' = t) as -> by (by eapply (do_unique _ _ _ (ba_dir _ _ _ _ _ Hi))). destruct (cand_in_descs key (tp t) b Hc) as (d & Hd & Ead).
  destruct (Hnot (d, j)); [by apply elem_of_slot_list|]. f_equal. cbn [fst snd]. rewrite Ea. unfold get_slot_addr, table_slot_addr. rewrite Ead. lia.
Qed.

(** *** Slots that change *)

Section SlotChange.
Context (a0 : A) (dn : Z) (tabs : list tab) (blocks : list (Z * Z)) (Hp : pool_held a0 dn tabs blocks) (home : tab -> Z -> list Z -> Prop).
Context (m : mem) (M : gmap (list Z) (list Z)) (loc : gmap (list Z) Z) (Hs : slots_ok m tabs home blocks M loc).
Context (a : Z) (t : tab) (b j : Z) (Ha : is_slot tabs a t b j).

Lemma slots_replace x k v : loc !! k = Some a -> 0 <= x < 2 ^ 64 -> points blocks m x k v ->
  slots_ok (store_bytes m a (le_bytes 8 x)) tabs home blocks (<[k := v]> M) loc.
Proof using Hp Hs Ha.
  intros Hl Hx Hpt. pose proof (slot_store_points _ _ _ _ Hp m a x t b j Ha) as Hpts. split.
  - intros k' a' Hl'. destruct (so_loc _ _ _ _ _ _ Hs _ _ Hl') as (HK & t' & b' & j' & v' & Hslot & Hh & Hc & HM & Hpt'). split; [done|]. exists t', b', j'.
    destruct (decide (k' = k)) as [->|Hne].
    + rewrite Hl in Hl'. injection Hl' as <-. exists v. rewrite lookup_insert_eq, ld_store_same by done. split_and!; try done. by apply Hpts.
    + exists v'. rewrite lookup_insert_ne by done. split_and!; try done. destruct (decide (a' = a)) as [->|Hna].
      * destruct (so_loc _ _ _ _ _ _ Hs _ _ Hl) as (_ & ? & ? & ? & ? & _ & _ & _ & _ & Hpt2). by destruct (points_inj _ _ _ _ _ _ _ Hpt' Hpt2).
      * rewrite (slot_store_other _ _ _ _ Hp m a x t b j Ha _ _ _ _ Hslot Hna). by apply Hpts.
  - intros t' b' j' a' Hslot Hnz. destruct (decide (a' = a)) as [->|Hna]; [by exists k|]. rewrite (slot_store_other _ _ _ _ Hp m a x t b j Ha _ _ _ _ Hslot Hna) in Hnz. by eapply (so_all _ _ _ _ _ _ Hs).
  - intros k'. rewrite <- (so_dom _ _ _ _ _ _ Hs k'). destruct (decide (k' = k)) as [->|Hne]; [|by rewrite lookup_insert_ne].
    rewrite lookup_insert_eq. split; [done|]. intros HM. apply (so_dom _ _ _ _ _ _ Hs) in HM. congruence.
Qed.

Lemma slots_remove k : loc !! k = Some a -> slots_ok (store_bytes m a (le_bytes 8 0)) tabs home blocks (delete k M) (delete k loc).
Proof using Hp Hs Ha.
  intros Hl. pose proof (slot_store_points _ _ _ _ Hp m a 0 t b j Ha) as Hpts. split.
  - intros k' a' Hl'. apply lookup_delete_Some in Hl' as [Hne Hl']. destruct (so_loc _ _ _ _ _ _ Hs _ _ Hl') as (HK & t' & b' & j' & v' & Hslot & Hh & Hc & HM & Hpt'). split; [done|]. exists t', b', j', v'.
    rewrite lookup_delete_ne by done. split_and!; try done. destruct (decide (a' = a)) as [->|Hna].
    + destruct (so_loc _ _ _ _ _ _ Hs _ _ Hl) as (_ & ? & ? & ? & ? & _ & _ & _ & _ & Hpt2). by destruct (points_inj _ _ _ _ _ _ _ Hpt' Hpt2).
    + rewrite (slot_store_other _ _ _ _ Hp m a 0 t b j Ha _ _ _ _ Hslot Hna). by apply Hpts.
  - intros t' b' j' a' Hslot Hnz. destruct (decide (a' = a)) as [->|Hna]; [by rewrite ld_store_same in Hnz|].
    rewrite (slot_store_other _ _ _ _ Hp m a 0 t b j Ha _ _ _ _ Hslot Hna) in Hnz. destruct (so_all _ _ _ _ _ _ Hs _ _ _ _ Hslot Hnz) as (k' & Hk'). exists k'. rewrite lookup_delete_ne; [done|]. congruence.
  - intros k'. rewrite !lookup_delete_None. pose proof (so_dom _ _ _ _ _ _ Hs k'). tauto.
Qed.

Lemma slots_add x k v : loc !! k = None -> ld_le 8 m a = 0 -> K k -> home t b k -> cand k b -> 0 <= x < 2 ^ 64 -> points blocks m x k v ->
  slots_ok (store_bytes m a (le_bytes 8 x)) tabs home blocks (<[k := v]> M) (<[k := a]> loc).
Proof using Hp Hs Ha.
  intros Hl H0 HK Hh Hc Hx Hpt. pose proof (slot_store_points _ _ _ _ Hp m a x t b j Ha) as Hpts. split.
  - intros k' a' Hl'. destruct (decide (k' = k)) as [->|Hne].
    + rewrite lookup_insert_eq in Hl'. injection Hl' as <-. split; [done|]. exists t, b, j, v. rewrite lookup_insert_eq, ld_store_same by done. split_and!; try done. by apply Hpts.
    + rewrite lookup_insert_ne in Hl' by done. destruct (so_loc _ _ _ _ _ _ Hs _ _ Hl') as (HK' & t' & b' & j' & v' & Hslot & Hh' & Hc' & HM & Hpt'). split; [done|]. exists t', b', j', v'.
      rewrite lookup_insert_ne by done. split_and!; try done. destruct (decide (a' = a)) as [->|Hna]; [rewrite H0 in Hpt'; by apply points_nonzero in Hpt'|].
      rewrite (slot_store_other _ _ _ _ Hp m a x t b j Ha _ _ _ _ Hslot Hna). by apply Hpts.
  - intros t' b' j' a' Hslot Hnz. destruct (decide (a' = a)) as [->|Hna]; [exists k; by rewrite lookup_insert_eq|].
    rewrite (slot_store_other _ _ _ _ Hp m a x t b j Ha _ _ _ _ Hslot Hna) in Hnz. destruct (so_all _ _ _ _ _ _ Hs _ _ _ _ Hslot Hnz) as (k' & Hk'). exists k'. rewrite lookup_insert_ne; [done|]. congruence.
  - intros k'. destruct (decide (k' = k)) as [->|Hne]; [by rewrite !lookup_insert_eq|]. rewrite !lookup_insert_ne by done. apply Hs.
Qed.

End SlotChange.

(** Slots and blocks that read the same. *)
Lemma slots_ext m m' tabs home home' blocks blocks' M loc :
  slots_ok m tabs home blocks M loc -> (forall t b j a, is_slot tabs a t b j -> ld_le 8 m' a = ld_le 8 m a) ->
  (forall c, c ∈ blocks -> c ∈ blocks' /\ agree m m' (fst c) (snd c)) -> (forall t b k, t ∈ tabs -> 0 <= b < kTotalBuckets g -> home t b k -> home' t b k) -> slots_ok m' tabs home' blocks' M loc.
Proof.
  intros Hs Hsl Hb Hh. split; [| |apply Hs].
  - intros k a Hl. destruct (so_loc _ _ _ _ _ _ Hs _ _ Hl) as (HK & t & b & j & v & Hslot & Hho & Hc & HM & Hpt). split; [done|]. exists t, b, j, v.
    rewrite (Hsl _ _ _ _ Hslot). split_and!; try done; [apply Hh; [apply Hslot|apply Hslot|done]|]. by eapply points_frame.
  - intros t b j a Hslot. rewrite (Hsl _ _ _ _ Hslot). by apply (so_all _ _ _ _ _ _ Hs _ _ _ _ Hslot).
Qed.

(** ** Search *)

Section Search.
Context (std_hash : list Z -> Z) (fast_search_ : bool).

Lemma cache_idx_range key c : 0 < alen c -> 0 <= cache_idx std_hash key c < alen c.
Proof. intros Hc. unfold cache_idx. by apply Z.mod_pos_bound. Qed.

(** A change of the cache. *)
Lemma base_set_cache s gd dn tabs blocks c : base s gd dn tabs blocks -> cache_ok (t_mem s) tabs blocks c -> base (set_cache s c) gd dn tabs blocks.
Proof. intros [H1 H2 H3 H4 H5 H6 []] Hc. by split. Qed.

Lemma wp_cache_set s gd dn tabs blocks M loc key (e : option (list Z * (Z * Z))) F :
  inv s gd dn tabs blocks M loc ->
  match e with None => True | Some (k, (a, x)) => K k /\ (exists t b, t ∈ tabs /\ 0 <= b < kTotalBuckets g /\ a = tp t + sizeof_Bucket * b) /\ exists v, points blocks (t_mem s) x k v end ->
  wp (c ← gets t_cache; c ← defined (aset c (cache_idx std_hash key c) e); modify (fun s => set_cache s c)) s (fun _ s' => inv s' gd dn tabs blocks M loc) F.
Proof.
  intros [Hi Hs Hr] He. destruct (ba_cache _ _ _ _ _ Hi) as [Hlen Hall]. wsteps. pose proof (cache_idx_range key _ Hlen) as Hix.
  eapply wp_defined; [by apply aset_Some|]. wstep. split; [|done|done]. apply base_set_cache; [done|]. split; [unfold alen; rewrite length_insert; exact Hlen|by apply Forall_insert].
Qed.

(** What a cached slot says is true if the bucket still holds it. *)
Lemma wp_fast_search s gd dn tabs blocks M loc key F :
  inv s gd dn tabs blocks M loc -> K key ->
  wp (fast_search region std_hash fast_search_ key) s (fun r s' => inv s' gd dn tabs blocks M loc /\ match r with Some v => M !! key = Some v | None => True end) F.
Proof.
  intros Hinv HK. unfold fast_search. destruct fast_search_; cbn [negb]; [|by wstep]. pose proof (iv_base _ _ _ _ _ _ _ Hinv) as Hi. destruct (ba_cache _ _ _ _ _ Hi) as [Hlen Hall].
  wstep. unfold cache_find. wsteps. destruct (aget_is_Some (t_cache s) (cache_idx std_hash key (t_cache s)) (cache_idx_range _ _ Hlen)) as [e He]. eapply wp_defined; [exact He|]. wstep.
  pose proof (aget_Forall _ _ _ _ Hall He) as Hok. destruct e as [[k [a x]]|]; [|by wstep]. destruct (decide (k = key)) as [->|]; [|by wstep].
  destruct Hok as (_ & (t & b & Ht & Hb & ->) & v & Hpt). pose proof (ba_pool _ _ _ _ _ Hi) as Hp. destruct (table_held_inside _ _ _ _ Hp) as (_ & Hin & _). pose proof (Hin t Ht) as Htp.
  wstep. apply wp_read_with; [unfold sizeof_Bucket; lia|unfold sizeof_SubTable, sizeof_Bucket in *; lia|]. wsteps. pose proof (ba_bufs _ _ _ _ _ Hi) as Hbu.
  assert (alen (t_bufs s) = 4) as Hl4 by (unfold alen; by rewrite (bu_bufs _ Hbu)). eapply wp_defined; [apply aset_Some; lia|]. wsteps. set (s1 := set_bufs s _).
  assert (quiet s s1) as Hq1 by (apply quiet_set_bufs; [done|rewrite length_insert; apply Hbu]).
  eapply wp_next; [eapply (wp_read_block s1); [apply Hi|apply Hq1|exact Hp|exact Hpt|done|done]|]. intros r s2 (Hq2 & _ & ->). rewrite decide_True by done.
  assert (inv s2 gd dn tabs blocks M loc) as Hi2 by (by eapply inv_quiet; [exact Hinv|eapply client_quiet_trans]).
  destruct (holds_slot _ _ _) eqn:Eh; [|wstep; eapply wp_next; [by eapply (wp_cache_set s2 _ _ _ _ _ _ key None)|]; intros u s3 Hi3; by wstep].
  wstep. split; [done|]. assert (exists j, 0 <= j < kAssociatedWays /\ ld_le 8 (t_mem s) (table_slot_addr (tp t) b j) = x) as (j & Hj & Ex).
  { revert Eh. cbn [slots bucket_at]. generalize (seqZ 0 kAssociatedWays) (fun j : Z => proj1 (elem_of_seqZ 0 kAssociatedWays j)). intros l Hl Eh.
    induction l as [|j l IH]; cbn in Eh; [done|]. apply orb_true_iff in Eh as [Eh|Eh]; [|apply IH; [intros j' Hj'; apply Hl; by right|exact Eh]].
    apply andb_true_iff in Eh as [_ Eh%Z.eqb_eq]. exists j. split; [|exact Eh]. specialize (Hl j ltac:(by left)). lia. }
  assert (is_slot tabs (table_slot_addr (tp t) b j) t b j) as Hslot by exact (conj Ht (conj Hb (conj Hj eq_refl))).
  pose proof (iv_slots _ _ _ _ _ _ _ Hinv) as Hs. destruct (so_all _ _ _ _ _ _ Hs _ _ _ _ Hslot) as (k & Hk); [rewrite Ex; by eapply points_nonzero|].
  destruct (so_loc _ _ _ _ _ _ Hs _ _ Hk) as (_ & ? & ? & ? & v' & _ & _ & _ & HM & Hpt'). rewrite Ex in Hpt'. destruct (points_inj _ _ _ _ _ _ _ Hpt Hpt') as [-> ->]. done.
Qed.

Lemma search_ok s gd dn tabs blocks M loc key F :
  inv s gd dn tabs blocks M loc -> K key ->
  wp (search g region dir_addr std_hash fast_search_ spin key) s (fun r s' => r = M !! key /\ inv s' gd dn tabs blocks M loc) F.
Proof.
  intros Hinv HK. unfold search. wstep. eapply wp_next; [by eapply wp_fast_search|]. intros r s1 [Hi1 Hr]. destruct r as [v|]; [wstep; by split|].
  cbn [search_loop]. pose proof (iv_base _ _ _ _ _ _ _ Hi1) as Hb1. destruct (tab_of_key _ _ _ _ _ key Hb1) as (t & Ht & Ho & Ee).
  pose proof (do_range _ _ _ (ba_dir _ _ _ _ _ Hb1)) as Hrg. pose proof (pow_gd_max gd Hrg) as Hpow. pose proof (Z.mod_pos_bound (fst (hash_function key)) (2 ^ gd) ltac:(lia)).
  wstep. eapply wp_subtable_idx; [exact Hb1|]. wstep. eapply wp_get_entry; [exact Hb1|lia|]. wstep.
  eapply wp_next; [by eapply (wp_read_bucket s1)|]. intros ds s2 (-> & Hq2 & Hl2). assert (inv s2 gd dn tabs blocks M loc) as Hi2 by (by eapply inv_quiet). wstep.
  eapply wp_next; [eapply (wp_find_entry s2 gd dn tabs blocks M loc t); [done|done|done|exact Hl2|intros d Hd; by eapply descs_in_tab|done]|].
  intros r s3 (Hq3 & Hb3 & Hr3). assert (inv s3 gd dn tabs blocks M loc) as Hi3 by (by eapply inv_quiet). destruct r as [[[[d a] x] v]|].
  - destruct Hr3 as (Hd & Hslot & -> & Hl & HM). destruct fast_search_.
    + wstep. eapply wp_next; [eapply (wp_cache_set s3); [exact Hi3|]|intros u s4 Hi4; wstep; by split]. split; [done|]. split.
      * destruct (descs_in_tab _ _ _ Hd) as (b & Hb & E). by exists t, b.
      * destruct (so_loc _ _ _ _ _ _ (iv_slots _ _ _ _ _ _ _ Hi2) _ _ Hl) as (_ & ? & ? & ? & v' & _ & _ & _ & _ & Hpt). exists v'. by rewrite (qu_mem _ _ Hq3).
    + wstep. wstep. by wstep.
  - destruct (key_not_in_slots _ _ _ _ _ _ _ _ _ Hi3 Ht Ho Hr3) as [_ HM]. wstep. rewrite Ee.
    assert (e_depth (mk_entry 0 (td t) (tp t)) = td t) as ->.
    { destruct (do_tab _ _ _ (ba_dir _ _ _ _ _ Hb1) t Ht) as [Hd _]. destruct Hg as [_ _ _ Hmx]. by destruct (tab_entry _ _ _ _ t 0 (td t) (ba_pool _ _ _ _ _ Hb1) Ht) as (_ & -> & _); [lia..|]. }
    eapply wp_next; [eapply (wp_any_moved s3); [apply Hi3|exact Ht|by eapply quiet_loaded|intros d Hd; by eapply descs_in_tab]|]. intros r s4 [-> ->]. wstep. by split.
Qed.

End Search.

(** ** New blocks *)

Section NewBlock.
Context (n n' : A) (dn : Z) (tabs : list tab) (blocks : list (Z * Z)) (x len : Z).
Context (Hp : pool_held n dn tabs blocks) (Hn : in_ok n' ((x, len) :: held dn tabs blocks)) (m : mem) (bs : list Z) (Hbs : alen bs <= len).

Lemma pool_new_block : pool_held n' dn tabs ((x, len) :: blocks).
Proof using Hp Hn.
  destruct Hp as [_ H1 H2]. split; try done. unfold held in *. eapply in_ok_perm; [|exact Hn]. rewrite (Permutation_app_comm _ ((x, len) :: blocks)). cbn.
  rewrite perm_swap, (Permutation_app_comm blocks). done.
Qed.

(** What is held is apart from the new block. *)
Lemma new_block_agree c k : c ∈ held dn tabs blocks -> k <= snd c -> agree m (store_bytes m x bs) (fst c) k.
Proof using Hn Hbs.
  intros Hc Hk. apply agree_store. apply in_ok_disj in Hn. destruct Hn as [Hd _]. rewrite Forall_forall in Hd. destruct (Hd c Hc) as [H|H]; cbn in H; lia.
Qed.

Lemma new_block_tab t b k : t ∈ tabs -> tp t <= b -> b + k <= tp t + sizeof_SubTable g -> agree m (store_bytes m x bs) b k.
Proof using Hp Hn Hbs.
  intros Ht Hb Hk. destruct (table_held_inside _ _ _ _ Hp) as (_ & Hin & _). pose proof (Hin t Ht). eapply agree_sub; [apply (new_block_agree (tp t, tn t) (tn t)); [|cbn; lia]|cbn; lia|cbn; lia].
  apply elem_of_cons. right. apply elem_of_app. left. by apply (list_elem_of_fmap_2 (fun t => (tp t, tn t))).
Qed.

Lemma new_block_frame c : c ∈ blocks -> c ∈ (x, len) :: blocks /\ agree m (store_bytes m x bs) (fst c) (snd c).
Proof using Hn Hbs. intros Hc. split; [by right|]. apply new_block_agree; [|lia]. apply elem_of_cons. right. apply elem_of_app. by right. Qed.

Lemma new_block_dir : agree m (store_bytes m x bs) dir_addr (sizeof_Directory g).
Proof using Hp Hn Hbs. apply (new_block_agree (dir_addr, dn)); [by left|]. apply Hp. Qed.

End NewBlock.

Lemma inv_new_block s gd dn tabs blocks M loc n' x len bs b :
  inv s gd dn tabs blocks M loc -> in_ok n' ((x, len) :: held dn tabs blocks) -> alen bs <= len -> alen b = kMaxBlockLength -> Forall byte_ok b ->
  inv (set_mem (set_block (set_node s n') b) (store_bytes (t_mem s) x bs)) gd dn tabs ((x, len) :: blocks) M loc.
Proof.
  intros [[Hm Hp Hd Hh Hc Hdc Hb] Hs Hr] Hn Hbs Hl Hby. pose proof (new_block_dir _ _ _ _ _ _ _ Hp Hn (t_mem s) bs Hbs) as Hdir.
  split; [split; fields|fields|fields]; try done.
  - by apply store_bytes_mem_ok.
  - by eapply pool_new_block.
  - by eapply dir_ok_frame.
  - intros t i Ht Hi. destruct (Hh t i Ht Hi) as [<- <-].
    assert (agree (t_mem s) (store_bytes (t_mem s) x bs) (tp t + sizeof_Bucket * i) 8) as Hag by (eapply (new_block_tab _ _ _ _ _ _ _ Hp Hn); [done|done|unfold sizeof_Bucket; lia|unfold sizeof_SubTable, sizeof_Bucket; lia]).
    split; [eapply agree_ld; [exact Hag|lia]|eapply agree_ld; [eapply (agree_sub _ _ _ _ _ 4); [exact Hag|lia|lia]|lia]].
  - eapply cache_ok_frame; [exact Hc|by eapply new_block_frame|by eauto].
  - by rewrite (directory_frame (t_mem s)) by done.
  - destruct Hb. by split.
  - eapply slots_ext; [exact Hs| |by eapply new_block_frame|done]. intros t i j a Hslot. pose proof (slot_in_tab _ _ _ _ _ Hslot). eapply (agree_ld _ _ _ _ 8); [|lia].
    eapply (new_block_tab _ _ _ _ _ _ _ Hp Hn); [done|apply Hslot|lia|lia].
Qed.

Lemma fingerprint_range h : 0 <= get_fingerprint h < 2 ^ 8.
Proof. unfold get_fingerprint. change 255 with (2 ^ 8 - 1). rewrite land_mod by lia. apply Z.mod_pos_bound. lia. Qed.

Definition value_fits (key value : list Z) : Prop := Forall byte_ok value /\ get_kv_block_len key value <= kMaxBlockLength.

Lemma wp_write_block s gd dn tabs blocks M loc key value :
  inv s gd dn tabs blocks M loc -> K key -> value_fits key value ->
  wp (write_block region key value) s (fun r s' => exists n, inv s' gd dn tabs ((snd r, n) :: blocks) M loc /\
    points ((snd r, n) :: blocks) (t_mem s') (fst r) key (strz value) /\ 0 <= fst r < 2 ^ 64 /\
    forall a t b j, is_slot tabs a t b j -> ld_le 8 (t_mem s') a = ld_le 8 (t_mem s) a) (fun w => w = NoMemory).
Proof.
  intros Hinv HK [Hv Hfit]. pose proof (iv_base _ _ _ _ _ _ _ Hinv) as Hi. pose proof (block_len_bounds key value) as [Hbl Hmod]. pose proof (alen_nonneg key). pose proof (alen_nonneg value).
  set (n := get_kv_block_len key value) in *. unfold kMaxBlockLength in Hfit. unfold write_block. fold n. wsteps.
  destruct (in_alloc_spec (t_node s) _ n (ph_ok _ _ _ _ (ba_pool _ _ _ _ _ Hi)) ltac:(lia)) as (r & a' & E & Hr). eapply wp_defined; [exact E|]. wsteps. cbn [fst snd]. destruct r as [x|]; [|by apply wp_stopped].
  destruct Hr as (len & Hlen & Hok). destruct (in_ok_inside _ _ (x, len) Hok) as (Hx1 & Hx2 & Hx3 & Hx4 & Hreg); [by left|]. cbn [fst snd] in *.
  destruct (fill_block_spec (t_block s) key value) as (b & bs & Ef & Lb & Fb & Esub & Hkv); [apply Hi|apply Hi|by apply K_bytes|done|done|]. fold n in Esub.
  pose proof (sub_bytes_length _ _ _ _ Esub) as Lbs. wsteps. eapply wp_defined; [exact Ef|]. wsteps. eapply wp_defined; [exact Esub|]. wsteps.
  apply wp_write_bytes; [lia|lia|]. wstep. fields. cbn [fst snd]. exists len.
  destruct (mk_slot_fields (get_fingerprint (fst (hash_function key))) (n / kBlockLengthUnit) x) as (E1 & E2 & E3 & E4); [apply fingerprint_range|unfold kBlockLengthUnit; dlia|lia|].
  split; [apply (inv_new_block s); [done|done|lia|done|done]|].
  enough (points ((x, len) :: blocks) (store_bytes (t_mem s) x bs) (mk_slot (get_fingerprint (fst (hash_function key))) (n / kBlockLengthUnit) x) key (strz value)) as Hpt.
  { split; [exact Hpt|]. split; [exact E4|]. intros a t i j Hslot. pose proof (slot_in_tab _ _ _ _ _ Hslot). eapply (agree_ld _ _ _ _ 8); [|lia].
    eapply (new_block_tab _ _ _ _ _ _ _ (ba_pool _ _ _ _ _ Hi) Hok); [lia|apply Hslot|lia|lia]. }
  assert (n / kBlockLengthUnit * kBlockLengthUnit = n) as En by (unfold kBlockLengthUnit; dlia). split.
  - exists len. rewrite E2, E3, En. split; [by left|done].
  - rewrite E2, En. unfold kMaxBlockLength. lia.
  - exact E1.
  - rewrite E2, E3, En. replace (Z.to_nat n) with (length bs) by (unfold alen in Lbs; lia). rewrite load_store_same by (by eapply sub_bytes_ok).
    by rewrite <- (strz_id key) at 1 by (by apply K_bytes).
Qed.

(** ** Update, read-modify-write, remove *)

Lemma slot_region a0 dn tabs blocks a t b j : pool_held a0 dn tabs blocks -> is_slot tabs a t b j -> 0 <= a /\ a + 8 <= region.
Proof. intros Hp Hs. pose proof (slot_in_tab _ _ _ _ _ Hs). destruct (table_held_inside _ _ _ _ Hp) as (_ & Hin & _). pose proof (Hin t (proj1 Hs)). lia. Qed.

Lemma wp_swap_slot s a0 dn tabs blocks a t b j x y Q F :
  pool_held a0 dn tabs blocks -> is_slot tabs a t b j -> ld_le 8 (t_mem s) a = x ->
  Q (0, x) (set_mem s (store_bytes (t_mem s) a (le_bytes 8 y))) -> wp (atomic_update_slot region a x y) s Q F.
Proof.
  intros Hp Hs Hx HQ. destruct (slot_region _ _ _ _ _ _ _ _ Hp Hs). unfold atomic_update_slot. wstep. apply wp_compare_and_swap; [done..|]. rewrite Hx, Z.eqb_refl. by wstep.
Qed.

(** The search for the slot of a key, common to the three operations. *)
Lemma wp_find_key {U} s gd dn tabs blocks M loc key (k : option (BucketDesc * Z * Z * list Z) -> comp (table A) U) Q F :
  inv s gd dn tabs blocks M loc -> K key ->
  (forall s', inv s' gd dn tabs blocks M loc -> M !! key = None -> wp (k None) s' Q F) ->
  (forall s' d a t b j v, inv s' gd dn tabs blocks M loc -> t_mem s' = t_mem s -> is_slot tabs a t b j -> loc !! key = Some a -> M !! key = Some v ->
    wp (k (Some (d, a, ld_le 8 (t_mem s') a, v))) s' Q F) ->
  wp (ds ← read_bucket g region dir_addr spin (hash_function key) true;
      r ← find_entry region key (get_fingerprint (fst (hash_function key))) (slot_list ds); k r) s Q F.
Proof.
  intros Hinv HK Hno Hyes. pose proof (iv_base _ _ _ _ _ _ _ Hinv) as Hi. destruct (tab_of_key _ _ _ _ _ key Hi) as (t & Ht & Ho & _). wstep.
  eapply wp_next; [by eapply (wp_read_bucket s)|]. intros ds s2 (-> & Hq2 & Hl2). assert (inv s2 gd dn tabs blocks M loc) as Hi2 by (by eapply inv_quiet). wstep.
  eapply wp_next; [eapply (wp_find_entry s2 gd dn tabs blocks M loc t); [done|done|done|exact Hl2|intros d Hd; by eapply descs_in_tab|done]|].
  intros r s3 (Hq3 & Hb3 & Hr3). assert (inv s3 gd dn tabs blocks M loc) as Hi3 by (by eapply inv_quiet). destruct r as [[[[d a] x] v]|].
  - destruct Hr3 as (_ & (b & j & Hslot) & -> & Hl & HM). rewrite <- (qu_mem _ _ Hq3). eapply Hyes; try done. by rewrite (qu_mem _ _ Hq3), (qu_mem _ _ Hq2).
  - apply Hno; [done|]. by apply (key_not_in_slots _ _ _ _ _ _ _ _ _ Hi3 Ht Ho Hr3).
Qed.

(** The slot of a key takes a new block, or becomes empty. *)
Lemma inv_replace s gd dn tabs blocks M loc a t b j x key v :
  inv s gd dn tabs blocks M loc -> is_slot tabs a t b j -> loc !! key = Some a -> 0 <= x < 2 ^ 64 -> points blocks (t_mem s) x key v ->
  inv (set_mem s (store_bytes (t_mem s) a (le_bytes 8 x))) gd dn tabs blocks (<[key := v]> M) loc.
Proof. intros [Hi Hs Hr] Hslot Hl Hx Hpt. split; [by eapply base_slot_store| |done]. eapply slots_replace; [apply Hi|done..]. Qed.

Lemma inv_remove s gd dn tabs blocks M loc a t b j key :
  inv s gd dn tabs blocks M loc -> is_slot tabs a t b j -> loc !! key = Some a ->
  inv (set_mem s (store_bytes (t_mem s) a (le_bytes 8 0))) gd dn tabs blocks (delete key M) (delete key loc).
Proof. intros [Hi Hs Hr] Hslot Hl. split; [by eapply base_slot_store| |done]. eapply slots_remove; [apply Hi|done..]. Qed.

Lemma update_loop_ok fuel s gd dn tabs blocks M loc key x value F :
  (0 < fuel)%nat -> inv s gd dn tabs blocks M loc -> K key -> points blocks (t_mem s) x key value -> 0 <= x < 2 ^ 64 ->
  wp (update_loop g region dir_addr spin fuel key x) s (fun rc s' =>
    match M !! key with
    | None => rc = ENOENT /\ inv s' gd dn tabs blocks M loc
    | Some _ => rc = 0 /\ inv s' gd dn tabs blocks (<[key := value]> M) loc
    end) F.
Proof.
  intros Hf Hinv HK Hpt Hx. destruct fuel as [|fuel]; [lia|]. cbn [update_loop]. eapply wp_find_key; [exact Hinv|done| |].
  - intros s2 Hi2 ->. by wstep.
  - intros s2 d a t b j v Hi2 Hm Hslot Hl ->. wstep. eapply (wp_swap_slot s2); [apply Hi2|exact Hslot|done|]. cbn [fst]. rewrite Z.eqb_refl. wstep.
    split; [done|]. eapply inv_replace; [exact Hi2|exact Hslot|done|done|]. by rewrite Hm.
Qed.

Lemma update_ok s gd dn tabs blocks M loc key value :
  inv s gd dn tabs blocks M loc -> K key -> value_fits key value ->
  wp (update g region dir_addr spin key value) s (fun rc s' => exists blocks',
    match M !! key with
    | None => rc = ENOENT /\ inv s' gd dn tabs blocks' M loc
    | Some _ => rc = 0 /\ inv s' gd dn tabs blocks' (<[key := strz value]> M) loc
    end) (fun w => w = NoMemory).
Proof.
  intros Hinv HK Hv. unfold update. wstep. eapply wp_next; [by eapply wp_write_block|]. intros [x a] s1 (n & Hi1 & Hpt & Hx & _). cbn [fst snd] in *.
  eapply wp_next; [eapply update_loop_ok; [unfold spin_ok in Hspin; lia|exact Hi1|done|exact Hpt|done]|]. intros rc s2 H2. by exists ((a, n) :: blocks).
Qed.

Lemma rmw_loop_ok fuel s gd dn tabs blocks M loc key f :
  (0 < fuel)%nat -> inv s gd dn tabs blocks M loc -> K key -> (forall v, M !! key = Some v -> value_fits key (f v)) ->
  wp (rmw_loop g region dir_addr spin fuel key f) s (fun rc s' => exists blocks',
    match M !! key with
    | None => rc = ENOENT /\ inv s' gd dn tabs blocks' M loc
    | Some v => rc = 0 /\ inv s' gd dn tabs blocks' (<[key := strz (f v)]> M) loc
    end) (fun w => w = NoMemory).
Proof.
  intros Hf Hinv HK Hv. destruct fuel as [|fuel]; [lia|]. cbn [rmw_loop]. eapply wp_find_key; [exact Hinv|done| |].
  - intros s2 Hi2 ->. wstep. by exists blocks.
  - intros s2 d a t b j v Hi2 Hm Hslot Hl HM. rewrite HM. wstep. eapply wp_next; [eapply wp_write_block; [exact Hi2|done|by apply Hv]|].
    intros [x a'] s3 (n & Hi3 & Hpt & Hx & Hsame). cbn [fst snd] in *. wstep. rewrite <- (Hsame _ _ _ _ Hslot).
    eapply (wp_swap_slot s3); [apply Hi3|exact Hslot|done|]. cbn [fst]. rewrite Z.eqb_refl. wstep. exists ((a', n) :: blocks). split; [done|]. by eapply inv_replace.
Qed.

Lemma remove_loop_ok fuel s gd dn tabs blocks M loc key F :
  (0 < fuel)%nat -> inv s gd dn tabs blocks M loc -> K key ->
  wp (remove_loop g region dir_addr spin fuel key) s (fun rc s' =>
    match M !! key with
    | None => rc = ENOENT /\ inv s' gd dn tabs blocks M loc
    | Some v => rc = 0 /\ inv s' gd dn tabs blocks (delete key M) (delete key loc)
    end) F.
Proof.
  intros Hf Hinv HK. destruct fuel as [|fuel]; [lia|]. cbn [remove_loop]. eapply wp_find_key; [exact Hinv|done| |].
  - intros s2 Hi2 ->. by wstep.
  - intros s2 d a t b j v Hi2 Hm Hslot Hl ->. wstep. eapply (wp_swap_slot s2); [apply Hi2|exact Hslot|done|]. cbn [fst]. rewrite Z.eqb_refl. wstep.
    split; [done|]. by eapply inv_remove.
Qed.

(** ** The directory while it changes *)

Definition upd (f : Z -> Z) (i e : Z) : Z -> Z := fun j => if j =? i then e else f j.

(** The entries of the directory in memory and in the client's copy. *)
Record dir_view s (gd : Z) (mf cf : Z -> Z) : Prop := {
  dv_depth : ld_le 8 (t_mem s) dir_addr = gd;
  dv_cached : global_depth (t_dir s) = gd;
  dv_length : alen (subtables (t_dir s)) = kMaxSubTables g;
  dv_mem i : 0 <= i < kMaxSubTables g -> ld_le 8 (t_mem s) (entry_addr dir_addr i) = mf i;
  dv_copy i : 0 <= i < kMaxSubTables g -> (subtables (t_dir s)).[i] = Some (cf i);
  dv_lock : global_lock (t_dir s) = ld_le 8 (t_mem s) (dir_addr + 8 + 8 * kMaxSubTables g) }.

Lemma view_ext s gd mf cf mf' cf' : dir_view s gd mf cf -> (forall i, 0 <= i < kMaxSubTables g -> mf' i = mf i) -> (forall i, 0 <= i < kMaxSubTables g -> cf' i = cf i) -> dir_view s gd mf' cf'.
Proof. intros [] Hm Hc. split; try done; intros i Hi; [rewrite Hm by done|rewrite Hc by done]; auto. Qed.

(** Only the directory and its copy differ. *)
Record dstep s s' : Prop := {
  dt_node : t_node s' = t_node s; dt_bufs : t_bufs s' = t_bufs s; dt_block : t_block s' = t_block s; dt_cache : t_cache s' = t_cache s;
  dt_old : t_old s' = t_old s; dt_new : t_new s' = t_new s;
  dt_resize : resize_suffix s' = resize_suffix s /\ resize_lock_cnt s' = resize_lock_cnt s /\ resize_lock s' = resize_lock s;
  dt_bytes : mem_ok (t_mem s) -> mem_ok (t_mem s');
  dt_mem : same_outside dir_addr (dir_addr + sizeof_Directory g) (t_mem s) (t_mem s') }.

Lemma dstep_refl s : dstep s s.
Proof. by split. Qed.
Lemma dstep_trans s s' s'' : dstep s s' -> dstep s' s'' -> dstep s s''.
Proof. intros [] []. split; try congruence; [intuition congruence|auto|by etrans]. Qed.
Lemma dstep_set_dir s d : dstep s (set_dir s d).
Proof. by split. Qed.
Lemma dstep_store s i e : 0 <= i < kMaxSubTables g -> dstep s (set_mem s (store_bytes (t_mem s) (entry_addr dir_addr i) (le_bytes 8 e))).
Proof.
  intros Hi. pose proof (entry_in_dir i Hi). split; try done; fields; [by apply store_bytes_mem_ok|]. apply same_outside_store; [lia|]. rewrite length_le_bytes. lia.
Qed.

Lemma view_of_base s gd dn tabs blocks : base s gd dn tabs blocks -> let f i := ld_le 8 (t_mem s) (entry_addr dir_addr i) in dir_view s gd f f.
Proof.
  intros Hi f. destruct (dir_cached _ _ _ _ _ Hi) as [Hgd He]. split; try done.
  - apply (do_depth _ _ _ (ba_dir _ _ _ _ _ Hi)).
  - rewrite (ba_client _ _ _ _ _ Hi). cbn [subtables directory_at]. unfold alen. rewrite length_fmap, length_seqZ.
    assert (0 < kMaxSubTables g) by (apply Z.pow_pos_nonneg; destruct Hg; lia). lia.
  - by rewrite (ba_client _ _ _ _ _ Hi).
Qed.

Lemma view_coherent s gd f : dir_view s gd f f -> t_dir s = directory_at g (t_mem s) dir_addr.
Proof.
  intros [H1 H2 H3 H4 H5 H6]. unfold directory_at. destruct (t_dir s) as [a l b]. cbn [global_depth subtables global_lock] in *. f_equal; [congruence| |done].
  apply alist_eq; [rewrite H3; unfold alen; rewrite length_fmap, length_seqZ; assert (0 < kMaxSubTables g) by (apply Z.pow_pos_nonneg; destruct Hg; lia); lia|].
  intros i Hi. rewrite H5 by lia. rewrite <- H4 by lia. rewrite aget_lookup, list_lookup_fmap, lookup_seqZ_lt by lia. cbn [fmap option_fmap option_map]. by replace (0 + Z.of_nat (Z.to_nat i)) with i by lia.
Qed.

Lemma view_get_entry s gd mf cf i Q F : dir_view s gd mf cf -> 0 <= i < kMaxSubTables g -> Q (cf i) s -> wp (get_entry i) s Q F.
Proof. intros Hv Hi HQ. unfold get_entry. wsteps. eapply wp_defined; [by apply Hv|done]. Qed.

Lemma view_set_entry s gd mf cf i e Q F : dir_view s gd mf cf -> 0 <= i < kMaxSubTables g ->
  (forall s', dstep s s' -> dir_view s' gd mf (upd cf i e) -> t_mem s' = t_mem s -> Q tt s') -> wp (set_entry i e) s Q F.
Proof.
  intros [H1 H2 H3 H4 H5 H6] Hi HQ. unfold set_entry. wsteps. destruct (aset (subtables (t_dir s)) i e) as [l|] eqn:E; [|rewrite aset_Some in E by lia; done].
  eapply wp_defined; [done|]. wstep. apply HQ; [apply dstep_set_dir| |done]. split; fields; cbn [global_depth subtables global_lock]; try done.
  - by rewrite (aset_alen _ _ _ _ E).
  - intros j Hj. unfold upd. destruct (Z.eqb_spec j i) as [->|Hne]; [by apply aget_aset_eq in E|]. rewrite (aget_aset_ne _ _ _ _ _ E) by lia. by apply H5.
Qed.

Lemma view_store s gd mf cf i e : dir_view s gd mf cf -> 0 <= i < kMaxSubTables g -> 0 <= e < 2 ^ 64 ->
  dir_view (set_mem s (store_bytes (t_mem s) (entry_addr dir_addr i) (le_bytes 8 e))) gd (upd mf i e) cf.
Proof.
  intros [H1 H2 H3 H4 H5 H6] Hi He. assert (forall a, a + 8 <= entry_addr dir_addr i \/ entry_addr dir_addr i + 8 <= a -> ld_le 8 (store_bytes (t_mem s) (entry_addr dir_addr i) (le_bytes 8 e)) a = ld_le 8 (t_mem s) a) as Hout.
  { intros a Ha. eapply (agree_ld _ _ _ _ 8); [|lia]. apply agree_store. rewrite alen_le_bytes. lia. }
  split; fields; try done.
  - rewrite Hout; [done|]. unfold entry_addr. lia.
  - intros j Hj. unfold upd. destruct (Z.eqb_spec j i) as [->|Hne]; [by apply ld_store_same|]. rewrite Hout; [by apply H4|]. unfold entry_addr. lia.
  - rewrite Hout; [done|]. unfold entry_addr. lia.
Qed.

Lemma view_quiet s s' gd mf cf : dir_view s gd mf cf -> t_dir s' = t_dir s -> agree (t_mem s) (t_mem s') dir_addr (sizeof_Directory g) -> dir_view s' gd mf cf.
Proof.
  intros [H1 H2 H3 H4 H5 H6] Hd Hag. assert (0 < kMaxSubTables g) by (apply Z.pow_pos_nonneg; destruct Hg; lia). unfold sizeof_Directory in Hag.
  assert (forall a, dir_addr <= a -> a + 8 <= dir_addr + (8 + 8 * kMaxSubTables g + 8) -> ld_le 8 (t_mem s') a = ld_le 8 (t_mem s) a) as Hin.
  { intros a Ha1 Ha2. eapply (agree_ld _ _ _ _ 8); [|lia]. eapply agree_sub; [exact Hag|lia|lia]. }
  split; rewrite ?Hd; try done; [rewrite Hin by lia; done| |rewrite Hin by lia; done]. intros i Hi. rewrite Hin; [by apply H4|unfold entry_addr; lia..].
Qed.

Lemma length_words l : length (concat (le_bytes 8 <$> l)) = (8 * length l)%nat.
Proof. induction l as [|x l IH]; [done|]. rewrite fmap_cons. cbn [concat length]. rewrite length_app, length_le_bytes, IH. lia. Qed.

(** The words of a block that was written. *)
Lemma ld_store_words l : forall m a i v, Forall (fun x => 0 <= x < 2 ^ 64) l -> l !! i = Some v ->
  ld_le 8 (store_bytes m a (concat (le_bytes 8 <$> l))) (a + 8 * Z.of_nat i) = v.
Proof.
  induction l as [|x l IH]; intros m a i v Hl Hi; [done|]. apply Forall_cons in Hl as [Hx Hl]. rewrite fmap_cons. cbn [concat]. rewrite store_bytes_app, length_le_bytes. destruct i as [|i].
  - injection Hi as <-. replace (a + 8 * Z.of_nat 0) with a by lia. rewrite <- (ld_store_same m a x Hx) at 2. eapply (agree_ld _ _ _ _ 8); [|lia]. apply agree_store. lia.
  - replace (a + 8 * Z.of_nat (S i)) with (a + Z.of_nat 8 + 8 * Z.of_nat i) by lia. by apply IH.
Qed.

Section Directory.
Context (Hdir : 0 < dir_addr /\ dir_addr + sizeof_Directory g <= region).

Lemma entry_region i : 0 <= i < kMaxSubTables g -> 0 <= entry_addr dir_addr i /\ entry_addr dir_addr i + 8 <= region.
Proof using Hdir. intros Hi. pose proof (entry_in_dir i Hi). lia. Qed.

Lemma wp_lock_subtable s gd f i d p F :
  dir_view s gd f f -> 0 <= i < kMaxSubTables g -> 0 <= d < 2 ^ 8 -> 0 <= p < 2 ^ 48 -> f i = mk_entry 0 d p ->
  wp (lock_subtable region dir_addr spin i) s (fun _ s' => dstep s s' /\ dir_view s' gd (upd f i (mk_entry 1 d p)) (upd f i (mk_entry 1 d p))) F.
Proof using Hdir Hspin.
  intros Hv Hi Hd Hpp Hf. unfold lock_subtable. destruct spin_S as [n ->]. cbn [lock_subtable_loop]. wstep.
  eapply view_get_entry; [exact Hv|done|]. rewrite Hf. destruct (mk_entry_fields 0 d p) as (_ & -> & -> & _); [lia|done|done|]. wstep.
  destruct (entry_region i Hi). destruct (mk_entry_fields 1 d p) as (_ & _ & _ & He); [lia|done|done|].
  apply wp_compare_and_swap; [done..|]. rewrite (dv_mem _ _ _ _ Hv i Hi), Hf, Z.eqb_refl.
  eapply view_set_entry; [by apply view_store|done|]. intros s' Hs' Hv' _. split; [|done]. eapply dstep_trans; [by apply dstep_store|done].
Qed.

Lemma wp_write_entry s gd mf cf i Q F : dir_view s gd mf cf -> 0 <= i < kMaxSubTables g -> 0 <= cf i < 2 ^ 64 ->
  (forall s', dstep s s' -> dir_view s' gd (upd mf i (cf i)) cf -> s' = set_mem s (t_mem s') -> Q tt s') -> wp (write_entry region dir_addr i) s Q F.
Proof using Hdir.
  intros Hv Hi He HQ. unfold write_entry. wstep. eapply view_get_entry; [exact Hv|done|]. destruct (entry_region i Hi). apply wp_write_bytes; [done|by rewrite alen_le_bytes|].
  apply HQ; [by apply dstep_store|by apply view_store|done].
Qed.

Lemma wp_unlock_subtable s gd f i l d p F :
  dir_view s gd f f -> 0 <= i < kMaxSubTables g -> 0 <= l < 2 ^ 8 -> 0 <= d < 2 ^ 8 -> 0 <= p < 2 ^ 48 -> f i = mk_entry l d p ->
  wp (unlock_subtable region dir_addr i) s (fun _ s' => dstep s s' /\ dir_view s' gd (upd f i (mk_entry 0 d p)) (upd f i (mk_entry 0 d p))) F.
Proof using Hdir.
  intros Hv Hi Hl Hd Hpp Hf. unfold unlock_subtable. wstep. eapply view_get_entry; [exact Hv|done|]. rewrite Hf. destruct (mk_entry_fields l d p) as (_ & -> & -> & _); [done..|]. wstep.
  eapply view_set_entry; [exact Hv|done|]. intros s1 Hs1 Hv1 _. eapply wp_write_entry; [exact Hv1|done| |].
  - unfold upd. rewrite Z.eqb_refl. by apply mk_entry_fields; [lia|..].
  - intros s2 Hs2 Hv2 _. split; [by eapply dstep_trans|]. eapply view_ext; [exact Hv2| |done]. intros j Hj. unfold upd. destruct (Z.eqb_spec j i) as [->|]; [by rewrite Z.eqb_refl|done].
Qed.

Lemma wp_fix_entry s gd f i depth p q F :
  dir_view s gd f f -> 0 <= i < kMaxSubTables g -> 0 <= depth < 255 -> 0 <= p < 2 ^ 48 -> 0 <= default p q < 2 ^ 48 -> f i = mk_entry 0 depth p ->
  wp (fix_entry region dir_addr depth q i) s (fun _ s' => dstep s s' /\
    dir_view s' gd (upd f i (mk_entry 0 (depth + 1) (default p q))) (upd f i (mk_entry 0 (depth + 1) (default p q)))) F.
Proof using Hdir.
  intros Hv Hi Hd Hpp Hq Hf. unfold fix_entry. wstep. eapply view_get_entry; [exact Hv|done|]. rewrite Hf. destruct (mk_entry_fields 0 depth p) as (-> & -> & -> & _); [lia..|].
  rewrite Z.ltb_irrefl, Z.eqb_refl. cbn [negb orb]. wstep. destruct (entry_region i Hi). apply wp_compare_and_swap; [done..|]. rewrite (dv_mem _ _ _ _ Hv i Hi), Hf, !Z.eqb_refl.
  destruct (mk_entry_fields 0 (depth + 1) (default p q)) as (_ & _ & _ & He); [lia..|].
  eapply view_set_entry; [by apply view_store|done|]. intros s' Hs' Hv' _. split; [|done]. eapply dstep_trans; [by apply dstep_store|done].
Qed.

(** A run of entries that get the new depth. *)
Lemma wp_fix_entries s gd f l depth p q F :
  dir_view s gd f f -> NoDup l -> (forall i, i ∈ l -> 0 <= i < kMaxSubTables g /\ f i = mk_entry 0 depth p) -> 0 <= depth < 255 -> 0 <= p < 2 ^ 48 -> 0 <= default p q < 2 ^ 48 ->
  wp (for_each l (fix_entry region dir_addr depth q)) s (fun _ s' => dstep s s' /\ exists f', dir_view s' gd f' f' /\
    forall i, f' i = if bool_decide (i ∈ l) then mk_entry 0 (depth + 1) (default p q) else f i) F.
Proof using Hdir.
  intros Hv Hnd Hl Hd Hpp Hq. revert s f Hv Hl. induction l as [|x l IH]; intros s f Hv Hl; cbn [for_each].
  - wstep. split; [apply dstep_refl|]. exists f. split; [done|]. intros i. by rewrite bool_decide_false by apply not_elem_of_nil.
  - apply NoDup_cons in Hnd as [Hx Hnd]. destruct (Hl x) as [Hxr Hfx]; [by left|]. wstep. eapply wp_next; [by apply (wp_fix_entry s gd f x depth p q)|]. intros u s1 [Hs1 Hv1].
    eapply wp_next; [apply (IH Hnd s1 _ Hv1)|].
    + intros i Hi. destruct (Hl i) as [Hir Hfi]; [by right|]. split; [done|]. unfold upd. destruct (Z.eqb_spec i x) as [->|]; [done|done].
    + intros u' s2 (Hs2 & f' & Hv2 & Hf'). split; [by eapply dstep_trans|]. exists f'. split; [done|]. intros i. rewrite Hf'. unfold upd.
      destruct (decide (i ∈ l)); [rewrite !bool_decide_true by (done || by right); done|]. rewrite (bool_decide_false (i ∈ l)) by done. destruct (Z.eqb_spec i x) as [->|].
      * by rewrite bool_decide_true by (by left).
      * rewrite bool_decide_false; [done|]. by intros [?|?]%elem_of_cons.
Qed.

Lemma elem_of_suffixes a step mx i : 0 < step -> i ∈ suffixes a step mx <-> a <= i < mx /\ (i - a) mod step = 0.
Proof.
  intros Hs. unfold suffixes. rewrite list_elem_of_fmap. setoid_rewrite elem_of_seqZ. split.
  - intros (k & -> & Hk). replace (a + step * k - a) with (k * step) by lia. rewrite Z.mod_mul by lia. split; [|done]. destruct Hk as [Hk1 Hk2].
    assert (step * (k + 1) <= mx - a + step - 1); [|nia]. etrans; [apply (Z.mul_le_mono_nonneg_l (k + 1) ((mx - a + step - 1) / step)); lia|]. apply Z.mul_div_le. lia.
  - intros [Hi Hm]. exists ((i - a) / step). pose proof (Z.div_mod (i - a) step ltac:(lia)) as Hd. split; [lia|]. split; [apply Z.div_pos; lia|].
    enough ((i - a) / step + 1 <= (mx - a + step - 1) / step) by lia.
    rewrite <- (Z.div_add (i - a) 1 step) by lia. apply Z.div_le_mono; lia.
Qed.

Lemma NoDup_suffixes a step mx : 0 < step -> NoDup (suffixes a step mx).
Proof. intros Hs. unfold suffixes. apply NoDup_fmap_2; [intros x y E; nia|apply NoDup_seqZ]. Qed.

(** The entries after a split of the subtable at [p] with the bits [o], whose
    upper half is now at [a]. *)
Definition split_entry (f : Z -> Z) (gd d o p a i : Z) : Z :=
  if (i <? 2 ^ gd) && (i mod 2 ^ (d + 1) =? o) && negb (i =? o) then mk_entry 0 (d + 1) p else
  if (i <? 2 ^ gd) && (i mod 2 ^ (d + 1) =? o + 2 ^ d) && negb (i =? o + 2 ^ d) then mk_entry 0 (d + 1) a else f i.

Lemma in_half_suffixes c n mx i : 0 <= c < n -> 0 < n -> 0 <= i -> i ∈ suffixes (c + n) n mx <-> i < mx /\ i mod n = c /\ i <> c.
Proof.
  intros Hc Hn Hi. rewrite elem_of_suffixes by done. split.
  - intros [Hr Hm]. replace (i - (c + n)) with (i - c + (-1) * n) in Hm by lia. rewrite Z.mod_add in Hm by lia. split; [lia|]. split; [|lia].
    apply Z.mod_divide in Hm as [q Hq]; [|lia]. replace i with (c + q * n) by lia. rewrite Z.mod_add by lia. by apply Z.mod_small.
  - intros (Hr & Hm & Hne). pose proof (Z.div_mod i n ltac:(lia)) as Hd. rewrite Hm in Hd. assert (1 <= i / n) by (assert (0 <= i / n) by (apply Z.div_pos; lia); destruct (Z.eq_dec (i / n) 0); nia).
    split; [nia|]. replace (i - (c + n)) with ((i / n - 1) * n) by lia. apply Z.mod_mul. lia.
Qed.

Lemma wp_fix_local_depth s gd f d o p a F :
  dir_view s gd f f -> 0 <= d < gd -> gd <= kMaxGlobalDepth g -> 0 <= o < 2 ^ d -> 0 <= p < 2 ^ 48 -> 0 <= a < 2 ^ 48 -> e_pointer (f (o + 2 ^ d)) = a ->
  (forall i, 0 <= i < 2 ^ gd -> i mod 2 ^ d = o -> i <> o -> i <> o + 2 ^ d -> f i = mk_entry 0 d p) ->
  wp (fix_local_depth region dir_addr o gd d) s (fun _ s' => dstep s s' /\ exists f', dir_view s' gd f' f' /\ forall i, 0 <= i -> f' i = split_entry f gd d o p a i) F.
Proof using Hdir Hg.
  intros Hv Hd Hgd Ho Hpp Ha Hea Hf. destruct Hg as [_ _ _ Hmx]. unfold fix_local_depth. pose proof (pow_gd_max gd ltac:(lia)) as Hpow.
  assert (0 < 2 ^ d) by (apply Z.pow_pos_nonneg; lia). assert (2 ^ (d + 1) = 2 * 2 ^ d) as H2 by (rewrite Z.pow_add_r by lia; lia). assert (2 ^ (d + 1) <= 2 ^ gd) by (apply Z.pow_le_mono_r; lia).
  wstep. apply wp_shift1; [lia|]. wstep. apply wp_shift1; [lia|]. wstep. apply wp_shift1; [lia|]. rewrite (Z.add_comm 1 d).
  assert (forall i, 0 <= i -> i mod 2 ^ (d + 1) = o \/ i mod 2 ^ (d + 1) = o + 2 ^ d -> i mod 2 ^ d = o) as Hlow.
  { intros i Hi Hm. rewrite <- (mod_pow_pow i d (d + 1)) by lia. destruct Hm as [-> | ->]; [by apply Z.mod_small|]. replace (o + 2 ^ d) with (o + 1 * 2 ^ d) by lia. rewrite Z.mod_add by lia. by apply Z.mod_small. }
  assert (forall c i, 0 <= c < 2 ^ (d + 1) -> i ∈ suffixes (c + 2 ^ (d + 1)) (2 ^ (d + 1)) (2 ^ gd) -> 0 <= i < 2 ^ gd /\ i mod 2 ^ (d + 1) = c /\ i <> c /\ c < i) as Hin.
  { intros c i Hc Hi. pose proof Hi as Hi'. apply elem_of_suffixes in Hi' as [Hr _]; [|lia]. apply in_half_suffixes in Hi; [|lia..]. lia. }
  wstep. eapply wp_next; [apply (wp_fix_entries s gd f _ d p None); [done|apply NoDup_suffixes; lia| |lia|done|done]|].
  { intros i Hi. apply Hin in Hi as (Hr & Hm & Hne & _); [|lia]. split; [lia|]. apply Hf; [done|by apply Hlow; [lia|left]|done|]. intros ->. rewrite Z.mod_small in Hm by lia. lia. }
  intros u s1 (Hs1 & f1 & Hv1 & Hf1). wstep. eapply view_get_entry; [exact Hv1|lia|]. rewrite Hf1.
  rewrite bool_decide_false by (intros Hi; apply Hin in Hi as (_ & Hm & _); [|lia]; rewrite Z.mod_small in Hm by lia; lia). rewrite Hea.
  eapply wp_next; [apply (wp_fix_entries s1 gd f1 _ d p (Some a)); [done|apply NoDup_suffixes; lia| |lia|done|done]|].
  { intros i Hi. apply Hin in Hi as (Hr & Hm & Hne & _); [|lia]. split; [lia|]. rewrite Hf1, bool_decide_false by (intros Hi; apply Hin in Hi as (_ & Hm' & _); lia).
    apply Hf; [done|by apply Hlow; [lia|right]| |done]. intros ->. rewrite Z.mod_small in Hm by lia. lia. }
  intros u' s2 (Hs2 & f2 & Hv2 & Hf2). split; [by eapply dstep_trans|]. exists f2. split; [done|]. intros i Hi. rewrite Hf2, Hf1. unfold split_entry. cbn [default].
  pose proof (in_half_suffixes o (2 ^ (d + 1)) (2 ^ gd) i ltac:(lia) ltac:(lia) Hi) as M1. pose proof (in_half_suffixes (o + 2 ^ d) (2 ^ (d + 1)) (2 ^ gd) i ltac:(lia) ltac:(lia) Hi) as M2.
  repeat case_bool_decide; repeat zcase; cbn [andb negb]; try done; exfalso; intuition lia.
Qed.

(** The copy of the directory gets an upper half. *)
Lemma wp_copy_entries s n cf F :
  0 <= n -> 2 * n <= kMaxSubTables g -> alen (subtables (t_dir s)) = kMaxSubTables g -> (forall i, 0 <= i < kMaxSubTables g -> (subtables (t_dir s)).[i] = Some (cf i)) ->
  wp (for_each (seqZ 0 n) (copy_entry n)) s (fun _ s' => exists l, s' = set_dir s (MkDirectory (global_depth (t_dir s)) l (global_lock (t_dir s))) /\ alen l = kMaxSubTables g /\
    forall i, 0 <= i < kMaxSubTables g -> l.[i] = Some (if (n <=? i) && (i <? 2 * n) then mk_entry 0 (e_depth (cf (i - n))) (e_pointer (cf (i - n))) else cf i)) F.
Proof.
  intros Hn Hn2 Hlen Hcf.
  set (inv_copy (l' : list Z) (s' : table A) := exists k l, 0 <= k <= n /\ l' = seqZ k (n - k) /\ s' = set_dir s (MkDirectory (global_depth (t_dir s)) l (global_lock (t_dir s))) /\ alen l = kMaxSubTables g /\
    forall i, 0 <= i < kMaxSubTables g -> l.[i] = Some (if (n <=? i) && (i <? n + k) then mk_entry 0 (e_depth (cf (i - n))) (e_pointer (cf (i - n))) else cf i)).
  eapply wp_next; [apply (wp_for_each inv_copy)|].
  - exists 0, (subtables (t_dir s)). split; [lia|]. split; [by rewrite Z.sub_0_r|]. split; [apply set_dir_same|]. split; [done|]. intros i Hi. rewrite Hcf by done. f_equal. zcases.
  - intros x l' s' (k & l & Hk & El & -> & Hl & Hli). assert (k < n) as Hkn by (destruct (Z.lt_ge_cases k n); [done|rewrite seqZ_nil in El by lia; done]).
    rewrite seqZ_cons in El by lia. injection El as -> ->. unfold copy_entry, get_entry, set_entry. wsteps. fields. cbn [subtables].
    eapply wp_defined; [by apply Hli; lia|]. wsteps. fields. cbn [subtables]. destruct (aset l (k + n) (mk_entry 0 (e_depth (if (n <=? k) && (k <? n + k) then mk_entry 0 (e_depth (cf (k - n))) (e_pointer (cf (k - n))) else cf k))
      (e_pointer (if (n <=? k) && (k <? n + k) then mk_entry 0 (e_depth (cf (k - n))) (e_pointer (cf (k - n))) else cf k)))) as [l2|] eqn:E; [|rewrite aset_Some in E by lia; done].
    eapply wp_defined; [done|]. wsteps. fields. cbn [global_depth global_lock]. exists (k + 1), l2. rewrite (proj2 (Z.leb_gt n k)) in E by lia. cbn [andb] in E.
    split; [lia|]. split; [f_equal; lia|]. split; [done|]. split; [by rewrite (aset_alen _ _ _ _ E)|]. intros i Hi. destruct (Z.eq_dec i (k + n)) as [->|Hne].
    + rewrite (aget_aset_eq _ _ _ _ E). f_equal. replace (k + n - n) with k by lia. zcases.
    + rewrite (aget_aset_ne _ _ _ _ _ E) by lia. rewrite Hli by lia. f_equal. repeat zcase; cbn [andb]; try done; lia.
  - intros u s' (k & l & Hk & El & -> & Hl & Hli). exists l. assert (k = n) as -> by (destruct (Z.lt_ge_cases k n); [rewrite seqZ_cons in El by lia; done|lia]).
    split; [done|]. split; [done|]. intros i Hi. rewrite Hli by done. by replace (n + n) with (2 * n) by lia.
Qed.

Lemma store_in_dir m a bs : dir_addr <= a -> a + alen bs <= dir_addr + sizeof_Directory g -> same_outside dir_addr (dir_addr + sizeof_Directory g) m (store_bytes m a bs).
Proof. intros. by apply same_outside_store. Qed.

(** The memory after the upper half and the new depth are written. *)
Lemma grown_memory m n w v l :
  0 < n -> 2 * n <= kMaxSubTables g -> alen l = kMaxSubTables g -> 0 <= v < 2 ^ 64 -> (forall i x, n <= i < 2 * n -> l.[i] = Some x -> 0 <= x < 2 ^ 64) ->
  let words := take (Z.to_nat n) (drop (Z.to_nat n) l) in
  let m' := store_bytes (store_bytes (store_bytes m dir_addr (le_bytes 8 w)) (entry_addr dir_addr n) (concat (le_bytes 8 <$> words))) dir_addr (le_bytes 8 v) in
  alen (concat (le_bytes 8 <$> words)) = 8 * n /\ ld_le 8 m' dir_addr = v /\ same_outside dir_addr (dir_addr + sizeof_Directory g) m m' /\
  (forall a, entry_addr dir_addr (2 * n) <= a \/ dir_addr + 8 <= a /\ a + 8 <= entry_addr dir_addr n -> ld_le 8 m' a = ld_le 8 m a) /\
  forall i, n <= i < 2 * n -> l.[i] = Some (ld_le 8 m' (entry_addr dir_addr i)).
Proof.
  intros Hn Hn2 Hl Hv Hx words m'. set (m1 := store_bytes m dir_addr (le_bytes 8 w)) in m'. set (m2 := store_bytes m1 _ _) in m'.
  assert (length words = Z.to_nat n) as Hw by (unfold words; rewrite length_take, length_drop; unfold alen in Hl; lia).
  assert (alen (concat (le_bytes 8 <$> words)) = 8 * n) as Hwb by (unfold alen; rewrite length_words, Hw; lia).
  assert (forall a, dir_addr + 8 <= a -> ld_le 8 m' a = ld_le 8 m2 a) as Hm3 by (intros a Ha; eapply (agree_ld _ _ _ _ 8); [|lia]; apply agree_store; rewrite alen_le_bytes; lia).
  split; [done|]. split; [by apply ld_store_same|]. split; [|split].
  - etrans; [|etrans]; [apply (store_in_dir m dir_addr (le_bytes 8 w))|apply (store_in_dir m1 (entry_addr dir_addr n) (concat (le_bytes 8 <$> words)))|apply (store_in_dir m2 dir_addr (le_bytes 8 v))]; rewrite ?alen_le_bytes, ?Hwb; unfold entry_addr, sizeof_Directory; lia.
  - intros a Ha. rewrite Hm3 by (unfold entry_addr in *; lia). transitivity (ld_le 8 m1 a); eapply (agree_ld _ _ _ _ 8); try lia; apply agree_store; rewrite ?alen_le_bytes, ?Hwb; unfold entry_addr in *; lia.
  - intros i Hi. rewrite Hm3 by (unfold entry_addr; lia). replace (entry_addr dir_addr i) with (entry_addr dir_addr n + 8 * Z.of_nat (Z.to_nat (i - n))) by (unfold entry_addr; lia).
    destruct (aget_is_Some l i) as [x Ex]; [lia|]. rewrite Ex. f_equal. symmetry. apply ld_store_words.
    + apply Forall_lookup_2. intros j y Hj. unfold words in Hj. apply lookup_take_Some in Hj as [Hj Hjn]. rewrite lookup_drop in Hj. apply (Hx (n + Z.of_nat j)); [lia|]. rewrite aget_lookup by lia. rewrite <- Hj. f_equal. lia.
    + unfold words. rewrite lookup_take_lt, lookup_drop by lia. rewrite aget_lookup in Ex by lia. rewrite <- Ex. f_equal. lia.
Qed.

Lemma wp_resize_directory s gd f :
  dir_view s gd f f -> 0 <= gd <= kMaxGlobalDepth g -> (forall i, 0 <= i < 2 ^ gd -> exists d p, 0 <= d < 2 ^ 8 /\ 0 <= p < 2 ^ 48 /\ f i = mk_entry 0 d p) ->
  wp (resize_directory g region dir_addr spin gd) s (fun _ s' => dstep s s' /\ gd < kMaxGlobalDepth g /\ exists f', dir_view s' (gd + 1) f' f' /\
    forall i, 0 <= i < 2 ^ gd -> f' i = f i /\ f' (i + 2 ^ gd) = f i) (fun w => w = DirectoryFull /\ gd = kMaxGlobalDepth g).
Proof using Hdir Hspin Hg.
  intros Hv Hgd Hf. pose proof Hg as [_ _ _ Hmx]. unfold resize_directory. destruct spin_S as [sp ->]. cbn [resize_directory_loop]. wstep. apply wp_assert_or; [|intros E%Z.leb_gt; split; [done|lia]]. intros Hlt%Z.leb_le.
  pose proof (pow_gd_max gd Hgd) as Hpow. assert (2 ^ (gd + 1) = 2 * 2 ^ gd) as H2 by (rewrite Z.pow_add_r by lia; lia). pose proof (pow_gd_max (gd + 1) ltac:(lia)) as Hpow1. set (n := 2 ^ gd) in *.
  assert (8 + 8 * kMaxSubTables g + 8 = sizeof_Directory g) as Hsz by done. pose proof (dv_depth _ _ _ _ Hv) as Hdep.
  wstep. apply wp_compare_and_swap; [lia|lia|]. rewrite Hdep, Z.eqb_refl. set (w := Z.lor _ _). set (m1 := store_bytes (t_mem s) dir_addr (le_bytes 8 w)).
  assert (forall a, dir_addr + 8 <= a -> ld_le 8 m1 a = ld_le 8 (t_mem s) a) as Hm1 by (intros a Ha; eapply (agree_ld _ _ _ _ 8); [|lia]; apply agree_store; rewrite alen_le_bytes; lia).
  wstep. apply wp_read_with; [lia|lia|]. wsteps. fields. cbn [subtables directory_at global_lock]. set (s2 := set_dir _ _).
  eapply wp_next; [apply (wp_copy_entries s2 n f); [lia|lia| |]|].
  { unfold s2. fields. cbn [subtables]. unfold alen. rewrite length_fmap, length_seqZ. lia. }
  { intros i Hi. unfold s2. fields. cbn [subtables]. rewrite aget_lookup, list_lookup_fmap, lookup_seqZ_lt by lia. cbn [fmap option_fmap option_map]. f_equal.
    replace (0 + Z.of_nat (Z.to_nat i)) with i by lia. change (dir_addr + 8 + 8 * i) with (entry_addr dir_addr i). rewrite Hm1 by (unfold entry_addr; lia). by apply (dv_mem _ _ _ _ Hv). }
  set (f' i := if (n <=? i) && (i <? 2 * n) then mk_entry 0 (e_depth (f (i - n))) (e_pointer (f (i - n))) else f i).
  assert (forall i, n <= i < 2 * n -> f' i = f (i - n) /\ 0 <= f' i < 2 ^ 64) as Hup.
  { intros i Hi. unfold f'. rewrite (proj2 (Z.leb_le n i)), (proj2 (Z.ltb_lt i (2 * n))) by lia. cbn [andb]. destruct (Hf (i - n)) as (d & p & Hd & Hpp & ->); [lia|]. destruct (mk_entry_fields 0 d p) as (_ & -> & -> & He); [lia|done|done|]. done. }
  intros u s3 (l & -> & Hl & Hli). wsteps. fields. cbn [subtables global_depth].
  destruct (grown_memory (t_mem s) n w (gd + 1) l) as (Hwb & Hdw & Hout & Hsame & Hent); [lia|lia|done|lia| |].
  { intros i x Hi Hx. rewrite Hli in Hx by lia. injection Hx as <-. by apply Hup. }
  apply wp_write_bytes; [unfold entry_addr; lia|rewrite Hwb; unfold entry_addr; lia|]. fields. apply wp_write_bytes; [lia|rewrite alen_le_bytes; lia|]. fields.
  split; [|split; [lia|]]; [split; try done; fields; intros Hok; by do 3 apply store_bytes_mem_ok|]. exists f'. split.
  - split; fields; cbn [global_depth subtables global_lock]; try done.
    + intros i Hi. destruct (Z.le_gt_cases n i) as [H1|H1]; [destruct (Z.lt_ge_cases i (2 * n)) as [H3|H3]|].
      * specialize (Hent i ltac:(lia)). rewrite Hli in Hent by lia. injection Hent as Hent. by symmetry.
      * rewrite Hsame by (unfold entry_addr; lia). unfold f'. rewrite (proj2 (Z.ltb_ge i (2 * n))), andb_false_r by lia. by apply (dv_mem _ _ _ _ Hv).
      * rewrite Hsame by (unfold entry_addr; lia). unfold f'. rewrite (proj2 (Z.leb_gt n i)) by lia. by apply (dv_mem _ _ _ _ Hv).
    + unfold s2. fields. cbn [global_lock]. rewrite Hsame, Hm1 by (unfold entry_addr; lia). done.
  - intros i Hi. split; [unfold f'; by rewrite (proj2 (Z.leb_gt n i)) by lia|]. destruct (Hup (i + n)) as [-> _]; [lia|]. f_equal. lia.
Qed.

End Directory.

(** ** Buckets in memory *)

Lemma load_bytes_sub m a n o N : (o + n <= N)%nat -> load_bytes m (a + Z.of_nat o) n = take n (drop o (load_bytes m a N)).
Proof.
  intros H. replace N with (o + (n + (N - o - n)))%nat by lia. rewrite load_bytes_app, drop_app_length' by (by rewrite length_load_bytes). by rewrite load_bytes_app, take_app_length' by (by rewrite length_load_bytes).
Qed.

Lemma load_store_chunks (L : list (list Z)) n : forall m a i c,
  (forall c, c ∈ L -> length c = n /\ Forall byte_ok c) -> L !! i = Some c ->
  load_bytes (store_bytes m a (concat L)) (a + Z.of_nat n * Z.of_nat i) n = c.
Proof.
  induction L as [|x L IH]; intros m a i c HL Hi; [done|]. destruct (HL x) as [Hx Hxb]; [by left|]. cbn [concat]. rewrite store_bytes_app, Hx. destruct i as [|i].
  - injection Hi as <-. rewrite Z.mul_0_r, Z.add_0_r. rewrite load_store_out by lia. rewrite <- Hx. by apply load_store_same.
  - replace (a + Z.of_nat n * Z.of_nat (S i)) with (a + Z.of_nat n + Z.of_nat n * Z.of_nat i) by lia. apply IH; [intros y Hy; apply HL; by right|done].
Qed.

(** The buckets of a subtable that was cleared. *)
Lemma new_table_reads m a N i ld sf :
  0 <= i < Z.of_nat N -> 0 <= ld < 2 ^ 32 -> 0 <= sf < 2 ^ 32 ->
  let m' := store_bytes m a (concat (bucket_bytes <$> replicate N (MkBucket ld sf (replicate 7 0)))) in
  bucket_at m' (a + sizeof_Bucket * i) = MkBucket ld sf (replicate 7 0).
Proof.
  intros Hi Hld Hsf m'. set (c := bucket_bytes (MkBucket ld sf (replicate 7 0))).
  assert (length c = 64%nat) as Hc by (unfold c, bucket_bytes; cbn [local_depth suffix slots]; rewrite !length_app, !length_le_bytes, length_words; done).
  assert (Forall byte_ok c) as Hcb.
  { unfold c, bucket_bytes. cbn [local_depth suffix slots]. rewrite !Forall_app. split_and!; try apply le_bytes_ok. apply Forall_concat, Forall_fmap, Forall_replicate. exact (le_bytes_ok 8 0). }
  assert (load_bytes m' (a + 64 * i) 64 = c) as Hload.
  { unfold m'. replace (a + 64 * i) with (a + Z.of_nat 64 * Z.of_nat (Z.to_nat i)) by lia. apply load_store_chunks.
    - intros y [z [-> Hz]]%list_elem_of_fmap. apply elem_of_replicate_inv in Hz as ->. by split.
    - rewrite list_lookup_fmap, lookup_replicate_2 by lia. done. }
  assert (forall o n, (o + n <= 64)%nat -> ld_le n m' (a + 64 * i + Z.of_nat o) = le_val (take n (drop o c))) as Hld_.
  { intros o n Hon. unfold ld_le. by rewrite (load_bytes_sub _ _ _ _ 64), Hload by done. }
  unfold bucket_at, sizeof_Bucket. f_equal.
  - specialize (Hld_ 0%nat 4%nat ltac:(lia)). rewrite Z.add_0_r in Hld_. rewrite Hld_. change (take 4 (drop 0 c)) with (le_bytes 4 ld). rewrite le_val_le_bytes. by apply Z.mod_small.
  - change (a + 64 * i + 4) with (a + 64 * i + Z.of_nat 4). rewrite Hld_ by lia. change (take 4 (drop 4 c)) with (le_bytes 4 sf). rewrite le_val_le_bytes. by apply Z.mod_small.
  - transitivity ((fun j : Z => 0) <$> seqZ 0 kAssociatedWays); [|done]. apply list_fmap_ext. intros k j Hj. apply lookup_seqZ in Hj as [-> Hk].
    replace (a + 64 * i + 8 + 8 * (0 + Z.of_nat k)) with (a + 64 * i + Z.of_nat (8 + 8 * k)) by lia. unfold kAssociatedWays in Hk. rewrite Hld_ by lia.
    assert (k < 7)%nat as Hk7 by lia. do 7 (destruct k as [|k]; [reflexivity|]). lia.
Qed.

(** A store into the bytes of a bucket leaves the other buckets, the blocks and
    the directory. *)
Lemma bucket_store a0 dn tabs blocks m u n o bs :
  pool_held a0 dn tabs blocks -> u ∈ tabs -> 0 <= n < kTotalBuckets g -> 0 <= o -> o + alen bs <= sizeof_Bucket ->
  let m' := store_bytes m (tp u + sizeof_Bucket * n + o) bs in
  (forall c, c ∈ blocks -> agree m m' (fst c) (snd c)) /\ agree m m' dir_addr (sizeof_Directory g) /\
  (forall u' b, u' ∈ tabs -> 0 <= b < kTotalBuckets g -> (u', b) <> (u, n) -> agree m m' (tp u' + sizeof_Bucket * b) sizeof_Bucket).
Proof.
  intros Hp Hu Hn Ho Hbs m'. destruct (table_held_inside _ _ _ _ Hp) as (_ & Hin & _). pose proof (Hin u Hu) as Hiu. destruct (held_disj _ _ _ _ Hp) as (Hdt & _ & Htb & Htt).
  unfold sizeof_SubTable, sizeof_Bucket in *. split_and!.
  - intros c Hc. apply agree_store. destruct (Htb u c Hu Hc) as [H|H]; cbn in H; lia.
  - apply agree_store. pose proof (ph_dir _ _ _ _ Hp). destruct (Hdt u Hu) as [H'|H']; cbn in H'; lia.
  - intros u' b Hu' Hb Hne. apply agree_store. pose proof (Hin u' Hu') as Hiu'. destruct (decide (u' = u)) as [->|Hnu].
    + assert (b <> n) by congruence. lia.
    + destruct (Htt u' u Hu' Hu Hnu) as [H|H]; cbn in H; lia.
Qed.

Lemma agree_slot m m' p b j : agree m m' (p + sizeof_Bucket * b) sizeof_Bucket -> 0 <= j < kAssociatedWays ->
  ld_le 8 m' (table_slot_addr p b j) = ld_le 8 m (table_slot_addr p b j).
Proof. intros H Hj. eapply (agree_ld _ _ _ _ 8); [|lia]. unfold table_slot_addr, kAssociatedWays, sizeof_Bucket in *. eapply agree_sub; [exact H|lia|unfold sizeof_Bucket; lia]. Qed.

Lemma agree_header m m' p b : agree m m' (p + sizeof_Bucket * b) sizeof_Bucket ->
  ld_le 4 m' (p + sizeof_Bucket * b) = ld_le 4 m (p + sizeof_Bucket * b) /\ ld_le 4 m' (p + sizeof_Bucket * b + 4) = ld_le 4 m (p + sizeof_Bucket * b + 4).
Proof. intros H. split; eapply (agree_ld _ _ _ _ 4); try lia; (eapply agree_sub; [exact H|lia|unfold sizeof_Bucket; lia]). Qed.

Lemma slot_of_bucket m p b j : 0 <= j < kAssociatedWays -> (slots (bucket_at m (p + sizeof_Bucket * b))).[j] = Some (ld_le 8 m (table_slot_addr p b j)).
Proof.
  intros Hj. cbn [slots bucket_at]. rewrite aget_lookup, list_lookup_fmap, lookup_seqZ_lt by lia. cbn [fmap option_fmap option_map]. unfold table_slot_addr. by replace (0 + Z.of_nat (Z.to_nat j)) with j by lia.
Qed.

(** What a change of the directory leaves. *)
Lemma dstep_agree s s' a0 dn tabs blocks : pool_held a0 dn tabs blocks -> dstep s s' ->
  (forall c, c ∈ blocks -> agree (t_mem s) (t_mem s') (fst c) (snd c)) /\ (forall u, u ∈ tabs -> agree (t_mem s) (t_mem s') (tp u) (sizeof_SubTable g)).
Proof.
  intros Hp Hs. destruct (held_disj _ _ _ _ Hp) as (Hdt & Hdb & _ & _). destruct (table_held_inside _ _ _ _ Hp) as (_ & Hin & _). pose proof (ph_dir _ _ _ _ Hp). split.
  - intros c Hc x Hx. apply (dt_mem _ _ Hs). destruct (Hdb c Hc) as [H'|H']; cbn in H'; lia.
  - intros u Hu x Hx. pose proof (Hin u Hu). apply (dt_mem _ _ Hs). destruct (Hdt u Hu) as [H'|H']; cbn in H'; lia.
Qed.

Lemma agree_in_tab m m' p b : agree m m' p (sizeof_SubTable g) -> 0 <= b < kTotalBuckets g -> agree m m' (p + sizeof_Bucket * b) sizeof_Bucket.
Proof. intros H Hb. eapply agree_sub; [exact H|unfold sizeof_Bucket; lia|unfold sizeof_SubTable, sizeof_Bucket; lia]. Qed.

Lemma dstep_headers s s' a0 dn tabs blocks : pool_held a0 dn tabs blocks -> dstep s s' -> headers_ok (t_mem s) tabs -> headers_ok (t_mem s') tabs.
Proof. intros Hp Hs Hh u b Hu Hb. destruct (dstep_agree _ _ _ _ _ _ Hp Hs) as [_ Ht]. destruct (agree_header _ _ _ _ (agree_in_tab _ _ _ b (Ht u Hu) Hb)) as [-> ->]. by apply Hh. Qed.

Lemma dstep_slots s s' a0 dn tabs home blocks M loc : pool_held a0 dn tabs blocks -> dstep s s' -> slots_ok (t_mem s) tabs home blocks M loc -> slots_ok (t_mem s') tabs home blocks M loc.
Proof.
  intros Hp Hs Hsl. destruct (dstep_agree _ _ _ _ _ _ Hp Hs) as [Hb Ht]. eapply slots_ext; [exact Hsl| |intros c Hc; split; [done|by apply Hb]|done].
  intros u b j x (Hu & Hbr & Hj & ->). apply agree_slot; [|done]. by apply agree_in_tab; [apply Ht|].
Qed.

Lemma dstep_cache s s' a0 dn tabs blocks : pool_held a0 dn tabs blocks -> dstep s s' -> cache_ok (t_mem s) tabs blocks (t_cache s) -> cache_ok (t_mem s') tabs blocks (t_cache s').
Proof.
  intros Hp Hs Hc. rewrite (dt_cache _ _ Hs). destruct (dstep_agree _ _ _ _ _ _ Hp Hs) as [Hb _]. eapply cache_ok_frame; [exact Hc|intros c Hcb; split; [done|by apply Hb]|by eauto].
Qed.

Lemma dstep_bufs s s' : dstep s s' -> bufs_ok s -> bufs_ok s'.
Proof. intros [] []. split; congruence. Qed.

(** Which half an index belongs to. *)
Lemma mod_halves i d o : 0 <= d -> 0 <= o < 2 ^ d -> i mod 2 ^ d = o <-> i mod 2 ^ (d + 1) = o \/ i mod 2 ^ (d + 1) = o + 2 ^ d.
Proof.
  intros Hd Ho. assert (2 ^ (d + 1) = 2 * 2 ^ d) as H2 by (rewrite Z.pow_add_r by lia; lia). assert (0 < 2 ^ d) by (apply Z.pow_pos_nonneg; lia).
  pose proof (mod_pow_pow i d (d + 1) ltac:(lia)) as Hmm. pose proof (Z.mod_pos_bound i (2 ^ (d + 1)) ltac:(lia)) as Hb. revert Hmm Hb. generalize (i mod 2 ^ (d + 1)). intros x <- Hb. rewrite H2 in Hb. split.
  - intros E. pose proof (Z.div_mod x (2 ^ d) ltac:(lia)) as Hdm. rewrite E in Hdm. assert (0 <= x / 2 ^ d < 2) by (split; [apply Z.div_pos; lia|apply Z.div_lt_upper_bound; lia]). assert (x / 2 ^ d = 0 \/ x / 2 ^ d = 1) as [Eq|Eq] by lia; rewrite Eq in Hdm; lia.
  - intros [-> | ->]; [apply Z.mod_small; lia|]. replace (o + 2 ^ d) with (o + 1 * 2 ^ d) by lia. rewrite Z.mod_add by lia. apply Z.mod_small. lia.
Qed.

(** The blocks are as they were. *)
Definition kept (blocks : list (Z * Z)) (m m' : mem) : Prop := forall c, c ∈ blocks -> agree m m' (fst c) (snd c).

Lemma kept_trans blocks m m' m'' : kept blocks m m' -> kept blocks m' m'' -> kept blocks m m''.
Proof. intros H1 H2 c Hc x Hx. by rewrite (H2 c Hc), (H1 c Hc). Qed.

Lemma points_kept blocks m m' x k v : kept blocks m m' -> points blocks m x k v -> points blocks m' x k v.
Proof. intros H Hpt. eapply points_frame; [exact Hpt|]. intros c Hc. split; [done|by apply H]. Qed.

(** ** Splitting a subtable *)

Section Split.
Context (gd dn : Z) (T1 T2 : list tab) (t : tab) (a an : Z) (blocks : list (Z * Z)) (M : gmap (list Z) (list Z)).
Let tabs := T1 ++ t :: T2.

(** The two halves. *)
Let t1 := Tab (tp t) (td t + 1) (ts t) (tn t).
Let t2 := Tab a (td t + 1) (ts t + 2 ^ td t) an.
Let tabs' := t2 :: T1 ++ t1 :: T2.
Context (Ht : 0 <= td t < kMaxGlobalDepth g /\ 0 <= ts t < 2 ^ td t).

Lemma in_tabs' u : u ∈ tabs' <-> u = t2 \/ u = t1 \/ u ∈ T1 ++ T2.
Proof. unfold tabs'. rewrite elem_of_cons, !elem_of_app, elem_of_cons. tauto. Qed.
Lemma in_tabs u : u ∈ tabs <-> u = t \/ u ∈ T1 ++ T2.
Proof. unfold tabs. rewrite !elem_of_app, elem_of_cons. tauto. Qed.

Lemma pow_td : 0 < 2 ^ td t /\ 2 ^ (td t + 1) = 2 * 2 ^ td t.
Proof using Ht. split; [apply Z.pow_pos_nonneg; lia|]. rewrite Z.pow_add_r by lia. lia. Qed.

(** A hash of the subtable belongs to one of the halves. *)
Lemma owns_halves k : owns t k <-> owns t1 k \/ owns t2 k.
Proof using Ht. apply mod_halves; lia. Qed.

Lemma owns_not_both k : owns t1 k -> owns t2 k -> False.
Proof using Ht. destruct pow_td. unfold owns, t1, t2. cbn [td ts]. lia. Qed.

Context (a0 : A) (Hp : pool_held a0 dn tabs' blocks).

Lemma tabs'_pointer u u' : u ∈ tabs' -> u' ∈ tabs' -> tp u = tp u' -> u = u'.
Proof using Hp Ht.
  intros Hu Hu' E. destruct (decide (u = u')) as [|Hne]; [done|]. destruct (held_disj _ _ _ _ Hp) as (_ & _ & _ & Htt). destruct (table_held_inside _ _ _ _ Hp) as (_ & Hin & _).
  pose proof (in_ok_inside _ _ (tp u, tn u) (ph_ok _ _ _ _ Hp)) as Hi. pose proof (in_ok_inside _ _ (tp u', tn u') (ph_ok _ _ _ _ Hp)) as Hi'.
  assert (forall x, x ∈ tabs' -> (tp x, tn x) ∈ held dn tabs' blocks) as Hh by (intros x Hx; unfold held; apply elem_of_cons; right; apply elem_of_app; left; by apply (list_elem_of_fmap_2 (fun t => (tp t, tn t)))).
  specialize (Hi (Hh u Hu)). specialize (Hi' (Hh u' Hu')). cbn in Hi, Hi'. destruct (Htt u u' Hu Hu' Hne) as [H|H]; cbn in H; lia.
Qed.

Lemma t1_in : t1 ∈ tabs'.
Proof. apply in_tabs'. auto. Qed.
Lemma t2_in : t2 ∈ tabs'.
Proof. apply in_tabs'. auto. Qed.

Lemma t1_t2 : t1 <> t2.
Proof using Ht. unfold t1, t2. destruct pow_td. intros [= ?]. lia. Qed.

(** *** Moving one bucket *)

Section Bucket.
Context (n : Z) (Hn : 0 <= n < kTotalBuckets g).
Let old_slot j := table_slot_addr (tp t1) n j.
Let new_slot j := table_slot_addr (tp t2) n j.

(** A change of the bucket in the two halves and in their copies only. *)
Record bstep s s' : Prop := {
  bs_node : t_node s' = t_node s; bs_dir : t_dir s' = t_dir s; bs_cache : t_cache s' = t_cache s;
  bs_resize : resize_suffix s' = resize_suffix s /\ resize_lock_cnt s' = resize_lock_cnt s /\ resize_lock s' = resize_lock s;
  bs_bufs : bufs_ok s -> bufs_ok s';
  bs_bytes : mem_ok (t_mem s) -> mem_ok (t_mem s');
  bs_blocks c : c ∈ blocks -> agree (t_mem s) (t_mem s') (fst c) (snd c);
  bs_dirmem : agree (t_mem s) (t_mem s') dir_addr (sizeof_Directory g);
  bs_other u b : u ∈ tabs' -> 0 <= b < kTotalBuckets g -> (u, b) <> (t1, n) -> (u, b) <> (t2, n) -> agree (t_mem s) (t_mem s') (tp u + sizeof_Bucket * b) sizeof_Bucket;
  bs_old l : t_old s = Some l -> exists l', t_old s' = Some l' /\ alen l' = alen l /\ forall b, b <> n -> l'.[b] = l.[b];
  bs_new l : t_new s = Some l -> exists l', t_new s' = Some l' /\ alen l' = alen l /\ forall b, b <> n -> l'.[b] = l.[b] }.

Lemma agree_trans m m' m'' b k : agree m m' b k -> agree m' m'' b k -> agree m m'' b k.
Proof. intros H1 H2 x Hx. by rewrite H2, H1. Qed.

Lemma bstep_refl s : bstep s s.
Proof. split; try done; intros l Hl; by exists l. Qed.

Lemma bstep_trans s s' s'' : bstep s s' -> bstep s' s'' -> bstep s s''.
Proof.
  clear Hn Hp. intros [] []. split; try congruence; try (intuition congruence); try (intros; eapply agree_trans; eauto).
  - intros l Hl. destruct (bs_old0 l Hl) as (l1 & H1 & L1 & E1). destruct (bs_old1 l1 H1) as (l2 & H2 & L2 & E2). exists l2. split; [done|]. split; [congruence|]. intros b Hb. by rewrite E2, E1.
  - intros l Hl. destruct (bs_new0 l Hl) as (l1 & H1 & L1 & E1). destruct (bs_new1 l1 H1) as (l2 & H2 & L2 & E2). exists l2. split; [done|]. split; [congruence|]. intros b Hb. by rewrite E2, E1.
Qed.

(** The slots of the bucket in the two halves, [O] and [N], and in the copies, [LO] and [LN]. *)
Record bview s (hd : Z) (O N LO LN : Z -> Z) : Prop := {
  bv_bytes : mem_ok (t_mem s);
  bv_bufs : bufs_ok s;
  bv_header : ld_le 4 (t_mem s) (tp t1 + sizeof_Bucket * n) = hd /\ ld_le 4 (t_mem s) (tp t1 + sizeof_Bucket * n + 4) = ts t;
  bv_header2 : ld_le 4 (t_mem s) (tp t2 + sizeof_Bucket * n) = td t2 /\ ld_le 4 (t_mem s) (tp t2 + sizeof_Bucket * n + 4) = ts t2;
  bv_old j : 0 <= j < kAssociatedWays -> ld_le 8 (t_mem s) (old_slot j) = O j;
  bv_new j : 0 <= j < kAssociatedWays -> ld_le 8 (t_mem s) (new_slot j) = N j;
  bv_lold : exists l b, t_old s = Some l /\ l.[n] = Some b /\ alen (slots b) = kAssociatedWays /\ forall j, 0 <= j < kAssociatedWays -> (slots b).[j] = Some (LO j);
  bv_lnew : exists l b, t_new s = Some l /\ l.[n] = Some b /\ alen (slots b) = kAssociatedWays /\ forall j, 0 <= j < kAssociatedWays -> (slots b).[j] = Some (LN j) }.

Lemma old_is_slot j : 0 <= j < kAssociatedWays -> is_slot tabs' (old_slot j) t1 n j.
Proof. intros Hj. exact (conj t1_in (conj Hn (conj Hj eq_refl))). Qed.
Lemma new_is_slot j : 0 <= j < kAssociatedWays -> is_slot tabs' (new_slot j) t2 n j.
Proof. intros Hj. exact (conj t2_in (conj Hn (conj Hj eq_refl))). Qed.

(** A store into a slot of the bucket. *)
Lemma bstep_store s u j x : u = t1 \/ u = t2 -> 0 <= j < kAssociatedWays ->
  bstep s (set_mem s (store_bytes (t_mem s) (table_slot_addr (tp u) n j) (le_bytes 8 x))).
Proof.
  intros Hu Hj. assert (u ∈ tabs') as Hin by (apply in_tabs'; tauto).
  destruct (bucket_store _ _ _ _ (t_mem s) u n (8 + 8 * j) (le_bytes 8 x) Hp Hin Hn) as (H1 & H2 & H3); [lia|rewrite alen_le_bytes; unfold sizeof_Bucket, kAssociatedWays in *; lia|].
  replace (tp u + sizeof_Bucket * n + (8 + 8 * j)) with (table_slot_addr (tp u) n j) in * by (unfold table_slot_addr; lia).
  split; fields; try done; [by intros []|by apply store_bytes_mem_ok| |intros l Hl; by exists l|intros l Hl; by exists l].
  intros u' b Hu' Hb Hn1 Hn2. apply H3; [done|done|]. destruct Hu as [-> | ->]; done.
Qed.

Lemma bview_store s u j x hd O N LO LN : bview s hd O N LO LN -> u = t1 \/ u = t2 -> 0 <= j < kAssociatedWays -> 0 <= x < 2 ^ 64 ->
  bview (set_mem s (store_bytes (t_mem s) (table_slot_addr (tp u) n j) (le_bytes 8 x))) hd (if decide (u = t1) then upd O j x else O) (if decide (u = t1) then N else upd N j x) LO LN.
Proof.
  intros [H1 H2 H3 H4 H5 H6 H7 H8] Hu Hj Hx. assert (is_slot tabs' (table_slot_addr (tp u) n j) u n j) as Hslot by (split; [apply in_tabs'; tauto|done]).
  assert (forall v, v = t1 \/ v = t2 -> ld_le 4 (store_bytes (t_mem s) (table_slot_addr (tp u) n j) (le_bytes 8 x)) (tp v + sizeof_Bucket * n) = ld_le 4 (t_mem s) (tp v + sizeof_Bucket * n) /\
    ld_le 4 (store_bytes (t_mem s) (table_slot_addr (tp u) n j) (le_bytes 8 x)) (tp v + sizeof_Bucket * n + 4) = ld_le 4 (t_mem s) (tp v + sizeof_Bucket * n + 4)) as Hhd.
  { intros v Hv. assert (v ∈ tabs') as Hvin by (apply in_tabs'; tauto). pose proof (headers_apart _ _ _ _ _ _ _ _ _ _ Hp Hslot Hvin Hn).
    split; eapply (agree_ld _ _ _ _ 4); try lia; apply agree_store; rewrite alen_le_bytes; lia. }
  assert (forall v i, v = t1 \/ v = t2 -> 0 <= i < kAssociatedWays -> ld_le 8 (store_bytes (t_mem s) (table_slot_addr (tp u) n j) (le_bytes 8 x)) (table_slot_addr (tp v) n i) =
    if decide (u = v) then if i =? j then x else ld_le 8 (t_mem s) (table_slot_addr (tp v) n i) else ld_le 8 (t_mem s) (table_slot_addr (tp v) n i)) as Hsl.
  { intros v i Hv Hi. assert (is_slot tabs' (table_slot_addr (tp v) n i) v n i) as Hs2 by (split; [apply in_tabs'; tauto|done]).
    destruct (table_slots_apart _ _ _ _ _ _ _ _ _ _ _ _ Hp Hs2 Hslot) as [(E & -> & _ & ->)|Hap].
    - rewrite decide_True, Z.eqb_refl by done. by apply ld_store_same.
    - assert (table_slot_addr (tp v) n i <> table_slot_addr (tp u) n j) as Hne by lia. rewrite (slot_store_other _ _ _ _ Hp (t_mem s) _ x _ _ _ Hslot _ _ _ _ Hs2 Hne).
      destruct (decide (u = v)) as [->|]; [|done]. destruct (Z.eqb_spec i j) as [->|]; [lia|done]. }
  split; fields; try done.
  - by apply store_bytes_mem_ok.
  - by destruct H2.
  - by destruct (Hhd t1) as [-> ->]; [tauto|].
  - by destruct (Hhd t2) as [-> ->]; [tauto|].
  - intros i Hi. unfold old_slot. rewrite Hsl by tauto. destruct (decide (u = t1)); [unfold upd; destruct (i =? j)|]; auto.
  - intros i Hi. unfold new_slot. rewrite Hsl by tauto. pose proof t1_t2. destruct (decide (u = t2)) as [->|]; [rewrite decide_False by done; unfold upd; destruct (i =? j)|destruct Hu as [-> | ->]; [rewrite decide_True by done|done]]; auto.
Qed.

(** The copies of the tables. *)
Lemma wp_put_old s hd O N LO LN LO' l b b' Q F :
  bview s hd O N LO LN -> t_old s = Some l -> l.[n] = Some b -> alen (slots b') = kAssociatedWays -> (forall j, 0 <= j < kAssociatedWays -> (slots b').[j] = Some (LO' j)) ->
  (forall s', bstep s s' -> bview s' hd O N LO' LN -> t_mem s' = t_mem s -> Q tt s') -> wp (set_old_bucket n b') s Q F.
Proof.
  intros [H1 H2 H3 H4 H5 H6 H7 H8] Hl Hb Hlen Hsl HQ. pose proof (aget_Some_lt _ _ _ Hb) as Hr. unfold set_old_bucket. wsteps. rewrite Hl. cbn [mbind option_bind].
  eapply wp_defined; [by apply aset_Some|]. wstep. pose proof (aset_Some l n b' Hr) as E. apply HQ; [|split; fields; try done; [by destruct H2|]|done].
  - split; fields; try done; [by intros []| |intros l2 H9; by exists l2]. intros l2 Hl2. rewrite Hl in Hl2. injection Hl2 as <-. eexists. split; [done|]. split; [by rewrite (aset_alen _ _ _ _ E)|]. intros i Hi. by rewrite (aget_aset_ne _ _ _ _ _ E).
  - eexists _, b'. split; [done|]. split; [by rewrite (aget_aset_eq _ _ _ _ E)|done].
Qed.

Lemma wp_put_new s hd O N LO LN LN' l b b' Q F :
  bview s hd O N LO LN -> t_new s = Some l -> l.[n] = Some b -> alen (slots b') = kAssociatedWays -> (forall j, 0 <= j < kAssociatedWays -> (slots b').[j] = Some (LN' j)) ->
  (forall s', bstep s s' -> bview s' hd O N LO LN' -> t_mem s' = t_mem s -> Q tt s') -> wp (set_new_bucket n b') s Q F.
Proof.
  intros [H1 H2 H3 H4 H5 H6 H7 H8] Hl Hb Hlen Hsl HQ. pose proof (aget_Some_lt _ _ _ Hb) as Hr. unfold set_new_bucket. wsteps. rewrite Hl. cbn [mbind option_bind].
  eapply wp_defined; [by apply aset_Some|]. wstep. pose proof (aset_Some l n b' Hr) as E. apply HQ; [|split; fields; try done; [by destruct H2|]|done].
  - split; fields; try done; [by intros []|intros l2 H9; by exists l2|]. intros l2 Hl2. rewrite Hl in Hl2. injection Hl2 as <-. eexists. split; [done|]. split; [by rewrite (aset_alen _ _ _ _ E)|]. intros i Hi. by rewrite (aget_aset_ne _ _ _ _ _ E).
  - eexists _, b'. split; [done|]. split; [by rewrite (aget_aset_eq _ _ _ _ E)|done].
Qed.

Lemma wp_get_bucket s (f : table A -> option (list Bucket)) l b Q F : f s = Some l -> l.[n] = Some b -> Q b s -> wp (get_bucket f n) s Q F.
Proof. intros Hl Hb HQ. unfold get_bucket. wsteps. rewrite Hl. by eapply wp_defined. Qed.

Lemma slots_upd (l l' : list Z) (f : Z -> Z) j x : aset l j x = Some l' -> alen l = kAssociatedWays -> (forall i, 0 <= i < kAssociatedWays -> l.[i] = Some (f i)) ->
  alen l' = kAssociatedWays /\ forall i, 0 <= i < kAssociatedWays -> l'.[i] = Some (upd f j x i).
Proof.
  intros E Hl Hf. split; [by rewrite (aset_alen _ _ _ _ E)|]. intros i Hi. unfold upd. destruct (Z.eqb_spec i j) as [->|]; [by apply aget_aset_eq in E|]. rewrite (aget_aset_ne _ _ _ _ _ E) by lia. by apply Hf.
Qed.

(** A slot of the old half is cleared. *)
Lemma wp_update_old s hd O N LO LN j x Q F :
  bview s hd O N LO LN -> 0 <= j < kAssociatedWays -> LO j = O j -> 0 <= x < 2 ^ 64 ->
  (forall s', bstep s s' -> bview s' hd (upd O j x) N (upd LO j (O j)) LN -> Q (0, O j) s') -> wp (update_old region (tp t1) n j x) s Q F.
Proof.
  intros Hv Hj HLO Hx HQ. destruct (bv_lold _ _ _ _ _ _ Hv) as (l & b & Hl & Hb & Hlen & Hsl). unfold update_old. wstep. eapply wp_get_bucket; [done|done|]. wstep.
  eapply wp_defined; [by apply Hsl|]. rewrite HLO. wstep. eapply (wp_swap_slot s); [exact Hp|by apply old_is_slot|by apply (bv_old _ _ _ _ _ _ Hv)|].
  pose proof (bview_store s t1 j x _ _ _ _ _ Hv ltac:(tauto) Hj Hx) as Hv1. pose proof (bstep_store s t1 j x ltac:(tauto) Hj) as Hb1. rewrite !decide_True in Hv1 by done.
  wstep. unfold set_slot. cbn [snd]. wstep. pose proof (aset_Some (slots b) j (O j) ltac:(lia)) as E. eapply wp_defined; [exact E|]. wstep.
  destruct (slots_upd _ _ _ _ _ E Hlen Hsl) as [Hlen' Hsl']. wstep. eapply (wp_put_old _ _ _ _ _ _ (upd LO j (O j)) l b); [exact Hv1|done|done|done|done|].
  intros s' Hs' Hv' _. wstep. apply HQ; [by eapply bstep_trans|done].
Qed.

(** A slot of the new half is taken, if it is free. *)
Lemma wp_update_new s hd O N LO LN j x Q F :
  bview s hd O N LO LN -> 0 <= j < kAssociatedWays -> LN j = 0 -> 0 <= x < 2 ^ 64 ->
  (forall s', bstep s s' -> (N j = 0 -> bview s' hd O (upd N j x) LO (upd LN j 0)) -> (N j <> 0 -> bview s' hd O N LO (upd LN j (N j))) -> Q (if N j =? 0 then 0 else EAGAIN, N j) s') ->
  wp (update_new region (tp t2) n j x) s Q F.
Proof.
  intros Hv Hj HLN Hx HQ. destruct (bv_lnew _ _ _ _ _ _ Hv) as (l & b & Hl & Hb & Hlen & Hsl). unfold update_new. wstep. eapply wp_get_bucket; [done|done|]. wstep.
  eapply wp_defined; [by apply Hsl|]. rewrite HLN. wstep. pose proof (bv_new _ _ _ _ _ _ Hv j Hj) as HNj. destruct (slot_region _ _ _ _ _ _ _ _ Hp (new_is_slot j Hj)) as [R1 R2].
  unfold atomic_update_slot. wstep. apply wp_compare_and_swap; [done|done|]. fold (new_slot j). rewrite HNj. wstep. rewrite (Z.eqb_sym 0). wstep. unfold set_slot. cbn [snd]. wstep.
  pose proof (aset_Some (slots b) j (N j) ltac:(lia)) as E. eapply wp_defined; [exact E|]. wstep. destruct (slots_upd _ _ _ _ _ E Hlen Hsl) as [Hlen' Hsl']. wstep.
  pose proof (bview_store s t2 j x _ _ _ _ _ Hv ltac:(tauto) Hj Hx) as Hv1. pose proof (bstep_store s t2 j x ltac:(tauto) Hj) as Hb1. pose proof t1_t2. rewrite !decide_False in Hv1 by done.
  destruct (Z.eqb_spec (N j) 0) as [E0|E0].
  - eapply (wp_put_new _ _ _ _ _ _ (upd LN j (N j)) l b); [exact Hv1|done|done|done|done|]. intros s' Hs' Hv' _. wstep. rewrite E0 in Hv'. apply HQ; [by eapply bstep_trans|done|done].
  - eapply (wp_put_new _ _ _ _ _ _ (upd LN j (N j)) l b); [exact Hv|done|done|done|done|]. intros s' Hs' Hv' _. wstep. by apply HQ.
Qed.

Lemma wp_place_slot s O N LO LN c x hd F ids i :
  ids = seqZ i (kAssociatedWays - i) -> bview s hd O N LO LN -> 0 <= i <= c -> c < kAssociatedWays -> N c = 0 -> 0 <= x < 2 ^ 64 ->
  (forall q, 0 <= q < kAssociatedWays -> LN q = 0 \/ LN q = N q) ->
  wp (place_slot region (tp t2) n x ids) s (fun r s' => exists k LN', r = Some k /\ 0 <= k <= c /\ N k = 0 /\ bstep s s' /\ bview s' hd O (upd N k x) LO LN' /\
    forall q, 0 <= q < kAssociatedWays -> LN' q = 0 \/ LN' q = upd N k x q) F.
Proof.
  intros E Hv Hi Hc HNc Hx HLN. revert s LN i E Hv Hi HLN. induction ids as [|j ids IH]; intros s LN i E Hv Hi HLN.
  { rewrite seqZ_cons in E by lia. done. }
  rewrite seqZ_cons in E by lia. injection E as -> E. replace (Z.pred (kAssociatedWays - i)) with (kAssociatedWays - (i + 1)) in E by lia. rewrite <- Z.add_1_r in E.
  cbn [place_slot]. destruct (bv_lnew _ _ _ _ _ _ Hv) as (l & b & Hl & Hb & Hlen & Hsl). wstep. eapply wp_get_bucket; [done|done|]. wstep.
  eapply wp_defined; [by apply Hsl; lia|]. destruct (Z.eqb_spec (LN i) 0) as [E0|E0]; cbn [negb].
  - wstep. eapply wp_update_new; [exact Hv|lia|done|done|]. intros s' Hs' Hyes Hno. cbn [fst]. destruct (Z.eqb_spec (N i) 0) as [N0|N0].
    + rewrite Z.eqb_refl. wstep. exists i, (upd LN i 0). split_and!; try done; try lia; [by apply Hyes|]. intros q Hq. unfold upd. destruct (q =? i); [tauto|by apply HLN].
    + change (EAGAIN =? 0) with false. cbn iota. eapply wp_next; [apply (IH s' (upd LN i (N i)) (i + 1) E); [by apply Hno| |]|].
      * destruct (Z.eq_dec i c) as [->|]; [done|lia].
      * intros q Hq. unfold upd. destruct (Z.eqb_spec q i) as [->|]; [tauto|by apply HLN].
      * intros r s2 (k & LN' & ? & ? & ? & ? & ?). exists k, LN'. split_and!; try done; try lia; [by eapply bstep_trans|tauto..].
  - apply (IH s LN (i + 1) E Hv); [|done]. destruct (HLN i ltac:(lia)) as [|HL]; [done|]. destruct (Z.eq_dec i c) as [->|]; [congruence|lia].
Qed.

(** The slot points to a block whose key goes to the new half. *)
Definition moves (m : mem) (x : Z) : Prop := exists k v, points blocks m x k v /\ owns t2 k.

Lemma wp_read_key s x k v F :
  mem_ok (t_mem s) -> bufs_ok s -> points blocks (t_mem s) x k v ->
  wp (read_key region x) s (fun r s' => r = k /\ exists b, s' = set_block s b /\ bufs_ok s') F.
Proof.
  intros Hm Hb Hpt. unfold read_key. pose proof (po_len _ _ _ _ _ Hpt) as Hlen. wstep.
  eapply wp_next; [by eapply (wp_load_block s)|]. intros b s' (-> & L & Fb & bs & Hbs & Hs & Hkv). wstep.
  assert (4 <= alen bs) by (rewrite Hbs; unfold kBlockLengthUnit in *; lia).
  eapply wp_defined; [rewrite <- Hbs, (check_prefix _ _ Hs) by done; apply (kb_crc _ _ _ Hkv)|].
  eapply wp_defined; [by eapply block_key_prefix|]. split; [done|]. exists b. split; [done|]. by destruct Hb.
Qed.

Lemma bview_block s b hd O N LO LN : bview s hd O N LO LN -> bufs_ok (set_block s b) -> bstep s (set_block s b) /\ bview (set_block s b) hd O N LO LN.
Proof. intros [] Hb. split; [split; try done; intros l Hl; by exists l|by split]. Qed.

Lemma bstep_points s s' x k v : bstep s s' -> points blocks (t_mem s) x k v -> points blocks (t_mem s') x k v.
Proof. intros Hs Hpt. eapply points_frame; [exact Hpt|]. intros c Hc. split; [done|by apply Hs]. Qed.

Lemma wp_copy_slots s0 O LO hd F ids :
  (forall j, 0 <= j < kAssociatedWays -> LO j <> 0 -> 0 <= LO j < 2 ^ 64 /\ exists k v, points blocks (t_mem s0) (LO j) k v) ->
  (forall j, j ∈ ids -> 0 <= j < kAssociatedWays) -> NoDup ids ->
  forall s N LN c, bstep s0 s -> bview s hd O N LO LN -> 0 <= c -> c + Z.of_nat (length ids) <= kAssociatedWays -> (forall q, c <= q < kAssociatedWays -> N q = 0) ->
  (forall q, 0 <= q < kAssociatedWays -> LN q = 0 \/ LN q = N q) ->
  wp (copy_slots region (tp t2) n (2 ^ (td t + 1)) (ts t2) ids) s (fun l s' => exists N' LN', bstep s s' /\ bview s' hd O N' LO LN' /\ NoDup l.*1 /\
    (forall j q, (j, q) ∈ l -> j ∈ ids /\ 0 <= q < kAssociatedWays /\ N q = 0 /\ N' q = LO j /\ LO j <> 0 /\ moves (t_mem s0) (LO j)) /\
    (forall j, j ∈ ids -> LO j <> 0 -> moves (t_mem s0) (LO j) -> exists q, (j, q) ∈ l) /\ (forall q, N' q = N q \/ exists j, (j, q) ∈ l)) F.
Proof.
  intros Hkeys. induction ids as [|j ids IH]; intros Hids Hnd s N LN c Hs Hv Hc0 Hc HN HLN; cbn [copy_slots].
  { wstep. exists N, LN. split; [apply bstep_refl|]. split; [done|]. split; [constructor|]. split; [by intros ?? ?%elem_of_nil|]. split; [by intros ? ?%elem_of_nil|]. tauto. }
  apply NoDup_cons in Hnd as [Hj Hnd]. cbn [length] in Hc. pose proof (Hids j ltac:(by left)) as Hjr. specialize (IH (fun i Hi => Hids i ltac:(by right)) Hnd).
  assert (forall s1, bstep s s1 -> bview s1 hd O N LO LN -> ~ (LO j <> 0 /\ moves (t_mem s0) (LO j)) ->
    wp (copy_slots region (tp t2) n (2 ^ (td t + 1)) (ts t2) ids) s1 (fun l s' => exists N' LN', bstep s s' /\ bview s' hd O N' LO LN' /\ NoDup l.*1 /\
    (forall i q, (i, q) ∈ l -> i ∈ j :: ids /\ 0 <= q < kAssociatedWays /\ N q = 0 /\ N' q = LO i /\ LO i <> 0 /\ moves (t_mem s0) (LO i)) /\
    (forall i, i ∈ j :: ids -> LO i <> 0 -> moves (t_mem s0) (LO i) -> exists q, (i, q) ∈ l) /\ (forall q, N' q = N q \/ exists i, (i, q) ∈ l)) F) as Hskip.
  { intros s1 Hs1 Hv1 Hno. eapply wp_next; [apply (IH s1 N LN c); [by eapply bstep_trans|done|done|lia|done|done]|]. intros l s' (N' & LN' & B & V & D & H1 & H2 & H3). exists N', LN'.
    split; [by eapply bstep_trans|]. split; [done|]. split; [done|]. split; [intros i q Hi; split; [right|]; by apply (H1 i q)|]. split; [|done].
    intros i [->|Hi]%elem_of_cons; [intros; by destruct Hno|by apply H2]. }
  destruct (bv_lold _ _ _ _ _ _ Hv) as (l & b & Hl & Hb & Hlen & Hsl). wstep. eapply wp_get_bucket; [done|done|]. wstep. eapply wp_defined; [by apply Hsl|].
  destruct (Z.eqb_spec (LO j) 0) as [E0|E0]; [apply Hskip; [apply bstep_refl|done|tauto]|]. destruct (Hkeys j Hjr E0) as (Hx & k & v & Hpt).
  wstep. eapply wp_next; [eapply (wp_read_key s); [apply Hv|apply Hv|by eapply bstep_points]|]. intros r s1 (-> & blk & -> & Hbu). destruct (bview_block s blk _ _ _ _ _ Hv Hbu) as [B1 V1].
  assert (moves (t_mem s0) (LO j) <-> fst (hash_function k) mod 2 ^ (td t + 1) = ts t2) as Hmv.
  { split; [|intros; by exists k, v]. intros (k' & v' & Hpt' & Ho). destruct (points_inj _ _ _ _ _ _ _ Hpt Hpt') as [<- _]. exact Ho. }
  destruct (Z.eqb_spec (fst (hash_function k) mod 2 ^ (td t + 1)) (ts t2)) as [Em|Em]; cbn [negb]; [|apply Hskip; [done|done|tauto]].
  wstep. eapply wp_next; [apply (wp_place_slot _ O N LO LN c (LO j) hd F _ 0 eq_refl V1); [lia|lia|by apply HN; lia|done|done]|]. intros r s2 (q0 & LN2 & -> & Hq0 & HNq & B2 & V2 & HLN2).
  wstep. eapply wp_next; [apply (IH s2 _ LN2 (c + 1) ltac:(by eapply bstep_trans; [|eapply bstep_trans]) V2); [lia|lia| |done]|].
  { intros q Hq. unfold upd. destruct (Z.eqb_spec q q0) as [->|]; [lia|]. apply HN. lia. }
  intros l' s3 (N' & LN' & B3 & V3 & D3 & H1 & H2 & H3). wstep. exists N', LN'.
  assert (N' q0 = LO j) as HN'.
  { destruct (H3 q0) as [->|(i & Hi)]; [unfold upd; by rewrite Z.eqb_refl|]. destruct (H1 i q0 Hi) as (_ & _ & Hz & _). unfold upd in Hz. rewrite Z.eqb_refl in Hz. done. }
  split; [by eapply bstep_trans; [|eapply bstep_trans]|]. split; [done|]. split; [|split; [|split]].
  - rewrite fmap_cons. apply NoDup_cons. split; [|done]. intros ([i q] & Ei & Hi)%list_elem_of_fmap. cbn in Ei. subst i. by destruct (H1 j q Hi).
  - intros i q [[= -> ->]|Hi]%elem_of_cons; [split; [by left|]; split; [lia|]; tauto|]. destruct (H1 i q Hi) as (? & ? & Hz & ?). split; [by right|]. split; [done|]. split; [|done]. unfold upd in Hz. destruct (Z.eqb_spec q q0); [done|done].
  - intros i [->|Hi]%elem_of_cons; [intros; exists q0; by left|]. intros Hz Hm. destruct (H2 i Hi Hz Hm) as (q & Hq). exists q. by right.
  - intros q. destruct (H3 q) as [E|(i & Hi)]; [|right; exists i; by right]. unfold upd in E. destruct (Z.eq_dec q q0) as [Eq|Hne]; [right; exists j; rewrite Eq; by left|left]. by rewrite (proj2 (Z.eqb_neq _ _) Hne) in E.
Qed.

Lemma wp_clear_slots hd N LN F l : NoDup l.*1 ->
  forall s O LO, bview s hd O N LO LN -> (forall j q, (j, q) ∈ l -> 0 <= j < kAssociatedWays /\ LO j = O j /\ O j <> 0) ->
  wp (for_each l (clear_slot region (tp t1) (tp t2) n)) s (fun _ s' => bstep s s' /\ exists O' LO', bview s' hd O' N LO' LN /\ forall j, O' j = if bool_decide (j ∈ l.*1) then 0 else O j) F.
Proof.
  induction l as [|[j q] l IH]; intros Hnd s O LO Hv Hl; cbn [for_each].
  { wstep. split; [apply bstep_refl|]. exists O, LO. split; [done|]. intros j. by rewrite bool_decide_false by apply not_elem_of_nil. }
  rewrite fmap_cons in Hnd. apply NoDup_cons in Hnd as [Hj Hnd]. cbn [fst] in Hj. destruct (Hl j q ltac:(by left)) as (Hjr & HLO & HO). wstep. unfold clear_slot. wstep. cbn [fst snd].
  eapply wp_update_old; [exact Hv|done|done|lia|]. intros s1 B1 V1. cbn [snd]. rewrite (proj2 (Z.eqb_neq _ _) HO). wstep.
  eapply wp_next; [apply (IH Hnd s1 _ _ V1)|].
  - intros i p Hi. destruct (Hl i p ltac:(by right)) as (? & ? & ?). assert (i <> j) as Hne by (intros ->; apply Hj, list_elem_of_fmap; by exists (j, p)).
    unfold upd. by rewrite (proj2 (Z.eqb_neq i j)).
  - intros u s2 (B2 & O' & LO' & V2 & HO'). split; [by eapply bstep_trans|]. exists O', LO'. split; [done|]. intros i. rewrite HO', fmap_cons. cbn [fst]. unfold upd.
    destruct (Z.eqb_spec i j) as [->|Hne]; [rewrite (bool_decide_true (j ∈ j :: _)) by (by left); by destruct (bool_decide _)|].
    by rewrite (bool_decide_ext (i ∈ j :: l.*1) (i ∈ l.*1)) by (rewrite elem_of_cons; tauto).
Qed.

(** Where the keys may be when the buckets below [i] have been moved. *)
Definition mhome (i : Z) (u : tab) (b : Z) (k : list Z) : Prop :=
  (u = t2 -> b < i /\ owns t2 k) /\ (u = t1 -> owns t k /\ (b < i -> owns t1 k)) /\ (u <> t1 -> u <> t2 -> owns u k).

(** The slots that were moved. *)
Fixpoint relocate (E : list (Z * Z)) (x : Z) : Z :=
  match E with [] => x | (j, q) :: E => if x =? old_slot j then new_slot q else relocate E x end.

Lemma old_slot_inj i j : old_slot i = old_slot j -> i = j.
Proof. unfold old_slot, table_slot_addr. lia. Qed.

Lemma relocate_in E j q : NoDup E.*1 -> (j, q) ∈ E -> relocate E (old_slot j) = new_slot q.
Proof.
  induction E as [|[i p] E IH]; [by intros _ ?%elem_of_nil|]. rewrite fmap_cons. intros [Hi Hnd]%NoDup_cons [[= <- <-]|Hin]%elem_of_cons; cbn [relocate]; [by rewrite Z.eqb_refl|].
  destruct (Z.eqb_spec (old_slot j) (old_slot i)) as [Eq%old_slot_inj|]; [|by apply IH]. subst. destruct Hi. apply list_elem_of_fmap. by exists (i, q).
Qed.

Lemma relocate_out E x : (forall j, j ∈ E.*1 -> x <> old_slot j) -> relocate E x = x.
Proof.
  induction E as [|[i p] E IH]; intros Hout; cbn [relocate]; [done|]. rewrite (proj2 (Z.eqb_neq _ _)); [|apply Hout; by left]. apply IH. intros j Hj. apply Hout. by right.
Qed.

Section Moved.
Context (m m' : mem) (O O' N' : Z -> Z) (E : list (Z * Z)) (loc : gmap (list Z) Z).
Context (Hs : slots_ok m tabs' (mhome n) blocks M loc).
Context (HO : forall j, 0 <= j < kAssociatedWays -> ld_le 8 m (old_slot j) = O j) (HN : forall j, 0 <= j < kAssociatedWays -> ld_le 8 m (new_slot j) = 0).
Context (HO' : forall j, 0 <= j < kAssociatedWays -> ld_le 8 m' (old_slot j) = O' j) (HN' : forall j, 0 <= j < kAssociatedWays -> ld_le 8 m' (new_slot j) = N' j).
Context (Hblocks : forall c, c ∈ blocks -> agree m m' (fst c) (snd c)).
Context (Hother : forall u b, u ∈ tabs' -> 0 <= b < kTotalBuckets g -> (u, b) <> (t1, n) -> (u, b) <> (t2, n) -> agree m m' (tp u + sizeof_Bucket * b) sizeof_Bucket).
Context (Hnd : NoDup E.*1) (HE : forall j q, (j, q) ∈ E -> 0 <= j < kAssociatedWays /\ 0 <= q < kAssociatedWays /\ N' q = O j /\ O j <> 0 /\ moves m (O j)).
Context (Hall : forall j, 0 <= j < kAssociatedWays -> O j <> 0 -> moves m (O j) -> exists q, (j, q) ∈ E).
Context (Hnew : forall q, 0 <= q < kAssociatedWays -> N' q = 0 \/ exists j, (j, q) ∈ E) (Hclear : forall j, O' j = if bool_decide (j ∈ E.*1) then 0 else O j).

Lemma elem_of_moved j : j ∈ E.*1 -> exists q, (j, q) ∈ E.
Proof. intros ([i q] & -> & Hi)%list_elem_of_fmap. by exists q. Qed.

(** Slots of other buckets stay. *)
Lemma relocate_other x u b j : is_slot tabs' x u b j -> (u, b) <> (t1, n) -> relocate E x = x.
Proof using HE Hp Hn Ht.
  intros Hslot Hne. apply relocate_out. intros i Hi ->. destruct (elem_of_moved i Hi) as (q & Hq). destruct (HE i q Hq) as (Hir & _).
  destruct (table_slots_apart _ _ _ _ _ _ _ _ _ _ _ _ Hp Hslot (old_is_slot i Hir)) as [(_ & -> & -> & _)|Hap]; [done|lia].
Qed.

Lemma ld_other x u b j : is_slot tabs' x u b j -> (u, b) <> (t1, n) -> (u, b) <> (t2, n) -> ld_le 8 m' x = ld_le 8 m x.
Proof using Hother. intros (Hu & Hb & Hj & ->) H1 H2. apply agree_slot; [by apply Hother|done]. Qed.

Lemma moved_loc k x : (relocate E <$> loc) !! k = Some x ->
  K k /\ exists u b j v, is_slot tabs' x u b j /\ mhome (n + 1) u b k /\ cand k b /\ M !! k = Some v /\ points blocks m' (ld_le 8 m' x) k v.
Proof.
  rewrite lookup_fmap. intros (a1 & Hl & ->)%fmap_Some. destruct (so_loc _ _ _ _ _ _ Hs _ _ Hl) as (HK & u & b & j & v & Hslot & Hh & Hc & HM & Hpt). split; [done|].
  assert (forall y, points blocks m y k v -> points blocks m' y k v) as Hframe by (intros y Hx; eapply points_frame; [exact Hx|]; intros c Hcb; split; [done|by apply Hblocks]).
  pose proof t1_t2 as Hne12. destruct (decide ((u, b) = (t1, n))) as [[= -> ->]|Hn1].
  - destruct Hslot as (_ & _ & Hj & ->). fold (old_slot j) in *. destruct Hh as (_ & Hh & _). destruct (Hh eq_refl) as [Hot _]. rewrite (HO j Hj) in Hpt. destruct (decide (j ∈ E.*1)) as [Hin|Hout].
    + destruct (elem_of_moved j Hin) as (q & Hq). destruct (HE j q Hq) as (_ & Hqr & Nq & _ & (k' & v' & Hpt' & Ho)). destruct (points_inj _ _ _ _ _ _ _ Hpt Hpt') as [<- <-].
      rewrite (relocate_in E j q Hnd Hq). exists t2, n, q, v. split; [by apply new_is_slot|]. split; [|rewrite HN', Nq by done; split; [done|]; split; [done|by apply Hframe]].
      split; [intros _; split; [lia|done]|]. split; [intros E12; by symmetry in E12|done].
    + rewrite relocate_out by (intros i Hi Eq%old_slot_inj; by subst). exists t1, n, j, v. split; [by apply old_is_slot|]. split; [|rewrite HO' by done; rewrite Hclear, bool_decide_false by done; split; [done|]; split; [done|by apply Hframe]].
      split; [done|]. split; [|done]. intros _. split; [done|]. intros _. apply owns_halves in Hot as [|Ho2]; [done|]. destruct Hout.
      destruct (Hall j Hj) as (q & Hq); [by eapply points_nonzero|by exists k, v|]. apply list_elem_of_fmap. by exists (j, q).
  - rewrite (relocate_other _ _ _ _ Hslot Hn1). destruct (decide ((u, b) = (t2, n))) as [[= -> ->]|Hn2].
    { destruct Hslot as (_ & _ & Hj & ->). fold (new_slot j) in *. rewrite (HN j Hj) in Hpt. by apply points_nonzero in Hpt. }
    exists u, b, j, v. rewrite (ld_other _ _ _ _ Hslot Hn1 Hn2). split; [done|]. split; [|split; [done|]; split; [done|by apply Hframe]]. destruct Hh as (H1 & H2 & H3). split; [|split; [|done]].
    + intros ->. destruct (H1 eq_refl). split; [lia|done].
    + intros ->. destruct (H2 eq_refl) as [Ho Hlt]. split; [done|]. intros Hb. apply Hlt. assert (b <> n) by congruence. lia.
Qed.

Lemma slots_moved : slots_ok m' tabs' (mhome (n + 1)) blocks M (relocate E <$> loc).
Proof.
  pose proof t1_t2 as Hne12. split; [exact moved_loc| |].
  - intros u b j x Hslot Hnz. assert (forall a1, ld_le 8 m a1 <> 0 -> (exists u b j, is_slot tabs' a1 u b j) -> relocate E a1 = x -> exists k, (relocate E <$> loc) !! k = Some x) as Hold.
    { intros a1 H1 (u1 & b1 & j1 & Hs1) <-. destruct (so_all _ _ _ _ _ _ Hs _ _ _ _ Hs1 H1) as (k & Hk). exists k. by rewrite lookup_fmap, Hk. }
    destruct (decide ((u, b) = (t1, n))) as [[= -> ->]|Hn1].
    + destruct Hslot as (_ & _ & Hj & ->). fold (old_slot j) in *. rewrite HO', Hclear in Hnz by done. destruct (decide (j ∈ E.*1)) as [Hin|Hout]; [by rewrite bool_decide_true in Hnz|]. rewrite bool_decide_false in Hnz by done.
      apply (Hold (old_slot j)); [by rewrite HO|exists t1, n, j; by apply old_is_slot|]. apply relocate_out. intros i Hi Eq%old_slot_inj. by subst.
    + destruct (decide ((u, b) = (t2, n))) as [[= -> ->]|Hn2].
      * destruct Hslot as (_ & _ & Hj & ->). fold (new_slot j) in *. rewrite HN' in Hnz by done. destruct (Hnew j Hj) as [|(i & Hi)]; [done|]. destruct (HE i j Hi) as (Hir & _ & _ & Hz & _).
        apply (Hold (old_slot i)); [by rewrite HO|exists t1, n, i; by apply old_is_slot|by apply relocate_in].
      * rewrite (ld_other _ _ _ _ Hslot Hn1 Hn2) in Hnz. apply (Hold x); [done|by exists u, b, j|by eapply relocate_other].
  - intros k. rewrite lookup_fmap, fmap_None. apply Hs.
Qed.

End Moved.

End Bucket.

Lemma ld_halves m x : ld_le 8 m x = ld_le 4 m x + 2 ^ 32 * ld_le 4 m (x + 4).
Proof.
  unfold ld_le. change 8%nat with (4 + 4)%nat. rewrite load_bytes_app. change (x + Z.of_nat 4) with (x + 4). set (u := load_bytes m x 4). set (w := load_bytes m (x + 4) 4).
  assert (length u = 4%nat) as Hu by apply length_load_bytes. destruct u as [|c0 [|c1 [|c2 [|c3 [|]]]]]; try done. cbn [app le_val]. change (2 ^ 32) with 4294967296. lia.
Qed.

Lemma ld_halves_inv m x y z : mem_ok m -> ld_le 8 m x = y + 2 ^ 32 * z -> 0 <= y < 2 ^ 32 -> ld_le 4 m x = y /\ ld_le 4 m (x + 4) = z.
Proof.
  intros Hm E Hy. rewrite ld_halves in E. pose proof (ld_le_range m x 4 Hm) as H1. change (256 ^ Z.of_nat 4) with (2 ^ 32) in H1. change (2 ^ 32) with 4294967296 in *. lia.
Qed.

Lemma t_depths : 0 <= td t < 12 /\ 0 <= ts t < 2 ^ 12 /\ 0 <= ts t2 < 2 ^ 12 /\ 0 <= ts t < kMaxSubTables g /\ 0 <= ts t2 < kMaxSubTables g.
Proof.
  destruct pow_td as [H1 H2]. destruct Hg as [_ _ _ Hmx]. assert (2 ^ (td t + 1) <= kMaxSubTables g) by (apply Z.pow_le_mono_r; lia). assert (2 ^ (td t + 1) <= 2 ^ 12) by (apply Z.pow_le_mono_r; lia). cbn [ts t2]. lia.
Qed.

(** The depth in the header of a bucket is raised. *)
Lemma bview_header n s O N LO LN : 0 <= n < kTotalBuckets g -> bview n s (td t) O N LO LN ->
  let s' := set_mem s (store_bytes (t_mem s) (tp t1 + sizeof_Bucket * n) (le_bytes 8 (td t + 1 + 2 ^ 32 * ts t))) in bstep n s s' /\ bview n s' (td t + 1) O N LO LN.
Proof.
  intros Hn [H1 H2 H3 H4 H5 H6 H7 H8]. destruct t_depths as (Hd & Ho & _). change (2 ^ 12) with 4096 in *.
  destruct (bucket_store _ _ _ _ (t_mem s) t1 n 0 (le_bytes 8 (td t + 1 + 2 ^ 32 * ts t)) Hp t1_in Hn) as (B1 & B2 & B3); [lia|rewrite alen_le_bytes; unfold sizeof_Bucket; lia|]. rewrite Z.add_0_r in *.
  set (m' := store_bytes (t_mem s) (tp t1 + sizeof_Bucket * n) _) in *. assert (mem_ok m') as Hm' by (by apply store_bytes_mem_ok). pose proof t1_t2 as Hne. split.
  - split; fields; try done; [by intros []| |intros l Hl; by exists l|intros l Hl; by exists l]. intros u b Hu Hb Hn1 Hn2. by apply B3.
  - assert (agree (t_mem s) m' (tp t2 + sizeof_Bucket * n) sizeof_Bucket) as Hag by (apply B3; [apply t2_in|done|congruence]).
    split; fields; try done; [by destruct H2| | | |].
    + apply ld_halves_inv; [done| |lia]. apply ld_store_same. change (2 ^ 32) with 4294967296. change (2 ^ 64) with 18446744073709551616. lia.
    + by destruct (agree_header _ _ _ _ Hag) as [-> ->].
    + intros j Hj. rewrite <- H5 by done. eapply (agree_ld _ _ _ _ 8); [|lia]. apply agree_store. rewrite alen_le_bytes. unfold table_slot_addr. lia.
    + intros j Hj. rewrite <- H6 by done. by apply agree_slot.
Qed.

(** The state when the buckets below [i] have been moved. *)
Record moving (i : Z) s (f : Z -> Z) (loc : gmap (list Z) Z) : Prop := {
  mv_bytes : mem_ok (t_mem s);
  mv_node : t_node s = a0;
  mv_view : dir_view s gd f f;
  mv_bufs : bufs_ok s;
  mv_cache : cache_ok (t_mem s) tabs' blocks (t_cache s);
  mv_headers u b : u ∈ tabs' -> 0 <= b < kTotalBuckets g ->
    ld_le 4 (t_mem s) (tp u + sizeof_Bucket * b) = (if decide (u = t1 /\ i <= b) then td t else td u) /\ ld_le 4 (t_mem s) (tp u + sizeof_Bucket * b + 4) = ts u;
  mv_slots : slots_ok (t_mem s) tabs' (mhome i) blocks M loc;
  mv_old : exists l, t_old s = Some l /\ forall b, i <= b < kTotalBuckets g -> l.[b] = Some (bucket_at (t_mem s) (tp t1 + sizeof_Bucket * b));
  mv_new : exists l, t_new s = Some l /\ forall b, i <= b < kTotalBuckets g -> l.[b] = Some (bucket_at (t_mem s) (tp t2 + sizeof_Bucket * b)) /\
    forall j, 0 <= j < kAssociatedWays -> ld_le 8 (t_mem s) (table_slot_addr (tp t2) b j) = 0;
  mv_resize : resize_suffix s = -1 }.

Lemma bview_start n s f loc : 0 <= n < kTotalBuckets g -> moving n s f loc ->
  let O j := ld_le 8 (t_mem s) (table_slot_addr (tp t1) n j) in bview n s (td t) O (fun _ => 0) O (fun _ => 0).
Proof.
  intros Hn [H1 H2 H3 H4 H5 H6 H7 (lo & Hlo & Hlb) (ln & Hln & Hnb) H10] O.
  assert (forall x, alen (slots (bucket_at (t_mem s) x)) = kAssociatedWays) as Hlen by done.
  split; try done.
  - destruct (H6 t1 n t1_in Hn) as [-> ->]. by rewrite decide_True.
  - destruct (H6 t2 n t2_in Hn) as [-> ->]. rewrite decide_False; [done|]. intros [E _]. by pose proof t1_t2.
  - intros j Hj. by apply (Hnb n ltac:(lia)).
  - eexists lo, _. split; [done|]. split; [by apply Hlb; lia|]. split; [done|]. intros j Hj. by apply slot_of_bucket.
  - eexists ln, _. split; [done|]. split; [by apply (Hnb n ltac:(lia))|]. split; [done|]. intros j Hj. rewrite slot_of_bucket by done. f_equal. by apply (Hnb n ltac:(lia)).
Qed.

(** The bucket has been moved. *)
Lemma moving_next n s s' f loc loc' O' N' LO' LN' :
  0 <= n < kTotalBuckets g -> moving n s f loc -> bstep n s s' -> bview n s' (td t + 1) O' N' LO' LN' ->
  slots_ok (t_mem s') tabs' (mhome (n + 1)) blocks M loc' -> moving (n + 1) s' f loc'.
Proof.
  intros Hn [H1 H2 H3 H4 H5 H6 H7 (lo & Hlo & Hlb) (ln & Hln & Hnb) H10] B V Hs. pose proof t1_t2 as Hne.
  assert (forall u b, u ∈ tabs' -> 0 <= b < kTotalBuckets g -> b <> n -> agree (t_mem s) (t_mem s') (tp u + sizeof_Bucket * b) sizeof_Bucket) as Hag by (intros u b Hu Hb Hbn; apply (bs_other _ _ _ B); [done|done|congruence..]).
  assert (forall b, n + 1 <= b < kTotalBuckets g -> bucket_at (t_mem s') (tp t1 + sizeof_Bucket * b) = bucket_at (t_mem s) (tp t1 + sizeof_Bucket * b)) as E1 by (intros b Hb; eapply agree_bucket; [apply Hag; [apply t1_in|lia|lia]|lia]).
  assert (forall b, n + 1 <= b < kTotalBuckets g -> bucket_at (t_mem s') (tp t2 + sizeof_Bucket * b) = bucket_at (t_mem s) (tp t2 + sizeof_Bucket * b)) as E2 by (intros b Hb; eapply agree_bucket; [apply Hag; [apply t2_in|lia|lia]|lia]).
  split; try done.
  - apply V.
  - by rewrite (bs_node _ _ _ B).
  - eapply view_quiet; [exact H3|apply B|apply B].
  - apply V.
  - rewrite (bs_cache _ _ _ B). eapply cache_ok_frame; [exact H5| |by eauto]. intros c Hc. split; [done|by apply B].
  - intros u b Hu Hb. destruct (decide ((u, b) = (t1, n))) as [[= -> ->]|Hn1].
    { destruct (bv_header _ _ _ _ _ _ _ V) as [-> ->]. rewrite decide_False by lia. done. }
    destruct (decide ((u, b) = (t2, n))) as [[= -> ->]|Hn2].
    { destruct (bv_header2 _ _ _ _ _ _ _ V) as [-> ->]. rewrite decide_False by (intros [E _]; by apply Hne). done. }
    destruct (agree_header _ _ _ _ (bs_other _ _ _ B u b Hu Hb Hn1 Hn2)) as [-> ->]. destruct (H6 u b Hu Hb) as [-> ->]. split; [|done].
    destruct (decide (u = t1 /\ n <= b)) as [[-> ?]|Hno]; destruct (decide _) as [[Eu ?]|Hno']; try done; exfalso; [apply Hno'|apply Hno]; (split; [done|]); [assert (b <> n) by congruence|]; lia.
  - destruct (bs_old _ _ _ B lo Hlo) as (l' & Hl' & _ & Eq). exists l'. split; [done|]. intros b Hb. rewrite Eq, E1 by lia. apply Hlb. lia.
  - destruct (bs_new _ _ _ B ln Hln) as (l' & Hl' & _ & Eq). exists l'. split; [done|]. intros b Hb. rewrite Eq, E2 by lia. split; [apply (Hnb b); lia|].
    intros j Hj. rewrite (agree_slot (t_mem s) (t_mem s')); [apply (Hnb b); [lia|done]|apply Hag; [apply t2_in|lia|lia]|done].
  - by destruct (bs_resize _ _ _ B) as (-> & _).
Qed.

Lemma wp_move_bucket n s f loc F :
  0 <= n < kTotalBuckets g -> moving n s f loc -> f (ts t) = mk_entry 1 (td t + 1) (tp t) -> f (ts t2) = mk_entry 1 (td t + 1) a ->
  wp (move_bucket region (ts t) (ts t2) (td t) n) s (fun _ s' => bstep n s s' /\ exists loc', moving (n + 1) s' f loc') F.
Proof.
  intros Hn Hmv Hft Hf2. pose proof (bview_start n s f loc Hn Hmv) as V0. set (O := fun j => _) in V0. destruct t_depths as (Hd & Ho & Ho2 & Hk1 & Hk2). change (2 ^ 12) with 4096 in *.
  destruct (tab_entry _ _ _ _ t1 1 (td t + 1) Hp t1_in) as (_ & _ & Ep1 & _); [lia|lia|]. destruct (tab_entry _ _ _ _ t2 1 (td t + 1) Hp t2_in) as (_ & _ & Ep2 & _); [lia|lia|]. cbn [tp t1 t2] in Ep1, Ep2.
  unfold move_bucket. wsteps. rewrite (mv_resize _ _ _ _ Hmv). change (0 <=? -1) with false. cbn iota. wstep.
  eapply view_get_entry; [apply Hmv|done|]. rewrite Hft. wstep. eapply view_get_entry; [apply Hmv|done|]. rewrite Hf2, Ep1, Ep2. wstep.
  destruct (mv_old _ _ _ _ Hmv) as (lo & Hlo & Hlb). specialize (Hlb n ltac:(lia)). eapply wp_get_bucket; [done|exact Hlb|].
  cbn [local_depth suffix bucket_at]. destruct (bv_header _ _ _ _ _ _ _ V0) as [E1 E2]. rewrite E1, E2, Z.eqb_refl. cbn [negb]. wstep.
  destruct (table_held_inside _ _ _ _ Hp) as (_ & Hin & _). pose proof (Hin t1 t1_in) as Hp1. unfold sizeof_SubTable in Hp1. unfold wrapu. rewrite Z.mod_small by lia.
  assert (ld_le 8 (t_mem s) (tp t1 + sizeof_Bucket * n) = td t + 2 ^ 32 * ts t) as E8 by (by rewrite ld_halves, E1, E2).
  cbn [tp t1] in *. apply wp_compare_and_swap; [unfold sizeof_Bucket; lia|unfold sizeof_Bucket in *; lia|]. rewrite E8, Z.eqb_refl. destruct (bview_header n s _ _ _ _ Hn V0) as [B1 V1]. cbn [tp t1] in B1, V1.
  wstep. eapply (wp_put_old n _ _ _ _ _ _ O lo); [exact V1|done|exact Hlb|done|intros j Hj; by apply slot_of_bucket|]. intros s2 B2 V2 _.
  wstep. apply wp_shift1; [lia|]. wstep. assert (bstep n s s2) as B02 by (by eapply bstep_trans).
  eapply wp_next; [eapply (wp_copy_slots n Hn s O O); [| |by apply NoDup_seqZ|exact B02|exact V2|apply Z.le_refl|done|done|by left]|].
  { intros j Hj Hz. pose proof (ld_le_range (t_mem s) (table_slot_addr (tp t1) n j) 8 (mv_bytes _ _ _ _ Hmv)) as Hr. split; [exact Hr|].
    destruct (so_all _ _ _ _ _ _ (mv_slots _ _ _ _ Hmv) _ _ _ _ (old_is_slot n Hn j Hj) Hz) as (k & Hk). destruct (so_loc _ _ _ _ _ _ (mv_slots _ _ _ _ Hmv) _ _ Hk) as (_ & ? & ? & ? & v & _ & _ & _ & _ & Hpt). by exists k, v. }
  { intros j Hj%elem_of_seqZ. lia. }
  intros E s3 (N' & LN' & B3 & V3 & Hnd & HE & Hall & Hnew).
  assert (forall j q, (j, q) ∈ E -> 0 <= j < kAssociatedWays) as HEr by (intros j q Hq; destruct (HE j q Hq) as [Hj%elem_of_seqZ _]; lia).
  eapply wp_next; [apply (wp_clear_slots n Hn _ _ _ F E Hnd s3 _ _ V3)|].
  { intros j q Hq. split; [by eapply HEr|]. split; [done|]. by apply (HE j q Hq). }
  intros u s4 (B4 & O' & LO' & V4 & HO'). assert (bstep n s s4) as B by (by eapply bstep_trans; [|eapply bstep_trans]). split; [done|]. exists (relocate n E <$> loc).
  eapply moving_next; [done|exact Hmv|exact B|exact V4|]. eapply (slots_moved n Hn (t_mem s) (t_mem s4) O O' N' E loc (mv_slots _ _ _ _ Hmv)); try done.
  - apply V0.
  - apply V4.
  - apply V4.
  - apply B.
  - apply B.
  - intros j q Hq. split; [by eapply HEr|]. destruct (HE j q Hq) as (_ & ? & _ & ? & ? & ?). done.
  - intros j Hj. apply Hall, elem_of_seqZ. lia.
Qed.

Lemma wp_move_buckets s f loc F :
  moving 0 s f loc -> f (ts t) = mk_entry 1 (td t + 1) (tp t) -> f (ts t2) = mk_entry 1 (td t + 1) a ->
  wp (move_buckets g region (ts t) (ts t2) (td t)) s (fun _ s' => exists loc', moving (kTotalBuckets g) s' f loc' /\ resize_lock_cnt s' = resize_lock_cnt s /\ resize_lock s' = resize_lock s /\ kept blocks (t_mem s) (t_mem s')) F.
Proof.
  intros Hmv Hft Hf2. pose proof (group_range 0) as Htot. unfold move_buckets.
  set (Inv (l : list Z) (s' : table A) := exists i loc', 0 <= i <= kTotalBuckets g /\ l = seqZ i (kTotalBuckets g - i) /\ moving i s' f loc' /\ resize_lock_cnt s' = resize_lock_cnt s /\ resize_lock s' = resize_lock s /\ kept blocks (t_mem s) (t_mem s')).
  eapply wp_next; [apply (wp_for_each Inv)|].
  - exists 0, loc. split; [lia|]. split; [by rewrite Z.sub_0_r|done].
  - intros i l s1 (i' & loc1 & Hi & El & H1 & Hc & Hl & Hk). assert (i' < kTotalBuckets g) as Hlt by (destruct (Z.lt_ge_cases i' (kTotalBuckets g)); [done|rewrite seqZ_nil in El by lia; done]).
    rewrite seqZ_cons in El by lia. injection El as -> ->. eapply wp_next; [apply (wp_move_bucket i' s1 f loc1); [lia|done..]|].
    intros u s2 (B & loc2 & H2). exists (i' + 1), loc2. destruct (bs_resize _ _ _ B) as (_ & -> & ->). split; [lia|]. split; [f_equal; lia|]. split_and!; try done. eapply kept_trans; [exact Hk|exact (bs_blocks _ _ _ B)].
  - intros u s1 (i & loc1 & Hi & El & H1 & Hc & Hl & Hk). assert (i = kTotalBuckets g) as -> by (destruct (Z.lt_ge_cases i (kTotalBuckets g)); [rewrite seqZ_cons in El by lia; done|lia]).
    by exists loc1.
Qed.

Lemma moving_dstep i s s' f f' loc : moving i s f loc -> dstep s s' -> dir_view s' gd f' f' -> moving i s' f' loc.
Proof.
  intros [H1 H2 H3 H4 H5 H6 H7 (lo & Hlo & Hlb) (ln & Hln & Hnb) H10] Hs Hv. destruct (dstep_agree _ _ _ _ _ _ Hp Hs) as [Db Dt].
  assert (forall u b, u ∈ tabs' -> 0 <= b < kTotalBuckets g -> agree (t_mem s) (t_mem s') (tp u + sizeof_Bucket * b) sizeof_Bucket) as Hag by (intros u b Hu Hb; apply agree_in_tab; [by apply Dt|done]).
  split; try done.
  - by apply Hs.
  - by rewrite (dt_node _ _ Hs).
  - by eapply dstep_bufs.
  - by eapply dstep_cache.
  - intros u b Hu Hb. destruct (agree_header _ _ _ _ (Hag u b Hu Hb)) as [-> ->]. by apply H6.
  - by eapply dstep_slots.
  - exists lo. rewrite (dt_old _ _ Hs). split; [done|]. intros b Hb. rewrite Hlb by done. f_equal. symmetry. destruct (decide (0 <= b)) as [Hb0|Hb0]; [eapply agree_bucket; [apply Hag; [apply t1_in|lia]|lia]|].
    exfalso. specialize (Hlb b Hb). rewrite aget_None in Hlb by lia. done.
  - exists ln. rewrite (dt_new _ _ Hs). split; [done|]. intros b Hb. destruct (Hnb b Hb) as [E Hz]. pose proof (aget_Some_lt _ _ _ E) as Hb0.
    assert (agree (t_mem s) (t_mem s') (tp t2 + sizeof_Bucket * b) sizeof_Bucket) as Ha by (apply Hag; [apply t2_in|lia]). split; [rewrite E; f_equal; symmetry; eapply agree_bucket; [exact Ha|lia]|].
    intros j Hj. rewrite (agree_slot _ _ _ _ _ Ha Hj). by apply Hz.
  - by destruct (dt_resize _ _ Hs) as (-> & _).
Qed.

(** All buckets have been moved. *)
Lemma moving_done s f loc : moving (kTotalBuckets g) s f loc -> dir_ok (t_mem s) gd tabs' -> base s gd dn tabs' blocks /\ slots_ok (t_mem s) tabs' at_home blocks M loc.
Proof.
  intros [H1 H2 H3 H4 H5 H6 H7 _ _ H10] Hd. split; [split; try done|].
  - by rewrite H2.
  - intros u b Hu Hb. destruct (H6 u b Hu Hb) as [-> ->]. rewrite decide_False by lia. done.
  - by eapply view_coherent.
  - eapply slots_ext; [exact H7|done|done|]. intros u b k Hu Hb (M1 & M2 & M3). unfold at_home. destruct (decide (u = t2)) as [->|]; [by apply M1|]. destruct (decide (u = t1)) as [->|]; [apply M2; [done|lia]|by apply M3].
Qed.

End Split.

(** ** A new subtable *)

(** The invariant apart from what the directory says. *)
Record inside s (gd dn : Z) (tabs : list tab) (blocks : list (Z * Z)) (M : gmap (list Z) (list Z)) (loc : gmap (list Z) Z) (f : Z -> Z) : Prop := {
  in_bytes : mem_ok (t_mem s);
  in_pool : pool_held (t_node s) dn tabs blocks;
  in_view : dir_view s gd f f;
  in_headers : headers_ok (t_mem s) tabs;
  in_cache : cache_ok (t_mem s) tabs blocks (t_cache s);
  in_bufs : bufs_ok s;
  in_slots : slots_ok (t_mem s) tabs at_home blocks M loc;
  in_suffix : resize_suffix s = -1 }.

Lemma inside_dstep s s' gd gd' dn tabs blocks M loc f f' : inside s gd dn tabs blocks M loc f -> dstep s s' -> dir_view s' gd' f' f' -> inside s' gd' dn tabs blocks M loc f'.
Proof.
  intros [H1 H2 H3 H4 H5 H6 H7 H8] Hs Hv. split; try done.
  - by apply Hs.
  - by rewrite (dt_node _ _ Hs).
  - by eapply dstep_headers.
  - by eapply dstep_cache.
  - by eapply dstep_bufs.
  - by eapply dstep_slots.
  - by destruct (dt_resize _ _ Hs) as (-> & _).
Qed.

Section Fresh.
Context (gd dn : Z) (T1 T2 : list tab) (t : tab) (a an : Z) (blocks : list (Z * Z)) (M : gmap (list Z) (list Z)) (loc : gmap (list Z) Z).
Let tabs := T1 ++ t :: T2.
Let t1 := Tab (tp t) (td t + 1) (ts t) (tn t).
Let t2 := Tab a (td t + 1) (ts t + 2 ^ td t) an.
Let tabs' := t2 :: T1 ++ t1 :: T2.
Context (Ht : 0 <= td t < kMaxGlobalDepth g /\ 0 <= ts t < 2 ^ td t).
Context (n n' : A) (Hp : pool_held n dn tabs blocks) (Hn : in_ok n' ((a, an) :: held dn tabs blocks)) (Han : sizeof_SubTable g <= an).

Lemma fresh_pool : pool_held n' dn tabs' blocks.
Proof.
  destruct Hp as [_ H1 H2]. split; [|done|].
  - eapply in_ok_perm; [|exact Hn]. unfold held, tabs', tabs. rewrite !fmap_cons, !fmap_app, !fmap_cons. cbn [tp tn t1 t2 app]. apply perm_swap.
  - unfold tabs'. apply Forall_cons. split; [done|]. unfold tabs in H2. apply Forall_app in H2 as [F1 F2]. apply Forall_cons in F2 as [F2 F3]. apply Forall_app. split; [done|]. by apply Forall_cons.
Qed.

Lemma fresh_apart c : c ∈ held dn tabs blocks -> apart (a, an) c.
Proof. intros Hc. apply in_ok_disj in Hn as [Hd _]. rewrite Forall_forall in Hd. by apply Hd. Qed.

Lemma held_tab u : u ∈ tabs -> (tp u, tn u) ∈ held dn tabs blocks.
Proof. intros Hu. unfold held. apply elem_of_cons. right. apply elem_of_app. left. by apply (list_elem_of_fmap_2 (fun t => (tp t, tn t))). Qed.

Lemma fresh_t2 : t2 ∉ tabs.
Proof.
  intros Hin. pose proof (held_tab _ Hin) as Hh. pose proof (fresh_apart _ Hh) as Ha. destruct (in_ok_inside _ _ (a, an) Hn) as (_ & Hpos & _); [by left|]. cbn in Ha, Hpos. destruct Ha as [Ha|Ha]; cbn in Ha; lia.
Qed.

Lemma fresh_t1 m : headers_ok m tabs -> t1 ∉ tabs.
Proof.
  intros Hh Hin. pose proof (group_range 0) as Hr. destruct (Hh t1 0 Hin ltac:(lia)) as [E1 _]. destruct (Hh t 0) as [E2 _]; [unfold tabs; apply elem_of_app; right; by left|lia|]. cbn [tp td t1] in *. lia.
Qed.

Lemma tabs_cases u : u ∈ tabs' -> u = t2 \/ u = t1 \/ u ∈ T1 ++ T2.
Proof. unfold tabs'. rewrite elem_of_cons, !elem_of_app, elem_of_cons. tauto. Qed.
Lemma rest_in u : u ∈ T1 ++ T2 -> u ∈ tabs /\ u ∈ tabs'.
Proof. unfold tabs, tabs'. rewrite elem_of_cons, !elem_of_app, !elem_of_cons. tauto. Qed.
Lemma tabs_old u : u ∈ tabs -> u = t \/ u ∈ T1 ++ T2.
Proof. unfold tabs. rewrite !elem_of_app, elem_of_cons. tauto. Qed.

Lemma fresh_t1_in : t1 ∈ tabs'.
Proof. unfold tabs'. rewrite elem_of_cons, elem_of_app, elem_of_cons. auto. Qed.

(** The slots are where they were, and the new subtable is empty. *)
Lemma fresh_slots m m' : headers_ok m tabs -> slots_ok m tabs at_home blocks M loc ->
  (forall u, u ∈ tabs -> agree m m' (tp u) (sizeof_SubTable g)) -> (forall c, c ∈ blocks -> agree m m' (fst c) (snd c)) ->
  (forall b j, 0 <= b < kTotalBuckets g -> 0 <= j < kAssociatedWays -> ld_le 8 m' (table_slot_addr a b j) = 0) ->
  slots_ok m' tabs' (mhome t a an 0) blocks M loc.
Proof.
  intros Hh Hs Hag Hbl Hz. pose proof (fresh_t1 m Hh) as N1. pose proof fresh_t2 as N2.
  assert (forall u b j, u ∈ tabs -> 0 <= b < kTotalBuckets g -> 0 <= j < kAssociatedWays -> ld_le 8 m' (table_slot_addr (tp u) b j) = ld_le 8 m (table_slot_addr (tp u) b j)) as Hld.
  { intros u b j Hu Hb Hj. apply agree_slot; [|done]. apply agree_in_tab; [by apply Hag|done]. }
  assert (t ∈ tabs) as Htin by (unfold tabs; apply elem_of_app; right; by left).
  split; [| |apply Hs].
  - intros k x Hl. destruct (so_loc _ _ _ _ _ _ Hs _ _ Hl) as (HK & u & b & j & v & (Hu & Hb & Hj & ->) & Ho & Hc & HM & Hpt). split; [done|].
    assert (points blocks m' (ld_le 8 m' (table_slot_addr (tp u) b j)) k v) as Hpt' by (rewrite Hld by done; eapply points_frame; [exact Hpt|]; intros c Hcb; split; [done|by apply Hbl]).
    apply tabs_old in Hu as [->|Hu].
    + exists t1, b, j, v. split; [exact (conj fresh_t1_in (conj Hb (conj Hj eq_refl)))|]. split; [|done]. split; [intros E; by destruct (t1_t2 t a an Ht)|]. split; [|done]. intros _. split; [exact Ho|lia].
    + destruct (rest_in u Hu) as [H1 H2]. exists u, b, j, v. split; [exact (conj H2 (conj Hb (conj Hj eq_refl)))|]. split; [|done]. split; [intros ->; done|]. split; [intros ->; done|]. intros _ _. exact Ho.
  - intros u b j x (Hu & Hb & Hj & ->) Hnz. apply tabs_cases in Hu as [->|[->|Hu]]; [by rewrite Hz in Hnz| |].
    + change (tp t1) with (tp t) in *. rewrite Hld in Hnz by done. exact (so_all _ _ _ _ _ _ Hs t b j _ (conj Htin (conj Hb (conj Hj eq_refl))) Hnz).
    + destruct (rest_in u Hu) as [H1 H2]. rewrite Hld in Hnz by done. exact (so_all _ _ _ _ _ _ Hs u b j _ (conj H1 (conj Hb (conj Hj eq_refl))) Hnz).
Qed.

Let zeros := MkBucket (td t + 1) (ts t + 2 ^ td t) (replicate 7 0).
Let table := replicate (Z.to_nat (kTotalBuckets g)) zeros.

Lemma table_bytes : alen (concat (bucket_bytes <$> table)) = sizeof_SubTable g.
Proof.
  assert (forall k, alen (concat (bucket_bytes <$> replicate k zeros)) = 64 * Z.of_nat k) as H.
  { induction k as [|k IH]; [done|]. cbn [replicate]. rewrite fmap_cons. cbn [concat]. unfold alen in *. rewrite length_app, Nat2Z.inj_add, IH.
    assert (length (bucket_bytes zeros) = 64%nat) as -> by (unfold zeros, bucket_bytes; cbn [local_depth suffix slots]; rewrite !length_app, !length_le_bytes, length_words; done). lia. }
  unfold table. rewrite H. pose proof (group_range 0). unfold sizeof_SubTable, sizeof_Bucket. lia.
Qed.

Lemma fresh_agree m c k : c ∈ held dn tabs blocks -> k <= snd c -> agree m (store_bytes m a (concat (bucket_bytes <$> table))) (fst c) k.
Proof. intros Hc Hk. eapply (new_block_agree n'); [exact Hn|by rewrite table_bytes|done|done]. Qed.

Lemma fresh_moving s sw s4 f f' :
  inside s gd dn tabs blocks M loc f -> t_mem sw = store_bytes (t_mem s) a (concat (bucket_bytes <$> table)) -> t_node sw = n' -> t_cache sw = t_cache s -> t_bufs sw = t_bufs s -> t_block sw = t_block s ->
  t_old sw = Some (subtable_at g (t_mem s) (tp t)) -> t_new sw = Some table -> resize_suffix sw = -1 -> dstep sw s4 -> dir_view s4 gd f' f' ->
  moving gd T1 T2 t a an blocks M n' 0 s4 f' loc.
Proof.
  intros [H1 H2 H3 H4 H5 H6 H7 H8] Em En Ec Eb Ek Eo Ew Es Hd Hv. pose proof fresh_pool as Hp'. destruct (dstep_agree _ _ _ _ _ _ Hp' Hd) as [Db Dt].
  pose proof (pow_td t Ht) as [Hpow Hpow2]. destruct (t_depths t a an Ht) as (Hd12 & Hs12 & Hs212 & _). cbn [ts] in Hs212. change (2 ^ 12) with 4096 in *.
  assert (forall c, c ∈ blocks -> agree (t_mem s) (t_mem s4) (fst c) (snd c)) as Ab.
  { intros c Hc. apply (agree_trans _ (t_mem sw)); [|by apply Db]. rewrite Em. apply fresh_agree; [|lia]. unfold held. apply elem_of_cons. right. apply elem_of_app. by right. }
  assert (forall u, u ∈ tabs -> agree (t_mem s) (t_mem s4) (tp u) (sizeof_SubTable g)) as At.
  { intros u Hu. destruct (table_held_inside _ _ _ _ Hp) as (_ & Hin & _). pose proof (Hin u Hu). apply (agree_trans _ (t_mem sw)); [rewrite Em; apply (fresh_agree (t_mem s) (tp u, tn u)); [by apply held_tab|cbn; lia]|].
    apply tabs_old in Hu as [->|Hu]; [apply (Dt t1), fresh_t1_in|by apply Dt, rest_in]. }
  assert (forall b, 0 <= b < kTotalBuckets g -> bucket_at (t_mem s4) (a + sizeof_Bucket * b) = zeros) as Az.
  { intros b Hb. rewrite (agree_bucket (t_mem sw) (t_mem s4) _ sizeof_Bucket); [|apply agree_in_tab; [apply (Dt t2); by left|done]|lia]. rewrite Em. apply new_table_reads; lia. }
  assert (forall b j, 0 <= b < kTotalBuckets g -> 0 <= j < kAssociatedWays -> ld_le 8 (t_mem s4) (table_slot_addr a b j) = 0) as As.
  { intros b j Hb Hj. pose proof (slot_of_bucket (t_mem s4) a b j Hj) as E. rewrite Az in E by done. cbn [slots zeros] in E. unfold kAssociatedWays in Hj. rewrite aget_replicate in E by lia. by injection E as <-. }
  assert (t ∈ tabs) as Htin by (unfold tabs; apply elem_of_app; right; by left). pose proof (fresh_t1 _ H4) as N1.
  split; try done.
  - apply Hd. rewrite Em. by apply store_bytes_mem_ok.
  - by rewrite (dt_node _ _ Hd).
  - eapply dstep_bufs; [exact Hd|]. destruct H6. split; congruence.
  - rewrite (dt_cache _ _ Hd), Ec. eapply cache_ok_frame; [exact H5|intros c Hc; split; [done|by apply Ab]|]. intros u Hu. apply tabs_old in Hu as [->|Hu]; [exists t1; split; [apply fresh_t1_in|done]|exists u; split; [by apply rest_in|done]].
  - intros u b Hu Hb. apply tabs_cases in Hu as [->|[->|Hu]].
    + pose proof (Az b Hb) as E. unfold bucket_at, zeros in E. injection E as E1 E2 _. change (tp t2) with a. rewrite E1, E2, decide_False; [done|]. intros [E _]. by destruct (t1_t2 t a an Ht).
    + rewrite decide_True by (split; [done|lia]). change (tp t1) with (tp t). change (ts t1) with (ts t). destruct (agree_header _ _ _ _ (agree_in_tab _ _ _ b (At t Htin) Hb)) as [-> ->]. by apply H4.
    + destruct (rest_in u Hu) as [Hu1 Hu2]. rewrite decide_False by (intros [-> _]; done). destruct (agree_header _ _ _ _ (agree_in_tab _ _ _ b (At u Hu1) Hb)) as [-> ->]. by apply H4.
  - apply (fresh_slots (t_mem s)); try done.
  - rewrite (dt_old _ _ Hd), Eo. eexists. split; [done|]. intros b Hb. unfold subtable_at. rewrite aget_lookup, list_lookup_fmap, lookup_seqZ_lt by lia. cbn [fmap option_fmap option_map].
    replace (0 + Z.of_nat (Z.to_nat b)) with b by lia. f_equal. symmetry. eapply agree_bucket; [apply agree_in_tab; [apply (At t Htin)|done]|lia].
  - rewrite (dt_new _ _ Hd), Ew. eexists. split; [done|]. intros b Hb. cbn [tp]. rewrite (Az b Hb). split; [unfold table; apply aget_replicate; lia|]. intros j Hj. by apply As.
  - by destruct (dt_resize _ _ Hd) as (-> & _).
Qed.

End Fresh.

(** The entries of the two halves while they are locked. *)
Definition halves_locked (t : tab) (a : Z) (f : Z -> Z) (i : Z) : Z :=
  if i =? ts t then mk_entry 1 (td t + 1) (tp t) else if i =? ts t + 2 ^ td t then mk_entry 1 (td t + 1) a else f i.

Lemma wp_new_subtable s gd dn T1 T2 t blocks M loc f :
  inside s gd dn (T1 ++ t :: T2) blocks M loc f -> 0 <= td t < kMaxGlobalDepth g /\ 0 <= ts t < 2 ^ td t ->
  f (ts t) = mk_entry 1 (td t) (tp t) -> f (ts t + 2 ^ td t) = mk_entry 1 (td t) (tp t) ->
  wp (new_subtable g region dir_addr (ts t) (ts t + 2 ^ td t) (td t)) s (fun _ s' => exists a an,
    pool_held (t_node s') dn (Tab a (td t + 1) (ts t + 2 ^ td t) an :: T1 ++ Tab (tp t) (td t + 1) (ts t) (tn t) :: T2) blocks /\
    moving gd T1 T2 t a an blocks M (t_node s') 0 s' (halves_locked t a f) loc /\ resize_lock_cnt s' = resize_lock_cnt s /\ resize_lock s' = resize_lock s /\ kept blocks (t_mem s) (t_mem s')) (fun w => w = NoMemory).
Proof.
  intros Hi Ht Ho Hns. pose proof (in_pool _ _ _ _ _ _ _ _ Hi) as Hp. pose proof (in_view _ _ _ _ _ _ _ _ Hi) as Hv. assert (t ∈ T1 ++ t :: T2) as Htin by (apply elem_of_app; right; by left).
  destruct (table_held_inside _ _ _ _ Hp) as (Hdir & Hin & _ & Hreg). pose proof (Hin t Htin) as Htp. pose proof (pow_td t Ht) as [Hpow Hpow2]. destruct (t_depths t 0 0 Ht) as (Hd12 & Hs12 & Hs212 & Hk1 & Hk2). cbn [ts] in Hk2, Hs212.
  assert (0 <= sizeof_SubTable g < 2 ^ 44) as Hsz.
  { pose proof (group_range 0). pose proof Hg as [[H1 H2] _ _ _]. unfold sizeof_SubTable, kTotalBuckets, sizeof_Bucket in *. change (2 ^ 36) with 68719476736 in H2. change (2 ^ 44) with 17592186044416. dlia. }
  destruct (tab_entry _ _ _ _ t 1 (td t) Hp Htin) as (L1 & D1 & P1 & _); [lia|lia|]. destruct (tab_entry _ _ _ _ t 1 (td t + 1) Hp Htin) as (_ & _ & _ & R1); [lia|lia|].
  unfold new_subtable. wstep. eapply view_get_entry; [exact Hv|done|]. rewrite Ho. wstep. eapply view_get_entry; [exact Hv|done|]. rewrite Hns, L1, P1. wsteps.
  destruct (in_alloc_spec (t_node s) _ (sizeof_SubTable g) (ph_ok _ _ _ _ Hp) Hsz) as (r & n' & E & Hr). eapply wp_defined; [exact E|]. wsteps. cbn [fst snd]. destruct r as [a|]; [|by apply wp_stopped].
  destruct Hr as (an & Han & Hok). destruct (in_ok_inside _ _ (a, an) Hok) as (Ha1 & Ha3 & _ & Ha2 & _); [by left|]. cbn [fst snd] in Ha1, Ha2, Ha3.
  destruct (mk_entry_fields 1 (td t + 1) a) as (_ & _ & _ & R2); [lia|lia|lia|].
  wstep. eapply (view_set_entry (set_node s n') gd f f); [by eapply view_quiet; [exact Hv|done|done]|done|]. intros s1 B1 V1 M1. wstep.
  eapply (view_set_entry s1); [exact V1|done|]. intros s2 B2 V2 M2. wstep. apply wp_read_with; [lia|lia|]. wsteps. set (tbl := replicate _ _). fields.
  assert (alen (concat (bucket_bytes <$> tbl)) = sizeof_SubTable g) as Htb by (eapply table_bytes; eassumption). rewrite M2, M1. fields.
  apply wp_write_bytes; [lia|lia|]. fields. rewrite M2, M1. fields. set (sw := set_mem _ _). assert (dstep (set_node s n') s2) as B02 by (by eapply dstep_trans).
  assert (dir_view sw gd f (upd (upd f (ts t + 2 ^ td t) (mk_entry 1 (td t + 1) a)) (ts t) (mk_entry 1 (td t + 1) (tp t)))) as Vw.
  { eapply (view_quiet s2); [exact V2|done|]. unfold sw. fields. rewrite M2, M1. fields. apply (new_block_agree n' dn (T1 ++ t :: T2) blocks a an Hok (t_mem s) (concat (bucket_bytes <$> tbl)) ltac:(rewrite Htb; exact Han) (dir_addr, dn)); [by left|apply Hp]. }
  wstep. eapply (wp_write_entry Hdir sw); [exact Vw|done|unfold upd; rewrite Z.eqb_refl; done|]. intros s3 B3 V3 _.
  eapply (wp_write_entry Hdir s3); [exact V3|done|unfold upd; rewrite Z.eqb_refl; destruct (_ =? ts t); done|]. intros s4 B4 V4 _. exists a, an.
  assert (dstep sw s4) as B by (by eapply dstep_trans). assert (t_node s4 = n') as En4 by (rewrite (dt_node _ _ B); unfold sw; fields; by rewrite (dt_node _ _ B02)).
  pose proof (fresh_pool dn T1 T2 t a an blocks (t_node s) n' Hp Hok Han) as Hp4. rewrite En4. split; [exact Hp4|]. split.
  - eapply (fresh_moving gd dn T1 T2 t a an blocks M loc Ht (t_node s) n' Hp Hok Han s sw s4 f); try done; try (unfold sw; fields; rewrite ?(dt_node _ _ B02), ?(dt_cache _ _ B02), ?(dt_bufs _ _ B02), ?(dt_block _ _ B02); done).
    + unfold sw. fields. destruct (dt_resize _ _ B02) as (-> & _). apply Hi.
    + eapply view_ext; [exact V4| |]; intros i Hir; unfold halves_locked, upd; repeat zcase; try done; lia.
  - destruct (dt_resize _ _ B) as (_ & -> & ->). unfold sw at 1 2. fields. destruct (dt_resize _ _ B02) as (_ & -> & ->). split; [done|]. split; [done|].
    eapply kept_trans; [|exact (proj1 (dstep_agree _ _ _ _ _ _ Hp4 B))]. unfold sw. fields. intros c Hc. apply (new_block_agree n' dn (T1 ++ t :: T2) blocks a an Hok (t_mem s) (concat (bucket_bytes <$> tbl)) ltac:(rewrite Htb; exact Han)); [|lia].
    apply elem_of_cons. right. apply elem_of_app. by right.
Qed.

(** ** Resizing *)

(** The entries point to the subtables. *)
Definition covers (f : Z -> Z) (gd : Z) (tabs : list tab) : Prop :=
  forall i, 0 <= i < 2 ^ gd -> exists u, u ∈ tabs /\ i mod 2 ^ td u = ts u /\ f i = mk_entry 0 (td u) (tp u).

Record tabs_ok (gd : Z) (tabs : list tab) : Prop := {
  to_range u : u ∈ tabs -> 0 <= td u <= gd /\ 0 <= ts u < 2 ^ td u;
  to_unique u u' h : u ∈ tabs -> u' ∈ tabs -> h mod 2 ^ td u = ts u -> h mod 2 ^ td u' = ts u' -> u = u' }.

Lemma covers_entry f gd tabs t i : tabs_ok gd tabs -> covers f gd tabs -> t ∈ tabs -> 0 <= i < 2 ^ gd -> i mod 2 ^ td t = ts t -> f i = mk_entry 0 (td t) (tp t).
Proof. intros Ho Hc Ht Hi Hm. destruct (Hc i Hi) as (u & Hu & Hmu & ->). by rewrite (to_unique _ _ Ho u t i). Qed.

Lemma tab_pointer a0 dn tabs blocks u : pool_held a0 dn tabs blocks -> u ∈ tabs -> 0 <= tp u < 2 ^ 48.
Proof. intros Hp Hu. destruct (table_held_inside _ _ _ _ Hp) as (_ & Hin & _ & Hreg). pose proof (Hin u Hu). pose proof (group_range 0). unfold sizeof_SubTable, sizeof_Bucket in *. lia. Qed.

Lemma wp_grow_directory s gd dn tabs blocks M loc f t :
  inside s gd dn tabs blocks M loc f -> 0 <= gd <= kMaxGlobalDepth g -> tabs_ok gd tabs -> covers f gd tabs -> t ∈ tabs ->
  wp (grow_directory g region dir_addr spin spin (ts t + 2 ^ td t) gd) s (fun r s' => exists f', dstep s s' /\ dir_view s' r f' f' /\ covers f' r tabs /\ td t < r <= kMaxGlobalDepth g /\ tabs_ok r tabs)
    (fun w => w = DirectoryFull).
Proof.
  intros Hi Hgd Ho Hc Ht. destruct (to_range _ _ Ho t Ht) as [Hd Hs]. pose proof Hg as [_ _ _ Hmx]. pose proof (in_view _ _ _ _ _ _ _ _ Hi) as Hv. pose proof (in_pool _ _ _ _ _ _ _ _ Hi) as Hp.
  destruct (table_held_inside _ _ _ _ Hp) as (Hdir & _). assert (0 < 2 ^ td t) by (apply Z.pow_pos_nonneg; lia). assert (2 ^ (td t + 1) = 2 * 2 ^ td t) as H2 by (rewrite Z.pow_add_r by lia; lia).
  assert (forall n k s, td t < k <= kMaxGlobalDepth g -> forall Q F, Q k s -> wp (grow_directory g region dir_addr spin n (ts t + 2 ^ td t) k) s Q F) as Hstop.
  { intros n k s1 Hk Q F HQ. destruct n; cbn [grow_directory]; wstep; (apply wp_shift1; [lia|]); assert (2 ^ (td t + 1) <= 2 ^ k) by (apply Z.pow_le_mono_r; lia); rewrite (proj2 (Z.ltb_lt _ _)) by lia; by wstep. }
  destruct (Z.lt_ge_cases (td t) gd) as [Hlt|Hge]; [apply Hstop; [lia|]; exists f; split; [apply dstep_refl|]; split; [done|]; split; [done|]; split; [lia|done]|].
  assert (exists n, spin = S n) as [n En] by apply spin_S. rewrite En at 2. cbn [grow_directory]. wstep. apply wp_shift1; [lia|].
  assert (2 ^ gd = 2 ^ td t) as Eg by (f_equal; lia). rewrite (proj2 (Z.ltb_ge _ _)) by lia. wstep.
  eapply wp_mono; [apply (wp_resize_directory Hdir s gd f Hv Hgd)| |by intros w [-> _]].
  { intros i Hir. destruct (Hc i Hir) as (u & Hu & _ & ->). exists (td u), (tp u). destruct (to_range _ _ Ho u Hu). split; [lia|]. split; [by eapply tab_pointer|done]. }
  intros u s1 (B1 & Hlt & f' & V1 & Hf'). wsteps. rewrite (dv_cached _ _ _ _ V1). apply Hstop; [lia|]. exists f'. split; [done|]. split; [done|]. split; [|split; [lia|]].
  - assert (2 ^ (gd + 1) = 2 * 2 ^ gd) as H3 by (rewrite Z.pow_add_r by lia; lia). intros i Hir. destruct (Z.lt_ge_cases i (2 ^ gd)) as [H4|H4].
    + destruct (Hc i) as (w & Hw & Hm & E); [lia|]. exists w. destruct (Hf' i) as [-> _]; [lia|]. done.
    + destruct (Hc (i - 2 ^ gd)) as (w & Hw & Hm & E); [lia|]. exists w. destruct (Hf' (i - 2 ^ gd)) as [_ E']; [lia|]. replace (i - 2 ^ gd + 2 ^ gd) with i in E' by lia. rewrite E'. split; [done|]. split; [|done].
      destruct (to_range _ _ Ho w Hw) as [Hdw _]. rewrite <- Hm. replace i with (i - 2 ^ gd + 2 ^ (gd - td w) * 2 ^ td w) at 1 by (rewrite <- Z.pow_add_r by lia; replace (gd - td w + td w) with gd by lia; lia).
      apply Z.mod_add. assert (0 < 2 ^ td w) by (apply Z.pow_pos_nonneg; lia). lia.
  - destruct Ho as [Ho1 Ho2]. split; [|done]. intros w Hw. destruct (Ho1 w Hw). lia.
Qed.

Section SplitDir.
Context (gd : Z) (T1 T2 : list tab) (t : tab) (a an : Z).
Let tabs := T1 ++ t :: T2.
Let t1 := Tab (tp t) (td t + 1) (ts t) (tn t).
Let t2 := Tab a (td t + 1) (ts t + 2 ^ td t) an.
Let tabs' := t2 :: T1 ++ t1 :: T2.
Context (Ho : tabs_ok gd tabs) (Hlt : td t < gd) (Hgd : gd <= kMaxGlobalDepth g) (Hnot : t ∉ T1 ++ T2).

Lemma split_t : t ∈ tabs.
Proof. unfold tabs. apply elem_of_app. right. by left. Qed.
Lemma split_rest u : u ∈ T1 ++ T2 -> u ∈ tabs.
Proof. unfold tabs. rewrite !elem_of_app, elem_of_cons. tauto. Qed.
Lemma split_cases u : u ∈ tabs' <-> u = t2 \/ u = t1 \/ u ∈ T1 ++ T2.
Proof. unfold tabs'. rewrite elem_of_cons, !elem_of_app, elem_of_cons. tauto. Qed.

Lemma split_depth : 0 <= td t /\ 0 <= ts t < 2 ^ td t /\ 0 < 2 ^ td t /\ 2 ^ (td t + 1) = 2 * 2 ^ td t.
Proof. destruct (to_range _ _ Ho t split_t). split_and!; try lia. rewrite Z.pow_add_r by lia. lia. Qed.

Lemma split_tabs_ok : tabs_ok gd tabs'.
Proof.
  destruct split_depth as (Hd & Hs & Hpow & Hpow2). split.
  - intros u [->|[->|Hu]]%split_cases; cbn [td ts t1 t2]; [lia..|]. by apply Ho, split_rest.
  - assert (forall u h, u ∈ T1 ++ T2 -> h mod 2 ^ td u = ts u -> h mod 2 ^ td t = ts t -> False) as Hrest by (intros u h Hu H1 H2; apply Hnot; by rewrite <- (to_unique _ _ Ho u t h (split_rest u Hu) split_t H1 H2)).
    assert (forall h, h mod 2 ^ (td t + 1) = ts t + 2 ^ td t \/ h mod 2 ^ (td t + 1) = ts t -> h mod 2 ^ td t = ts t) as Hlow by (intros h Hh; apply mod_halves; [lia|lia|tauto]).
    intros u u' h Hu%split_cases Hu'%split_cases. destruct Hu as [->|[->|Hu]], Hu' as [->|[->|Hu']]; cbn [td ts t1 t2]; intros E1 E2; try done; try lia; try (exfalso; eapply Hrest; eauto; fail). by apply (to_unique _ _ Ho u u' h); [apply split_rest..| |].
Qed.

Lemma split_covers f f' : covers f gd tabs ->
  (forall i, 0 <= i < 2 ^ gd -> f' i = if i mod 2 ^ (td t + 1) =? ts t then mk_entry 0 (td t + 1) (tp t) else if i mod 2 ^ (td t + 1) =? ts t + 2 ^ td t then mk_entry 0 (td t + 1) a else f i) ->
  covers f' gd tabs'.
Proof.
  intros Hc Hf i Hi. destruct split_depth as (Hd & Hs & Hpow & Hpow2). rewrite Hf by done. destruct (Z.eqb_spec (i mod 2 ^ (td t + 1)) (ts t)) as [E1|E1].
  { exists t1. split; [apply split_cases; auto|done]. }
  destruct (Z.eqb_spec (i mod 2 ^ (td t + 1)) (ts t + 2 ^ td t)) as [E2|E2].
  { exists t2. split; [apply split_cases; auto|done]. }
  destruct (Hc i Hi) as (u & Hu & Hm & ->). exists u. split; [|done]. apply split_cases. right. right. unfold tabs in Hu. rewrite elem_of_app, elem_of_cons in Hu. rewrite elem_of_app. destruct Hu as [Hu|[->|Hu]]; [tauto| |tauto].
  apply mod_halves in Hm; lia.
Qed.

End SplitDir.

Lemma covers_dir_ok s gd tabs f : dir_view s gd f f -> 0 <= gd <= kMaxGlobalDepth g -> tabs_ok gd tabs -> covers f gd tabs -> dir_ok (t_mem s) gd tabs.
Proof.
  intros Hv Hgd [H1 H2] Hc. pose proof (pow_gd_max gd Hgd). split; try done; [apply Hv|]. intros i Hi. destruct (Hc i Hi) as (u & Hu & Hm & E). exists u. split; [done|]. split; [done|]. rewrite <- E. apply (dv_mem _ _ _ _ Hv). lia.
Qed.

Lemma base_inside s gd dn tabs blocks M loc : base s gd dn tabs blocks -> slots_ok (t_mem s) tabs at_home blocks M loc -> resize_suffix s = -1 ->
  let f i := ld_le 8 (t_mem s) (entry_addr dir_addr i) in inside s gd dn tabs blocks M loc f /\ tabs_ok gd tabs /\ covers f gd tabs.
Proof.
  intros Hb Hs Hr f. pose proof (ba_dir _ _ _ _ _ Hb) as [D1 D2 D3 D4 D5]. split; [|by split]. split; try done; try apply Hb. by eapply view_of_base.
Qed.

Lemma tab_once a0 dn T1 T2 t blocks : pool_held a0 dn (T1 ++ t :: T2) blocks -> t ∉ T1 ++ T2.
Proof.
  intros Hp Hin. pose proof (ph_ok _ _ _ _ Hp) as Hok. destruct (in_ok_inside _ _ (tp t, tn t) Hok) as (_ & Hpos & _).
  { unfold held. apply elem_of_cons. right. apply elem_of_app. left. rewrite fmap_app, fmap_cons. apply elem_of_app. right. by left. }
  apply in_ok_disj in Hok. destruct Hok as [_ Hok]. apply disj_app in Hok as (Hok & _ & _). rewrite fmap_app, fmap_cons in Hok. apply disj_app in Hok as (_ & Hok & H12). destruct Hok as [Hd _]. rewrite Forall_forall in Hd.
  assert (apart (tp t, tn t) (tp t, tn t)) as [H|H]; [|cbn in *; lia..]. apply elem_of_app in Hin as [Hin|Hin]; [apply H12; [|by left]|apply Hd]; by apply (list_elem_of_fmap_2 (fun t => (tp t, tn t))).
Qed.

(** The part of [resize] between the locks, when the subtable has not been split. *)
Lemma wp_split s gd dn T1 T2 t blocks M loc f :
  let o := ts t in let ns := ts t + 2 ^ td t in let e := mk_entry 1 (td t) (tp t) in
  inside s gd dn (T1 ++ t :: T2) blocks M loc (upd (upd f o e) ns e) -> covers f gd (T1 ++ t :: T2) -> tabs_ok gd (T1 ++ t :: T2) -> td t < gd <= kMaxGlobalDepth g ->
  wp (new_subtable g region dir_addr o ns (td t);; fix_local_depth region dir_addr o gd (td t);; move_buckets g region o ns (td t);;
      unlock_subtable region dir_addr o;; unlock_subtable region dir_addr ns;; mret true) s
    (fun r s' => r = true /\ exists a an loc', let tabs' := Tab a (td t + 1) ns an :: T1 ++ Tab (tp t) (td t + 1) o (tn t) :: T2 in
      base s' gd dn tabs' blocks /\ slots_ok (t_mem s') tabs' at_home blocks M loc' /\ resize_suffix s' = -1 /\ resize_lock_cnt s' = resize_lock_cnt s /\ resize_lock s' = resize_lock s /\ kept blocks (t_mem s) (t_mem s'))
    (fun w => w = NoMemory).
Proof.
  intros o ns e Hi Hc Ho Hgd. pose proof (in_pool _ _ _ _ _ _ _ _ Hi) as Hp. pose proof (tab_once _ _ _ _ _ _ Hp) as Hnot. destruct (table_held_inside _ _ _ _ Hp) as (Hdir & _).
  destruct (split_depth gd T1 T2 t Ho) as (Hd & Hs & Hpow & Hpow2). assert (0 <= td t < kMaxGlobalDepth g /\ 0 <= ts t < 2 ^ td t) as Ht by lia. pose proof (tab_pointer _ _ _ _ _ Hp (split_t T1 T2 t)) as Htp.
  destruct (t_depths t 0 0 Ht) as (Hd12 & _ & _ & Hk1 & Hk2). cbn [ts] in Hk2. assert (2 ^ (td t + 1) <= 2 ^ gd) by (apply Z.pow_le_mono_r; lia).
  wstep. eapply wp_next; [apply (wp_new_subtable s gd dn T1 T2 t blocks M loc _ Hi Ht); unfold upd, o, ns; rewrite ?Z.eqb_refl; [by rewrite (proj2 (Z.eqb_neq _ _)) by lia|done]|].
  intros u s1 (a & an & Hp1 & H1 & C1 & L1 & K1). set (f1 := upd (upd f o e) ns e) in *. pose proof (tab_pointer _ _ _ _ _ Hp1 ltac:(by left)) as Hap. cbn [tp] in Hap.
  wstep. eapply wp_next; [apply (wp_fix_local_depth Hdir s1 gd (halves_locked t a f1) (td t) o (tp t) a); [apply H1|lia|lia|done|done|done| |]|].
  { unfold halves_locked, o. rewrite (proj2 (Z.eqb_neq _ _)), Z.eqb_refl by lia. by apply mk_entry_fields; lia. }
  { intros i Hir Hm Hn1 Hn2. unfold halves_locked, f1, upd, o, ns. rewrite !(proj2 (Z.eqb_neq i _)) by done. by apply (covers_entry f gd _ t i Ho Hc (split_t T1 T2 t)). }
  intros u2 s2 (B2 & f4 & V2 & Hf4). assert (moving gd T1 T2 t a an blocks M (t_node s1) 0 s2 f4 loc) as H2 by (by eapply (moving_dstep gd dn); [exact Ht|exact Hp1|exact H1|..]).
  assert (f4 o = mk_entry 1 (td t + 1) (tp t) /\ f4 ns = mk_entry 1 (td t + 1) a) as [E1 E2].
  { unfold ns, o. rewrite !Hf4 by lia. unfold split_entry, halves_locked, o. rewrite (Z.mod_small (ts t)), (Z.mod_small (ts t + 2 ^ td t)), !Z.eqb_refl by lia.
    rewrite (proj2 (Z.eqb_neq (ts t) (ts t + 2 ^ td t))), (proj2 (Z.eqb_neq (ts t + 2 ^ td t) (ts t))) by lia. by rewrite !andb_false_r. }
  wstep. eapply wp_next; [apply (wp_move_buckets gd dn T1 T2 t a an blocks M Ht _ Hp1 s2 f4 loc _ H2 E1 E2)|]. intros u3 s3 (loc' & H3 & C3 & L3 & K3).
  wstep. eapply wp_next; [apply (wp_unlock_subtable Hdir s3 gd f4 o 1 (td t + 1) (tp t) _ (mv_view _ _ _ _ _ _ _ _ _ _ _ _ _ H3)); try done; lia|]. intros u4 s4 [B4 V4].
  wstep. eapply wp_next; [apply (wp_unlock_subtable Hdir s4 gd _ ns 1 (td t + 1) a _ V4); [done|lia|lia|done|]|].
  { unfold upd. rewrite (proj2 (Z.eqb_neq ns o)) by (unfold ns, o; lia). done. }
  intros u5 s5 [B5 V5]. wstep. split; [done|]. exists a, an, loc'. assert (dstep s3 s5) as B by (by eapply dstep_trans).
  assert (moving gd T1 T2 t a an blocks M (t_node s1) (kTotalBuckets g) s5 (upd (upd f4 o (mk_entry 0 (td t + 1) (tp t))) ns (mk_entry 0 (td t + 1) a)) loc') as H5 by (by eapply (moving_dstep gd dn); [exact Ht|exact Hp1|exact H3|..]).
  destruct (moving_done gd dn T1 T2 t a an blocks M _ Hp1 _ _ _ H5) as [Hb Hsl].
  { eapply (covers_dir_ok s5); [exact V5|lia|by apply split_tabs_ok; [|lia|]|]. eapply (split_covers gd T1 T2 t a an Ho); [exact Hc|]. intros i Hir.
    unfold upd. rewrite Hf4 by lia. unfold split_entry, halves_locked, f1, upd, o, ns. rewrite (proj2 (Z.ltb_lt i (2 ^ gd))) by lia. cbn [andb].
    assert (forall x, 0 <= x < 2 ^ (td t + 1) -> i = x -> i mod 2 ^ (td t + 1) = x) as Hsm by (intros x Hx ->; by apply Z.mod_small).
    pose proof (Hsm (ts t) ltac:(lia)). pose proof (Hsm (ts t + 2 ^ td t) ltac:(lia)). repeat zcase; cbn [andb negb]; try done; lia. }
  split; [done|]. split; [done|]. split; [apply H5|]. destruct (dt_resize _ _ B) as (_ & -> & ->). rewrite C3, L3. destruct (dt_resize _ _ B2) as (_ & -> & ->). split; [done|]. split; [done|].
  eapply kept_trans; [exact K1|]. eapply kept_trans; [exact (proj1 (dstep_agree _ _ _ _ _ _ Hp1 B2))|]. eapply kept_trans; [exact K3|exact (proj1 (dstep_agree _ _ _ _ _ _ Hp1 B))].
Qed.

Definition full (w : stop) : Prop := w = NoMemory \/ w = DirectoryFull.

(** The subtable of the key is split. *)
Lemma wp_resize_split s gd dn tabs blocks M loc k t fuel :
  (0 < fuel)%nat -> base s gd dn tabs blocks -> slots_ok (t_mem s) tabs at_home blocks M loc -> resize_suffix s = -1 -> t ∈ tabs -> owns t k ->
  wp (resize_split g region dir_addr spin fuel (fst (hash_function k) mod 2 ^ gd)) s
    (fun r s' => r = true /\ exists gd' tabs' loc', base s' gd' dn tabs' blocks /\ slots_ok (t_mem s') tabs' at_home blocks M loc' /\ resize_suffix s' = -1 /\
      resize_lock_cnt s' = resize_lock_cnt s /\ resize_lock s' = resize_lock s /\ kept blocks (t_mem s) (t_mem s') /\ forall u, u ∈ tabs' -> owns u k -> td u = td t + 1) full.
Proof.
  intros Hf Hb Hs Hr Ht Hk. destruct fuel as [|fuel]; [lia|]. cbn [resize_split]. destruct (base_inside _ _ _ _ _ _ _ Hb Hs Hr) as (Hi & Ho & Hc). set (f := fun i => ld_le 8 (t_mem s) (entry_addr dir_addr i)) in *.
  pose proof (do_range _ _ _ (ba_dir _ _ _ _ _ Hb)) as Hrg. pose proof (pow_gd_max gd Hrg) as Hpow. pose proof Hg as [_ _ _ Hmx]. pose proof (ba_pool _ _ _ _ _ Hb) as Hp. destruct (to_range _ _ Ho t Ht) as [Hd Hts].
  set (idx := fst (hash_function k) mod 2 ^ gd) in *. pose proof (Z.mod_pos_bound (fst (hash_function k)) (2 ^ gd) ltac:(lia)) as Hidx. fold idx in Hidx.
  assert (idx mod 2 ^ td t = ts t) as Him by (unfold idx; rewrite mod_pow_pow by lia; exact Hk). destruct (table_held_inside _ _ _ _ Hp) as (Hdir & _).
  destruct (tab_entry _ _ _ _ t 0 (td t) Hp Ht) as (_ & D0 & _ & _); [lia|lia|]. destruct (tab_entry _ _ _ _ t 1 (td t) Hp Ht) as (_ & D1 & P1 & _); [lia|lia|].
  wstep. eapply wp_get_entry; [exact Hb|lia|]. rewrite (covers_entry f gd tabs t idx Ho Hc Ht Hidx Him : ld_le 8 (t_mem s) (entry_addr dir_addr idx) = _), D0. wsteps.
  apply wp_shift1; [lia|]. rewrite Him. destruct (dir_cached _ _ _ _ _ Hb) as [-> _]. wstep. apply wp_shift1; [lia|]. wstep.
  assert (2 ^ td t <= 2 ^ gd) as Hle by (apply Z.pow_le_mono_r; lia). assert (0 < 2 ^ td t) by (apply Z.pow_pos_nonneg; lia). wstep; [apply Z.ltb_lt; lia|]. wstep.
  eapply wp_mono; [apply (wp_grow_directory s gd dn tabs blocks M loc f t Hi Hrg Ho Hc Ht)| |intros w ->; by right]. intros gd' s1 (f1 & B1 & V1 & Hc1 & Hgd' & Ho1).
  assert (2 ^ (td t + 1) <= 2 ^ gd') by (apply Z.pow_le_mono_r; lia). assert (2 ^ (td t + 1) = 2 * 2 ^ td t) as H2 by (rewrite Z.pow_add_r by lia; lia). pose proof (pow_gd_max gd' ltac:(lia)) as Hpow'.
  pose proof (tab_pointer _ _ _ _ _ Hp Ht) as Htp. set (ns := ts t + 2 ^ td t). assert (ns mod 2 ^ td t = ts t) as Hns by (unfold ns; apply mod_halves; [lia|lia|right; apply Z.mod_small; lia]).
  wstep. eapply wp_next; [apply (wp_lock_subtable Hdir s1 gd' f1 (ts t) (td t) (tp t)); [exact V1|lia|lia|done|]|].
  { apply (covers_entry f1 gd' tabs t _ Ho1 Hc1 Ht); [lia|]. by apply Z.mod_small. }
  intros u2 s2 [B2 V2]. wstep. eapply wp_next; [apply (wp_lock_subtable Hdir s2 gd' _ ns (td t) (tp t) _ V2); [unfold ns; lia|lia|done|]|].
  { unfold upd. rewrite (proj2 (Z.eqb_neq ns (ts t))) by (unfold ns; lia). apply (covers_entry f1 gd' tabs t _ Ho1 Hc1 Ht); [unfold ns; lia|done]. }
  intros u3 s3 [B3 V3]. set (e := mk_entry 1 (td t) (tp t)) in *. assert (inside s3 gd' dn tabs blocks M loc (upd (upd f1 (ts t) e) ns e)) as Hi3 by (eapply inside_dstep; [exact Hi|by eapply dstep_trans; [|eapply dstep_trans]|exact V3]).
  wstep. eapply view_get_entry; [exact V3|lia|]. wstep. eapply view_get_entry; [exact V3|unfold ns; lia|]. 
  assert (upd (upd f1 (ts t) e) ns e (ts t) = e) as -> by (unfold upd; rewrite (proj2 (Z.eqb_neq (ts t) ns)), Z.eqb_refl by (unfold ns; lia); done).
  assert (upd (upd f1 (ts t) e) ns e ns = e) as -> by (unfold upd; by rewrite Z.eqb_refl).
  rewrite D1, P1, !Z.eqb_refl. cbn [negb orb]. apply list_elem_of_split in Ht as (T1 & T2 & ->).
  eapply wp_mono; [apply (wp_split s3 gd' dn T1 T2 t blocks M loc f1 Hi3 Hc1 Ho1); lia| |intros w ->; by left]. intros r s4 (-> & a & an & loc' & Hb4 & Hs4 & R4 & C4 & L4 & K4). split; [done|]. eexists gd', _, loc'. split; [exact Hb4|]. split; [done|]. split; [done|].
  assert (dstep s s3) as B by (by eapply dstep_trans; [|eapply dstep_trans]). destruct (dt_resize _ _ B) as (_ & C & L). rewrite C4, L4, C, L. split; [done|]. split; [done|]. split; [eapply kept_trans; [exact (proj1 (dstep_agree _ _ _ _ _ _ Hp B))|exact K4]|].
  intros u Hu Hou. apply (owns_halves t a an ltac:(lia)) in Hk. assert (forall w, w ∈ [Tab (tp t) (td t + 1) (ts t) (tn t); Tab a (td t + 1) (ts t + 2 ^ td t) an] -> owns w k -> td u = td w) as Hw.
  { intros w Hw How. f_equal. apply (do_unique _ _ _ (ba_dir _ _ _ _ _ Hb4) u w (fst (hash_function k)) Hu); [|exact Hou|exact How]. apply split_cases. rewrite !elem_of_cons, elem_of_nil in Hw. tauto. }
  destruct Hk as [Hk|Hk]; [apply (Hw _ ltac:(by left) Hk)|apply (Hw _ ltac:(right; by left) Hk)].
Qed.

Lemma wp_load_directory s gd Q F : 0 < dir_addr /\ dir_addr + sizeof_Directory g <= region -> ld_le 8 (t_mem s) dir_addr = gd -> 0 <= gd <= kMaxGlobalDepth g ->
  Q tt (set_dir s (directory_at g (t_mem s) dir_addr)) -> wp (read_directory g region dir_addr spin) s Q F.
Proof.
  intros [Hd1 Hd2] Hgd Hr HQ. unfold read_directory. destruct spin_S as [n ->]. cbn [read_directory_loop]. wstep. apply wp_read_with; [lia|done|]. wsteps.
  cbn [global_depth directory_at]. rewrite Hgd. pose proof Hg as [_ _ _ Hmx].
  assert (Z.land gd kGlobalDepthLockedBit = 0) as ->.
  { assert (gd = 0 \/ gd = 1 \/ gd = 2 \/ gd = 3 \/ gd = 4 \/ gd = 5 \/ gd = 6 \/ gd = 7 \/ gd = 8 \/ gd = 9 \/ gd = 10 \/ gd = 11 \/ gd = 12) as H by lia. repeat (destruct H as [->|H]; [reflexivity|]). by rewrite H. }
  cbn [Z.eqb negb]. by wstep.
Qed.

Lemma wp_read_directory s gd dn tabs blocks Q F : base s gd dn tabs blocks -> Q tt s -> wp (read_directory g region dir_addr spin) s Q F.
Proof.
  intros Hb HQ. pose proof (ba_dir _ _ _ _ _ Hb) as [D1 D2 _ _ _]. apply (wp_load_directory s gd); [apply (table_held_inside _ _ _ _ (ba_pool _ _ _ _ _ Hb))|done|done|]. rewrite <- (ba_client _ _ _ _ _ Hb). by destruct s.
Qed.

Lemma wp_resize s gd dn tabs blocks M loc k t :
  inv s gd dn tabs blocks M loc -> t ∈ tabs -> owns t k ->
  wp (resize g region dir_addr 0 spin spin (fst (hash_function k) mod 2 ^ gd)) s
    (fun _ s' => exists gd' tabs' loc', inv s' gd' dn tabs' blocks M loc' /\ kept blocks (t_mem s) (t_mem s') /\ forall u, u ∈ tabs' -> owns u k -> td u = td t + 1) full.
Proof.
  intros [Hb Hs (R1 & R2 & R3)] Ht Hk. destruct spin_S as [n En]. rewrite En at 2. cbn [resize]. wstep. eapply wp_read_directory; [exact Hb|]. wsteps.
  assert (negb (resize_lock s =? -1) && negb (resize_lock s =? 0) = false) as -> by (by destruct R3 as [-> | ->]). wsteps. rewrite R1, R2.
  set (s1 := set_resize s 0 (0 + 1) (-1)). assert (base s1 gd dn tabs blocks) as Hb1 by (destruct Hb as [? ? ? ? ? ? []]; by split).
  eapply wp_next; [apply (wp_resize_split s1 gd dn tabs blocks M loc k t); [lia|done..]|]. intros r s2 (-> & gd' & tabs' & loc' & Hb2 & Hs2 & E2 & C2 & L2 & K2 & Hdep).
  wsteps. fields. rewrite E2, C2. unfold s1. fields. change (0 + 1 - 1) with 0. cbn [Z.eqb]. change (0 <=? -1) with false. cbn [andb]. wstep.
  exists gd', tabs', loc'. split; [|done]. split; [destruct Hb2 as [? ? ? ? ? ? []]; by split|done|]. fields. auto.
Qed.

(** ** Insert *)

Lemma wp_find_empty s ds l F : loaded s ds -> (forall i d j, (i, (d, j)) ∈ l -> d ∈ ds /\ 0 <= j < kAssociatedWays) ->
  wp (find_empty l) s (fun r s' => s' = s /\ match r with Some (i, (d, j)) => (i, (d, j)) ∈ l /\ ld_le 8 (t_mem s) (get_slot_addr d j) = 0 | None => True end) F.
Proof.
  intros Hl. induction l as [|[i [d j]] l IH]; intros Hin; cbn [find_empty]; [by wstep|]. destruct (Hin i d j ltac:(by left)) as [Hd Hj]. wstep. eapply wp_slot_raw; [exact Hl|done|done|].
  destruct (Z.eqb_spec (ld_le 8 (t_mem s) (get_slot_addr d j)) 0) as [E|E].
  - wstep. split; [done|]. split; [by left|done].
  - eapply wp_next; [apply IH; intros i' d' j' H'; apply (Hin i'); by right|]. intros r s' [-> Hr]. split; [done|]. destruct r as [[i' [d' j']]|]; [|done]. destruct Hr. split; [by right|done].
Qed.

Lemma elem_of_numbered ds i d j : length ds = 4%nat -> (i, (d, j)) ∈ numbered ds -> ds.[i] = Some d /\ 0 <= j < kAssociatedWays.
Proof.
  intros Hl. unfold numbered. rewrite list_elem_of_bind. intros ([i' d'] & Hj & Hz). apply list_elem_of_fmap in Hj as (j' & [= -> -> ->] & Hj%elem_of_seqZ). cbn [fst snd]. split; [|lia].
  destruct ds as [|d0 [|d1 [|d2 [|d3 [|]]]]]; try done. change (seqZ 0 4) with [0; 1; 2; 3] in Hz. cbn [zip zip_with] in Hz. rewrite !elem_of_cons, elem_of_nil in Hz. destruct Hz as [[= -> ->]|[[= -> ->]|[[= -> ->]|[[= -> ->]|[]]]]]; done.
Qed.

(** A place for the new slot is found, after splits of the subtable if there is none. *)
Lemma wp_take_slot fuel : forall s gd dn tabs blocks M loc key t x v,
  inv s gd dn tabs blocks M loc -> t ∈ tabs -> owns t key -> points blocks (t_mem s) x key v -> kMaxGlobalDepth g - td t < Z.of_nat fuel ->
  wp (take_slot_loop g region dir_addr 0 spin fuel (hash_function key) x) s (fun r s' => exists s1 gd' tabs' loc' t',
    inv s1 gd' dn tabs' blocks M loc' /\ t' ∈ tabs' /\ owns t' key /\ points blocks (t_mem s1) x key v /\
    (bucket_descs g (tp t') (hash_function key)).[fst r] = Some (fst (snd r)) /\ 0 <= snd (snd r) < kAssociatedWays /\
    ld_le 8 (t_mem s1) (get_slot_addr (fst (snd r)) (snd (snd r))) = 0 /\ s' = set_mem s1 (store_bytes (t_mem s1) (get_slot_addr (fst (snd r)) (snd (snd r))) (le_bytes 8 x))) full.
Proof.
  induction fuel as [|fuel IH]; intros s gd dn tabs blocks M loc key t x v Hinv Ht Ho Hpt Hf.
  { destruct (do_tab _ _ _ (ba_dir _ _ _ _ _ (iv_base _ _ _ _ _ _ _ Hinv)) t Ht) as [Hd _]. pose proof (do_range _ _ _ (ba_dir _ _ _ _ _ (iv_base _ _ _ _ _ _ _ Hinv))). lia. }
  pose proof (iv_base _ _ _ _ _ _ _ Hinv) as Hb. cbn [take_slot_loop]. wstep. eapply wp_subtable_idx; [exact Hb|]. wstep.
  eapply wp_next; [by eapply (wp_read_bucket s)|]. intros ds s2 (-> & Hq2 & Hl2). assert (inv s2 gd dn tabs blocks M loc) as Hi2 by (by eapply inv_quiet). set (ds := bucket_descs g (tp t) (hash_function key)) in *.
  assert (forall i d j, (i, (d, j)) ∈ numbered ds -> ds.[i] = Some d /\ d ∈ ds /\ 0 <= j < kAssociatedWays) as Hnum.
  { intros i d j Hin. apply elem_of_numbered in Hin as [Hd Hj]; [|done]. split; [done|]. split; [|done]. rewrite aget_lookup in Hd by (apply aget_Some_lt in Hd; lia). by eapply list_elem_of_lookup_2. }
  wstep. eapply wp_next; [apply (wp_find_empty s2 ds _ _ Hl2); intros i d j Hin; apply Hnum in Hin as (_ & ? & ?); done|]. intros r s3 [-> Hr]. rewrite <- (qu_mem _ _ Hq2) in Hpt. destruct r as [[i [d j]]|].
  - destruct Hr as [Hin Hz]. destruct (Hnum _ _ _ Hin) as (Hdi & Hd & Hj). destruct (desc_slot tabs t d j Ht (descs_in_tab _ _ _ Hd) Hj) as (b & Hslot).
    wstep. eapply (wp_swap_slot s2); [apply Hi2|exact Hslot|exact Hz|]. cbn [fst]. rewrite Z.eqb_refl. wstep. cbn [fst snd]. exists s2, gd, tabs, loc, t. done.
  - wstep. eapply wp_next; [by eapply (wp_resize s2)|]. intros u s3 (gd' & tabs' & loc' & Hi3 & Hk & Hdep).
    destruct (tab_of_key _ _ _ _ _ key (iv_base _ _ _ _ _ _ _ Hi3)) as (t' & Ht' & Ho' & _). pose proof (Hdep t' Ht' Ho').
    apply (IH s3 gd' dn tabs' blocks M loc' key t' x v); try done; [by eapply points_kept|lia].
Qed.

Lemma descs_buf k p d d' : d ∈ bucket_descs g p (hash_function k) -> d' ∈ bucket_descs g p (hash_function k) -> buf d = buf d' -> d = d'.
Proof.
  unfold bucket_descs, first_desc, second_desc. rewrite !elem_of_cons, !elem_of_nil.
  destruct (fst (hash_function k) mod kMainBuckets g mod 2 =? 0), (snd (hash_function k) mod kMainBuckets g mod 2 =? 0);
  intros [->|[->|[->|[->|[]]]]] [->|[->|[->|[->|[]]]]]; cbn [buf]; intros E; first [reflexivity|lia].
Qed.

(** The slots that [match_slots] keeps if those at the addresses [S] hold the key. *)
Definition place (p : BucketDesc * Z) : Z := get_slot_addr (fst p) (snd p).
Fixpoint scan (S : list Z) (l acc : list (BucketDesc * Z)) (min : Z) (min_slot : option (BucketDesc * Z)) : list (BucketDesc * Z) * option (BucketDesc * Z) :=
  match l with
  | [] => (acc, min_slot)
  | p :: l =>
    if bool_decide (place p ∉ S) then scan S l acc min min_slot else
    if min =? place p then scan S l acc min min_slot else
    scan S l (acc ++ [p]) (if place p <? min then place p else min) (if place p <? min then Some p else min_slot)
  end.

(** What the slot at [p] says about the key. *)
Definition slot_says (m : mem) (blocks : list (Z * Z)) (key : list Z) (slot_addr : Z) (S : list Z) (p : BucketDesc * Z) : Prop :=
  let y := ld_le 8 m (place p) in
  (place p ∈ S -> y <> 0 /\ s_fp y = get_fingerprint (fst (hash_function key)) /\ (place p = slot_addr \/ exists v, points blocks m y key v)) /\
  (place p ∉ S -> y = 0 \/ place p <> slot_addr /\ exists k v, K k /\ k <> key /\ points blocks m y k v).

Lemma wp_match_slots s gd dn tabs blocks ds key slot_addr S F l :
  K key -> (forall p, p ∈ l -> p ∈ slot_list ds) -> (forall p, p ∈ l -> slot_says (t_mem s) blocks key slot_addr S p) ->
  forall s1 acc min ms, quiet s s1 -> base s1 gd dn tabs blocks -> loaded s1 ds ->
  wp (match_slots region key (get_fingerprint (fst (hash_function key))) slot_addr l acc min ms) s1 (fun r s' => quiet s1 s' /\ t_bufs s' = t_bufs s1 /\ r = scan S l acc min ms) F.
Proof.
  intros HK. induction l as [|[d j] l IH]; intros Hin Hsay s1 acc min ms Hq Hb Hl; cbn [match_slots]; [wstep; split; [by apply client_quiet_refl, Hb|done]|].
  assert ((d, j) ∈ slot_list ds) as Hp by (apply Hin; by left). apply elem_of_slot_list in Hp as [Hd Hj].
  specialize (IH (fun p H => Hin p ltac:(by right)) (fun p H => Hsay p ltac:(by right))). destruct (Hsay (d, j) ltac:(by left)) as [Hyes Hno]. unfold place in Hyes, Hno. cbn [fst snd] in Hyes, Hno.
  wstep. eapply wp_slot_raw; [exact Hl|done|done|]. rewrite (qu_mem _ _ Hq). set (y := ld_le 8 (t_mem s) (get_slot_addr d j)) in *. cbn [scan]. change (place (d, j)) with (get_slot_addr d j).
  assert (forall s2 acc min ms, quiet s1 s2 -> t_bufs s2 = t_bufs s1 -> forall r, r = scan S l acc min ms ->
    wp (match_slots region key (get_fingerprint (fst (hash_function key))) slot_addr l acc min ms) s2 (fun r' s' => quiet s1 s' /\ t_bufs s' = t_bufs s1 /\ r' = r) F) as Hgo.
  { intros s2 acc' min' ms' Hq2 Hb2 r ->. eapply wp_next; [apply (IH s2); [by eapply client_quiet_trans|by eapply base_quiet|by eapply quiet_loaded]|]. intros r s3 (Hq3 & Hb3 & ->). split; [by eapply client_quiet_trans|]. split; [congruence|done]. }
  assert (quiet s1 s1) as Hq1 by (by apply client_quiet_refl, Hb). destruct (decide (get_slot_addr d j ∈ S)) as [Hs|Hs].
  - destruct (Hyes Hs) as (Hnz & Hfp & Hkey). rewrite (proj2 (Z.eqb_neq y 0)), Hfp, Z.eqb_refl by done. cbn [negb andb]. rewrite bool_decide_false by tauto.
    assert (forall Q, (forall s2, quiet s1 s2 -> t_bufs s2 = t_bufs s1 -> Q true s2) -> wp (if slot_addr =? get_slot_addr d j then mret true else v ← read_block region key y true; mret (bool_decide (is_Some v))) s1 Q F) as Hfound.
    { intros Q HQ. destruct (Z.eqb_spec slot_addr (get_slot_addr d j)) as [E|E]; [wstep; by apply HQ|]. destruct Hkey as [Eq|(v & Hpt)]; [by destruct E|].
      wstep. eapply wp_next; [eapply (wp_read_block s1); [apply Hb|apply Hb|apply Hb|by rewrite (qu_mem _ _ Hq)|done|done]|]. intros r s2 (Hq2 & Hb2 & ->). wstep. rewrite decide_True by done. by apply HQ. }
    wstep. apply Hfound. intros s2 Hq2 Hb2. cbn [negb]. destruct (min =? _); by apply Hgo.
  - rewrite bool_decide_true by done. destruct (Z.eqb_spec y 0) as [E0|E0]; cbn [negb andb]; [by apply Hgo|]. destruct (s_fp y =? _); cbn [negb]; [|by apply Hgo].
    destruct (Hno Hs) as [?|(Hne & k & v & HKk & Hkk & Hpt)]; [done|]. rewrite (proj2 (Z.eqb_neq slot_addr _)) by (intros E; by apply Hne). wstep. wstep.
    eapply wp_next; [eapply (wp_read_block s1); [apply Hb|apply Hb|apply Hb|by rewrite (qu_mem _ _ Hq)|done|done]|]. intros r s2 (Hq2 & Hb2 & ->). wstep. rewrite decide_False by done. cbn [bool_decide]. by apply Hgo.
Qed.

Lemma in_one (x a : Z) : x ∈ [a] <-> x = a.
Proof. rewrite elem_of_cons, elem_of_nil. tauto. Qed.
Lemma in_two (x a b : Z) : x ∈ [a; b] <-> x = a \/ x = b.
Proof. rewrite !elem_of_cons, elem_of_nil. tauto. Qed.

(** One slot holds the key. *)
Lemma scan_same a l acc ms : scan [a] l acc a ms = (acc, ms).
Proof.
  induction l as [|p l IH]; cbn [scan]; [done|]. case_bool_decide as E; [apply IH|]. destruct (decide (place p = a)) as [->|Hn]; [by rewrite Z.eqb_refl|]. by rewrite in_one in E.
Qed.

Lemma scan_one a l min : a < min -> (length (fst (scan [a] l [] min None)) <= 1)%nat.
Proof.
  intros Ha. induction l as [|p l IH]; cbn [scan]; [cbn; lia|]. case_bool_decide as E; [done|]. destruct (decide (place p = a)) as [->|Hn]; [|by rewrite in_one in E].
  rewrite (proj2 (Z.eqb_neq min a)), (proj2 (Z.ltb_lt a min)) by lia. rewrite scan_same. cbn. lia.
Qed.

(** Two slots hold the key: the one with the lower address is kept once. *)
Section Scan.
Context (lo hi : Z) (Hlo : lo < hi).

Lemma scan_low l acc q : exists hs, scan [lo; hi] l acc lo (Some q) = (acc ++ hs, Some q) /\ forall p, p ∈ hs <-> p ∈ l /\ place p = hi.
Proof.
  revert acc. induction l as [|p l IH]; intros acc; cbn [scan].
  - exists []. rewrite app_nil_r. split; [done|]. intros p. rewrite !elem_of_nil. tauto.
  - case_bool_decide as E.
    + destruct (IH acc) as (hs & -> & Hhs). exists hs. split; [done|]. intros q'. rewrite Hhs, elem_of_cons. split; [tauto|]. intros [[->|?] ?]; [|done]. destruct E. apply in_two. tauto.
    + destruct (Z.eqb_spec lo (place p)) as [El|El].
      * destruct (IH acc) as (hs & -> & Hhs). exists hs. split; [done|]. intros q'. rewrite Hhs, elem_of_cons. split; [tauto|]. intros [[->|?] ?]; [lia|done].
      * assert (place p = hi) as Ep by (destruct (decide (place p = hi)); [done|]; apply in_two in E; lia). rewrite (proj2 (Z.ltb_ge (place p) lo)) by lia.
        destruct (IH (acc ++ [p])) as (hs & -> & Hhs). exists (p :: hs). rewrite <- app_assoc. split; [done|]. intros q'. rewrite !elem_of_cons, Hhs. split; [intros [->|?]; tauto|tauto].
Qed.

Lemma scan_high l acc ms : (exists p, p ∈ l /\ place p = lo) ->
  exists q hs, scan [lo; hi] l acc hi ms = (acc ++ q :: hs, Some q) /\ q ∈ l /\ place q = lo /\ forall p, p ∈ hs -> p ∈ l /\ place p = hi.
Proof.
  intros (p0 & Hp0 & E0). induction l as [|p l IH]; [by apply elem_of_nil in Hp0|]. cbn [scan].
  assert (p = p0 \/ p0 ∈ l) as Hcase by (apply elem_of_cons in Hp0 as [->|?]; auto). case_bool_decide as E.
  { destruct Hcase as [->|Hin]; [destruct E; apply in_two; tauto|]. destruct (IH Hin) as (q & hs & -> & Hq & Eq & Hhs). exists q, hs. split; [done|]. split; [by right|]. split; [done|]. intros p' Hp'. destruct (Hhs p' Hp'). split; [by right|done]. }
  destruct (Z.eqb_spec hi (place p)) as [Eh|Eh].
  { destruct Hcase as [->|Hin]; [lia|]. destruct (IH Hin) as (q & hs & -> & Hq & Eq & Hhs). exists q, hs. split; [done|]. split; [by right|]. split; [done|]. intros p' Hp'. destruct (Hhs p' Hp'). split; [by right|done]. }
  assert (place p = lo) as Ep by (destruct (decide (place p = lo)); [done|]; apply in_two in E; lia). rewrite Ep, (proj2 (Z.ltb_lt lo hi)) by lia. destruct (scan_low l (acc ++ [p]) p) as (hs & -> & Hhs).
  exists p, hs. rewrite <- app_assoc. split; [done|]. split; [by left|]. split; [done|]. intros p' Hp'. apply Hhs in Hp' as []. split; [by right|done].
Qed.

Lemma scan_two l min : hi < min -> (exists p, p ∈ l /\ place p = lo) -> (exists p, p ∈ l /\ place p = hi) ->
  exists q acc, scan [lo; hi] l [] min None = (acc, Some q) /\ (2 <= length acc)%nat /\ q ∈ l /\ place q = lo /\ (forall p, p ∈ acc -> p = q \/ p ∈ l /\ place p = hi) /\ exists p, p ∈ acc /\ place p = hi.
Proof.
  intros Hmin (pl & Hpl & El) (ph & Hph & Eh). induction l as [|p l IH]; [by apply elem_of_nil in Hpl|]. cbn [scan].
  assert (p = pl \/ pl ∈ l) as Hcl by (apply elem_of_cons in Hpl as [->|?]; auto). assert (p = ph \/ ph ∈ l) as Hch by (apply elem_of_cons in Hph as [->|?]; auto). case_bool_decide as E.
  { destruct Hcl as [->|Hcl]; [destruct E; apply in_two; tauto|]. destruct Hch as [->|Hch]; [destruct E; apply in_two; tauto|]. destruct (IH Hcl Hch) as (q & acc & -> & Hlen & Hq & Eq & Hacc & Hex). exists q, acc. split; [done|]. split; [done|]. split; [by right|]. split; [done|]. split; [|done].
    intros p' Hp'. destruct (Hacc p' Hp') as [?|[? ?]]; [by left|]. right. split; [by right|done]. }
  assert (place p = lo \/ place p = hi) as [Ep|Ep] by (destruct (decide (place p = lo)), (decide (place p = hi)); try tauto; apply in_two in E; tauto).
  - assert (ph ∈ l) as Hin by (destruct Hch as [->|?]; [lia|done]). rewrite Ep, (proj2 (Z.eqb_neq min lo)), (proj2 (Z.ltb_lt lo min)) by lia. destruct (scan_low l ([] ++ [p]) p) as (hs & -> & Hhs).
    assert (ph ∈ hs) as Hh by (by apply Hhs). exists p, ([p] ++ hs). split; [done|]. split; [destruct hs; [by apply elem_of_nil in Hh|cbn; lia]|]. split; [by left|]. split; [done|]. split; [|exists ph; split; [by right|done]].
    intros p' Hp'. cbn in Hp'. apply elem_of_cons in Hp' as [->|Hp']; [by left|]. apply Hhs in Hp' as []. right. split; [by right|done].
  - assert (pl ∈ l) as Hin by (destruct Hcl as [->|?]; [lia|done]). rewrite Ep, (proj2 (Z.eqb_neq min hi)), (proj2 (Z.ltb_lt hi min)) by lia.
    destruct (scan_high l ([] ++ [p]) (Some p)) as (q & hs & -> & Hq & Eq & Hhs); [by exists pl|]. exists q, ([p] ++ q :: hs). split; [done|]. split; [cbn; lia|]. split; [by right|]. split; [done|]. split; [|exists p; split; [by left|done]].
    intros p' Hp'. cbn in Hp'. rewrite !elem_of_cons in Hp'. destruct Hp' as [->|[->|Hp']]; [right; split; [by left|done]|by left|]. destruct (Hhs p' Hp'). right. split; [by right|done].
Qed.

End Scan.

#[local] Instance desc_eq_dec : EqDecision BucketDesc.
Proof. solve_decision. Defined.

Lemma same_place_eq k t p q : p ∈ slot_list (bucket_descs g (tp t) (hash_function k)) -> q ∈ slot_list (bucket_descs g (tp t) (hash_function k)) -> same_place p q = bool_decide (p = q).
Proof.
  destruct p as [d j], q as [d' j']. intros [Hd _]%elem_of_slot_list [Hd' _]%elem_of_slot_list. unfold same_place. cbn [fst snd]. apply eq_true_iff_eq. rewrite andb_true_iff, !Z.eqb_eq, bool_decide_eq_true. split.
  - intros [Eb ->]. by rewrite (descs_buf _ _ _ _ Hd Hd' Eb).
  - by intros [= -> ->].
Qed.

(** A slot of the buffers, which hold the memory [m]. *)
Lemma wp_raw_from s m d j Q F : (t_bufs s).[buf d] = Some (bucket_at m (addr d)) -> 0 <= j < kAssociatedWays -> Q (ld_le 8 m (get_slot_addr d j)) s -> wp (slot_raw d j) s Q F.
Proof.
  intros Hl Hj HQ. unfold slot_raw, get_buf. wsteps. eapply wp_defined; [exact Hl|]. eapply wp_defined; [|exact HQ].
  cbn [slots bucket_at]. rewrite aget_lookup, list_lookup_fmap, lookup_seqZ_lt by lia. cbn [fmap option_fmap option_map]. unfold get_slot_addr. by replace (addr d + 8 + 8 * (0 + Z.of_nat (Z.to_nat j))) with (addr d + 8 + j * 8) by lia.
Qed.

Section Clear.
Context (s : table A) (a0 : A) (dn : Z) (tabs : list tab) (blocks : list (Z * Z)) (key : list Z) (t : tab) (q : BucketDesc * Z) (hi : Z).
Let ds := bucket_descs g (tp t) (hash_function key).
Context (Hp : pool_held a0 dn tabs blocks) (Ht : t ∈ tabs) (Hl : loaded s ds) (Hq : q ∈ slot_list ds) (Hne : place q <> hi).
Let s' := set_mem s (store_bytes (t_mem s) hi (le_bytes 8 0)).

Lemma wp_clear_again F slot l : ld_le 8 (t_mem s) hi <> 0 -> (forall p, p ∈ l -> p = q \/ p ∈ slot_list ds /\ place p = hi) ->
  wp (clear_others region l (Some q) slot) s' (fun _ s2 => s2 = s') F.
Proof.
  intros Hnz. revert slot. induction l as [|p l IH]; intros slot Hin; cbn [clear_others]; [by wstep|]. specialize (IH p (fun p' H => Hin p' ltac:(by right))).
  assert (p ∈ slot_list ds) as Hpd by (destruct (Hin p ltac:(by left)) as [->|[? _]]; done). rewrite (same_place_eq key t p q Hpd Hq). case_bool_decide as E; [done|]. destruct (Hin p ltac:(by left)) as [?|[_ Eh]]; [done|].
  destruct p as [d j]. apply elem_of_slot_list in Hpd as [Hd Hj]. cbn [fst snd]. wstep. eapply (wp_raw_from _ (t_mem s)); [by apply Hl|done|]. change (place (d, j)) with (get_slot_addr d j) in Eh. rewrite Eh.
  destruct (desc_slot tabs t d j Ht (descs_in_tab _ _ _ Hd) Hj) as (b & Hslot). rewrite Eh in Hslot. destruct (slot_region _ _ _ _ _ _ _ _ Hp Hslot). wstep. unfold atomic_update_slot. wstep. apply wp_compare_and_swap; [done..|].
  unfold s'. fields. rewrite ld_store_same by lia. rewrite (proj2 (Z.eqb_neq 0 (ld_le 8 (t_mem s) hi))) by lia. wstep. rewrite (proj2 (Z.eqb_neq (ld_le 8 (t_mem s) hi) 0)) by lia. cbn [fst]. change (EAGAIN =? 0) with false. cbn iota. by wstep.
Qed.

Lemma wp_clear_others F slot l : ld_le 8 (t_mem s) hi <> 0 -> (exists p, p ∈ l /\ place p = hi) -> (forall p, p ∈ l -> p = q \/ p ∈ slot_list ds /\ place p = hi) ->
  wp (clear_others region l (Some q) slot) s (fun _ s2 => s2 = s') F.
Proof.
  intros Hnz. revert slot. induction l as [|p l IH]; intros slot (p0 & Hp0 & E0) Hin; cbn [clear_others]; [by apply elem_of_nil in Hp0|].
  assert (p ∈ slot_list ds) as Hpd by (destruct (Hin p ltac:(by left)) as [->|[? _]]; done). rewrite (same_place_eq key t p q Hpd Hq). case_bool_decide as E.
  - apply (IH p); [|intros p' H'; apply Hin; by right]. apply elem_of_cons in Hp0 as [->|Hp0]; [by subst|by exists p0].
  - destruct (Hin p ltac:(by left)) as [?|[_ Eh]]; [done|]. pose proof Hpd as Hpd'. destruct p as [d j]. apply elem_of_slot_list in Hpd as [Hd Hj]. cbn [fst snd]. change (place (d, j)) with (get_slot_addr d j) in Eh.
    wstep. eapply (wp_slot_raw s ds); [done|done|done|]. destruct (desc_slot tabs t d j Ht (descs_in_tab _ _ _ Hd) Hj) as (b & Hslot). wstep. eapply (wp_swap_slot s); [exact Hp|exact Hslot|done|]. rewrite Eh. cbn [fst]. rewrite Z.eqb_refl.
    apply wp_clear_again; [done|]. intros p' H'. apply Hin. by right.
Qed.

End Clear.

(** One round of the second loop. *)
Lemma wp_settle_step fuel s gd dn tabs blocks key t x sb slot_addr slot S0 d Q F :
  let ds := bucket_descs g (tp t) (hash_function key) in
  base s gd dn tabs blocks -> t ∈ tabs -> owns t key -> K key -> s_fp x = get_fingerprint (fst (hash_function key)) -> ds.[sb] = Some d ->
  (forall p, p ∈ slot_list ds -> slot_says (t_mem s) blocks key slot_addr S0 p) ->
  (forall s', quiet s s' -> loaded s' ds -> let m := scan S0 (slot_list ds) [] (2 ^ 64 - 1) None in
    wp (if Z.of_nat (length (fst m)) <=? 1 then mret 0 else
        r ← clear_others region (fst m) (snd m) slot;
        if (fst r) : bool then mret 0 else settle_loop g region dir_addr 0 spin fuel key (hash_function key) x sb slot_addr (snd r)) s' Q F) ->
  wp (settle_loop g region dir_addr 0 spin (S fuel) key (hash_function key) x sb slot_addr slot) s Q F.
Proof.
  intros ds Hb Ht Ho HK Hfp Hd Hsay HQ. cbn [settle_loop]. wstep. eapply wp_next; [by eapply (wp_read_bucket s)|]. intros ds' s2 (-> & Hq2 & Hl2). fold ds in Hl2 |- *. assert (base s2 gd dn tabs blocks) as Hb2 by (by eapply base_quiet).
  destruct (tab_of_key _ _ _ _ _ key Hb2) as (t' & Ht' & Ho' & Ee). assert (t' = t) as -> by (by eapply (do_unique _ _ _ (ba_dir _ _ _ _ _ Hb2))).
  pose proof (do_range _ _ _ (ba_dir _ _ _ _ _ Hb2)) as Hrg. pose proof (pow_gd_max gd Hrg) as Hpow. pose proof (Z.mod_pos_bound (fst (hash_function key)) (2 ^ gd) ltac:(lia)).
  wstep. eapply wp_subtable_idx; [exact Hb2|]. wstep. eapply wp_get_entry; [exact Hb2|lia|]. rewrite Ee. destruct (do_tab _ _ _ (ba_dir _ _ _ _ _ Hb2) t Ht) as [Hdt _]. pose proof Hg as [_ _ _ Hmx].
  destruct (tab_entry _ _ _ _ t 0 (td t) (ba_pool _ _ _ _ _ Hb2) Ht) as (_ & -> & _); [lia|lia|]. wstep. eapply wp_defined; [exact Hd|].
  assert (d ∈ ds) as Hdin by (rewrite aget_lookup in Hd by (apply aget_Some_lt in Hd; lia); by eapply list_elem_of_lookup_2). destruct (descs_in_tab _ _ _ Hdin) as (b & Hbr & Ead).
  wstep. eapply wp_next; [eapply (wp_bucket_moved s2); [exact Hb2|exact Ht|exact Hl2|exact Hdin|by exists b]|]. intros r s4 [-> ->].
  rewrite Hfp. wstep. eapply wp_next; [apply (wp_match_slots s gd dn tabs blocks ds key slot_addr S0); done|]. intros m s3 (Hq3 & Hb3 & ->). apply HQ; [by eapply client_quiet_trans|by eapply quiet_loaded].
Qed.

Lemma place_small a0 dn tabs blocks key t p : pool_held a0 dn tabs blocks -> t ∈ tabs -> p ∈ slot_list (bucket_descs g (tp t) (hash_function key)) ->
  place p < 2 ^ 64 - 1 /\ exists b, is_slot tabs (place p) t b (snd p).
Proof.
  intros Hp Ht Hin. destruct p as [d j]. apply elem_of_slot_list in Hin as [Hd Hj]. destruct (desc_slot tabs t d j Ht (descs_in_tab _ _ _ Hd) Hj) as (b & Hslot). destruct (slot_region _ _ _ _ _ _ _ _ Hp Hslot).
  destruct (table_held_inside _ _ _ _ Hp) as (_ & _ & _ & Hreg). unfold place. cbn [fst snd]. split; [lia|by exists b].
Qed.

Lemma cand_place key t b j : cand key b -> 0 <= j < kAssociatedWays -> exists p, p ∈ slot_list (bucket_descs g (tp t) (hash_function key)) /\ place p = table_slot_addr (tp t) b j.
Proof. intros Hc Hj. destruct (cand_in_descs key (tp t) b Hc) as (d & Hd & Ead). exists (d, j). split; [by apply elem_of_slot_list|]. unfold place, get_slot_addr, table_slot_addr. cbn [fst snd]. rewrite Ead. lia. Qed.

(** The key has one slot. *)
Lemma wp_settle_one fuel s gd dn tabs blocks M loc key t x sb slot_addr slot d a F :
  inv s gd dn tabs blocks M loc -> t ∈ tabs -> owns t key -> K key -> s_fp x = get_fingerprint (fst (hash_function key)) -> (bucket_descs g (tp t) (hash_function key)).[sb] = Some d ->
  loc !! key = Some a -> slot_addr = a \/ ld_le 8 (t_mem s) slot_addr = 0 ->
  wp (settle_loop g region dir_addr 0 spin (S fuel) key (hash_function key) x sb slot_addr slot) s (fun rc s' => rc = 0 /\ inv s' gd dn tabs blocks M loc) F.
Proof.
  intros Hinv Ht Ho HK Hfp Hd Hl Hsa. pose proof (iv_base _ _ _ _ _ _ _ Hinv) as Hb. pose proof (iv_slots _ _ _ _ _ _ _ Hinv) as Hs. pose proof (ba_pool _ _ _ _ _ Hb) as Hp.
  destruct (so_loc _ _ _ _ _ _ Hs _ _ Hl) as (_ & t0 & b0 & j0 & v0 & (Ht0 & Hb0 & Hj0 & Ea) & _ & _ & _ & Hpt).
  eapply (wp_settle_step fuel s gd dn tabs blocks key t x sb slot_addr slot [a] d); try done.
  - intros p Hp'. destruct (place_small _ _ _ _ _ _ _ Hp Ht Hp') as (_ & b & Hslot). split.
    + intros ->%in_one. split; [by eapply points_nonzero|]. split; [apply Hpt|]. right. by exists v0.
    + intros Hne. rewrite in_one in Hne. destruct (Z.eq_dec (ld_le 8 (t_mem s) (place p)) 0) as [|Hnz]; [by left|]. right. split; [intros E; rewrite E in *; destruct Hsa; congruence|].
      destruct (so_all _ _ _ _ _ _ Hs _ _ _ _ Hslot Hnz) as (k & Hk). destruct (so_loc _ _ _ _ _ _ Hs _ _ Hk) as (HKk & ? & ? & ? & v & _ & _ & _ & _ & Hptk). exists k, v. split; [done|]. split; [congruence|done].
  - intros s' Hq _ m. assert (a < 2 ^ 64 - 1) as Ha.
    { destruct (slot_region _ _ _ _ _ _ _ _ Hp (conj Ht0 (conj Hb0 (conj Hj0 Ea)))). destruct (table_held_inside _ _ _ _ Hp) as (_ & _ & _ & Hreg). lia. }
    pose proof (scan_one a (slot_list (bucket_descs g (tp t) (hash_function key))) _ Ha) as Hlen. fold m in Hlen. rewrite (proj2 (Z.leb_le _ _)) by lia. wstep. split; [done|]. by eapply inv_quiet.
Qed.

(** The key had a slot already. *)
Section Twice.
Context (s1 : table A) (gd dn : Z) (tabs : list tab) (blocks : list (Z * Z)) (M : gmap (list Z) (list Z)) (loc : gmap (list Z) Z) (Hinv : inv s1 gd dn tabs blocks M loc).
Context (key : list Z) (t : tab) (Ht : t ∈ tabs) (Ho : owns t key) (HK : K key).
Context (x : Z) (v : list Z) (Hpt : points blocks (t_mem s1) x key v) (Hx : 0 <= x < 2 ^ 64).
Context (an b j : Z) (Han : is_slot tabs an t b j) (Hc : cand key b) (Hz : ld_le 8 (t_mem s1) an = 0) (ao : Z) (Hao : loc !! key = Some ao).
Let s := set_mem s1 (store_bytes (t_mem s1) an (le_bytes 8 x)).

Lemma twice_base : base s gd dn tabs blocks.
Proof. eapply base_slot_store; [apply Hinv|exact Han]. Qed.

Lemma twice_old : ao <> an /\ exists b0 j0 v0, is_slot tabs ao t b0 j0 /\ cand key b0 /\ points blocks (t_mem s1) (ld_le 8 (t_mem s1) ao) key v0.
Proof.
  destruct (so_loc _ _ _ _ _ _ (iv_slots _ _ _ _ _ _ _ Hinv) _ _ Hao) as (_ & t0 & b0 & j0 & v0 & Hslot & Hh & Hcc & _ & Hp0). split; [intros ->; rewrite Hz in Hp0; by apply points_nonzero in Hp0|].
  assert (t0 = t) as -> by (by eapply (do_unique _ _ _ (ba_dir _ _ _ _ _ (iv_base _ _ _ _ _ _ _ Hinv))); [apply Hslot|..]). by exists b0, j0, v0.
Qed.

Let Hp : pool_held (t_node s1) dn tabs blocks := ba_pool _ _ _ _ _ (iv_base _ _ _ _ _ _ _ Hinv).

Lemma twice_says p lo hi : lo = an /\ hi = ao \/ lo = ao /\ hi = an -> p ∈ slot_list (bucket_descs g (tp t) (hash_function key)) -> slot_says (t_mem s) blocks key an [lo; hi] p.
Proof.
  intros Hlh Hin. destruct (place_small _ _ _ _ _ _ _ Hp Ht Hin) as (_ & b' & Hslot). destruct twice_old as (Hne & b0 & j0 & v0 & Hs0 & _ & Hp0). unfold slot_says, s. fields.
  assert (place p ∈ [lo; hi] <-> place p = an \/ place p = ao) as Hmem by (rewrite in_two; destruct Hlh as [[-> ->]|[-> ->]]; tauto). destruct (decide (place p = an)) as [E|E].
  { rewrite E, ld_store_same by done. rewrite E in Hmem. split; [|tauto]. intros _. split; [by eapply points_nonzero|]. split; [apply Hpt|by left]. }
  rewrite (slot_store_other _ _ _ _ Hp (t_mem s1) an x _ _ _ Han _ _ _ _ Hslot E). destruct (decide (place p = ao)) as [E'|E'].
  { rewrite E' in Hmem |- *. split; [|tauto]. intros _. split; [by eapply points_nonzero|]. split; [apply Hp0|]. right. exists v0. by eapply slot_store_points. }
  split; [tauto|]. intros _. destruct (Z.eq_dec (ld_le 8 (t_mem s1) (place p)) 0) as [|Hnz]; [by left|]. right. split; [done|]. pose proof (iv_slots _ _ _ _ _ _ _ Hinv) as Hs.
  destruct (so_all _ _ _ _ _ _ Hs _ _ _ _ Hslot Hnz) as (k & Hk). destruct (so_loc _ _ _ _ _ _ Hs _ _ Hk) as (HKk & ? & ? & ? & v' & _ & _ & _ & _ & Hptk). exists k, v'. split; [done|]. split; [congruence|]. by eapply slot_store_points.
Qed.

Lemma inv_mem s2 m' M' loc' : quiet s s2 -> base (set_mem s2 m') gd dn tabs blocks -> slots_ok m' tabs at_home blocks M' loc' -> inv (set_mem s2 m') gd dn tabs blocks M' loc'.
Proof. intros Hq Hb Hs. split; [done|done|]. fields. destruct (qu_resize _ _ Hq) as (-> & -> & ->). apply Hinv. Qed.

(** The new slot is given up. *)
Lemma inv_undo s2 : quiet s s2 -> inv (set_mem s2 (store_bytes (t_mem s2) an (le_bytes 8 0))) gd dn tabs blocks M loc.
Proof.
  intros Hq. apply inv_mem; [done|eapply base_slot_store; [eapply base_quiet; [exact twice_base|done]|exact Han]|]. rewrite (qu_mem _ _ Hq). unfold s. fields.
  eapply slots_ext; [apply Hinv| | |done].
  - intros t' b' j' a' Hslot. destruct (decide (a' = an)) as [->|Hne]; [rewrite Hz; by apply ld_store_same|]. by rewrite !(slot_store_other _ _ _ _ Hp _ an _ _ _ _ Han _ _ _ _ Hslot Hne).
  - intros c Hcb. split; [done|]. eapply agree_trans; by eapply slot_store_blocks.
Qed.

(** The old slot is given up. *)
Lemma inv_swap s2 : quiet s s2 -> inv (set_mem s2 (store_bytes (t_mem s2) ao (le_bytes 8 0))) gd dn tabs blocks (<[key := v]> M) (<[key := an]> loc).
Proof.
  intros Hq. destruct twice_old as (Hne & b0 & j0 & v0 & Hs0 & Hc0 & Hp0). apply inv_mem; [done|eapply base_slot_store; [eapply base_quiet; [exact twice_base|done]|exact Hs0]|]. rewrite (qu_mem _ _ Hq). unfold s. fields.
  pose proof (slots_remove _ _ _ _ Hp at_home _ _ _ (iv_slots _ _ _ _ _ _ _ Hinv) _ _ _ _ Hs0 key Hao) as H1. set (m1 := store_bytes (t_mem s1) ao (le_bytes 8 0)) in H1.
  assert (slots_ok (store_bytes m1 an (le_bytes 8 x)) tabs at_home blocks (<[key := v]> (delete key M)) (<[key := an]> (delete key loc))) as H2.
  { eapply (slots_add _ _ _ _ Hp at_home m1 _ _ H1); try done; [by rewrite lookup_delete_eq| |by eapply slot_store_points]. unfold m1. by rewrite (slot_store_other _ _ _ _ Hp _ ao _ _ _ _ Hs0 _ _ _ _ Han) by done. }
  rewrite !insert_delete_eq in H2. eapply slots_ext; [exact H2| | |done].
  - intros t' b' j' a' Hslot. unfold m1. destruct (decide (a' = an)) as [->|Hna].
    + rewrite (slot_store_other _ _ _ _ Hp _ ao _ _ _ _ Hs0 _ _ _ _ Hslot) by done. by rewrite !ld_store_same.
    + rewrite (slot_store_other _ _ _ _ Hp (store_bytes (t_mem s1) ao _) an _ _ _ _ Han _ _ _ _ Hslot Hna). destruct (decide (a' = ao)) as [->|Hnb]; [by rewrite !ld_store_same by lia|].
      by rewrite !(slot_store_other _ _ _ _ Hp _ ao _ _ _ _ Hs0 _ _ _ _ Hslot Hnb), (slot_store_other _ _ _ _ Hp _ an _ _ _ _ Han _ _ _ _ Hslot Hna).
  - intros c Hcb. split; [done|]. intros y Hy. transitivity (ld8 (t_mem s1) y); [|symmetry].
    + eapply (agree_trans _ (store_bytes (t_mem s1) an (le_bytes 8 x))); [by eapply slot_store_blocks|by eapply slot_store_blocks|done].
    + eapply (agree_trans _ m1); [by eapply slot_store_blocks|by eapply slot_store_blocks|done].
Qed.

Lemma wp_settle_two fuel sb d slot F :
  (bucket_descs g (tp t) (hash_function key)).[sb] = Some d -> an = get_slot_addr d j ->
  wp (settle_loop g region dir_addr 0 spin (S (S fuel)) key (hash_function key) x sb an slot) s
    (fun rc s' => rc = 0 /\ exists M' loc', (M' = M \/ M' = <[key := v]> M) /\ inv s' gd dn tabs blocks M' loc') F.
Proof.
  intros Hd Ean. destruct twice_old as (Hne & b0 & j0 & v0 & Hs0 & Hc0 & Hp0). set (ds := bucket_descs g (tp t) (hash_function key)) in *. pose proof (po_fp _ _ _ _ _ Hpt) as Hfp.
  assert (d ∈ ds) as Hdin by (rewrite aget_lookup in Hd by (apply aget_Some_lt in Hd; lia); by eapply list_elem_of_lookup_2).
  assert (exists p, p ∈ slot_list ds /\ place p = an) as Pan by (exists (d, j); split; [apply elem_of_slot_list; split; [done|apply Han]|done]).
  assert (exists p, p ∈ slot_list ds /\ place p = ao) as Pao by (destruct Hs0 as (_ & _ & Hj0 & ->); by apply cand_place).
  enough (forall lo hi, lo = an /\ hi = ao \/ lo = ao /\ hi = an -> lo < hi ->
    (forall s2, quiet s s2 -> exists M' loc', (M' = M \/ M' = <[key := v]> M) /\ loc' !! key = Some lo /\ (an = lo \/ an = hi) /\ inv (set_mem s2 (store_bytes (t_mem s2) hi (le_bytes 8 0))) gd dn tabs blocks M' loc') ->
    wp (settle_loop g region dir_addr 0 spin (S (S fuel)) key (hash_function key) x sb an slot) s (fun rc s' => rc = 0 /\ exists M' loc', (M' = M \/ M' = <[key := v]> M) /\ inv s' gd dn tabs blocks M' loc') F) as Hmain.
  { destruct (Z.lt_ge_cases ao an) as [Hlt|Hge].
    - apply (Hmain ao an); [by right|done|]. intros s2 Hq. exists M, loc. split; [by left|]. split; [done|]. split; [by right|by apply inv_undo].
    - apply (Hmain an ao); [by left|lia|]. intros s2 Hq. exists (<[key := v]> M), (<[key := an]> loc). split; [by right|]. split; [by rewrite lookup_insert_eq|]. split; [by left|by apply inv_swap]. }
  intros lo hi Hlh Hlt Hend. eapply (wp_settle_step (S fuel) s gd dn tabs blocks key t x sb an slot [lo; hi] d); try done; [exact twice_base|intros p Hp'; by apply twice_says|].
  intros s' Hq Hl m. destruct (scan_two lo hi Hlt (slot_list ds) (2 ^ 64 - 1)) as (q & acc & E & Hlen & Hqin & Eq & Hacc & Hex).
  { destruct Pan as (p & Hp1 & E1), Pao as (p' & Hp2 & E2). pose proof (place_small _ _ _ _ _ _ _ Hp Ht Hp1). pose proof (place_small _ _ _ _ _ _ _ Hp Ht Hp2). destruct Hlh as [[-> ->]|[-> ->]]; lia. }
  { destruct Hlh as [[-> ->]|[-> ->]]; done. }
  { destruct Hlh as [[-> ->]|[-> ->]]; done. }
  unfold m. fold ds. rewrite E. cbn [fst snd]. rewrite (proj2 (Z.leb_gt _ _)) by lia. wstep. destruct Hex as (ph & Hph & Eph).
  assert (ld_le 8 (t_mem s') hi <> 0) as Hnz.
  { rewrite (qu_mem _ _ Hq). destruct (Hacc ph Hph) as [->|[Hin _]]; [lia|]. destruct (twice_says ph lo hi Hlh Hin) as [Hy _]. rewrite Eph in Hy. apply Hy, in_two. by right. }
  eapply wp_next; [apply (wp_clear_others s' _ dn tabs blocks key t q hi Hp Ht Hl Hqin ltac:(lia) F slot acc Hnz); [by exists ph|done]|]. intros [r p] s2 ->. cbn [fst snd].
  destruct (Hend s' Hq) as (M' & loc' & HM' & Hl' & Hor & Hi'). destruct r; [wstep; split; [done|]; by exists M', loc'|].
  eapply wp_next; [eapply (wp_settle_one fuel _ gd dn tabs blocks M' loc' key t x sb an p d lo); try done|intros rc s3 [-> Hi3]; split; [done|]; by exists M', loc'].
  fields. destruct Hor as [->| ->]; [by left|]. right. by apply ld_store_same.
Qed.

End Twice.

(** A new key is added; a key that is there keeps its value or gets the new one. *)
Lemma insert_ok s gd dn tabs blocks M loc key value :
  inv s gd dn tabs blocks M loc -> K key -> value_fits key value ->
  wp (insert g region dir_addr 0 spin key value) s (fun rc s' => rc = 0 /\ exists gd' tabs' blocks' M' loc',
    (M' = <[key := strz value]> M \/ M' = M /\ is_Some (M !! key)) /\ inv s' gd' dn tabs' blocks' M' loc') full.
Proof.
  intros Hinv HK Hv. unfold insert. wstep. eapply wp_mono; [by eapply wp_write_block| |intros w ->; by left]. intros [x a] s1 (n & Hi1 & Hpt & Hx & _). cbn [fst snd] in *. set (blocks1 := (a, n) :: blocks) in *.
  destruct (tab_of_key _ _ _ _ _ key (iv_base _ _ _ _ _ _ _ Hi1)) as (t & Ht & Ho & _). pose proof Hg as [_ _ _ Hmx]. destruct (do_tab _ _ _ (ba_dir _ _ _ _ _ (iv_base _ _ _ _ _ _ _ Hi1)) t Ht) as [Hd _].
  wstep. eapply wp_next; [eapply (wp_take_slot spin s1); [exact Hi1|exact Ht|done|exact Hpt|unfold spin_ok in Hspin; lia]|].
  intros [sb [d j]] s2 (s3 & gd' & tabs' & loc' & t' & Hi3 & Ht' & Ho' & Hpt3 & Hsb & Hj & Hz & ->). cbn [fst snd] in *. clear Hd.
  assert (d ∈ bucket_descs g (tp t') (hash_function key)) as Hdin by (rewrite aget_lookup in Hsb by (apply aget_Some_lt in Hsb; lia); by eapply list_elem_of_lookup_2).
  destruct (in_bucket_descs _ _ _ Hdin) as (b & Hc & Ead). assert (is_slot tabs' (get_slot_addr d j) t' b j) as Hslot.
  { split; [done|]. split; [by eapply cand_range|]. split; [done|]. unfold get_slot_addr, table_slot_addr. rewrite Ead. lia. }
  pose proof (ba_pool _ _ _ _ _ (iv_base _ _ _ _ _ _ _ Hi3)) as Hp. pose proof (po_fp _ _ _ _ _ Hpt3) as Hfp. assert (exists f, spin = S (S f)) as [f Ef] by (exists (spin - 2)%nat; unfold spin_ok in Hspin; lia). rewrite Ef at 2.
  destruct (loc' !! key) as [ao|] eqn:Eao.
  - eapply wp_mono; [by eapply (wp_settle_two s3 gd' dn tabs' blocks1 M loc')| |done]. intros rc s4 (-> & M' & loc2 & HM' & Hi4). split; [done|]. exists gd', tabs', blocks1, M', loc2. split; [|done].
    destruct HM' as [->| ->]; [right|by left]. split; [done|]. destruct (M !! key) eqn:EM; [done|]. apply (so_dom _ _ _ _ _ _ (iv_slots _ _ _ _ _ _ _ Hi3)) in EM. congruence.
  - assert (inv (set_mem s3 (store_bytes (t_mem s3) (get_slot_addr d j) (le_bytes 8 x))) gd' dn tabs' blocks1 (<[key := strz value]> M) (<[key := get_slot_addr d j]> loc')) as Hi4.
    { destruct Hi3 as [Hb3 Hs3 Hr3]. split; [by eapply base_slot_store| |done]. by eapply (slots_add _ _ _ _ Hp). }
    eapply wp_mono; [eapply (wp_settle_one (S f) _ gd' dn tabs' blocks1 _ _ key t' x sb _ _ d (get_slot_addr d j) full Hi4); try done; [by rewrite lookup_insert_eq|by left]| |done].
    intros rc s4 [-> Hi5]. split; [done|]. exists gd', tabs', blocks1. eexists _, _. split; [by left|exact Hi5].
Qed.

End Table.
