(* ===== verification/HtRefine.v ===== *)
(** The remote hash table on the allocator of the runtime implements a finite map.

    The allocator meets the interface of the table; [Setup] and [init_task]
    establish the invariant for the empty map; and a client that runs any
    sequence of operations gets the results of a map from keys to values. *)

From S2P Require Import Prelude Mem HtBlock SmartAlloc HashTable HtSetup HashTableSpec.

(** ** The allocator *)

Section Smart.
Context (junk node max : Z) (Hnode : 0 <= node < 2 ^ 8) (Hmax : max * kChunkSize <= 2 ^ 48) (Hpos : 1 <= max).

(** Blocks by their global addresses. *)
Definition global (P : list (Z * Z)) : list (Z * Z) := (fun b => (node * 2 ^ 56 + fst b, snd b)) <$> P.

Lemma global_cons b P : global (b :: P) = (node * 2 ^ 56 + fst b, snd b) :: global P.
Proof using. done. Qed.

Lemma global_disj P : disj (global P) -> disj P.
Proof using.
  induction P as [|b P IH]; [done|]. unfold global. rewrite fmap_cons. cbn [disj]. intros [H1 H2]. split; [|by apply IH]. rewrite Forall_fmap in H1. eapply Forall_impl; [exact H1|].
  intros c Hc. unfold apart in *. cbn in *. lia.
Qed.

Definition smart_ok (a : SuperChunk * client) (P : list (Z * Z)) : Prop := state_ok node max 1 (fst a) (snd a) (global P).

Lemma smart_inside a P b : smart_ok a P -> b ∈ P -> 0 < fst b /\ 0 < snd b /\ fst b mod 8 = 0 /\ fst b + snd b <= max * kChunkSize /\ max * kChunkSize <= 2 ^ 48.
Proof using Hmax.
  intros [Hr _ _ [_ Hin]] Hb. apply Forall_app in Hin as [_ Hin]. rewrite Forall_forall in Hin. destruct (Hin (node * 2 ^ 56 + fst b, snd b)) as (H1 & H2 & H3 & H4); [by apply (list_elem_of_fmap_2 (fun b => (node * 2 ^ 56 + fst b, snd b)))|].
  unfold lo, hi in *. cbn [fst snd] in *. unfold kChunkSize, kChunkShift in *. change (2 ^ 14) with 16384 in *. change (2 ^ 56) with (9007199254740992 * 8) in *. split; [lia|]. split; [lia|]. split; [|split; [lia|lia]].
  replace (fst b) with (node * (9007199254740992 * 8) + fst b + (- node * 9007199254740992) * 8) by lia. rewrite Z.mod_add by lia. exact H4.
Qed.

Lemma smart_alloc_spec a P n : smart_ok a P -> 0 <= n < 2 ^ 44 ->
  exists r a', @in_alloc _ (smart_initiator junk node) a n = Some (r, a') /\ match r with None => smart_ok a' P | Some x => exists len, n <= len /\ smart_ok a' ((x, len) :: P) end.
Proof using Hnode Hmax Hpos.
  intros Hok Hn. destruct (alloc_memory_ok junk node max 1 Hnode Hmax ltac:(lia) (fst a) (snd a) (global P) n Hok Hn) as (x & r' & c' & E & Hle & Hres).
  cbn [in_alloc smart_initiator]. rewrite E. cbn [mbind option_bind]. eexists _, (r', c'). split; [done|]. destruct Hres as [(-> & _ & Hs & _)|(Hx & Hs)].
  - by rewrite Z.eqb_refl.
  - rewrite (proj2 (Z.eqb_neq x NULL_GLOBAL_ADDRESS)) by done. exists (block_len n). split; [apply (block_len_size node Hnode); lia|]. unfold smart_ok. rewrite global_cons. cbn [fst snd].
    enough (node * 2 ^ 56 + x mod 2 ^ 48 = x) as -> by exact Hs. destruct Hs as [Hr _ _ [_ Hin]]. apply Forall_app in Hin as [_ [(H1 & H2 & H3 & _) _]%Forall_cons]. unfold lo, hi in *. cbn [fst snd] in *.
    unfold kChunkSize, kChunkShift in *. change (2 ^ 14) with 16384 in *. change (2 ^ 56) with (256 * 2 ^ 48). replace x with (x - node * (256 * 2 ^ 48) + node * 256 * 2 ^ 48) at 1 by lia. rewrite Z.mod_add by lia.
    rewrite Z.mod_small; [lia|]. change (2 ^ 48) with 281474976710656 in *. change (2 ^ 56) with (256 * 281474976710656) in *. lia.
Qed.

Lemma smart_perm a P P' : P ≡ₚ P' -> smart_ok a P' -> smart_ok a P.
Proof using. intros HP. unfold smart_ok. assert (global P ≡ₚ global P') as Hgl by (unfold global; by rewrite HP). intros [H1 H2 H3 H4]; split; try done; by rewrite Hgl. Qed.

#[local] Instance smart_spec : @InitiatorSpec (SuperChunk * client) (smart_initiator junk node) (max * kChunkSize).
Proof using Hnode Hmax Hpos.
  refine {| in_ok := smart_ok |}.
  - intros a P P' HP. split; by apply smart_perm.
  - intros a P [_ _ _ [Hd _]]. apply disj_app in Hd as (_ & Hd & _). by apply global_disj.
  - apply smart_inside.
  - apply smart_alloc_spec.
Defined.

(** ** Chunks of the target *)

Lemma target_alloc_ok k count P :
  smart_ok (MkSuper max k, new_client junk) P -> 1 <= count -> k + count <= max ->
  target_alloc_chunk (MkSuper max k) count = Some (k * kChunkSize, MkSuper max (k + count)) /\
  smart_ok (MkSuper max (k + count), new_client junk) ((k * kChunkSize, count * kChunkSize) :: P).
Proof using Hmax Hnode.
  intros [Hr Hcp Hck Hpool] Hc Hk. cbn [fst snd max_chunk alloc_chunk] in *. assert (max < 2 ^ 64) by (unfold kChunkSize, kChunkShift in *; change (2 ^ 14) with 16384 in *; lia).
  unfold target_alloc_chunk. cbn [max_chunk alloc_chunk]. rewrite wrapu_small by lia. rewrite (proj2 (Z.ltb_ge _ _)) by lia. split; [done|].
  assert (client_blocks (new_client junk) = []) as Hcb by reflexivity. rewrite Hcb in Hpool. split; cbn [fst snd max_chunk alloc_chunk]; [lia|done|done|]. rewrite Hcb. cbn [app]. rewrite global_cons. cbn [fst snd].
  unfold hi in *. cbn [alloc_chunk] in *. replace (node * 2 ^ 56 + (k + count) * kChunkSize) with (node * 2 ^ 56 + k * kChunkSize + count * kChunkSize) by lia. unfold kChunkSize, kChunkShift in *. change (2 ^ 14) with 16384 in *.
  apply pool_grow; [exact Hpool|done|unfold lo, kChunkSize, kChunkShift; change (2 ^ 14) with 16384; lia|lia|]. change (2 ^ 56) with (9007199254740992 * 8). dlia.
Qed.

Lemma smart_start : smart_ok (MkSuper max 1, new_client junk) [].
Proof using Hpos.
  split; cbn [fst snd max_chunk alloc_chunk]; [lia|done| |by split].
  split; [done|]. assert (fl_ok (new_free_list junk)) by (split; unfold alen; cbn; lia). by repeat apply Forall_cons_2.
Qed.

(** ** What Setup builds *)

Context (g : geometry) (Hg : geometry_ok g).

(** A subtable in memory: headers, and empty slots. *)
Definition table_at (m : mem) (p suffix : Z) : Prop := forall b, 0 <= b < kTotalBuckets g ->
  ld_le 4 m (p + sizeof_Bucket * b) = kInitialDepth g /\ ld_le 4 m (p + sizeof_Bucket * b + 4) = suffix /\
  forall j, 0 <= j < kAssociatedWays -> ld_le 8 m (table_slot_addr p b j) = 0.

Lemma ld_zeros n m p N a : p <= a -> a + Z.of_nat n <= p + N -> ld_le n (memset m p 0 N) a = 0.
Proof using.
  intros Ha Hn. unfold ld_le, memset. set (bs := replicate (Z.to_nat N) 0).
  assert (load_bytes (store_bytes m p bs) p (Z.to_nat N) = bs) as Hl by (rewrite <- (length_replicate (Z.to_nat N) 0) at 1; apply load_store_same, Forall_replicate; unfold byte_ok; lia).
  replace a with (p + Z.of_nat (Z.to_nat (a - p))) by lia. rewrite (load_bytes_sub _ _ _ _ (Z.to_nat N)), Hl by lia. unfold bs. rewrite drop_replicate, take_replicate.
  generalize (n `min` (Z.to_nat N - Z.to_nat (a - p)))%nat. intros k. induction k as [|k IH]; cbn [replicate le_val]; lia.
Qed.

Lemma ld_st_le_same n m a v : 0 <= v < 256 ^ Z.of_nat n -> ld_le n (st_le n m a v) a = v.
Proof using. intros Hv. rewrite ld_le_st_le. by apply Z.mod_small. Qed.

Lemma group_total : 0 <= kTotalBuckets g.
Proof using Hg. pose proof (group_range g Hg 0). lia. Qed.

(** The headers, one bucket after the other. *)
Lemma headers_written p suffix n : forall k m, 0 <= suffix < 2 ^ 32 -> mem_ok m -> 0 <= k -> k + Z.of_nat n <= kTotalBuckets g ->
  let m' := foldl (fun m i => setup_bucket g p suffix i m) m (seqZ k (Z.of_nat n)) in
  mem_ok m' /\ same_outside p (p + sizeof_SubTable g) m m' /\
  (forall b, k <= b < k + Z.of_nat n -> ld_le 4 m' (p + sizeof_Bucket * b) = kInitialDepth g /\ ld_le 4 m' (p + sizeof_Bucket * b + 4) = suffix) /\
  (forall b j, 0 <= b < kTotalBuckets g -> 0 <= j < kAssociatedWays -> ld_le 8 m' (table_slot_addr p b j) = ld_le 8 m (table_slot_addr p b j)) /\
  (forall b, 0 <= b < k -> ld_le 4 m' (p + sizeof_Bucket * b) = ld_le 4 m (p + sizeof_Bucket * b) /\ ld_le 4 m' (p + sizeof_Bucket * b + 4) = ld_le 4 m (p + sizeof_Bucket * b + 4)).
Proof using Hg.
  induction n as [|n IH]; intros k m Hsf Hm Hk Hn m'.
  { cbn in m'. split_and!; try done. intros b Hb. lia. }
  unfold m'. rewrite seqZ_cons by lia. cbn [foldl]. rewrite <- Z.add_1_r. replace (Z.pred (Z.of_nat (S n))) with (Z.of_nat n) by lia. set (m1 := setup_bucket g p suffix k m).
  assert (mem_ok m1) as Hm1 by (unfold m1, setup_bucket, st_le; by do 2 apply store_bytes_mem_ok). pose proof Hg as [_ _ Hd Hmx].
  assert (same_outside p (p + sizeof_SubTable g) m m1) as Ho1.
  { unfold m1, setup_bucket, st_le, sizeof_SubTable, sizeof_Bucket. etrans; [apply same_outside_store|apply same_outside_store]; rewrite ?length_le_bytes; lia. }
  destruct (IH (k + 1) m1 Hsf Hm1 ltac:(lia) ltac:(lia)) as (H1 & H2 & H3 & H4 & H5). split; [done|]. split; [by etrans|].
  assert (ld_le 4 m1 (p + sizeof_Bucket * k) = kInitialDepth g /\ ld_le 4 m1 (p + sizeof_Bucket * k + 4) = suffix) as Hk1.
  { unfold m1, setup_bucket. split; [rewrite ld_le_st_le_out by lia|]; apply ld_st_le_same; change (256 ^ Z.of_nat 4) with (2 ^ 32); lia. }
  split; [|split].
  - intros b Hb. destruct (Z.eq_dec b k) as [->|Hne]; [|apply H3; lia]. destruct (H5 k ltac:(lia)) as [-> ->]. done.
  - intros b j Hb Hj. rewrite H4 by done. unfold m1, setup_bucket. unfold table_slot_addr, sizeof_Bucket, kAssociatedWays in *. by rewrite !ld_le_st_le_out by lia.
  - intros b Hb. destruct (H5 b ltac:(lia)) as [-> ->]. unfold m1, setup_bucket, sizeof_Bucket. by rewrite !ld_le_st_le_out by lia.
Qed.

Lemma chunks_fit n : 0 < n -> n <= chunks_of n * kChunkSize /\ 1 <= chunks_of n.
Proof. clear. intros Hn. unfold chunks_of, kChunkSize, kChunkShift. change (2 ^ 14) with 16384. dlia. Qed.

(** The places of the directory and of the subtables. *)
Let cd := chunks_of (sizeof_Directory g).
Let cs := chunks_of (sizeof_SubTable g).
Let dir := 1 * kChunkSize.
Definition tab_addr (j : Z) : Z := (1 + chunks_of (sizeof_Directory g) + j * chunks_of (sizeof_SubTable g)) * kChunkSize.
Definition first_tabs (i : Z) : list tab := (fun j => Tab (tab_addr j) (kInitialDepth g) j (chunks_of (sizeof_SubTable g) * kChunkSize)) <$> seqZ 0 i.
Context (Henough : 1 + cd + 2 ^ kInitialDepth g * cs <= max).

Lemma elem_of_first_tabs i u : u ∈ first_tabs i <-> exists j, 0 <= j < i /\ u = Tab (tab_addr j) (kInitialDepth g) j (cs * kChunkSize).
Proof. unfold first_tabs. rewrite list_elem_of_fmap. split; intros (j & H1 & H2); exists j; [apply elem_of_seqZ in H2; split; [lia|done]|split; [done|apply elem_of_seqZ; lia]]. Qed.

Lemma sizes_fit : sizeof_Directory g <= cd * kChunkSize /\ 1 <= cd /\ sizeof_SubTable g <= cs * kChunkSize /\ 1 <= cs /\ 0 < kMaxSubTables g /\ 2 ^ kInitialDepth g <= kMaxSubTables g /\ 0 < 2 ^ kInitialDepth g.
Proof.
  clear - Hg.
  pose proof (group_range g Hg 0). pose proof Hg as [_ _ Hd _]. assert (0 < kMaxSubTables g) by (apply Z.pow_pos_nonneg; lia). assert (2 ^ kInitialDepth g <= kMaxSubTables g) by (apply Z.pow_le_mono_r; lia). assert (0 < 2 ^ kInitialDepth g) by (apply Z.pow_pos_nonneg; lia).
  destruct (chunks_fit (sizeof_Directory g)) as [E1 E2]; [unfold sizeof_Directory; lia|]. destruct (chunks_fit (sizeof_SubTable g)) as [E3 E4]; [unfold sizeof_SubTable, sizeof_Bucket; lia|]. by split_and!.
Qed.

(** After [i] subtables. *)
Record built (i : Z) (s : mem * SuperChunk) : Prop := {
  bt_bytes : mem_ok (fst s);
  bt_super : snd s = MkSuper max (1 + cd + i * cs);
  bt_pool : smart_ok (snd s, new_client junk) (held dir (cd * kChunkSize) (first_tabs i) []);
  bt_depth : ld_le 8 (fst s) dir = kInitialDepth g;
  bt_entry j : 0 <= j < i -> ld_le 8 (fst s) (entry_addr dir j) = mk_entry 0 (kInitialDepth g) (tab_addr j);
  bt_table j : 0 <= j < i -> table_at (fst s) (tab_addr j) j }.

Lemma table_at_frame m m' p sf : table_at m p sf -> agree m m' p (sizeof_SubTable g) -> table_at m' p sf.
Proof.
  intros H Hag b Hb. pose proof (agree_in_tab g _ _ _ b Hag Hb) as Hab. destruct (agree_header _ _ _ _ Hab) as [-> ->]. destruct (H b Hb) as (H1 & H2 & H3). split; [done|]. split; [done|]. intros j Hj. rewrite (agree_slot _ _ _ _ _ Hab Hj). by apply H3.
Qed.

Lemma setup_subtable_ok i s : 0 <= i < 2 ^ kInitialDepth g -> built i s -> exists s', setup_subtable g dir i s = Some s' /\ built (i + 1) s'.
Proof.
  intros Hi [H1 H2 H3 H4 H5 H6]. destruct s as [m r]. cbn [fst snd] in *. subst r. destruct sizes_fit as (F1 & F2 & F3 & F4 & F5 & F6 & F7). pose proof Hg as [_ _ Hdp Hmx].
  destruct (target_alloc_ok (1 + cd + i * cs) cs _ H3) as [E Hok]; [lia|nia|]. fold (tab_addr i) in E, Hok. change ((1 + cd + i * cs) * kChunkSize) with (tab_addr i) in *.
  unfold setup_subtable. cbn [fst snd]. fold cs. rewrite E. cbn [mbind option_bind]. eexists. split; [reflexivity|]. set (p := tab_addr i) in *. set (m1 := memset m p 0 (sizeof_SubTable g)).
  assert (mem_ok m1) as Hm1 by (unfold m1, memset; by apply store_bytes_mem_ok). assert (i < 2 ^ 32) as Hi32 by (assert (2 ^ kInitialDepth g <= 2 ^ 12) by (apply Z.pow_le_mono_r; lia); lia).
  pose proof group_total as Htot. destruct (headers_written p i (Z.to_nat (kTotalBuckets g)) 0 m1) as (G1 & G2 & G3 & G4 & _); [lia|done|lia|lia|]. rewrite Z2Nat.id in G1, G2, G3, G4 by lia. set (m2 := foldl _ m1 _) in *.
  set (m3 := st_le 8 m2 (dir + 8 + 8 * i) (mk_entry 0 (kInitialDepth g) p)). assert (0 <= sizeof_SubTable g) by (unfold sizeof_SubTable, sizeof_Bucket; lia).
  assert (forall x, x < p \/ p + sizeof_SubTable g <= x -> ld8 m2 x = ld8 m x) as Hout.
  { intros x Hx. rewrite (G2 x) by lia. unfold m1, memset. apply ld8_store_bytes_out. rewrite length_replicate. lia. }
  assert (forall x, x < dir + 8 + 8 * i \/ dir + 8 + 8 * i + 8 <= x -> ld8 m3 x = ld8 m2 x) as Hout3 by (intros x Hx; apply ld8_st_le_out; lia).
  assert (dir + sizeof_Directory g <= tab_addr 0) as Hd0 by (unfold tab_addr, dir; lia). unfold sizeof_Directory in Hd0.
  assert (forall j, 0 <= j < i -> tab_addr 0 <= tab_addr j /\ tab_addr j + sizeof_SubTable g <= p) as Hbelow.
  { intros j Hj. unfold p, tab_addr. fold cs cd. assert (0 < kChunkSize) by (unfold kChunkSize, kChunkShift; lia). split; [nia|]. transitivity ((1 + cd + (j + 1) * cs) * kChunkSize); nia. }
  assert (tab_addr 0 <= p) as H0p by (unfold p, tab_addr; fold cs cd; assert (0 < kChunkSize) by (unfold kChunkSize, kChunkShift; lia); nia).
  destruct (mk_entry_fields 0 (kInitialDepth g) p) as (_ & _ & _ & Hent); [lia|lia| |].
  { destruct (smart_inside _ _ (p, cs * kChunkSize) Hok) as (? & ? & _ & ? & ?); [by left|]. cbn [fst snd] in *. lia. }
  split; cbn [fst snd].
  - unfold m3, st_le. by apply store_bytes_mem_ok.
  - f_equal. lia.
  - replace (1 + cd + i * cs + cs) with (1 + cd + (i + 1) * cs) in * by lia. eapply smart_perm; [|exact Hok].
    unfold held, first_tabs. rewrite seqZ_app by lia. change (seqZ (0 + i) 1) with [0 + i]. rewrite !fmap_app, !app_nil_r. cbn [fmap list_fmap tp tn app]. fold p. rewrite Z.add_0_l. fold p cs. rewrite perm_swap. f_equiv. by rewrite Permutation_app_comm.
  - rewrite (ld_le_ext m2); [|intros x Hx; apply Hout3; lia]. rewrite (ld_le_ext m); [done|]. intros x Hx. apply Hout. lia.
  - intros j Hj. unfold entry_addr. destruct (Z.eq_dec j i) as [->|Hne]; [by apply ld_st_le_same|]. rewrite (ld_le_ext m2); [|intros x Hx; apply Hout3; lia]. rewrite (ld_le_ext m); [apply (H5 j); lia|]. intros x Hx. apply Hout. lia.
  - intros j Hj. destruct (Z.eq_dec j i) as [->|Hne].
    + fold p. apply (table_at_frame m2); [|intros x Hx; apply Hout3; lia]. intros b Hb. destruct (G3 b ltac:(lia)) as [-> ->]. split; [done|]. split; [done|]. intros j Hjr. rewrite G4 by done. apply ld_zeros; unfold table_slot_addr, sizeof_SubTable, sizeof_Bucket, kAssociatedWays in *; lia.
    + apply (table_at_frame m); [apply H6; lia|]. intros x Hx. pose proof (Hbelow j ltac:(lia)). rewrite Hout3 by lia. apply Hout. lia.
Qed.

Lemma Setup_ok m : mem_ok m -> exists m' r, Setup g m (MkSuper max 1) = Some (dir, (m', r)) /\ built (2 ^ kInitialDepth g) (m', r).
Proof.
  intros Hm. destruct sizes_fit as (F1 & F2 & F3 & F4 & F5 & F6 & F7). pose proof Hg as [_ _ Hdp Hmx]. assert (1 + cd <= max) as Hcd by nia. destruct (target_alloc_ok 1 cd _ smart_start F2 Hcd) as [E Hok].
  unfold Setup. fold cd. rewrite E. cbn [mbind option_bind]. fold dir in Hok |- *.
  destruct (for_from_inv built (Z.to_nat (2 ^ kInitialDepth g)) 0 (setup_subtable g dir) (st_le 8 (memset m dir 0 (sizeof_Directory g)) dir (kInitialDepth g), MkSuper max (1 + cd))) as ([m' r] & E' & Hb).
  - split; cbn [fst snd]; [unfold memset, st_le; by do 2 apply store_bytes_mem_ok|f_equal; lia|exact Hok|apply ld_st_le_same; change (256 ^ Z.of_nat 8) with (2 ^ 64); lia|lia|lia].
  - intros k t Hk Hb. apply setup_subtable_ok; [lia|done].
  - rewrite E'. cbn [mbind option_bind]. exists m', r. split; [done|]. by replace (0 + Z.of_nat (Z.to_nat (2 ^ kInitialDepth g))) with (2 ^ kInitialDepth g) in Hb by lia.
Qed.

(** The table that was built is the empty map. *)
Lemma built_inv K m r bufs block cache : built (2 ^ kInitialDepth g) (m, r) -> length bufs = 4%nat -> alen block = kMaxBlockLength -> Forall byte_ok block -> (0 < cache)%nat ->
  inv (A := SuperChunk * client) (I := smart_initiator junk node) g (max * kChunkSize) dir K
    (Table m (r, new_client junk) (directory_at g m dir) bufs block (replicate cache None) None None (-1) 0 (-1)) (kInitialDepth g) (cd * kChunkSize) (first_tabs (2 ^ kInitialDepth g)) [] ∅ ∅.
Proof.
  intros [B1 B2 B3 B4 B5 B6] Hbufs Hblk Hby Hcache. cbn [fst snd] in *. destruct sizes_fit as (F1 & F2 & F3 & F4 & F5 & F6 & F7). pose proof Hg as [_ _ Hdp Hmx]. split; [split; fields; try done| |by auto].
  - split; [exact B3|done|]. apply Forall_forall. intros u (j & _ & ->)%elem_of_first_tabs. done.
  - split; [done|lia| | |].
    + intros u (j & Hj & ->)%elem_of_first_tabs. cbn [td ts]. lia.
    + intros i Hi. eexists. split; [apply elem_of_first_tabs; by exists i|]. cbn [td ts tp]. split; [by apply Z.mod_small|by apply B5].
    + intros u u' h (j & Hj & ->)%elem_of_first_tabs (j' & Hj' & ->)%elem_of_first_tabs. cbn [td ts]. by intros <- ->.
  - intros u b (j & Hj & ->)%elem_of_first_tabs Hb. cbn [tp td ts]. destruct (B6 j Hj b Hb) as (-> & -> & _). done.
  - split; [unfold alen; rewrite length_replicate; lia|]. by apply Forall_replicate.
  - split; [by intros k x ?%lookup_empty_Some| |by intros k; rewrite !lookup_empty].
    intros u b j x (Hu & Hb & Hj & ->). fields. apply elem_of_first_tabs in Hu as (i & Hi & ->). cbn [tp]. destruct (B6 i Hi b Hb) as (_ & _ & ->); done.
Qed.

End Smart.

(** ** The operations against a map *)

(** What an operation may return and do to the map.  An insert of a key that is
    present keeps the old value or takes the new one. *)
Definition spec_step (M : gmap (list Z) (list Z)) (o : ht_op) (r : ht_result) (M' : gmap (list Z) (list Z)) : Prop :=
  match o with
  | Search k => r = Found (M !! k) /\ M' = M
  | Insert k v => r = Code 0 /\ (M' = <[k := strz v]> M \/ M' = M /\ is_Some (M !! k))
  | Update k v => match M !! k with None => r = Code ENOENT /\ M' = M | Some _ => r = Code 0 /\ M' = <[k := strz v]> M end
  | Rmw k f => match M !! k with None => r = Code ENOENT /\ M' = M | Some v => r = Code 0 /\ M' = <[k := strz (f v)]> M end
  | Remove k => match M !! k with None => r = Code ENOENT /\ M' = M | Some _ => r = Code 0 /\ M' = delete k M end
  end.

Inductive spec_run : gmap (list Z) (list Z) -> list ht_op -> list ht_result -> gmap (list Z) (list Z) -> Prop :=
  | run_done M : spec_run M [] [] M
  | run_step M o r M1 os rs M2 : spec_step M o r M1 -> spec_run M1 os rs M2 -> spec_run M (o :: os) (r :: rs) M2.

(** When an operation may not return. *)
Definition may_stop (o : ht_op) (w : stop) : Prop :=
  match o with
  | Search _ | Remove _ => False
  | Update _ _ | Rmw _ _ => w = NoMemory
  | Insert _ _ => w = NoMemory \/ w = DirectoryFull
  end.

(** Keys of bytes without NUL, none a proper prefix of another. *)
Definition keys_ok (K : list Z -> Prop) : Prop :=
  (forall k, K k -> Forall byte_ok k /\ Forall (fun c => c <> 0) k) /\ (forall k k', K k -> K k' -> k `prefix_of` k' -> k = k').

Definition op_fits (K : list Z -> Prop) (o : ht_op) : Prop :=
  match o with
  | Search k | Remove k => K k
  | Insert k v | Update k v => K k /\ value_fits k v
  | Rmw k f => K k /\ forall v, value_fits k v -> value_fits k (f v)
  end.

Section Perform.
Context {A : Type} {I : Initiator A} (g : geometry) (region dir_addr : Z) (Hg : geometry_ok g) (K : list Z -> Prop) (HK : keys_ok K) {IS : InitiatorSpec A region}.
Context (spin : nat) (Hspin : spin_ok spin) (std_hash : list Z -> Z) (fast_search_ : bool).

(** The values of the map fit into blocks. *)
Definition values_ok (M : gmap (list Z) (list Z)) : Prop := forall k v, M !! k = Some v -> value_fits k v.

Lemma strz_fits k v : value_fits k v -> value_fits k (strz v).
Proof using. intros [H1 H2]. split; [by apply strz_bytes|]. unfold get_kv_block_len in *. by rewrite alen_strz. Qed.

Lemma values_insert M k v : values_ok M -> value_fits k v -> values_ok (<[k := strz v]> M).
Proof using. intros HM Hv k' v' [[<- <-]|[_ H]]%lookup_insert_Some; [by apply strz_fits|by apply HM]. Qed.

Lemma values_step M o r M' : values_ok M -> op_fits K o -> spec_step M o r M' -> values_ok M'.
Proof using.
  intros HM Ho Hs. destruct o as [k|k v|k v|k f|k]; cbn [op_fits spec_step] in *.
  - by destruct Hs as [_ ->].
  - destruct Hs as [_ [->|[-> _]]]; [apply values_insert; [done|apply Ho]|done].
  - destruct (M !! k); destruct Hs as [_ ->]; [apply values_insert; [done|apply Ho]|done].
  - destruct (M !! k) as [v|] eqn:E; destruct Hs as [_ ->]; [|done]. apply values_insert; [done|]. apply Ho. by apply HM.
  - destruct (M !! k); destruct Hs as [_ ->]; [|done]. intros k' v' [_ H]%lookup_delete_Some. by apply HM.
Qed.

Lemma perform_ok s gd dn tabs blocks M loc o :
  inv g region dir_addr K s gd dn tabs blocks M loc -> values_ok M -> op_fits K o ->
  wp (perform g region dir_addr std_hash fast_search_ 0 spin o) s
    (fun r s' => exists gd' tabs' blocks' M' loc', spec_step M o r M' /\ inv g region dir_addr K s' gd' dn tabs' blocks' M' loc') (may_stop o).
Proof using Hg HK Hspin.
  intros Hi HM Ho. destruct HK as [K1 K2]. assert (0 < spin)%nat by (unfold spin_ok in Hspin; lia). destruct o as [k|k v|k v|k f|k]; cbn [perform op_fits spec_step may_stop] in *; wstep.
  - eapply wp_next; [by eapply search_ok|]. intros r s' [-> Hi']. wstep. by exists gd, tabs, blocks, M, loc.
  - destruct Ho as [Hk Hv]. eapply wp_next; [by eapply insert_ok|]. intros r s' (-> & gd' & tabs' & blocks' & M' & loc' & HM' & Hi'). wstep. by exists gd', tabs', blocks', M', loc'.
  - destruct Ho as [Hk Hv]. eapply wp_next; [by eapply update_ok|]. intros r s' (blocks' & H'). wstep. destruct (M !! k); destruct H' as [-> Hi']; by eexists gd, tabs, blocks', _, loc.
  - destruct Ho as [Hk Hv]. eapply wp_next; [eapply rmw_loop_ok; try done; intros w Hw; by apply Hv, HM|]. intros r s' (blocks' & H'). wstep. destruct (M !! k); destruct H' as [-> Hi']; by eexists gd, tabs, blocks', _, loc.
  - eapply wp_next; [by eapply remove_loop_ok|]. intros r s' H'. wstep. destruct (M !! k); destruct H' as [-> Hi']; by eexists gd, tabs, blocks, _, _.
Qed.

End Perform.

(** The table of a node of the runtime is the map [M]. *)
Definition smart_table (junk node max : Z) (g : geometry) (K : list Z -> Prop) (s : table (SuperChunk * client)) (M : gmap (list Z) (list Z)) : Prop :=
  exists (IS : @InitiatorSpec (SuperChunk * client) (smart_initiator junk node) (max * kChunkSize)) gd dn tabs blocks loc,
    inv (I := smart_initiator junk node) g (max * kChunkSize) (1 * kChunkSize) K s gd dn tabs blocks M loc /\ values_ok M.

Section Node.
Context (junk node max : Z) (g : geometry) (spin : nat) (K : list Z -> Prop) (Hg : geometry_ok g) (Hspin : (20 <= spin)%nat) (HK : keys_ok K).

Lemma smart_perform_ok std_hash fast_search_ s M o : smart_table junk node max g K s M -> op_fits K o ->
  wp (perform (H := smart_initiator junk node) g (max * kChunkSize) (1 * kChunkSize) std_hash fast_search_ 0 spin o) s
    (fun r s' => exists M', spec_step M o r M' /\ smart_table junk node max g K s' M') (may_stop o).
Proof using Hg Hspin HK.
  intros (IS & gd & dn & tabs & blocks & loc & Hi & HM) Ho. eapply wp_next; [by apply (perform_ok g _ _ Hg K HK spin Hspin std_hash fast_search_ s gd dn tabs blocks M loc o)|].
  intros r s' (gd' & tabs' & blocks' & M' & loc' & Hs & Hi'). exists M'. split; [done|]. exists IS, gd', dn, tabs', blocks', loc'. split; [done|]. by eapply values_step.
Qed.

Lemma register_super rpc : register_main_memory (max * kChunkSize + rpc) rpc = MkSuper max 1.
Proof using. unfold register_main_memory. by rewrite Z.add_simpl_r, Z.div_mul by done. Qed.

(** A node with enough chunks is set up, and the first task starts with the empty map. *)
Lemma smart_table_starts m rpc bufs block cache : 0 <= node < 2 ^ 8 -> max * kChunkSize <= 2 ^ 48 ->
  1 + chunks_of (sizeof_Directory g) + 2 ^ kInitialDepth g * chunks_of (sizeof_SubTable g) <= max ->
  mem_ok m -> length bufs = 4%nat -> alen block = kMaxBlockLength -> Forall byte_ok block -> (0 < cache)%nat ->
  exists m' r s, Setup g m (register_main_memory (max * kChunkSize + rpc) rpc) = Some (1 * kChunkSize, (m', r)) /\
  init_task g (max * kChunkSize) (1 * kChunkSize) spin bufs block cache m' (r, new_client junk) = inl (tt, s) /\ smart_table junk node max g K s ∅.
Proof using Hg Hspin.
  intros Hnode Hmax Henough Hm Hbufs Hblk Hby Hcache.
  assert (1 <= max) as Hpos by (destruct (sizes_fit g Hg) as (_ & ? & _ & ? & _ & _ & ?); nia).
  destruct (Setup_ok junk node max Hnode Hmax Hpos g Hg Henough m Hm) as (m' & r & E & Hb).
  rewrite register_super.
  pose proof (built_inv junk node max Hnode Hmax Hpos g Hg K m' r bufs block cache Hb Hbufs Hblk Hby Hcache) as Hi. set (s := Table _ _ _ _ _ _ _ _ _ _ _) in Hi.
  exists m', r, s. split; [exact E|]. split.
  - assert (forall st, init_task g (max * kChunkSize) (1 * kChunkSize) spin bufs block cache m' (r, new_client junk) = st -> st = inl (tt, s)) as Hst; [|by apply Hst].
    intros st Est. destruct (iv_base _ _ _ _ _ _ _ _ _ _ _ Hi) as [_ Hp Hd _ _ _ _]. unfold init_task in Est. set (s0 := Table _ _ _ _ _ _ _ _ _ _ _) in Est.
    pose proof (wp_load_directory g (max * kChunkSize) (1 * kChunkSize) Hg spin Hspin s0 (kInitialDepth g) (fun u s' => s' = s) (fun _ => False)) as Hw. unfold wp in Hw. rewrite Est in Hw.
    specialize (Hw (proj1 (table_held_inside _ _ _ _ _ _ _ Hp)) (do_depth _ _ _ _ _ Hd) (do_range _ _ _ _ _ Hd) eq_refl). destruct st as [[[] s']|]; [by rewrite Hw|done].
  - eexists _, _, _, _, _, _. split; [exact Hi|]. intros k v Hk. by apply lookup_empty_Some in Hk.
Qed.

Lemma smart_perform_all_ok std_hash fast_search_ os : forall s M, smart_table junk node max g K s M -> Forall (op_fits K) os ->
  wp (perform_all (H := smart_initiator junk node) g (max * kChunkSize) (1 * kChunkSize) std_hash fast_search_ 0 spin os) s
    (fun rs _ => exists M', spec_run M os rs M') (fun w => exists o, o ∈ os /\ may_stop o w).
Proof using Hg Hspin HK.
  induction os as [|o os IH]; intros s M Ht Hos; cbn [perform_all]; [wstep; exists M; constructor|]. apply Forall_cons in Hos as [Ho Hos]. wstep.
  eapply wp_mono; [by apply smart_perform_ok| |intros w Hw; exists o; split; [by left|done]]. intros r s' (M' & Hs & Ht'). wstep.
  eapply wp_mono; [by apply (IH s' M')| |intros w (o' & Ho' & Hw); exists o'; split; [by right|done]]. intros rs s2 (M2 & Hr). wstep. exists M2. by econstructor.
Qed.

End Node.

(** C4: A client of the hash table on a freshly set up node gets the results of
    a finite map.  [Setup] succeeds if the node has enough chunks behind the
    [rpc] bytes reserved for messages, which its clients skip; [init_task]
    returns, and any sequence of searches, inserts, updates, read-modify-writes
    and removes, with the splits of subtables and the growth of the directory
    that the inserts cause, returns what the map from keys to values returns.
    Only an operation that needs memory may stop, when the node has none left or
    the directory has its greatest depth; no access is outside the memory of the
    node and no loop hangs.  Values are those [strncpy] copies; an insert of a
    key that is present keeps the old value or stores the new one. *)
Theorem hash_table_refines junk node max rpc g m std_hash fast_search_ spin bufs block cache K os :
  geometry_ok g -> 0 <= node < 2 ^ 8 -> max * kChunkSize <= 2 ^ 48 ->
  1 + chunks_of (sizeof_Directory g) + 2 ^ kInitialDepth g * chunks_of (sizeof_SubTable g) <= max ->
  mem_ok m -> (20 <= spin)%nat -> length bufs = 4%nat -> alen block = kMaxBlockLength -> Forall byte_ok block -> (0 < cache)%nat ->
  keys_ok K -> Forall (op_fits K) os ->
  exists dir m' r s, Setup g m (register_main_memory (max * kChunkSize + rpc) rpc) = Some (dir, (m', r)) /\
  init_task g (max * kChunkSize) dir spin bufs block cache m' (r, new_client junk) = inl (tt, s) /\
  match perform_all (H := smart_initiator junk node) g (max * kChunkSize) dir std_hash fast_search_ 0 spin os s with
  | inl (rs, _) => exists M, spec_run ∅ os rs M
  | inr w => exists o, o ∈ os /\ may_stop o w
  end.
Proof.
  intros Hg Hnode Hmax Henough Hm Hspin Hbufs Hblk Hby Hcache HK Hos.
  destruct (smart_table_starts junk node max g spin K Hg Hspin m rpc bufs block cache) as (m' & r & s & E1 & E2 & Ht); try done.
  exists (1 * kChunkSize), m', r, s. split; [exact E1|]. split; [exact E2|].
  by apply (smart_perform_all_ok junk node max g spin K Hg Hspin HK std_hash fast_search_ os s ∅ Ht).
Qed.

(** Keys of eight bytes. *)
Definition keys8 (k : list Z) : Prop := alen k = 8 /\ Forall byte_ok k /\ Forall (fun c => c <> 0) k.

Lemma keys8_ok : keys_ok keys8.
Proof.
  split; [by intros k (_ & ?)|]. intros k k' (H1 & _) (H2 & _) Hp. apply prefix_length_eq in Hp; [done|]. unfold alen in *. lia.
Qed.

Lemma hash_table_refines_witness :
  let key := [107; 101; 121; 48; 48; 48; 48; 49] in
  let os := [Insert key [49]; Search key; Update key [50; 50]; Rmw key (fun _ => [51]); Insert key [52]; Remove key; Search key] in
  exists dir m' r s, Setup smart_geometry ∅ (register_main_memory (2 ^ 33 * kChunkSize + 2 ^ 17) (2 ^ 17)) = Some (dir, (m', r)) /\
  init_task smart_geometry (2 ^ 33 * kChunkSize) dir 20 (replicate 4 (MkBucket 0 0 [])) (replicate 4096 0) 16 m' (r, new_client 0) = inl (tt, s) /\
  match perform_all (H := smart_initiator 0 1) smart_geometry (2 ^ 33 * kChunkSize) dir (fun _ => 0) true 0 20 os s with
  | inl (rs, _) => exists M, spec_run ∅ os rs M
  | inr w => exists o, o ∈ os /\ may_stop o w
  end.
Proof.
  intros key os. assert (keys8 key) as Hk.
  { split; [reflexivity|]. split; repeat (apply Forall_cons_2); try apply Forall_nil_2; unfold byte_ok; lia. }
  assert (forall v, Forall byte_ok v -> alen v <= 2 -> value_fits key v) as Hv.
  { intros v Hb Hl. split; [done|]. pose proof (alen_nonneg v). unfold get_kv_block_len, kMaxBlockLength, sizeof_BlockHeader, kBlockLengthUnit. change (alen key) with 8. dlia. }
  assert (forall c, 0 <= c < 256 -> value_fits key [c]) as Hv1 by (intros c Hc; apply Hv; [apply Forall_cons; split; [exact Hc|apply Forall_nil_2]|done]).
  apply (hash_table_refines 0 1 (2 ^ 33) (2 ^ 17) smart_geometry ∅ (fun _ => 0) true 20 _ _ 16 keys8 os smart_geometry_ok); try (cbn; lia).
  - by apply Z.leb_le.
  - by apply Z.leb_le.
  - intros a. unfold ld8. rewrite lookup_empty. cbn. unfold byte_ok. lia.
  - reflexivity.
  - apply Forall_replicate. unfold byte_ok. lia.
  - exact keys8_ok.
  - repeat (apply Forall_cons_2); try apply Forall_nil_2; cbn [op_fits]; try exact Hk; (split; [exact Hk|]); try (apply Hv1; lia).
    + apply Hv; [repeat (apply Forall_cons_2); try apply Forall_nil_2; unfold byte_ok; lia|done].
    + intros v _. apply Hv1. lia.
Defined.
