(* ===== verification/HtShards.v ===== *)
(** fusioncas/smart_ht/hashtable.h: RemoteHashTableMultiShard, a hash table over
    several memory nodes.

    A hash of the key selects the node, and the operation is that of the table
    of this node.  The theorem shows that the tables together are one map. *)

From S2P Require Import Prelude Mem HtBlock SmartAlloc HashTable HtSetup HashTableSpec HtRefine.

Definition get_shard (nr_shards : Z) (key : list Z) : Z := MurmurHash3_x86_32 key 0x1b873593 mod nr_shards.

Definition op_key (o : ht_op) : list Z :=
  match o with Search k | Insert k _ | Update k _ | Rmw k _ | Remove k => k end.

Section Shards.

(** The tables differ in their nodes: the allocator, the size of the memory, the
    offset of the directory, the option of the constructor. *)
Context {A : Type} (inits : Z -> Initiator A) (g : geometry) (regions dirs : Z -> Z) (std_hash : list Z -> Z) (fast_search_ : Z -> bool) (task : Z) (spin : nat).

(** [get_shard (key)->...]. *)
Definition shard_perform (o : ht_op) : comp (list (table A)) ht_result := fun ss =>
  let i := get_shard (alen ss) (op_key o) in
  match ss.[i] with
  | None => inr Undefined
  | Some s =>
    match perform (H := inits i) g (regions i) (dirs i) std_hash (fast_search_ i) task spin o s with
    | inl (r, s') => inl (r, <[Z.to_nat i := s']> ss)
    | inr w => inr w
    end
  end.

Fixpoint shard_perform_all (os : list ht_op) : comp (list (table A)) (list ht_result) :=
  match os with
  | [] => mret []
  | o :: os => r ← shard_perform o; rs ← shard_perform_all os; mret (r :: rs)
  end.

(** ** One map *)

(** What the tables promise: [good i s M] says that the table of node [i] is the map [M]. *)
Context (K : list Z -> Prop) (n : Z) (Hn : 0 < n) (good : Z -> table A -> gmap (list Z) (list Z) -> Prop).
Context (Hgood : forall i s M o, 0 <= i < n -> good i s M -> op_fits K o ->
  wp (perform (H := inits i) g (regions i) (dirs i) std_hash (fast_search_ i) task spin o) s (fun r s' => exists M', spec_step M o r M' /\ good i s' M') (may_stop o)).

(** An operation depends on the value of its key and changes nothing else. *)
Lemma spec_step_local M Mi o r Mi' : spec_step Mi o r Mi' -> Mi !! op_key o = M !! op_key o ->
  exists M', spec_step M o r M' /\ M' !! op_key o = Mi' !! op_key o /\ forall k, k <> op_key o -> M' !! k = M !! k /\ Mi' !! k = Mi !! k.
Proof using.
  intros Hs E.
  assert (forall v, exists M', M' = <[op_key o := v]> M /\ M' !! op_key o = <[op_key o := v]> Mi !! op_key o /\ forall k, k <> op_key o -> M' !! k = M !! k /\ <[op_key o := v]> Mi !! k = Mi !! k) as Hins.
  { intros v. eexists. split; [done|]. split; [by rewrite !lookup_insert_eq|]. intros k Hk. by rewrite !lookup_insert_ne by done. }
  destruct o as [k|k v|k v|k f|k]; cbn [spec_step op_key] in *; rewrite <- ?E.
  - destruct Hs as [-> ->]. by exists M.
  - destruct Hs as [-> [->|[-> Hk]]]; [destruct (Hins (strz v)) as (M' & -> & ?); eexists; split; [by split; [|left]|done]|]. exists M. split; [split; [done|by right]|done].
  - destruct (Mi !! k) eqn:Ek; destruct Hs as [-> ->]; [destruct (Hins (strz v)) as (M' & -> & ?); by eexists|exists M; by rewrite Ek].
  - destruct (Mi !! k) as [w|] eqn:Ek; destruct Hs as [-> ->]; [destruct (Hins (strz (f w))) as (M' & -> & ?); by eexists|exists M; by rewrite Ek].
  - destruct (Mi !! k) eqn:Ek; destruct Hs as [-> ->]; [|exists M; by rewrite Ek]. eexists. split; [done|]. split; [by rewrite !lookup_delete_eq|]. intros k' Hk. by rewrite !lookup_delete_ne by done.
Qed.

(** The tables agree with [M] on the keys they are responsible for. *)
Definition together (ss : list (table A)) (M : gmap (list Z) (list Z)) : Prop :=
  alen ss = n /\ forall i, 0 <= i < n -> exists s Mi, ss.[i] = Some s /\ good i s Mi /\ forall k, get_shard n k = i -> Mi !! k = M !! k.

Lemma shard_perform_ok ss M o : together ss M -> op_fits K o ->
  wp (shard_perform o) ss (fun r ss' => exists M', spec_step M o r M' /\ together ss' M') (may_stop o).
Proof using Hn Hgood.
  intros [Hlen Hall] Ho. unfold wp, shard_perform. rewrite Hlen. set (i := get_shard n (op_key o)). assert (0 <= i < n) as Hi by (apply Z.mod_pos_bound; lia).
  destruct (Hall i Hi) as (s & Mi & -> & Hg & Hk). pose proof (Hgood i s Mi o Hi Hg Ho) as Hw. unfold wp in Hw. destruct (perform _ _ _ _ _ _ _ _ _) as [[r s']|w]; [|done].
  destruct Hw as (Mi' & Hs & Hg'). destruct (spec_step_local M Mi o r Mi' Hs (Hk _ eq_refl)) as (M' & Hs' & Ek & Hother). exists M'. split; [done|].
  pose proof (aset_Some ss i s' ltac:(lia)) as Ea. split; [by rewrite (aset_alen _ _ _ _ Ea)|]. intros j Hj. destruct (Z.eq_dec j i) as [->|Hne].
  - exists s', Mi'. split; [by rewrite (aget_aset_eq _ _ _ _ Ea)|]. split; [done|]. intros k Hki. destruct (decide (k = op_key o)) as [->|Hko]; [done|]. destruct (Hother k Hko) as [-> ->]. by apply Hk.
  - destruct (Hall j Hj) as (sj & Mj & Ej & Hgj & Hkj). exists sj, Mj. split; [by rewrite (aget_aset_ne _ _ _ _ _ Ea) by lia|]. split; [done|]. intros k Hkk. destruct (Hother k) as [-> _]; [intros ->; done|by apply Hkj].
Qed.

Lemma shard_perform_all_ok os : forall ss M, together ss M -> Forall (op_fits K) os ->
  wp (shard_perform_all os) ss (fun rs _ => exists M', spec_run M os rs M') (fun w => exists o, o ∈ os /\ may_stop o w).
Proof using Hn Hgood.
  induction os as [|o os IH]; intros ss M Ht Hos; cbn [shard_perform_all]; [wstep; exists M; constructor|]. apply Forall_cons in Hos as [Ho Hos]. wstep.
  eapply wp_mono; [by apply shard_perform_ok| |intros w Hw; exists o; split; [by left|done]]. intros r ss' (M' & Hs & Ht'). wstep.
  eapply wp_mono; [by apply (IH ss' M')| |intros w (o' & Ho' & Hw); exists o'; split; [by right|done]]. intros rs ss2 (M2 & Hr). wstep. exists M2. by econstructor.
Qed.

End Shards.

Lemma collect {T} (P : Z -> T -> Prop) (n : nat) : (forall i, 0 <= i < Z.of_nat n -> exists x, P i x) ->
  exists l, alen l = Z.of_nat n /\ forall i, 0 <= i < Z.of_nat n -> exists x, l.[i] = Some x /\ P i x.
Proof.
  induction n as [|n IH]; intros HP; [exists []; split; [done|lia]|]. destruct IH as (l & Hl & Hall); [intros i Hi; apply HP; lia|]. destruct (HP (Z.of_nat n)) as (x & Hx); [lia|].
  exists (l ++ [x]). unfold alen, aget in *. split; [rewrite length_app; cbn [length]; lia|]. intros i Hi. destruct (Z.eq_dec i (Z.of_nat n)) as [->|Hne].
  - exists x. split; [|done]. rewrite (proj2 (Z.leb_le 0 _)) by lia. rewrite Nat2Z.id. apply list_lookup_middle. lia.
  - destruct (Hall i) as (y & Hy & HPy); [lia|]. exists y. split; [|done]. rewrite (proj2 (Z.leb_le 0 _)) in * by lia. rewrite lookup_app_l by lia. done.
Qed.

(** C16: A hash table over several memory nodes is one finite map.  Every node is
    set up by itself; the key selects the node by its hash; and any sequence of
    operations over all nodes returns what one map from keys to values returns,
    or stops where the node of the key has no memory left or its directory has
    its greatest depth.  The clients of this class do not skip a region for
    messages, so the nodes have none. *)
Theorem shards_refine n junk max g m std_hash fast_search_ spin bufs block cache K os :
  0 < n <= 2 ^ 8 -> geometry_ok g -> (20 <= spin)%nat -> keys_ok K -> Forall (op_fits K) os ->
  (forall i, 0 <= i < n -> max i * kChunkSize <= 2 ^ 48 /\
    1 + chunks_of (sizeof_Directory g) + 2 ^ kInitialDepth g * chunks_of (sizeof_SubTable g) <= max i /\
    mem_ok (m i) /\ length (bufs i) = 4%nat /\ alen (block i) = kMaxBlockLength /\ Forall byte_ok (block i) /\ (0 < cache i)%nat) ->
  exists dir ss, alen ss = n /\
  (forall i, 0 <= i < n -> exists m' r s, ss.[i] = Some s /\ Setup g (m i) (register_main_memory (max i * kChunkSize) 0) = Some (dir, (m', r)) /\
    init_task g (max i * kChunkSize) dir spin (bufs i) (block i) (cache i) m' (r, new_client junk) = inl (tt, s)) /\
  match shard_perform_all (smart_initiator junk) g (fun i => max i * kChunkSize) (fun _ => dir) std_hash fast_search_ 0 spin os ss with
  | inl (rs, _) => exists M, spec_run ∅ os rs M
  | inr w => exists o, o ∈ os /\ may_stop o w
  end.
Proof.
  intros [Hn Hn8] Hg Hspin HK Hos Hnode.
  set (P i s := exists m' r, Setup g (m i) (register_main_memory (max i * kChunkSize + 0) 0) = Some (1 * kChunkSize, (m', r)) /\
    init_task g (max i * kChunkSize) (1 * kChunkSize) spin (bufs i) (block i) (cache i) m' (r, new_client junk) = inl (tt, s) /\ smart_table junk i (max i) g K s ∅).
  destruct (collect P (Z.to_nat n)) as (ss & Hlen & Hall); rewrite ?Z2Nat.id in * by lia.
  { intros i Hi. destruct (Hnode i Hi) as (H1 & H2 & H3 & H4 & H5 & H6 & H7). destruct (smart_table_starts junk i (max i) g spin K Hg Hspin (m i) 0 (bufs i) (block i) (cache i)) as (m' & r & s & E); try done; [lia|]. exists s. by exists m', r. }
  exists (1 * kChunkSize), ss. split; [done|]. split.
  { intros i Hi. destruct (Hall i Hi) as (s & Es & m' & r & E1 & E2 & _). rewrite Z.add_0_r in E1. by exists m', r, s. }
  apply (shard_perform_all_ok (smart_initiator junk) g (fun i => max i * kChunkSize) (fun _ => 1 * kChunkSize) std_hash fast_search_ 0 spin K n Hn (fun i => smart_table junk i (max i) g K)) with (M := ∅); [|split; [done|]|done].
  - intros i s M o _ Hs Ho. by apply smart_perform_ok.
  - intros i Hi. destruct (Hall i Hi) as (s & Es & m' & r & _ & _ & Ht). by exists s, ∅.
Qed.

Lemma shards_refine_witness :
  let key := [107; 101; 121; 48; 48; 48; 48; 49] in
  let key2 := [107; 101; 121; 48; 48; 48; 48; 50] in
  let os := [Insert key [49]; Insert key2 [50]; Search key; Remove key2; Search key2] in
  exists dir ss, alen ss = 2 /\
  (forall i, 0 <= i < 2 -> exists m' r s, ss.[i] = Some s /\ Setup smart_geometry ∅ (register_main_memory (2 ^ 33 * kChunkSize) 0) = Some (dir, (m', r)) /\
    init_task smart_geometry (2 ^ 33 * kChunkSize) dir 20 (replicate 4 (MkBucket 0 0 [])) (replicate 4096 0) 16 m' (r, new_client 0) = inl (tt, s)) /\
  match shard_perform_all (smart_initiator 0) smart_geometry (fun _ => 2 ^ 33 * kChunkSize) (fun _ => dir) (fun _ => 0) (fun i => i =? 0) 0 20 os ss with
  | inl (rs, _) => exists M, spec_run ∅ os rs M
  | inr w => exists o, o ∈ os /\ may_stop o w
  end.
Proof.
  intros key key2 os. assert (forall c, 0 < c < 256 -> keys8 [107; 101; 121; 48; 48; 48; 48; c]) as Hk.
  { intros c Hc. split; [reflexivity|]. split; repeat (apply Forall_cons_2); try apply Forall_nil_2; unfold byte_ok; lia. }
  assert (forall c d, 0 <= c < 256 -> value_fits [107; 101; 121; 48; 48; 48; 48; d] [c]) as Hv.
  { intros c d Hc. split; [apply Forall_cons_2; [exact Hc|apply Forall_nil_2]|]. unfold get_kv_block_len, kMaxBlockLength, sizeof_BlockHeader, kBlockLengthUnit. change (alen [107; 101; 121; 48; 48; 48; 48; d]) with 8. change (alen [c]) with 1. dlia. }
  apply (shards_refine 2 0 (fun _ => 2 ^ 33) smart_geometry (fun _ => ∅) (fun _ => 0) (fun i => i =? 0) 20 (fun _ => replicate 4 (MkBucket 0 0 [])) (fun _ => replicate 4096 0) (fun _ => 16%nat) keys8 os); [lia|exact smart_geometry_ok|lia|exact keys8_ok| |].
  - repeat (apply Forall_cons_2); try apply Forall_nil_2; cbn [op_fits]; try (apply Hk; lia); (split; [apply Hk; lia|apply Hv; lia]).
  - intros i _. split; [by apply Z.leb_le|]. split; [by apply Z.leb_le|]. split; [|split; [reflexivity|split; [reflexivity|split; [|lia]]]].
    + intros a. unfold ld8. rewrite lookup_empty. cbn. unfold byte_ok. lia.
    + apply Forall_replicate. unfold byte_ok. lia.
Defined.
